(* ===== verification/_CoqProject ===== *)
-Q . S2P
Prelude.v
F64.v
Json.v
ByteRange.v
BitReader.v
CodecBytes.v
Avc.v
Hevc.v
Av1.v
CodecConfig.v
CodecProofs.v
Conditions.v
Compatibility.v
Ladder.v
DecisionEngine.v
DecisionProofs.v
StreamPlan.v
Transcode.v
TranscodeProofs.v
Recovery.v
Readiness.v
SourceCapabilities.v
DescriptorProofs.v
VodQueue.v
VodOwner.v
Workers.v
Scheduler.v
Subtitles.v
Trim.v
SubtitlesProofs.v
Segments.v
SegmentsProofs.v
Admission.v
Ledger.v
LedgerProofs.v
AdmissionOwner.v
AdmissionOwnerProofs.v
AdmissionWorld.v
HouseholdOwner.v
HouseholdOwnerProofs.v
Ip.v
BTree.v
LiveImport.v
LiveGuide.v
LiveGuideProofs.v
LivePlaylist.v
LivePlaylistProofs.v
LiveCodec.v
LiveCodecProofs.v
LiveCatalog.v
LiveCatalogProofs.v
LiveDestination.v
LiveDestinationProofs.v
LiveAssignments.v
LiveAssignmentsProofs.v
LiveRefresh.v
LiveRefreshProofs.v
LiveViewing.v
LiveViewingProofs.v
LiveTransport.v
LiveTransportProofs.v
Revisions.v
RevisionsProofs.v
Viewers.v
ViewersProofs.v
ViewersRows.v
ViewersTheorems.v
