(* ===== verification/Prelude.v ===== *)
(** * Duskcue verification library: root file

    Duskcue is a self-hosted media server.  The core of the program is its server,
    src/server/src/: it probes media files, decides per client whether a file is
    played as it is, remuxed or transcoded, runs and supervises FFmpeg, and
    streams the result; around that are HTTP domains, background workers and
    external services.  This library models the core in pure functions and step
    relations and proves what makes it correct.

    ** How the parts work together

    A library scan reads the decoder configuration of a file (BitReader,
    CodecBytes, Avc, Hevc, Av1, CodecConfig) and stores it in a descriptor that is
    validated each time it is read (SourceCapabilities).  When a client wants to
    play, the decision engine compares the file with the device, the network and
    the quality mode (F64, Json, Compatibility, Ladder, DecisionEngine); its
    decision becomes a plan per stream (StreamPlan) and an FFmpeg command and
    session (Transcode).  The running process is watched, classified and restarted
    within a budget (Recovery).  The files it writes are announced once they are
    complete (Readiness); the task that owns it ends with the cache (Workers).  A
    stream must first be admitted for its household (Admission, Ledger), by the
    owner that runs it (AdmissionOwner).  Responses are streamed through a bounded
    queue (VodQueue) and owned by generations that retire together (VodOwner).  While
    it is watched, the viewer may be changed to another output, which replaces the
    one before in rows of the database (Revisions) and in its process (Viewers).  A
    client may ask for a part of a file (ByteRange), or for subtitles in a format of
    its choice (Subtitles).  Rules on media items are JSON filters (Conditions).
    Background work is claimed and run by the scheduler (Scheduler); one of its tasks
    finds intros and credits (Segments).

    Live television is a pipeline over one database.  An administrator who has just
    proven to be there (HouseholdOwner) assigns a playlist and a guide to a household
    and approves the addresses they may be fetched from (LiveAssignments,
    LiveDestination).  An import claims the assignment by a fence - household,
    assignment, generation - and by an attempt, reads the feeds (LivePlaylist,
    LiveGuide, over the limits and times of LiveImport), seals every field to its
    place (LiveCodec), and publishes the catalogue if fence and attempt still hold
    (LiveRefresh).  Profiles that may watch read the catalogue page by page
    (LiveViewing, LiveCatalog).  A channel itself is passed through FFmpeg by a
    transport, one at a time, that reads an approved address, feeds the process and
    offers the segments it writes (LiveTransport).

    ** Files

    - Prelude.v: results and options with early return, machine integers, strings
      as UTF-8 bytes, decimal numbers, the hint databases [dk] and [dk_str], the
      tactics ([dk_lia], [dk_bool], [dk_case], [dk_ensure], [dk_decide]) and the
      lemmas the components share.
    - F64.v: [f64] as IEEE binary64 over SpecFloat: comparison, conversion,
      parsing, fixed-point printing.
    - Json.v: [serde_json::Value] and its accessors.
    - ByteRange.v: domains/playback/range.rs.
    - BitReader.v: the [Bits] reader of services/source_capabilities/configuration.rs.
    - CodecBytes.v, Avc.v, Hevc.v, Av1.v, CodecConfig.v: configuration.rs and
      configuration/{avc,hevc,av1,audio}.rs; CodecProofs.v compares them with
      encoders of well-formed records.
    - Conditions.v: services/conditions.rs.
    - Compatibility.v: services/decision_engine/compatibility.rs and its uses.
    - Ladder.v: the rendition ladder of services/transcoding.rs.
    - DecisionEngine.v: services/decision_engine.rs; DecisionProofs.v its theorems.
    - StreamPlan.v: services/transcoding/plan.rs.
    - Transcode.v: services/transcoding.rs and transcoding/{encoding,arguments,
      output_profile,source_copy_profile,start,session}.rs; TranscodeProofs.v its
      theorems.
    - Recovery.v: transcoding/{failure,progress,watchdog,recovery}.rs.
    - Readiness.v: transcoding/{readiness,readiness_mp4,readiness_playlist}.rs.
    - SourceCapabilities.v: services/source_capabilities.rs, its validation.rs and
      identity.rs, and workers/library_scanner/probe_capabilities.rs;
      DescriptorProofs.v its theorems.
    - VodQueue.v: services/vod_lifecycle/{queue,body,read}.rs (the response task).
    - VodOwner.v: services/vod_lifecycle/{owner,generation,read}.rs (ownership).
    - Scheduler.v: services/scheduler.rs.
    - Workers.v: transcoding/{lifecycle,lifecycle_execution}.rs.
    - Subtitles.v: services/subtitles.rs and the delivery of
      domains/subtitles/service.rs; SubtitlesProofs.v its theorems.
    - Segments.v: services/segments.rs and the rows workers/segment_detector.rs
      writes; SegmentsProofs.v its theorems.
    - Admission.v: the tables of playback admission (services/playback_admission/
      {types,policy,vod,database}.rs) and the triggers of src/server/migrations that
      guard them; Ledger.v: its transactions ({ledger,operator,retention}.rs and
      domains/playback/commands/settlement); LedgerProofs.v their theorems.
    - AdmissionOwner.v: playback_admission/owner: the entries of a process, its
      tasks, each run from one wait to the next, and worlds of processes over the
      tables of Ledger; AdmissionOwnerProofs.v: the invariant of an owner and the
      steps that keep it; AdmissionWorld.v: the theorems on worlds.
    - Revisions.v: playback_admission/vod/revisions and the transactions of
      domains/playback/commands/{control,publication,output,execution,database} on the
      tables of one viewer, with the triggers that guard them; RevisionsProofs.v:
      [sound], the invariant of these rows, and what every transaction keeps.
    - Viewers.v: domains/playback/commands/{ownership,output,publication,execution}.rs
      and control/service.rs, the task and the requests of a viewer over these rows;
      ViewersProofs.v: [inv], the invariant of its objects and tasks; ViewersRows.v:
      how objects and rows agree; ViewersTheorems.v: the theorems and a viewer that
      is changed twice, as an example.
    - Trim.v, BTree.v, Ip.v: white space, ordered maps and addresses of Rust's
      standard library, for the files below and Subtitles.
    - HouseholdOwner.v: domains/household_security and
      domains/auth/service/passkeys.rs; HouseholdOwnerProofs.v its theorems.
    - LiveImport.v, LiveGuide.v, LivePlaylist.v, LiveCodec.v: domains/live_tv/feed/
      imports/{error,limits,time,model}, {xml_fields,xml}, {m3u,compression} and
      {codec,publication}.rs with services/encryption/context.rs; LiveGuideProofs.v,
      LivePlaylistProofs.v and LiveCodecProofs.v their theorems.
    - LiveCatalog.v: domains/live_tv/catalog and feed/imports/reader;
      LiveCatalogProofs.v its theorems.
    - LiveDestination.v: domains/live_tv/{service,types,destination}.rs, destination/,
      feed/source.rs, transport/source.rs; LiveDestinationProofs.v its theorems.
    - LiveAssignments.v: domains/live_tv/assignment; LiveAssignmentsProofs.v its
      theorems.
    - LiveRefresh.v: domains/live_tv/refresh and feed/imports/{receipt,storage,
      publication,operation,status}.rs; LiveRefreshProofs.v: processes that import
      over one database while assignments, accounts and policies change.
    - LiveViewing.v: catalog/{admission,authority,database,service}.rs and the
      capabilities of domains/auth/service.rs; LiveViewingProofs.v: what a profile
      is shown, over the systems of LiveRefreshProofs.
    - LiveTransport.v: domains/live_tv/transport, with the tasks, sessions, readers
      and shutdowns of an owner as one step relation; LiveTransportProofs.v its
      theorems.

    A definition keeps the name of the item it models; where the source has one
    long function, its parts are definitions of their own and the comment says
    which.  PROJECT.json maps every definition to its lines.

    ** What the theorems show

    - Parsers: each accepts exactly, or only, the encodings of well-formed values
      (Avc, Hevc, Av1, Readiness), agrees with an abstract reading (ByteRange,
      Conditions), or is undone by the consumer of its output (escaping in
      Transcode, scanned codecs in SourceCapabilities).
    - Decisions: direct play is chosen exactly for playable files, every other
      decision is explained by a recorded reason, targets stay within the limits,
      high dynamic range is never encoded, and a restart runs the same command.
    - Detection: two episodes share an intro exactly when their fingerprints agree
      long enough, credits are exactly the groups of black frames, and every
      segment found meets the constraints of its table (Segments).
    - Subtitles: the cues a file holds are the cues delivered, whatever the formats,
      moved by the offset of the user; the alignment finds the best offset.
    - Supervision: recovery is bounded, progress reports are in range, the
      watchdog expires exactly without progress, a task is disabled exactly after
      its failures in a row.
    - Concurrency: the response queue loses no wake-up, reorders nothing and
      always completes; a retired generation sends nothing more and drains empty;
      permits are conserved; a task runs once at a time while nobody cancels it,
      and two runs of it that overlap after a cancellation are exhibited.
    - Composition: a stream is announced only when playlist and files agree
      (Readiness over CodecBytes); a stop that returns success finds the process gone,
      the generation of VodOwner drained and the cache removed, is never answered
      with an old failure and always answered (Workers over VodOwner and Recovery).
    - Admission: in any history of the ledger an identity is admitted at most once
      and never after a withdrawal, and a household never has more streams than its
      ceiling allows.  Composed with the owners: the streams that run in all
      processes are within the ceiling, each identity is started at most once, and an
      owner that drained leaves no reservation.  The first and the last hold where
      the monitor acts on entries that are still registered; without that, two
      streams under a ceiling of one are exhibited.
    - Changes of viewers: whatever requests, processes and lost transactions do, an
      output encodes only while its viewer is counted, a viewer has one process at
      most, of two changes the second was made against the first, its rows stay
      consistent, its end is accepted by every trigger, and a viewer that has ended
      holds nothing.
    - Household protection: management that passes has a proof behind it, five
      refusals lock for fifteen minutes, the last factor stays.
    - Live television: what a household watches changes only after such a proof; an
      address that is connected to was approved and is allowed; approvals, sealed
      fields and playlist attributes read back; what is sealed for one place does
      not open at another; the flags of a guide are those of the comparison of all
      pairs; a catalogue meets the constraints of its tables and is paged without
      gaps or repetitions.  Composed: whatever processes import and whatever changes
      meanwhile, a catalogue that appears is of feeds approved at that moment, gives
      way to later attempts only, and is reported as it is stored; and what a profile
      is shown was parsed from the feeds, at the addresses, its household has at the
      moment of the read.
    - Live transport: what FFmpeg is given is what the server sent; what is offered
      is bounded and complete; over every interleaving there is one transport at most,
      a session that has finished leaves nothing behind, a cancelled one ends and
      whoever waits for it is answered, and output is read only while it is watched.

    ** Bounds and fuel

    Integers are [Z] with the width of the source in the comparisons and the
    wrap-around, saturation or checked operation written where the source has it.
    Loops that are not structural take fuel: the bytes left for the box, unit and
    padding loops, the nesting depth of a JSON value for filters, the length of
    the string for trimming, the offsets of the subtitle alignment; each file says
    why its fuel is enough, and where it matters a theorem says that the loop ends (the padding loop of AAC, the
    response task of VodQueue, the task of Workers).

    ** Parameters

    Code outside the repository is a parameter: Unicode lower-casing, UTF-8
    decoding, the regex and croner crates, the fingerprinter, serde_json, the
    digest and the authenticated encryption of ring, base64, the url, quick-xml,
    flate2 and webauthn crates, and the hashing of passwords.  They are classes
    ([Env], [Crypto], [Payloads], [Feeds], ...); what a theorem relies on is a class of
    laws ([CryptoLaws], [UrlLaws], ...) with an instance for the witnesses.  In
    Ledger, what a transaction reads of tables that are not modelled is a parameter
    too.  How a transaction of LiveRefresh ends - in time or not, committed with or
    without an answer, rolled back, closed - is an input of every step ([Weather]).
    No axiom is used.

    ** Not modelled

    The SQL of the HTTP domains and workers, whose state lives in PostgreSQL
    (except where a component above follows single rows of it); HTTP routing,
    extractors and handlers; clients of external services (TMDB, TVDB, Trakt,
    OpenSubtitles, ...); image processing; process creation and the sandbox
    (system calls); the connections of live television; the web,
    desktop and mobile clients (other languages); the migrations but for the triggers
    and constraints above, configuration and logging.

    ** Plan

    What could be modelled next: the owner of the feeds of live television, the
    choice of the plan of a changed viewer (control/recovery), collection rules,
    search cursors and the matching of media. *)

From Stdlib Require Export ZArith Ascii String Lia.
From stdpp Require Export base list strings.

#[global] Open Scope Z_scope.
#[global] Arguments String.append : simpl nomatch.

(** ** Results: Rust's [Result<A, E>] with early return *)

Inductive result (A E : Type) : Type :=
| Ok (a : A)
| Err (e : E).
Arguments Ok {A E} a.
Arguments Err {A E} e.

Declare Scope dk_scope.
Delimit Scope dk_scope with dk.

(** [let? x := r in k] is Rust's [let x = r?; k] on [Result]; [let! x := o in k]
    is the same on [Option]; [ensure b in k] is [if !b { return None } k]. *)
Notation "'let?' x ':=' r 'in' k" :=
  (match r with Ok x => k | Err e => Err e end)
  (at level 10, x pattern, r at level 100, k at level 200,
   format "'[v' 'let?'  x  ':='  r  'in'  '//' k ']'") : dk_scope.
Notation "'let!' x ':=' o 'in' k" :=
  (match o with Some x => k | None => None end)
  (at level 10, x pattern, o at level 100, k at level 200,
   format "'[v' 'let!'  x  ':='  o  'in'  '//' k ']'") : dk_scope.
Notation "'ensure' b 'in' k" :=
  (if b then k else None)
  (at level 10, b at level 100, k at level 200,
   format "'[v' 'ensure'  b  'in'  '//' k ']'") : dk_scope.
#[global] Open Scope dk_scope.

Definition ok_or {A E} (o : option A) (e : E) : result A E :=
  match o with Some a => Ok a | None => Err e end.

Definition is_ok {A E} (r : result A E) : bool :=
  match r with Ok _ => true | Err _ => false end.

Definition unwrap_or {A} (o : option A) (d : A) : A :=
  match o with Some a => a | None => d end.

(** [Option::or] *)
Definition option_or {A} (a b : option A) : option A :=
  match a with Some _ => a | None => b end.

(** [Option::is_some_and] and [Option::is_none_or] *)
Definition is_some_and {A} (o : option A) (f : A -> bool) : bool :=
  match o with Some a => f a | None => false end.
Definition is_none_or {A} (o : option A) (f : A -> bool) : bool :=
  match o with Some a => f a | None => true end.
Definition is_some_b {A} (o : option A) : bool :=
  match o with Some _ => true | None => false end.

(** ** Machine integers, kept as [Z] within their width *)

Definition u8_max : Z := 255.
Definition u32_max : Z := 4294967295.
Definition u64_max : Z := 18446744073709551615.
Definition i64_max : Z := 9223372036854775807.
Definition i64_min : Z := -9223372036854775808.
Definition i32_max : Z := 2147483647.
Definition i32_min : Z := -2147483648.
Definition is_u8 (n : Z) : Prop := 0 <= n <= u8_max.
Definition is_u32 (n : Z) : Prop := 0 <= n <= u32_max.
Definition is_u64 (n : Z) : Prop := 0 <= n <= u64_max.

Definition is_i32 (n : Z) : Prop := i32_min <= n <= i32_max.

(** Two's complement wrap-around of [i32] arithmetic. *)
Definition wrap_i32 (n : Z) : Z := (n - i32_min) mod 4294967296 + i32_min.

(** [u64::saturating_sub], [u64::saturating_add], [u64::checked_add],
    [u64::checked_sub] *)
Definition sat_sub (a b : Z) : Z := Z.max 0 (a - b).
Definition sat_add64 (a b : Z) : Z := Z.min u64_max (a + b).
Definition checked_add64 (a b : Z) : option Z :=
  if a + b <=? u64_max then Some (a + b) else None.
Definition checked_sub64 (a b : Z) : option Z :=
  if b <=? a then Some (a - b) else None.

(** ** Strings: Rust's [str] as its UTF-8 bytes *)

Module Str.

(** [str::len]: the number of bytes. *)
Definition len (s : string) : Z := Z.of_nat (String.length s).

Definition is_digit (c : ascii) : bool :=
  let n := nat_of_ascii c in ((48 <=? n) && (n <=? 57))%nat.

Definition is_hexdigit (c : ascii) : bool :=
  let n := nat_of_ascii c in
  (is_digit c || ((65 <=? n) && (n <=? 70)) || ((97 <=? n) && (n <=? 102)))%nat.

(** [u8::to_ascii_lowercase] and [str::to_ascii_lowercase] *)
Definition lower_char (c : ascii) : ascii :=
  let n := nat_of_ascii c in
  if ((65 <=? n) && (n <=? 90))%nat then ascii_of_nat (n + 32) else c.

Fixpoint lower (s : string) : string :=
  match s with
  | EmptyString => EmptyString
  | String c t => String (lower_char c) (lower t)
  end.

(** [str::eq_ignore_ascii_case] *)
Definition eq_ignore_case (a b : string) : bool := String.eqb (lower a) (lower b).

(** [bytes().all(p)] *)
Fixpoint all (p : ascii -> bool) (s : string) : bool :=
  match s with
  | EmptyString => true
  | String c t => p c && all p t
  end.

Definition is_empty (s : string) : bool :=
  match s with EmptyString => true | _ => false end.

(** [str::split_once(c)] for an ASCII separator *)
Fixpoint split_once (c : ascii) (s : string) : option (string * string) :=
  match s with
  | EmptyString => None
  | String d t =>
      if Ascii.eqb c d then Some (EmptyString, t)
      else match split_once c t with
           | Some (a, b) => Some (String d a, b)
           | None => None
           end
  end.

(** [str::split(c)]: always at least one piece *)
Fixpoint split (c : ascii) (s : string) : list string :=
  match s with
  | EmptyString => [EmptyString]
  | String d t =>
      if Ascii.eqb c d then EmptyString :: split c t
      else match split c t with
           | p :: ps => String d p :: ps
           | [] => [String d EmptyString]
           end
  end.

(** [str::strip_prefix] *)
Fixpoint strip_prefix (p s : string) : option string :=
  match p, s with
  | EmptyString, _ => Some s
  | String a p', String b s' => if Ascii.eqb a b then strip_prefix p' s' else None
  | String _ _, EmptyString => None
  end.

Definition starts_with (p s : string) : bool := is_some_b (strip_prefix p s).

(** Reversal, for the operations that work from the end. *)
Fixpoint rev_append (s acc : string) : string :=
  match s with
  | EmptyString => acc
  | String c t => rev_append t (String c acc)
  end.
Definition rev (s : string) : string := rev_append s EmptyString.

(** [str::strip_suffix] *)
Definition strip_suffix (p s : string) : option string :=
  match strip_prefix (rev p) (rev s) with
  | Some t => Some (rev t)
  | None => None
  end.

Definition ends_with (p s : string) : bool := is_some_b (strip_suffix p s).

(** [str::contains] for a substring *)
Fixpoint contains (p s : string) : bool :=
  starts_with p s ||
  match s with
  | EmptyString => false
  | String _ t => contains p t
  end.

Fixpoint contains_char (c : ascii) (s : string) : bool :=
  match s with
  | EmptyString => false
  | String d t => Ascii.eqb c d || contains_char c t
  end.

(** [char::is_whitespace] is the Unicode property White_Space.  These are the
    UTF-8 encodings of its code points, from U+0009 to U+3000. *)
Definition bytes (l : list nat) : string :=
  fold_right (fun n s => String (ascii_of_nat n) s) EmptyString l.
Definition whitespace : list string :=
  map bytes
    ([[9]; [10]; [11]; [12]; [13]; [32]; [194; 133]; [194; 160];
      [225; 154; 128]; [226; 128; 168]; [226; 128; 169]; [226; 128; 175];
      [226; 129; 159]; [227; 128; 128]]
     ++ map (fun n => [226; 128; n]) (seq 128 11))%nat.

(** Drop leading members of a list of non-empty byte strings, with the string's
    own length as fuel (each step removes at least one byte). *)
Fixpoint trim_with (ws : list string) (fuel : nat) (s : string) : string :=
  match fuel with
  | O => s
  | S f =>
      match List.find (fun w => starts_with w s) ws with
      | Some w => match strip_prefix w s with
                  | Some t => trim_with ws f t
                  | None => s
                  end
      | None => s
      end
  end.

Definition trim_start (s : string) : string := trim_with whitespace (String.length s) s.
Definition trim_end (s : string) : string :=
  rev (trim_with (map rev whitespace) (String.length s) (rev s)).
(** [str::trim] *)
Definition trim (s : string) : string := trim_end (trim_start s).

(** [str::replace(c, to)] and [str::trim_start_matches(c)] for a character *)
Fixpoint replace_char (c : ascii) (to s : string) : string :=
  match s with
  | EmptyString => EmptyString
  | String d t =>
      if Ascii.eqb c d then to +:+ replace_char c to t else String d (replace_char c to t)
  end.

Fixpoint trim_start_char (c : ascii) (s : string) : string :=
  match s with
  | EmptyString => EmptyString
  | String d t => if Ascii.eqb c d then trim_start_char c t else s
  end.

(** [str::lines]: pieces ended by a line feed, each without its line feed and
    the carriage return before it; an unterminated last piece is kept as it is,
    an empty one is not a line. *)
Definition lf : ascii := "010"%char.
Definition cr : ascii := "013"%char.
Definition cr_str : string := String cr EmptyString.

Definition strip_cr (s : string) : string :=
  match strip_suffix cr_str s with Some t => t | None => s end.

Fixpoint lines_of (pieces : list string) : list string :=
  match pieces with
  | [] => []
  | [p] => if is_empty p then [] else [p]
  | p :: ps => strip_cr p :: lines_of ps
  end.
Definition lines (s : string) : list string := lines_of (split lf s).

(** The text after the first occurrence of [key]: [str::find] and the slice
    behind it. *)
Fixpoint after (key s : string) : option string :=
  match strip_prefix key s with
  | Some t => Some t
  | None => match s with EmptyString => None | String _ t => after key t end
  end.

(** [split_whitespace().next()] *)
Fixpoint until_whitespace (s : string) : string :=
  if existsb (fun w => starts_with w s) whitespace then EmptyString
  else match s with EmptyString => EmptyString | String c t => String c (until_whitespace t) end.

Definition first_token (s : string) : option string :=
  let t := trim_start s in
  if is_empty t then None else Some (until_whitespace t).

(** [str::split(p)] for a non-empty string: [skip] bytes of a separator are left. *)
Fixpoint split_go (p : string) (skip : nat) (s : string) : list string :=
  match s with
  | EmptyString => [EmptyString]
  | String c t =>
      match skip with
      | S k => split_go p k t
      | O =>
          if starts_with p s then EmptyString :: split_go p (String.length p - 1) t
          else match split_go p 0 t with
               | piece :: pieces => String c piece :: pieces
               | [] => [String c EmptyString]
               end
      end
  end.
Definition split_str (p s : string) : list string := split_go p 0 s.

(** [to_be_bytes] of [n] bytes *)
Fixpoint be_bytes (n : nat) (v : Z) : string :=
  match n with
  | O => EmptyString
  | S k => String (ascii_of_nat (Z.to_nat ((v / 256 ^ Z.of_nat k) mod 256))) (be_bytes k v)
  end.

(** [lines.join(sep)] *)
Fixpoint join (sep : string) (l : list string) : string :=
  match l with
  | [] => EmptyString
  | [x] => x
  | x :: t => x +:+ sep +:+ join sep t
  end.

End Str.

(** ** Decimal numbers *)

Module Dec.

Definition digit_val (c : ascii) : Z := Z.of_nat (nat_of_ascii c) - 48.
Definition digit_char (d : Z) : ascii := ascii_of_nat (Z.to_nat (48 + d)).

(** The value of a digit string, from the left. *)
Fixpoint value (acc : Z) (s : string) : Z :=
  match s with
  | EmptyString => acc
  | String c t => value (acc * 10 + digit_val c) t
  end.

(** Decimal printing ([Display] of the unsigned integers). *)
Fixpoint print_aux (fuel : nat) (n : Z) (acc : string) : string :=
  match fuel with
  | O => acc
  | S f =>
      let acc' := String (digit_char (n mod 10)) acc in
      if n / 10 =? 0 then acc' else print_aux f (n / 10) acc'
  end.
Definition fuel_for (n : Z) : nat := S (Z.to_nat (Z.log2 n)).
Definition print (n : Z) : string := print_aux (fuel_for n) n EmptyString.

(** [Display] of the signed integers. *)
Definition print_int (n : Z) : string :=
  if n <? 0 then String "-" (print (- n)) else print n.

(** A non-empty string of ASCII digits within a bound. *)
Definition parse_digits (max : Z) (s : string) : option Z :=
  if negb (Str.is_empty s) && Str.all Str.is_digit s then
    let v := value 0 s in if v <=? max then Some v else None
  else None.

(** [str::parse::<uN>]: an optional plus sign, then digits. *)
Definition parse_unsigned (max : Z) (s : string) : option Z :=
  match s with
  | String "+" t => parse_digits max t
  | _ => parse_digits max s
  end.

(** [str::parse::<i64>]: an optional sign, then digits, in range. *)
Definition parse_i64 (s : string) : option Z :=
  match s with
  | String "+" t => parse_digits i64_max t
  | String "-" t => match parse_digits (- i64_min) t with
                    | Some v => Some (- v)
                    | None => None
                    end
  | _ => parse_digits i64_max s
  end.

(** Zero-padded decimal of width two ([{:02}]). *)
Definition print02 (n : Z) : string :=
  if n <? 10 then String "0" (print n) else print n.

End Dec.

(** ** Hints and tactics of the development *)

Create HintDb dk discriminated.
Create Rewrite HintDb dk_str.

(** Split the first test of a boolean chain in the goal or the context. *)
Ltac dk_case :=
  match goal with
  | |- context [if ?b then _ else _] => destruct b eqn:?
  | H : context [if ?b then _ else _] |- _ => destruct b eqn:?
  | |- context [match ?o with Some _ => _ | None => _ end] => destruct o eqn:?
  | H : context [match ?o with Some _ => _ | None => _ end] |- _ => destruct o eqn:?
  end.

(** [lia] with the quotients and remainders of the goal. *)
Ltac dk_lia := Z.to_euclidean_division_equations; lia.

(** Step through a computation that succeeded. *)
Ltac succeed H :=
  repeat match type of H with
  | match ?x with _ => _ end = Ok _ => let X := fresh "X" in destruct x eqn:X; try discriminate H
  | Ok _ = Ok _ => injection H as H
  end.

(** Step over the next [ensure] in a hypothesis that says the rest succeeded. *)
Ltac dk_ensure H E :=
  match type of H with
  | (if negb ?x then _ else None) = Some _ => destruct x eqn:E; cbn [negb] in H; [discriminate H|]
  | (if ?x then _ else None) = Some _ => destruct x eqn:E; [|discriminate H]
  end.

(** Evaluate the tests of closed propositions. *)
Ltac dk_decide :=
  repeat match goal with
  | |- context [bool_decide ?P] =>
      first [rewrite (bool_decide_eq_true_2 P) by done | rewrite (bool_decide_eq_false_2 P) by done]
  end.

(** Turn boolean facts about integers into propositions. *)
Ltac dk_bool :=
  repeat match goal with
  | H : negb _ = true |- _ => apply negb_true_iff in H
  | H : negb _ = false |- _ => apply negb_false_iff in H
  | H : (_ && _)%bool = true |- _ => apply andb_true_iff in H as [? ?]
  | H : (_ || _)%bool = false |- _ => apply orb_false_iff in H as [? ?]
  | H : (_ <? _) = true |- _ => apply Z.ltb_lt in H
  | H : (_ <? _) = false |- _ => apply Z.ltb_ge in H
  | H : (_ <=? _) = true |- _ => apply Z.leb_le in H
  | H : (_ <=? _) = false |- _ => apply Z.leb_gt in H
  | H : (_ =? _) = true |- _ => apply Z.eqb_eq in H
  | H : (_ =? _) = false |- _ => apply Z.eqb_neq in H
  end.

Lemma ok_inj {A X : Type} (a b : A) : @Ok A X a = Ok b -> a = b.
Proof. by intros [=]. Qed.

Lemma wrap_i32_id (n : Z) : is_i32 n -> wrap_i32 n = n.
Proof. unfold is_i32, wrap_i32, i32_min, i32_max. intros H. rewrite Z.mod_small; lia. Qed.

(** ** Lemmas on strings *)

Lemma str_app_assoc (a b c : string) : (a +:+ b) +:+ c = a +:+ (b +:+ c).
Proof. induction a as [|x a IH]; cbn; [done|]. by rewrite IH. Qed.

Lemma str_app_nil_r (a : string) : a +:+ EmptyString = a.
Proof. induction a as [|x a IH]; cbn; [done|]. by rewrite IH. Qed.

Lemma str_len_app (a b : string) : Str.len (a +:+ b) = Str.len a + Str.len b.
Proof.
  unfold Str.len. induction a as [|x a IH]; cbn [String.append String.length]; lia.
Qed.

Lemma str_all_app (p : ascii -> bool) (a b : string) :
  Str.all p (a +:+ b) = Str.all p a && Str.all p b.
Proof. induction a as [|x a IH]; cbn; [done|]. by rewrite IH, andb_assoc. Qed.

Lemma split_once_eq (c : ascii) (s a b : string) :
  Str.split_once c s = Some (a, b) -> s = a +:+ String c b.
Proof.
  revert a b. induction s as [|d t IH]; intros a b; cbn; [done|].
  destruct (Ascii.eqb_spec c d) as [->|]; [by intros [= <- <-]|].
  destruct (Str.split_once c t) as [[a' b']|] eqn:E; [|done].
  intros [= <- <-]. cbn. by rewrite (IH _ _ eq_refl).
Qed.

(** The separator is found where the text before it does not contain it. *)
Lemma split_once_app (c : ascii) (a b : string) (p : ascii -> bool) :
  Str.all p a = true -> p c = false ->
  Str.split_once c (a +:+ String c b) = Some (a, b).
Proof.
  intros Ha Hc. induction a as [|x a IH]; cbn in *.
  - by rewrite Ascii.eqb_refl.
  - apply andb_true_iff in Ha as [Hx Ha].
    destruct (Ascii.eqb_spec c x) as [->|]; [congruence|]. by rewrite IH.
Qed.

Lemma strip_prefix_eq (p s t : string) : Str.strip_prefix p s = Some t -> s = p +:+ t.
Proof.
  revert s. induction p as [|a p IH]; intros s; cbn; [by intros [= ->]|].
  destruct s as [|b s]; [done|].
  destruct (Ascii.eqb_spec a b) as [->|]; [|done]. intros H. by rewrite (IH _ H).
Qed.

Lemma strip_prefix_app (p t : string) : Str.strip_prefix p (p +:+ t) = Some t.
Proof. induction p as [|a p IH]; cbn; [done|]. by rewrite Ascii.eqb_refl. Qed.

Lemma rev_append_eq (s acc : string) : Str.rev_append s acc = Str.rev s +:+ acc.
Proof.
  unfold Str.rev. revert acc. induction s as [|c s IH]; intros acc; cbn; [done|].
  rewrite IH, (IH (String c EmptyString)), str_app_assoc. done.
Qed.

Lemma rev_cons (c : ascii) (s : string) :
  Str.rev (String c s) = Str.rev s +:+ String c EmptyString.
Proof. exact (rev_append_eq s (String c EmptyString)). Qed.

Lemma rev_app (a b : string) : Str.rev (a +:+ b) = Str.rev b +:+ Str.rev a.
Proof.
  induction a as [|c a IH]; [by rewrite str_app_nil_r|].
  change (String c a +:+ b) with (String c (a +:+ b)).
  by rewrite !rev_cons, IH, str_app_assoc.
Qed.

Lemma rev_rev (s : string) : Str.rev (Str.rev s) = s.
Proof.
  induction s as [|c s IH]; [done|].
  change (String c s) with (String c EmptyString +:+ s).
  change (String c EmptyString +:+ s) with (String c s).
  by rewrite rev_cons, rev_app, IH.
Qed.

Lemma strip_suffix_eq (p s t : string) : Str.strip_suffix p s = Some t -> s = t +:+ p.
Proof.
  unfold Str.strip_suffix.
  destruct (Str.strip_prefix _ _) as [u|] eqn:E; [|done]. intros [= <-].
  apply strip_prefix_eq in E. by rewrite <- (rev_rev s), E, rev_app, rev_rev.
Qed.

Lemma strip_suffix_app (p t : string) : Str.strip_suffix p (t +:+ p) = Some t.
Proof.
  unfold Str.strip_suffix. by rewrite rev_app, strip_prefix_app, rev_rev.
Qed.

Lemma lower_app (a b : string) : Str.lower (a +:+ b) = Str.lower a +:+ Str.lower b.
Proof. induction a as [|c a IH]; cbn; [done|]. by rewrite IH. Qed.

Lemma lower_char_idem (c : ascii) : Str.lower_char (Str.lower_char c) = Str.lower_char c.
Proof. by destruct c as [[] [] [] [] [] [] [] []]. Qed.

Lemma lower_idem (s : string) : Str.lower (Str.lower s) = Str.lower s.
Proof. induction s as [|c s IH]; cbn; [done|]. by rewrite lower_char_idem, IH. Qed.

Lemma replace_char_app (c : ascii) (to a b : string) :
  Str.replace_char c to (a +:+ b) = Str.replace_char c to a +:+ Str.replace_char c to b.
Proof.
  induction a as [|x a IH]; [done|]. cbn. rewrite IH. destruct (Ascii.eqb c x); [|done].
  by rewrite str_app_assoc.
Qed.

(** *** Splitting *)

(** [c] does not occur in [s]. *)
Definition free_of (c : ascii) (s : string) : bool := Str.all (fun d => negb (Ascii.eqb c d)) s.

Lemma free_of_app (c : ascii) (a b : string) : free_of c (a +:+ b) = free_of c a && free_of c b.
Proof. apply str_all_app. Qed.

Lemma all_impl (p q : ascii -> bool) (s : string) :
  (forall c, p c = true -> q c = true) -> Str.all p s = true -> Str.all q s = true.
Proof.
  intros H. induction s as [|c s IH]; cbn; [done|].
  intros [A B]%andb_true_iff. by rewrite (H c A), IH.
Qed.

Lemma split_free (c : ascii) (s : string) : free_of c s = true -> Str.split c s = [s].
Proof.
  unfold free_of. induction s as [|d s IH]; [done|]. cbn [Str.all Str.split].
  destruct (Ascii.eqb c d); [done|]. cbn [negb andb]. intros H. by rewrite IH.
Qed.

Lemma split_at (c : ascii) (a b : string) :
  free_of c a = true -> Str.split c (a +:+ String c b) = a :: Str.split c b.
Proof.
  unfold free_of. induction a as [|d a IH]; [cbn; by rewrite Ascii.eqb_refl|].
  cbn [Str.all]. change (String d a +:+ String c b) with (String d (a +:+ String c b)).
  cbn [Str.split]. destruct (Ascii.eqb c d); [done|]. cbn [negb andb]. intros H. by rewrite IH.
Qed.

Definition prepend (s : string) (pieces : list string) : list string :=
  match pieces with p :: ps => (s +:+ p) :: ps | [] => [s] end.

Lemma split_go_nonempty (p s : string) (k : nat) : Str.split_go p k s <> [].
Proof.
  revert k. induction s as [|c s IH]; intros [|k]; cbn [Str.split_go]; try done.
  destruct (Str.starts_with _ _); [done|]. by destruct (Str.split_go p 0 s).
Qed.

(** The pieces of a text that begins with one without the first character of the
    separator. *)
Lemma split_str_free (c : ascii) (p a b : string) :
  free_of c a = true ->
  Str.split_str (String c p) (a +:+ b) = prepend a (Str.split_str (String c p) b).
Proof.
  unfold Str.split_str, free_of. induction a as [|d a IH].
  - intros _. cbn [String.append]. pose proof (split_go_nonempty (String c p) b 0).
    by destruct (Str.split_go (String c p) 0 b).
  - cbn [Str.all]. change (String d a +:+ b) with (String d (a +:+ b)). cbn [Str.split_go].
    unfold Str.starts_with. cbn [Str.strip_prefix]. destruct (Ascii.eqb c d); [done|].
    cbn [negb andb is_some_b]. intros H. rewrite IH by done.
    by destruct (Str.split_go (String c p) 0 b).
Qed.

Lemma split_go_skip (p s t : string) :
  Str.split_go p (String.length s) (s +:+ t) = Str.split_go p 0 t.
Proof. induction s as [|c s IH]; [done|]. exact IH. Qed.

(** A separator ends a piece. *)
Lemma split_str_sep (c : ascii) (p b : string) :
  Str.split_str (String c p) (String c p +:+ b) = EmptyString :: Str.split_str (String c p) b.
Proof.
  unfold Str.split_str. change (String c p +:+ b) with (String c (p +:+ b)). cbn [Str.split_go].
  unfold Str.starts_with. cbn [Str.strip_prefix]. rewrite Ascii.eqb_refl, strip_prefix_app.
  cbn [is_some_b String.length]. rewrite Nat.sub_succ, Nat.sub_0_r. by rewrite split_go_skip.
Qed.

(** ** Lemmas on decimal numbers *)

Lemma digit_char_digit (d : Z) : 0 <= d < 10 -> Str.is_digit (Dec.digit_char d) = true.
Proof.
  intros Hd. assert (H : d = 0 \/ d = 1 \/ d = 2 \/ d = 3 \/ d = 4 \/ d = 5 \/ d = 6 \/ d = 7
    \/ d = 8 \/ d = 9) by lia.
  repeat (destruct H as [->|H]; [reflexivity|]). by subst d.
Qed.

Lemma digit_char_val (d : Z) : 0 <= d < 10 -> Dec.digit_val (Dec.digit_char d) = d.
Proof.
  intros Hd. assert (H : d = 0 \/ d = 1 \/ d = 2 \/ d = 3 \/ d = 4 \/ d = 5 \/ d = 6 \/ d = 7
    \/ d = 8 \/ d = 9) by lia.
  repeat (destruct H as [->|H]; [reflexivity|]). by subst d.
Qed.

Lemma is_digit_val (c : ascii) : Str.is_digit c = true -> 0 <= Dec.digit_val c < 10.
Proof.
  unfold Str.is_digit, Dec.digit_val. intros H.
  apply andb_true_iff in H as [H1 H2]. apply Nat.leb_le in H1, H2. lia.
Qed.

Lemma value_mono (s : string) (a : Z) :
  Str.all Str.is_digit s = true -> 0 <= a -> a <= Dec.value a s.
Proof.
  revert a. induction s as [|c s IH]; intros a; cbn; [lia|].
  intros [Hc Hs]%andb_true_iff Ha. apply is_digit_val in Hc.
  specialize (IH (a * 10 + Dec.digit_val c) Hs). lia.
Qed.

Lemma log2_fuel (n : Z) : 0 <= n -> n < 10 ^ Z.of_nat (Dec.fuel_for n).
Proof.
  intros Hn. unfold Dec.fuel_for. rewrite Nat2Z.inj_succ, Z2Nat.id by apply Z.log2_nonneg.
  destruct (Z.eq_dec n 0) as [->|]; [done|].
  apply Z.lt_le_trans with (2 ^ Z.succ (Z.log2 n)).
  - apply Z.log2_spec. lia.
  - apply Z.pow_le_mono_l. lia.
Qed.

Lemma print_aux_value (fuel : nat) (n : Z) (acc : string) :
  0 <= n < 10 ^ Z.of_nat fuel -> (0 < fuel)%nat ->
  Dec.value 0 (Dec.print_aux fuel n acc) = Dec.value n acc.
Proof.
  revert n acc. induction fuel as [|f IH]; intros n acc Hn Hf; [lia|].
  cbn. pose proof (Z.mod_pos_bound n 10 eq_refl) as Hm.
  pose proof (Z.div_mod n 10 ltac:(lia)) as Hdm.
  destruct (n / 10 =? 0) eqn:E.
  - apply Z.eqb_eq in E. cbn [Dec.value]. rewrite digit_char_val by lia. f_equal. lia.
  - apply Z.eqb_neq in E. rewrite Nat2Z.inj_succ, Z.pow_succ_r in Hn by lia.
    assert (0 < f)%nat.
    { destruct f; [|lia]. cbn in Hn. assert (n / 10 = 0) by (apply Z.div_small; lia). lia. }
    assert (0 <= n / 10) by (apply Z.div_pos; lia).
    assert (n / 10 < 10 ^ Z.of_nat f) by (apply Z.div_lt_upper_bound; lia).
    rewrite IH by lia. cbn [Dec.value]. rewrite digit_char_val by lia. f_equal. lia.
Qed.

Lemma print_value (n : Z) : 0 <= n -> Dec.value 0 (Dec.print n) = n.
Proof.
  intros Hn. unfold Dec.print. rewrite print_aux_value; [done| |unfold Dec.fuel_for; lia].
  split; [done|]. by apply log2_fuel.
Qed.

Lemma print_aux_all (fuel : nat) (n : Z) (acc : string) :
  Str.all Str.is_digit acc = true -> Str.all Str.is_digit (Dec.print_aux fuel n acc) = true.
Proof.
  revert n acc. induction fuel as [|f IH]; intros n acc Ha; cbn; [done|].
  pose proof (Z.mod_pos_bound n 10 eq_refl) as Hm.
  assert (Str.all Str.is_digit (String (Dec.digit_char (n mod 10)) acc) = true).
  { cbn. by rewrite digit_char_digit, Ha by lia. }
  destruct (n / 10 =? 0); auto.
Qed.

Lemma print_digits (n : Z) : Str.all Str.is_digit (Dec.print n) = true.
Proof. by apply print_aux_all. Qed.

Lemma print_aux_nonempty (fuel : nat) (n : Z) (acc : string) :
  Str.is_empty acc = false -> Str.is_empty (Dec.print_aux fuel n acc) = false.
Proof.
  revert n acc. induction fuel as [|f IH]; intros n acc Ha; cbn; [done|].
  destruct (n / 10 =? 0); [done|]. by apply IH.
Qed.

Lemma print_nonempty (n : Z) : Str.is_empty (Dec.print n) = false.
Proof.
  unfold Dec.print, Dec.fuel_for. cbn.
  destruct (n / 10 =? 0); [done|]. by apply print_aux_nonempty.
Qed.

(** A string of digits has no sign. *)
Lemma parse_unsigned_digits (max : Z) (s : string) :
  Str.all Str.is_digit s = true -> Dec.parse_unsigned max s = Dec.parse_digits max s.
Proof.
  destruct s as [|[[] [] [] [] [] [] [] []] t]; try done.
Qed.

(** [Display] and [parse] are inverse on the values of the type. *)
Lemma parse_print (max n : Z) : 0 <= n <= max -> Dec.parse_digits max (Dec.print n) = Some n.
Proof.
  intros Hn. unfold Dec.parse_digits. rewrite print_nonempty, print_digits, print_value by lia.
  cbn. by rewrite (proj2 (Z.leb_le n max)) by lia.
Qed.

Lemma print_aux_length (k fuel : nat) (n : Z) (acc : string) :
  0 <= n < 10 ^ Z.of_nat k -> (0 < k)%nat ->
  Str.len (Dec.print_aux fuel n acc) <= Z.of_nat k + Str.len acc.
Proof.
  revert fuel n acc. induction k as [|k IH]; intros fuel n acc Hn Hk; [lia|].
  destruct fuel as [|f]; cbn [Dec.print_aux]; [lia|].
  set (acc' := String _ acc).
  assert (Hl : Str.len acc' = 1 + Str.len acc) by (unfold Str.len, acc'; cbn [String.length]; lia).
  destruct (n / 10 =? 0) eqn:E; [lia|].
  apply Z.eqb_neq in E. rewrite Nat2Z.inj_succ, Z.pow_succ_r in Hn by lia.
  assert (0 <= n / 10) by (apply Z.div_pos; lia).
  assert (n / 10 < 10 ^ Z.of_nat k) by (apply Z.div_lt_upper_bound; lia).
  destruct k as [|k]; [cbn in *; lia|].
  specialize (IH f (n / 10) acc'). lia.
Qed.

Lemma print_u64_length (n : Z) : is_u64 n -> Str.len (Dec.print n) <= 20.
Proof.
  intros Hn. unfold Dec.print.
  pose proof (print_aux_length 20 (Dec.fuel_for n) n EmptyString) as H.
  change (10 ^ Z.of_nat 20) with 100000000000000000000 in H.
  unfold is_u64, u64_max in Hn. change (Str.len EmptyString) with 0 in H. lia.
Qed.

Lemma parse_digits_bound (max : Z) (s : string) (n : Z) :
  Dec.parse_digits max s = Some n -> 0 <= n <= max.
Proof.
  unfold Dec.parse_digits. destruct (negb _ && _) eqn:E; [|done].
  apply andb_true_iff in E as [_ E]. destruct (_ <=? _) eqn:L; [|done].
  intros [= <-]. apply Z.leb_le in L. pose proof (value_mono s 0 E). lia.
Qed.

#[export] Hint Rewrite str_app_assoc str_app_nil_r str_len_app str_all_app : dk_str.
#[export] Hint Resolve print_digits print_nonempty parse_digits_bound : dk.
