(* ===== verification/F64.v ===== *)
(** * IEEE 754 double precision numbers

    Rust's [f64] as the Standard Library's executable [spec_float] at precision
    53 and maximal exponent 1024: arithmetic rounds to nearest, ties to even.
    Also the casts between integers and floats and [str::parse::<f64>]. *)

From Stdlib Require Import SpecFloat.
From S2P Require Import Prelude.

Module F64.

Abbreviation f64 := spec_float.

Definition zero : f64 := S754_zero false.
Definition add : f64 -> f64 -> f64 := SFadd 53 1024.
Definition sub : f64 -> f64 -> f64 := SFsub 53 1024.
Definition mul : f64 -> f64 -> f64 := SFmul 53 1024.
Definition div : f64 -> f64 -> f64 := SFdiv 53 1024.
Definition abs : f64 -> f64 := SFabs.

(** [n as f64] for an integer *)
Definition of_Z (n : Z) : f64 := binary_normalize 53 1024 n 0 false.

(** The correctly rounded quotient of two integers, for decimal literals. *)
Definition of_ratio (n : Z) (d : positive) : f64 :=
  match n with
  | Z0 => S754_zero false
  | Zpos p => div (S754_finite false p 0) (S754_finite false d 0)
  | Zneg p => div (S754_finite true p 0) (S754_finite false d 0)
  end.

(** Comparisons are false when an operand is not a number. *)
Definition ltb (x y : f64) : bool := SFltb x y.
Definition leb (x y : f64) : bool := SFleb x y.
Definition eqb (x y : f64) : bool := SFeqb x y.

Definition is_nan (x : f64) : bool := match x with S754_nan => true | _ => false end.
Definition is_finite (x : f64) : bool :=
  match x with S754_zero _ | S754_finite _ _ _ => true | _ => false end.

(** [f64::EPSILON] *)
Definition epsilon : f64 := of_ratio 1 (2 ^ 52).

(** Truncation towards zero and rounding up of a finite number. *)
Definition trunc (x : f64) : Z :=
  match x with
  | S754_finite s m e =>
      let a := if 0 <=? e then Zpos m * 2 ^ e else Zpos m / 2 ^ (- e) in
      if s then - a else a
  | _ => 0
  end.

Definition ceil (x : f64) : Z :=
  match x with
  | S754_finite s m e =>
      let v := if s then Zneg m else Zpos m in
      if 0 <=? e then v * 2 ^ e else - ((- v) / 2 ^ (- e))
  | _ => 0
  end.

(** [x as i64] and [x as u64]: truncation, saturating, zero for NaN *)
Definition clamp (low high : Z) (n : Z) : Z := Z.max low (Z.min high n).
Definition cast (low high : Z) (x : f64) : Z :=
  match x with
  | S754_infinity s => if s then low else high
  | _ => clamp low high (trunc x)
  end.
Definition to_i64 : f64 -> Z := cast i64_min i64_max.

(** [x.round() as i32]: the nearest integer, halves away from zero, saturating.
    The rounded number is an integer of the type or out of its range. *)
Definition round (x : f64) : Z :=
  match x with
  | S754_finite s m e =>
      let a := if 0 <=? e then Zpos m * 2 ^ e
               else (2 * Zpos m + 2 ^ (- e)) / (2 * 2 ^ (- e)) in
      if s then - a else a
  | _ => 0
  end.
Definition round_i32 (x : f64) : Z :=
  match x with
  | S754_infinity s => if s then i32_min else i32_max
  | _ => clamp i32_min i32_max (round x)
  end.

(** [{:.3}] of a number: the exact value rounded to thousandths, ties to even. *)
Definition round_even (n d : Z) : Z :=
  let q := n / d in
  let r := n mod d in
  if (2 * r <? d) || ((2 * r =? d) && Z.even q) then q else q + 1.

Definition thousandths (m e : Z) : Z :=
  if 0 <=? e then m * 1000 * 2 ^ e else round_even (m * 1000) (2 ^ (- e)).

Definition print03 (n : Z) : string :=
  if n <? 10 then "00" +:+ Dec.print n else if n <? 100 then "0" +:+ Dec.print n else Dec.print n.

Definition fixed3 (x : f64) : string :=
  let show n := Dec.print (n / 1000) +:+ "." +:+ print03 (n mod 1000) in
  match x with
  | S754_zero s => (if s then "-" else "") +:+ show 0
  | S754_finite s m e => (if s then "-" else "") +:+ show (thousandths (Zpos m) e)
  | S754_infinity s => if s then "-inf" else "inf"
  | S754_nan => "NaN"
  end.

(** ** [str::parse::<f64>] *)

Definition split_at (p : ascii -> bool) : string -> string * string :=
  fix go s :=
    match s with
    | EmptyString => (EmptyString, EmptyString)
    | String c t => if p c then let '(a, b) := go t in (String c a, b) else (EmptyString, s)
    end.

(** The exponent part, if any: [e] or [E], an optional sign and digits. *)
Definition exponent (s : string) : option Z :=
  match s with
  | EmptyString => Some 0
  | String c t =>
      if Ascii.eqb (Str.lower_char c) "e" then
        let '(sign, d) := match t with
                          | String "-" u => (-1, u)
                          | String "+" u => (1, u)
                          | u => (1, u)
                          end in
        if negb (Str.is_empty d) && Str.all Str.is_digit d then Some (sign * Dec.value 0 d) else None
      else None
  end.

(** Digits, an optional point and digits, with at least one digit in all. *)
Definition unsigned (s : string) : option f64 :=
  let '(whole, rest) := split_at Str.is_digit s in
  let '(fraction, rest) := match rest with
                           | String "." t => split_at Str.is_digit t
                           | r => (EmptyString, r)
                           end in
  ensure negb (Str.is_empty (whole +:+ fraction)) in
  let! e := exponent rest in
  let m := Dec.value 0 (whole +:+ fraction) in
  let scale := e - Str.len fraction in
  Some (if 0 <=? scale then of_ratio (m * 10 ^ scale) 1
        else of_ratio m (Z.to_pos (10 ^ (- scale)))).

Definition unsigned_or_special (s : string) : option f64 :=
  if Str.eq_ignore_case s "inf" || Str.eq_ignore_case s "infinity" then Some (S754_infinity false)
  else if Str.eq_ignore_case s "nan" then Some S754_nan
  else unsigned s.

Definition parse (s : string) : option f64 :=
  match s with
  | String "-" t => option_map SFopp (unsigned_or_special t)
  | String "+" t => unsigned_or_special t
  | _ => unsigned_or_special s
  end.

(** ** Order *)

Lemma ltb_irrefl (x : f64) : ltb x x = false.
Proof.
  unfold ltb, SFltb, SFcompare. destruct x as [s|s| |s m e]; try done; [by destruct s|].
  destruct s; rewrite Z.compare_refl; [|by rewrite Pos.compare_refl].
  by rewrite Pos.compare_refl.
Qed.

Lemma compare_swap (x y : f64) :
  SFcompare y x = option_map CompOpp (SFcompare x y).
Proof.
  assert (H : forall m m', Pos.compare_cont Eq m' m = CompOpp (Pos.compare_cont Eq m m'))
    by (intros m m'; exact (Pos.compare_antisym m m')).
  destruct x as [[]|[]| |[] m e], y as [[]|[]| |[] m' e']; try done; cbn;
    rewrite (Z.compare_antisym e e'); destruct (e ?= e'); cbn; try done;
    rewrite (H m m'); by destruct (Pos.compare_cont Eq m m').
Qed.

(** On numbers, [>] is the negation of [<=] and [<] that of [>=]. *)
Lemma ltb_leb (x y : f64) :
  is_nan x = false -> is_nan y = false -> leb y x = negb (ltb x y).
Proof.
  intros Hx Hy. unfold leb, ltb, SFleb, SFltb. rewrite (compare_swap x y).
  assert (E : SFcompare x y <> None).
  { destruct x as [[]|[]| |[] m e], y as [[]|[]| |[] m' e']; try done; cbn;
      destruct (e ?= e'); done. }
  destruct (SFcompare x y) as [[]|]; done.
Qed.

(** Halves are rounded away from zero. *)
Example round_sample :
  map (fun n => round_i32 (div (of_Z n) (of_Z 10))) [5; -5; 14; 15; -16; 25] = [1; -1; 1; 2; -2; 3].
Proof. vm_compute. reflexivity. Qed.

Example parse_sample : parse "7.5" = Some (of_ratio 15 2).
Proof. vm_compute. reflexivity. Qed.

Example parse_exponent : parse "-1.25e2" = Some (of_Z (-125)).
Proof. vm_compute. reflexivity. Qed.

Example fixed_sample : map fixed3 [div (of_Z 125125) (of_Z 1000); of_Z 7] = ["125.125"; "7.000"]%string.
Proof. vm_compute. reflexivity. Qed.

Example parse_refused : map parse ["."; ""; "1e"; "0x1"; " 1"]%string = [None; None; None; None; None].
Proof. vm_compute. reflexivity. Qed.

End F64.
