(* ===== verification/Json.v ===== *)
(** * JSON values

    The values of serde_json the program reads: numbers as serde_json keeps
    them (an unsigned or a signed 64-bit integer, or a finite float), objects
    as their entries, whose keys are pairwise different. *)

From S2P Require Import Prelude F64.

Module Json.

Inductive Number : Type :=
| PosInt (n : Z)
| NegInt (n : Z)
| Float (x : F64.f64).

Inductive Value : Type :=
| Null
| Bool (b : bool)
| Num (n : Number)
| Str (s : string)
| Array (l : list Value)
| Object (m : list (string * Value)).

(** [Map::get] and [Map::contains_key] *)
Fixpoint lookup (k : string) (m : list (string * Value)) : option Value :=
  match m with
  | [] => None
  | (k', v) :: t => if String.eqb k k' then Some v else lookup k t
  end.
Definition contains_key (k : string) (m : list (string * Value)) : bool :=
  is_some_b (lookup k m).

(** [Value::as_str] and its like *)
Definition as_str (v : Value) : option string := match v with Str s => Some s | _ => None end.
Definition as_bool (v : Value) : option bool := match v with Bool b => Some b | _ => None end.
Definition as_array (v : Value) : option (list Value) :=
  match v with Array l => Some l | _ => None end.
Definition as_object (v : Value) : option (list (string * Value)) :=
  match v with Object m => Some m | _ => None end.

(** [Number::as_f64] and [Number::as_i64] *)
Definition as_f64 (n : Number) : option F64.f64 :=
  Some match n with PosInt n | NegInt n => F64.of_Z n | Float x => x end.
Definition as_i64 (n : Number) : option Z :=
  match n with
  | PosInt n => if n <=? i64_max then Some n else None
  | NegInt n => Some n
  | Float _ => None
  end.

(** [Value::get] with a string key *)
Definition get (k : string) (v : Value) : option Value :=
  match v with Object m => lookup k m | _ => None end.

(** A value below another one is smaller: the measure of the recursive readers. *)
Fixpoint size (v : Value) : nat :=
  match v with
  | Array l => S (fold_right (fun x n => (size x + n)%nat) O l)
  | Object m => S (fold_right (fun p n => (size (snd p) + n)%nat) O m)
  | _ => 1%nat
  end.

Lemma size_pos (v : Value) : (1 <= size v)%nat.
Proof. destruct v; cbn; lia. Qed.

Lemma size_in (x : Value) (l : list Value) : In x l -> (size x < size (Array l))%nat.
Proof.
  cbn. induction l as [|y l IH]; cbn; [done|]. intros [->|H]; [lia|].
  specialize (IH H). lia.
Qed.

Lemma size_lookup (k : string) (m : list (string * Value)) (v : Value) :
  lookup k m = Some v -> (size v < size (Object m))%nat.
Proof.
  cbn. induction m as [|[k' x] m IH]; cbn; [done|].
  destruct (String.eqb k k'); [intros [= ->]; lia|]. intros H. specialize (IH H). lia.
Qed.

End Json.
