(* ===== verification/ByteRange.v ===== *)
(** * HTTP byte ranges of direct playback

    Models [RangeSpec] of server/src/domains/playback/range.rs: the parser of
    the [Range] header against a representation of [size] bytes, the length of
    the selected slice and the [Content-Range] value sent back. *)

From S2P Require Import Prelude.

Module ByteRange.

Record RangeSpec := mk_range { start : Z; end_ : Z; total : Z }.

(** The single error the parser returns,
    [PlaybackError::InvalidByteRange("expected a satisfiable single byte range")]. *)
Inductive RangeError := InvalidByteRange (message : string).

Definition invalid : RangeError :=
  InvalidByteRange "expected a satisfiable single byte range".

(** The closure [number] of [parse]. *)
Definition number (value : string) : result Z RangeError :=
  if Str.is_empty value || negb (Str.all Str.is_digit value) then Err invalid
  else ok_or (Dec.parse_digits u64_max value) invalid.

(** The first and last byte selected by [first-last]. *)
Definition bounds (first last : string) (size : Z) : result (Z * Z) RangeError :=
  if Str.is_empty first then
    let? suffix := number last in
    if suffix =? 0 then Err invalid else Ok (sat_sub size suffix, size - 1)
  else
    let? start := number first in
    let? end_ := (if Str.is_empty last then Ok (size - 1) else number last) in
    if (size <=? start) || (end_ <? start) then Err invalid
    else Ok (start, Z.min end_ (size - 1)).

Definition parse (header : option string) (size : Z) : result (option RangeSpec) RangeError :=
  match header with
  | None => Ok None
  | Some header =>
      if 128 <? Str.len header then Err invalid else
      let? (unit, spec) := ok_or (Str.split_once "=" header) invalid in
      if negb (Str.eq_ignore_case unit "bytes") then Ok None else
      if size =? 0 then Err invalid else
      let? (first, last) := ok_or (Str.split_once "-" spec) invalid in
      let? (start, end_) := bounds first last size in
      Ok (Some (mk_range start end_ size))
  end.

Definition content_length (r : RangeSpec) : Z := end_ r - start r + 1.

Definition content_range_header (r : RangeSpec) : string :=
  "bytes " +:+ Dec.print (start r) +:+ "-" +:+ Dec.print (end_ r)
  +:+ "/" +:+ Dec.print (total r).

(** What a client asks for, and the slice HTTP semantics give it: the
    specification that [parse] is proved to meet. *)
Inductive Request :=
| FromTo (first last : Z)
| From (first : Z)
| Suffix (length : Z).

Definition render (r : Request) : string :=
  match r with
  | FromTo a b => "bytes=" +:+ Dec.print a +:+ "-" +:+ Dec.print b
  | From a => "bytes=" +:+ Dec.print a +:+ "-"
  | Suffix n => "bytes=-" +:+ Dec.print n
  end.

(** Byte [i] of a representation of [size] bytes is selected. *)
Definition selects (r : Request) (size i : Z) : Prop :=
  0 <= i < size /\
  match r with
  | FromTo a b => a <= i <= b
  | From a => a <= i
  | Suffix n => size - n <= i
  end.

(** The positions of a request are [u64] values and its first position does not
    exceed its last one. *)
Definition well_formed (r : Request) : Prop :=
  match r with
  | FromTo a b => is_u64 a /\ is_u64 b /\ a <= b
  | From a => is_u64 a
  | Suffix n => is_u64 n
  end.

(** ** The parsed slice *)

Lemma number_value (s : string) (n : Z) : number s = Ok n -> is_u64 n.
Proof.
  unfold number. destruct (_ || _); [done|].
  destruct (Dec.parse_digits _ _) eqn:E; cbn; [|done].
  intros [= <-]. exact (parse_digits_bound _ _ _ E).
Qed.

Lemma number_print (n : Z) : is_u64 n -> number (Dec.print n) = Ok n.
Proof.
  intros Hn. unfold number. rewrite print_nonempty, print_digits. cbn [negb orb].
  by rewrite parse_print.
Qed.

Lemma bounds_ok (first last : string) (size s e : Z) :
  0 < size -> bounds first last size = Ok (s, e) -> 0 <= s <= e /\ e < size.
Proof.
  intros Hsize. unfold bounds, sat_sub. destruct (Str.is_empty first).
  - destruct (number last) as [n|] eqn:En; [|done]. apply number_value in En.
    unfold is_u64 in En. destruct (n =? 0) eqn:E0; [done|].
    intros [= <- <-]. dk_bool. lia.
  - destruct (number first) as [a|] eqn:Ea; [|done]. apply number_value in Ea.
    unfold is_u64 in Ea.
    destruct (if Str.is_empty last then _ else _) as [b|] eqn:Eb; [|done].
    destruct ((size <=? a) || (b <? a)) eqn:E; [done|].
    intros [= <- <-]. dk_bool. lia.
Qed.

Lemma parse_inv (h : string) (size : Z) (r : RangeSpec) :
  parse (Some h) size = Ok (Some r) ->
  size <> 0 /\ total r = size /\
  exists first last, bounds first last size = Ok (start r, end_ r).
Proof.
  unfold parse. destruct (128 <? Str.len h); [done|].
  destruct (Str.split_once "=" h) as [[unit spec]|]; cbn; [|done].
  destruct (negb _); [done|]. destruct (size =? 0) eqn:E0; [done|].
  destruct (Str.split_once "-" spec) as [[first last]|]; cbn; [|done].
  destruct (bounds first last size) as [[s e]|] eqn:E; [|done].
  intros [= <-]. cbn. apply Z.eqb_neq in E0. eauto.
Qed.

(** The text after [bytes=] is what [bounds] gets, for any first part of digits. *)
Lemma parse_text (first last : string) (size : Z) :
  Str.all Str.is_digit first = true -> size <> 0 ->
  Str.len first + Str.len last <= 100 ->
  parse (Some ("bytes=" +:+ first +:+ "-" +:+ last)) size =
  (let? (s, e) := bounds first last size in Ok (Some (mk_range s e size))).
Proof.
  intros Hd Hsize Hlen. unfold parse.
  assert (Hl : (128 <? Str.len ("bytes=" +:+ first +:+ "-" +:+ last)) = false).
  { apply Z.ltb_ge. rewrite !str_len_app. unfold Str.len in *. cbn. lia. }
  rewrite Hl. cbn [String.append Str.split_once Ascii.eqb Bool.eqb]. cbn [ok_or].
  change (negb (Str.eq_ignore_case "bytes" "bytes")) with false. cbn iota.
  rewrite (proj2 (Z.eqb_neq size 0) Hsize).
  change ("-" +:+ last) with (String "-" last).
  rewrite (split_once_app "-" first last Str.is_digit Hd eq_refl). done.
Qed.

Lemma render_text (r : Request) : exists first last,
  render r = "bytes=" +:+ first +:+ "-" +:+ last /\ Str.all Str.is_digit first = true /\
  match r with
  | FromTo a b => first = Dec.print a /\ last = Dec.print b
  | From a => first = Dec.print a /\ last = EmptyString
  | Suffix n => first = EmptyString /\ last = Dec.print n
  end.
Proof.
  destruct r as [a b|a|n]; cbn [render].
  - exists (Dec.print a), (Dec.print b). auto with dk.
  - exists (Dec.print a), EmptyString. auto with dk.
  - exists EmptyString, (Dec.print n). auto with dk.
Qed.

Lemma parse_render (r : Request) (size : Z) :
  well_formed r -> size <> 0 ->
  exists first last, parse (Some (render r)) size =
    (let? (s, e) := bounds first last size in Ok (Some (mk_range s e size))) /\
  match r with
  | FromTo a b => first = Dec.print a /\ last = Dec.print b
  | From a => first = Dec.print a /\ last = EmptyString
  | Suffix n => first = EmptyString /\ last = Dec.print n
  end.
Proof.
  intros Hwf Hs. destruct (render_text r) as (first & last & -> & Hd & Hr).
  exists first, last. split; [|done]. apply parse_text; [done..|].
  destruct r as [a b|a|n]; destruct Hr as [-> ->]; cbn in Hwf;
    repeat match goal with H : _ /\ _ |- _ => destruct H end;
    repeat match goal with H : is_u64 _ |- _ => apply print_u64_length in H end;
    change (Str.len EmptyString) with 0; lia.
Qed.

(** whatever header a client sends, an accepted range lies inside the
    representation: its first byte is not after its last one, its last one is
    below the size, and the advertised length is between one and the size, so
    that neither [size - 1] nor [end - start + 1] can wrap. *)
Theorem parse_in_bounds (h : string) (size : Z) (r : RangeSpec) :
  is_u64 size -> parse (Some h) size = Ok (Some r) ->
  0 <= start r <= end_ r /\ end_ r < total r /\ total r = size /\
  1 <= content_length r <= size.
Proof.
  intros Hu Hp. destruct (parse_inv _ _ _ Hp) as (H0 & Ht & first & last & Hb).
  unfold is_u64 in Hu. apply bounds_ok in Hb; [|lia]. unfold content_length. lia.
Qed.

Lemma parse_in_bounds_example :
  parse (Some "BYTES=3-90") 10 = Ok (Some (mk_range 3 9 10)) /\
  1 <= content_length (mk_range 3 9 10) <= 10.
Proof.
  split; [vm_compute; reflexivity|].
  apply (parse_in_bounds "BYTES=3-90" 10 (mk_range 3 9 10));
    [unfold is_u64, u64_max; lia | vm_compute; reflexivity].
Defined.

(** C35: for every request a client can express, [parse] of its header selects
    exactly the bytes that HTTP gives it, and refuses the header exactly when
    it selects none. *)
Theorem parse_refines_selection (r : Request) (size : Z) :
  well_formed r -> is_u64 size ->
  match parse (Some (render r)) size with
  | Ok (Some rs) => total rs = size /\ forall i, selects r size i <-> start rs <= i <= end_ rs
  | Ok None => False
  | Err _ => forall i, ~ selects r size i
  end.
Proof.
  intros Hwf Hu. destruct (Z.eq_dec size 0) as [->|Hs].
  { destruct (render_text r) as (first & last & -> & _).
    unfold parse. destruct (128 <? _); cbn; intros i [Hi _]; lia. }
  destruct (parse_render r size Hwf Hs) as (first & last & -> & Hr).
  unfold bounds, sat_sub, selects. unfold is_u64 in Hu.
  destruct r as [a b|a|n]; destruct Hr as [-> ->]; cbn [Str.is_empty well_formed] in *;
    rewrite ?print_nonempty, ?number_print by tauto; unfold is_u64 in *.
  - destruct ((size <=? a) || (b <? a)) eqn:E; cbn; intros; [|split; [done|intros]].
    + apply orb_true_iff in E. rewrite Z.leb_le, Z.ltb_lt in E. lia.
    + dk_bool. lia.
  - destruct ((size <=? a) || (size - 1 <? a)) eqn:E; cbn; intros; [|split; [done|intros]].
    + apply orb_true_iff in E. rewrite Z.leb_le, Z.ltb_lt in E. lia.
    + dk_bool. lia.
  - destruct (n =? 0) eqn:E; dk_bool; cbn; intros; [lia|split; [done|intros; lia]].
Qed.

Lemma parse_refines_selection_witness :
  match parse (Some (render (Suffix 3))) 10 with
  | Ok (Some rs) => total rs = 10 /\ forall i, selects (Suffix 3) 10 i <-> start rs <= i <= end_ rs
  | Ok None => False
  | Err _ => forall i, ~ selects (Suffix 3) 10 i
  end.
Proof.
  apply (parse_refines_selection (Suffix 3) 10); unfold well_formed, is_u64, u64_max; lia.
Defined.

End ByteRange.
