(* ===== verification/BitReader.v ===== *)
(** * Big-endian bit reader of the codec configuration records

    Models [Bits] of server/src/services/source_capabilities/configuration.rs
    and proves that reading [count] bits returns the [count] next bits of the
    byte string as one number, or refuses without touching the input. *)

From S2P Require Import Prelude.

Module BitReader.

(** Byte slices are lists of [u8] values. *)
Abbreviation Bytes := (list Z).

Definition bytes_ok (b : Bytes) : Prop := Forall is_u8 b.

(** [bytes.len()] and [bytes.get(i)] with a [usize] index *)
Definition blen (b : Bytes) : Z := Z.of_nat (length b).
Definition get (b : Bytes) (i : Z) : option Z := if i <? 0 then None else b !! Z.to_nat i.

Definition checked_mul64 (a b : Z) : option Z :=
  if a * b <=? u64_max then Some (a * b) else None.

Record Bits := mk_bits { bytes : Bytes; offset : Z }.

Definition new (b : Bytes) : Bits := mk_bits b 0.

(** One turn of the loop of [read] is [result << 1 | bit] on a [u32], which
    drops the bit shifted out, for the bit at the current offset. *)
Definition shift_in (result bit : Z) : Z :=
  Z.lor (Z.land (Z.shiftl result 1) u32_max) bit.
Definition bit_of (byte off : Z) : Z := Z.land (Z.shiftr byte (7 - off mod 8)) 1.

(** [None] stands for the panic of [self.bytes[self.offset / 8]] out of range. *)
Fixpoint read_loop (count : nat) (b : Bits) (result : Z) : option (Z * Bits) :=
  match count with
  | O => Some (result, b)
  | S n =>
      let! byte := get (bytes b) (offset b / 8) in
      read_loop n (mk_bits (bytes b) (offset b + 1))
        (shift_in result (bit_of byte (offset b)))
  end.

Definition read (b : Bits) (count : Z) : option (Z * Bits) :=
  if 32 <? count then None else
  let! stop := checked_add64 (offset b) count in
  let! limit := checked_mul64 (blen (bytes b)) 8 in
  if limit <? stop then None else read_loop (Z.to_nat count) b 0.

Definition remaining (b : Bits) : Z := blen (bytes b) * 8 - offset b.

(** ** Specification: the bits of a byte string *)

Definition bit_at (b : Bytes) (i : Z) : bool :=
  Z.testbit (nth (Z.to_nat (i / 8)) b 0) (7 - i mod 8).

(** The bits of positions [i], [i + 1], ..., [i + n - 1]. *)
Fixpoint bits_from (b : Bytes) (i : Z) (n : nat) : list bool :=
  match n with
  | O => []
  | S k => bit_at b i :: bits_from b (i + 1) k
  end.

Definition bits_value (l : list bool) : Z :=
  fold_left (fun acc b => 2 * acc + Z.b2z b) l 0.

(** A reader whose offset is within its bytes, and whose bytes fit in memory. *)
Definition wf (b : Bits) : Prop :=
  bytes_ok (bytes b) /\ 0 <= offset b <= blen (bytes b) * 8 /\ blen (bytes b) * 8 <= u64_max.

(** ** Lemmas *)

Lemma bit_of_testbit (byte off : Z) :
  bit_of byte off = Z.b2z (Z.testbit byte (7 - off mod 8)).
Proof.
  unfold bit_of. pose proof (Z.mod_pos_bound off 8 eq_refl).
  change 1 with (Z.ones 1). rewrite Z.land_ones, Z.shiftr_div_pow2 by lia.
  rewrite Z.testbit_spec' by lia. done.
Qed.

Lemma lor_bit (a : Z) (b : bool) : Z.lor (2 * a) (Z.b2z b) = 2 * a + Z.b2z b.
Proof.
  assert (H : Z.land (2 * a) (Z.b2z b) = 0).
  { destruct b; [|by rewrite Z.land_0_r]. change (Z.b2z true) with (Z.ones 1).
    rewrite Z.land_ones by lia. change (2 ^ 1) with 2. rewrite Z.mul_comm. by apply Z.mod_mul. }
  by rewrite Z.add_nocarry_lxor, Z.lxor_lor.
Qed.

Lemma shift_in_value (a : Z) (b : bool) :
  0 <= a < 2 ^ 31 -> shift_in a (Z.b2z b) = 2 * a + Z.b2z b.
Proof.
  intros Ha. unfold shift_in. rewrite Z.shiftl_mul_pow2 by lia.
  change u32_max with (Z.ones 32). rewrite Z.land_ones by lia.
  rewrite Z.mod_small by lia. change (a * 2 ^ 1) with (a * 2).
  rewrite (Z.mul_comm a 2). apply lor_bit.
Qed.

Lemma get_in_range (b : Bytes) (i : Z) :
  0 <= i < blen b -> get b i = Some (nth (Z.to_nat i) b 0).
Proof.
  intros Hi. unfold get, blen in *. rewrite (proj2 (Z.ltb_ge i 0)) by lia.
  rewrite (nth_lookup b (Z.to_nat i) 0).
  destruct (b !! Z.to_nat i) eqn:E; [done|].
  apply lookup_ge_None in E. lia.
Qed.

Lemma bits_value_bound (l : list bool) : 0 <= bits_value l < 2 ^ Z.of_nat (length l).
Proof.
  unfold bits_value. induction l as [|b l IH] using rev_ind; cbn; [lia|].
  rewrite fold_left_app, length_app. cbn.
  rewrite Nat.add_1_r, Nat2Z.inj_succ, Z.pow_succ_r by lia. destruct b; cbn; lia.
Qed.

Lemma bits_from_length (b : Bytes) (i : Z) (n : nat) : length (bits_from b i n) = n.
Proof. revert i. induction n as [|n IH]; intros i; cbn; [done|]. by rewrite IH. Qed.

Lemma read_loop_value (n : nat) (b : Bits) (prefix : list bool) :
  wf b -> offset b + Z.of_nat n <= blen (bytes b) * 8 ->
  (length prefix + n <= 32)%nat ->
  read_loop n b (bits_value prefix) =
    Some (bits_value (prefix ++ bits_from (bytes b) (offset b) n),
          mk_bits (bytes b) (offset b + Z.of_nat n)).
Proof.
  revert b prefix. induction n as [|n IH]; intros b prefix Hwf Hoff Hlen.
  { cbn. rewrite app_nil_r, Z.add_0_r. by destruct b. }
  destruct Hwf as (Hb & Ho & Hm). cbn [read_loop].
  rewrite get_in_range; [|split; [apply Z.div_pos; lia|]; apply Z.div_lt_upper_bound; lia].
  rewrite bit_of_testbit. fold (bit_at (bytes b) (offset b)).
  rewrite shift_in_value.
  2:{ pose proof (bits_value_bound prefix) as Hp. split; [lia|].
      eapply Z.lt_le_trans; [apply Hp|]. apply Z.pow_le_mono_r; lia. }
  set (prefix' := prefix ++ [bit_at (bytes b) (offset b)]).
  assert (Hp' : 2 * bits_value prefix + Z.b2z (bit_at (bytes b) (offset b)) = bits_value prefix').
  { unfold prefix', bits_value. rewrite fold_left_app. done. }
  rewrite Hp', IH; cbn [bytes offset].
  - unfold prefix'. cbn [bits_from]. rewrite <- app_assoc. cbn [app].
    do 3 f_equal. lia.
  - repeat split; cbn; [done|lia..].
  - lia.
  - unfold prefix'. rewrite length_app. cbn. lia.
Qed.

Lemma read_success (b : Bits) (count : Z) :
  wf b -> 0 <= count <= 32 -> offset b + count <= blen (bytes b) * 8 ->
  read b count =
    Some (bits_value (bits_from (bytes b) (offset b) (Z.to_nat count)),
          mk_bits (bytes b) (offset b + count)).
Proof.
  intros Hwf Hc Ho. pose proof Hwf as (_ & Hoff & Hm). unfold read.
  rewrite (proj2 (Z.ltb_ge 32 count)) by lia.
  unfold checked_add64, checked_mul64.
  rewrite (proj2 (Z.leb_le (offset b + count) u64_max)) by lia.
  rewrite (proj2 (Z.leb_le (blen (bytes b) * 8) u64_max)) by lia.
  rewrite (proj2 (Z.ltb_ge (blen (bytes b) * 8) (offset b + count))) by lia.
  change 0 with (bits_value []). rewrite read_loop_value; cbn [length app];
    [|done|lia|lia]. by rewrite Z2Nat.id by lia.
Qed.

Lemma read_refused (b : Bits) (count : Z) :
  wf b -> 0 <= count -> 32 < count \/ blen (bytes b) * 8 < offset b + count -> read b count = None.
Proof.
  intros (_ & Hoff & Hm) Hc H. unfold read.
  destruct (32 <? count) eqn:E; [done|]. apply Z.ltb_ge in E. destruct H as [|H]; [lia|].
  unfold checked_add64, checked_mul64.
  destruct (offset b + count <=? u64_max); [|done].
  rewrite (proj2 (Z.leb_le (blen (bytes b) * 8) u64_max)) by lia.
  by rewrite (proj2 (Z.ltb_lt (blen (bytes b) * 8) (offset b + count))).
Qed.

(** What a successful read leaves behind. *)
Lemma read_inv (b b' : Bits) (count v : Z) :
  wf b -> 0 <= count -> read b count = Some (v, b') ->
  wf b' /\ bytes b' = bytes b /\ offset b' = offset b + count /\ count <= 32 /\
  v = bits_value (bits_from (bytes b) (offset b) (Z.to_nat count)).
Proof.
  intros Hwf Hc Hr. pose proof Hwf as (Hb & Hoff & Hm).
  destruct (Z.le_gt_cases count 32) as [Hle|Hgt];
    [|by rewrite read_refused in Hr by (done || (left; lia))].
  destruct (Z.le_gt_cases (offset b + count) (blen (bytes b) * 8)) as [Ho|Ho];
    [|by rewrite read_refused in Hr by (done || (right; lia))].
  rewrite read_success in Hr by done. injection Hr as <- <-. cbn.
  repeat split; cbn; try done; lia.
Qed.

Lemma new_wf (b : Bytes) : bytes_ok b -> blen b * 8 <= u64_max -> wf (new b).
Proof. intros Hb Hm. repeat split; cbn; [done|lia| |done]. unfold blen. lia. Qed.

(** ** Correctness *)

(** [read] returns the next [count] bits, most significant first, and moves
    past them, exactly when at most 32 bits are asked for and that many are
    left; otherwise it refuses.  It never indexes outside the bytes. *)
Theorem read_spec (b : Bits) (count : Z) :
  wf b -> 0 <= count ->
  read b count =
    if (count <=? 32) && (count <=? remaining b)
    then Some (bits_value (bits_from (bytes b) (offset b) (Z.to_nat count)),
               mk_bits (bytes b) (offset b + count))
    else None.
Proof.
  intros Hwf Hc. unfold remaining.
  destruct (_ && _) eqn:E; dk_bool.
  - apply read_success; [done|lia..].
  - apply read_refused; [done..|]. apply andb_false_iff in E as [E|E]; dk_bool; lia.
Qed.

Example read_spec_example :
  wf (mk_bits [18; 16] 5) /\ read (mk_bits [18; 16] 5) 4 = Some (4, mk_bits [18; 16] 9).
Proof.
  assert (H : wf (mk_bits [18; 16] 5)).
  { split; [repeat constructor|]; vm_compute; repeat split; discriminate. }
  split; [exact H|]. rewrite (read_spec (mk_bits [18; 16] 5) 4 H ltac:(lia)).
  vm_compute. reflexivity.
Defined.

End BitReader.
