(* ===== verification/CodecBytes.v ===== *)
(** * Byte strings of codec configuration records

    Models what the submodules of
    server/src/services/source_capabilities/configuration.rs share: reads at an
    offset, hexadecimal output, and the length-prefixed units of avc.rs and
    hevc.rs.

    The slices are [usize]-indexed and at most 65536 bytes long ([video] and
    [audio] refuse longer ones before parsing), so the additions of offsets and
    lengths are exact. *)

From S2P Require Import Prelude BitReader.
Import BitReader.

Module CodecBytes.

(** ** Shared pieces *)

Record CodecConfiguration := mk_config { copy_codec : string; bit_depth : Z; level : Z }.

(** [bytes[i]] after a test on the length that puts [i] in range. *)
Definition at_ (b : Bytes) (i : Z) : Z := nth (Z.to_nat i) b 0.

(** [bytes.get(a..b)] *)
Definition slice (b : Bytes) (first last : Z) : option Bytes :=
  if (first <=? last) && (last <=? blen b)
  then Some (take (Z.to_nat (last - first)) (drop (Z.to_nat first) b)) else None.

(** [u16::from_be_bytes(bytes.get(o..o + 2)?.try_into().ok()?)] *)
Definition be16 (b : Bytes) (o : Z) : option Z :=
  let! s := slice b o (o + 2) in Some (at_ s 0 * 256 + at_ s 1).

Definition be32 (b : Bytes) (o : Z) : Z :=
  ((at_ b o * 256 + at_ b (o + 1)) * 256 + at_ b (o + 2)) * 256 + at_ b (o + 3).

Definition mem (x : Z) (l : list Z) : bool := existsb (Z.eqb x) l.

(** [{:02X}] of a byte and [{:X}] of a [u32] *)
Definition hex_digit (d : Z) : ascii :=
  ascii_of_nat (Z.to_nat (if d <? 10 then 48 + d else 55 + d)).
Definition hex2 (n : Z) : string :=
  String (hex_digit (n / 16)) (String (hex_digit (n mod 16)) EmptyString).
Fixpoint hex_aux (fuel : nat) (n : Z) (acc : string) : string :=
  match fuel with
  | O => acc
  | S f =>
      let acc' := String (hex_digit (n mod 16)) acc in
      if n / 16 =? 0 then acc' else hex_aux f (n / 16) acc'
  end.
Definition hex32 (n : Z) : string := hex_aux 8 n EmptyString.

(** [u32::reverse_bits] *)
Definition reverse_bits32 (n : Z) : Z :=
  fold_left (fun acc i => 2 * acc + Z.b2z (Z.testbit n (Z.of_nat i))) (seq 0 32) 0.

(** ** Length-prefixed units

    The loops over parameter sets of avc.rs ([nals]) and of hevc.rs: [count]
    times a big-endian 16-bit length and that many bytes, each unit tested by
    [ok]. *)

Fixpoint units (ok : Bytes -> bool) (count : nat) (b : Bytes) (offset : Z) : option Z :=
  match count with
  | O => Some offset
  | S n =>
      let! length_ := be16 b offset in
      let offset := offset + 2 in
      let! nal := slice b offset (offset + length_) in
      ensure ok nal in
      units ok n b (offset + length_)
  end.

End CodecBytes.
