(* ===== verification/Avc.v ===== *)
(** * AVC configuration records

    Models server/src/services/source_capabilities/configuration/avc.rs: the validator of AVC decoder configuration records. *)

From S2P Require Import Prelude BitReader CodecBytes.
Import BitReader CodecBytes.

Module Avc.

(** The tests of one unit: two bytes, no forbidden bit, the expected type, and
    for a sequence parameter set the profile and level of the record. *)
Definition nal_ok (b : Bytes) (kind : Z) (nal : Bytes) : bool :=
  negb ((blen nal <? 2) || negb (Z.land (at_ nal 0) 0x80 =? 0)
        || negb (Z.land (at_ nal 0) 31 =? kind))
  && negb ((kind =? 7) &&
       ((blen nal <? 4) || negb (bool_decide (slice nal 1 4 = slice b 1 4)))).

Definition nals (b : Bytes) (offset count kind : Z) : option Z :=
  if (count =? 0) || (64 <? count) then None else units (nal_ok b kind) (Z.to_nat count) b offset.

(** The tail of the record: chroma format and bit depths of the high profiles. *)
Definition extension (b : Bytes) (profile offset : Z) : option (Z * Z) :=
  if offset <? blen b then
    ensure (negb (negb (mem profile [100; 110]) || (blen b - offset <? 4)
                 || negb (at_ b offset =? 0xfd)
                 || negb (Z.land (at_ b (offset + 1)) 0xf8 =? 0xf8)
                 || negb (Z.land (at_ b (offset + 2)) 0xf8 =? 0xf8))) in
    let depth := 8 + Z.land (at_ b (offset + 1)) 7 in
    ensure (negb (negb (depth =? 8 + Z.land (at_ b (offset + 2)) 7) || negb (mem depth [8; 10]))) in
    let count := at_ b (offset + 3) in
    let offset := offset + 4 in
    let! offset := (if 0 <? count then nals b offset count 13 else Some offset) in
    Some (depth, offset)
  else if profile =? 110 then None else Some (8, offset).

Definition parse (b : Bytes) : option CodecConfiguration :=
  ensure (negb ((blen b <? 7) || negb (at_ b 0 =? 1)
               || negb (Z.land (at_ b 4) 0xfc =? 0xfc) || negb (Z.land (at_ b 5) 0xe0 =? 0xe0)
               || (Z.land (at_ b 4) 3 =? 2) || (at_ b 3 =? 0)
               || negb (Z.land (at_ b 2) 3 =? 0))) in
  let profile := at_ b 1 in
  ensure (mem profile [66; 77; 88; 100; 110]) in
  let! offset := nals b 6 (Z.land (at_ b 5) 31) 7 in
  let! count := get b offset in
  let! offset := nals b (offset + 1) count 8 in
  let! (depth, offset) := extension b profile offset in
  ensure (offset =? blen b) in
  Some (mk_config ("avc1." +:+ hex2 (at_ b 1) +:+ hex2 (at_ b 2) +:+ hex2 (at_ b 3))
                  depth (at_ b 3)).

End Avc.
