(* ===== verification/Hevc.v ===== *)
(** * HEVC configuration records

    Models server/src/services/source_capabilities/configuration/hevc.rs: the validator of HEVC decoder configuration records. *)

From S2P Require Import Prelude BitReader CodecBytes.
Import BitReader CodecBytes.

Module Hevc.

Definition nal_ok (kind : Z) (nal : Bytes) : bool :=
  negb ((blen nal <? 2) || negb (Z.land (at_ nal 0) 0x80 =? 0)
        || negb (Z.land (Z.shiftr (at_ nal 0) 1) 63 =? kind)
        || (Z.land (at_ nal 1) 7 =? 0)).

(** One turn of the loop over the arrays, which records the types seen. *)
Fixpoint arrays_loop (n : nat) (b : Bytes) (offset : Z) (seen : list Z)
  : option (Z * list Z) :=
  match n with
  | O => Some (offset, seen)
  | S n =>
      let! header := get b offset in
      ensure Z.land header 0x40 =? 0 in
      let kind := Z.land header 63 in
      let offset := offset + 1 in
      let! count := be16 b offset in
      let offset := offset + 2 in
      ensure negb ((count =? 0) || (64 <? count)) in
      let! offset := units (nal_ok kind) (Z.to_nat count) b offset in
      ensure negb (mem kind seen) in
      arrays_loop n b offset (kind :: seen)
  end.

(** [while constraints.last() == Some(&0) { constraints.pop(); }] *)
Fixpoint trim_zeros (l : Bytes) : Bytes :=
  match l with
  | [] => []
  | x :: t => match trim_zeros t with
              | [] => if x =? 0 then [] else [x]
              | t' => x :: t'
              end
  end.

Definition suffix (constraints : Bytes) : string :=
  fold_right (fun v s => "." +:+ hex2 v +:+ s) EmptyString constraints.

Definition space (n : Z) : string := nth (Z.to_nat n) [""; "A"; "B"; "C"]%string EmptyString.

Definition parse (b : Bytes) : option CodecConfiguration :=
  ensure negb ((blen b <? 23) || negb (at_ b 0 =? 1)
               || negb (Z.land (at_ b 13) 0xf0 =? 0xf0)
               || negb (Z.land (at_ b 15) 0xfc =? 0xfc)
               || negb (Z.land (at_ b 16) 0xfc =? 0xfc)
               || negb (Z.land (at_ b 17) 0xf8 =? 0xf8)
               || negb (Z.land (at_ b 18) 0xf8 =? 0xf8)
               || (Z.land (at_ b 21) 3 =? 2)) in
  let profile := Z.land (at_ b 1) 31 in
  let depth := 8 + Z.land (at_ b 17) 7 in
  ensure negb (negb (Z.shiftr (at_ b 1) 6 =? 0) || negb (mem profile [1; 2])
               || negb (mem depth [8; 10]) || negb (depth =? 8 + Z.land (at_ b 18) 7)
               || negb (Z.land (at_ b 16) 3 =? 1) || (at_ b 12 =? 0)
               || ((profile =? 1) && negb (depth =? 8))) in
  let compatibility := reverse_bits32 (be32 b 2) in
  let! constraints := slice b 6 12 in
  let! (offset, seen) := arrays_loop (Z.to_nat (at_ b 22)) b 23 [] in
  ensure negb (negb (offset =? blen b) || negb (forallb (fun k => mem k seen) [32; 33; 34])) in
  Some (mk_config
    ("hev1." +:+ space (Z.shiftr (at_ b 1) 6) +:+ Dec.print profile +:+ "."
     +:+ hex32 compatibility +:+ "." +:+ (if Z.land (at_ b 1) 32 =? 0 then "L" else "H")
     +:+ Dec.print (at_ b 12) +:+ suffix (trim_zeros constraints))
    depth (at_ b 12)).

End Hevc.
