(* ===== verification/Av1.v ===== *)
(** * AV1 configuration records

    Models server/src/services/source_capabilities/configuration/av1.rs: the validator of AV1 codec configuration records. *)

From S2P Require Import Prelude BitReader CodecBytes.
Import BitReader CodecBytes.

Module Av1.

(** The colour description of the track: primaries, transfer, matrix, range. *)
Record Colors := mk_colors { primaries : Z; transfer : Z; matrix : Z; full_range : Z }.

(** The [leb128] loop.  The fifth byte is refused whatever its value, because
    the shift has then reached 28; five turns therefore always decide. *)
Fixpoint leb128 (fuel : nat) (b : Bytes) (offset shift length_ : Z) : option (Z * Z) :=
  match fuel with
  | O => None
  | S f =>
      let! value := get b offset in
      let offset := offset + 1 in
      ensure negb (28 <=? shift) in
      let length_ := length_ + Z.shiftl (Z.land value 127) shift in
      let shift := shift + 7 in
      if Z.land value 128 =? 0 then Some (length_, offset) else leb128 f b offset shift length_
  end.

(** The optional extension byte of an OBU header. *)
Definition obu_extension (b : Bytes) (header offset : Z) : option Z :=
  if negb (Z.land header 4 =? 0) then
    let! ext := get b offset in
    ensure Z.land ext 7 =? 0 in Some (offset + 1)
  else Some offset.

(** The loop over the OBUs; every turn moves the offset forward, so the number
    of bytes is enough fuel. *)
Fixpoint obus (fuel : nat) (b : Bytes) (offset sequences : Z) : option Z :=
  if negb (offset <? blen b) then Some sequences else
  match fuel with
  | O => None
  | S f =>
      let! header := get b offset in
      let offset := offset + 1 in
      let kind := Z.land (Z.shiftr header 3) 15 in
      ensure negb (negb (Z.land header 0x81 =? 0) || (Z.land header 2 =? 0)
                   || negb (mem kind [1; 5]) || ((sequences =? 0) && negb (kind =? 1))) in
      let! offset := obu_extension b header offset in
      let! (length_, offset) := leb128 5 b offset 0 0 in
      ensure negb ((length_ =? 0) || (blen b <? offset + length_)) in
      obus f b (offset + length_) (if kind =? 1 then sequences + 1 else sequences)
  end.

Definition colors_refused (c : Colors) : bool :=
  existsb (fun v => (v =? 0) || (v =? 2)) [primaries c; transfer c; matrix c]
  || (1 <? full_range c).

Definition parse (b : Bytes) (colors : Colors) : option CodecConfiguration :=
  ensure negb ((blen b <? 5) || negb (at_ b 0 =? 0x81) || negb (Z.land (at_ b 3) 0xe0 =? 0)
               || ((Z.land (at_ b 3) 0x10 =? 0) && negb (Z.land (at_ b 3) 15 =? 0))) in
  let profile := Z.shiftr (at_ b 1) 5 in
  let level := Z.land (at_ b 1) 31 in
  let high_tier := negb (Z.land (at_ b 2) 128 =? 0) in
  let depth := if Z.land (at_ b 2) 64 =? 0 then 8 else 10 in
  ensure negb (negb (profile =? 0) || (23 <? level) || negb (Z.land (at_ b 2) 0x30 =? 0)
               || negb (Z.land (at_ b 2) 0x0c =? 0x0c) || ((level <? 8) && high_tier)
               || negb (mem (Z.land (at_ b 2) 3) [0; 1; 2]) || colors_refused colors) in
  let! sequences := obus (length b) b 4 0 in
  ensure sequences =? 1 in
  Some (mk_config
    ("av01." +:+ Dec.print profile +:+ "." +:+ Dec.print02 level
     +:+ (if high_tier then "H" else "M") +:+ "." +:+ Dec.print02 depth +:+ ".0.11"
     +:+ Dec.print (Z.land (at_ b 2) 3) +:+ "." +:+ Dec.print02 (primaries colors) +:+ "."
     +:+ Dec.print02 (transfer colors) +:+ "." +:+ Dec.print02 (matrix colors) +:+ "."
     +:+ Dec.print (full_range colors))
    depth level).

End Av1.
