(* ===== verification/CodecConfig.v ===== *)
(** * Codec configuration records of copied streams

    Models server/src/services/source_capabilities/configuration.rs and its
    submodule audio.rs (Avc.v, Hevc.v and Av1.v hold the others): the validators of the
    decoder configuration that a stream copy passes on to a client, and the
    RFC 6381 codec string derived from it. *)

From S2P Require Import Prelude BitReader CodecBytes Avc Hevc Av1.
Import BitReader CodecBytes.

Module CodecConfig.

(** ** audio.rs *)

Definition aac_rates : list Z :=
  [96000; 88200; 64000; 48000; 44100; 32000; 24000; 22050; 16000; 12000; 11025; 8000; 7350].
Definition aac_channels : list Z := [0; 1; 2; 3; 4; 5; 6; 8].

(** [while let Some(value) = bits.read(1) { if value != 0 { return None; } }]:
    each turn consumes one bit, so the bits left over plus one turn are enough;
    [None] at the end of the fuel would be a loop that does not stop. *)
Fixpoint zero_tail (fuel : nat) (bits : Bits) : option bool :=
  match fuel with
  | O => None
  | S f =>
      match read bits 1 with
      | Some (value, bits) => if negb (value =? 0) then Some false else zero_tail f bits
      | None => Some true
      end
  end.
Definition tail_fuel (bits : Bits) : nat := S (Z.to_nat (remaining bits)).

(** The optional extension after the fixed part. *)
Definition aac_extension (bits : Bits) : option Bits :=
  if 16 <=? remaining bits then
    let! (extension, bits) := read bits 11 in
    if extension =? 0 then Some bits else
    ensure (extension =? 0x2b7) in
    let! (kind, bits) := read bits 5 in
    ensure (kind =? 5) in
    let! (flag, bits) := read bits 1 in
    ensure (flag =? 0) in Some bits
  else Some bits.

Definition aac_rate (bits : Bits) : option (Z * Bits) :=
  let! (index, bits) := read bits 4 in
  if index =? 15 then read bits 24
  else let! rate := get aac_rates index in Some (rate, bits).

Definition aac_body (b : Bytes) (sample_rate channels : Z) : option unit :=
  let! (kind, bits) := read (new b) 5 in
  ensure (kind =? 2) in
  let! (rate, bits) := aac_rate bits in
  let! (configuration, bits) := read bits 4 in
  let! count := get aac_channels configuration in
  ensure ((rate =? sample_rate) && negb (count =? 0) && (count =? channels)) in
  let! (f1, bits) := read bits 1 in
  ensure (f1 =? 0) in
  let! (f2, bits) := read bits 1 in
  ensure (f2 =? 0) in
  let! (f3, bits) := read bits 1 in
  ensure (f3 =? 0) in
  let! bits := aac_extension bits in
  let! rest := zero_tail (tail_fuel bits) bits in
  ensure rest in Some tt.

Definition aac_lc (b : Bytes) (sample_rate channels : Z) : bool :=
  is_some_b (aac_body b sample_rate channels).

Definition opus_head : Bytes := [79; 112; 117; 115; 72; 101; 97; 100].

Definition opus (b : Bytes) (channels : Z) : bool :=
  (blen b =? 19) && bool_decide (take 8 b = opus_head) && (at_ b 8 =? 1)
  && (at_ b 9 =? channels) && mem channels [1; 2] && (at_ b 18 =? 0).

(** ** configuration.rs *)

Definition too_long (b : Bytes) : bool := (blen b =? 0) || (65536 <? blen b).

Definition video (codec : string) (b : Bytes) (depth : Z) (colors : Av1.Colors)
  : option CodecConfiguration :=
  if too_long b then None else
  let! parsed :=
    (if String.eqb codec "h264" then Avc.parse b
     else if String.eqb codec "hevc" then Hevc.parse b
     else if String.eqb codec "av1" then Av1.parse b colors
     else None) in
  if bit_depth parsed =? depth then Some parsed else None.

Definition audio (codec : string) (b : Bytes) (profile : option string)
    (sample_rate channels : Z) : option string :=
  if too_long b then None
  else if String.eqb codec "aac" && bool_decide (profile = Some "LC"%string)
          && aac_lc b sample_rate channels then Some "mp4a.40.2"%string
  else if String.eqb codec "opus" && opus b channels && (sample_rate =? 48000)
       then Some "opus"%string
  else None.

(** ** Sample records, evaluated *)

Example aac_sample : aac_lc [0x12; 0x10] 44100 2 = true.
Proof. vm_compute. reflexivity. Qed.

Example avc_sample :
  Avc.parse [1; 66; 0; 30; 0xff; 0xe1; 0; 4; 0x67; 66; 0; 30; 1; 0; 2; 0x68; 1]
  = Some (mk_config "avc1.42001E" 8 30).
Proof. vm_compute. reflexivity. Qed.

End CodecConfig.
