(* ===== verification/CodecProofs.v ===== *)
(** * Correctness of the codec configuration validators

    The parsers of CodecConfig.v are compared with the records they are meant
    to accept: an encoder of well-formed records, and the tiling of the byte
    string by the units it announces. *)

From S2P Require Import Prelude BitReader CodecBytes Avc Hevc Av1 CodecConfig.
Import BitReader CodecBytes CodecConfig.

Module CodecProofs.

(** ** Encoders *)

Definition enc16 (n : Z) : Bytes := [n / 256; n mod 256].
Definition enc_unit (u : Bytes) : Bytes := enc16 (blen u) ++ u.
Definition enc_units (us : list Bytes) : Bytes := concat (map enc_unit us).

(** The record of ISO/IEC 14496-15 that avc.rs accepts. *)
Record AvcRecord := mk_avc {
  avc_profile : Z; avc_compat : Z; avc_level : Z; length_size : Z;
  sps : list Bytes; pps : list Bytes;
  (** bit depth minus eight, and the sequence parameter set extensions *)
  high : option (Z * list Bytes) }.

(** A unit of NAL type [k]: at least two bytes, no forbidden bit. *)
Definition unit_type (k : Z) (u : Bytes) : Prop :=
  exists h x rest, u = h :: x :: rest /\ 0 <= h < 128 /\ h mod 32 = k /\ blen u <= 65535
    /\ bytes_ok u.

Definition sps_of (r : AvcRecord) (u : Bytes) : Prop :=
  unit_type 7 u /\ exists h rest, u = h :: avc_profile r :: avc_compat r :: avc_level r :: rest.

Definition high_depth (h : option (Z * list Bytes)) : Z :=
  match h with Some (d, _) => d | None => 0 end.

Definition high_valid (profile : Z) (h : option (Z * list Bytes)) : Prop :=
  match h with
  | None => profile <> 110
  | Some (d, exts) =>
      In profile [100; 110] /\ In d [0; 2] /\
      (length exts <= 64)%nat /\ Forall (unit_type 13) exts
  end.

Definition enc_high (h : option (Z * list Bytes)) : Bytes :=
  match h with
  | None => []
  | Some (d, exts) =>
      [0xfd; 0xf8 + d; 0xf8 + d; Z.of_nat (length exts)] ++ enc_units exts
  end.

Definition avc_valid (r : AvcRecord) : Prop :=
  In (avc_profile r) [66; 77; 88; 100; 110] /\
  (is_u8 (avc_compat r) /\ avc_compat r mod 4 = 0) /\ 1 <= avc_level r <= 255 /\
  In (length_size r) [0; 1; 3] /\
  (1 <= length (sps r) <= 31)%nat /\ Forall (sps_of r) (sps r) /\
  (1 <= length (pps r) <= 64)%nat /\ Forall (unit_type 8) (pps r) /\
  high_valid (avc_profile r) (high r).

Definition avc_encode (r : AvcRecord) : Bytes :=
  [1; avc_profile r; avc_compat r; avc_level r; 0xfc + length_size r;
   0xe0 + Z.of_nat (length (sps r))]
  ++ enc_units (sps r) ++ [Z.of_nat (length (pps r))] ++ enc_units (pps r) ++ enc_high (high r).

Definition avc_describe (r : AvcRecord) : CodecConfiguration :=
  mk_config ("avc1." +:+ hex2 (avc_profile r) +:+ hex2 (avc_compat r) +:+ hex2 (avc_level r))
    (8 + high_depth (high r)) (avc_level r).

(** ** Bytes *)

Definition all_u8 : list Z := map Z.of_nat (seq 0 256).

Lemma u8_forall (f : Z -> bool) : forallb f all_u8 = true -> forall x, is_u8 x -> f x = true.
Proof.
  intros H x Hx. unfold all_u8 in H. rewrite forallb_forall in H. apply H. apply in_map_iff.
  exists (Z.to_nat x). unfold is_u8, u8_max in Hx.
  rewrite Z2Nat.id by lia. split; [done|]. apply in_seq. lia.
Qed.

Ltac by_u8 f x H := pose proof (u8_forall f ltac:(vm_compute; reflexivity) x H).

Lemma u8_land_fc (x : Z) : is_u8 x -> Z.land x 0xfc = 0xfc <-> x = 0xfc + Z.land x 3.
Proof.
  intros Hx. by_u8 (fun x => eqb (Z.land x 0xfc =? 0xfc) (x =? 0xfc + Z.land x 3)) x Hx.
  apply eqb_prop in H. rewrite <- !Z.eqb_eq. by rewrite H.
Qed.

Lemma u8_land_e0 (x : Z) : is_u8 x -> Z.land x 0xe0 = 0xe0 <-> x = 0xe0 + Z.land x 31.
Proof.
  intros Hx. by_u8 (fun x => eqb (Z.land x 0xe0 =? 0xe0) (x =? 0xe0 + Z.land x 31)) x Hx.
  apply eqb_prop in H. rewrite <- !Z.eqb_eq. by rewrite H.
Qed.

Lemma u8_land_f8 (x : Z) : is_u8 x -> Z.land x 0xf8 = 0xf8 <-> x = 0xf8 + Z.land x 7.
Proof.
  intros Hx. by_u8 (fun x => eqb (Z.land x 0xf8 =? 0xf8) (x =? 0xf8 + Z.land x 7)) x Hx.
  apply eqb_prop in H. rewrite <- !Z.eqb_eq. by rewrite H.
Qed.

Lemma u8_land_80 (x : Z) : is_u8 x -> (Z.land x 0x80 =? 0) = (x <? 128).
Proof.
  intros Hx. by_u8 (fun x => eqb (Z.land x 0x80 =? 0) (x <? 128)) x Hx. by apply eqb_prop in H.
Qed.

Lemma land_31 (x : Z) : Z.land x 31 = x mod 32.
Proof. change 31 with (Z.ones 5). by rewrite Z.land_ones by lia. Qed.
Lemma land_3 (x : Z) : Z.land x 3 = x mod 4.
Proof. change 3 with (Z.ones 2). by rewrite Z.land_ones by lia. Qed.
Lemma land_7 (x : Z) : Z.land x 7 = x mod 8.
Proof. change 7 with (Z.ones 3). by rewrite Z.land_ones by lia. Qed.

Lemma blen_app (a b : Bytes) : blen (a ++ b) = blen a + blen b.
Proof. unfold blen. rewrite length_app. lia. Qed.
Lemma blen_nonneg (b : Bytes) : 0 <= blen b.
Proof. unfold blen. lia. Qed.
Lemma blen_drop (b : Bytes) (o : Z) : 0 <= o <= blen b -> blen (drop (Z.to_nat o) b) = blen b - o.
Proof. unfold blen. intros Ho. rewrite length_drop. lia. Qed.

Lemma drop_app_at (b mid post : Bytes) (o : Z) :
  0 <= o -> drop (Z.to_nat o) b = mid ++ post -> drop (Z.to_nat (o + blen mid)) b = post.
Proof.
  intros Ho Hd. unfold blen. rewrite Z2Nat.inj_add, Nat2Z.id by lia.
  rewrite <- drop_drop, Hd. by rewrite drop_app_length.
Qed.

Lemma drop_bound (b mid post : Bytes) (o : Z) :
  0 <= o <= blen b -> drop (Z.to_nat o) b = mid ++ post -> o + blen mid <= blen b.
Proof.
  intros Ho Hd. pose proof (blen_drop b o Ho) as Hl. rewrite Hd, blen_app in Hl.
  pose proof (blen_nonneg post). lia.
Qed.

Lemma slice_at (b mid post : Bytes) (o e : Z) :
  0 <= o <= blen b -> drop (Z.to_nat o) b = mid ++ post -> e = o + blen mid ->
  slice b o e = Some mid.
Proof.
  intros Ho Hd ->. pose proof (drop_bound _ _ _ _ Ho Hd) as Hb. pose proof (blen_nonneg mid).
  unfold slice. rewrite (proj2 (Z.leb_le o (o + blen mid))), (proj2 (Z.leb_le _ _) Hb) by lia.
  cbn [andb]. rewrite Hd. replace (Z.to_nat (o + blen mid - o)) with (length mid)
    by (unfold blen; lia). by rewrite take_app_length.
Qed.

Lemma slice_inv (b s : Bytes) (o e : Z) :
  0 <= o -> slice b o e = Some s ->
  drop (Z.to_nat o) b = s ++ drop (Z.to_nat e) b /\ blen s = e - o /\ o <= e <= blen b.
Proof.
  intros Ho. unfold slice. destruct (_ && _) eqn:E; [|done]. dk_bool. intros [= <-].
  assert (Hl : blen (take (Z.to_nat (e - o)) (drop (Z.to_nat o) b)) = e - o).
  { unfold blen in *. rewrite length_take, length_drop. lia. }
  split; [|done]. rewrite <- (take_drop (Z.to_nat (e - o)) (drop (Z.to_nat o) b)) at 1.
  rewrite drop_drop. do 2 f_equal. lia.
Qed.

Lemma bytes_ok_drop (b : Bytes) (n : nat) : bytes_ok b -> bytes_ok (drop n b).
Proof. apply Forall_drop. Qed.

Lemma get_at (b post : Bytes) (o x : Z) :
  0 <= o -> drop (Z.to_nat o) b = x :: post -> get b o = Some x.
Proof.
  intros Ho Hd. unfold get. rewrite (proj2 (Z.ltb_ge o 0)) by lia.
  rewrite <- (Nat.add_0_r (Z.to_nat o)), <- lookup_drop, Hd. done.
Qed.

Lemma get_inv (b : Bytes) (o x : Z) :
  get b o = Some x ->
  0 <= o < blen b /\ drop (Z.to_nat o) b = x :: drop (Z.to_nat (o + 1)) b.
Proof.
  unfold get. destruct (o <? 0) eqn:E; [done|]. dk_bool. intros Hx.
  pose proof (lookup_lt_Some _ _ _ Hx). split; [unfold blen; lia|].
  rewrite (drop_S _ _ _ Hx). do 2 f_equal. lia.
Qed.

Lemma at_cons (b : Bytes) (i x : Z) (post : Bytes) :
  0 <= i -> drop (Z.to_nat i) b = x :: post -> at_ b i = x.
Proof.
  intros Hi Hd. unfold at_. rewrite <- (take_drop (Z.to_nat i) b) at 1. rewrite Hd.
  assert (Hl : length (take (Z.to_nat i) b) = Z.to_nat i).
  { rewrite length_take. apply (f_equal length) in Hd. rewrite length_drop in Hd. cbn [length] in Hd. apply Nat.min_l. clear -Hd. lia. }
  rewrite app_nth2 by lia. by rewrite Hl, Nat.sub_diag.
Qed.

Lemma bytes_ok_of (b : Bytes) :
  forallb (fun x => (0 <=? x) && (x <=? 255)) b = true -> bytes_ok b.
Proof.
  intros H. apply Forall_forall. intros x Hx. rewrite forallb_forall in H.
  apply list_elem_of_In in Hx. apply H in Hx. dk_bool. unfold is_u8, u8_max. lia.
Qed.

(** ** Length-prefixed units *)

Lemma be16_at (b post : Bytes) (o n : Z) :
  0 <= o <= blen b -> 0 <= n <= 65535 -> drop (Z.to_nat o) b = enc16 n ++ post ->
  be16 b o = Some n.
Proof.
  intros Ho Hn Hd. unfold be16. erewrite slice_at by (done || reflexivity).
  change (Some (n / 256 * 256 + n mod 256) = Some n). f_equal.
  pose proof (Z.div_mod n 256 ltac:(lia)). lia.
Qed.

Lemma be16_inv (b : Bytes) (o n : Z) :
  bytes_ok b -> 0 <= o -> be16 b o = Some n ->
  0 <= n <= 65535 /\ drop (Z.to_nat o) b = enc16 n ++ drop (Z.to_nat (o + 2)) b /\
  o + 2 <= blen b.
Proof.
  intros Hb Ho. unfold be16. destruct (slice b o (o + 2)) as [s|] eqn:Es; [|done].
  intros [= <-]. destruct (slice_inv _ _ _ _ Ho Es) as (Hd & Hl & He).
  assert (Hs : bytes_ok s).
  { pose proof (bytes_ok_drop b (Z.to_nat o) Hb) as H. rewrite Hd in H.
    by apply Forall_app in H as [H _]. }
  destruct s as [|x [|y [|]]]; unfold blen in Hl; cbn in Hl; try lia.
  inv Hs. inv H2. unfold is_u8, u8_max in *. unfold at_. cbn.
  change (Z.to_nat 0) with 0%nat. change (Z.to_nat 1) with 1%nat. cbn [nth].
  split; [lia|]. split; [|lia]. rewrite Hd. unfold enc16. cbn [app]. f_equal; [|f_equal].
  - apply (Z.div_unique_pos _ _ _ y); lia.
  - apply (Z.mod_unique_pos _ _ x); lia.
Qed.

Lemma enc_units_cons (u : Bytes) (us : list Bytes) :
  enc_units (u :: us) = enc16 (blen u) ++ u ++ enc_units us.
Proof. change (enc_unit u ++ enc_units us = enc16 (blen u) ++ u ++ enc_units us).
  unfold enc_unit. by rewrite <- app_assoc. Qed.

Section Units.
Variable ok : Bytes -> bool.

Definition unit_ok (u : Bytes) : Prop := ok u = true /\ blen u <= 65535.

Lemma units_complete (us : list Bytes) (b post : Bytes) (o : Z) :
  Forall unit_ok us -> 0 <= o <= blen b -> drop (Z.to_nat o) b = enc_units us ++ post ->
  units ok (length us) b o = Some (o + blen (enc_units us)).
Proof.
  intros Hus. revert o. induction Hus as [|u us [Hu Hlen] _ IH]; intros o Ho Hd.
  { cbn. f_equal. unfold blen. cbn. lia. }
  rewrite enc_units_cons in *. rewrite <- !app_assoc in Hd. pose proof (blen_nonneg u) as Hu0.
  cbn [length units]. rewrite (be16_at b _ o (blen u) Ho ltac:(lia) Hd).
  assert (H2 : blen (enc16 (blen u)) = 2) by done.
  pose proof (drop_bound _ _ _ _ Ho Hd) as Hb1. rewrite H2 in Hb1.
  pose proof (drop_app_at _ _ _ _ (proj1 Ho) Hd) as Hd1. rewrite H2 in Hd1.
  rewrite (slice_at b u _ (o + 2) _ ltac:(lia) Hd1 eq_refl), Hu.
  pose proof (drop_bound b _ _ (o + 2) ltac:(lia) Hd1) as Hb2.
  pose proof (drop_app_at b _ _ (o + 2) ltac:(lia) Hd1) as Hd2.
  rewrite IH by (done || lia). rewrite !blen_app, H2. f_equal. lia.
Qed.

Lemma units_sound (n : nat) (b : Bytes) (o o' : Z) :
  bytes_ok b -> 0 <= o <= blen b -> units ok n b o = Some o' ->
  exists us, length us = n /\ Forall unit_ok us /\ bytes_ok (enc_units us) /\
    drop (Z.to_nat o) b = enc_units us ++ drop (Z.to_nat o') b /\ o <= o' <= blen b.
Proof.
  intros Hb. revert o. induction n as [|n IH]; intros o Ho; cbn [units].
  { intros [= <-]. exists []. repeat split; cbn; try constructor; lia. }
  destruct (be16 b o) as [l|] eqn:E16; [|done].
  destruct (be16_inv _ _ _ Hb (proj1 Ho) E16) as (Hl & Hd & Hb2).
  destruct (slice b (o + 2) (o + 2 + l)) as [u|] eqn:Es; [|done].
  destruct (slice_inv b u (o + 2) (o + 2 + l) ltac:(lia) Es) as (Hd2 & Hlen & He).
  destruct (ok u) eqn:Eu; [|done]. intros Hrest.
  destruct (IH (o + 2 + l) ltac:(lia) Hrest) as (us & Hn & Hok & Henc & Hd3 & Ho').
  exists (u :: us). assert (Hlu : blen u = l) by lia.
  assert (Hall : drop (Z.to_nat o) b = enc_units (u :: us) ++ drop (Z.to_nat o') b).
  { by rewrite enc_units_cons, <- !app_assoc, Hlu, Hd, Hd2, Hd3. }
  repeat split.
  - cbn. by rewrite Hn.
  - constructor; [|done]. split; [done|lia].
  - pose proof (bytes_ok_drop b (Z.to_nat o) Hb) as H. rewrite Hall in H.
    by apply Forall_app in H as [H _].
  - done.
  - lia.
  - lia.
Qed.

End Units.

(** ** avc.rs *)

Lemma mem_In (x : Z) (l : list Z) : mem x l = true <-> In x l.
Proof.
  unfold mem. rewrite existsb_exists. split.
  - intros (y & Hy & He). by apply Z.eqb_eq in He as ->.
  - intros H. exists x. by rewrite Z.eqb_refl.
Qed.

Lemma units_ok_bytes (us : list Bytes) : bytes_ok (enc_units us) -> Forall bytes_ok us.
Proof.
  induction us as [|u us IH]; [constructor|]. rewrite enc_units_cons.
  intros (_ & H)%Forall_app. apply Forall_app in H as [Hu H]. constructor; auto.
Qed.

(** The common tests of a unit, as its shape. *)
Lemma nal_head (u : Bytes) (k : Z) :
  bytes_ok u -> blen u <= 65535 ->
  negb ((blen u <? 2) || negb (Z.land (at_ u 0) 0x80 =? 0) || negb (Z.land (at_ u 0) 31 =? k)) = true
  <-> unit_type k u.
Proof.
  intros Hb Hl. unfold unit_type. destruct u as [|h [|x rest]].
  - split; [done|]. by intros (?&?&?&?&_).
  - split; [done|]. by intros (?&?&?&?&_).
  - inv Hb. change (at_ (h :: x :: rest) 0) with h.
    rewrite u8_land_80, land_31 by done. unfold blen in *. cbn [length] in *.
    rewrite (proj2 (Z.ltb_ge _ 2)) by lia. unfold is_u8 in *. cbn [orb].
    rewrite negb_true_iff, orb_false_iff, !negb_false_iff, Z.ltb_lt, Z.eqb_eq. split.
    + intros [Hh Hk]. exists h, x, rest. repeat split; [lia|lia|done|lia|]. by constructor.
    + intros (h' & x' & rest' & [= <- <- <-] & Hh & Hk & _). lia.
Qed.

Lemma nal_ok_other (b u : Bytes) (k : Z) :
  k <> 7 -> bytes_ok u -> blen u <= 65535 -> Avc.nal_ok b k u = true <-> unit_type k u.
Proof.
  intros Hk Hb Hl. unfold Avc.nal_ok. rewrite (proj2 (Z.eqb_neq k 7) Hk).
  cbn [andb negb]. rewrite andb_true_r. by apply nal_head.
Qed.

Lemma nal_ok_sps (b u : Bytes) (p c l : Z) :
  slice b 1 4 = Some [p; c; l] -> bytes_ok u -> blen u <= 65535 ->
  Avc.nal_ok b 7 u = true <->
  unit_type 7 u /\ exists h rest, u = h :: p :: c :: l :: rest.
Proof.
  intros Hs Hb Hl. unfold Avc.nal_ok. rewrite andb_true_iff, nal_head by done. rewrite Hs.
  change (7 =? 7) with true. cbn [andb].
  rewrite negb_true_iff, orb_false_iff, negb_false_iff, bool_decide_eq_true, Z.ltb_ge.
  split; intros [Ht H]; (split; [done|]).
  - destruct H as [Hlen Hsl].
    destruct u as [|h [|x [|y [|z rest]]]]; unfold blen in Hlen; cbn in Hlen; try lia.
    unfold slice, blen in Hsl. destruct (_ && _); [|done]. cbn in Hsl.
    injection Hsl as -> -> ->. eauto.
  - destruct H as (h & rest & ->). unfold blen in *. cbn [length] in *.
    split; [lia|]. unfold slice, blen. cbn [length].
    rewrite (proj2 (Z.leb_le 4 _)) by lia. done.
Qed.

Lemma nals_complete (b post : Bytes) (us : list Bytes) (o k : Z) :
  (1 <= length us <= 64)%nat -> Forall (fun u => Avc.nal_ok b k u = true /\ blen u <= 65535) us ->
  0 <= o <= blen b -> drop (Z.to_nat o) b = enc_units us ++ post ->
  Avc.nals b o (Z.of_nat (length us)) k = Some (o + blen (enc_units us)).
Proof.
  intros Hn Hus Ho Hd. unfold Avc.nals.
  rewrite (proj2 (Z.eqb_neq _ 0)), (proj2 (Z.ltb_ge 64 _)) by lia. cbn [orb].
  rewrite Nat2Z.id. by eapply units_complete.
Qed.

Lemma nals_sound (b : Bytes) (o o' n k : Z) :
  bytes_ok b -> 0 <= o <= blen b -> 0 <= n -> Avc.nals b o n k = Some o' ->
  exists us, n = Z.of_nat (length us) /\ (1 <= length us <= 64)%nat /\
    Forall (fun u => Avc.nal_ok b k u = true /\ blen u <= 65535 /\ bytes_ok u) us /\
    drop (Z.to_nat o) b = enc_units us ++ drop (Z.to_nat o') b /\ o <= o' <= blen b.
Proof.
  intros Hb Ho Hn. unfold Avc.nals. destruct (_ || _) eqn:E; [done|]. dk_bool. intros Hu.
  destruct (units_sound _ _ _ _ _ Hb Ho Hu) as (us & Hlen & Hok & Henc & Hd & Ho').
  exists us. assert (n = Z.of_nat (length us)) by lia.
  repeat split; [done|lia|lia| |done|lia|lia].
  apply units_ok_bytes in Henc. apply Forall_forall. intros u Hu'.
  rewrite Forall_forall in Hok, Henc. destruct (Hok u Hu'). auto.
Qed.

Lemma is_u8_at (b : Bytes) (i : Z) : bytes_ok b -> is_u8 (at_ b i).
Proof.
  intros Hb. unfold at_. destruct (Nat.lt_ge_cases (Z.to_nat i) (length b)) as [H|H].
  - unfold bytes_ok in Hb. rewrite Forall_forall in Hb. apply Hb.
    apply list_elem_of_In. by apply nth_In.
  - rewrite nth_overflow by done. unfold is_u8, u8_max. lia.
Qed.

Lemma drop4 (b : Bytes) (o : Z) :
  0 <= o -> 4 <= blen b - o ->
  drop (Z.to_nat o) b =
    at_ b o :: at_ b (o + 1) :: at_ b (o + 2) :: at_ b (o + 3) :: drop (Z.to_nat (o + 4)) b.
Proof.
  intros Ho Hl. unfold at_, blen in *.
  assert (Hs : forall i, (i < length b)%nat -> drop i b = nth i b 0 :: drop (S i) b).
  { intros i Hi. destruct (lookup_lt_is_Some_2 b i Hi) as [x Hx].
    rewrite nth_lookup, Hx. by apply drop_S. }
  rewrite !Z2Nat.inj_add by lia. change (Z.to_nat 1) with 1%nat. change (Z.to_nat 2) with 2%nat.
  change (Z.to_nat 3) with 3%nat. change (Z.to_nat 4) with 4%nat.
  rewrite (Hs (Z.to_nat o)), (Hs (S (Z.to_nat o))), (Hs (S (S (Z.to_nat o)))),
    (Hs (S (S (S (Z.to_nat o))))) by lia.
  repeat (f_equal; try lia).
Qed.

Lemma extension_sound (b : Bytes) (profile o depth : Z) :
  bytes_ok b -> 0 <= o <= blen b -> Avc.extension b profile o = Some (depth, blen b) ->
  exists h, depth = 8 + high_depth h /\ high_valid profile h /\
    drop (Z.to_nat o) b = enc_high h.
Proof.
  intros Hb Ho. unfold Avc.extension.
  destruct (o <? blen b) eqn:Elt; dk_bool.
  - intros Hx. dk_ensure Hx E1. cbv zeta in Hx. dk_ensure Hx E2. revert Hx. dk_bool.
    assert (U1 := is_u8_at b (o + 1) Hb). assert (U2 := is_u8_at b (o + 2) Hb).
    assert (U3 := is_u8_at b (o + 3) Hb).
    rewrite u8_land_f8 in * by done. rewrite mem_In, !land_7 in *.
    match goal with H : In _ [8; 10] |- _ => rename H into Hin end.
    pose proof (drop4 b o ltac:(lia) ltac:(lia)) as Hd.
    destruct (if 0 <? at_ b (o + 3) then _ else _) as [o'|] eqn:En; [|done].
    intros [= Hdep Ho'].
    assert (Hexts : exists exts, at_ b (o + 3) = Z.of_nat (length exts) /\
      (length exts <= 64)%nat /\ Forall (unit_type 13) exts /\
      drop (Z.to_nat (o + 4)) b = enc_units exts).
    { destruct (0 <? at_ b (o + 3)) eqn:E0; dk_bool.
      - destruct (nals_sound b (o + 4) o' (at_ b (o + 3)) 13 Hb ltac:(lia) ltac:(lia) En)
          as (us & Hn & Hlen & Hok & Hdu & _).
        exists us. repeat split; [done|lia| |].
        + eapply Forall_impl; [exact Hok|]. intros u (Hu & Hl & Hub).
          by apply (nal_ok_other b).
        + rewrite Hdu, Ho'. unfold blen. rewrite Nat2Z.id, drop_all. by rewrite app_nil_r.
      - injection En as <-. exists []. unfold is_u8 in *. repeat split; [cbn; lia|cbn; lia|done|].
        rewrite Ho'. unfold blen. by rewrite Nat2Z.id, drop_all. }
    destruct Hexts as (exts & Hc & Hlen & Hty & Hdx).
    exists (Some ((at_ b (o + 1)) mod 8, exts)). cbn [high_depth high_valid enc_high].
    repeat split; [lia|done| |done|done|].
    + destruct Hin as [?|[?|[]]]; cbn [In]; lia.
    + assert (E0 : at_ b o = 0xfd) by lia.
      assert (E1' : at_ b (o + 1) = 0xf8 + at_ b (o + 1) mod 8) by lia.
      assert (E2' : at_ b (o + 2) = 0xf8 + at_ b (o + 1) mod 8) by lia.
      rewrite Hd, Hdx, Hc, E0, E2'. cbn [app]. rewrite <- E1'. done.
  - destruct (profile =? 110) eqn:Ep; [done|]. dk_bool. intros [= <- Heq].
    exists None. repeat split; [done|]. rewrite Heq. unfold blen. by rewrite Nat2Z.id, drop_all.
Qed.

Lemma u8_add_land (base k : Z) (mask : Z) :
  In (base, mask) [(0xfc, 3); (0xe0, 31); (0xf8, 7)] -> 0 <= k <= mask ->
  Z.land (base + k) base = base /\ Z.land (base + k) mask = k.
Proof.
  intros Hb Hk.
  assert (H : forall b m, forallb (fun x => implb (x <=? m)
      ((Z.land (b + x) b =? b) && (Z.land (b + x) m =? x))) all_u8 = true ->
    m <= 255 -> 0 <= k <= m -> Z.land (b + k) b = b /\ Z.land (b + k) m = k).
  { intros b m Hf Hm Hkm. pose proof (u8_forall _ Hf k ltac:(unfold is_u8, u8_max; lia)) as H.
    cbn beta in H. rewrite (proj2 (Z.leb_le k m)) in H by lia. cbn [implb] in H.
    dk_bool. split; assumption. }
  destruct Hb as [E|[E|[E|[]]]]; injection E as <- <-;
    (apply H; [vm_compute; reflexivity|lia|lia]).
Qed.

Lemma extension_complete (b : Bytes) (profile o : Z) (h : option (Z * list Bytes)) :
  0 <= o <= blen b -> high_valid profile h -> drop (Z.to_nat o) b = enc_high h ->
  Avc.extension b profile o = Some (8 + high_depth h, blen b).
Proof.
  intros Ho Hv Hd. pose proof (blen_drop b o Ho) as Hl. rewrite Hd in Hl.
  unfold Avc.extension. destruct h as [[d exts]|]; cbn [enc_high high_valid high_depth] in *.
  - destruct Hv as (Hp & Hdd & Hlen & Hty).
    rewrite blen_app in Hl. change (blen [0xfd; _; _; _]) with 4 in Hl.
    pose proof (blen_nonneg (enc_units exts)) as Hn.
    pose proof (drop4 b o ltac:(lia) ltac:(lia)) as Hd4. rewrite Hd in Hd4. cbn [app] in Hd4.
    injection Hd4 as E0 E1 E2 E3 Ed. rewrite <- E0, <- E1, <- E2, <- E3.
    rewrite (proj2 (Z.ltb_lt o (blen b))), (proj2 (Z.ltb_ge (blen b - o) 4)) by lia.
    assert (Hd02 : 0 <= d <= 7) by (destruct Hdd as [<-|[<-|[]]]; lia).
    destruct (u8_add_land 0xf8 d 7 ltac:(cbn; tauto) Hd02) as [L1 L2].
    rewrite L1, L2. rewrite (proj2 (mem_In profile _) Hp).
    assert (Hm : mem (8 + d) [8; 10] = true).
    { apply mem_In. destruct Hdd as [<-|[<-|[]]]; cbn [In]; lia. }
    rewrite Hm, !Z.eqb_refl. cbn [negb orb andb].
    destruct (Z.of_nat (length exts)) as [|n|n] eqn:En; [|cbn [Z.ltb Z.compare]|lia].
    + assert (exts = []) as -> by (destruct exts; [done|cbn in En; lia]).
      change (blen (enc_units [])) with 0 in Hl. change (0 <? 0) with false.
      do 2 f_equal. lia.
    + change (0 <? Z.pos n) with true. cbn iota. rewrite <- En.
      rewrite (nals_complete b [] exts (o + 4) 13); [do 2 f_equal; lia|lia| |lia|].
      * eapply Forall_impl; [exact Hty|]. intros u Hu.
        pose proof Hu as (_&_&_&_&_&_&Hl2&Hb2). split; [|done]. by apply nal_ok_other.
      * by rewrite app_nil_r.
  - change (blen []) with 0 in Hl. rewrite (proj2 (Z.ltb_ge o (blen b))) by lia.
    rewrite (proj2 (Z.eqb_neq profile 110)) by done. do 2 f_equal. lia.
Qed.

Lemma drop1 (b : Bytes) (o : Z) :
  0 <= o < blen b -> drop (Z.to_nat o) b = at_ b o :: drop (Z.to_nat (o + 1)) b.
Proof.
  intros Ho. unfold at_, blen in *.
  destruct (lookup_lt_is_Some_2 b (Z.to_nat o) ltac:(lia)) as [x Hx].
  rewrite nth_lookup, Hx. rewrite (drop_S _ _ _ Hx). cbn [from_option default].
  do 2 f_equal. lia.
Qed.

Lemma first6 (b : Bytes) :
  6 <= blen b ->
  b = [at_ b 0; at_ b 1; at_ b 2; at_ b 3; at_ b 4; at_ b 5] ++ drop (Z.to_nat 6) b.
Proof.
  intros Hl. pose proof (drop4 b 0 ltac:(lia) ltac:(lia)) as H.
  change (drop (Z.to_nat 0) b) with b in H. rewrite H at 1. cbn [app].
  change (0 + 4) with 4. rewrite (drop1 b 4), (drop1 b (4 + 1)) by lia. done.
Qed.

Lemma slice_1_4 (b : Bytes) : 4 <= blen b -> slice b 1 4 = Some [at_ b 1; at_ b 2; at_ b 3].
Proof.
  intros Hl. pose proof (drop4 b 0 ltac:(lia) ltac:(lia)) as H.
  change (drop (Z.to_nat 0) b) with b in H.
  eapply (slice_at b _ (drop (Z.to_nat 4) b) 1); [lia| |reflexivity].
  rewrite (drop1 b 1), (drop1 b (1 + 1)), (drop1 b (1 + 1 + 1)) by lia. done.
Qed.

Lemma avc_sound (b : Bytes) (cfg : CodecConfiguration) :
  bytes_ok b -> Avc.parse b = Some cfg ->
  exists r, avc_valid r /\ avc_encode r = b /\ cfg = avc_describe r.
Proof.
  intros Hb H. unfold Avc.parse in H. dk_ensure H E1. cbv zeta in H. dk_ensure H Ep.
  dk_bool. apply mem_In in Ep.
  assert (U := is_u8_at b). rewrite (u8_land_fc _ (U 4 Hb)), (u8_land_e0 _ (U 5 Hb)) in *.
  pose proof (slice_1_4 b ltac:(lia)) as Hs.
  destruct (Avc.nals b 6 _ 7) as [o1|] eqn:N1; [|done].
  destruct (get b o1) as [count|] eqn:G; [|done].
  destruct (Avc.nals b (o1 + 1) count 8) as [o2|] eqn:N2; [|done].
  destruct (Avc.extension b (at_ b 1) o2) as [[depth o3]|] eqn:X; [|done].
  dk_ensure H Ho3. apply Z.eqb_eq in Ho3. subst o3. injection H as <-.
  assert (Hn1 : 0 <= Z.land (at_ b 5) 31) by (apply Z.land_nonneg; lia).
  destruct (nals_sound b 6 o1 _ 7 Hb ltac:(lia) Hn1 N1) as (us1 & C1 & L1 & F1 & D1 & B1).
  destruct (get_inv _ _ _ G) as (Bo1 & Dg).
  assert (Uc : is_u8 count).
  { pose proof (bytes_ok_drop b (Z.to_nat o1) Hb) as Hd. rewrite Dg in Hd. by inv Hd. }
  unfold is_u8 in Uc.
  destruct (nals_sound b (o1 + 1) o2 count 8 Hb ltac:(lia) ltac:(lia) N2)
    as (us2 & C2 & L2 & F2 & D2 & B2).
  destruct (extension_sound b (at_ b 1) o2 depth Hb ltac:(lia) X) as (h & Hdep & Hv & Dh).
  assert (Hls : Z.land (at_ b 4) 3 = at_ b 4 mod 4) by apply land_3.
  assert (Hcs : Z.land (at_ b 2) 3 = at_ b 2 mod 4) by apply land_3.
  assert (Hc5 : Z.land (at_ b 5) 31 = at_ b 5 mod 32) by apply land_31.
  pose proof (U 2 Hb) as U2. pose proof (U 3 Hb) as U3. pose proof (U 5 Hb) as U5.
  unfold is_u8, u8_max in U3.
  exists (mk_avc (at_ b 1) (at_ b 2) (at_ b 3) (at_ b 4 mod 4) us1 us2 h).
  split; [|split].
  - unfold avc_valid. cbn [avc_profile avc_compat avc_level length_size sps pps high].
    split; [done|]. split; [split; [done|lia]|]. split; [lia|].
    split; [cbn [In]; dk_lia|]. split; [dk_lia|]. split.
    { eapply Forall_impl; [exact F1|]. intros u (Hu & Hl & Hub). unfold sps_of.
      by apply (nal_ok_sps b). }
    split; [lia|]. split; [|done].
    eapply Forall_impl; [exact F2|]. intros u (Hu & Hl & Hub). by apply (nal_ok_other b).
  - unfold avc_encode. cbn [avc_profile avc_compat avc_level length_size sps pps high].
    etransitivity; [|symmetry; apply first6; lia]. rewrite D1, Dg, D2, Dh, <- C2.
    replace (at_ b 0) with 1 by lia. replace (0xfc + at_ b 4 mod 4) with (at_ b 4) by lia.
    replace (0xe0 + Z.of_nat (length us1)) with (at_ b 5) by lia. done.
  - unfold avc_describe. cbn. by rewrite Hdep.
Qed.

Lemma avc_complete (r : AvcRecord) :
  avc_valid r -> Avc.parse (avc_encode r) = Some (avc_describe r).
Proof.
  intros (Hp & (Uc & Hc) & Hl & Hls & Ls & Fs & Lp & Fp & Hv).
  set (b := avc_encode r).
  assert (D6 : drop (Z.to_nat 6) b = enc_units (sps r) ++
    ([Z.of_nat (length (pps r))] ++ enc_units (pps r) ++ enc_high (high r))) by done.
  assert (Hb6 : blen b = 6 + blen (drop (Z.to_nat 6) b)).
  { unfold b, avc_encode. rewrite blen_app. done. }
  pose proof (blen_nonneg (enc_units (sps r))) as N1.
  pose proof (blen_nonneg (enc_units (pps r) ++ enc_high (high r))) as N2.
  assert (Hb7 : 7 <= blen b).
  { rewrite Hb6, D6, !blen_app. rewrite blen_app in N2.
    change (blen [_]) with 1. lia. }
  assert (A0 : at_ b 0 = 1) by done. assert (A1 : at_ b 1 = avc_profile r) by done.
  assert (A2 : at_ b 2 = avc_compat r) by done. assert (A3 : at_ b 3 = avc_level r) by done.
  assert (A4 : at_ b 4 = 0xfc + length_size r) by done.
  assert (A5 : at_ b 5 = 0xe0 + Z.of_nat (length (sps r))) by done.
  assert (Hs : slice b 1 4 = Some [avc_profile r; avc_compat r; avc_level r])
    by (rewrite slice_1_4 by lia; by rewrite A1, A2, A3).
  assert (Hls3 : 0 <= length_size r <= 3 /\ length_size r <> 2)
    by (destruct Hls as [<-|[<-|[<-|[]]]]; lia).
  destruct (u8_add_land 0xfc (length_size r) 3 ltac:(cbn; tauto) (proj1 Hls3)) as [M1 M2].
  destruct (u8_add_land 0xe0 (Z.of_nat (length (sps r))) 31 ltac:(cbn; tauto) ltac:(lia))
    as [M3 M4].
  unfold Avc.parse. rewrite A0, A1, A2, A3, A4, A5, M1, M2, M3, M4, land_3, Hc.
  rewrite (proj2 (Z.ltb_ge (blen b) 7)), (proj2 (Z.eqb_neq (length_size r) 2)),
    (proj2 (Z.eqb_neq (avc_level r) 0)), (proj2 (mem_In _ _) Hp) by lia.
  rewrite !Z.eqb_refl. cbn [negb orb].
  rewrite (nals_complete b _ (sps r) 6 7 ltac:(lia)) with (3 := D6); [| |lia].
  2:{ eapply Forall_impl; [exact Fs|]. intros u (Hu & Hx).
      pose proof Hu as (?&?&?&_&_&_&Hlu&Hbu). split; [|done]. by eapply nal_ok_sps. }
  set (o1 := 6 + blen (enc_units (sps r))).
  pose proof (drop_app_at b _ _ 6 ltac:(lia) D6) as Dc. fold o1 in Dc. cbn [app] in Dc.
  pose proof (drop_bound b _ _ 6 ltac:(lia) D6) as Bo1. fold o1 in Bo1.
  assert (Ho1 : 0 <= o1 <= blen b) by (split; [unfold o1; lia|exact Bo1]).
  clearbody o1. rewrite (get_at b _ o1 _ ltac:(lia) Dc).
  change (_ :: ?t) with ([Z.of_nat (length (pps r))] ++ t) in Dc.
  pose proof (drop_bound b _ _ o1 ltac:(lia) Dc) as Bo2.
  pose proof (drop_app_at b _ _ o1 ltac:(lia) Dc) as Dp.
  change (blen [_]) with 1 in Bo2, Dp.
  rewrite (nals_complete b _ (pps r) (o1 + 1) 8 ltac:(lia)) with (3 := Dp);
    [| |lia].
  2:{ eapply Forall_impl; [exact Fp|]. intros u Hu.
      pose proof Hu as (?&?&?&_&_&_&Hlu&Hbu). split; [|done]. by apply nal_ok_other. }
  pose proof (drop_bound b _ _ (o1 + 1) ltac:(lia) Dp) as Bo3.
  pose proof (drop_app_at b _ _ (o1 + 1) ltac:(lia) Dp) as Dh.
  pose proof (blen_nonneg (enc_units (pps r))) as N3.
  rewrite (extension_complete b _ (o1 + 1 + blen (enc_units (pps r))) (high r) ltac:(lia) Hv Dh).
  rewrite Z.eqb_refl. done.
Qed.

(** C30: avc.rs accepts exactly the encodings of well-formed AVC decoder
    configuration records (parameter sets of the right types and sizes, SPS that
    agree with the record's profile and level, a high-profile tail where the
    profile allows it, nothing left over), and the codec string, bit depth and
    level it reports are those of the record. *)
Theorem avc_parse_exact (b : Bytes) (cfg : CodecConfiguration) :
  bytes_ok b ->
  Avc.parse b = Some cfg <-> exists r, avc_valid r /\ avc_encode r = b /\ cfg = avc_describe r.
Proof.
  intros Hb. split; [by apply avc_sound|].
  intros (r & Hr & <- & ->). by apply avc_complete.
Qed.

Definition avc_sample : AvcRecord :=
  mk_avc 100 0 40 3 [[0x67; 100; 0; 40; 0xaa]] [[0x68; 0xee]] None.

Lemma avc_parse_exact_witness :
  bytes_ok (avc_encode avc_sample) /\
  Avc.parse (avc_encode avc_sample) = Some (mk_config "avc1.640028" 8 40).
Proof.
  assert (H : bytes_ok (avc_encode avc_sample))
    by (apply bytes_ok_of; vm_compute; reflexivity).
  split; [exact H|]. apply (avc_parse_exact _ _ H).
  exists avc_sample. split; [|split; reflexivity].
  assert (U : forall k u, bytes_ok u -> blen u <= 65535 ->
    negb ((blen u <? 2) || negb (Z.land (at_ u 0) 0x80 =? 0)
          || negb (Z.land (at_ u 0) 31 =? k)) = true -> unit_type k u)
    by (intros k u H1 H2; apply nal_head; assumption).
  unfold avc_valid, avc_sample; cbn [avc_profile avc_compat avc_level length_size sps pps high].
  repeat split; try (unfold is_u8, u8_max; lia); try (cbn; lia); try (cbn; tauto).
  - constructor; [|constructor]. split; [|repeat eexists].
    apply U; [apply bytes_ok_of; reflexivity|vm_compute; discriminate|reflexivity].
  - constructor; [|constructor].
    apply U; [apply bytes_ok_of; reflexivity|vm_compute; discriminate|reflexivity].
Defined.

(** ** hevc.rs *)

(** One array of parameter sets: the header byte and the units. *)
Definition enc_array (a : Z * list Bytes) : Bytes :=
  [fst a] ++ enc16 (Z.of_nat (length (snd a))) ++ enc_units (snd a).
Definition array_kind (a : Z * list Bytes) : Z := Z.land (fst a) 63.
Definition array_ok (a : Z * list Bytes) : Prop :=
  (1 <= length (snd a) <= 64)%nat /\
  Forall (fun u => Hevc.nal_ok (array_kind a) u = true) (snd a).
Definition enc_arrays (l : list (Z * list Bytes)) : Bytes := concat (map enc_array l).

Lemma arrays_sound (n : nat) (b : Bytes) (o o' : Z) (seen seen' : list Z) :
  bytes_ok b -> 0 <= o <= blen b -> NoDup seen ->
  Hevc.arrays_loop n b o seen = Some (o', seen') ->
  exists l, length l = n /\ Forall array_ok l /\ NoDup seen' /\
    seen' = rev (map array_kind l) ++ seen /\
    drop (Z.to_nat o) b = enc_arrays l ++ drop (Z.to_nat o') b /\ o <= o' <= blen b.
Proof.
  intros Hb. revert o seen. induction n as [|n IH]; intros o seen Ho Hnd; cbn [Hevc.arrays_loop].
  { intros [= <- <-]. exists []. repeat split; try done; lia. }
  destruct (get b o) as [h|] eqn:G; [|done]. destruct (get_inv _ _ _ G) as (Bo & Dh).
  intros H. dk_ensure H E1. cbv zeta in H.
  destruct (be16 b (o + 1)) as [c|] eqn:E16; [|done].
  destruct (be16_inv b (o + 1) c Hb ltac:(lia) E16) as (Hc & Dc & Bc).
  dk_ensure H E2. dk_bool.
  destruct (units _ _ b _) as [o1|] eqn:U; [|done].
  destruct (units_sound _ _ b (o + 1 + 2) o1 Hb ltac:(lia) U) as (us & Hn & Hok & _ & Du & Bu).
  dk_ensure H E3.
  assert (Hnew : ~ In (Z.land h 63) seen) by (rewrite <- mem_In; congruence).
  destruct (IH o1 (Z.land h 63 :: seen) ltac:(lia)) as (l & Hl & Fl & Nd & Hs & Dl & Bl);
    [constructor; [by rewrite list_elem_of_In|done]|done|].
  exists ((h, us) :: l). split; [by cbn; rewrite Hl|]. split.
  { constructor; [|done]. split; cbn [fst snd]; [lia|].
    eapply Forall_impl; [exact Hok|]. by intros u [Hu _]. }
  split; [done|]. split; [rewrite Hs; cbn; by rewrite <- app_assoc|]. split; [|lia].
  unfold enc_arrays in *. cbn [map concat]. unfold enc_array at 1. cbn [fst snd].
  rewrite Dh, Dc, Du, Dl, Hn, Z2Nat.id by lia. by rewrite <- !app_assoc.
Qed.

(** an accepted HEVC configuration record is, after its 23 fixed bytes,
    exactly a sequence of parameter set arrays: pairwise different types, VPS,
    SPS and PPS among them, one to 64 units in each and every unit of its
    array's type.  No length field can point outside the record. *)
Theorem hevc_parse_arrays (b : Bytes) (cfg : CodecConfiguration) :
  bytes_ok b -> Hevc.parse b = Some cfg ->
  exists arrays, b = take 23 b ++ enc_arrays arrays /\ Forall array_ok arrays /\
    NoDup (map array_kind arrays) /\
    Forall (fun k => In k (map array_kind arrays)) [32; 33; 34] /\
    Z.of_nat (length arrays) = at_ b 22 /\ (bit_depth cfg = 8 \/ bit_depth cfg = 10).
Proof.
  intros Hb H. unfold Hevc.parse in H. dk_ensure H E1. cbv zeta in H. dk_ensure H E2.
  destruct (slice b 6 12) as [cs|]; [|done].
  destruct (Hevc.arrays_loop _ b 23 []) as [[o seen]|] eqn:A; [|done].
  dk_ensure H E3. apply (f_equal (option_map bit_depth)) in H.
  cbn [option_map bit_depth] in H. assert (Hdepth := f_equal (fun o => unwrap_or o 0) H).
  cbn [unwrap_or] in Hdepth. rewrite <- Hdepth. clear H Hdepth.
  dk_bool. rewrite mem_In in *. subst o.
  destruct (arrays_sound _ b 23 (blen b) [] seen Hb ltac:(lia) ltac:(constructor) A)
    as (l & Hl & Fl & Nd & Hs & Dl & _).
  rewrite app_nil_r in Hs. subst seen. exists l.
  assert (Dall : drop (Z.to_nat (blen b)) b = []) by (unfold blen; by rewrite Nat2Z.id, drop_all).
  rewrite Dall, app_nil_r in Dl. change (Z.to_nat 23) with 23%nat in Dl.
  split; [rewrite <- Dl; symmetry; apply take_drop|]. split; [done|].
  split; [by rewrite <- Permutation_rev in Nd|]. split.
  { apply Forall_forall. intros k Hk. apply list_elem_of_In in Hk.
    match goal with F : forallb _ _ = true |- _ => rewrite forallb_forall in F; specialize (F k Hk);
      rewrite mem_In, <- in_rev in F; exact F end. }
  pose proof (is_u8_at b 22 Hb) as U. unfold is_u8 in U. split; [lia|].
  match goal with M : In _ [8; 10] |- _ => destruct M as [?|[?|[]]]; lia end.
Qed.

Definition hevc_sample : Bytes :=
  [1; 1; 0x60; 0; 0; 0; 0xb0; 0; 0; 0; 0; 0; 60; 0xf0; 0; 0xfc; 0xfd; 0xf8; 0xf8; 0; 0; 3; 3]
  ++ [0xa0; 0; 1; 0; 2; 64; 1] ++ [0xa1; 0; 1; 0; 2; 66; 1] ++ [0xa2; 0; 1; 0; 2; 68; 1].

Lemma hevc_parse_arrays_example :
  Hevc.parse hevc_sample = Some (mk_config "hev1.1.6.L60.B0" 8 60) /\
  exists arrays, hevc_sample = take 23 hevc_sample ++ enc_arrays arrays /\
    NoDup (map array_kind arrays).
Proof.
  split; [vm_compute; reflexivity|].
  destruct (hevc_parse_arrays hevc_sample (mk_config "hev1.1.6.L60.B0" 8 60))
    as (l & H1 & _ & H3 & _).
  - apply bytes_ok_of. vm_compute. reflexivity.
  - vm_compute. reflexivity.
  - exists l. split; [exact H1|exact H3].
Defined.

(** ** av1.rs *)

(** One OBU of the record: header byte, optional extension byte, the bytes of
    its [leb128] size, and its payload. *)
Record Obu := mk_obu { obu_header : Z; obu_ext : option Z; obu_size : Bytes; payload : Bytes }.

Definition leb_value (l : Bytes) : Z := fold_right (fun v acc => v mod 128 + 128 * acc) 0 l.
Definition obu_kind (x : Obu) : Z := Z.land (Z.shiftr (obu_header x) 3) 15.
Definition enc_obu (x : Obu) : Bytes :=
  [obu_header x] ++ match obu_ext x with Some e => [e] | None => [] end ++ obu_size x ++ payload x.
Definition enc_obus (l : list Obu) : Bytes := concat (map enc_obu l).
Definition obu_ok (x : Obu) : Prop :=
  leb_value (obu_size x) = blen (payload x) /\ 1 <= blen (payload x) /\
  (length (obu_size x) <= 4)%nat.

Lemma leb128_sound (fuel : nat) (b : Bytes) (o shift len o' len' : Z) :
  0 <= o -> 0 <= shift -> Av1.leb128 fuel b o shift len = Some (len', o') ->
  exists l, drop (Z.to_nat o) b = l ++ drop (Z.to_nat o') b /\ o' = o + blen l /\
    o' <= blen b /\ len' = len + 2 ^ shift * leb_value l /\
    shift + 7 * Z.of_nat (length l) <= 34 /\ (1 <= length l)%nat.
Proof.
  revert o shift len. induction fuel as [|f IH]; intros o shift len Ho Hs; cbn [Av1.leb128]; [done|].
  destruct (get b o) as [v|] eqn:G; [|done]. destruct (get_inv _ _ _ G) as (Bo & Dv).
  intros H. cbv zeta in H. dk_ensure H E. dk_bool.
  assert (Hv : Z.land v 127 = v mod 128).
  { change 127 with (Z.ones 7). by rewrite Z.land_ones by lia. }
  rewrite Hv, Z.shiftl_mul_pow2 in H by lia. destruct (Z.land v 128 =? 0).
  - injection H as <- <-. exists [v]. rewrite Dv. unfold blen in *. cbn [length app leb_value fold_right].
    repeat split; lia.
  - destruct (IH (o + 1) (shift + 7) _ ltac:(lia) ltac:(lia) H) as (l & Dl & Ho' & Hb & Hl & Hsh & _).
    exists (v :: l). rewrite Dv, Dl. unfold blen in *. cbn [length app leb_value fold_right].
    fold (leb_value l). rewrite Z.pow_add_r in Hl by lia. change (2 ^ 7) with 128 in Hl.
    repeat split; lia.
Qed.

Lemma obus_sound (fuel : nat) (b : Bytes) (o s n : Z) :
  0 <= o <= blen b -> 0 <= s -> Av1.obus fuel b o s = Some n ->
  exists l, drop (Z.to_nat o) b = enc_obus l /\ Forall obu_ok l /\
    Forall (fun x => In (obu_kind x) [1; 5]) l /\
    n = s + Z.of_nat (length (List.filter (fun x => obu_kind x =? 1) l)) /\
    (s = 0 -> match l with [] => True | x :: _ => obu_kind x = 1 end).
Proof.
  revert o s. induction fuel as [|f IH]; intros o s Ho Hs; cbn [Av1.obus];
    destruct (negb (o <? blen b)) eqn:E0.
  1,3: intros [= <-]; exists []; dk_bool; replace o with (blen b) by lia;
    unfold blen; rewrite Nat2Z.id, drop_all; cbn; repeat split; (constructor || lia || done).
  { done. }
  destruct (get b o) as [h|] eqn:G; [|done]. destruct (get_inv _ _ _ G) as (Bo & Dh).
  intros H. cbv zeta in H. dk_ensure H E1.
  destruct (Av1.obu_extension b h (o + 1)) as [o1|] eqn:Ex; [|done].
  assert (Hext : exists e, drop (Z.to_nat (o + 1)) b =
      match e with Some x => [x] | None => [] end ++ drop (Z.to_nat o1) b /\ o + 1 <= o1 <= blen b).
  { unfold Av1.obu_extension in Ex. destruct (negb (Z.land h 4 =? 0)).
    - destruct (get b (o + 1)) as [e|] eqn:Ge; [|done]. destruct (get_inv _ _ _ Ge) as (Be & De).
      dk_ensure Ex E2. injection Ex as <-. exists (Some e). rewrite De. split; [done|lia].
    - injection Ex as <-. exists None. split; [done|lia]. }
  destruct Hext as (e & De & Be).
  destruct (Av1.leb128 5 b o1 0 0) as [[len o2]|] eqn:L; [|done].
  destruct (leb128_sound 5 b o1 0 0 o2 len ltac:(lia) ltac:(lia) L)
    as (sz & Dsz & Ho2 & Bo2 & Hlen & Hshift & Hsz).
  dk_ensure H E3. dk_bool.
  assert (Hpos : 0 <= leb_value sz).
  { clear. unfold leb_value. induction sz as [|v sz IHs]; cbn [fold_right]; [lia|].
    pose proof (Z.mod_pos_bound v 128). lia. }
  assert (B3 : 0 <= o2 + len <= blen b) by (unfold blen in *; lia).
  destruct (slice b o2 (o2 + len)) as [p|] eqn:Sl.
  2:{ unfold slice in Sl. rewrite (proj2 (Z.leb_le o2 _)), (proj2 (Z.leb_le (o2 + len) _)) in Sl
        by lia. done. }
  destruct (slice_inv b p o2 (o2 + len) ltac:(unfold blen in *; lia) Sl) as (Dp & Hp & _).
  destruct (IH (o2 + len) (if Z.land (Z.shiftr h 3) 15 =? 1 then s + 1 else s) B3
    ltac:(destruct (_ =? 1); lia) H) as (l & Dl & Fl & Kl & Hn & Hf).
  rewrite mem_In in *. exists (mk_obu h e sz p :: l). split.
  { unfold enc_obus in *. cbn [map concat]. unfold enc_obu at 1. cbn [obu_header obu_ext obu_size payload].
    rewrite Dh, De, Dsz, Dp, Dl, <- !app_assoc. done. }
  split; [constructor; [|done]; unfold obu_ok; cbn [obu_size payload]; repeat split; lia|].
  split; [by constructor|]. split.
  - cbn [List.filter]. unfold obu_kind at 1. cbn [obu_header]. rewrite Hn.
    destruct (_ =? 1); cbn [length]; lia.
  - intros ->. unfold obu_kind. cbn [obu_header].
    match goal with A : _ && _ = false |- _ => change (0 =? 0) with true in A; cbn [andb] in A end.
    dk_bool. done.
Qed.

(** an accepted AV1 configuration record is, after its four fixed bytes,
    exactly a sequence of OBUs whose size fields are the sizes of their
    non-empty payloads: first a sequence header, the only one, then metadata
    OBUs only.  The loop over the OBUs and the [leb128] loop thus both end
    within the record. *)
Theorem av1_parse_obus (b : Bytes) (colors : Av1.Colors) (cfg : CodecConfiguration) :
  Av1.parse b colors = Some cfg ->
  exists header rest, b = take 4 b ++ enc_obus (header :: rest) /\
    Forall obu_ok (header :: rest) /\ obu_kind header = 1 /\
    Forall (fun x => obu_kind x = 5) rest.
Proof.
  intros H. unfold Av1.parse in H. dk_ensure H E1. cbv zeta in H. dk_ensure H E2. dk_bool.
  destruct (Av1.obus (length b) b 4 0) as [n|] eqn:O; [|done].
  dk_ensure H E3. clear H. apply Z.eqb_eq in E3. subst n.
  destruct (obus_sound _ b 4 0 1 ltac:(lia) ltac:(lia) O) as (l & Dl & Fl & Kl & Hn & Hf).
  specialize (Hf eq_refl). change (Z.to_nat 4) with 4%nat in Dl.
  destruct l as [|x l]; [cbn in Hn; lia|]. exists x, l.
  split; [rewrite <- Dl; symmetry; apply take_drop|]. split; [done|]. split; [done|].
  cbn [List.filter] in Hn. rewrite Hf in Hn. change (1 =? 1) with true in Hn. cbn [length] in Hn.
  inv Kl. apply Forall_forall. intros y Hy.
  match goal with K : Forall _ l |- _ => rewrite Forall_forall in K; specialize (K y Hy) end.
  destruct (obu_kind y =? 1) eqn:E.
  - assert (Hin : In y (List.filter (fun x => obu_kind x =? 1) l))
      by (apply filter_In; split; [by apply list_elem_of_In|done]).
    destruct (List.filter _ l); [done|cbn in Hn; lia].
  - apply Z.eqb_neq in E. cbn [In] in *. lia.
Qed.

Lemma av1_parse_obus_example :
  exists header rest, [0x81; 0; 0x0c; 0; 0x0a; 1; 0] = take 4 [0x81; 0; 0x0c; 0; 0x0a; 1; 0]
    ++ enc_obus (header :: rest) /\ obu_kind header = 1.
Proof.
  destruct (av1_parse_obus [0x81; 0; 0x0c; 0; 0x0a; 1; 0] (Av1.mk_colors 1 1 1 0)
    (mk_config "av01.0.00M.08.0.110.01.01.01.0" 8 0)) as (h & r & H1 & _ & H3 & _);
    [vm_compute; reflexivity|]. exists h, r. split; [exact H1|exact H3].
Defined.

(** ** audio.rs *)

Lemma zero_tail_spec (fuel : nat) (bits : Bits) :
  wf bits -> (Z.to_nat (remaining bits) < fuel)%nat ->
  zero_tail fuel bits =
    Some (forallb negb (bits_from (bytes bits) (offset bits) (Z.to_nat (remaining bits)))).
Proof.
  revert bits. induction fuel as [|f IH]; intros bits Hwf Hf; [lia|]. cbn [zero_tail].
  pose proof Hwf as (Hb & Ho & Hm). unfold remaining in *.
  destruct (Z.eq_dec (blen (bytes bits) * 8) (offset bits)) as [He|He].
  - rewrite read_refused by (done || (right; lia)). by rewrite He, Z.sub_diag.
  - rewrite read_success by (done || lia). change (Z.to_nat 1) with 1%nat. cbn [bits_from].
    replace (Z.to_nat (blen (bytes bits) * 8 - offset bits))
      with (S (Z.to_nat (blen (bytes bits) * 8 - (offset bits + 1)))) by lia.
    cbn [bits_from forallb]. unfold bits_value. cbn [fold_left].
    destruct (bit_at _ _); [done|]. cbn [negb andb]. change (2 * 0 + Z.b2z false) with 0.
    change (negb (0 =? 0)) with false. cbn iota. rewrite IH; cbn [bytes offset]; [done| |lia].
    repeat split; cbn; [done|lia..].
Qed.

(** The loop that checks the padding of an AAC configuration always ends,
    and accepts exactly when every bit that is left is zero. *)
Theorem aac_padding_loop (bits : Bits) :
  wf bits ->
  zero_tail (tail_fuel bits) bits =
    Some (forallb negb (bits_from (bytes bits) (offset bits) (Z.to_nat (remaining bits)))).
Proof. intros Hwf. apply zero_tail_spec; [done|]. unfold tail_fuel. lia. Qed.

Example aac_padding_loop_example :
  wf (mk_bits [0x12; 0x10] 13) /\ zero_tail (tail_fuel (mk_bits [0x12; 0x10] 13)) (mk_bits [0x12; 0x10] 13) = Some true.
Proof.
  assert (H : wf (mk_bits [0x12; 0x10] 13))
    by (split; [apply bytes_ok_of; reflexivity|vm_compute; repeat split; discriminate]).
  split; [exact H|]. rewrite (aac_padding_loop _ H). vm_compute. reflexivity.
Defined.

(** An AAC configuration is accepted for at most one sample rate and one
    channel count, so a stream copied with it cannot be announced with another
    format; the channel count is one an AAC-LC client can play. *)
Lemma aac_lc_identifies (b : Bytes) (rate channels : Z) :
  aac_lc b rate channels = true ->
  In channels [1; 2; 3; 4; 5; 6; 8] /\
  forall rate' channels', aac_lc b rate' channels' = true -> rate' = rate /\ channels' = channels.
Proof.
  unfold aac_lc, aac_body.
  destruct (read (new b) 5) as [[kind bits]|]; [|done].
  destruct (kind =? 2); [|done].
  destruct (aac_rate bits) as [[r bits']|]; [|done].
  destruct (read bits' 4) as [[configuration bits'']|]; [|done].
  destruct (get aac_channels configuration) as [count|] eqn:G; [|done].
  destruct ((r =? rate) && negb (count =? 0) && (count =? channels)) eqn:E; [|done].
  dk_bool. subst r count. intros _. split.
  - destruct (get_inv _ _ _ G) as (_ & D).
    assert (Hin : In channels (drop (Z.to_nat configuration) aac_channels)) by (rewrite D; by left).
    assert (Hall : In channels aac_channels).
    { rewrite <- (take_drop (Z.to_nat configuration) aac_channels). apply in_app_iff. by right. }
    destruct Hall as [<-|Hall]; [done|exact Hall].
  - intros rate' channels'.
    destruct ((rate =? rate') && _ && (channels =? channels')) eqn:E'; [|done].
    dk_bool. by subst.
Qed.

Example aac_lc_identifies_example :
  aac_lc [0x11; 0x90] 48000 2 = true /\ (aac_lc [0x11; 0x90] 44100 2 = true -> 44100 = 48000).
Proof.
  assert (H : aac_lc [0x11; 0x90] 48000 2 = true) by (vm_compute; reflexivity).
  split; [exact H|]. intros H'. destruct (aac_lc_identifies _ _ _ H) as [_ U].
  exact (proj1 (U _ _ H')).
Defined.

End CodecProofs.
