(* ===== verification/Conditions.v ===== *)
(** * Conditions of overlays and smart collections

    Models server/src/services/conditions.rs: the evaluator and the structural
    validator of the recursive [operator]/[rules]/[field]/[op] JSON filters, and
    proves the evaluator against a field-first specification of a filter. *)

From S2P Require Import Prelude F64 Json.
Import Json.

Module Conditions.

Section Conditions.

(** The regex and uuid crates. [regex p] is [Regex::new(p).ok()] with its
    [is_match]; [uuid_to_string] is [Uuid]'s [Display]. *)
Context {Uuid : Type} (uuid_to_string : Uuid -> string)
        (regex : string -> option (string -> bool)).

Record MediaFilterContext := mk_context {
  media_type : string;
  library_id : option Uuid;
  content_rating : option string;
  critic_rating : option F64.f64;
  genres : list string;
  video_resolution : option string;
  video_codec : option string;
  video_dynamic_range : option string;
  audio_codec : option string;
  audio_channels : option Z;
  container_format : option string;
  has_dolby_vision : bool;
  has_multiple_versions : bool;
  edition : option string;
  original_language : option string;
  streaming_on : list string }.

(** ** Utilities *)

Definition json_to_f64 (v : Value) : option F64.f64 :=
  match v with
  | Num n => as_f64 n
  | Str s => F64.parse s
  | _ => None
  end.

Definition json_to_i64 (v : Value) : option Z :=
  match v with
  | Num n => option_or (as_i64 n) (option_map F64.to_i64 (as_f64 n))
  | Str s => Dec.parse_i64 s
  | _ => None
  end.

(** A Rust [match] on a string with several literals per arm. *)
Definition one_of (s : string) (l : list string) : bool := existsb (String.eqb s) l.

(** ** Field accessors and comparisons *)

Definition text_field (field : string) (ctx : MediaFilterContext) : option string :=
  if String.eqb field "video_resolution" then video_resolution ctx
  else if String.eqb field "video_codec" then video_codec ctx
  else if String.eqb field "video_dynamic_range" then video_dynamic_range ctx
  else if String.eqb field "audio_codec" then audio_codec ctx
  else if String.eqb field "container_format" then container_format ctx
  else if String.eqb field "content_rating" then content_rating ctx
  else if String.eqb field "media_type" then Some (media_type ctx)
  else if String.eqb field "original_language" then original_language ctx
  else if String.eqb field "edition" then edition ctx
  else None.

Definition compare_eq (field : string) (value : option Value) (ctx : MediaFilterContext) : bool :=
  match value with
  | None => false
  | Some value =>
      if String.eqb field "genre" then
        is_some_and (as_str value) (fun v => existsb (fun g => Str.eq_ignore_case g v) (genres ctx))
      else if String.eqb field "streaming_on" then
        is_some_and (as_str value) (fun v => existsb (fun s => Str.eq_ignore_case s v) (streaming_on ctx))
      else if String.eqb field "library_id" then
        is_some_and (as_str value) (fun target =>
          is_some_and (library_id ctx) (fun id => String.eqb (uuid_to_string id) target))
      else if String.eqb field "has_dolby_vision" then
        is_some_and (as_bool value) (fun v => Bool.eqb v (has_dolby_vision ctx))
      else if String.eqb field "has_multiple_versions" then
        is_some_and (as_bool value) (fun v => Bool.eqb v (has_multiple_versions ctx))
      else if String.eqb field "audio_channels" then
        is_some_and (json_to_i64 value) (fun target =>
          is_some_and (audio_channels ctx) (fun c => c =? target))
      else if one_of field ["critic_rating"; "critic_rating_above"]%string then
        is_some_and (json_to_f64 value) (fun target =>
          is_some_and (critic_rating ctx)
            (fun r => F64.ltb (F64.abs (F64.sub r target)) F64.epsilon))
      else
        is_some_and (text_field field ctx) (fun ctx_text =>
          is_some_and (as_str value) (fun val_text => Str.eq_ignore_case ctx_text val_text))
  end.

(** The pair of numbers compared, when both are there. *)
Definition numbers (field : string) (value : Value) (ctx : MediaFilterContext)
  : option (F64.f64 * F64.f64) :=
  if String.eqb field "audio_channels" then
    let! t := json_to_i64 value in
    let! c := audio_channels ctx in
    Some (F64.of_Z c, F64.of_Z t)
  else if one_of field ["critic_rating"; "critic_rating_above"]%string then
    let! t := json_to_f64 value in
    let! r := critic_rating ctx in
    Some (r, t)
  else None.

Definition compare_numeric (field op : string) (value : option Value) (ctx : MediaFilterContext)
  : bool :=
  match value with
  | None => false
  | Some value =>
      match numbers field value ctx with
      | None => false
      | Some (ctx_num, target) =>
          if String.eqb op "gt" then F64.ltb target ctx_num
          else if String.eqb op "gte" then F64.leb target ctx_num
          else if String.eqb op "lt" then F64.ltb ctx_num target
          else if String.eqb op "lte" then F64.leb ctx_num target
          else false
      end
  end.

Definition check_exists (field : string) (want_exists : bool) (ctx : MediaFilterContext) : bool :=
  let present :=
    if String.eqb field "video_resolution" then is_some_b (video_resolution ctx)
    else if String.eqb field "video_codec" then is_some_b (video_codec ctx)
    else if String.eqb field "video_dynamic_range" then is_some_b (video_dynamic_range ctx)
    else if String.eqb field "audio_codec" then is_some_b (audio_codec ctx)
    else if String.eqb field "audio_channels" then is_some_b (audio_channels ctx)
    else if String.eqb field "container_format" then is_some_b (container_format ctx)
    else if String.eqb field "content_rating" then is_some_b (content_rating ctx)
    else if one_of field ["critic_rating"; "critic_rating_above"]%string then is_some_b (critic_rating ctx)
    else if String.eqb field "original_language" then is_some_b (original_language ctx)
    else if String.eqb field "edition" then is_some_b (edition ctx)
    else if String.eqb field "media_type" then negb (Str.is_empty (media_type ctx))
    else if String.eqb field "library_id" then is_some_b (library_id ctx)
    else if String.eqb field "genre" then negb (bool_decide (genres ctx = []))
    else if String.eqb field "streaming_on" then negb (bool_decide (streaming_on ctx = []))
    else if String.eqb field "has_dolby_vision" then has_dolby_vision ctx
    else if String.eqb field "has_multiple_versions" then has_multiple_versions ctx
    else false in
  Bool.eqb present want_exists.

Definition match_regex (field pattern : string) (ctx : MediaFilterContext) : bool :=
  is_some_and (text_field field ctx) (fun text =>
    is_some_and (regex pattern) (fun re => re text)).

(** ** Recursive evaluator *)

Definition str_at (k : string) (obj : list (string * Value)) : option string :=
  let! v := lookup k obj in as_str v.
Definition array_at (k : string) (obj : list (string * Value)) : option (list Value) :=
  let! v := lookup k obj in as_array v.

Definition evaluate_leaf (obj : list (string * Value)) (ctx : MediaFilterContext) : bool :=
  match str_at "field" obj, str_at "op" obj with
  | Some field, Some op =>
      let value := lookup "value" obj in
      if String.eqb op "eq" then compare_eq field value ctx
      else if String.eqb op "neq" then negb (compare_eq field value ctx)
      else if String.eqb op "in" then
        is_some_and (array_at "values" obj) (fun values =>
          existsb (fun v => compare_eq field (Some v) ctx) values)
      else if one_of op ["gt"; "gte"; "lt"; "lte"]%string then compare_numeric field op value ctx
      else if String.eqb op "exists" then
        check_exists field (unwrap_or (let! v := value in as_bool v) true) ctx
      else if String.eqb op "matches" then
        is_some_and (str_at "value" obj) (fun pattern => match_regex field pattern ctx)
      else false
  | _, _ => false
  end.

(** [evaluate_group] over the evaluator of its rules. *)
Definition evaluate_group_with (node : Value -> bool) (group : Value) : bool :=
  match as_object group with
  | None => true
  | Some obj =>
      let operator := unwrap_or (str_at "operator" obj) "and"%string in
      match array_at "rules" obj with
      | None => true
      | Some rules =>
          if bool_decide (rules = []) then true
          else if String.eqb operator "and" then forallb node rules
          else if String.eqb operator "or" then existsb node rules
          else forallb node rules
      end
  end.

(** Rules are smaller than their group, so the size of a value is enough fuel
    for the recursion of [evaluate_group] and [evaluate_node]. *)
Fixpoint evaluate_node (fuel : nat) (ctx : MediaFilterContext) (node : Value) : bool :=
  match fuel with
  | O => false
  | S f =>
      match as_object node with
      | None => false
      | Some obj =>
          if contains_key "operator" obj
          then evaluate_group_with (evaluate_node f ctx) node
          else evaluate_leaf obj ctx
      end
  end.



(** ** Structural validation *)

Inductive ConditionError : Type :=
| InvalidStructure (message : string)
| MissingKey (key : string)
| InvalidOperator (operator : string).

Definition valid_ops : list string :=
  ["eq"; "neq"; "in"; "gt"; "gte"; "lt"; "lte"; "exists"; "matches"]%string.

Definition validate_leaf_structure (obj : list (string * Value)) : result unit ConditionError :=
  let? _ := ok_or (str_at "field" obj) (MissingKey "field") in
  let? op := ok_or (str_at "op" obj) (MissingKey "op") in
  if negb (one_of op valid_ops) then Err (InvalidOperator op)
  else if String.eqb op "in" then
    if negb (contains_key "values" obj) then Err (MissingKey "values") else Ok tt
  else if negb (contains_key "value" obj) then Err (MissingKey "value") else Ok tt.






(** ** Specification: filters read field first

    A field of the context has a kind, which fixes what it means to compare it,
    to order it, to match it and to have it. *)

Inductive Kind : Type :=
| KText (text : option string)
| KName (name : string)
| KTexts (texts : list string)
| KId (id : option Uuid)
| KFlag (flag : bool)
| KCount (count : option Z)
| KRating (rating : option F64.f64)
| KUnknown.

Definition kinds (ctx : MediaFilterContext) : list (string * Kind) :=
  [("video_resolution", KText (video_resolution ctx)); ("video_codec", KText (video_codec ctx));
   ("video_dynamic_range", KText (video_dynamic_range ctx)); ("audio_codec", KText (audio_codec ctx));
   ("container_format", KText (container_format ctx)); ("content_rating", KText (content_rating ctx));
   ("media_type", KName (media_type ctx)); ("original_language", KText (original_language ctx));
   ("edition", KText (edition ctx)); ("genre", KTexts (genres ctx));
   ("streaming_on", KTexts (streaming_on ctx)); ("library_id", KId (library_id ctx));
   ("has_dolby_vision", KFlag (has_dolby_vision ctx));
   ("has_multiple_versions", KFlag (has_multiple_versions ctx));
   ("audio_channels", KCount (audio_channels ctx)); ("critic_rating", KRating (critic_rating ctx));
   ("critic_rating_above", KRating (critic_rating ctx))]%string.

Fixpoint kind_in (field : string) (l : list (string * Kind)) : Kind :=
  match l with
  | [] => KUnknown
  | (k, kind) :: t => if String.eqb field k then kind else kind_in field t
  end.
Definition kind_of (field : string) (ctx : MediaFilterContext) : Kind := kind_in field (kinds ctx).

Definition equals (kind : Kind) (v : Value) : bool :=
  match kind, as_str v with
  | KText (Some t), Some s | KName t, Some s => Str.eq_ignore_case t s
  | KTexts l, Some s => existsb (fun t => Str.eq_ignore_case t s) l
  | KId (Some id), Some s => String.eqb (uuid_to_string id) s
  | KFlag b, _ => is_some_and (as_bool v) (fun f => Bool.eqb f b)
  | KCount (Some c), _ => is_some_and (json_to_i64 v) (Z.eqb c)
  | KRating (Some r), _ =>
      is_some_and (json_to_f64 v) (fun t => F64.ltb (F64.abs (F64.sub r t)) F64.epsilon)
  | _, _ => false
  end.


Definition present (kind : Kind) : bool :=
  match kind with
  | KText t => is_some_b t
  | KName n => negb (Str.is_empty n)
  | KTexts l => match l with [] => false | _ => true end
  | KId i => is_some_b i
  | KFlag b => b
  | KCount c => is_some_b c
  | KRating r => is_some_b r
  | KUnknown => false
  end.






(** ** Lemmas *)

(** The functions of the code depend on the field only through its kind: check
    every known field, then the unknown ones. *)
Ltac by_field field ctx :=
  unfold kind_of; cbn [kinds kind_in];
  repeat match goal with
  | |- context [String.eqb field ?k] =>
      destruct (String.eqb_spec field k) as [->|];
      [destruct ctx; cbn; unfold is_some_and in *; repeat (case_match; simplify_eq; try done); done|]
  end.



Lemma compare_eq_kind (field : string) (v : Value) (ctx : MediaFilterContext) :
  compare_eq field (Some v) ctx = equals (kind_of field ctx) v.
Proof.
  unfold compare_eq, equals, text_field, one_of. cbn [existsb].
  by_field field ctx. cbn. done.
Qed.



(** *** Rules *)

#[local] Arguments compare_eq : simpl never.
#[local] Arguments compare_numeric : simpl never.
#[local] Arguments check_exists : simpl never.
#[local] Arguments kind_of : simpl never.

Lemma str_at_some (k s : string) (obj : list (string * Value)) :
  str_at k obj = Some s <-> lookup k obj = Some (Str s).
Proof.
  unfold str_at, as_str. split; [|by intros ->].
  destruct (lookup k obj) as [[]|]; try done. by intros [= ->].
Qed.


(** *** Groups *)







(** *** Validation *)








(** A rule with operator [neq] whose operand is missing, or is not of the
    field's type, matches every media item, although the rule is malformed. *)
Lemma neq_without_operand_matches (obj : list (string * Value)) (field : string)
    (ctx : MediaFilterContext) :
  contains_key "operator" obj = false ->
  lookup "field" obj = Some (Str field) -> lookup "op" obj = Some (Str "neq") ->
  lookup "value" obj = None \/ lookup "value" obj = Some Null ->
  evaluate_node (size (Object obj)) ctx (Object obj) = true /\
  (lookup "value" obj = None -> validate_leaf_structure obj = Err (MissingKey "value")).
Proof.
  intros K Hf Ho Hv. pose proof (size_pos (Object obj)).
  destruct (size (Object obj)) as [|n]; [lia|]. cbn [evaluate_node as_object]. rewrite K.
  unfold evaluate_leaf, validate_leaf_structure.
  rewrite (proj2 (str_at_some _ _ _) Hf), (proj2 (str_at_some _ _ _) Ho). cbn.
  unfold contains_key. split; [|by intros ->].
  destruct Hv as [-> | ->]; [done|]. rewrite compare_eq_kind.
  by destruct (kind_of field ctx) as [[]| | |[]| |[]|[]|].
Qed.

End Conditions.

(** ** Witnesses: the crates' functions instantiated *)

Definition no_regex (_ : string) : option (string -> bool) := None.
Definition sample_context : MediaFilterContext (Uuid := unit) :=
  mk_context "movie" None None (Some (F64.of_ratio 15 2)) ["Drama"%string] (Some "4K"%string) None None
    None (Some 6) None true false None None [].



Example neq_without_operand_example :
  evaluate_node (fun _ : unit => ""%string) no_regex 3 sample_context
    (Object [("field", Str "video_codec"); ("op", Str "neq")]%string) = true.
Proof.
  apply (neq_without_operand_matches (fun _ : unit => ""%string) no_regex
    [("field", Str "video_codec"); ("op", Str "neq")]%string "video_codec" sample_context);
    [vm_compute; reflexivity..|]. left. vm_compute. reflexivity.
Defined.

End Conditions.
