(* ===== verification/Compatibility.v ===== *)
(** * Compatibility of codecs, containers and dynamic ranges

    Models server/src/services/decision_engine/compatibility.rs: the aliases
    under which sources and devices name the same codec, container or dynamic
    range.  Sets of strings are stdpp's [gset string]. *)

From stdpp Require Import gmap sets.
From S2P Require Import Prelude.

Module Compatibility.

Abbreviation strset := (gset string).

(** [set.iter().any(p)] and [slice.contains(s)] *)
Definition any (p : string -> bool) (s : strset) : bool := existsb p (elements s).
Definition mem (s : string) (l : list string) : bool := existsb (String.eqb s) l.

Definition CODEC_ALIASES : list (string * list string) :=
  [("h264", ["h264"; "avc"; "avc1"]);
   ("hevc", ["hevc"; "h265"; "hvc1"; "hev1"]);
   ("av1", ["av1"; "av01"]);
   ("vp9", ["vp9"; "vp09"]);
   ("mpeg2video", ["mpeg2video"; "mpeg2"]);
   ("mpeg4", ["mpeg4"; "mp4v"]);
   ("vc1", ["vc1"; "vc-1"]);
   ("vp8", ["vp8"]);
   ("aac", ["aac"]);
   ("ac3", ["ac3"; "ac-3"]);
   ("eac3", ["eac3"; "e-ac-3"; "dd+"; "dolby_digital_plus"]);
   ("truehd", ["truehd"; "thd"; "thd+atmos"]);
   ("dts", ["dts"]);
   ("dts_hd_ma", ["dts-hd_ma"; "dts_hd_ma"]);
   ("dts_hd_hra", ["dts-hd_hra"; "dts_hd_hra"]);
   ("flac", ["flac"]);
   ("opus", ["opus"]);
   ("vorbis", ["vorbis"]);
   ("pcm", ["pcm"; "lpcm"]);
   ("alac", ["alac"]);
   ("mp3", ["mp3"])]%string.

(** The first entry one of whose aliases is the name. *)
Fixpoint find_alias (name : string) (l : list (string * list string)) : option string :=
  match l with
  | [] => None
  | (canonical, aliases) :: t => if mem name aliases then Some canonical else find_alias name t
  end.

Definition normalized (s : string) : string := Str.lower (Str.trim s).

Definition canonical_codec (codec : string) : string :=
  unwrap_or (find_alias (normalized codec) CODEC_ALIASES) (normalized codec).

Definition known_identifier (identifier : string) : bool :=
  negb (mem identifier [""; "unknown"; "none"; "n/a"; "und"; "unspecified"]%string)
  && negb (Str.contains_char "," identifier).

Definition codec_supported (codec : string) (supported : strset) : bool :=
  let codec := canonical_codec codec in
  known_identifier codec && any (fun s => String.eqb codec (canonical_codec s)) supported.

Definition canonical_container (container : string) : string :=
  let n := normalized container in
  if String.eqb n "mkv" then "matroska"%string
  else if String.eqb n "quicktime" then "mov"%string
  else if mem n ["ts"; "m2ts"; "mts"]%string then "mpegts"%string
  else if mem n ["mpg"; "mpegps"; "mpeg-ps"]%string then "mpeg"%string
  else n.

Definition container_supported (container : string) (supported : strset) : bool :=
  forallb (fun source =>
    let source := canonical_container source in
    known_identifier source
    && any (fun formats =>
         existsb (fun format => String.eqb source (canonical_container format))
                 (Str.split "," formats)) supported)
    (Str.split "," container).

Definition canonical_range (format : string) : string :=
  let n := normalized format in
  if String.eqb n "hdr10+" then "hdr10_plus"%string else n.

Definition hdr_supported (dynamic_range : string) (supported : strset) : bool :=
  let dynamic_range := canonical_range dynamic_range in
  String.eqb dynamic_range "sdr"
  || any (fun format => String.eqb (canonical_range format) dynamic_range) supported.

(** ** Two names of one codec *)

Definition same_codec (a b : string) : Prop := canonical_codec a = canonical_codec b.
Definition same_formats (s t : strset) : Prop :=
  (forall a, a ∈ s -> exists b, b ∈ t /\ same_codec a b) /\
  (forall b, b ∈ t -> exists a, a ∈ s /\ same_codec a b).

#[export] Instance same_codec_equivalence : Equivalence same_codec.
Proof.
  split; [by intros a|by intros a b H; symmetry|].
  intros a b c H1 H2. unfold same_codec in *. by rewrite H1.
Qed.

#[export] Instance same_codec_dec (a b : string) : Decision (same_codec a b).
Proof. unfold same_codec. apply _. Defined.

Lemma any_spec (p : string -> bool) (s : strset) :
  any p s = true <-> exists x, x ∈ s /\ p x = true.
Proof.
  unfold any. rewrite existsb_exists. split; intros (x & Hx & Hp); exists x; split; try done.
  - by apply elem_of_elements, list_elem_of_In.
  - by apply list_elem_of_In, elem_of_elements.
Qed.

Lemma name_mem_In (s : string) (l : list string) : mem s l = true <-> In s l.
Proof.
  unfold mem. rewrite existsb_exists. split.
  - by intros (x & Hx & ->%String.eqb_eq).
  - intros H. exists s. by rewrite String.eqb_refl.
Qed.

(** A codec is supported when it is a real identifier and the device names the
    same codec, under whichever alias. *)
Lemma codec_supported_spec (codec : string) (supported : strset) :
  codec_supported codec supported = true <->
  known_identifier (canonical_codec codec) = true /\
  exists s, s ∈ supported /\ same_codec codec s.
Proof.
  unfold codec_supported, same_codec. rewrite andb_true_iff, any_spec.
  split; intros (H & s & Hs & E); (split; [done|]); exists s; (split; [done|]);
    by apply String.eqb_eq.
Qed.

#[export] Instance codec_supported_proper :
  Proper (same_codec ==> same_formats ==> eq) codec_supported.
Proof.
  intros a b Hab s t [Hst Hts]. apply eq_true_iff_eq. rewrite !codec_supported_spec.
  unfold same_codec in Hab. rewrite Hab.
  split; (intros (K & x & Hx & E); split; [done|]); unfold same_codec in E.
  - destruct (Hst x Hx) as (y & Hy & E'). exists y. split; [done|].
    unfold same_codec in *. congruence.
  - destruct (Hts x Hx) as (y & Hy & E'). exists y. split; [done|].
    unfold same_codec in *. congruence.
Qed.

Lemma supported_singleton (codec name : string) :
  codec_supported codec {[ name ]} = known_identifier (canonical_codec codec)
    && String.eqb (canonical_codec codec) (canonical_codec name).
Proof. unfold codec_supported, any. rewrite elements_singleton. cbn. by rewrite orb_false_r. Qed.

End Compatibility.
