(* ===== verification/Ladder.v ===== *)
(** * Rendition ladder

    Models [TranscodeRendition] of server/src/services/transcoding.rs: the fixed
    ladder and the choice of the rungs a source and a client allow. *)

From S2P Require Import Prelude.

Module Ladder.

Record TranscodeRendition := mk_rendition {
  name : string; width : Z; height : Z;
  video_bitrate : Z; audio_bitrate : Z; audio_channels : Z }.

Definition default_ladder : list TranscodeRendition :=
  [mk_rendition "480p" 854 480 1500000 128000 2;
   mk_rendition "720p" 1280 720 3000000 160000 2;
   mk_rendition "1080p" 1920 1080 6000000 256000 6;
   mk_rendition "1080p-hq" 1920 1080 10000000 320000 6].

Definition rung_fits (source_width source_height : Z) (max_bitrate : option Z)
    (max_resolution : option (Z * Z)) (r : TranscodeRendition) : bool :=
  (width r <=? source_width) && (height r <=? source_height)
  && is_none_or max_bitrate (fun mb => video_bitrate r <=? mb)
  && is_none_or max_resolution (fun m => (width r <=? m.1) && (height r <=? m.2)).

(** The last-resort rung.  [... as u32] is exact: the value is at most 1500000. *)
Definition source_rung (source_width source_height : Z) (max_bitrate : option Z)
    (max_resolution : option (Z * Z)) : TranscodeRendition :=
  let '(max_width, max_height) := unwrap_or max_resolution (source_width, source_height) in
  mk_rendition "source"
    (Z.max (Z.min source_width max_width) 2 / 2 * 2)
    (Z.max (Z.min source_height max_height) 2 / 2 * 2)
    (Z.min (unwrap_or max_bitrate 1500000) 1500000) 128000 2.

Definition smart_ladder (source_width source_height : Z) (max_bitrate : option Z)
    (max_resolution : option (Z * Z)) : list TranscodeRendition :=
  let rungs := List.filter (rung_fits source_width source_height max_bitrate max_resolution)
                 default_ladder in
  match rungs with
  | [] => [source_rung source_width source_height max_bitrate max_resolution]
  | _ => rungs
  end.

(** What every rung of a ladder keeps to. *)
Definition within (source_width source_height : Z) (max_bitrate : option Z)
    (max_resolution : option (Z * Z)) (r : TranscodeRendition) : Prop :=
  width r <= Z.max 2 source_width /\ height r <= Z.max 2 source_height /\
  (forall mb, max_bitrate = Some mb -> video_bitrate r <= mb) /\
  (forall mw mh, max_resolution = Some (mw, mh) -> width r <= Z.max 2 mw /\ height r <= Z.max 2 mh) /\
  Z.Even (width r) /\ Z.Even (height r) /\ 2 <= width r /\ 2 <= height r.

Lemma default_even (r : TranscodeRendition) :
  In r default_ladder -> Z.Even (width r) /\ Z.Even (height r) /\ 2 <= width r /\ 2 <= height r.
Proof.
  intros H. cbn in H. repeat destruct H as [<-|H]; [..|done]; cbn;
    repeat split; try lia; apply Z.even_spec; reflexivity.
Qed.

Lemma even_half (x : Z) : 2 <= x -> Z.Even (x / 2 * 2) /\ 2 <= x / 2 * 2 <= x.
Proof. intros H. split; [exists (x / 2); lia|]. dk_lia. Qed.

Lemma fits_within (sw sh : Z) (mb : option Z) (mr : option (Z * Z)) (r : TranscodeRendition) :
  In r default_ladder -> rung_fits sw sh mb mr r = true -> within sw sh mb mr r.
Proof.
  intros Hr H. destruct (default_even r Hr) as (Ew & Eh & Lw & Lh).
  unfold rung_fits in H. dk_bool. unfold within.
  do 2 (split; [lia|]). split.
  { intros b ->. cbn in *. dk_bool. lia. }
  split; [|done]. intros mw mh ->. cbn in *. dk_bool. lia.
Qed.

Lemma source_rung_within (sw sh : Z) (mb : option Z) (mr : option (Z * Z)) :
  within sw sh mb mr (source_rung sw sh mb mr).
Proof.
  unfold source_rung.
  destruct (unwrap_or mr (sw, sh)) as [maxw maxh] eqn:E.
  destruct (even_half (Z.max (Z.min sw maxw) 2) ltac:(lia)) as [Ew Bw].
  destruct (even_half (Z.max (Z.min sh maxh) 2) ltac:(lia)) as [Eh Bh].
  unfold within. cbn [width height video_bitrate].
  do 2 (split; [lia|]). split; [intros b ->; cbn; lia|].
  split; [|repeat split; lia || done].
  intros mw mh ->. cbn in E. injection E as <- <-. lia.
Qed.

(** Every ladder has a rung, and every rung is an even, non-empty picture
    within the source, the resolution limit and the bitrate limit. *)
Lemma smart_ladder_within (sw sh : Z) (mb : option Z) (mr : option (Z * Z)) :
  smart_ladder sw sh mb mr <> [] /\ Forall (within sw sh mb mr) (smart_ladder sw sh mb mr).
Proof.
  unfold smart_ladder. destruct (List.filter _ _) as [|r l] eqn:E.
  { split; [done|]. constructor; [apply source_rung_within|constructor]. }
  split; [done|]. rewrite <- E. apply Forall_forall. intros x Hx.
  apply list_elem_of_In, filter_In in Hx as [Hx F]. by apply fits_within.
Qed.

#[export] Hint Resolve smart_ladder_within : dk.

Lemma smart_ladder_last (sw sh : Z) (mb : option Z) (mr : option (Z * Z)) :
  exists r, last (smart_ladder sw sh mb mr) = Some r /\ within sw sh mb mr r.
Proof.
  destruct (smart_ladder_within sw sh mb mr) as [N F].
  destruct (last (smart_ladder sw sh mb mr)) as [r|] eqn:E; [|by apply last_None in E].
  exists r. split; [done|]. apply last_Some in E as [l' E]. rewrite E in F.
  apply Forall_app in F as [_ F]. by inv F.
Qed.

End Ladder.
