(* ===== verification/DecisionEngine.v ===== *)
(** * Playback decision engine

    Models server/src/services/decision_engine.rs: whether a media file is played
    as it is, remuxed or transcoded for a device, network and configuration, and
    with which targets. *)

From stdpp Require Import gmap sets.
From S2P Require Import Prelude F64 Json Compatibility Ladder.
Import Compatibility Ladder.

Module DecisionEngine.

Inductive StreamDecision : Type := StreamDirectPlay | DirectStream | StreamTranscode.
Inductive VideoDecision : Type := DirectPlay | Remux | Transcode | ToneMap.
Inductive AudioDecision : Type := Passthrough | Downmix | AudioTranscode.
Inductive SubtitleDecision : Type := SubPassthrough | Convert | BurnIn.
Inductive QualityMode : Type := Auto | Maximum | Manual.

#[export] Instance stream_decision_eq : EqDecision StreamDecision.
Proof. solve_decision. Defined.
#[export] Instance video_decision_eq : EqDecision VideoDecision.
Proof. solve_decision. Defined.
#[export] Instance audio_decision_eq : EqDecision AudioDecision.
Proof. solve_decision. Defined.
#[export] Instance subtitle_decision_eq : EqDecision SubtitleDecision.
Proof. solve_decision. Defined.
#[export] Instance quality_mode_eq : EqDecision QualityMode.
Proof. solve_decision. Defined.

Record DecisionReason := mk_reason { factor : string; outcome : string; detail : string }.

Record PlaybackDecision := mk_decision {
  overall : StreamDecision;
  video : VideoDecision;
  audio : AudioDecision;
  subtitle : SubtitleDecision;
  target_video_codec : option string;
  target_audio_codec : option string;
  target_resolution : option (Z * Z);
  target_bitrate_bps : option Z;
  target_audio_channels : option Z;
  requires_tone_mapping : bool;
  requires_dv_strip : bool;
  subtitle_burn_in_required : bool;
  decision_reasons : list DecisionReason }.

Record MediaFileInfo := mk_media {
  container_format : string;
  video_codec : string;
  video_profile : option string;
  video_level : option F64.f64;
  video_bit_depth : Z;
  video_resolution : Z * Z;
  video_bitrate_bps : Z;
  video_dynamic_range : string;
  video_frame_rate : F64.f64;
  audio_codec : string;
  media_audio_channels : Z;
  audio_bitrate_bps : Z;
  audio_language : option string;
  has_embedded_subtitles : bool;
  subtitle_format : option string;
  additional_streams : option Json.Value }.

Record DeviceCapabilities := mk_device {
  video_codecs : strset;
  audio_codecs : strset;
  containers : strset;
  subtitle_formats : strset;
  max_resolution : Z * Z;
  max_audio_channels : Z;
  hdr_formats : strset;
  max_bitrate_bps : Z;
  supports_dolby_vision : bool;
  device_dv_fallback : bool;
  max_video_bit_depth : Z }.

Record NetworkConditions := mk_network {
  estimated_throughput_bps : option Z;
  network_tier : option string }.

Record DecisionEngineConfig := mk_engine_config {
  default_video_codec : string;
  default_audio_codec : string;
  fallback_max_resolution : Z * Z;
  fallback_max_bitrate_bps : Z;
  throughput_safety_factor : F64.f64;
  config_dv_fallback : bool;
  audio_passthrough_enabled : bool;
  subtitle_burn_in_policy : string;
  quality_mode : QualityMode;
  manual_max_resolution : option (Z * Z) }.

Definition reasons := (list DecisionReason).
Definition d (n : Z) : string := Dec.print n.
Definition dims (r : Z * Z) : string := d r.1 +:+ "x" +:+ d r.2.

(** ** Limits and dynamic range helpers *)

Definition is_hdr_content (dynamic_range : string) : bool :=
  let dr := normalized dynamic_range in
  mem dr ["hdr10"; "hdr10_plus"; "hdr10+"; "hlg"]%string || Str.starts_with "dolby_vision" dr.

(** [profile.as_u64().map(|p| p as u32)] keeps the low 32 bits. *)
Definition extract_dv_profile (media : MediaFileInfo) : option Z :=
  let! streams := additional_streams media in
  let! dv := Json.get "dolby_vision" streams in
  let! profile := Json.get "profile" dv in
  match profile with
  | Json.Num (Json.PosInt p) => Some (p mod 2 ^ 32)
  | _ => None
  end.

Definition compatibility_mode (media : MediaFileInfo) : option string :=
  let! streams := additional_streams media in
  let! dv := Json.get "dolby_vision" streams in
  let! mode := Json.get "compatibility_mode" dv in
  Json.as_str mode.

Definition dv_base_dynamic_range (media : MediaFileInfo) : option string :=
  let mode := compatibility_mode media in
  if bool_decide (mode = Some "hdr10"%string) then Some "hdr10"%string
  else if bool_decide (mode = Some "hlg"%string) then Some "hlg"%string
  else if bool_decide (mode = Some "sdr"%string) then Some "sdr"%string
  else
    let range := normalized (video_dynamic_range media) in
    if String.eqb range "dolby_vision_p8.1" then Some "hdr10"%string
    else if String.eqb range "dolby_vision_p8.4" then Some "hlg"%string
    else if bool_decide (extract_dv_profile media = Some 7) then Some "hdr10"%string
    else None.

Definition needs_dv_strip (media : MediaFileInfo) (device : DeviceCapabilities) : bool :=
  is_some_and (extract_dv_profile media) (fun p => (p =? 7) || (p =? 8))
  && negb (supports_dolby_vision device).

(** [(t as f64 * factor) as u64] *)
Definition bitrate_limit (network : NetworkConditions) (config : DecisionEngineConfig) : option Z :=
  if bool_decide (quality_mode config = Maximum) then None
  else option_map (fun t => F64.cast 0 u64_max (F64.mul (F64.of_Z t) (throughput_safety_factor config)))
         (estimated_throughput_bps network).

Definition max_resolution_for_bitrate (bitrate_bps : Z) : Z * Z :=
  if 5000000 <=? bitrate_bps then (1920, 1080)
  else if 2000000 <=? bitrate_bps then (1280, 720)
  else (854, 480).

Definition standard_resolutions : list (Z * Z) := [(3840, 2160); (1920, 1080); (1280, 720); (854, 480)].

Definition normalize_resolution (w h : Z) : Z * Z :=
  unwrap_or (List.find (fun r => (r.1 <=? w) && (r.2 <=? h)) standard_resolutions)
            (w / 2 * 2, h / 2 * 2).

(** ** Video *)

Definition evaluate_dynamic_range (media : MediaFileInfo) (device : DeviceCapabilities)
    (config : DecisionEngineConfig) (rs : reasons) : VideoDecision * reasons :=
  let dynamic_range := normalized (video_dynamic_range media) in
  let dv_profile := extract_dv_profile media in
  if is_some_b dv_profile || Str.starts_with "dolby_vision" dynamic_range then
    if supports_dolby_vision device then (DirectPlay, rs) else
    let unsupported := (ToneMap, rs ++ [mk_reason "dolby_vision" "tone_map"
      "Dolby Vision is unsupported and no supported fallback base is known"]) in
    match dv_profile, dv_base_dynamic_range media with
    | Some profile, Some base_range =>
        if ((profile =? 7) || (profile =? 8)) && hdr_supported base_range (hdr_formats device) then
          if config_dv_fallback config && device_dv_fallback device then
            (DirectPlay, rs ++ [mk_reason "dolby_vision" "direct_play"
              ("DV Profile " +:+ d profile +:+ " with supported " +:+ base_range
               +:+ " base, client-side fallback allowed")])
          else
            (Remux, rs ++ [mk_reason "dolby_vision" "remux"
              ("DV Profile " +:+ d profile +:+ " stripping to supported " +:+ base_range
               +:+ " base layer")])
        else unsupported
    | _, _ => unsupported
    end
  else if negb (String.eqb dynamic_range "sdr") && negb (is_hdr_content dynamic_range) then
    (Transcode, rs ++ [mk_reason "dynamic_range" "transcode" "source video dynamic range is unknown"])
  else if is_hdr_content dynamic_range && negb (hdr_supported dynamic_range (hdr_formats device)) then
    (ToneMap, rs ++ [mk_reason "hdr" "tone_map"
      ("source HDR format '" +:+ dynamic_range +:+ "' is not supported")])
  else (DirectPlay, rs).

(** [if decision != ToneMap { decision = Transcode; }] *)
Definition or_transcode (decision : VideoDecision) : VideoDecision :=
  if bool_decide (decision = ToneMap) then ToneMap else Transcode.

Definition exceeds (source limit : Z * Z) : bool := (limit.1 <? source.1) || (limit.2 <? source.2).

(** The effect of the dynamic range on the decision so far. *)
Definition merge_dynamic_range (decision range_decision : VideoDecision) : VideoDecision :=
  if bool_decide (range_decision = ToneMap) then ToneMap
  else if bool_decide (range_decision = Transcode)
          || (bool_decide (decision = DirectPlay) && bool_decide (range_decision = Remux))
  then range_decision
  else decision.

(** A test of the video: when it fires, its reason is recorded and the decision
    changed. *)
Definition test (fires : bool) (factor detail : string) (change : VideoDecision -> VideoDecision)
    (st : VideoDecision * reasons) : VideoDecision * reasons :=
  if fires then (change st.1, st.2 ++ [mk_reason factor "transcode" detail]) else st.

Definition to_transcode (_ : VideoDecision) : VideoDecision := Transcode.

Definition test_bit_depth (media : MediaFileInfo) (device : DeviceCapabilities)
    (st : VideoDecision * reasons) : VideoDecision * reasons :=
  if video_bit_depth media =? 0 then
    test true "bit_depth" "source video bit depth is unknown" to_transcode st
  else
    test ((max_video_bit_depth device <? video_bit_depth media) && (0 <? max_video_bit_depth device))
      "bit_depth" ("source " +:+ d (video_bit_depth media) +:+ "-bit exceeds device max "
                   +:+ d (max_video_bit_depth device) +:+ "-bit") to_transcode st.

Definition test_dynamic_range (media : MediaFileInfo) (device : DeviceCapabilities)
    (config : DecisionEngineConfig) (st : VideoDecision * reasons) : VideoDecision * reasons :=
  let '(range_decision, rs) := evaluate_dynamic_range media device config st.2 in
  (merge_dynamic_range st.1 range_decision, rs).

Definition effective_bitrate (media : MediaFileInfo) : Z :=
  sat_add64 (video_bitrate_bps media) (audio_bitrate_bps media).

Definition test_network_bitrate (media : MediaFileInfo) (network : NetworkConditions)
    (config : DecisionEngineConfig) (st : VideoDecision * reasons) : VideoDecision * reasons :=
  match bitrate_limit network config with
  | Some limit =>
      test (limit <? effective_bitrate media) "bitrate"
        ("source " +:+ d (effective_bitrate media) +:+ " bps exceeds network limit " +:+ d limit +:+ " bps")
        or_transcode st
  | None => st
  end.

Definition manual_limit (config : DecisionEngineConfig) : option (Z * Z) :=
  if bool_decide (quality_mode config = Manual) then manual_max_resolution config else None.

Definition test_quality_mode (media : MediaFileInfo) (config : DecisionEngineConfig)
    (st : VideoDecision * reasons) : VideoDecision * reasons :=
  match manual_limit config with
  | Some manual_res =>
      test (exceeds (video_resolution media) manual_res) "quality_mode"
        ("manual quality mode limits to " +:+ dims manual_res +:+ ", source is "
         +:+ dims (video_resolution media)) or_transcode st
  | None => st
  end.

Definition video_tests (media : MediaFileInfo) (device : DeviceCapabilities)
    (network : NetworkConditions) (config : DecisionEngineConfig)
    (st : VideoDecision * reasons) : VideoDecision * reasons :=
  let st := test (negb (codec_supported (video_codec media) (video_codecs device))) "video_codec"
    ("codec '" +:+ video_codec media +:+ "' not in device supported list") to_transcode st in
  let st := test_bit_depth media device st in
  let st := test (exceeds (video_resolution media) (max_resolution device)) "resolution"
    ("source " +:+ dims (video_resolution media) +:+ " exceeds device max "
     +:+ dims (max_resolution device)) to_transcode st in
  let st := test_dynamic_range media device config st in
  let st := test ((0 <? max_bitrate_bps device) && (max_bitrate_bps device <? effective_bitrate media))
    "device_bitrate" ("source " +:+ d (effective_bitrate media) +:+ " bps exceeds device limit "
                      +:+ d (max_bitrate_bps device) +:+ " bps") or_transcode st in
  let st := test_network_bitrate media network config st in
  test_quality_mode media config st.

Definition evaluate_video (media : MediaFileInfo) (device : DeviceCapabilities)
    (network : NetworkConditions) (config : DecisionEngineConfig) (rs : reasons)
  : VideoDecision * reasons :=
  let '(decision, rs) := video_tests media device network config (DirectPlay, rs) in
  if bool_decide (decision = Transcode) || bool_decide (decision = ToneMap) then (decision, rs)
  else if negb (container_supported (container_format media) (containers device)) then
    (Remux, rs ++ [mk_reason "container" "remux"
      ("container '" +:+ container_format media +:+ "' not supported, remuxing video stream copy")])
  else if bool_decide (decision = Remux) then (decision, rs)
  else (DirectPlay, rs ++ [mk_reason "video" "direct_play" "all video checks passed"]).

(** ** Audio *)

Definition evaluate_audio (media : MediaFileInfo) (device : DeviceCapabilities)
    (config : DecisionEngineConfig) (rs : reasons) : AudioDecision * reasons :=
  if negb (audio_passthrough_enabled config) then
    (AudioTranscode, rs ++ [mk_reason "audio_passthrough" "transcode" "audio passthrough disabled in config"])
  else if negb (codec_supported (audio_codec media) (audio_codecs device)) then
    (AudioTranscode, rs ++ [mk_reason "audio_codec" "transcode"
      ("audio codec '" +:+ audio_codec media +:+ "' not in device supported list")])
  else if max_audio_channels device <? media_audio_channels media then
    (Downmix, rs ++ [mk_reason "audio_channels" "downmix"
      ("source " +:+ d (media_audio_channels media) +:+ "ch exceeds device max "
       +:+ d (max_audio_channels device) +:+ "ch")])
  else (Passthrough, rs ++ [mk_reason "audio" "passthrough" "audio codec and channels supported"]).

(** ** Subtitles *)

Section Lowercase.

(** [str::to_lowercase], the Unicode mapping of the standard library. *)
Context (to_lowercase : string -> string).

Definition TEXT_SUBTITLE_FORMATS : list string := ["srt"; "webvtt"; "ass"; "ssa"]%string.
Definition IMAGE_SUBTITLE_FORMATS : list string := ["pgs"; "vobsub"; "dvd_subtitle"]%string.

Definition evaluate_subtitle (media : MediaFileInfo) (device : DeviceCapabilities)
    (config : DecisionEngineConfig) (rs : reasons) : SubtitleDecision * reasons :=
  match subtitle_format media with
  | None => (SubPassthrough, rs)
  | Some sub_fmt =>
      let fmt := to_lowercase sub_fmt in
      if mem fmt TEXT_SUBTITLE_FORMATS then
        if (String.eqb fmt "ass" || String.eqb fmt "ssa")
           && negb (bool_decide ("ass"%string ∈ subtitle_formats device))
           && negb (bool_decide ("ssa"%string ∈ subtitle_formats device)) then
          (Convert, rs ++ [mk_reason "subtitle" "convert" "ASS/SSA subtitles not supported, converting to SRT"])
        else
          (SubPassthrough, rs ++ [mk_reason "subtitle" "passthrough"
            ("text subtitle '" +:+ fmt +:+ "' supported")])
      else if mem fmt IMAGE_SUBTITLE_FORMATS then
        if bool_decide (fmt ∈ subtitle_formats device) then
          (SubPassthrough, rs ++ [mk_reason "subtitle" "passthrough"
            ("image subtitle '" +:+ fmt +:+ "' natively supported")])
        else if negb (String.eqb (subtitle_burn_in_policy config) "last_resort") then
          (BurnIn, rs ++ [mk_reason "subtitle" "burn_in"
            ("image subtitle '" +:+ fmt +:+ "' not supported, burn-in policy allows it")])
        else
          (BurnIn, rs ++ [mk_reason "subtitle" "burn_in"
            ("image subtitle '" +:+ fmt +:+ "' not supported and no text alternative available")])
      else
        (SubPassthrough, rs ++ [mk_reason "subtitle" "passthrough"
          ("subtitle format '" +:+ fmt +:+ "' treated as passthrough")])
  end.

(** ** Targets *)

Definition select_target_video_codec (media : MediaFileInfo) (device : DeviceCapabilities)
    (config : DecisionEngineConfig) (decision : VideoDecision) : string :=
  let is_hdr := bool_decide (decision = ToneMap) in
  if negb is_hdr && codec_supported "hevc" (video_codecs device)
     && ((1080 <? (video_resolution media).2) || (10 <=? video_bit_depth media))
  then "hevc"%string else default_video_codec config.

Definition select_target_audio_codec (media : MediaFileInfo) (device : DeviceCapabilities)
    (config : DecisionEngineConfig) : string :=
  if codec_supported "opus" (audio_codecs device) then "opus"%string
  else if (2 <? media_audio_channels media) && codec_supported "eac3" (audio_codecs device) then "eac3"%string
  else if (2 <? media_audio_channels media) && codec_supported "ac3" (audio_codecs device) then "ac3"%string
  else default_audio_codec config.

Definition min_res (a b : Z * Z) : Z * Z := (Z.min a.1 b.1, Z.min a.2 b.2).

Definition compute_target_resolution (media : MediaFileInfo) (device : DeviceCapabilities)
    (network : NetworkConditions) (config : DecisionEngineConfig) (video_decision : VideoDecision)
  : option (Z * Z) :=
  match video_decision with
  | DirectPlay | Remux => None
  | Transcode | ToneMap =>
      let target := min_res (video_resolution media) (max_resolution device) in
      let target := match bitrate_limit network config with
                    | Some limit => min_res target (max_resolution_for_bitrate limit)
                    | None => target
                    end in
      let target := match manual_limit config with
                    | Some manual_res => min_res target manual_res
                    | None => target
                    end in
      Some (normalize_resolution target.1 target.2)
  end.

Definition combined_limit (device : DeviceCapabilities) (network : NetworkConditions)
    (config : DecisionEngineConfig) : option Z :=
  match bitrate_limit network config with
  | Some network_limit =>
      if 0 <? max_bitrate_bps device then Some (Z.min network_limit (max_bitrate_bps device))
      else Some network_limit
  | None => if 0 <? max_bitrate_bps device then Some (max_bitrate_bps device) else None
  end.

Definition compute_target_bitrate (media : MediaFileInfo) (device : DeviceCapabilities)
    (network : NetworkConditions) (config : DecisionEngineConfig) (target_resolution : option (Z * Z))
  : option Z :=
  let! limit := combined_limit device network config in
  let res := unwrap_or target_resolution (video_resolution media) in
  let ladder := smart_ladder res.1 res.2 (Some limit) None in
  option_map (fun r => Z.min (video_bitrate r) limit) (last ladder).

Definition compute_overall_decision (video : VideoDecision) (audio : AudioDecision)
    (subtitle_burn_in : bool) : StreamDecision :=
  if bool_decide (video = DirectPlay) && bool_decide (audio = Passthrough) && negb subtitle_burn_in
  then StreamDirectPlay
  else if bool_decide (video = Remux) && bool_decide (audio = Passthrough) && negb subtitle_burn_in
  then DirectStream
  else StreamTranscode.

Definition decide (media : MediaFileInfo) (device : DeviceCapabilities)
    (network : NetworkConditions) (config : DecisionEngineConfig) : PlaybackDecision :=
  let '(video_decision, rs) := evaluate_video media device network config [] in
  let '(audio_decision, rs) := evaluate_audio media device config rs in
  let '(subtitle_decision, rs) := evaluate_subtitle media device config rs in
  let target_resolution := compute_target_resolution media device network config video_decision in
  let burn_in := bool_decide (subtitle_decision = BurnIn) in
  mk_decision
    (compute_overall_decision video_decision audio_decision burn_in)
    video_decision audio_decision subtitle_decision
    (match video_decision with
     | DirectPlay | Remux => None
     | Transcode | ToneMap => Some (select_target_video_codec media device config video_decision)
     end)
    (match audio_decision with
     | Passthrough => None
     | Downmix | AudioTranscode => Some (select_target_audio_codec media device config)
     end)
    target_resolution
    (compute_target_bitrate media device network config target_resolution)
    (match audio_decision with
     | Passthrough => None
     | Downmix | AudioTranscode => Some (Z.min (max_audio_channels device) (media_audio_channels media))
     end)
    (bool_decide (video_decision = ToneMap))
    (bool_decide (video_decision = Remux) && needs_dv_strip media device)
    burn_in rs.

(** ** Parsers of the stored settings *)

Definition parse_resolution_string (res : string) : Z * Z :=
  let r := to_lowercase res in
  if mem r ["4k"; "2160p"; "uhd"]%string then (3840, 2160)
  else if mem r ["1080p"; "fullhd"; "fhd"]%string then (1920, 1080)
  else if mem r ["720p"; "hd"]%string then (1280, 720)
  else if mem r ["480p"; "sd"]%string then (854, 480)
  else (1920, 1080).

Definition parse_quality_mode (mode : string) : QualityMode :=
  if String.eqb mode "maximum" then Maximum
  else if String.eqb mode "manual" then Manual
  else Auto.

Definition parse_json_string_set (value : Json.Value) : strset :=
  match Json.as_array value with
  | Some arr => list_to_set (omap (fun v => option_map to_lowercase (Json.as_str v)) arr)
  | None => ∅
  end.

Definition parse_hdr_formats (value : Json.Value) : strset := parse_json_string_set value.

Definition parse_resolution_value (value : option string) : Z * Z :=
  unwrap_or (option_map parse_resolution_string value) (1920, 1080).

End Lowercase.
End DecisionEngine.
