(* ===== verification/DecisionProofs.v ===== *)
(** * The playback decision engine: correctness

    Properties of DecisionEngine.v: exactly which media plays directly, that the
    reasons explain the decision, and the bounds of the transcoding targets. *)

From stdpp Require Import gmap sets.
From S2P Require Import Prelude F64 Json Compatibility Ladder DecisionEngine.
Import Compatibility Ladder DecisionEngine.

Module DecisionProofs.

(** ** What it takes to play a file as it is *)

Definition fits (source limit : Z * Z) : Prop := source.1 <= limit.1 /\ source.2 <= limit.2.





Record audio_playable (media : MediaFileInfo) (device : DeviceCapabilities)
    (config : DecisionEngineConfig) : Prop := {
  playable_passthrough : audio_passthrough_enabled config = true;
  playable_audio_codec : codec_supported (audio_codec media) (audio_codecs device) = true;
  playable_channels : media_audio_channels media <= max_audio_channels device }.

(** An image subtitle the device cannot draw has to be burnt into the video. *)
Definition no_burn_in (to_lowercase : string -> string) (media : MediaFileInfo)
    (device : DeviceCapabilities) : Prop :=
  forall f, subtitle_format media = Some f ->
    In (to_lowercase f) IMAGE_SUBTITLE_FORMATS -> to_lowercase f ∈ subtitle_formats device.

(** ** Video *)

(** What a test does, as a fact about the decision and the new reasons. *)
Definition blocking (r : DecisionReason) : bool :=
  mem (outcome r) ["transcode"; "tone_map"; "remux"; "downmix"; "burn_in"]%string.

(** A state that follows another one: the reasons grow, and the video is left
    to play directly exactly as long as no reason against it is added. *)
Definition explained (st : VideoDecision * reasons) : Prop :=
  st.1 = DirectPlay <-> forallb (fun r => negb (blocking r)) st.2 = true.

Lemma test_explained (fires : bool) (f det : string) (change : VideoDecision -> VideoDecision)
    (st : VideoDecision * reasons) :
  (forall v, change v <> DirectPlay) -> explained st -> explained (test fires f det change st).
Proof.
  intros Hc H. unfold test. destruct fires; [|done]. unfold explained. cbn [fst snd].
  rewrite forallb_app. cbn. rewrite andb_false_r. split; [|done]. intros E. by destruct (Hc st.1).
Qed.


Lemma to_transcode_not (v : VideoDecision) : to_transcode v <> DirectPlay.
Proof. done. Qed.

Lemma or_transcode_not (v : VideoDecision) : or_transcode v <> DirectPlay.
Proof. unfold or_transcode. by case_bool_decide. Qed.

#[local] Hint Resolve to_transcode_not or_transcode_not test_explained : core.



Lemma dynamic_range_explained (media : MediaFileInfo) (device : DeviceCapabilities)
    (config : DecisionEngineConfig) (v : VideoDecision) (rs : reasons) :
  explained (v, rs) -> explained (test_dynamic_range media device config (v, rs)).
Proof.
  assert (Hs : forall r, blocking r = true -> forallb (fun r => negb (blocking r)) (rs ++ [r]) = false)
    by (intros r Hr; rewrite forallb_app; cbn [forallb]; by rewrite Hr, andb_false_r).
  assert (Hp : forall r, blocking r = false ->
    forallb (fun r => negb (blocking r)) (rs ++ [r]) = forallb (fun r => negb (blocking r)) rs)
    by (intros r Hr; rewrite forallb_app; cbn [forallb]; by rewrite Hr, andb_true_r).
  unfold explained, test_dynamic_range, evaluate_dynamic_range. cbn [fst snd]. intros H.
  repeat case_match; simplify_eq; cbn [fst snd]; unfold merge_dynamic_range;
    rewrite ?Hs, ?Hp by done; destruct v; cbn; split; try done; tauto.
Qed.



Lemma video_tests_explained (media : MediaFileInfo) (device : DeviceCapabilities)
    (network : NetworkConditions) (config : DecisionEngineConfig) :
  explained (video_tests media device network config (DirectPlay, [])).
Proof.
  unfold video_tests, test_quality_mode, test_network_bitrate, test_bit_depth.
  assert (H : explained (DirectPlay, [])) by done.
  assert (Hr : forall st, explained st -> explained (test_dynamic_range media device config st))
    by (intros [v rs]; apply dynamic_range_explained).
  repeat case_match; auto 12.
Qed.


Lemma evaluate_video_explained (media : MediaFileInfo) (device : DeviceCapabilities)
    (network : NetworkConditions) (config : DecisionEngineConfig) :
  explained (evaluate_video media device network config []).
Proof.
  pose proof (video_tests_explained media device network config) as H. unfold evaluate_video.
  destruct (video_tests _ _ _ _ _) as [v rs]. unfold explained in *. cbn [fst snd] in H.
  assert (Hr : forall r, forallb (fun r => negb (blocking r)) (rs ++ [r]) =
    forallb (fun r => negb (blocking r)) rs && negb (blocking r))
    by (intros r; rewrite forallb_app; cbn [forallb]; by rewrite andb_true_r).
  destruct v; dk_decide; cbn [orb]; [| |done|done];
    destruct (container_supported _ _); cbn [negb fst snd]; rewrite ?Hr; [| |done|];
    cbn [blocking outcome mem existsb String.eqb Ascii.eqb Bool.eqb orb negb];
    rewrite ?andb_true_r, ?andb_false_r; done.
Qed.

(** ** Audio and subtitles *)

Lemma evaluate_audio_spec (media : MediaFileInfo) (device : DeviceCapabilities)
    (config : DecisionEngineConfig) (rs : reasons) :
  let res := evaluate_audio media device config rs in
  (res.1 = Passthrough <-> audio_playable media device config) /\
  forallb (fun r => negb (blocking r)) res.2 =
    forallb (fun r => negb (blocking r)) rs && bool_decide (res.1 = Passthrough).
Proof.
  cbv zeta. unfold evaluate_audio.
  destruct (audio_passthrough_enabled config) eqn:P; cbn [negb fst snd];
    [|split; [by split; [|intros []; congruence]|by rewrite forallb_app]].
  destruct (codec_supported _ _) eqn:C; cbn [negb fst snd];
    [|split; [by split; [|intros []; congruence]|by rewrite forallb_app]].
  destruct (_ <? _) eqn:L; dk_bool; cbn [fst snd];
    (split; [|by rewrite forallb_app]); split; try done; intros []; lia.
Qed.

Lemma evaluate_subtitle_spec (to_lowercase : string -> string) (media : MediaFileInfo)
    (device : DeviceCapabilities) (config : DecisionEngineConfig) (rs : reasons) :
  let res := evaluate_subtitle to_lowercase media device config rs in
  (res.1 <> BurnIn <-> no_burn_in to_lowercase media device) /\
  forallb (fun r => negb (blocking r)) res.2 =
    forallb (fun r => negb (blocking r)) rs && negb (bool_decide (res.1 = BurnIn)).
Proof.
  cbv zeta. unfold evaluate_subtitle, no_burn_in.
  destruct (subtitle_format media) as [f|]; [|cbn; by rewrite andb_true_r].
  assert (Hm : forall P : Prop, P ->
    (forall g, Some f = Some g -> In (to_lowercase g) IMAGE_SUBTITLE_FORMATS -> P)) by auto.
  destruct (mem (to_lowercase f) TEXT_SUBTITLE_FORMATS) eqn:T.
  - assert (N : ~ In (to_lowercase f) IMAGE_SUBTITLE_FORMATS).
    { apply name_mem_In in T. cbn in T |- *. intros I.
      repeat (destruct T as [T|T]; [rewrite <- T in I; by repeat destruct I as [I|I]|]). done. }
    case_match; cbn [fst snd]; rewrite forallb_app; (split; [|done]); split; try done;
      by intros _ g [= <-].
  - destruct (mem (to_lowercase f) IMAGE_SUBTITLE_FORMATS) eqn:I.
    + apply name_mem_In in I.
      case_bool_decide as D; [|case_match]; cbn [fst snd]; rewrite forallb_app; (split; [|done]).
      * split; [by intros _ g [= <-]|done].
      * split; [done|]. intros Hs. by destruct D; apply (Hs f).
      * split; [done|]. intros Hs. by destruct D; apply (Hs f).
    + cbn [fst snd]. rewrite forallb_app. split; [|done]. split; [|done].
      intros _ g [= <-] I'. by apply name_mem_In in I'; rewrite I in I'.
Qed.

(** ** Decision *)

Section Decide.
Context (to_lowercase : string -> string) (media : MediaFileInfo) (device : DeviceCapabilities)
        (network : NetworkConditions) (config : DecisionEngineConfig).


(** C31: the recorded reasons explain the decision: a reason to convert, remux,
    downmix or burn in is recorded exactly when the file is not played as it is. *)
Theorem decision_is_explained :
  overall (decide to_lowercase media device network config) = StreamDirectPlay <->
  ~ exists r, In r (decision_reasons (decide to_lowercase media device network config)) /\
      blocking r = true.
Proof.
  transitivity (forallb (fun r => negb (blocking r))
    (decision_reasons (decide to_lowercase media device network config)) = true).
  - pose proof (evaluate_video_explained media device network config) as V. unfold decide.
    destruct (evaluate_video _ _ _ _ _) as [v rs].
    destruct (evaluate_audio_spec media device config rs) as [_ A].
    destruct (evaluate_audio _ _ _ rs) as [a rs'].
    destruct (evaluate_subtitle_spec to_lowercase media device config rs') as [_ S].
    destruct (evaluate_subtitle _ _ _ _ rs') as [s rs'']. cbn [overall decision_reasons].
    unfold explained in V. cbn [fst snd] in *. rewrite S, A, !andb_true_iff, <- V.
    unfold compute_overall_decision. destruct v, a, s; cbn; split; try done; by intros [[? ?] ?].
  - rewrite forallb_forall. split.
    + intros H (r & Hr & B). specialize (H r Hr). by rewrite B in H.
    + intros H r Hr. destruct (blocking r) eqn:B; [|done]. destruct H. by exists r.
Qed.

(** ** Targets *)

Lemma normalize_bounds (w h : Z) :
  0 <= w -> 0 <= h ->
  let r := normalize_resolution w h in
  0 <= r.1 <= w /\ 0 <= r.2 <= h /\ Z.Even r.1 /\ Z.Even r.2.
Proof.
  intros Hw Hh. cbv zeta. unfold normalize_resolution.
  destruct (List.find _ _) as [[x y]|] eqn:F; cbn [unwrap_or fst snd].
  - apply find_some in F as [I F]. dk_bool. cbn [fst snd] in *.
    repeat destruct I as [[= <- <-]|I]; try done;
      repeat split; try lia; apply Z.even_spec; reflexivity.
  - repeat split; try dk_lia; eexists; by rewrite Z.mul_comm.
Qed.

Lemma target_resolution_eq (v : VideoDecision) :
  v = Transcode \/ v = ToneMap ->
  exists w h, compute_target_resolution media device network config v = Some (normalize_resolution w h) /\
    w <= (video_resolution media).1 /\ h <= (video_resolution media).2 /\
    w <= (max_resolution device).1 /\ h <= (max_resolution device).2 /\
    (forall m, manual_limit config = Some m -> w <= m.1 /\ h <= m.2) /\
    (forall b, bitrate_limit network config = Some b ->
       w <= (max_resolution_for_bitrate b).1 /\ h <= (max_resolution_for_bitrate b).2) /\
    (0 <= (video_resolution media).1 -> 0 <= (max_resolution device).1 ->
     (forall m, manual_limit config = Some m -> 0 <= m.1) -> 0 <= w) /\
    (0 <= (video_resolution media).2 -> 0 <= (max_resolution device).2 ->
     (forall m, manual_limit config = Some m -> 0 <= m.2) -> 0 <= h).
Proof.
  intros Hv. unfold compute_target_resolution.
  replace (match v with DirectPlay | Remux => None | _ => _ end) with
    (compute_target_resolution media device network config Transcode)
    by (by destruct Hv as [-> | ->]).
  cbn [compute_target_resolution].
  assert (M : forall b, (max_resolution_for_bitrate b).1 >= 0 /\ (max_resolution_for_bitrate b).2 >= 0)
    by (intros b; unfold max_resolution_for_bitrate; repeat case_match; cbn; lia).
  destruct (bitrate_limit network config) as [b|], (manual_limit config) as [m|];
    unfold min_res; cbn [fst snd]; do 2 eexists; (split; [reflexivity|]); try specialize (M b);
    repeat split; intros; simplify_eq; try lia.
  all: repeat match goal with H : forall m, Some _ = Some m -> _ |- _ => specialize (H _ eq_refl) end; lia.
Qed.

Lemma decide_target_resolution :
  target_resolution (decide to_lowercase media device network config) =
  compute_target_resolution media device network config
    (video (decide to_lowercase media device network config)).
Proof.
  unfold decide. destruct (evaluate_video _ _ _ _ _) as [v rs].
  destruct (evaluate_audio _ _ _ rs) as [a rs']. by destruct (evaluate_subtitle _ _ _ _ rs').
Qed.

Lemma decide_target_bitrate :
  target_bitrate_bps (decide to_lowercase media device network config) =
  compute_target_bitrate media device network config
    (target_resolution (decide to_lowercase media device network config)).
Proof.
  unfold decide. destruct (evaluate_video _ _ _ _ _) as [v rs].
  destruct (evaluate_audio _ _ _ rs) as [a rs']. by destruct (evaluate_subtitle _ _ _ _ rs').
Qed.

(** Sizes are unsigned. *)
Definition sizes_ok : Prop :=
  0 <= (video_resolution media).1 /\ 0 <= (video_resolution media).2 /\
  0 <= (max_resolution device).1 /\ 0 <= (max_resolution device).2 /\
  forall m, manual_limit config = Some m -> 0 <= m.1 /\ 0 <= m.2.

(** a transcoded video, and no other, has a target resolution; it is even in
    both directions and exceeds neither the source, nor the device, nor the
    manual limit, nor what the network can carry. *)
Theorem target_resolution_bounds :
  sizes_ok ->
  let decision := decide to_lowercase media device network config in
  (target_resolution decision = None <-> video decision = DirectPlay \/ video decision = Remux) /\
  forall w h, target_resolution decision = Some (w, h) ->
    Z.Even w /\ Z.Even h /\ 0 <= w /\ 0 <= h /\
    fits (w, h) (video_resolution media) /\ fits (w, h) (max_resolution device) /\
    (forall m, manual_limit config = Some m -> fits (w, h) m) /\
    (forall b, bitrate_limit network config = Some b -> fits (w, h) (max_resolution_for_bitrate b)).
Proof.
  intros (Sw & Sh & Dw & Dh & Sm). cbv zeta. rewrite decide_target_resolution.
  destruct (video (decide _ _ _ _ _)) eqn:V;
    [split; [tauto|done]|split; [tauto|done]|..];
    match goal with |- context [compute_target_resolution _ _ _ _ ?v] =>
      destruct (target_resolution_eq v) as (w & h & E & W1 & H1 & W2 & H2 & M & B & Pw & Ph); [tauto|] end;
    rewrite E; (split; [split; [done|intros [?|?]; done]|]);
    intros w' h' [= Hn];
    (destruct (normalize_bounds w h) as (Nw & Nh & Ew & Eh);
      [apply Pw; try lia; intros m Hm; apply (Sm m Hm)|apply Ph; try lia; intros m Hm; apply (Sm m Hm)|]);
    rewrite Hn in Nw, Nh, Ew, Eh; cbn [fst snd] in *; unfold fits; cbn [fst snd];
    do 2 (split; [done|]); do 2 (split; [lia|]); do 2 (split; [lia|]);
    (split; [intros m Hm; specialize (M m Hm); lia|intros b Hb; specialize (B b Hb); lia]).
Qed.

(** The target bit rate is there exactly when the network or the device
    limits it, and exceeds neither limit. *)
Theorem target_bitrate_bounds :
  let decision := decide to_lowercase media device network config in
  (target_bitrate_bps decision = None <->
   bitrate_limit network config = None /\ max_bitrate_bps device <= 0) /\
  forall b, target_bitrate_bps decision = Some b ->
    (forall l, bitrate_limit network config = Some l -> b <= l) /\
    (0 < max_bitrate_bps device -> b <= max_bitrate_bps device).
Proof.
  cbv zeta. rewrite decide_target_bitrate. unfold compute_target_bitrate, combined_limit.
  destruct (unwrap_or _ _) as [w h]. cbn [fst snd].
  destruct (bitrate_limit network config) as [n|], (0 <? max_bitrate_bps device) eqn:D; dk_bool.
  4: { split; [split; [done|done]|done]. }
  all: match goal with |- context [smart_ladder ?a ?b ?c ?m] =>
      destruct (smart_ladder_last a b c m) as (r & -> & Hr) end; cbn [option_map].
  all: (split; [split; [done|intros [? ?]; done || lia]|]); intros b [= <-];
    (split; [intros l [= <-]; lia|lia]).
Qed.

End Decide.

(** ** Witnesses *)

Definition sample_media : MediaFileInfo :=
  mk_media "mkv" "H.264" None None 8 (1920, 1080) 8000000 "sdr" (F64.of_Z 24) "aac" 2 192000 None
    false None None.
Definition sample_device : DeviceCapabilities :=
  mk_device {[ "hvc1"%string ]} {[ "aac"%string ]} {[ "mp4"%string ]} ∅ (1280, 720) 2 ∅ 20000000 false false 8.
Definition sample_network : NetworkConditions := mk_network (Some 4000000) None.
Definition sample_config : DecisionEngineConfig :=
  mk_engine_config "h264" "aac" (1920, 1080) 8000000 (F64.of_ratio 4 5) false true "auto" Auto None.

Lemma target_resolution_bounds_example :
  sizes_ok sample_media sample_device sample_config /\
  target_resolution (decide Str.lower sample_media sample_device sample_network sample_config)
    = Some (1280, 720) /\
  fits (1280, 720) (video_resolution sample_media).
Proof.
  assert (S : sizes_ok sample_media sample_device sample_config)
    by (unfold sizes_ok; cbn; do 4 (split; [lia|]); done).
  assert (E : target_resolution (decide Str.lower sample_media sample_device sample_network sample_config)
    = Some (1280, 720)) by (vm_compute; reflexivity).
  split; [exact S|]. split; [exact E|].
  destruct (target_resolution_bounds Str.lower sample_media sample_device sample_network
    sample_config S) as [_ B].
  destruct (B 1280 720 E) as (_ & _ & _ & _ & F & _). exact F.
Defined.

End DecisionProofs.
