(* ===== verification/StreamPlan.v ===== *)
(** * Stream plans

    Models server/src/services/transcoding/plan.rs: the copy or encode action of
    each stream, the delivery requirements that override a decision, and the
    choice of the output codecs, with the theorems that HDR video is never
    encoded and that no codec is invented for a client. *)

From stdpp Require Import gmap sets.
From S2P Require Import Prelude F64 Json Compatibility DecisionEngine.
Import Compatibility DecisionEngine.

Module StreamPlan.

Definition COPY_VIDEO : list string := ["h264"; "hevc"; "av1"; "vp9"]%string.
Definition COPY_AUDIO : list string := ["aac"; "ac3"; "eac3"; "mp3"; "flac"; "opus"]%string.
Definition ENCODE_VIDEO : list string := ["h264"; "hevc"]%string.
Definition ENCODE_AUDIO : list string := ["aac"; "ac3"; "eac3"; "opus"]%string.

Inductive StreamAction : Type := Copy | Encode.

#[export] Instance stream_action_eq : EqDecision StreamAction.
Proof. solve_decision. Defined.

Inductive PlanError : Type := UnsupportedHdrConversion.

Record Plan := mk_plan { plan_video : StreamAction; plan_audio : StreamAction }.

(** Updates of the fields of a decision. *)
Definition with_overall (o : StreamDecision) (x : PlaybackDecision) : PlaybackDecision :=
  mk_decision o (video x) (audio x) (subtitle x) (target_video_codec x) (target_audio_codec x)
    (target_resolution x) (target_bitrate_bps x) (target_audio_channels x)
    (requires_tone_mapping x) (requires_dv_strip x) (subtitle_burn_in_required x)
    (decision_reasons x).

Definition with_burn_in (x : PlaybackDecision) : PlaybackDecision :=
  mk_decision StreamTranscode (video x) (audio x) BurnIn (target_video_codec x)
    (target_audio_codec x) (target_resolution x) (target_bitrate_bps x)
    (target_audio_channels x) (requires_tone_mapping x) (requires_dv_strip x) true
    (decision_reasons x).

Definition apply_delivery_requirements (decision : PlaybackDecision)
    (force_video force_hls subtitle_selected : bool) : PlaybackDecision :=
  let decision :=
    if force_video then with_overall StreamTranscode decision
    else if force_hls && bool_decide (overall decision = StreamDirectPlay)
    then with_overall DirectStream decision
    else decision in
  if subtitle_selected && negb (bool_decide (overall decision = StreamDirectPlay))
  then with_burn_in decision
  else decision.

Definition supported_by (codec : string) (formats : list string) : bool :=
  codec_supported codec (list_to_set formats).

Definition known_hdr (media : MediaFileInfo) : bool :=
  let range := normalized (video_dynamic_range media) in
  mem range ["hdr10"; "hdr10_plus"; "hdr10+"; "hlg"]%string
  || Str.starts_with "dolby_vision" range
  || is_some_and (let! streams := additional_streams media in Json.get "dolby_vision" streams)
       (fun v => is_some_b (Json.as_object v)).

Definition compile (decision : PlaybackDecision) (media : MediaFileInfo) (force_video : bool)
  : result Plan PlanError :=
  if requires_tone_mapping decision || requires_dv_strip decision
  then Err UnsupportedHdrConversion else
  let copy_video := negb force_video && negb (subtitle_burn_in_required decision)
    && (bool_decide (video decision = DirectPlay) || bool_decide (video decision = Remux))
    && supported_by (video_codec media) COPY_VIDEO in
  let copy_audio := bool_decide (audio decision = Passthrough)
    && supported_by (audio_codec media) COPY_AUDIO in
  if negb copy_video && known_hdr media then Err UnsupportedHdrConversion else
  Ok (mk_plan (if copy_video then Copy else Encode) (if copy_audio then Copy else Encode)).

(** [for preference in preferred.into_iter().chain(once(default))] *)
Fixpoint preferred_codec (preferences implemented : list string) (supported : strset)
  : option string :=
  match preferences with
  | [] => None
  | preference :: rest =>
      match List.find (fun codec => codec_supported codec {[ preference ]}
                                    && codec_supported codec supported) implemented with
      | Some codec => Some codec
      | None => preferred_codec rest implemented supported
      end
  end.

Definition output_codec (action : StreamAction) (preferred : option string) (default : string)
    (implemented : list string) (supported : strset) : option (option string) :=
  match action with
  | Copy => Some None
  | Encode =>
      let preferences := match preferred with Some p => [p; default] | None => [default] end in
      match preferred_codec preferences implemented supported with
      | Some codec => Some (Some codec)
      | None => option_map Some (List.find (fun codec => codec_supported codec supported) implemented)
      end
  end.

Definition output_codecs (plan : Plan) (decision : PlaybackDecision) (media : MediaFileInfo)
    (device : DeviceCapabilities) (default_video default_audio : string)
  : result (option string * option string) string :=
  if bool_decide (plan_video plan = Encode) && known_hdr media
  then Err "HDR video encoding is not available in this playback pipeline"%string else
  let? video := ok_or (output_codec (plan_video plan) (target_video_codec decision) default_video
                         ENCODE_VIDEO (video_codecs device))
                  "no compatible implemented video output codec is available"%string in
  let? audio := ok_or (output_codec (plan_audio plan) (target_audio_codec decision) default_audio
                         ENCODE_AUDIO (audio_codecs device))
                  "no compatible implemented audio output codec is available"%string in
  Ok (video, audio).

Definition codec_args (plan : Plan) (video_encode_args audio_encode_args : list string)
  : list string :=
  (match plan_video plan with Copy => ["-c:v"; "copy"]%string | Encode => video_encode_args end)
  ++ (match plan_audio plan with Copy => ["-c:a"; "copy"]%string | Encode => audio_encode_args end).

(** ** Properties *)

Lemma preferred_codec_spec (preferences implemented : list string) (supported : strset) (c : string) :
  preferred_codec preferences implemented supported = Some c ->
  In c implemented /\ codec_supported c supported = true /\
  exists p, In p preferences /\ same_codec c p.
Proof.
  induction preferences as [|p rest IH]; cbn; [done|].
  destruct (List.find _ implemented) as [c'|] eqn:F.
  - intros [= <-]. apply find_some in F as [I S]. apply andb_true_iff in S as [S1 S2].
    do 2 (split; [done|]). exists p. split; [by left|].
    rewrite supported_singleton in S1. apply andb_true_iff in S1 as [_ S1].
    by apply String.eqb_eq in S1.
  - intros H. destruct (IH H) as (? & ? & q & ? & ?). do 2 (split; [done|]).
    exists q. split; [by right|done].
Qed.

(** The codec found is implemented and supported, and one is found whenever
    there is one. *)
Lemma output_codec_spec (preferred : option string) (default : string) (implemented : list string)
    (supported : strset) :
  match output_codec Encode preferred default implemented supported with
  | Some (Some c) => In c implemented /\ codec_supported c supported = true
  | Some None => False
  | None => Forall (fun c => codec_supported c supported = false) implemented
  end.
Proof.
  unfold output_codec.
  destruct (preferred_codec _ implemented supported) as [c|] eqn:P.
  { apply preferred_codec_spec in P as (? & ? & _). by split. }
  destruct (List.find _ implemented) as [c|] eqn:F; cbn [option_map].
  - by apply find_some in F.
  - apply Forall_forall. intros x Hx. apply (find_none _ _ F). by apply list_elem_of_In.
Qed.

(** high dynamic range video is never encoded: whatever the overrides, a
    plan for it copies the video, and no plan that encodes it gets output
    codecs. *)
Theorem hdr_is_never_encoded (decision : PlaybackDecision) (media : MediaFileInfo)
    (device : DeviceCapabilities) (force_video force_hls subtitle : bool) (plan : Plan)
    (default_video default_audio : string) :
  known_hdr media = true ->
  (compile (apply_delivery_requirements decision force_video force_hls subtitle) media force_video
     = Ok plan -> plan_video plan = Copy /\ force_video = false) /\
  (plan_video plan = Encode ->
   is_ok (output_codecs plan decision media device default_video default_audio) = false).
Proof.
  intros H. split.
  - unfold compile. destruct (_ || _); [done|]. rewrite H.
    destruct (negb force_video && _ && _ && _) eqn:C; cbn; [|done].
    intros [= <-]. split; [done|]. dk_bool. done.
  - intros E. unfold output_codecs. rewrite E, H. done.
Qed.

(** output codecs are only announced for the streams that are encoded, are
    ones the server can encode and the device can decode, and are refused
    exactly when the device decodes none of them. *)
Theorem output_codecs_are_playable (plan : Plan) (decision : PlaybackDecision)
    (media : MediaFileInfo) (device : DeviceCapabilities) (default_video default_audio : string) :
  known_hdr media = false ->
  match output_codecs plan decision media device default_video default_audio with
  | Ok (v, a) =>
      (plan_video plan = Copy /\ v = None \/ plan_video plan = Encode /\
       exists c, v = Some c /\ In c ENCODE_VIDEO /\ codec_supported c (video_codecs device) = true) /\
      (plan_audio plan = Copy /\ a = None \/ plan_audio plan = Encode /\
       exists c, a = Some c /\ In c ENCODE_AUDIO /\ codec_supported c (audio_codecs device) = true)
  | Err _ =>
      plan_video plan = Encode /\
      Forall (fun c => codec_supported c (video_codecs device) = false) ENCODE_VIDEO \/
      plan_audio plan = Encode /\
      Forall (fun c => codec_supported c (audio_codecs device) = false) ENCODE_AUDIO
  end.
Proof.
  intros H. unfold output_codecs. rewrite H, andb_false_r.
  pose proof (output_codec_spec (target_video_codec decision) default_video ENCODE_VIDEO
    (video_codecs device)) as V.
  pose proof (output_codec_spec (target_audio_codec decision) default_audio ENCODE_AUDIO
    (audio_codecs device)) as A.
  destruct plan as [[] []]; cbn [plan_video plan_audio];
    [by split; left| | |];
    try (destruct (output_codec Encode (target_video_codec decision) _ _ _) as [[v|]|]; [|done|]);
    try (destruct (output_codec Encode (target_audio_codec decision) _ _ _) as [[a|]|]; [|done|]);
    cbn; eauto 10.
Qed.

(** a selected subtitle is never lost: unless the file is played as it is,
    it is burnt into a video stream that is encoded. *)
Theorem selected_subtitle_is_burnt (decision : PlaybackDecision) (media : MediaFileInfo)
    (force_video force_hls : bool) (plan : Plan) :
  let delivery := apply_delivery_requirements decision force_video force_hls true in
  compile delivery media force_video = Ok plan ->
  overall delivery = StreamDirectPlay /\ force_video = false /\ force_hls = false \/
  subtitle delivery = BurnIn /\ plan_video plan = Encode /\ overall delivery = StreamTranscode.
Proof.
  cbv zeta. intros C.
  set (delivery := apply_delivery_requirements decision force_video force_hls true) in *.
  assert (D : (overall delivery = StreamDirectPlay /\ force_video = false /\ force_hls = false) \/
    (subtitle delivery = BurnIn /\ subtitle_burn_in_required delivery = true /\
     overall delivery = StreamTranscode)).
  { unfold delivery, apply_delivery_requirements. destruct force_video; [by right|].
    destruct (overall decision) eqn:O, force_hls; dk_decide; cbn; rewrite ?O; dk_decide; cbn;
      rewrite ?O; auto. }
  destruct D as [D|(D & B & O)]; [by left|]. right. split; [done|]. split; [|done].
  unfold compile in C. destruct (_ || _); [done|]. rewrite B, andb_false_r in C. cbn in C.
  destruct (known_hdr media); [done|]. by injection C as <-.
Qed.

(** ** Witnesses *)

Definition hdr_media : MediaFileInfo :=
  mk_media "mkv" "hvc1" None None 10 (3840, 2160) 20000000 " HDR10 " (F64.of_Z 24) "truehd" 8 4000000
    None false (Some "pgs"%string) None.
Definition sdr_media : MediaFileInfo :=
  mk_media "mkv" "h264" None None 8 (1920, 1080) 8000000 "sdr" (F64.of_Z 24) "dts" 6 1500000
    None false (Some "pgs"%string) None.
Definition remux : PlaybackDecision :=
  mk_decision DirectStream Remux AudioTranscode SubPassthrough None (Some "ac-3"%string) None None
    (Some 2) false false false [].
Definition some_device : DeviceCapabilities :=
  mk_device {[ "avc1"%string ]} {[ "ac3"%string ]} {[ "mp4"%string ]} ∅ (1280, 720) 2 ∅ 0 false false 8.

Lemma hdr_is_never_encoded_example :
  compile (apply_delivery_requirements remux false true false) hdr_media false = Ok (mk_plan Copy Encode)
  /\ plan_video (mk_plan Copy Encode) = Copy.
Proof.
  assert (E : compile (apply_delivery_requirements remux false true false) hdr_media false
    = Ok (mk_plan Copy Encode)) by (vm_compute; reflexivity).
  split; [exact E|].
  destruct (hdr_is_never_encoded remux hdr_media some_device false true false (mk_plan Copy Encode)
    "h264" "aac") as [H _]; [vm_compute; reflexivity|]. exact (proj1 (H E)).
Defined.

Lemma output_codecs_are_playable_example :
  exists a, output_codecs (mk_plan Copy Encode) remux sdr_media some_device "h264" "aac"
    = Ok (None, Some a) /\ In a ENCODE_AUDIO.
Proof.
  pose proof (output_codecs_are_playable (mk_plan Copy Encode) remux sdr_media some_device "h264" "aac"
    ltac:(vm_compute; reflexivity)) as H.
  exists "ac3"%string.
  assert (E : output_codecs (mk_plan Copy Encode) remux sdr_media some_device "h264" "aac"
    = Ok (None, Some "ac3"%string)) by (vm_compute; reflexivity).
  rewrite E in H. split; [exact E|].
  destruct H as [_ [[H _]|(_ & c & [= <-] & I & _)]]; [discriminate H|exact I].
Defined.

Lemma selected_subtitle_is_burnt_example :
  exists plan, compile (apply_delivery_requirements remux false true true) sdr_media false = Ok plan
  /\ plan_video plan = Encode.
Proof.
  assert (E : compile (apply_delivery_requirements remux false true true) sdr_media false
    = Ok (mk_plan Encode Encode)) by (vm_compute; reflexivity).
  exists (mk_plan Encode Encode). split; [exact E|].
  destruct (selected_subtitle_is_burnt remux sdr_media false true _ E) as [[H _]|(_ & H & _)];
    [vm_compute in H; discriminate H|exact H].
Defined.

End StreamPlan.
