(* ===== verification/Transcode.v ===== *)
(** * Transcoding sessions: encoders, renditions and the ffmpeg command

    Models the pure part of server/src/services/transcoding.rs and of its
    submodules encoding.rs, arguments.rs, output_profile.rs,
    source_copy_profile.rs, session.rs and start.rs: which rendition a session
    gets, the ffmpeg arguments it is started with and the parameters it is
    restarted with.

    Paths are the UTF-8 strings that [to_string_lossy] gives, with Unix
    separators; identifiers are the strings they print as. *)

From S2P Require Import Prelude F64 Ladder StreamPlan.
Import Ladder StreamPlan.

Module Transcode.

Inductive HwAccelMethod : Type := Nvenc | Qsv | Vaapi | VideoToolbox | Amf | Software.

#[export] Instance hw_eq : EqDecision HwAccelMethod.
Proof. solve_decision. Defined.

Definition one_of (s : string) (l : list string) : bool := existsb (String.eqb s) l.
Definition is_hevc (codec : string) : bool := one_of codec ["hevc"; "h265"]%string.

Definition ffmpeg_encoder (m : HwAccelMethod) (codec : string) : string :=
  let h264 := String.eqb codec "h264" in
  match m with
  | Nvenc => if h264 then "h264_nvenc" else if is_hevc codec then "hevc_nvenc" else "libx264"
  | Qsv => if h264 then "h264_qsv" else if is_hevc codec then "hevc_qsv" else "libx264"
  | Vaapi => if h264 then "h264_vaapi" else if is_hevc codec then "hevc_vaapi" else "libx264"
  | VideoToolbox =>
      if h264 then "h264_videotoolbox" else if is_hevc codec then "hevc_videotoolbox" else "libx264"
  | Amf => if h264 then "h264_amf" else if is_hevc codec then "hevc_amf" else "libx264"
  | Software => if is_hevc codec then "libx265" else "libx264"
  end%string.

Definition hw_as_str (m : HwAccelMethod) : string :=
  match m with
  | Nvenc => "nvenc" | Qsv => "qsv" | Vaapi => "vaapi"
  | VideoToolbox => "videotoolbox" | Amf => "amf" | Software => "software"
  end%string.

Inductive OutputProfile : Type := CompatibleSdr | SourceCopySdr.

#[export] Instance profile_eq : EqDecision OutputProfile.
Proof. solve_decision. Defined.

Record ProgressUpdate := mk_progress {
  frame : Z; fps : F64.f64; bitrate_kbps : F64.f64; total_size : Z; out_time_ms : Z;
  speed : F64.f64; progress_complete : bool }.

Record StartSessionParams := mk_params {
  media_file_id : string;
  user_id : string;
  source_path : string;
  source_video_codec : string;
  source_video_resolution : Z * Z;
  source_audio_codec : string;
  source_video_stream_index : option Z;
  source_audio_stream_index : option Z;
  stream_plan : Plan;
  output_profile : option OutputProfile;
  target_audio_channels : option Z;
  target_audio_bitrate : option Z;
  subtitle_stream_index : option Z;
  subtitle_stream_ordinal : option Z;
  subtitle_burn_in : bool;
  target_video_codec : option string;
  target_audio_codec : option string;
  target_resolution : option (Z * Z);
  target_bitrate : option Z;
  seek_position_ms : option Z;
  hw_accel_override : option HwAccelMethod;
  recovery_attempts : Z }.

(** ** encoding.rs *)

Definition build_video_encode_args (encoder codec : string) (w h maxrate gop_size : Z) : list string :=
  let is_hw := negb (Str.contains "libx2" encoder) in
  ["-c:v:0"; encoder]%string
  ++ (if negb is_hw then ["-preset"; "veryfast"; "-crf"; "23"]%string else [])
  ++ ["-maxrate"; Dec.print maxrate; "-bufsize"; Dec.print (Z.min u32_max (maxrate * 2)); "-vf";
      "scale=" +:+ Dec.print w +:+ ":" +:+ Dec.print h
      +:+ ":force_original_aspect_ratio=decrease,pad=" +:+ Dec.print w +:+ ":" +:+ Dec.print h
      +:+ ":(ow-iw)/2:(oh-ih)/2"]%string
  ++ ["-g"; Dec.print gop_size; "-keyint_min"; Dec.print gop_size; "-sc_threshold"; "0"]%string
  ++ (if negb is_hw then
        ["-profile:v"; (if is_hevc codec then "main" else "high"); "-pix_fmt"; "yuv420p"]%string
      else [])
  ++ (if is_hevc codec then ["-tag:v"; "hvc1"]%string else []).

Definition build_audio_encode_args (audio_codec : string) (channels bitrate : Z) : list string :=
  let encoder :=
    if one_of audio_codec ["ac3"; "ac-3"]%string then "ac3"%string
    else if one_of audio_codec ["eac3"; "e-ac-3"]%string then "eac3"%string
    else if String.eqb audio_codec "opus" then "libopus"%string
    else "aac"%string in
  ["-c:a:0"; encoder; "-ac"; Dec.print channels; "-b:a"; Dec.print bitrate]%string.

(** The fields of the settings that the arguments read. *)
Record CpuConfig := mk_cpu { ffmpeg_threads : option Z; ffmpeg_thread_type : string }.

Definition build_threading_args (cpu : CpuConfig) : list string :=
  match ffmpeg_threads cpu with Some t => ["-threads"%string; Dec.print t] | None => [] end
  ++ ["-thread_type"%string; ffmpeg_thread_type cpu].

(** ** arguments.rs *)

Definition build_ffmpeg_input_args (seek_position_ms : option Z) (source_path : string) : list string :=
  (if is_some_and seek_position_ms (fun ms => 0 <? ms) then
     ["-ss"%string; F64.fixed3 (F64.div (F64.of_Z (unwrap_or seek_position_ms 0)) (F64.of_Z 1000))]
   else [])
  ++ ["-analyzeduration"; "5M"; "-probesize"; "5M"; "-protocol_whitelist"; "file,pipe";
      "-fflags"; "+genpts"; "-i"; source_path]%string.

Definition build_ffmpeg_output_seek_args (seek_position_ms : option Z) (plan : Plan) : list string :=
  if is_some_and seek_position_ms (fun position => 0 <? position)
     && bool_decide (plan_video plan = Encode) && bool_decide (plan_audio plan = Copy)
  then ["-ss"; "0"]%string else [].

(** [.replace('\\', "\\\\").replace(':', "\\:").replace('\'', "\\'")] *)
Definition escape_path (path : string) : string :=
  Str.replace_char "'" "\'" (Str.replace_char ":" "\:" (Str.replace_char "\" "\\" path)).

Definition stream_selector (default : string) (index : option Z) : string :=
  match index with Some i => "0:" +:+ Dec.print_int i | None => default end.

Definition build_subtitle_burn_in_filter_for_video (source_path : string) (subtitle_ordinal : Z)
    (video_stream_index : option Z) : string :=
  "[" +:+ stream_selector "0:V:0" video_stream_index +:+ "]subtitles=filename='"
  +:+ escape_path source_path +:+ "':si=" +:+ Dec.print subtitle_ordinal +:+ "[video]".

Definition build_subtitle_burn_in_filter (source_path : string) (subtitle_ordinal : Z) : string :=
  build_subtitle_burn_in_filter_for_video source_path subtitle_ordinal None.

(** The rewriting of Windows paths is not compiled on Unix. *)
Definition hls_output_path (path : string) : string := path.

Definition build_hls_output_args (segment_duration : Z) (segment_filename manifest_path : string)
  : list string :=
  ["-f"; "hls"; "-hls_time"; Dec.print segment_duration; "-hls_segment_type"; "fmp4";
   "-hls_fmp4_init_filename"; "init.mp4"; "-hls_list_size"; "0"; "-hls_playlist_type"; "event";
   "-hls_segment_filename"; hls_output_path segment_filename; "-y"; hls_output_path manifest_path]%string.

Definition build_stream_mapping_args_for_video (video_stream_index audio_stream_index : option Z)
    (subtitle_filter : option string) : list string :=
  match subtitle_filter with
  | Some filter => ["-filter_complex"; filter; "-map"; "[video]"]%string
  | None => ["-map"%string; stream_selector "0:V:0" video_stream_index]
  end
  ++ ["-map"%string; stream_selector "0:a:0?" audio_stream_index].

Definition build_stream_mapping_args (audio_stream_index : option Z) (subtitle_filter : option string)
  : list string := build_stream_mapping_args_for_video None audio_stream_index subtitle_filter.

(** [args.iter().position(|a| a == x)] *)
Fixpoint position (x : string) (l : list string) : option nat :=
  match l with
  | [] => None
  | y :: t => if String.eqb y x then Some O else option_map S (position x t)
  end.

(** [Vec::remove]: the element and the rest. *)
Definition remove_at (i : nat) (l : list string) : list string := take i l ++ drop (S i) l.

Definition compose_video_filters (encoder_args : list string) (subtitle_filter : option string)
  : result (list string * option string) string :=
  match subtitle_filter with
  | None => Ok (encoder_args, None)
  | Some subtitle_filter =>
      let? prefix := ok_or (Str.strip_suffix "[video]" subtitle_filter)
                       "subtitle filter output is invalid"%string in
      let? position := ok_or (position "-vf" encoder_args) "video scaling filter is missing"%string in
      match encoder_args !! (position + 1)%nat with
      | None => Err "video scaling filter is missing"%string
      | Some scaling =>
          let encoder_args := remove_at position (remove_at (position + 1) encoder_args) in
          Ok (encoder_args, Some (prefix +:+ "," +:+ scaling +:+ "[video]"))
      end
  end.

(** ** source_copy_profile.rs *)

Definition MAX_WIDTH : Z := 1920.
Definition MAX_HEIGHT : Z := 1080.
Definition FRAME_RATE : Z := 30.
Definition VIDEO_MIN_BITRATE : Z := 1000.
Definition VIDEO_MAX_BITRATE : Z := 10000000.
Definition AUDIO_SAMPLE_RATE : Z := 48000.
Definition AUDIO_MAX_CHANNELS : Z := 2.
Definition AUDIO_MIN_BITRATE : Z := 32000.
Definition AUDIO_MAX_BITRATE : Z := 192000.

(** [(low..=high).contains(&x)] *)
Definition between (low high x : Z) : bool := (low <=? x) && (x <=? high).

Definition audio_target_bounded (params : StartSessionParams) : bool :=
  is_some_and (target_audio_channels params) (between 1 AUDIO_MAX_CHANNELS)
  && is_some_and (target_audio_bitrate params) (between AUDIO_MIN_BITRATE AUDIO_MAX_BITRATE).

Definition source_copy_validate (params : StartSessionParams) : result unit string :=
  if negb (bool_decide (output_profile params = Some SourceCopySdr))
     || negb (bool_decide (plan_video (stream_plan params) = Copy))
     || negb (bool_decide (hw_accel_override params = Some Software))
     || negb (one_of (source_video_codec params) ["h264"; "hevc"; "h265"; "av1"]%string)
     || ((source_video_resolution params).1 =? 0)
     || ((source_video_resolution params).2 =? 0)
     || is_some_and (target_resolution params)
          (fun size => negb (bool_decide (size = source_video_resolution params)))
     || subtitle_burn_in params
  then Err "source-copy SDR output requires unchanged supported video without burn-in"%string
  else if is_some_and (target_video_codec params)
            (fun codec => negb (String.eqb codec (source_video_codec params)))
  then Err "source-copy SDR output cannot change the video codec"%string
  else
    let audio_ok :=
      match plan_audio (stream_plan params) with
      | Copy => String.eqb (source_audio_codec params) "aac"
                && negb (is_some_b (target_audio_channels params))
                && negb (is_some_b (target_audio_bitrate params))
      | Encode => bool_decide (target_audio_codec params = Some "aac"%string)
                  && audio_target_bounded params
      end in
    if audio_ok then Ok tt
    else Err "source-copy SDR output requires validated AAC copy or bounded AAC encoding"%string.

Definition source_copy_rendition (params : StartSessionParams) : TranscodeRendition :=
  mk_rendition "source" (source_video_resolution params).1 (source_video_resolution params).2 0
    (unwrap_or (target_audio_bitrate params) AUDIO_MAX_BITRATE)
    (unwrap_or (target_audio_channels params) AUDIO_MAX_CHANNELS).

Definition copy_tag (codec : string) : option string :=
  if String.eqb codec "h264" then Some "avc1"%string
  else if is_hevc codec then Some "hev1"%string
  else if String.eqb codec "av1" then Some "av01"%string
  else None.

Definition source_copy_output_args (params : StartSessionParams) : list string :=
  match copy_tag (source_video_codec params) with
  | None => []
  | Some tag =>
      ["-tag:v"%string; tag]
      ++ (if bool_decide (plan_audio (stream_plan params) = Encode) then
            ["-profile:a"; "aac_low"; "-ar"; Dec.print AUDIO_SAMPLE_RATE]%string else [])
      ++ ["-hls_segment_options";
          "use_editlist=0:movflags=+frag_discont:avoid_negative_ts=make_non_negative"]%string
  end.

(** ** output_profile.rs *)

Definition validate (profile : OutputProfile) (params : StartSessionParams) : result unit string :=
  if bool_decide (profile = SourceCopySdr) then source_copy_validate params
  else if negb (bool_decide (output_profile params = Some profile))
          || negb (bool_decide (plan_video (stream_plan params) = Encode))
          || negb (bool_decide (plan_audio (stream_plan params) = Encode))
          || negb (bool_decide (target_video_codec params = Some "h264"%string))
          || negb (bool_decide (target_audio_codec params = Some "aac"%string))
          || negb (bool_decide (hw_accel_override params = Some Software))
  then Err "compatible SDR output requires software H.264 and AAC encoding"%string
  else
    let? (width, height) := ok_or (target_resolution params)
           "compatible SDR output requires an explicit resolution"%string in
    if (width =? 0) || (height =? 0) || negb (width mod 2 =? 0) || negb (height mod 2 =? 0)
       || (MAX_WIDTH <? width) || (MAX_HEIGHT <? height)
       || ((source_video_resolution params).1 <? width)
       || ((source_video_resolution params).2 <? height)
    then Err "compatible SDR output resolution exceeds its admitted envelope"%string
    else if negb (is_some_and (target_bitrate params) (between VIDEO_MIN_BITRATE VIDEO_MAX_BITRATE))
            || negb (is_some_and (target_audio_bitrate params)
                       (between AUDIO_MIN_BITRATE AUDIO_MAX_BITRATE))
            || negb (is_some_and (target_audio_channels params) (between 1 AUDIO_MAX_CHANNELS))
    then Err "compatible SDR output requires bounded explicit bitrates and channels"%string
    else Ok tt.

(** [None] is the panic of an [unwrap] of a missing target. *)
Definition rendition (profile : OutputProfile) (params : StartSessionParams)
  : option (result TranscodeRendition string) :=
  match validate profile params with
  | Err e => Some (Err e)
  | Ok _ =>
      if bool_decide (profile = SourceCopySdr) then Some (Ok (source_copy_rendition params)) else
      let! (width, height) := target_resolution params in
      let! video_bitrate := target_bitrate params in
      let! audio_bitrate := target_audio_bitrate params in
      let! audio_channels := target_audio_channels params in
      Some (Ok (mk_rendition "compatible-sdr" width height video_bitrate audio_bitrate audio_channels))
  end.

Definition output_args (profile : OutputProfile) (params : StartSessionParams) : list string :=
  match profile with
  | SourceCopySdr => source_copy_output_args params
  | CompatibleSdr =>
      ["-level:v"; "4.0"; "-r"; Dec.print FRAME_RATE; "-fps_mode:v"; "cfr"; "-profile:a"; "aac_low";
       "-ar"; Dec.print AUDIO_SAMPLE_RATE]%string
  end.

(** ** start.rs *)

(** The fields of the settings that a start reads. *)
Record TranscodingConfig := mk_transcoding {
  default_video_codec : string;
  default_audio_codec : string;
  transcode_path : string;
  segment_duration_seconds : Z }.

Definition auto_rendition (params : StartSessionParams) : TranscodeRendition :=
  let '(target_w, target_h) := unwrap_or (target_resolution params) (source_video_resolution params) in
  let ladder := smart_ladder (source_video_resolution params).1 (source_video_resolution params).2
                  (target_bitrate params) (Some (target_w, target_h)) in
  unwrap_or (last ladder)
    (mk_rendition "auto" target_w target_h (unwrap_or (target_bitrate params) 6000000) 192000 2).

(** The rendition of a session: the profile's or the ladder's, as the plan and
    the audio targets change it. *)
Definition adjust_rendition (params : StartSessionParams) (r : TranscodeRendition)
  : TranscodeRendition :=
  let r := if bool_decide (plan_video (stream_plan params) = Copy)
           then mk_rendition "source" (source_video_resolution params).1
                  (source_video_resolution params).2 0 (audio_bitrate r) (audio_channels r)
           else r in
  mk_rendition (name r) (width r) (height r) (video_bitrate r)
    (unwrap_or (target_audio_bitrate params) (audio_bitrate r))
    (unwrap_or (target_audio_channels params) (audio_channels r)).

Definition session_rendition (params : StartSessionParams) : option (result TranscodeRendition string) :=
  match output_profile params with
  | Some profile =>
      let! r := rendition profile params in
      Some (let? r := r in Ok (adjust_rendition params r))
  | None => Some (Ok (adjust_rendition params (auto_rendition params)))
  end.

Definition effective_video_codec (config : TranscodingConfig) (params : StartSessionParams) : string :=
  if bool_decide (plan_video (stream_plan params) = Copy) then source_video_codec params
  else unwrap_or (target_video_codec params) (default_video_codec config).

Definition effective_audio_codec (config : TranscodingConfig) (params : StartSessionParams) : string :=
  if bool_decide (plan_audio (stream_plan params) = Copy) then source_audio_codec params
  else unwrap_or (target_audio_codec params) (default_audio_codec config).

(** The method used: hardware only where video is encoded. *)
Definition session_hw_accel (detected : HwAccelMethod) (params : StartSessionParams) : HwAccelMethod :=
  if bool_decide (plan_video (stream_plan params) = Encode)
  then unwrap_or (hw_accel_override params) detected else Software.

(** [Path::join] *)
Definition join (base component : string) : string :=
  if Str.starts_with "/" component then component
  else if Str.is_empty base || Str.ends_with "/" base then base +:+ component
  else base +:+ "/" +:+ component.

Definition segment_dir (config : TranscodingConfig) (data_dir session_id : string) : string :=
  join (join data_dir (Str.trim_start_char "/" (transcode_path config))) session_id.

Definition gop_size (config : TranscodingConfig) (params : StartSessionParams) : Z :=
  ((if bool_decide (output_profile params = Some CompatibleSdr) then FRAME_RATE else 24)
   * segment_duration_seconds config) mod 2 ^ 32.

Definition subtitle_filter (params : StartSessionParams) : result (option string) string :=
  if subtitle_burn_in params then
    let? ordinal := ok_or (subtitle_stream_ordinal params)
                      "subtitle burn-in requires a selected subtitle stream"%string in
    Ok (Some (build_subtitle_burn_in_filter_for_video (source_path params) ordinal
                (source_video_stream_index params)))
  else Ok None.

Definition session_video_args (config : TranscodingConfig) (detected : HwAccelMethod)
    (params : StartSessionParams) (r : TranscodeRendition) : list string :=
  if bool_decide (plan_video (stream_plan params) = Encode) then
    let codec := effective_video_codec config params in
    build_video_encode_args (ffmpeg_encoder (session_hw_accel detected params) codec) codec
      (width r) (height r) (video_bitrate r) (gop_size config params)
  else [].

(** The ffmpeg command line of a session, for a build without the qualification
    input. *)
Definition session_args (config : TranscodingConfig) (cpu : CpuConfig) (detected : HwAccelMethod)
    (params : StartSessionParams) (data_dir session_id : string) (r : TranscodeRendition)
  : result (list string) string :=
  let dir := segment_dir config data_dir session_id in
  let timestamp_preserving := bool_decide (output_profile params = Some SourceCopySdr) in
  let? filter := subtitle_filter params in
  let? (video_args, filter) := compose_video_filters (session_video_args config detected params r) filter in
  Ok ((if timestamp_preserving then ["-copyts"; "-start_at_zero"]%string else [])
      ++ build_ffmpeg_input_args (seek_position_ms params) (source_path params)
      ++ build_ffmpeg_output_seek_args (seek_position_ms params) (stream_plan params)
      ++ build_stream_mapping_args_for_video (source_video_stream_index params)
           (source_audio_stream_index params) filter
      ++ codec_args (stream_plan params) video_args
           (build_audio_encode_args (effective_audio_codec config params) (audio_channels r)
              (audio_bitrate r))
      ++ match output_profile params with Some profile => output_args profile params | None => [] end
      ++ (if timestamp_preserving then ["-avoid_negative_ts"; "disabled"]%string else [])
      ++ build_threading_args cpu
      ++ ["-progress"; "pipe:1"]%string
      ++ build_hls_output_args (segment_duration_seconds config) (join dir "seg_%04d.m4s")
           (join dir "manifest.m3u8")).

(** ** Sessions *)

Record TranscodeSession := mk_session {
  id : string;
  s_media_file_id : string;
  s_user_id : string;
  started_at : Z;
  s_source_path : string;
  s_source_video_codec : string;
  s_source_video_resolution : Z * Z;
  s_source_audio_codec : string;
  s_source_video_stream_index : option Z;
  s_source_audio_stream_index : option Z;
  s_stream_plan : Plan;
  s_output_profile : option OutputProfile;
  s_target_audio_channels : option Z;
  s_target_audio_bitrate : option Z;
  s_subtitle_stream_index : option Z;
  s_subtitle_stream_ordinal : option Z;
  s_subtitle_burn_in : bool;
  s_target_video_codec : string;
  s_target_video_resolution : Z * Z;
  s_target_audio_codec : string;
  s_target_bitrate : Z;
  hw_accel : HwAccelMethod;
  source_start_ms : Z;
  s_recovery_attempts : Z;
  rendition_name : string;
  s_segment_dir : string;
  manifest_path : string;
  segments_written : Z;
  client_position_segment : Z;
  progress : option ProgressUpdate;
  is_complete : bool;
  is_seeking : bool }.

(** The session recorded for a spawned command. *)
Definition new_session (config : TranscodingConfig) (detected : HwAccelMethod)
    (params : StartSessionParams) (data_dir session_id : string) (now : Z) (r : TranscodeRendition)
  : TranscodeSession :=
  let dir := segment_dir config data_dir session_id in
  let encoded_audio x := if bool_decide (plan_audio (stream_plan params) = Encode) then Some x else None in
  mk_session session_id (media_file_id params) (user_id params) now (source_path params)
    (source_video_codec params) (source_video_resolution params) (source_audio_codec params)
    (source_video_stream_index params) (source_audio_stream_index params) (stream_plan params)
    (output_profile params) (encoded_audio (audio_channels r)) (encoded_audio (audio_bitrate r))
    (subtitle_stream_index params) (subtitle_stream_ordinal params) (subtitle_burn_in params)
    (effective_video_codec config params) (width r, height r) (effective_audio_codec config params)
    (video_bitrate r) (session_hw_accel detected params)
    (if bool_decide (output_profile params = Some SourceCopySdr) then 0
     else unwrap_or (seek_position_ms params) 0)
    (recovery_attempts params) (name r) dir (join dir "manifest.m3u8") 0 0 None false false.

Definition restart_params (s : TranscodeSession) (position_ms : Z) : StartSessionParams :=
  mk_params (s_media_file_id s) (s_user_id s) (s_source_path s) (s_source_video_codec s)
    (s_source_video_resolution s) (s_source_audio_codec s) (s_source_video_stream_index s)
    (s_source_audio_stream_index s) (s_stream_plan s) (s_output_profile s)
    (s_target_audio_channels s) (s_target_audio_bitrate s) (s_subtitle_stream_index s)
    (s_subtitle_stream_ordinal s) (s_subtitle_burn_in s) (Some (s_target_video_codec s))
    (Some (s_target_audio_codec s)) (Some (s_target_video_resolution s))
    (if 0 <? s_target_bitrate s then Some (s_target_bitrate s) else None) (Some position_ms)
    (Some (hw_accel s)) (s_recovery_attempts s).

End Transcode.
