(* ===== verification/TranscodeProofs.v ===== *)
(** * Transcoding sessions: correctness

    Properties of Transcode.v: bounds of the renditions, when a command can be
    built, the escaping of paths in filters, and that a restarted session runs
    the command it was started with. *)

From S2P Require Import Prelude F64 Ladder StreamPlan Transcode.
Import Ladder StreamPlan Transcode.

Module TranscodeProofs.

(** ** Escaping *)

(** ffmpeg's reading of a backslash: the next character as it is. *)
Fixpoint unescape (s : string) : string :=
  match s with
  | String c t =>
      if Ascii.eqb c "\" then match t with String d u => String d (unescape u) | EmptyString => EmptyString end
      else String c (unescape t)
  | EmptyString => EmptyString
  end.

(** No quote is left outside an escape. *)
Fixpoint quoted (s : string) : bool :=
  match s with
  | String c t =>
      if Ascii.eqb c "\" then match t with String d u => quoted u | EmptyString => false end
      else negb (Ascii.eqb c "'") && negb (Ascii.eqb c ":") && quoted t
  | EmptyString => true
  end.

Definition special (c : ascii) : bool := Ascii.eqb c "\" || Ascii.eqb c ":" || Ascii.eqb c "'".

(** The three replacements are one pass over the characters. *)
Lemma escape_cons (c : ascii) (s : string) :
  escape_path (String c s) =
    (if special c then String "\" (String c EmptyString) else String c EmptyString) +:+ escape_path s.
Proof.
  unfold escape_path, special. cbn [Str.replace_char].
  destruct (Ascii.eqb_spec "\" c) as [<-|N1].
  { rewrite !replace_char_app. done. }
  destruct (Ascii.eqb_spec ":" c) as [<-|N2].
  { cbn [Str.replace_char]. change (Ascii.eqb ":" ":") with true. cbn iota.
    rewrite replace_char_app. done. }
  cbn [Str.replace_char]. rewrite (proj2 (Ascii.eqb_neq ":" c)) by done. cbn [Str.replace_char].
  destruct (Ascii.eqb_spec "'" c) as [<-|N3]; [done|].
  rewrite (proj2 (Ascii.eqb_neq c "\")), (proj2 (Ascii.eqb_neq c ":")), (proj2 (Ascii.eqb_neq c "'"))
    by (by intros ->). done.
Qed.

(** a path written into a subtitle filter is read back unchanged, and
    contains no quote or colon that would end the file name. *)
Theorem escaped_path_reads_back (path : string) :
  unescape (escape_path path) = path /\ quoted (escape_path path) = true.
Proof.
  induction path as [|c s [IH1 IH2]]; [done|]. rewrite escape_cons.
  destruct (special c) eqn:S.
  - cbn. by rewrite IH1, IH2.
  - unfold special in S. apply orb_false_iff in S as [S S3]. apply orb_false_iff in S as [S1 S2].
    cbn. rewrite S1, S2, S3, IH1, IH2. done.
Qed.

(** ** Filters and commands *)

Lemma position_bound (x : string) (l : list string) (i : nat) :
  position x l = Some i -> (i < length l)%nat.
Proof.
  revert i. induction l as [|y l IH]; intros i; cbn; [done|].
  destruct (String.eqb y x); [intros [= <-]; lia|].
  destruct (position x l) as [j|]; [|done]. cbn. intros [= <-]. specialize (IH j eq_refl). lia.
Qed.

(** The scaling filter of an encoder and its place. *)
Lemma scaling_position (encoder codec : string) (w h maxrate gop : Z) :
  encoder <> "-vf"%string ->
  exists i scaling, position "-vf" (build_video_encode_args encoder codec w h maxrate gop) = Some i /\
    build_video_encode_args encoder codec w h maxrate gop !! (i + 1)%nat = Some scaling.
Proof.
  intros N. unfold build_video_encode_args.
  assert (P : forall n, String.eqb (Dec.print n) "-vf" = false).
  { intros n. apply String.eqb_neq. intros E. pose proof (print_digits n) as D. by rewrite E in D. }
  destruct (negb (negb (Str.contains "libx2" encoder))); cbn [app position].
  - change (String.eqb "-c:v:0" "-vf") with false. rewrite (proj2 (String.eqb_neq encoder "-vf")) by done.
    cbn -[String.append Dec.print Z.min]. rewrite !P. cbn -[String.append Dec.print Z.min].
    do 2 eexists. split; reflexivity.
  - change (String.eqb "-c:v:0" "-vf") with false. rewrite (proj2 (String.eqb_neq encoder "-vf")) by done.
    cbn -[String.append Dec.print Z.min]. rewrite !P. cbn -[String.append Dec.print Z.min].
    do 2 eexists. split; reflexivity.
Qed.

Lemma encoder_not_filter (m : HwAccelMethod) (codec : string) : ffmpeg_encoder m codec <> "-vf"%string.
Proof. unfold ffmpeg_encoder. destruct m; repeat case_match; done. Qed.

Lemma filter_ends (path : string) (ordinal : Z) (index : option Z) :
  exists p, Str.strip_suffix "[video]" (build_subtitle_burn_in_filter_for_video path ordinal index) = Some p.
Proof.
  unfold build_subtitle_burn_in_filter_for_video.
  exists ("[" +:+ stream_selector "0:V:0" index +:+ "]subtitles=filename='" +:+ escape_path path
     +:+ "':si=" +:+ Dec.print ordinal)%string.
  rewrite <- (strip_suffix_app "[video]"). f_equal. by autorewrite with dk_str.
Qed.

(** a command can be built exactly when no subtitle is to be burnt in, or
    one is selected and the video is encoded; nothing else can make it fail. *)
Theorem command_is_built (config : TranscodingConfig) (cpu : CpuConfig) (detected : HwAccelMethod)
    (params : StartSessionParams) (data_dir session_id : string) (r : TranscodeRendition) :
  is_ok (session_args config cpu detected params data_dir session_id r) = true <->
  (subtitle_burn_in params = true ->
   subtitle_stream_ordinal params <> None /\ plan_video (stream_plan params) = Encode).
Proof.
  unfold session_args, subtitle_filter. destruct (subtitle_burn_in params); [|by cbn].
  destruct (subtitle_stream_ordinal params) as [ordinal|]; cbn [ok_or];
    [|split; [done|intros H; by destruct (H eq_refl)]].
  unfold compose_video_filters, session_video_args.
  destruct (filter_ends (source_path params) ordinal (source_video_stream_index params)) as [p ->].
  cbn [ok_or]. destruct (plan_video (stream_plan params)); dk_decide.
  - cbn. split; [done|]. intros H. by destruct (H eq_refl).
  - match goal with |- context [build_video_encode_args ?e ?c ?w ?h ?m ?g] =>
      destruct (scaling_position e c w h m g (encoder_not_filter _ _)) as (i & sc & -> & E) end.
    cbn [ok_or]. rewrite E. cbn. split; [done|done].
Qed.

(** ** Renditions *)

Lemma between_spec (low high x : Z) : between low high x = true <-> low <= x <= high.
Proof. unfold between. rewrite andb_true_iff, !Z.leb_le. done. Qed.

Lemma is_some_and_spec {A} (o : option A) (f : A -> bool) :
  is_some_and o f = true <-> exists x, o = Some x /\ f x = true.
Proof.
  destruct o as [x|]; cbn; split.
  - intros H. by exists x.
  - by intros (y & [= <-] & H).
  - done.
  - by intros (y & ? & _).
Qed.

(** Unsigned sizes. *)
Definition size_ok (o : option (Z * Z)) : Prop := forall w h, o = Some (w, h) -> 0 <= w /\ 0 <= h.

(** What the validation of the compatible profile establishes. *)
Lemma compatible_validated (params : StartSessionParams) :
  validate CompatibleSdr params = Ok tt ->
  exists w h b ab ac,
    target_resolution params = Some (w, h) /\ target_bitrate params = Some b /\
    target_audio_bitrate params = Some ab /\ target_audio_channels params = Some ac /\
    output_profile params = Some CompatibleSdr /\ plan_video (stream_plan params) = Encode /\
    plan_audio (stream_plan params) = Encode /\ target_video_codec params = Some "h264"%string /\
    target_audio_codec params = Some "aac"%string /\ hw_accel_override params = Some Software /\
    w <> 0 /\ h <> 0 /\ Z.Even w /\ Z.Even h /\ w <= MAX_WIDTH /\ h <= MAX_HEIGHT /\
    w <= (source_video_resolution params).1 /\ h <= (source_video_resolution params).2 /\
    VIDEO_MIN_BITRATE <= b <= VIDEO_MAX_BITRATE /\ AUDIO_MIN_BITRATE <= ab <= AUDIO_MAX_BITRATE /\
    1 <= ac <= AUDIO_MAX_CHANNELS.
Proof.
  assert (Ev : forall x, x mod 2 = 0 -> Z.Even x) by (intros x Hx; exists (x / 2); dk_lia).
  unfold validate. rewrite bool_decide_eq_false_2 by done.
  dk_case; [done|]. destruct (target_resolution params) as [[w h]|]; [|done].
  cbn [ok_or]. do 2 (dk_case; [done|]). intros _. dk_bool.
  repeat match goal with
  | H : bool_decide _ = true |- _ => apply bool_decide_eq_true in H
  | H : is_some_and _ _ = true |- _ => apply is_some_and_spec in H as (? & ? & H); apply between_spec in H
  end.
  do 5 eexists. repeat (split; [eassumption || reflexivity || auto|]). all: lia.
Qed.

(** an output profile's rendition is refused exactly when the parameters
    are not validated and never fails otherwise; the compatible profile keeps it
    within its envelope and the source. *)
Theorem profile_rendition_bounds (profile : OutputProfile) (params : StartSessionParams) :
  size_ok (target_resolution params) ->
  exists res, rendition profile params = Some res /\
    (is_ok res = true <-> validate profile params = Ok tt) /\
    forall r, profile = CompatibleSdr -> res = Ok r ->
      1 <= width r <= MAX_WIDTH /\ 1 <= height r <= MAX_HEIGHT /\
      Z.Even (width r) /\ Z.Even (height r) /\
      width r <= (source_video_resolution params).1 /\
      height r <= (source_video_resolution params).2 /\
      VIDEO_MIN_BITRATE <= video_bitrate r <= VIDEO_MAX_BITRATE /\
      AUDIO_MIN_BITRATE <= audio_bitrate r <= AUDIO_MAX_BITRATE /\
      1 <= audio_channels r <= AUDIO_MAX_CHANNELS.
Proof.
  intros Hs. unfold rendition. destruct (validate profile params) as [[]|e] eqn:V;
    [|exists (Err e); split; [done|split; [by split|done]]].
  destruct profile.
  - destruct (compatible_validated params V) as (w & h & b & ab & ac & R & B & AB & AC & F).
    rewrite bool_decide_eq_false_2, R, B, AB, AC by done.
    eexists. split; [reflexivity|]. split; [done|]. intros r _ [= <-]. cbn.
    destruct (Hs w h R). destruct_and!. repeat (split; [done || lia|]). lia.
  - rewrite bool_decide_eq_true_2 by done. eexists. split; [reflexivity|]. split; [done|]. done.
Qed.

(** ** Restarts *)

Definition with_seek (params : StartSessionParams) (position_ms : Z) : StartSessionParams :=
  mk_params (media_file_id params) (user_id params) (source_path params) (source_video_codec params)
    (source_video_resolution params) (source_audio_codec params) (source_video_stream_index params)
    (source_audio_stream_index params) (stream_plan params) (output_profile params)
    (target_audio_channels params) (target_audio_bitrate params) (subtitle_stream_index params)
    (subtitle_stream_ordinal params) (subtitle_burn_in params) (target_video_codec params)
    (target_audio_codec params) (target_resolution params) (target_bitrate params) (Some position_ms)
    (hw_accel_override params) (recovery_attempts params).

(** Choosing again under the limits that a choice sets gives the same rung. *)
Definition same_output (r r' : TranscodeRendition) : Prop :=
  width r' = width r /\ height r' = height r /\ video_bitrate r' = video_bitrate r.

Lemma source_rung_stable (sw sh : Z) (mb : option Z) (tw th : Z) :
  let r := source_rung sw sh mb (Some (tw, th)) in
  same_output r (source_rung sw sh (Some (video_bitrate r)) (Some (width r, height r))).
Proof.
  assert (H : forall a b, let x := Z.max (Z.min a b) 2 / 2 * 2 in Z.max (Z.min a x) 2 / 2 * 2 = x).
  { intros a b. cbv zeta. destruct (even_half (Z.max (Z.min a b) 2) ltac:(lia)) as [[k Ek] B].
    set (x := Z.max (Z.min a b) 2 / 2 * 2) in *.
    assert (E : Z.max (Z.min a x) 2 = x) by lia. rewrite E. rewrite Ek.
    by rewrite (Z.mul_comm 2 k), Z.div_mul. }
  unfold same_output, source_rung. cbn. repeat split; [apply H..|lia].
Qed.

Lemma fits_default (sw sh : Z) (mb : option Z) (tw th : Z) (r : TranscodeRendition) :
  In r default_ladder ->
  let s := source_rung sw sh mb (Some (tw, th)) in
  rung_fits sw sh (Some (video_bitrate s)) (Some (width s, height s)) r = true ->
  rung_fits sw sh mb (Some (tw, th)) r = true.
Proof.
  intros Hr. destruct (source_rung_within sw sh mb (Some (tw, th))) as (_ & _ & B & M & _).
  cbv zeta. destruct (M tw th eq_refl) as [Mw Mh]. clear M.
  assert (L : 854 <= width r /\ 480 <= height r)
    by (cbn in Hr; repeat destruct Hr as [<-|Hr]; cbn; lia || done).
  unfold rung_fits. cbn [is_none_or fst snd]. rewrite !andb_true_iff, !Z.leb_le.
  intros ([[? ?] ?] & ? & ?). split; [|lia]. split; [done|].
  destruct mb as [b|]; [|done]. cbn. specialize (B b eq_refl). lia.
Qed.

Lemma filter_nil {A} (f : A -> bool) (l : list A) :
  List.filter f l = [] <-> forall x, In x l -> f x = false.
Proof.
  induction l as [|y l IH]; cbn; [done|]. destruct (f y) eqn:E.
  - split; [done|]. intros H. by rewrite H in E by (by left).
  - rewrite IH. split; [by intros H x [->|Hx]; auto|auto].
Qed.

Lemma smart_ladder_stable (sw sh : Z) (mb : option Z) (tw th : Z) (r : TranscodeRendition) :
  last (smart_ladder sw sh mb (Some (tw, th))) = Some r ->
  exists r', last (smart_ladder sw sh (Some (video_bitrate r)) (Some (width r, height r))) = Some r' /\
    same_output r r'.
Proof.
  unfold smart_ladder.
  destruct (List.filter (rung_fits sw sh mb (Some (tw, th))) default_ladder) as [|x l] eqn:F.
  - intros [= <-]. rewrite (proj2 (filter_nil _ _)).
    + eexists. split; [reflexivity|]. apply source_rung_stable.
    + intros y Hy. destruct (rung_fits _ _ _ _ y) eqn:E; [|done].
      apply fits_default in E; [|done]. by rewrite (proj1 (filter_nil _ _) F y Hy) in E.
  - intros L. exists r. split; [|done]. rewrite <- F in L.
    assert (S : Forall (fun y => rung_fits sw sh mb (Some (tw, th)) y = true ->
      (width y <=? sw) && (height y <=? sh) = true) default_ladder).
    { apply Forall_forall. intros y _ H. unfold rung_fits in H. dk_bool. by rewrite !(proj2 (Z.leb_le _ _)). }
    revert L S. clear F. unfold default_ladder. rewrite !Forall_cons. cbn [List.filter].
    generalize (rung_fits sw sh mb (Some (tw, th)) (mk_rendition "480p" 854 480 1500000 128000 2)).
    generalize (rung_fits sw sh mb (Some (tw, th)) (mk_rendition "720p" 1280 720 3000000 160000 2)).
    generalize (rung_fits sw sh mb (Some (tw, th)) (mk_rendition "1080p" 1920 1080 6000000 256000 6)).
    generalize (rung_fits sw sh mb (Some (tw, th)) (mk_rendition "1080p-hq" 1920 1080 10000000 320000 6)).
    unfold rung_fits. cbn [width height video_bitrate is_none_or fst snd].
    intros b4 b3 b2 b1 L (S1 & S2 & S3 & S4 & _).
    destruct b4; [|destruct b3; [|destruct b2; [|destruct b1; [|done]]]].
      all: repeat match type of L with context [if ?b then _ else _] => is_var b; destruct b end.
    all: cbn in L; injection L as <-; cbn [width height video_bitrate].
    all: repeat match goal with H : true = true -> _ |- _ => specialize (H eq_refl); rewrite H end.
    all: repeat match goal with |- context [(?a <=? ?s) && (?b <=? ?t)] =>
           is_var s; is_var t; destruct ((a <=? s) && (b <=? t)) end.
    all: reflexivity.
Qed.

(** Renditions that agree on what the plan encodes. *)
Definition same_encoding (plan : Plan) (r r' : TranscodeRendition) : Prop :=
  (plan_video plan = Encode -> same_output r r') /\
  (plan_audio plan = Encode -> audio_channels r' = audio_channels r /\ audio_bitrate r' = audio_bitrate r).

Section Restart.
Context (config : TranscodingConfig) (cpu : CpuConfig) (detected detected' : HwAccelMethod)
        (params : StartSessionParams) (data_dir session_id session_id' : string) (now position_ms : Z).

Definition restarted (r : TranscodeRendition) : StartSessionParams :=
  restart_params (new_session config detected params data_dir session_id now r) position_ms.

(** Read the fields of a restarted session. *)
Ltac fields := cbn [restarted restart_params new_session with_seek
  media_file_id user_id source_path source_video_codec source_video_resolution source_audio_codec
  source_video_stream_index source_audio_stream_index stream_plan output_profile
  target_audio_channels target_audio_bitrate subtitle_stream_index subtitle_stream_ordinal
  subtitle_burn_in target_video_codec target_audio_codec target_resolution target_bitrate
  seek_position_ms hw_accel_override recovery_attempts
  s_media_file_id s_user_id s_source_path s_source_video_codec s_source_video_resolution
  s_source_audio_codec s_source_video_stream_index s_source_audio_stream_index s_stream_plan
  s_output_profile s_target_audio_channels s_target_audio_bitrate s_subtitle_stream_index
  s_subtitle_stream_ordinal s_subtitle_burn_in s_target_video_codec s_target_video_resolution
  s_target_audio_codec s_target_bitrate hw_accel s_recovery_attempts unwrap_or].

Lemma restart_args (r r' : TranscodeRendition) :
  same_encoding (stream_plan params) r r' ->
  session_args config cpu detected' (restarted r) data_dir session_id' r' =
  session_args config cpu detected (with_seek params position_ms) data_dir session_id' r.
Proof.
  intros [Hv Ha]. unfold session_args, subtitle_filter, session_video_args, restarted.
  unfold effective_video_codec, effective_audio_codec, session_hw_accel, gop_size, output_args,
    source_copy_output_args.
  fields. unfold effective_video_codec, effective_audio_codec, session_hw_accel.
  destruct (plan_video (stream_plan params)) eqn:V; dk_decide; cbn iota; fields.
  - destruct (if subtitle_burn_in params then _ else _) as [f|e]; [|done].
    destruct (compose_video_filters _ f) as [[va f']|e]; [|done].
    unfold codec_args. rewrite V. destruct (plan_audio (stream_plan params)); [done|].
    destruct (Ha eq_refl) as [-> ->]. dk_decide. done.
  - destruct (Hv eq_refl) as (-> & -> & ->).
    destruct (if subtitle_burn_in params then _ else _) as [f|e]; [|done].
    destruct (compose_video_filters _ f) as [[va f']|e]; [|done].
    unfold codec_args. rewrite V. destruct (plan_audio (stream_plan params)); [done|].
    destruct (Ha eq_refl) as [-> ->]. dk_decide. done.
Qed.

Lemma auto_rendition_last (p : StartSessionParams) :
  let t := unwrap_or (target_resolution p) (source_video_resolution p) in
  last (smart_ladder (source_video_resolution p).1 (source_video_resolution p).2 (target_bitrate p)
    (Some (t.1, t.2))) = Some (auto_rendition p).
Proof.
  cbv zeta. unfold auto_rendition. destruct (unwrap_or _ _) as [tw th]. cbn [fst snd].
  by destruct (smart_ladder_last (source_video_resolution p).1 (source_video_resolution p).2
    (target_bitrate p) (Some (tw, th))) as (r & -> & _).
Qed.

Lemma adjust_audio (p : StartSessionParams) (x : TranscodeRendition) (c b : Z) :
  target_audio_channels p = Some c -> target_audio_bitrate p = Some b ->
  audio_channels (adjust_rendition p x) = c /\ audio_bitrate (adjust_rendition p x) = b.
Proof. intros Hc Hb. unfold adjust_rendition. cbn [audio_channels audio_bitrate]. by rewrite Hc, Hb. Qed.

Lemma restart_auto (r : TranscodeRendition) :
  output_profile params = None -> session_rendition params = Some (Ok r) ->
  (plan_video (stream_plan params) = Encode -> 0 < video_bitrate r) ->
  exists r', session_rendition (restarted r) = Some (Ok r') /\ same_encoding (stream_plan params) r r'.
Proof.
  intros P. unfold session_rendition. rewrite P. intros [= <-] B.
  replace (output_profile (restarted _)) with (@None OutputProfile) by (symmetry; exact P).
  eexists. split; [reflexivity|]. split.
  - intros V. specialize (B V). pose proof (auto_rendition_last params) as A. cbv zeta in A.
    destruct (smart_ladder_stable _ _ _ _ _ _ A) as (r' & L & S).
    unfold adjust_rendition in B |- *. rewrite V in B. rewrite V.
    rewrite bool_decide_eq_false_2 in B by done. rewrite !(bool_decide_eq_false_2 (Encode = Copy)) by done.
    replace (plan_video (stream_plan (restarted _))) with Encode by (symmetry; exact V).
    rewrite bool_decide_eq_false_2 by done. cbn [name width height video_bitrate] in B |- *.
    pose proof (auto_rendition_last (restarted (mk_rendition (name (auto_rendition params))
      (width (auto_rendition params)) (height (auto_rendition params))
      (video_bitrate (auto_rendition params))
      (unwrap_or (target_audio_bitrate params) (audio_bitrate (auto_rendition params)))
      (unwrap_or (target_audio_channels params) (audio_channels (auto_rendition params)))))) as A'.
    cbv zeta in A'. cbn [restarted restart_params new_session target_resolution target_bitrate
      source_video_resolution s_source_video_resolution s_target_video_resolution s_target_bitrate
      unwrap_or width height video_bitrate fst snd] in A'.
    rewrite (proj2 (Z.ltb_lt 0 _) B), L in A'. injection A' as A'. rewrite <- A'. exact S.
  - intros V. apply adjust_audio; fields; rewrite V; by rewrite bool_decide_eq_true_2.
Qed.

Lemma same_encoding_refl (plan : Plan) (r : TranscodeRendition) : same_encoding plan r r.
Proof. by split. Qed.

(** A compatible session is restarted with its very parameters. *)
Lemma restarted_compatible (r : TranscodeRendition) :
  output_profile params = Some CompatibleSdr -> session_rendition params = Some (Ok r) ->
  restarted r = with_seek params position_ms.
Proof.
  intros P. unfold session_rendition, rendition. rewrite P.
  destruct (validate CompatibleSdr params) as [[]|e] eqn:V; [|done].
  destruct (compatible_validated params V) as (w & h & b & ab & ac & R & B & AB & AC & _ & PV & PA &
    TV & TA & HW & F).
  rewrite bool_decide_eq_false_2, R, B, AB, AC by done. intros [= <-].
  unfold adjust_rendition. rewrite PV, AB, AC. rewrite bool_decide_eq_false_2 by done.
  cbn [unwrap_or name width height video_bitrate].
  unfold restarted, restart_params, new_session, with_seek, effective_video_codec,
    effective_audio_codec, session_hw_accel. fields. cbn [width height video_bitrate audio_bitrate audio_channels].
  rewrite PV, PA, TV, TA, HW, R, B, AB, AC. dk_decide. cbn [unwrap_or].
  rewrite (proj2 (Z.ltb_lt 0 b)); [done|]. destruct_and!. unfold VIDEO_MIN_BITRATE in *. lia.
Qed.

(** The checks of the copy profile that a restart passes again. *)
Lemma source_copy_restarted (r : TranscodeRendition) :
  output_profile params = Some SourceCopySdr -> session_rendition params = Some (Ok r) ->
  source_copy_validate (restarted r) = Ok tt /\ plan_video (stream_plan params) = Copy.
Proof.
  intros P. unfold session_rendition, rendition. rewrite P.
  destruct (validate SourceCopySdr params) as [[]|e] eqn:V; [|done].
  rewrite bool_decide_eq_true_2 by done. intros [= <-]. revert V. unfold validate.
  rewrite bool_decide_eq_true_2 by done. unfold source_copy_validate at 1.
  do 2 (dk_case; [done|]). dk_case; [|done]. intros _. dk_bool.
  repeat match goal with H : bool_decide _ = true |- _ => apply bool_decide_eq_true in H end.
  split; [|done]. unfold source_copy_validate, effective_video_codec, effective_audio_codec,
    session_hw_accel, adjust_rendition, source_copy_rendition, audio_target_bounded in *. fields.
  unfold effective_video_codec, effective_audio_codec, session_hw_accel.
  cbn [width height audio_bitrate audio_channels video_bitrate].
  repeat match goal with H : _ params = _ |- _ => rewrite H; clear H end.
  match goal with H : plan_video _ = _ |- _ => rewrite H end.
  match goal with H : one_of _ _ = true |- _ => rewrite H end.
  repeat match goal with H : _ <> 0 |- _ => rewrite (proj2 (Z.eqb_neq _ _) H); clear H end.
  destruct (source_video_resolution params) as [sw sh]. dk_decide. cbn [fst snd negb orb is_some_and].
  rewrite bool_decide_eq_true_2 by done. rewrite String.eqb_refl. cbn [negb orb].
  destruct (plan_audio (stream_plan params)); dk_decide; dk_bool; cbn [unwrap_or is_some_b negb andb].
  - match goal with H : String.eqb _ _ = true |- _ => rewrite H end. done.
  - match goal with H : bool_decide _ = true |- _ => apply bool_decide_eq_true in H; rewrite H end.
    destruct (target_audio_channels params), (target_audio_bitrate params); try done.
    cbn [unwrap_or is_some_and] in *. dk_decide.
    repeat match goal with H : between _ _ _ = true |- _ => rewrite H; clear H end. done.
Qed.

Lemma restart_profiled (profile : OutputProfile) (r : TranscodeRendition) :
  output_profile params = Some profile -> session_rendition params = Some (Ok r) ->
  exists r', session_rendition (restarted r) = Some (Ok r') /\ same_encoding (stream_plan params) r r'.
Proof.
  intros P R. destruct profile.
  - exists r. split; [|apply same_encoding_refl]. rewrite restarted_compatible by done. exact R.
  - destruct (source_copy_restarted r P R) as [V PV].
    unfold session_rendition at 1. replace (output_profile (restarted r)) with (Some SourceCopySdr)
      by (symmetry; exact P).
    unfold rendition, validate. rewrite bool_decide_eq_true_2 by done. rewrite V.
    eexists. split; [reflexivity|]. split; [by rewrite PV|].
    intros PA. apply adjust_audio; fields; rewrite PA; by rewrite bool_decide_eq_true_2.
Qed.

(** a restarted session runs the command it was started with: for a session
    started with a rendition (of a positive bit rate where video is encoded),
    the parameters it is restarted with give a rendition again, and a command
    that differs from the original one in the position only, whatever hardware
    has been detected since. *)
Theorem restart_runs_same_command (r : TranscodeRendition) :
  session_rendition params = Some (Ok r) ->
  (plan_video (stream_plan params) = Encode -> 0 < video_bitrate r) ->
  exists r', session_rendition (restarted r) = Some (Ok r') /\
    session_args config cpu detected' (restarted r) data_dir session_id' r' =
    session_args config cpu detected (with_seek params position_ms) data_dir session_id' r.
Proof.
  intros R B. destruct (output_profile params) as [profile|] eqn:P.
  - destruct (restart_profiled profile r P R) as (r' & R' & S). exists r'.
    split; [done|]. by apply restart_args.
  - destruct (restart_auto r P R B) as (r' & R' & S). exists r'.
    split; [done|]. by apply restart_args.
Qed.

End Restart.

(** ** Witnesses *)

Definition sample_params (profile : option OutputProfile) : StartSessionParams :=
  mk_params "m" "u" "/media/It's.mkv" "h264" (1920, 1080) "aac" (Some 0) (Some 1)
    (mk_plan Encode Encode) profile (Some 2) (Some 128000) (Some 3) (Some 0) true (Some "h264"%string)
    (Some "aac"%string) (Some (1280, 720)) (Some 3500000) None (Some Software) 0.
Definition sample_transcoding : TranscodingConfig := mk_transcoding "h264" "aac" "/transcode" 4.

Lemma profile_rendition_bounds_example :
  rendition CompatibleSdr (sample_params (Some CompatibleSdr)) =
    Some (Ok (mk_rendition "compatible-sdr" 1280 720 3500000 128000 2)) /\ 1280 <= MAX_WIDTH.
Proof.
  assert (S : size_ok (target_resolution (sample_params (Some CompatibleSdr))))
    by (intros w h [= <- <-]; lia).
  assert (E : rendition CompatibleSdr (sample_params (Some CompatibleSdr)) =
    Some (Ok (mk_rendition "compatible-sdr" 1280 720 3500000 128000 2))) by (vm_compute; reflexivity).
  split; [exact E|].
  destruct (profile_rendition_bounds CompatibleSdr (sample_params (Some CompatibleSdr)) S)
    as (res & E' & _ & B).
  rewrite E in E'. injection E' as <-. destruct (B _ eq_refl eq_refl) as [[_ W] _]. exact W.
Defined.

Lemma restart_runs_same_command_example :
  exists r, session_rendition (sample_params None) = Some (Ok r) /\ width r = 1280 /\
  exists r', session_rendition (restarted sample_transcoding Nvenc (sample_params None) "/data" "s1" 0 60000 r)
    = Some (Ok r').
Proof.
  exists (mk_rendition "720p" 1280 720 3000000 128000 2).
  assert (E : session_rendition (sample_params None) = Some (Ok (mk_rendition "720p" 1280 720 3000000 128000 2)))
    by (vm_compute; reflexivity).
  split; [exact E|]. split; [reflexivity|].
  destruct (restart_runs_same_command sample_transcoding (mk_cpu None "frame") Nvenc Software
    (sample_params None) "/data" "s1" "s2" 0 60000 _ E ltac:(intros _; reflexivity)) as (r' & R & _).
  exists r'. exact R.
Defined.

End TranscodeProofs.
