(* ===== verification/Recovery.v ===== *)
(** * Supervision and recovery of transcoding sessions

    Models server/src/services/transcoding/failure.rs, progress.rs, watchdog.rs
    and the recovery budget of recovery.rs: what a failed process is classified
    as, the progress it reports, when it is given up, and which automatic
    restarts it may get. *)

From Stdlib Require Import Sorted.
From S2P Require Import Prelude F64 StreamPlan Transcode.
Import StreamPlan Transcode.

Module Recovery.

(** ** failure.rs *)

Inductive FailureClass : Type := Hardware | Decode | Container | Stalled | Unknown.

#[export] Instance failure_eq : EqDecision FailureClass.
Proof. solve_decision. Defined.

Record FailureHints := mk_hints { unsafe_to_retry : bool; hardware : bool; decode : bool; container : bool }.

Definition no_hints : FailureHints := mk_hints false false false false.

(** [line.chars().take(4096)]: a character of UTF-8 is its first byte and the
    continuation bytes (128 to 191) after it. *)
Definition continuation (c : ascii) : bool :=
  let n := nat_of_ascii c in ((128 <=? n) && (n <? 192))%nat.
Fixpoint take_chars (n : nat) (s : string) : string :=
  match s with
  | EmptyString => EmptyString
  | String c t =>
      if continuation c then String c (take_chars n t)
      else match n with O => EmptyString | S k => String c (take_chars k t) end
  end.

Definition unsafe_phrases : list string :=
  ["permission denied"; "operation not permitted"; "no space left"; "cannot allocate memory";
   "read-only file system"; "read-only filesystem"; "sandbox"; "bootstrap"; "error opening output";
   "error writing"]%string.
Definition hardware_phrases : list string :=
  ["cannot load libcuda"; "no nvenc capable devices"; "openencodesessionex failed";
   "failed to initialise vaapi"; "failed to initialize vaapi"; "device creation failed";
   "no device available for decoder"; "error initializing an internal mfx session";
   "cannot init cuda"; "could not dynamically load cuda"; "hwaccel initialisation returned error"]%string.
Definition container_phrases : list string :=
  ["moov atom not found"; "ebml header parsing failed"; "invalid packet size";
   "could not find codec parameters"]%string.
Definition decode_phrases : list string :=
  ["error while decoding"; "invalid nal unit"; "corrupt decoded frame";
   "invalid data found when processing input"]%string.

Definition says (phrases : list string) (line : string) : bool :=
  existsb (fun hint => Str.contains hint line) phrases.

Definition inspect (h : FailureHints) (line : string) : FailureHints :=
  let long := 4096 <=? Str.len line in
  let line := Str.lower (take_chars 4096 line) in
  mk_hints (unsafe_to_retry h || long || says unsafe_phrases line)
           (hardware h || says hardware_phrases line)
           (decode h || says decode_phrases line)
           (container h || says container_phrases line).

Definition classify (h : FailureHints) : FailureClass :=
  if unsafe_to_retry h then Unknown
  else if hardware h then Hardware
  else if container h then Container
  else if decode h then Decode
  else Unknown.

Definition blocks_recovery (h : FailureHints) : bool := unsafe_to_retry h.

(** ** progress.rs *)

Record ProgressParser := mk_parser { pending : ProgressUpdate; ended : bool }.

Definition new_parser : ProgressParser :=
  mk_parser (mk_progress 0 F64.zero F64.zero 0 0 F64.zero false) false.

Definition finite_number (value : string) : option F64.f64 :=
  let! number := F64.parse value in
  if F64.is_finite number && F64.leb F64.zero number then Some number else None.

(** [trim_end_matches]: drop every trailing occurrence of a non-empty suffix. *)
Fixpoint trim_end_with (fuel : nat) (suffix s : string) : string :=
  match fuel with
  | O => s
  | S f => match Str.strip_suffix suffix s with Some t => trim_end_with f suffix t | None => s end
  end.
Definition trim_end_matches (suffix s : string) : string := trim_end_with (String.length s) suffix s.

(** [if let Ok(v) = value.parse() { field = v }] *)
Definition set_field {A} (new : option A) (set : A -> ProgressUpdate) (old : ProgressUpdate) : ProgressUpdate :=
  match new with Some v => set v | None => old end.

Definition update (u : ProgressUpdate) (key value : string) : ProgressUpdate :=
  if String.eqb key "frame" then
    set_field (Dec.parse_unsigned u64_max value) (fun v =>
      mk_progress v (fps u) (bitrate_kbps u) (total_size u) (out_time_ms u) (speed u) (progress_complete u)) u
  else if String.eqb key "fps" then
    set_field (finite_number value) (fun v =>
      mk_progress (frame u) v (bitrate_kbps u) (total_size u) (out_time_ms u) (speed u) (progress_complete u)) u
  else if String.eqb key "bitrate" then
    set_field (finite_number (Str.trim (trim_end_matches "kbits/s" value))) (fun v =>
      mk_progress (frame u) (fps u) v (total_size u) (out_time_ms u) (speed u) (progress_complete u)) u
  else if String.eqb key "total_size" then
    set_field (Dec.parse_unsigned u64_max value) (fun v =>
      mk_progress (frame u) (fps u) (bitrate_kbps u) v (out_time_ms u) (speed u) (progress_complete u)) u
  else if String.eqb key "out_time_us" then
    set_field (Dec.parse_unsigned u64_max value) (fun v =>
      mk_progress (frame u) (fps u) (bitrate_kbps u) (total_size u) (v / 1000) (speed u) (progress_complete u)) u
  else if String.eqb key "speed" then
    set_field (finite_number (trim_end_matches "x" value)) (fun v =>
      mk_progress (frame u) (fps u) (bitrate_kbps u) (total_size u) (out_time_ms u) v (progress_complete u)) u
  else u.

Definition complete (b : bool) (u : ProgressUpdate) : ProgressUpdate :=
  mk_progress (frame u) (fps u) (bitrate_kbps u) (total_size u) (out_time_ms u) (speed u) b.

Definition push (p : ProgressParser) (line : string) : ProgressParser * option ProgressUpdate :=
  if ended p || (4096 <? Str.len line) then (p, None) else
  match Str.split_once "=" (Str.trim line) with
  | None => (p, None)
  | Some (key, value) =>
      let value := Str.trim value in
      if String.eqb key "progress" then
        if String.eqb value "continue" || String.eqb value "end" then
          let last := String.eqb value "end" in
          let u := complete last (pending p) in
          (mk_parser u last, Some u)
        else (p, None)
      else (mk_parser (update (pending p) key value) (ended p), None)
  end.

(** ** watchdog.rs *)

(** Instants and durations in milliseconds. *)
Record ProgressWatchdog := mk_watchdog { timeout : Z; advanced_at : Z; media_time_ms : Z }.

Definition NO_PROGRESS_TIMEOUT : Z := 30000.

Definition new_watchdog (timeout now : Z) : ProgressWatchdog := mk_watchdog timeout now 0.

Definition observe_at (w : ProgressWatchdog) (time now : Z) : ProgressWatchdog :=
  if media_time_ms w <? time then mk_watchdog (timeout w) now time else w.

Definition deadline (w : ProgressWatchdog) : Z := advanced_at w + timeout w.

(** The test of [expired] when its sleep ends. *)
Definition expired_at (w : ProgressWatchdog) (now : Z) : bool := deadline w <=? now.

(** ** recovery.rs *)

Definition MAX_RECOVERY_ATTEMPTS : Z := 2.
Definition DECODE_SKIP_MS : Z := 4000.

Record RecoveryBudget := mk_budget {
  attempts : Z; restarted_stall : bool; skipped_decode : bool; exhausted : bool }.

Record RecoveryAction := mk_action {
  position_ms : Z; software : bool; skipped_ms : Z; quality_reduced : bool }.

(** [i64::checked_add] *)
Definition checked_add_i64 (a b : Z) : option Z :=
  let s := a + b in if (i64_min <=? s) && (s <=? i64_max) then Some s else None.

(** Where the process failed, in the time of the source. *)
Definition failed_position (session : TranscodeSession) : option Z :=
  let! p := progress session in
  let! time := (if out_time_ms p <=? i64_max then Some (out_time_ms p) else None) in
  checked_add_i64 (source_start_ms session) time.

Definition failed_near_playhead (session : TranscodeSession) (confirmed : Z) : bool :=
  is_some_and (failed_position session)
    (fun position => (confirmed <=? position) && (position - confirmed <? DECODE_SKIP_MS)).

Definition exhaust (b : RecoveryBudget) : RecoveryBudget :=
  mk_budget (attempts b) (restarted_stall b) (skipped_decode b) true.
Definition spend (b : RecoveryBudget) : RecoveryBudget :=
  mk_budget (attempts b + 1) (restarted_stall b) (skipped_decode b) (exhausted b).

Definition reserve (budget : RecoveryBudget) (failure : FailureClass) (session : TranscodeSession)
    (confirmed_position_ms : Z) : RecoveryBudget * option RecoveryAction :=
  let b := mk_budget (Z.max (attempts budget) (s_recovery_attempts session)) (restarted_stall budget)
             (skipped_decode budget) (exhausted budget) in
  if exhausted b || (MAX_RECOVERY_ATTEMPTS <=? attempts b) || (confirmed_position_ms <? 0)
  then (exhaust b, None) else
  let is_software := bool_decide (hw_accel session = Software) in
  let refuse b := (exhaust b, None) in
  match failure with
  | Hardware =>
      if negb is_software then (spend b, Some (mk_action confirmed_position_ms true 0 false))
      else refuse b
  | Stalled =>
      if negb (restarted_stall b) then
        (spend (mk_budget (attempts b) true (skipped_decode b) (exhausted b)),
         Some (mk_action confirmed_position_ms is_software 0 false))
      else refuse b
  | Decode =>
      if negb (skipped_decode b) && bool_decide (plan_video (s_stream_plan session) = Encode) then
        if negb (failed_near_playhead session confirmed_position_ms) then refuse b else
        let b := mk_budget (attempts b) (restarted_stall b) true (exhausted b) in
        match checked_add_i64 confirmed_position_ms DECODE_SKIP_MS with
        | Some position =>
            if position <=? i32_max then
              (spend b, Some (mk_action position is_software DECODE_SKIP_MS false))
            else refuse b
        | None => refuse b
        end
      else refuse b
  | Container | Unknown => refuse b
  end.

(** [recover_session]: the parameters of the session that replaces a failed one. *)
Definition recovery_params (session : TranscodeSession) (action : RecoveryAction) (attempts : Z)
  : StartSessionParams :=
  let p := restart_params session (position_ms action) in
  mk_params (media_file_id p) (user_id p) (source_path p) (source_video_codec p)
    (source_video_resolution p) (source_audio_codec p) (source_video_stream_index p)
    (source_audio_stream_index p) (stream_plan p) (output_profile p) (target_audio_channels p)
    (target_audio_bitrate p) (subtitle_stream_index p) (subtitle_stream_ordinal p)
    (subtitle_burn_in p) (target_video_codec p) (target_audio_codec p) (target_resolution p)
    (target_bitrate p) (seek_position_ms p)
    (if software action then Some Software else hw_accel_override p) attempts.

(** ** The budget over a session's whole life *)

(** One failure: its class, the session that failed and the confirmed position. *)
Record Failure := mk_failure { class : FailureClass; failed : TranscodeSession; confirmed : Z }.

Fixpoint recoveries (b : RecoveryBudget) (l : list Failure) : RecoveryBudget * list RecoveryAction :=
  match l with
  | [] => (b, [])
  | f :: rest =>
      let '(b, a) := reserve b (class f) (failed f) (confirmed f) in
      let '(b, acts) := recoveries b rest in
      (b, match a with Some a => a :: acts | None => acts end)
  end.

Definition skipped (l : list RecoveryAction) : Z := fold_right (fun a n => skipped_ms a + n) 0 l.

(** What one reservation does to the budget. *)
Lemma reserve_step (b b' : RecoveryBudget) (c : FailureClass) (s : TranscodeSession) (p : Z)
    (a : option RecoveryAction) :
  reserve b c s p = (b', a) ->
  match a with
  | None => exhausted b' = true
  | Some act =>
      exhausted b = false /\ exhausted b' = false /\ attempts b < MAX_RECOVERY_ATTEMPTS /\
      attempts b + 1 <= attempts b' <= MAX_RECOVERY_ATTEMPTS /\
      0 <= p /\ position_ms act = p + skipped_ms act /\ position_ms act <= Z.max p i32_max /\
      (skipped_ms act = 0 /\ skipped_decode b' = skipped_decode b \/
       skipped_ms act = DECODE_SKIP_MS /\ skipped_decode b = false /\ skipped_decode b' = true)
  end.
Proof.
  unfold reserve, checked_add_i64. intros H.
  repeat match type of H with
  | context [match c with _ => _ end] => destruct c
  | context [if ?x then _ else _] => destruct x eqn:?
  end; injection H as <- <-; cbn; try done; dk_bool; cbn in *;
    unfold MAX_RECOVERY_ATTEMPTS, DECODE_SKIP_MS in *;
    (do 7 (split; [done || lia|])); tauto.
Qed.

(** whatever fails and whenever, a budget allows at most two automatic
    restarts, none after it is exhausted; together they skip at most four
    seconds of the source, and none goes back before the confirmed position. *)
Theorem recovery_is_bounded (l : list Failure) (b : RecoveryBudget) :
  0 <= attempts b ->
  let acts := (recoveries b l).2 in
  Z.of_nat (length acts) <= Z.max 0 (MAX_RECOVERY_ATTEMPTS - attempts b) /\
  0 <= skipped acts <= DECODE_SKIP_MS /\ (skipped_decode b = true -> skipped acts = 0) /\
  (exhausted b = true -> acts = []) /\
  Forall (fun a => 0 <= position_ms a) acts.
Proof.
  cbv zeta. revert b. induction l as [|f l IH]; intros b Hb; cbn [recoveries].
  { cbn. unfold DECODE_SKIP_MS. repeat split; try done; lia. }
  destruct (reserve b (class f) (failed f) (confirmed f)) as [b' a] eqn:R.
  pose proof (reserve_step _ _ _ _ _ _ R) as S.
  destruct a as [act|].
  - destruct S as (E & E' & A & A' & P & Q & _ & K).
    specialize (IH b' ltac:(lia)). destruct (recoveries b' l) as [b'' acts]. cbn [snd] in *.
    destruct IH as (L & [K1 K2] & KD & EX & F). cbn [length]. unfold skipped in *. cbn [fold_right].
    unfold DECODE_SKIP_MS, MAX_RECOVERY_ATTEMPTS in *.
    destruct K as [[K Ke]|(K & D & D')]; [rewrite <- Ke|specialize (KD D'); rewrite D].
    + rewrite K. split; [lia|]. split; [lia|]. split; [exact KD|]. split; [congruence|].
      constructor; [lia|done].
    + rewrite K, KD. split; [lia|]. split; [lia|]. split; [done|]. split; [congruence|].
      constructor; [lia|done].
  - assert (E : (recoveries b' l).2 = []).
    { clear - S IH R. assert (N : exists n, attempts b' <= Z.of_nat n) by (exists (Z.to_nat (attempts b')); lia).
      clear IH R. revert b' S N. induction l as [|g l IHl]; intros b' S N; [done|]. cbn [recoveries].
      destruct (reserve b' (class g) (failed g) (confirmed g)) as [c a] eqn:R.
      pose proof (reserve_step _ _ _ _ _ _ R) as S'. destruct a as [act|]; [by destruct S' as (? & _); congruence|].
      specialize (IHl c S' ltac:(exists (Z.to_nat (attempts c)); lia)).
      destruct (recoveries c l) as [c' acts]. exact IHl. }
    destruct (recoveries b' l) as [b'' acts]. cbn [snd] in *. subst acts. cbn.
    unfold DECODE_SKIP_MS. repeat split; try done; lia.
Qed.

(** ** Supervision *)

(** The class of a failure depends only on which lines the process wrote,
    not on their order: an overlong or unsafe line forbids a retry, then
    hardware, container and decode hints count in that order. *)
Theorem failure_class_of_lines (l : list string) :
  let seen phrases := existsb (fun s => says phrases (Str.lower (take_chars 4096 s))) l in
  classify (fold_left inspect l no_hints) =
    if existsb (fun s => 4096 <=? Str.len s) l || seen unsafe_phrases then Unknown
    else if seen hardware_phrases then Hardware
    else if seen container_phrases then Container
    else if seen decode_phrases then Decode
    else Unknown.
Proof.
  cbv zeta.
  assert (H : forall h, fold_left inspect l h = mk_hints
    (unsafe_to_retry h || (existsb (fun s => 4096 <=? Str.len s) l
       || existsb (fun s => says unsafe_phrases (Str.lower (take_chars 4096 s))) l))
    (hardware h || existsb (fun s => says hardware_phrases (Str.lower (take_chars 4096 s))) l)
    (decode h || existsb (fun s => says decode_phrases (Str.lower (take_chars 4096 s))) l)
    (container h || existsb (fun s => says container_phrases (Str.lower (take_chars 4096 s))) l)).
  { induction l as [|s l IH]; intros h; cbn [fold_left existsb].
    - rewrite !orb_false_r. by destruct h.
    - rewrite IH. unfold inspect. cbn [unsafe_to_retry hardware decode container].
      f_equal; rewrite <- ?orb_assoc; try done. f_equal.
      rewrite !orb_assoc. f_equal. rewrite <- !orb_assoc. f_equal. apply orb_comm. }
  rewrite H. unfold classify. cbn. done.
Qed.

(** What a progress report may hold. *)
Definition report_ok (u : ProgressUpdate) : Prop :=
  is_u64 (frame u) /\ is_u64 (total_size u) /\ 0 <= out_time_ms u <= u64_max / 1000 /\
  Forall (fun x => F64.is_finite x && F64.leb F64.zero x = true) [fps u; bitrate_kbps u; speed u].

Fixpoint reports (p : ProgressParser) (lines : list string) : list ProgressUpdate :=
  match lines with
  | [] => []
  | l :: rest =>
      let '(p, u) := push p l in
      match u with Some u => u :: reports p rest | None => reports p rest end
  end.

Lemma parse_unsigned_bound (max : Z) (s : string) (n : Z) :
  Dec.parse_unsigned max s = Some n -> 0 <= n <= max.
Proof.
  unfold Dec.parse_unsigned. intros H. repeat case_match; eauto with dk.
Qed.

Lemma finite_number_ok (s : string) (x : F64.f64) :
  finite_number s = Some x -> F64.is_finite x && F64.leb F64.zero x = true.
Proof.
  unfold finite_number. destruct (F64.parse s) as [y|]; [|done].
  destruct (_ && _) eqn:E; [|done]. by intros [= <-].
Qed.

Lemma update_ok (u : ProgressUpdate) (key value : string) :
  report_ok u -> report_ok (update u key value).
Proof.
  intros (Hf & Ht & Ho & Hx). apply Forall_cons in Hx as [X1 Hx].
  apply Forall_cons in Hx as [X2 Hx]. apply Forall_cons in Hx as [X3 _].
  assert (K : forall a b c d e f g, is_u64 a -> is_u64 d -> 0 <= e <= u64_max / 1000 ->
    F64.is_finite b && F64.leb F64.zero b = true -> F64.is_finite c && F64.leb F64.zero c = true ->
    F64.is_finite f && F64.leb F64.zero f = true -> report_ok (mk_progress a b c d e f g)).
  { intros. unfold report_ok. cbn [frame fps bitrate_kbps total_size out_time_ms speed].
    do 3 (split; [done|]). by repeat constructor. }
  unfold update, set_field.
  repeat match goal with |- context [String.eqb key ?k] => destruct (String.eqb key k) end;
    try match goal with |- context [match ?o with Some _ => _ | None => _ end] => destruct o eqn:E end;
    try (by unfold report_ok; do 3 (split; [done|]); repeat constructor).
  all: try (apply parse_unsigned_bound in E); try (apply finite_number_ok in E); apply K; try done.
  unfold u64_max in *. dk_lia.
Qed.

(** Every progress report the parser emits holds values in range (counters
    of 64 bits, finite rates that are not negative), whatever the process
    writes; only the last one is complete, and nothing follows it. *)
Theorem progress_reports_ok (lines : list string) :
  Forall report_ok (reports new_parser lines) /\
  forall l u, reports new_parser lines = l ++ [u] -> Forall (fun v => progress_complete v = false) l.
Proof.
  assert (H : forall p, report_ok (pending p) ->
    Forall report_ok (reports p lines) /\
    (ended p = true -> reports p lines = []) /\
    forall l u, reports p lines = l ++ [u] -> Forall (fun v => progress_complete v = false) l).
  { induction lines as [|line lines IH]; intros p Hp; cbn [reports].
    { split; [constructor|]. split; [done|]. intros [|? l] u E; [constructor|done]. }
    assert (Hpush : forall p' o, push p line = (p', o) -> report_ok (pending p') /\
      (ended p = true -> p' = p /\ o = None) /\
      match o with Some u => report_ok u /\ progress_complete u = ended p' | None => True end).
    { intros p' o. unfold push. destruct (ended p || _) eqn:E; [intros [= <- <-]; auto|].
      apply orb_false_iff in E as [E _]. rewrite E.
      destruct (Str.split_once "=" (Str.trim line)) as [[key value]|]; [|by intros [= <- <-]].
      destruct (String.eqb key "progress");
        [destruct (String.eqb (Str.trim value) "continue" || _); [|by intros [= <- <-]]|];
        intros [= <- <-]; cbn [pending ended progress_complete complete].
      - split; [exact Hp|]. split; [done|]. split; [exact Hp|done].
      - split; [by apply update_ok|done]. }
    destruct (push p line) as [p' o]. destruct (Hpush p' o eq_refl) as (Hp' & He & Ho).
    destruct (IH p' Hp') as (F & N & L). destruct o as [u|].
    - destruct Ho as [Hu Hc]. split; [by constructor|]. split.
      { intros E. by destruct (He E) as [_ ?]. }
      intros [|v l] w E; [constructor|]. injection E as <- E. constructor; [|by eapply L].
      rewrite Hc. destruct (ended p') eqn:E'; [|done]. rewrite (N eq_refl) in E. by destruct l.
    - split; [done|]. split; [|done]. intros E. destruct (He E) as [-> _]. auto. }
  destruct (H new_parser) as (F & _ & L); [|split; [exact F|exact L]].
  unfold report_ok, is_u64, u64_max. cbn -[Z.div].
  split; [lia|]. split; [lia|]. split; [dk_lia|]. by repeat constructor.
Qed.

(** *** Watchdog *)

(** Observations in the order they are made: media time and instant. *)
Definition watch (w : ProgressWatchdog) (l : list (Z * Z)) : ProgressWatchdog :=
  fold_left (fun w o => observe_at w o.1 o.2) l w.

Definition best (start : Z) (l : list (Z * Z)) : Z := fold_left (fun m o => Z.max m o.1) l start.

Lemma watch_time (l : list (Z * Z)) (w : ProgressWatchdog) :
  media_time_ms (watch w l) = best (media_time_ms w) l /\ timeout (watch w l) = timeout w.
Proof.
  revert w. induction l as [|[t n] l IH]; intros w; [done|].
  change (watch w ((t, n) :: l)) with (watch (observe_at w t n) l).
  change (best (media_time_ms w) ((t, n) :: l)) with (best (Z.max (media_time_ms w) t) l).
  destruct (IH (observe_at w t n)) as [-> ->]. unfold observe_at.
  destruct (media_time_ms w <? t) eqn:E; dk_bool; cbn [media_time_ms timeout]; split; try done;
    f_equal; lia.
Qed.

(** the watchdog has expired exactly when the media time has not advanced
    for a whole timeout: every observation made since then was no later than
    what had been seen before it. *)
Theorem watchdog_expires_without_progress (l : list (Z * Z)) (duration created now : Z) :
  StronglySorted (fun o o' => o.2 <= o'.2) l -> Forall (fun o => created <= o.2) l ->
  expired_at (watch (new_watchdog duration created) l) now = true <->
  created + duration <= now /\
  forall before t at_ after, l = before ++ (t, at_) :: after -> now < at_ + duration -> t <= best 0 before.
Proof.
  intros Hs Hc. unfold expired_at, deadline. rewrite Z.leb_le.
  assert (H : advanced_at (watch (new_watchdog duration created) l) + duration <= now <->
    created + duration <= now /\
    forall before t at_ after, l = before ++ (t, at_) :: after -> now < at_ + duration -> t <= best 0 before).
  2:{ destruct (watch_time l (new_watchdog duration created)) as [_ ->]. exact H. }
  induction l as [|[t n] l IH] using rev_ind.
  { cbn. split; [|tauto]. intros H. split; [done|]. by intros [|? ?]. }
  assert (Hl : StronglySorted (fun o o' => o.2 <= o'.2) l /\ Forall (fun o => o.2 <= n) l).
  { clear IH Hc. induction l as [|o l IH]; [split; constructor|]. inv Hs. destruct IH as [? ?]; [done|].
    match goal with F : Forall _ (_ ++ _) |- _ => apply Forall_app in F as [? F]; inv F end.
    split; constructor; done. }
  destruct Hl as [Hs' Hn]. apply Forall_app in Hc as [Hc Hcn]. inv Hcn. cbn [snd] in *.
  specialize (IH Hs' Hc). replace (watch (new_watchdog duration created) (l ++ [(t, n)]))
    with (observe_at (watch (new_watchdog duration created) l) t n)
    by (unfold watch; by rewrite fold_left_app).
  destruct (watch_time l (new_watchdog duration created)) as [Hm _].
  unfold observe_at. rewrite Hm. cbn [media_time_ms new_watchdog].
  destruct (best 0 l <? t) eqn:E; dk_bool; cbn [advanced_at].
  - split.
    + intros Hd. split; [lia|]. intros before t' n' after Hsp Hnow. exfalso.
      assert (I : In (t', n') (l ++ [(t, n)])) by (rewrite Hsp; apply in_app_iff; right; by left).
      apply in_app_iff in I as [I|[[= <- <-]|[]]]; [|lia].
      rewrite Forall_forall in Hn. apply list_elem_of_In, Hn in I. cbn in I. lia.
    + intros [_ Hd]. destruct (Z.le_gt_cases (n + duration) now) as [|G]; [done|].
      specialize (Hd l t n [] eq_refl ltac:(lia)). lia.
  - rewrite IH. split; intros [Hc' Hd]; (split; [done|]); intros before t' n' after Hsp Hnow.
    + destruct after as [|x after _] using rev_ind.
      * apply app_inj_tail in Hsp as [-> [= <- <-]]. lia.
      * rewrite app_comm_cons, app_assoc in Hsp. apply app_inj_tail in Hsp as [-> _].
        by eapply Hd.
    + eapply (Hd before t' n' (after ++ [(t, n)])); [|done]. by rewrite Hsp, <- app_assoc.
Qed.

(** ** Witnesses *)

Definition sample_session (hw : HwAccelMethod) : TranscodeSession :=
  mk_session "s" "m" "u" 0 "/m.mkv" "h264" (1920, 1080) "aac" None None (mk_plan Encode Encode) None
    (Some 2) (Some 128000) None None false "h264" (1280, 720) "aac" 3000000 hw 60000 0 "720p" "/d" "/d/m"
    0 0 (Some (mk_progress 100 F64.zero F64.zero 0 1000 F64.zero false)) false false.

Definition sample_failures : list Failure :=
  [mk_failure Hardware (sample_session Nvenc) 61000; mk_failure Decode (sample_session Software) 60500;
   mk_failure Stalled (sample_session Software) 70000].

Lemma recovery_is_bounded_example :
  (recoveries (mk_budget 0 false false false) sample_failures).2 =
    [mk_action 61000 true 0 false; mk_action 64500 true 4000 false] /\
  skipped (recoveries (mk_budget 0 false false false) sample_failures).2 <= DECODE_SKIP_MS.
Proof.
  split; [vm_compute; reflexivity|].
  destruct (recovery_is_bounded sample_failures (mk_budget 0 false false false) ltac:(cbn; lia))
    as (_ & [_ K] & _). exact K.
Defined.

Lemma watchdog_expires_without_progress_example :
  expired_at (watch (new_watchdog 30000 0) [(10, 1000); (10, 20000)]) 31000 = true /\
  10 <= best 0 [(10, 1000)].
Proof.
  assert (E : expired_at (watch (new_watchdog 30000 0) [(10, 1000); (10, 20000)]) 31000 = true)
    by (vm_compute; reflexivity).
  split; [exact E|].
  destruct (watchdog_expires_without_progress [(10, 1000); (10, 20000)] 30000 0 31000) as [H _].
  - constructor; [constructor; [constructor|constructor]|constructor; [cbn; lia|constructor]].
  - constructor; [cbn; lia|constructor; [cbn; lia|constructor]].
  - destruct (H E) as [_ K]. exact (K [(10, 1000)] 10 20000 [] eq_refl ltac:(lia)).
Defined.

Example classified : map (fun l => classify (fold_left inspect l no_hints))
  [["Error while decoding stream"; "Cannot load libcuda.so.1"]; ["x: No space left on device"];
   ["moov atom not found"]]%string = [Hardware; Unknown; Container].
Proof. vm_compute. reflexivity. Qed.

End Recovery.
