(* ===== verification/Readiness.v ===== *)
(** * Readiness of a started stream

    Models server/src/services/transcoding/readiness_mp4.rs,
    readiness_playlist.rs and the probe of readiness.rs: the checks that decide
    when the playlist, the initialization section and the first segment a
    transcoder has written so far may be announced to a client.

    A file is the bytes found by reading and the length its metadata gave before;
    [stable] tells whether the metadata is the same afterwards. *)

From S2P Require Import Prelude F64 BitReader CodecBytes CodecProofs.
Import BitReader CodecBytes CodecProofs.

Module Readiness.

(** The errors, by their message. *)
Inductive PlaybackError : Type := FfmpegFailed (message : string) | FfmpegCrashed.

(** ** readiness_mp4.rs *)

Inductive Asset : Type := Initialization | Fragment.

Record Seen := mk_seen { file_type : bool; movie : bool; fragment : bool; media : bool }.

Definition be64 (b : Bytes) (o : Z) : Z := be32 b o * 4294967296 + be32 b (o + 4).

(** The header of the box at an offset: its type, its size and the size of the
    header; [None] where the code returns [Ok(false)]. *)
Definition header (b : Bytes) (len offset : Z) : option (Bytes * Z * Z) :=
  ensure (negb (len - offset <? 8)) in
  let! head := slice b offset (offset + 8) in
  let! (size, header_size) :=
    (if be32 head 0 =? 1 then
       ensure (negb (len - offset <? 16)) in
       let! rest := slice b (offset + 8) (offset + 16) in
       Some (be64 rest 0, 16)
     else Some (be32 head 0, 8)) in
  ensure (negb ((size <? header_size) || is_none_or (checked_add64 offset size) (fun last => len <? last))) in
  let! kind := slice head 4 8 in
  Some (kind, size, header_size).

Definition ftyp : Bytes := [102; 116; 121; 112].
Definition moov : Bytes := [109; 111; 111; 118].
Definition moof : Bytes := [109; 111; 111; 102].
Definition mdat : Bytes := [109; 100; 97; 116].

Definition is_initialization (a : Asset) : bool := match a with Initialization => true | _ => false end.

(** The [match] on the type of a box. *)
Definition visit (asset : Asset) (kind : Bytes) (size header_size : Z) (s : Seen) : option Seen :=
  if bool_decide (kind = ftyp) then
    ensure (negb (negb (is_initialization asset) || file_type s || movie s || (size <? header_size + 8))) in
    Some (mk_seen true (movie s) (fragment s) (media s))
  else if bool_decide (kind = moov) then
    ensure (negb (negb (is_initialization asset) || negb (file_type s) || movie s || (size <=? header_size))) in
    Some (mk_seen (file_type s) true (fragment s) (media s))
  else if bool_decide (kind = moof) then
    ensure (negb (is_initialization asset || (fragment s && negb (media s)) || (size <=? header_size))) in
    Some (mk_seen (file_type s) (movie s) true false)
  else if bool_decide (kind = mdat) then
    ensure (negb (is_initialization asset || negb (fragment s) || (size <=? header_size))) in
    Some (mk_seen (file_type s) (movie s) (fragment s) true)
  else Some s.

(** The loop; [turns] is 256 less the number of boxes, so that none remains
    when [boxes >= 256]. *)
Fixpoint boxes_loop (turns : nat) (asset : Asset) (b : Bytes) (len offset : Z) (s : Seen) : option Seen :=
  if offset <? len then
    match turns with
    | O => None
    | S turns =>
        let! (kind, size, header_size) := header b len offset in
        let! s := visit asset kind size header_size s in
        boxes_loop turns asset b len (offset + size) s
    end
  else Some s.

Definition limit (asset : Asset) : Z :=
  match asset with Initialization => 16 * 1024 * 1024 | Fragment => 512 * 1024 * 1024 end.

Definition complete (asset : Asset) (b : Bytes) (len : Z) (stable : bool) : result bool PlaybackError :=
  if len =? 0 then Ok false
  else if limit asset <? len then Err (FfmpegFailed "oversized HLS startup asset")
  else match boxes_loop 256 asset b len 0 (mk_seen false false false false) with
  | None => Ok false
  | Some s =>
      Ok (stable && match asset with
                    | Initialization => file_type s && movie s
                    | Fragment => fragment s && media s
                    end)
  end.

(** ** readiness_playlist.rs *)

Inductive Publication : Type := Vod | Event.

Record References := mk_references {
  initialization : string; segment : string; publication : Publication; r_ended : bool }.

Definition invalid {A} (message : string) : result A PlaybackError := Err (FfmpegFailed message).

Definition quote : string := String "034"%char EmptyString.
Definition MAP : string := "#EXT-X-MAP:URI=" +:+ quote.

Definition segment_name (filename : string) : bool :=
  (Str.len filename <=? 64) &&
  is_some_and (match Str.strip_prefix "seg_" filename with
               | Some value => Str.strip_suffix ".m4s" value
               | None => None
               end)
    (fun number => negb (Str.is_empty number) && Str.all Str.is_digit number).

(** The variables of the loop. *)
Record Playlist := mk_playlist {
  p_initialization : option string; first_segment : option string; p_publication : option Publication;
  target_duration : bool; segment_pending : bool; ended : bool }.

Definition publication_of (value : string) : option Publication :=
  if String.eqb value "VOD" then Some Vod else if String.eqb value "EVENT" then Some Event else None.

Definition duration_ok (value : string) : bool :=
  is_some_and (match Str.split_once "," value with
               | Some (duration, _) => F64.parse duration
               | None => None
               end)
    (fun duration => F64.is_finite duration && F64.ltb F64.zero duration).

(** One turn of the loop: an error, [Ok(None)] returned at once, or on. *)
Definition read_line (line : string) (p : Playlist) : result (option Playlist) PlaybackError :=
  if 1024 <? Str.len line then invalid "oversized HLS startup playlist line"
  else match Str.strip_prefix "#EXT-X-PLAYLIST-TYPE:" line with
  | Some value =>
      match publication_of value with
      | None => invalid "unsupported HLS startup playlist type"
      | Some v =>
          if is_some_b (p_publication p) then invalid "duplicate HLS startup playlist type"
          else Ok (Some (mk_playlist (p_initialization p) (first_segment p) (Some v) (target_duration p)
                           (segment_pending p) (ended p)))
      end
  | None =>
  match Str.strip_prefix "#EXT-X-TARGETDURATION:" line with
  | Some value =>
      if negb (is_some_and (Dec.parse_unsigned u64_max value) (fun d => (0 <? d) && (d <=? 86400)))
         || target_duration p
      then invalid "invalid HLS startup target duration"
      else Ok (Some (mk_playlist (p_initialization p) (first_segment p) (p_publication p) true
                       (segment_pending p) (ended p)))
  | None =>
  if Str.starts_with "#EXT-X-MAP:" line then
    match match Str.strip_prefix MAP line with
          | Some value => match Str.strip_suffix quote value with
                          | Some value => if String.eqb value "init.mp4" then Some value else None
                          | None => None
                          end
          | None => None
          end with
    | None => invalid "unowned or unsupported HLS initialization reference"
    | Some filename =>
        if is_some_b (p_initialization p) then invalid "duplicate HLS startup initialization reference"
        else Ok (Some (mk_playlist (Some filename) (first_segment p) (p_publication p) (target_duration p)
                         (segment_pending p) (ended p)))
    end
  else
  match Str.strip_prefix "#EXTINF:" line with
  | Some value =>
      if ended p || segment_pending p || negb (duration_ok value)
      then invalid "invalid HLS startup segment duration"
      else Ok (Some (mk_playlist (p_initialization p) (first_segment p) (p_publication p) (target_duration p)
                       true (ended p)))
  | None =>
  if String.eqb line "#EXT-X-ENDLIST" then
    if ended p || segment_pending p then Ok None
    else Ok (Some (mk_playlist (p_initialization p) (first_segment p) (p_publication p) (target_duration p)
                     (segment_pending p) true))
  else if Str.contains "URI=" line || Str.starts_with "#EXT-X-STREAM-INF:" line
          || Str.starts_with "#EXT-X-BYTERANGE:" line
  then invalid "unsupported HLS startup resource reference"
  else if negb (Str.starts_with "#" line) then
    if negb (segment_pending p) || ended p || negb (segment_name line)
    then invalid "unowned or invalid HLS startup segment reference"
    else Ok (Some (mk_playlist (p_initialization p) (option_or (first_segment p) (Some line))
                     (p_publication p) (target_duration p) false (ended p)))
  else Ok (Some p)
  end end end.

Fixpoint read_lines (lines : list string) (p : Playlist) : result (option Playlist) PlaybackError :=
  match lines with
  | [] => Ok (Some p)
  | line :: lines =>
      let? next := read_line line p in
      match next with
      | Some p => read_lines lines p
      | None => Ok None
      end
  end.

(** [content.lines().map(str::trim).filter(|line| !line.is_empty())] *)
Definition playlist_lines (content : string) : list string :=
  List.filter (fun line => negb (Str.is_empty line)) (map Str.trim (Str.lines content)).

Definition ends_line (content : string) : bool :=
  Str.ends_with (String Str.lf EmptyString) content || Str.ends_with Str.cr_str content.

Definition no_playlist : Playlist := mk_playlist None None None false false false.

Definition parse (content : string) : result (option References) PlaybackError :=
  if negb (ends_line content) then Ok None
  else match playlist_lines content with
  | first :: lines =>
      if negb (String.eqb first "#EXTM3U") then invalid "invalid HLS startup playlist header"
      else
        let? read := read_lines lines no_playlist in
        Ok (let! p := read in
            ensure (negb (segment_pending p || negb (target_duration p))) in
            let! initialization := p_initialization p in
            let! segment := first_segment p in
            let! publication := p_publication p in
            ensure (negb (match publication with Vod => true | Event => false end && negb (ended p))) in
            Some (mk_references initialization segment publication (ended p)))
  | [] => invalid "invalid HLS startup playlist header"
  end.

(** ** readiness.rs *)

Inductive ExecutionState : Type := Running | Succeeded | Failed | Stalled | Cancelled.

(** What a file of the cache is found to be: its bytes, the length before they
    are read and whether the metadata is the same afterwards. *)
Record File := mk_file { content : Bytes; length_before : Z; is_stable : bool }.

(** What [symlink_metadata] and [canonicalize] say of a name, and the file opened
    there, if it is still there. *)
Record Entry := mk_entry { is_file : bool; is_symlink : bool; is_canonical : bool; opened : option File }.

(** The cache directory, by name: an entry, none, or an error of the file system. *)
Definition Cache := string -> result (option Entry) string.

(** [OwnedCache::open]: only the names the transcoder owns. *)
Definition owned_name (filename : string) : bool :=
  String.eqb filename "manifest.m3u8" || String.eqb filename "init.mp4" || segment_name filename.

Definition io_error (error : string) : PlaybackError :=
  FfmpegFailed ("HLS startup cache inspection failed: " +:+ error).

Definition open (cache : Cache) (filename : string) : result (option File) PlaybackError :=
  if negb (owned_name filename) then Err (FfmpegFailed "unowned HLS startup resource name")
  else match cache filename with
  | Err error => Err (io_error error)
  | Ok None => Ok None
  | Ok (Some metadata) =>
      if negb (is_file metadata) || is_symlink metadata then Err (FfmpegFailed "unowned HLS startup resource")
      else if negb (is_canonical metadata) then Err (FfmpegFailed "HLS startup resource escaped its cache")
      else Ok (opened metadata)
  end.

(** [mp4::complete] *)
Definition asset_complete (cache : Cache) (filename : string) (asset : Asset) : result bool PlaybackError :=
  let? file := open cache filename in
  match file with
  | None => Ok false
  | Some f => complete asset (content f) (length_before f) (is_stable f)
  end.

Definition MAX_PLAYLIST_BYTES : Z := 1048576.

(** [str::from_utf8] of the playlist is the parameter [from_utf8]. *)
Definition probe (from_utf8 : Bytes -> option string) (cache : Cache) (state : ExecutionState)
    : result bool PlaybackError :=
  let? file := open cache "manifest.m3u8" in
  match file with
  | None => Ok false
  | Some f =>
      if MAX_PLAYLIST_BYTES <? length_before f then Err (FfmpegFailed "oversized HLS startup playlist")
      else if MAX_PLAYLIST_BYTES <? blen (content f) then Err (FfmpegFailed "oversized HLS startup playlist")
      else if negb (is_stable f) then Ok false
      else
        let? text := ok_or (from_utf8 (content f)) (FfmpegFailed "invalid HLS startup playlist encoding") in
        let? references := parse text in
        match references with
        | None => Ok false
        | Some r =>
            if match publication r with Vod => true | Event => false end
               && (negb (match state with Succeeded => true | _ => false end) || negb (r_ended r))
            then Ok false
            else
              let? first := asset_complete cache (initialization r) Initialization in
              if first then asset_complete cache (segment r) Fragment else Ok false
        end
  end.

Definition require_healthy (state : ExecutionState) : result unit PlaybackError :=
  match state with
  | Running | Succeeded => Ok tt
  | Failed | Stalled => Err FfmpegCrashed
  | Cancelled => Err (FfmpegFailed "HLS startup observer cancelled")
  end.

(** One turn of [inspect_until_ready], with the state of the process before and
    after the probe: [None] to wait for the next one. *)
Definition inspect_turn (from_utf8 : Bytes -> option string) (cache : Cache) (before after : ExecutionState)
    : option (result unit PlaybackError) :=
  match require_healthy before with
  | Err e => Some (Err e)
  | Ok _ =>
      match probe from_utf8 cache before with
      | Err e => Some (Err e)
      | Ok playable =>
          match require_healthy after with
          | Err e => Some (Err e)
          | Ok _ =>
              if playable then Some (Ok tt)
              else match before with
                   | Succeeded => Some (Err (FfmpegFailed "FFmpeg completed without playable HLS assets"))
                   | _ => None
                   end
          end
      end
  end.

(** ** The files meant *)

(** A box of ISO/IEC 14496-12, with a 32-bit or a 64-bit size. *)
Record Box := mk_box { large : bool; kind : Bytes; payload : Bytes }.

Definition enc32 (n : Z) : Bytes :=
  [n / 16777216; n / 65536 mod 256; n / 256 mod 256; n mod 256].
Definition header_length (x : Box) : Z := if large x then 16 else 8.
Definition box_size (x : Box) : Z := header_length x + blen (payload x).
Definition enc_box (x : Box) : Bytes :=
  (if large x then enc32 1 ++ kind x ++ enc32 (box_size x / 4294967296) ++ enc32 (box_size x mod 4294967296)
   else enc32 (box_size x) ++ kind x) ++ payload x.

Definition box_ok (x : Box) : Prop :=
  blen (kind x) = 4 /\ bytes_ok (kind x) /\ bytes_ok (payload x) /\
  box_size x <= (if large x then u64_max else u32_max).

Definition relevant (k : Bytes) : bool :=
  bool_decide (k = ftyp) || bool_decide (k = moov) || bool_decide (k = moof) || bool_decide (k = mdat).

(** The payload of a box of a type that matters. *)
Definition filled (x : Box) : Prop :=
  (kind x = ftyp -> 8 <= blen (payload x)) /\
  (relevant (kind x) = true -> 1 <= blen (payload x)).

(** One or more movie fragments, each followed by its media data. *)
Inductive fragments : list Bytes -> Prop :=
| fragment_last n : fragments (moof :: replicate (S n) mdat)
| fragment_more n l : fragments l -> fragments (moof :: replicate (S n) mdat ++ l).

#[global] Instance filled_dec (x : Box) : Decision (filled x).
Proof. unfold filled. apply _. Defined.

Definition kinds (l : list Box) : list Bytes := List.filter relevant (map kind l).

Definition layout (asset : Asset) (l : list Box) : Prop :=
  match asset with
  | Initialization => kinds l = [ftyp; moov]
  | Fragment => fragments (kinds l)
  end.

(** ** Boxes and bytes *)

Fixpoint visit_all (asset : Asset) (l : list Box) (s : Seen) : option Seen :=
  match l with
  | [] => Some s
  | x :: l => let! s := visit asset (kind x) (box_size x) (header_length x) s in visit_all asset l s
  end.

Lemma be32_cons (w x y z : Z) (rest : Bytes) :
  be32 (w :: x :: y :: z :: rest) 0 = ((w * 256 + x) * 256 + y) * 256 + z.
Proof. reflexivity. Qed.

Lemma be64_cons (w x y z w' x' y' z' : Z) (rest : Bytes) :
  be64 (w :: x :: y :: z :: w' :: x' :: y' :: z' :: rest) 0 =
  be32 (w :: x :: y :: z :: []) 0 * 4294967296 + be32 (w' :: x' :: y' :: z' :: []) 0.
Proof. reflexivity. Qed.

Lemma be32_enc (n : Z) (rest : Bytes) : be32 (enc32 n ++ rest) 0 = n.
Proof. unfold enc32. cbn [app]. rewrite be32_cons. dk_lia. Qed.

Lemma be64_enc (n : Z) : be64 (enc32 (n / 4294967296) ++ enc32 (n mod 4294967296)) 0 = n.
Proof.
  unfold enc32 at 1 2. cbn [app]. rewrite be64_cons.
  pose proof (be32_enc (n / 4294967296) []) as A. pose proof (be32_enc (n mod 4294967296) []) as B.
  unfold enc32 in A, B. cbn [app] in A, B. rewrite A, B. dk_lia.
Qed.

Lemma enc32_be (w x y z : Z) :
  is_u8 w -> is_u8 x -> is_u8 y -> is_u8 z ->
  enc32 (be32 [w; x; y; z] 0) = [w; x; y; z] /\ 0 <= be32 [w; x; y; z] 0 <= u32_max.
Proof.
  unfold is_u8, u8_max, u32_max. intros Hw Hx Hy Hz. rewrite be32_cons. unfold enc32.
  split; [|lia]. set (n := _ + z).
  assert (n / 16777216 = w /\ n / 65536 mod 256 = x /\ n / 256 mod 256 = y /\ n mod 256 = z)
    as (-> & -> & -> & ->) by (unfold n; repeat split; dk_lia). done.
Qed.

Lemma enc32_bytes (n : Z) : 0 <= n <= u32_max -> bytes_ok (enc32 n).
Proof.
  unfold u32_max. intros H. unfold enc32, bytes_ok, is_u8, u8_max. repeat constructor; dk_lia.
Qed.

Lemma blen4 (l : Bytes) : blen l = 4 -> exists w x y z, l = [w; x; y; z].
Proof.
  unfold blen. destruct l as [|w [|x [|y [|z [|]]]]]; cbn [length]; try lia. eauto.
Qed.

Lemma blen8 (l : Bytes) : blen l = 8 -> exists p q, l = p ++ q /\ blen p = 4 /\ blen q = 4.
Proof.
  intros H. exists (take 4 l), (drop 4 l). rewrite take_drop. unfold blen in *.
  rewrite length_take, length_drop. split; [done|lia].
Qed.

(** The header of an encoded box is read back. *)
Lemma header_complete (b : Bytes) (x : Box) (post : Bytes) (o : Z) :
  box_ok x -> 0 <= o <= blen b -> blen b <= u64_max -> drop (Z.to_nat o) b = enc_box x ++ post ->
  header b (blen b) o = Some (kind x, box_size x, header_length x).
Proof.
  intros (K & _ & _ & S) Ho Hu Hd. destruct (blen4 _ K) as (k1 & k2 & k3 & k4 & Ek).
  pose proof (blen_nonneg (payload x)) as Hp. pose proof (drop_bound _ _ _ _ Ho Hd) as Hb.
  assert (Hs : blen (enc_box x) = box_size x).
  { unfold enc_box, box_size, header_length. rewrite Ek. destruct (large x);
      unfold blen; rewrite !length_app; cbn [length enc32]; lia. }
  rewrite Hs in Hb. unfold header. unfold enc_box in Hd. rewrite Ek in *.
  assert (H8 : 8 <= box_size x) by (unfold box_size, header_length; destruct (large x); lia).
  rewrite (proj2 (Z.ltb_ge (blen b - o) 8)) by lia. cbn [negb].
  unfold box_size, header_length in *. destruct (large x); rewrite <- !app_assoc in Hd.
  - assert (D8 : drop (Z.to_nat o) b = (enc32 1 ++ [k1; k2; k3; k4]) ++
        (enc32 ((16 + blen (payload x)) / 4294967296) ++ enc32 ((16 + blen (payload x)) mod 4294967296)) ++
        payload x ++ post) by (by rewrite Hd, <- !app_assoc).
    rewrite (slice_at b _ _ o (o + 8) Ho D8 eq_refl), be32_enc. change (1 =? 1) with true.
    rewrite (proj2 (Z.ltb_ge (blen b - o) 16)) by lia. cbn [negb].
    pose proof (drop_app_at _ _ _ _ (proj1 Ho) D8) as D16. change (o + blen _) with (o + 8) in D16.
    replace (o + 16) with (o + 8 + 8) by lia.
    rewrite (slice_at b _ _ (o + 8) (o + 8 + 8) ltac:(lia) D16 eq_refl), be64_enc.
    cbv beta iota. rewrite (proj2 (Z.ltb_ge _ 16)) by lia. unfold checked_add64.
    rewrite (proj2 (Z.leb_le _ u64_max)) by lia. cbn [is_none_or orb].
    rewrite (proj2 (Z.ltb_ge _ _)) by lia. done.
  - rewrite (slice_at b (enc32 (8 + blen (payload x)) ++ [k1; k2; k3; k4]) (payload x ++ post) o (o + 8) Ho);
      [|by rewrite Hd, <- app_assoc|done]. rewrite be32_enc.
    rewrite (proj2 (Z.eqb_neq _ 1)) by lia. rewrite (proj2 (Z.ltb_ge _ 8)) by lia. unfold checked_add64.
    rewrite (proj2 (Z.leb_le _ u64_max)) by lia. cbn [is_none_or orb].
    rewrite (proj2 (Z.ltb_ge _ _)) by lia. done.
Qed.

(** The bytes between two offsets, and what follows. *)
Lemma drop_split (b : Bytes) (o e : Z) :
  0 <= o <= e -> e <= blen b -> exists m, drop (Z.to_nat o) b = m ++ drop (Z.to_nat e) b /\ blen m = e - o.
Proof.
  intros Ho He. assert (S : exists m, slice b o e = Some m).
  { unfold slice. rewrite (proj2 (Z.leb_le o e)), (proj2 (Z.leb_le e (blen b))) by lia. eauto. }
  destruct S as [m S]. destruct (slice_inv b m o e ltac:(lia) S) as (D & L & _). eauto.
Qed.

Lemma enc32_quad (p : Bytes) : bytes_ok p -> blen p = 4 -> enc32 (be32 p 0) = p /\ 0 <= be32 p 0 <= u32_max.
Proof.
  intros Hp L. destruct (blen4 p L) as (w & x & y & z & ->). unfold bytes_ok in Hp.
  rewrite !Forall_cons in Hp. destruct Hp as (? & ? & ? & ? & _). by apply enc32_be.
Qed.

Lemma be32_app (p q : Bytes) : blen p = 4 -> be32 (p ++ q) 0 = be32 p 0.
Proof. intros L. by destruct (blen4 p L) as (w & x & y & z & ->). Qed.

Lemma be64_app (p q : Bytes) :
  blen p = 4 -> blen q = 4 -> be64 (p ++ q) 0 = be32 p 0 * 4294967296 + be32 q 0.
Proof.
  intros L M. destruct (blen4 p L) as (w & x & y & z & ->), (blen4 q M) as (w' & x' & y' & z' & ->). done.
Qed.

Lemma kind_slice (p q : Bytes) : blen p = 4 -> blen q = 4 -> slice (p ++ q) 4 8 = Some q.
Proof.
  intros L M. destruct (blen4 p L) as (w & x & y & z & ->), (blen4 q M) as (w' & x' & y' & z' & ->). done.
Qed.

Lemma split64 (h l : Z) :
  0 <= l <= u32_max -> (h * 4294967296 + l) / 4294967296 = h /\ (h * 4294967296 + l) mod 4294967296 = l.
Proof. unfold u32_max. intros H. split; dk_lia. Qed.

(** An accepted header starts an encoded box. *)
Lemma header_sound (b : Bytes) (o size header_size : Z) (k : Bytes) :
  bytes_ok b -> 0 <= o -> header b (blen b) o = Some (k, size, header_size) ->
  exists x, box_ok x /\ kind x = k /\ box_size x = size /\ header_length x = header_size /\
    drop (Z.to_nat o) b = enc_box x ++ drop (Z.to_nat (o + size)) b /\ 8 <= size /\ o + size <= blen b.
Proof.
  intros Hb Ho H. unfold header in H. dk_ensure H E1.
  destruct (slice b o (o + 8)) as [head|] eqn:S1; [|done].
  destruct (slice_inv b head o (o + 8) Ho S1) as (D1 & L1 & B1).
  destruct (blen8 head ltac:(lia)) as (p & q & -> & Lp & Lq).
  pose proof (bytes_ok_drop b (Z.to_nat o) Hb) as O1. rewrite D1 in O1.
  apply Forall_app in O1 as [O1 O2]. apply Forall_app in O1 as [Op Oq].
  destruct (enc32_quad p Op Lp) as [Ep Bp]. rewrite be32_app in H by done.
  destruct (be32 p 0 =? 1) eqn:E2.
  - apply Z.eqb_eq in E2. destruct (blen b - o <? 16) eqn:E3; [done|]. cbn [negb] in H.
    destruct (slice b (o + 8) (o + 16)) as [rest|] eqn:S2; [|done].
    destruct (slice_inv b rest (o + 8) (o + 16) ltac:(lia) S2) as (D2 & L2 & B2).
    destruct (blen8 rest ltac:(lia)) as (r1 & r2 & -> & Lr1 & Lr2).
    rewrite D2 in O2. apply Forall_app in O2 as [O2 O3]. apply Forall_app in O2 as [Or1 Or2].
    destruct (enc32_quad r1 Or1 Lr1) as [Er1 Br1], (enc32_quad r2 Or2 Lr2) as [Er2 Br2].
    rewrite be64_app, kind_slice in H by done. cbv beta iota in H.
    set (n := be32 r1 0 * 4294967296 + be32 r2 0) in *.
    destruct (_ || _) eqn:E4 in H; [done|]. cbn [negb] in H. injection H as <- <- <-.
    unfold checked_add64 in E4. dk_bool. destruct (o + n <=? u64_max) eqn:E5; [|done]. cbn [is_none_or] in *.
    dk_bool. destruct (drop_split b (o + 16) (o + n) ltac:(lia) ltac:(lia)) as (m & D3 & Lm).
    exists (mk_box true q m). unfold box_ok, enc_box, box_size, header_length. cbn [large kind payload].
    rewrite Lm. replace (16 + (o + n - (o + 16))) with n by lia.
    destruct (split64 (be32 r1 0) (be32 r2 0) Br2) as [Q1 Q2]. fold n in Q1, Q2. rewrite Q1, Q2, Er1, Er2.
    rewrite <- E2, Ep. split; [|repeat split; try lia].
    + split; [done|]. split; [done|]. split; [|lia]. rewrite D3 in O3. by apply Forall_app in O3 as [O3 _].
    + rewrite D1, D2, D3, <- !app_assoc. done.
  - rewrite kind_slice in H by done. cbv beta iota in H. set (n := be32 p 0) in *.
    destruct (_ || _) eqn:E4 in H; [done|]. cbn [negb] in H. injection H as <- <- <-.
    unfold checked_add64 in E4. dk_bool. destruct (o + n <=? u64_max) eqn:E5; [|done]. cbn [is_none_or] in *.
    dk_bool. destruct (drop_split b (o + 8) (o + n) ltac:(lia) ltac:(lia)) as (m & D3 & Lm).
    exists (mk_box false q m). unfold box_ok, enc_box, box_size, header_length. cbn [large kind payload].
    rewrite Lm. replace (8 + (o + n - (o + 8))) with n by lia. rewrite Ep.
    split; [|repeat split; try lia].
    + split; [done|]. split; [done|]. split; [|lia]. rewrite D3 in O2. by apply Forall_app in O2 as [O2 _].
    + rewrite D1, D3, <- !app_assoc. done.
Qed.

Lemma enc_box_size (x : Box) : blen (kind x) = 4 -> blen (enc_box x) = box_size x.
Proof.
  intros K. destruct (blen4 _ K) as (k1 & k2 & k3 & k4 & E).
  unfold enc_box, box_size, header_length. rewrite E.
  destruct (large x); unfold blen; rewrite !length_app; cbn [length enc32]; lia.
Qed.

Lemma box_size_pos (x : Box) : 8 <= box_size x.
Proof.
  unfold box_size, header_length. pose proof (blen_nonneg (payload x)). destruct (large x); lia.
Qed.

Definition enc_boxes (l : list Box) : Bytes := concat (map enc_box l).

Lemma loop_sound (turns : nat) (asset : Asset) (b : Bytes) (o : Z) (s s' : Seen) :
  bytes_ok b -> 0 <= o <= blen b -> boxes_loop turns asset b (blen b) o s = Some s' ->
  exists l, drop (Z.to_nat o) b = enc_boxes l /\ (length l <= turns)%nat /\ Forall box_ok l /\
    visit_all asset l s = Some s'.
Proof.
  intros Hb. revert o s. induction turns as [|turns IH]; intros o s Ho; cbn [boxes_loop].
  - destruct (Z.ltb_spec o (blen b)); [done|]. intros [= <-]. exists [].
    rewrite drop_ge by (unfold blen in *; lia). by repeat split; try constructor.
  - destruct (Z.ltb_spec o (blen b)); [|intros [= <-]; exists [];
      rewrite drop_ge by (unfold blen in *; lia); split; [done|]; split; [cbn; lia|by split; constructor]].
    destruct (header b (blen b) o) as [[[k size] hs]|] eqn:E; [|done].
    destruct (header_sound b o size hs k Hb ltac:(lia) E) as (x & O & Ek & Es & Eh & D & L8 & Le).
    destruct (visit asset k size hs s) as [s1|] eqn:V; [|done]. intros H'.
    destruct (IH (o + size) s1 ltac:(lia) H') as (l & D' & L & F & A). exists (x :: l).
    split; [unfold enc_boxes in *; cbn; by rewrite <- D'|]. split; [cbn; lia|].
    split; [by constructor|]. cbn. by rewrite Ek, Es, Eh, V.
Qed.

Lemma loop_complete (turns : nat) (asset : Asset) (b : Bytes) (o : Z) (s s' : Seen) (l : list Box) :
  0 <= o <= blen b -> blen b <= u64_max -> drop (Z.to_nat o) b = enc_boxes l -> (length l <= turns)%nat ->
  Forall box_ok l -> visit_all asset l s = Some s' -> boxes_loop turns asset b (blen b) o s = Some s'.
Proof.
  intros Ho Hu. revert turns o s Ho. induction l as [|x l IH]; intros turns o s Ho D L F A.
  - assert (blen b <= o).
    { pose proof (blen_drop b o Ho) as W. rewrite D in W. change (blen (enc_boxes [])) with 0 in W. lia. }
    destruct turns; cbn [boxes_loop]; by rewrite (proj2 (Z.ltb_ge _ _)) by lia.
  - destruct turns as [|turns]; [cbn in L; lia|]. apply Forall_cons in F as [Fx F].
    change (enc_boxes (x :: l)) with (enc_box x ++ enc_boxes l) in D.
    pose proof (enc_box_size x (proj1 Fx)) as S. pose proof (box_size_pos x) as P.
    pose proof (drop_bound _ _ _ _ Ho D) as B. pose proof (drop_app_at _ _ _ _ (proj1 Ho) D) as D'.
    rewrite S in B, D'. cbn [boxes_loop]. rewrite (proj2 (Z.ltb_lt _ _)) by lia.
    rewrite (header_complete b x _ o Fx Ho Hu D). cbn [visit_all] in A.
    destruct (visit _ _ _ _ s) as [s1|]; [|done]. apply IH; try done; [lia|cbn in L; lia].
Qed.

(** ** The order of the boxes *)

(** A box that matters and is filled, or a box that does not matter. *)
Lemma visit_other (asset : Asset) (k : Bytes) (size hs : Z) (s : Seen) :
  relevant k = false -> visit asset k size hs s = Some s.
Proof.
  unfold relevant, visit. destruct (bool_decide (k = ftyp)); [done|].
  destruct (bool_decide (k = moov)); [done|]. destruct (bool_decide (k = moof)); [done|].
  by destruct (bool_decide (k = mdat)).
Qed.

Lemma relevant_cases (k : Bytes) : relevant k = true -> k = ftyp \/ k = moov \/ k = moof \/ k = mdat.
Proof.
  unfold relevant. rewrite !orb_true_iff, !bool_decide_eq_true. tauto.
Qed.

Lemma kinds_cons (x : Box) (l : list Box) :
  kinds (x :: l) = if relevant (kind x) then kind x :: kinds l else kinds l.
Proof. unfold kinds. cbn. by destruct (relevant (kind x)). Qed.

Definition init_rest (s : Seen) : list Bytes :=
  (if file_type s then [] else [ftyp]) ++ (if movie s then [] else [moov]).

Lemma filled_other (x : Box) : relevant (kind x) = false -> filled x.
Proof.
  intros R. split; [|congruence]. intros E. rewrite E in R. by vm_compute in R.
Qed.

Lemma filled_iff (x : Box) :
  relevant (kind x) = true ->
  filled x <-> (if bool_decide (kind x = ftyp) then 8 else 1) <= blen (payload x).
Proof.
  intros R. unfold filled. rewrite R. case_bool_decide as E.
  - split; [intros [A _]; auto|intros; split; intros; lia].
  - split; [intros [_ A]; auto|intros; split; [done|auto]].
Qed.

(** What [visit] does with a box that matters. *)
Definition take_box (ok : bool) (s : Seen) : option Seen := if ok then Some s else None.

Lemma visit_box (asset : Asset) (x : Box) (s : Seen) :
  relevant (kind x) = true ->
  visit asset (kind x) (box_size x) (header_length x) s =
  (if decide (filled x) then
     match asset with
     | Initialization =>
         if bool_decide (kind x = ftyp) then
           take_box (negb (file_type s || movie s)) (mk_seen true (movie s) (fragment s) (media s))
         else if bool_decide (kind x = moov) then
           take_box (file_type s && negb (movie s)) (mk_seen (file_type s) true (fragment s) (media s))
         else None
     | Fragment =>
         if bool_decide (kind x = moof) then
           take_box (negb (fragment s && negb (media s))) (mk_seen (file_type s) (movie s) true false)
         else if bool_decide (kind x = mdat) then
           take_box (fragment s) (mk_seen (file_type s) (movie s) (fragment s) true)
         else None
     end
   else None).
Proof.
  intros R. pose proof (filled_iff x R) as F. pose proof (blen_nonneg (payload x)).
  unfold visit, box_size. destruct (relevant_cases _ R) as [E|[E|[E|E]]]; rewrite E in *; clear R;
    revert F; dk_decide; intros F; cbn [is_initialization negb].
  - destruct (decide (filled x)) as [D|D]; rewrite F in D.
    + rewrite (proj2 (Z.ltb_ge _ _)) by lia. destruct asset; cbn; [|done].
      rewrite !orb_false_r. by destruct (file_type s), (movie s).
    + rewrite (proj2 (Z.ltb_lt _ _)) by lia. destruct asset; cbn; [|done]. by rewrite !orb_true_r.
  - destruct (decide (filled x)) as [D|D]; rewrite F in D.
    + rewrite (proj2 (Z.leb_gt _ _)) by lia. destruct asset; cbn; [|done].
      rewrite !orb_false_r. by destruct (file_type s), (movie s).
    + rewrite (proj2 (Z.leb_le _ _)) by lia. destruct asset; cbn; [|done]. by rewrite !orb_true_r.
  - destruct (decide (filled x)) as [D|D]; rewrite F in D.
    + rewrite (proj2 (Z.leb_gt _ _)) by lia. destruct asset; cbn; [done|].
      rewrite !orb_false_r. by destruct (fragment s), (media s).
    + rewrite (proj2 (Z.leb_le _ _)) by lia. destruct asset; cbn; [done|]. by rewrite !orb_true_r.
  - destruct (decide (filled x)) as [D|D]; rewrite F in D.
    + rewrite (proj2 (Z.leb_gt _ _)) by lia. destruct asset; cbn; [done|].
      rewrite !orb_false_r. by destruct (fragment s), (media s).
    + rewrite (proj2 (Z.leb_le _ _)) by lia. destruct asset; cbn; [done|]. by rewrite !orb_true_r.
Qed.

(** The initialization section read from a state that has not seen a movie
    without a file type. *)
Lemma visit_init (l : list Box) (s : Seen) :
  (movie s = true -> file_type s = true) ->
  (exists s', visit_all Initialization l s = Some s' /\ file_type s' && movie s' = true) <->
  kinds l = init_rest s /\ Forall filled l.
Proof.
  revert s. induction l as [|x l IH]; intros s M.
  { unfold init_rest. cbn. split.
    - intros (s' & [= <-] & [-> ->]%andb_true_iff). auto.
    - intros [E _]. exists s. by destruct (file_type s), (movie s). }
  rewrite kinds_cons, Forall_cons. cbn [visit_all]. destruct (relevant (kind x)) eqn:R.
  2:{ rewrite visit_other by done. rewrite IH by done. pose proof (filled_other x R). tauto. }
  rewrite visit_box by done. destruct (decide (filled x)) as [F|F]; [|split; [by intros (? & ? & _)|by intros (_ & ? & _)]].
  unfold init_rest in *. destruct (relevant_cases _ R) as [E|[E|[E|E]]]; rewrite E; dk_decide; unfold take_box;
    destruct (file_type s) eqn:T, (movie s) eqn:V; cbn; try (specialize (M eq_refl); discriminate M);
    try (split; [by intros (? & ? & _)|by intros (? & _)]).
  - rewrite IH by done. cbn. split; [intros [-> ?]|intros [[= ->] [_ ?]]]; auto.
  - rewrite IH by done. cbn. split; [intros [-> ?]|intros [[= ->] [_ ?]]]; auto.
Qed.

(** What may follow in a segment: any number of media data boxes, then further
    fragments or nothing. *)
Definition media_rest (n : nat) (l : list Bytes) : Prop :=
  exists k l', l = replicate (n + k) mdat ++ l' /\ (l' = [] \/ fragments l').

Definition fragment_rest (s : Seen) (l : list Bytes) : Prop :=
  if fragment s then media_rest (if media s then 0 else 1) l else fragments l.

Lemma fragments_inv (l : list Bytes) : fragments l <-> exists l', l = moof :: l' /\ media_rest 1 l'.
Proof.
  split.
  - intros [n|n l' H]; eexists; (split; [done|]); exists n; [exists []|exists l']; rewrite ?app_nil_r; auto.
  - intros (l' & -> & k & l2 & -> & [->|H]); [rewrite app_nil_r|]; by constructor.
Qed.

Lemma media_inv (n : nat) (l : list Bytes) :
  media_rest 0 l <-> l = [] \/ fragments l \/ exists l', l = mdat :: l' /\ media_rest 0 l'.
Proof.
  split.
  - intros (k & l' & -> & H). destruct k as [|k]; [tauto|]. right. right. eexists. split; [done|]. by exists k, l'.
  - intros [->|[H|(l' & -> & k & l2 & -> & H)]]; [by exists 0%nat, []; auto|exists 0%nat, l; auto|].
    by exists (S k), l2.
Qed.

Lemma media_one (l : list Bytes) : media_rest 1 l <-> exists l', l = mdat :: l' /\ media_rest 0 l'.
Proof.
  split.
  - intros (k & l' & -> & H). eexists. split; [done|]. by exists k, l'.
  - intros (l' & -> & k & l2 & -> & H). by exists k, l2.
Qed.

(** The segment read from a state that has seen no media without a fragment. *)
Lemma visit_fragment (l : list Box) (s : Seen) :
  (media s = true -> fragment s = true) ->
  (exists s', visit_all Fragment l s = Some s' /\ fragment s' && media s' = true) <->
  fragment_rest s (kinds l) /\ Forall filled l.
Proof.
  revert s. induction l as [|x l IH]; intros s M.
  { cbn. unfold fragment_rest. split.
    - intros (s' & [= <-] & [-> ->]%andb_true_iff). split; [|done]. apply media_inv; [exact 0%nat|auto].
    - intros [E _]. exists s. split; [done|]. destruct (fragment s).
      + destruct (media s); [done|]. apply media_one in E as (l' & E & _). done.
      + apply fragments_inv in E as (l' & E & _). done. }
  rewrite kinds_cons, Forall_cons. cbn [visit_all]. destruct (relevant (kind x)) eqn:R.
  2:{ rewrite visit_other by done. rewrite IH by done. pose proof (filled_other x R). tauto. }
  rewrite visit_box by done. destruct (decide (filled x)) as [F|F]; [|split; [by intros (? & ? & _)|by intros (_ & ? & _)]].
  assert (N : forall k (P : Prop), k <> moof -> k <> mdat ->
    fragment_rest s (k :: kinds l) /\ P -> False).
  { intros k P N1 N2 [Q _]. unfold fragment_rest in Q. destruct (fragment s); [destruct (media s)|].
    - apply (media_inv 0) in Q as [Q|[(l' & Q & _)%fragments_inv|(l' & Q & _)]]; congruence.
    - apply media_one in Q as (l' & Q & _). congruence.
    - apply fragments_inv in Q as (l' & Q & _). congruence. }
  destruct (relevant_cases _ R) as [E|[E|[E|E]]]; rewrite E; dk_decide; unfold take_box.
  - split; [by intros (? & ? & _)|by intros ?%N].
  - split; [by intros (? & ? & _)|by intros ?%N].
  - destruct (fragment s && negb (media s)) eqn:G; cbn [negb].
    + apply andb_true_iff in G as [G1 G2]. apply negb_true_iff in G2. unfold fragment_rest. rewrite G1, G2.
      split; [by intros (? & ? & _)|]. intros [(l' & Q & _)%media_one _]. done.
    + rewrite IH by done. unfold fragment_rest at 1. cbn [fragment media].
      assert (Q : fragment_rest s (moof :: kinds l) <-> media_rest 1 (kinds l)).
      { unfold fragment_rest. destruct (fragment s); [destruct (media s); [|done]|].
        - rewrite (media_inv 0), fragments_inv. split.
          + intros [?|[(l' & [= <-] & ?)|(l' & ? & _)]]; done.
          + intros ?. right. left. by exists (kinds l).
        - rewrite fragments_inv. split; [by intros (l' & [= <-] & ?)|intros; by exists (kinds l)]. }
      rewrite Q. tauto.
  - destruct (fragment s) eqn:G.
    + rewrite IH by done. unfold fragment_rest. cbn [fragment media]. rewrite G.
      assert (Q : media_rest (if media s then 0 else 1) (mdat :: kinds l) <-> media_rest 0 (kinds l)).
      { destruct (media s).
        - rewrite (media_inv 0 (mdat :: kinds l)). split.
          + intros [?|[(l' & ? & _)%fragments_inv|(l' & [= <-] & ?)]]; done.
          + intros ?. right. right. by exists (kinds l).
        - rewrite media_one. split; [by intros (l' & [= <-] & ?)|intros; by exists (kinds l)]. }
      rewrite Q. tauto.
    + split; [by intros (? & ? & _)|]. unfold fragment_rest. rewrite G.
      by intros [(l' & ? & _)%fragments_inv _].
Qed.

Definition nothing_seen : Seen := mk_seen false false false false.

Lemma visit_layout (asset : Asset) (l : list Box) :
  (exists s, visit_all asset l nothing_seen = Some s /\
     match asset with
     | Initialization => file_type s && movie s
     | Fragment => fragment s && media s
     end = true) <-> layout asset l /\ Forall filled l.
Proof. destruct asset; [by apply visit_init|by apply visit_fragment]. Qed.

(** A file the transcoder wrote is complete exactly when it is a sequence of
    at most 256 whole boxes within the size limit whose file type and movie boxes,
    or whose fragments each followed by media data, are there in that order, once
    where once is meant, none of them empty; no byte is left over. *)
Theorem asset_is_complete (asset : Asset) (b : Bytes) :
  bytes_ok b ->
  complete asset b (blen b) true = Ok true <->
  blen b <= limit asset /\ exists l, b = enc_boxes l /\ (length l <= 256)%nat /\ Forall box_ok l /\
    layout asset l /\ Forall filled l.
Proof.
  intros Hb. unfold complete.
  assert (E : (exists s, boxes_loop 256 asset b (blen b) 0 nothing_seen = Some s /\
      match asset with
      | Initialization => file_type s && movie s
      | Fragment => fragment s && media s
      end = true) -> exists l, b = enc_boxes l /\ (length l <= 256)%nat /\ Forall box_ok l /\
    layout asset l /\ Forall filled l).
  { intros (s & L & G). destruct (loop_sound _ _ _ 0 _ _ Hb ltac:(pose proof (blen_nonneg b); lia) L)
      as (l & D & N & F & A). exists l. do 3 (split; [done|]). apply visit_layout. eauto. }
  fold nothing_seen. destruct (Z.eqb_spec (blen b) 0) as [Z0|Z0].
  { split; [done|]. intros (_ & l & D & _ & _ & L & _). exfalso.
    destruct l as [|x l]; [destruct asset; [done|by apply fragments_inv in L as (? & ? & _)]|].
    change (enc_boxes (x :: l)) with (enc_box x ++ enc_boxes l) in D. rewrite D, blen_app in Z0. unfold enc_box in Z0.
    rewrite blen_app in Z0. pose proof (blen_nonneg (payload x)). pose proof (blen_nonneg (enc_boxes l)).
    destruct (large x); rewrite !blen_app in Z0; unfold blen in Z0; cbn [length enc32] in Z0; lia. }
  destruct (Z.ltb_spec (limit asset) (blen b)) as [L|L]; [split; [done|]; intros [? _]; lia|].
  split.
  - intros H. split; [done|]. apply E. destruct (boxes_loop _ _ _ _ _ _) as [s|]; [|done]. exists s.
    split; [done|]. by injection H.
  - intros (_ & l & D & N & F & V). apply visit_layout in V as (s & A & G).
    rewrite (loop_complete 256 asset b 0 nothing_seen s l); try done.
    + by rewrite G.
    + pose proof (blen_nonneg b). lia.
    + unfold u64_max, limit in *. destruct asset; lia.
Qed.

(** ** Playlists *)

Definition is_resource (line : string) : bool := negb (Str.starts_with "#" line).
Definition resources (lines : list string) : list string := List.filter is_resource lines.

(** What the loop has read is in its variables. *)
Definition read_ok (lines : list string) (p : Playlist) : Prop :=
  is_none_or (p_initialization p) (fun i => String.eqb i "init.mp4") = true /\
  Forall (fun line => segment_name line = true) (resources lines) /\ first_segment p = head (resources lines).

Lemma prefix_not_resource (q s t : string) :
  Str.strip_prefix (String "#" q) s = Some t -> is_resource s = false.
Proof.
  intros H. apply strip_prefix_eq in H as ->. done.
Qed.

Lemma resources_app (l : list string) (x : string) :
  resources (l ++ [x]) = resources l ++ (if is_resource x then [x] else []).
Proof. unfold resources. rewrite List.filter_app. cbn. by destruct (is_resource x). Qed.

Lemma read_line_ok (lines : list string) (line : string) (p p' : Playlist) :
  read_line line p = Ok (Some p') -> read_ok lines p -> read_ok (lines ++ [line]) p'.
Proof.
  intros H (I & R & F). unfold read_ok. rewrite resources_app. unfold read_line, invalid in H.
  destruct (1024 <? _); [done|].
  destruct (Str.strip_prefix "#EXT-X-PLAYLIST-TYPE:" line) as [v|] eqn:E1.
  { rewrite (prefix_not_resource _ _ _ E1), app_nil_r. destruct (publication_of v); [|done].
    destruct (is_some_b _); [done|]. by injection H as <-. }
  destruct (Str.strip_prefix "#EXT-X-TARGETDURATION:" line) as [v|] eqn:E2.
  { rewrite (prefix_not_resource _ _ _ E2), app_nil_r. destruct (_ || _); [done|]. by injection H as <-. }
  unfold Str.starts_with at 1 in H. destruct (Str.strip_prefix "#EXT-X-MAP:" line) as [v|] eqn:E3; cbn [is_some_b] in H.
  { rewrite (prefix_not_resource _ _ _ E3), app_nil_r.
    destruct (Str.strip_prefix MAP line) as [v1|]; [|done]. destruct (Str.strip_suffix quote v1) as [v2|]; [|done].
    destruct (String.eqb v2 "init.mp4") eqn:E; [|done]. destruct (is_some_b _); [done|]. by injection H as <-. }
  destruct (Str.strip_prefix "#EXTINF:" line) as [v|] eqn:E4.
  { rewrite (prefix_not_resource _ _ _ E4), app_nil_r. destruct (_ || _); [done|]. by injection H as <-. }
  destruct (String.eqb_spec line "#EXT-X-ENDLIST") as [->|_].
  { destruct (_ || _); [done|]. injection H as <-. cbn. by rewrite app_nil_r. }
  destruct (_ || _); [done|]. fold (is_resource line) in H. destruct (is_resource line) eqn:E5.
  2:{ injection H as <-. by rewrite app_nil_r. }
  destruct (segment_name line) eqn:E6; [|by rewrite orb_true_r in H]. destruct (_ || _); [done|].
  injection H as <-. cbn [p_initialization first_segment]. split; [done|]. rewrite Forall_app. split; [auto|].
  rewrite F. by destruct (resources lines).
Qed.

Lemma read_lines_ok (lines before : list string) (p p' : Playlist) :
  read_lines lines p = Ok (Some p') -> read_ok before p -> read_ok (before ++ lines) p'.
Proof.
  revert before p. induction lines as [|line lines IH]; intros before p; cbn.
  - intros [= <-]. by rewrite app_nil_r.
  - destruct (read_line line p) as [[p1|]|] eqn:E; [|done..]. intros H R.
    change (line :: lines) with ([line] ++ lines). rewrite app_assoc. eapply IH; [done|]. by eapply read_line_ok.
Qed.

(** An accepted playlist names the owned initialization section, and owned
    segments only, the first of which is announced. *)
Lemma parse_owned (text : string) (r : References) :
  parse text = Ok (Some r) ->
  initialization r = "init.mp4"%string /\ (publication r = Vod -> r_ended r = true) /\
  exists lines, playlist_lines text = "#EXTM3U"%string :: lines /\
    Forall (fun line => segment_name line = true) (resources lines) /\ head (resources lines) = Some (segment r).
Proof.
  unfold parse. destruct (negb (ends_line text)); [done|]. destruct (playlist_lines text) as [|first lines]; [done|].
  destruct (String.eqb_spec first "#EXTM3U") as [->|_]; [|done]. cbn [negb].
  destruct (read_lines lines no_playlist) as [[p|]|] eqn:E; [|done..].
  apply (read_lines_ok _ []) in E as (I & R & F); [|by repeat split; constructor].
  intros H. injection H as H. dk_ensure H H1. destruct (p_initialization p) as [i|]; [|done].
  destruct (first_segment p) as [g|]; [|done]. destruct (p_publication p) as [v|]; [|done]. dk_ensure H H2.
  injection H as <-. cbn [initialization publication r_ended segment is_none_or] in *.
  apply String.eqb_eq in I. split; [done|]. split.
  - intros ->. by destruct (ended p).
  - exists lines. split; [done|]. split; [exact R|]. symmetry. exact F.
Qed.

(** A segment name is no path. *)
Lemma segment_no_slash (name : string) : segment_name name = true -> Str.contains_char "/" name = false.
Proof.
  unfold segment_name. intros [_ H]%andb_true_iff.
  destruct (Str.strip_prefix "seg_" name) as [v|] eqn:E1; [|done]. apply strip_prefix_eq in E1 as ->.
  destruct (Str.strip_suffix ".m4s" v) as [n|] eqn:E2; [|done]. apply strip_suffix_eq in E2 as ->.
  cbn [is_some_and] in H. apply andb_true_iff in H as [_ H]. cbn. clear -H.
  induction n as [|c n IH]; [done|]. cbn [Str.all] in H. apply andb_true_iff in H as [Hc H].
  cbn [String.append Str.contains_char]. rewrite (IH H), orb_false_r. destruct (Ascii.eqb_spec "/" c) as [<-|]; done.
Qed.

(** The files the cache gives hold bytes, and when nothing changed meanwhile the
    length given before is the number of bytes read. *)
Definition cache_ok (cache : Cache) : Prop :=
  forall name m f, cache name = Ok (Some m) -> opened m = Some f ->
    bytes_ok (content f) /\ (is_stable f = true -> length_before f = blen (content f)).

Lemma complete_stable (asset : Asset) (b : Bytes) (len : Z) (stable : bool) :
  complete asset b len stable = Ok true -> stable = true.
Proof.
  unfold complete. destruct (len =? 0); [done|]. destruct (limit asset <? len); [done|].
  destruct (boxes_loop _ _ _ _ _ _); [|done]. by destruct stable.
Qed.

Definition well_formed_asset (asset : Asset) (b : Bytes) : Prop :=
  exists l, b = enc_boxes l /\ Forall box_ok l /\ layout asset l /\ Forall filled l.

Lemma complete_well_formed (asset : Asset) (b : Bytes) :
  bytes_ok b -> complete asset b (blen b) true = Ok true -> well_formed_asset asset b.
Proof.
  intros Hb. unfold complete. destruct (_ =? _); [done|]. destruct (_ <? _); [done|].
  destruct (boxes_loop _ _ _ _ _ _) as [s|] eqn:L; [|done]. intros H. injection H as G.
  destruct (loop_sound _ _ _ 0 _ _ Hb ltac:(pose proof (blen_nonneg b); lia) L) as (l & D & _ & F & A).
  exists l. do 2 (split; [done|]). apply visit_layout. eauto.
Qed.

(** A file of the directory itself that is a well-formed asset. *)
Definition announced (cache : Cache) (asset : Asset) (name : string) : Prop :=
  owned_name name = true /\ exists m f, cache name = Ok (Some m) /\ is_file m = true /\ is_symlink m = false /\
    is_canonical m = true /\ opened m = Some f /\ is_stable f = true /\ well_formed_asset asset (content f).

Lemma asset_announced (cache : Cache) (asset : Asset) (name : string) :
  cache_ok cache -> asset_complete cache name asset = Ok true -> announced cache asset name.
Proof.
  intros C. unfold asset_complete, open, announced. destruct (owned_name name); [|done].
  destruct (cache name) as [[m|]|] eqn:E; cbn [negb]; [|done..].
  destruct (negb (is_file m) || is_symlink m) eqn:E1; [done|].
  destruct (is_canonical m) eqn:E2; [|done]. cbn [negb]. destruct (opened m) as [f|] eqn:E3; [|done].
  intros H. pose proof (complete_stable _ _ _ _ H) as St. destruct (C name m f E E3) as [B L].
  rewrite St, (L St) in H. dk_bool. split; [done|]. exists m, f.
  destruct (is_file m); [|done]. repeat (split; [done|]). by apply complete_well_formed.
Qed.

(** C29. A started stream is announced only when its process is running, or has
    succeeded if the playlist says that the whole film is there, and the playlist
    read from the cache names the initialization section and a first segment that
    are regular files of the cache directory itself, unchanged while they were
    read, in the box structure a player needs; no name in the playlist leaves the
    directory. *)
Theorem announced_stream_is_playable (from_utf8 : Bytes -> option string) (cache : Cache)
    (before after : ExecutionState) :
  cache_ok cache -> inspect_turn from_utf8 cache before after = Some (Ok tt) ->
  exists m manifest text r lines,
    cache "manifest.m3u8"%string = Ok (Some m) /\ opened m = Some manifest /\
    from_utf8 (content manifest) = Some text /\ parse text = Ok (Some r) /\
    (before = Succeeded \/ before = Running /\ publication r = Event) /\ after <> Failed /\ after <> Cancelled /\
    announced cache Initialization (initialization r) /\ announced cache Fragment (segment r) /\
    playlist_lines text = "#EXTM3U"%string :: lines /\
    Forall (fun name => Str.contains_char "/" name = false) (resources lines).
Proof.
  intros C. unfold inspect_turn. destruct (require_healthy before) as [[]|] eqn:B; [|done].
  destruct (probe from_utf8 cache before) as [[]|] eqn:P; destruct (require_healthy after) as [[]|] eqn:A;
    try done; [|by destruct before].
  intros _. unfold probe in P. destruct (open cache "manifest.m3u8") as [[f|]|] eqn:O; [|done..].
  unfold open in O. cbn [owned_name String.eqb Ascii.eqb orb negb] in O.
  change (owned_name "manifest.m3u8") with true in O. cbn [negb] in O.
  destruct (cache "manifest.m3u8"%string) as [[m|]|] eqn:E; [|done..].
  destruct (_ || is_symlink m); [done|]. destruct (negb (is_canonical m)); [done|]. injection O as O.
  destruct (_ <? _); [done|]. destruct (_ <? _); [done|]. destruct (negb (is_stable f)); [done|].
  destruct (from_utf8 (content f)) as [text|] eqn:U; [|done]. cbn [ok_or] in P.
  destruct (parse text) as [[r|]|] eqn:R; [|done..].
  destruct (parse_owned text r R) as (_ & _ & lines & L & S & _).
  destruct (match publication r with Vod => true | Event => false end && _) eqn:V in P; [done|].
  destruct (asset_complete cache (initialization r) Initialization) as [[]|] eqn:I; [|done..].
  exists m, f, text, r, lines. repeat (split; [done|]). split.
  { destruct before; [destruct (publication r); [done|by right]|by left|done..]. }
  split; [by intros ->|]. split; [by intros ->|]. do 2 (split; [by apply asset_announced|]). split; [done|].
  eapply Forall_impl; [exact S|]. apply segment_no_slash.
Qed.

(** ** A small stream *)

Definition box_bytes (k p : Bytes) : Bytes := enc_box (mk_box false k p).
Definition sample_init : Bytes := box_bytes ftyp (replicate 8 0) ++ box_bytes moov [1].
Definition sample_segment : Bytes := box_bytes moof [1] ++ box_bytes mdat [2; 3].
Definition string_of_bytes (b : Bytes) : option string :=
  Some (string_of_list_ascii (map (fun z => ascii_of_nat (Z.to_nat z)) b)).
Definition line (s : string) : Bytes :=
  map (fun c => Z.of_nat (nat_of_ascii c)) (list_ascii_of_string s) ++ [10].
Definition sample_manifest : Bytes :=
  line "#EXTM3U" ++ line "#EXT-X-TARGETDURATION:4" ++ line "#EXT-X-PLAYLIST-TYPE:EVENT" ++
  line (MAP +:+ "init.mp4" +:+ quote) ++ line "#EXTINF:4.0," ++ line "seg_00000.m4s".
Definition sample_cache : Cache := fun name =>
  let regular b := Ok (Some (mk_entry true false true (Some (mk_file b (blen b) true)))) in
  if String.eqb name "manifest.m3u8" then regular sample_manifest
  else if String.eqb name "init.mp4" then regular sample_init
  else if String.eqb name "seg_00000.m4s" then regular sample_segment
  else Ok None.

Definition bytes_okb (b : Bytes) : bool := forallb (fun z => (0 <=? z) && (z <=? 255)) b.

Lemma bytes_okb_ok (b : Bytes) : bytes_okb b = true -> bytes_ok b.
Proof.
  unfold bytes_okb, bytes_ok, is_u8, u8_max. rewrite forallb_forall. intros H. apply Forall_forall.
  intros z Hz. apply list_elem_of_In in Hz. specialize (H z Hz). dk_bool. lia.
Qed.

Lemma sample_cache_ok : cache_ok sample_cache.
Proof.
  intros name m f. unfold sample_cache. destruct (String.eqb _ _); [|destruct (String.eqb _ _);
    [|destruct (String.eqb _ _); [|done]]]; intros [= <-] [= <-]; (split; [by apply bytes_okb_ok|done]).
Qed.

Example asset_is_complete_example :
  complete Initialization sample_init (blen sample_init) true = Ok true /\
  blen sample_init <= limit Initialization /\ exists l, sample_init = enc_boxes l /\ (length l <= 256)%nat /\
    Forall box_ok l /\ layout Initialization l /\ Forall filled l.
Proof.
  assert (E : complete Initialization sample_init (blen sample_init) true = Ok true) by (vm_compute; reflexivity).
  split; [exact E|]. apply (asset_is_complete Initialization sample_init); [by apply bytes_okb_ok|exact E].
Defined.

Lemma announced_stream_is_playable_witness :
  inspect_turn string_of_bytes sample_cache Running Running = Some (Ok tt) /\
  exists m manifest text r lines,
    sample_cache "manifest.m3u8"%string = Ok (Some m) /\ opened m = Some manifest /\
    string_of_bytes (content manifest) = Some text /\ parse text = Ok (Some r) /\
    (Running = Succeeded \/ Running = Running /\ publication r = Event) /\ Running <> Failed /\
    Running <> Cancelled /\
    announced sample_cache Initialization (initialization r) /\ announced sample_cache Fragment (segment r) /\
    playlist_lines text = "#EXTM3U"%string :: lines /\
    Forall (fun name => Str.contains_char "/" name = false) (resources lines).
Proof.
  assert (E : inspect_turn string_of_bytes sample_cache Running Running = Some (Ok tt))
    by (vm_compute; reflexivity).
  split; [exact E|].
  exact (announced_stream_is_playable string_of_bytes sample_cache Running Running sample_cache_ok E).
Defined.

End Readiness.
