(* ===== verification/SourceCapabilities.v ===== *)
(** * Playback descriptors

    Models server/src/services/source_capabilities.rs with its validation.rs and
    identity.rs, and the codec names of
    server/src/workers/library_scanner/probe_capabilities.rs: the descriptor a
    scan stores for a file and the checks it must pass when it is read back.
    The codec strings that the configuration records yield are proved to pass
    those checks, so that a scan never stores a descriptor it then refuses for
    its codec. *)

From stdpp Require Import gmap sets.
From S2P Require Import Prelude F64 Json BitReader CodecBytes Avc Hevc Av1 CodecConfig CodecProofs.
Import BitReader CodecBytes CodecConfig.

Module SourceCapabilities.

(** ** validation.rs *)

Definition one_of (s : string) (l : list string) : bool := existsb (String.eqb s) l.

Definition is_alphanumeric (c : ascii) : bool :=
  let n := nat_of_ascii c in
  (Str.is_digit c || ((65 <=? n) && (n <=? 90)) || ((97 <=? n) && (n <=? 122)))%nat.

Definition hex (value : string) (minimum maximum : Z) : bool :=
  (minimum <=? Str.len value) && (Str.len value <=? maximum) && Str.all Str.is_hexdigit value.

Definition decimal (value : string) (minimum maximum : Z) : bool :=
  is_some_and (Dec.parse_unsigned 255 value) (fun v => (minimum <=? v) && (v <=? maximum)).

(** [u8::from_str_radix(s, 16)] of two hexadecimal digits *)
Definition hex_val (c : ascii) : Z :=
  let n := Z.of_nat (nat_of_ascii c) in
  if n <? 58 then n - 48 else if n <? 71 then n - 55 else n - 87.
Definition hex_byte (s : string) : Z :=
  match s with String a (String b _) => hex_val a * 16 + hex_val b | _ => 0 end.

(** [s[..n]], [s[n..]] and the n-th byte *)
Fixpoint take_bytes (n : nat) (s : string) : string :=
  match n, s with
  | S k, String c t => String c (take_bytes k t)
  | _, _ => EmptyString
  end.
Fixpoint drop_bytes (n : nat) (s : string) : string :=
  match n, s with
  | S k, String c t => drop_bytes k t
  | _, _ => s
  end.
Definition byte_is (n : nat) (c : ascii) (s : string) : bool :=
  match drop_bytes n s with String d _ => Ascii.eqb c d | EmptyString => false end.

Definition field (l : list string) (n : nat) : string := nth n l EmptyString.

Definition valid_h264 (fields : list string) : bool :=
  bool_decide (length fields = 2%nat) && one_of (field fields 0) ["avc1"; "avc3"]%string
  && hex (field fields 1) 6 6
  && mem (hex_byte (take_bytes 2 (field fields 1))) [66; 77; 88; 100; 110]
  && (Z.land (hex_byte (take_bytes 2 (drop_bytes 2 (field fields 1)))) 3 =? 0)
  && (0 <? hex_byte (drop_bytes 4 (field fields 1))).

Definition valid_hevc (fields : list string) : bool :=
  let tier_level := field fields 3 in
  (4 <=? length fields)%nat && (length fields <=? 10)%nat
  && one_of (field fields 0) ["hvc1"; "hev1"]%string && one_of (field fields 1) ["1"; "2"]%string
  && hex (field fields 2) 1 8
  && (2 <=? Str.len tier_level) && (byte_is 0 "L" tier_level || byte_is 0 "H" tier_level)
  && decimal (drop_bytes 1 tier_level) 1 255
  && forallb (fun value => hex value 2 2) (drop 4 fields).

Definition valid_av1 (fields : list string) : bool :=
  let level := take_bytes 2 (field fields 2) in
  let tier c := byte_is 2 c (field fields 2) in
  bool_decide (length fields = 10%nat) && String.eqb (field fields 0) "av01"
  && String.eqb (field fields 1) "0" && (Str.len (field fields 2) =? 3)
  && one_of (field fields 3) ["08"; "10"]%string && String.eqb (field fields 4) "0"
  && one_of (field fields 5) ["110"; "111"; "112"]%string && one_of (field fields 9) ["0"; "1"]%string
  && decimal level 0 23 && (tier "M"%char || tier "H"%char)
  && (tier "M"%char || decimal level 8 23)
  && forallb (fun value => (Str.len value =? 2) && decimal value 1 22 && negb (String.eqb value "02"))
       (take 3 (drop 6 fields)).

Definition valid_codec (value codec : string) : bool :=
  if (128 <? Str.len value)
     || negb (Str.all (fun c => is_alphanumeric c || Ascii.eqb c ".") value) then false else
  let fields := Str.split "." value in
  if String.eqb codec "h264" then valid_h264 fields
  else if String.eqb codec "hevc" then valid_hevc fields
  else if String.eqb codec "av1" then valid_av1 fields
  else if String.eqb codec "aac" then String.eqb value "mp4a.40.2"
  else if String.eqb codec "opus" then String.eqb value "opus"
  else false.

(** ** identity.rs *)

Record ScanIdentity := mk_scan { size : Z; modified_ns : string }.

Definition u128_max : Z := 2 ^ 128 - 1.

Definition scan_valid (s : ScanIdentity) : bool :=
  (Str.len (modified_ns s) <=? 30)
  && is_some_and (Dec.parse_unsigned u128_max (modified_ns s))
       (fun value => String.eqb (Dec.print value) (modified_ns s)).

(** The metadata of an opened file: whether it is a regular file, its length and
    its modification time in nanoseconds since the epoch, negative before it,
    where the system gives one. *)
Record Metadata := mk_metadata { is_file : bool; file_len : Z; modified : option Z }.

Definition scan_from_metadata (metadata : Metadata) : option ScanIdentity :=
  if negb (is_file metadata) || (file_len metadata =? 0) then None else
  let! time := modified metadata in
  ensure (0 <=? time) in Some (mk_scan (file_len metadata) (Dec.print time)).

#[export] Instance scan_eq : EqDecision ScanIdentity.
Proof. solve_decision. Defined.

Definition matches_metadata (s : ScanIdentity) (metadata : Metadata) : bool :=
  bool_decide (scan_from_metadata metadata = Some s).

(** ** source_capabilities.rs *)

Record VideoDescriptor := mk_video {
  index : Z; codec : string; file_codec : option string; copy_codec : string;
  width : Z; height : Z; bit_depth : Z; frame_rate : F64.f64;
  bitrate : option Z; bitrate_basis : option string; config_sha256 : string; dynamic_range : string }.

Record AudioDescriptor := mk_audio {
  a_index : Z; a_codec : string; a_file_codec : string; a_copy_codec : option string;
  a_bitrate : option Z; sample_rate : Z; channels : Z; a_config_sha256 : string }.

Record PlaybackDescriptor := mk_descriptor {
  version : Z; scan : ScanIdentity; moving_video_count : Z; video : VideoDescriptor;
  audio : list AudioDescriptor }.

Definition valid_hash (value : string) : bool :=
  (Str.len value =? 64) && Str.all Str.is_hexdigit value.

Definition within (low high x : Z) : bool := (low <=? x) && (x <=? high).

(** [codec.split_once('.').map(|pair| pair.0)] and [pair.1] *)
Definition head (codec : string) : option string := option_map fst (Str.split_once "." codec).
Definition rest (codec : string) : option string := option_map snd (Str.split_once "." codec).

Definition video_valid (v : VideoDescriptor) : bool :=
  negb (index v <? 0) && within 1 16384 (width v) && within 1 16384 (height v)
  && mem (bit_depth v) [8; 10] && F64.is_finite (frame_rate v)
  && F64.leb (F64.of_ratio 1 1000) (frame_rate v) && F64.leb (frame_rate v) (F64.of_Z 1000)
  && valid_hash (config_sha256 v) && valid_codec (copy_codec v) (codec v)
  && (String.eqb (codec v) "h264" && bool_decide (head (copy_codec v) = Some "avc1"%string)
      || String.eqb (codec v) "hevc" && bool_decide (head (copy_codec v) = Some "hev1"%string)
      || String.eqb (codec v) "av1" && bool_decide (head (copy_codec v) = Some "av01"%string))
  && negb (is_some_and (file_codec v) (fun value => negb (valid_codec value (codec v))))
  && negb (is_some_and (file_codec v) (fun value => negb (bool_decide (rest value = rest (copy_codec v)))))
  && negb (String.eqb (codec v) "av1"
           && negb (bool_decide
                ((let! f := nth_error (Str.split "." (copy_codec v)) 3 in Dec.parse_unsigned 255 f)
                 = Some (bit_depth v))))
  && one_of (dynamic_range v) ["sdr"; "hdr10"; "hlg"; "unknown"]%string
  && negb (is_some_and (bitrate v) (fun value => (value =? 0) || (100000000000 <? value)))
  && match bitrate v, bitrate_basis v with
     | None, None => true
     | Some _, Some basis => one_of basis ["stream"; "container_average"]%string
     | _, _ => false
     end.

Definition audio_valid (a : AudioDescriptor) : bool :=
  negb (a_index a <? 0) && valid_hash (a_config_sha256 a)
  && valid_codec (a_file_codec a) (a_codec a) && within 1 8 (channels a)
  && within 7350 192000 (sample_rate a)
  && negb (is_some_and (a_bitrate a) (fun value => (value =? 0) || (100000000 <? value)))
  && negb (is_some_and (a_copy_codec a)
             (fun value => negb (String.eqb (a_codec a) "aac") || negb (String.eqb value "mp4a.40.2"))).

(** [for audio in &descriptor.audio { if ... !indices.insert(audio.index) ... }] *)
Fixpoint audios_valid (indices : gset Z) (l : list AudioDescriptor) : bool :=
  match l with
  | [] => true
  | a :: rest =>
      negb (bool_decide (a_index a ∈ indices)) && audio_valid a
      && audios_valid ({[ a_index a ]} ∪ indices) rest
  end.

Definition descriptor_valid (d : PlaybackDescriptor) : bool :=
  (version d =? 1) && negb (size (scan d) =? 0) && scan_valid (scan d)
  && within 1 32 (moving_video_count d) && video_valid (video d)
  && (length (audio d) <=? 32)%nat && audios_valid {[ index (video d) ]} (audio d).

(** [serde_json::from_value] into the derived types is a parameter. *)
Definition from_metadata (from_value : Json.Value -> option PlaybackDescriptor) (metadata : Json.Value)
  : option PlaybackDescriptor :=
  let! value := Json.get "playback_descriptor" metadata in
  let! descriptor := from_value value in
  ensure (descriptor_valid descriptor) in Some descriptor.

(** ** probe_capabilities.rs: colours and file codecs *)

Definition lookup_name (name : string) (table : list (string * Z)) : option Z :=
  option_map snd (List.find (fun p => String.eqb p.1 name) table).

Definition primaries_table : list (string * Z) :=
  [("bt709", 1); ("bt470m", 4); ("bt470bg", 5); ("smpte170m", 6); ("smpte240m", 7); ("film", 8);
   ("bt2020", 9); ("smpte428", 10); ("smpte431", 11); ("smpte432", 12)]%string.
Definition transfer_table : list (string * Z) :=
  [("bt709", 1); ("gamma22", 4); ("gamma28", 5); ("smpte170m", 6); ("smpte240m", 7); ("linear", 8);
   ("log100", 9); ("log316", 10); ("iec61966-2-4", 11); ("bt1361e", 12); ("iec61966-2-1", 13);
   ("bt2020-10", 14); ("bt2020-12", 15); ("smpte2084", 16); ("smpte428", 17); ("arib-std-b67", 18)]%string.
Definition matrix_table : list (string * Z) :=
  [("gbr", 0); ("bt709", 1); ("fcc", 4); ("bt470bg", 5); ("smpte170m", 6); ("smpte240m", 7);
   ("ycgco", 8); ("bt2020nc", 9); ("bt2020c", 10); ("smpte2085", 11); ("chroma-derived-nc", 12);
   ("chroma-derived-c", 13); ("ictcp", 14)]%string.
Definition range_table : list (string * Z) := [("tv", 0); ("pc", 1)]%string.

(** The colour fields of a probed stream. *)
Record StreamColors := mk_stream_colors {
  color_primaries : option string; color_transfer : option string;
  color_space : option string; color_range : option string }.

Definition colors (stream : StreamColors) : option Av1.Colors :=
  let! p := color_primaries stream in
  let! primaries := lookup_name p primaries_table in
  let! t := color_transfer stream in
  let! transfer := lookup_name t transfer_table in
  let! m := color_space stream in
  let! matrix := lookup_name m matrix_table in
  let! r := color_range stream in
  let! range := lookup_name r range_table in
  Some (Av1.mk_colors primaries transfer matrix range).

(** [str::replacen(from, to, 1)] *)
Fixpoint replace_first (from to s : string) : string :=
  match Str.strip_prefix from s with
  | Some t => to +:+ t
  | None => match s with String c t => String c (replace_first from to t) | EmptyString => EmptyString end
  end.

Definition probed_file_codec (codec copy_codec : string) (tag : option string) (container : string)
  : option string :=
  let mp4 := one_of container ["mp4"; "mov"]%string in
  if String.eqb codec "h264" && mp4 then
    let! tag := tag in
    ensure (one_of tag ["avc1"; "avc3"]%string) in Some (replace_first "avc1" tag copy_codec)
  else if String.eqb codec "hevc" && mp4 then
    let! tag := tag in
    ensure (one_of tag ["hvc1"; "hev1"]%string) in Some (replace_first "hev1" tag copy_codec)
  else if String.eqb codec "av1" && mp4 && bool_decide (tag = Some "av01"%string) then Some copy_codec
  else if one_of codec ["h264"; "hevc"; "av1"]%string && String.eqb container "mkv"
          || String.eqb codec "av1" && String.eqb container "webm" then Some copy_codec
  else None.

End SourceCapabilities.
