(* ===== verification/DescriptorProofs.v ===== *)
(** * Playback descriptors: what a scan stores is accepted

    The codec strings of CodecConfig.v pass the checks of SourceCapabilities.v. *)

From stdpp Require Import gmap sets.
From S2P Require Import Prelude F64 Json BitReader CodecBytes Avc Hevc Av1 CodecConfig CodecProofs SourceCapabilities.
Import BitReader CodecBytes CodecConfig CodecProofs SourceCapabilities.

Module DescriptorProofs.

(** ** Fields between dots *)

Definition plain (s : string) : bool := Str.all is_alphanumeric s.

Lemma alnum_not_dot (c : ascii) : is_alphanumeric c = true -> Ascii.eqb "." c = false.
Proof. intros H. apply Ascii.eqb_neq. intros <-. done. Qed.

Lemma split_plain (s : string) : plain s = true -> Str.split "." s = [s].
Proof.
  unfold plain. induction s as [|c s IH]; [done|]. cbn [Str.all Str.split].
  intros [Hc Hs]%andb_true_iff. by rewrite (alnum_not_dot c Hc), IH.
Qed.

Lemma split_field (a b : string) :
  plain a = true -> Str.split "." (a +:+ "." +:+ b) = a :: Str.split "." b.
Proof.
  unfold plain. induction a as [|c a IH]; [done|]. cbn [Str.all]. intros [Hc Ha]%andb_true_iff.
  change (String c a +:+ "." +:+ b) with (String c (a +:+ "." +:+ b)). cbn [Str.split].
  by rewrite (alnum_not_dot c Hc), IH.
Qed.

(** A codec string: fields joined by dots. *)
Fixpoint dotted (l : list string) : string :=
  match l with
  | [] => EmptyString
  | [f] => f
  | f :: t => f +:+ "." +:+ dotted t
  end.

Lemma split_dotted (l : list string) :
  l <> [] -> forallb plain l = true -> Str.split "." (dotted l) = l.
Proof.
  induction l as [|f [|g t] IH]; [done| |]; intros _ H; cbn [forallb] in H;
    apply andb_true_iff in H as [Hf H].
  - cbn. by apply split_plain.
  - change (dotted (f :: g :: t)) with (f +:+ "." +:+ dotted (g :: t)).
    rewrite split_field by done. f_equal. by apply IH.
Qed.

Lemma dotted_chars (l : list string) :
  forallb plain l = true -> Str.all (fun c => is_alphanumeric c || Ascii.eqb c ".") (dotted l) = true.
Proof.
  assert (P : forall s, plain s = true -> Str.all (fun c => is_alphanumeric c || Ascii.eqb c ".") s = true).
  { unfold plain. induction s as [|c s IH]; [done|]. cbn [Str.all]. intros [-> H]%andb_true_iff.
    by rewrite IH. }
  induction l as [|f [|g t] IH]; [done| |]; cbn [forallb]; intros [Hf H]%andb_true_iff.
  - by apply P.
  - change (dotted (f :: g :: t)) with (f +:+ "." +:+ dotted (g :: t)).
    rewrite !str_all_app, P, IH by done. done.
Qed.

Lemma dotted_length (l : list string) (k : Z) :
  Forall (fun f => Str.len f <= k) l -> 0 <= k ->
  Str.len (dotted l) <= Z.of_nat (length l) * (k + 1).
Proof.
  intros H Hk. induction H as [|f t Hf Ht IH]; [done|].
  destruct t as [|g t]; [cbn [dotted length]; lia|].
  change (dotted (f :: g :: t)) with (f +:+ "." +:+ dotted (g :: t)).
  rewrite !str_len_app. change (Str.len ".") with 1. cbn [length] in *. lia.
Qed.

Lemma head_dotted (f : string) (t : list string) :
  plain f = true -> t <> [] ->
  Str.split_once "." (dotted (f :: t)) = Some (f, dotted t).
Proof.
  intros Hf Ht. destruct t as [|g t]; [done|].
  change (dotted (f :: g :: t)) with (f +:+ String "." (dotted (g :: t))).
  by apply (split_once_app "." f _ is_alphanumeric).
Qed.

(** ** Hexadecimal and decimal fields *)

Lemma hex_digit_ok (d : Z) : 0 <= d < 16 ->
  Str.is_hexdigit (hex_digit d) = true /\ is_alphanumeric (hex_digit d) = true /\ hex_val (hex_digit d) = d.
Proof.
  intros Hd.
  assert (H : forallb (fun n => let d := Z.of_nat n in Str.is_hexdigit (hex_digit d)
    && is_alphanumeric (hex_digit d) && (hex_val (hex_digit d) =? d)) (seq 0 16) = true)
    by (vm_compute; reflexivity).
  rewrite forallb_forall in H. specialize (H (Z.to_nat d)). cbv zeta in H.
  rewrite Z2Nat.id in H by lia. specialize (H ltac:(apply in_seq; lia)). dk_bool. done.
Qed.

Lemma hex2_ok (n : Z) : is_u8 n ->
  hex (hex2 n) 2 2 = true /\ plain (hex2 n) = true /\ hex_byte (hex2 n) = n.
Proof.
  unfold is_u8, u8_max. intros Hn.
  destruct (hex_digit_ok (n / 16)) as (A1 & A2 & A3); [dk_lia|].
  destruct (hex_digit_ok (n mod 16)) as (B1 & B2 & B3); [dk_lia|].
  unfold hex, plain, hex2, hex_byte. cbn [Str.all]. rewrite A1, A2, A3, B1, B2, B3.
  repeat split. dk_lia.
Qed.

Lemma hex_aux_ok (fuel : nat) (n : Z) (acc : string) :
  Str.all Str.is_hexdigit acc = true -> plain acc = true ->
  Str.all Str.is_hexdigit (hex_aux fuel n acc) = true /\ plain (hex_aux fuel n acc) = true /\
  Str.len acc <= Str.len (hex_aux fuel n acc) <= Str.len acc + Z.of_nat fuel.
Proof.
  revert n acc. induction fuel as [|f IH]; intros n acc H1 H2; cbn [hex_aux];
    [split; [done|]; split; [done|lia]|].
  destruct (hex_digit_ok (n mod 16)) as (B1 & B2 & _); [dk_lia|].
  set (acc' := String (hex_digit (n mod 16)) acc).
  assert (A : Str.all Str.is_hexdigit acc' = true /\ plain acc' = true /\ Str.len acc' = 1 + Str.len acc).
  { unfold acc', plain, Str.len in *. cbn [Str.all String.length]. rewrite B1, B2, H1, H2.
    repeat split. lia. }
  destruct A as (A1 & A2 & A3). destruct (n / 16 =? 0); [split; [done|]; split; [done|lia]|].
  destruct (IH (n / 16) acc' A1 A2) as (? & ? & ?). split; [done|]. split; [done|lia].
Qed.

Lemma hex32_ok (n : Z) : hex (hex32 n) 1 8 = true /\ plain (hex32 n) = true.
Proof.
  destruct (hex_digit_ok (n mod 16)) as (B1 & B2 & _); [dk_lia|].
  set (acc := String (hex_digit (n mod 16)) EmptyString).
  assert (E : hex32 n = if n / 16 =? 0 then acc else hex_aux 7 (n / 16) acc) by reflexivity.
  assert (A : Str.all Str.is_hexdigit acc = true /\ plain acc = true /\ Str.len acc = 1).
  { unfold acc, plain. cbn [Str.all]. rewrite B1, B2. done. }
  destruct A as (A1 & A2 & A3). rewrite E. unfold hex.
  destruct (n / 16 =? 0); [rewrite A3, A1; done|].
  destruct (hex_aux_ok 7 (n / 16) acc A1 A2) as (-> & -> & L).
  rewrite !(proj2 (Z.leb_le _ _)) by lia. done.
Qed.

Lemma digits_plain (s : string) : Str.all Str.is_digit s = true -> plain s = true.
Proof.
  unfold plain. induction s as [|c s IH]; [done|]. cbn [Str.all]. intros [Hc H]%andb_true_iff.
  rewrite IH by done. unfold is_alphanumeric. by rewrite Hc.
Qed.

Lemma print_plain (n : Z) : plain (Dec.print n) = true.
Proof. apply digits_plain, print_digits. Qed.

(** A printed byte of a range is a decimal of that range. *)
Lemma decimal_print (n low high : Z) :
  is_u8 n -> low <= n <= high -> decimal (Dec.print n) low high = true.
Proof.
  intros Hn Hb. unfold decimal. rewrite parse_unsigned_digits by apply print_digits.
  rewrite parse_print by exact Hn. cbn. by rewrite !(proj2 (Z.leb_le _ _)) by lia.
Qed.

Lemma print02_ok (n low high : Z) :
  0 <= n < 100 -> low <= n <= high ->
  Str.len (Dec.print02 n) = 2 /\ plain (Dec.print02 n) = true /\ decimal (Dec.print02 n) low high = true /\
  String.eqb (Dec.print02 n) "02" = (n =? 2).
Proof.
  intros Hn Hb.
  assert (H : forallb (fun k => let n := Z.of_nat k in (Str.len (Dec.print02 n) =? 2)
    && plain (Dec.print02 n) && bool_decide (Dec.parse_unsigned 255 (Dec.print02 n) = Some n)
    && Bool.eqb (String.eqb (Dec.print02 n) "02") (n =? 2)) (seq 0 100) = true) by (vm_compute; reflexivity).
  rewrite forallb_forall in H. specialize (H (Z.to_nat n)). cbv zeta in H.
  rewrite Z2Nat.id in H by lia. specialize (H ltac:(apply in_seq; lia)). dk_bool.
  match goal with E : bool_decide _ = true |- _ => apply bool_decide_eq_true in E; unfold decimal; rewrite E end.
  cbn. rewrite !(proj2 (Z.leb_le _ _)) by lia. repeat split; try done. by apply eqb_prop.
Qed.

(** ** Codec strings *)

Lemma valid_codec_dotted (fields : list string) (codec : string) :
  fields <> [] -> forallb plain fields = true -> Str.len (dotted fields) <= 128 ->
  valid_codec (dotted fields) codec =
    if String.eqb codec "h264" then valid_h264 fields
    else if String.eqb codec "hevc" then valid_hevc fields
    else if String.eqb codec "av1" then valid_av1 fields
    else if String.eqb codec "aac" then String.eqb (dotted fields) "mp4a.40.2"
    else if String.eqb codec "opus" then String.eqb (dotted fields) "opus"
    else false.
Proof.
  intros Hn Hp Hl. unfold valid_codec.
  rewrite (proj2 (Z.ltb_ge 128 _)) by lia. rewrite dotted_chars by done. cbn [negb orb].
  by rewrite split_dotted.
Qed.

(** The fields of a codec string, whichever of the names of its codec it begins
    with. *)
Definition accepted (codec name : string) (names : list string) (value : string) : Prop :=
  exists fields, In name names /\ value = dotted (name :: fields) /\ fields <> [] /\
    forall name', In name' names ->
      plain name' = true /\ valid_codec (dotted (name' :: fields)) codec = true.

Lemma plain_app (a b : string) : plain (a +:+ b) = plain a && plain b.
Proof. apply str_all_app. Qed.

Lemma avc_accepted (b : Bytes) (cfg : CodecConfiguration) :
  bytes_ok b -> Avc.parse b = Some cfg -> accepted "h264" "avc1" ["avc1"; "avc3"]%string (CodecBytes.copy_codec cfg).
Proof.
  intros Hb H. unfold Avc.parse in H. dk_ensure H E1. cbv zeta in H. dk_ensure H E2.
  destruct (Avc.nals b 6 _ 7) as [o|]; [|done]. destruct (get b o) as [count|]; [|done].
  destruct (Avc.nals b (o + 1) count 8) as [o'|]; [|done].
  destruct (Avc.extension b _ o') as [[depth o'']|]; [|done]. dk_ensure H E3.
  apply (f_equal (option_map CodecBytes.copy_codec)) in H. cbn [option_map CodecBytes.copy_codec] in H.
  assert (Hc := f_equal (fun o => unwrap_or o EmptyString) H). cbn [unwrap_or] in Hc.
  rewrite <- Hc. clear H Hc. dk_bool.
  destruct (hex2_ok (at_ b 1) (is_u8_at b 1 Hb)) as (A1 & A2 & A3).
  destruct (hex2_ok (at_ b 2) (is_u8_at b 2 Hb)) as (B1 & B2 & B3).
  destruct (hex2_ok (at_ b 3) (is_u8_at b 3 Hb)) as (C1 & C2 & C3).
  set (p := hex2 (at_ b 1) +:+ hex2 (at_ b 2) +:+ hex2 (at_ b 3)).
  exists [p]. split; [by left|]. split; [done|]. split; [done|].
  intros name Hname.
  assert (Hp : plain name = true) by (repeat destruct Hname as [<-|Hname]; done).
  split; [done|]. rewrite valid_codec_dotted; [|done| |].
  - change (valid_h264 [name; p] = true). unfold valid_h264, field. cbn [nth].
    rewrite bool_decide_eq_true_2 by done.
    replace (one_of name _) with true by (repeat destruct Hname as [<-|Hname]; done).
    assert (P : hex p 6 6 = true).
    { unfold hex, p in *. dk_bool. rewrite !str_all_app, !str_len_app.
      unfold hex2, Str.len in *. cbn [String.length] in *.
      repeat match goal with E : Str.all _ _ = true |- _ => rewrite E; clear E end. done. }
    rewrite P. unfold p, hex2. cbn [String.append take_bytes drop_bytes].
    change (String (hex_digit (at_ b 1 / 16)) (String (hex_digit (at_ b 1 mod 16)) EmptyString)) with (hex2 (at_ b 1)).
    change (String (hex_digit (at_ b 2 / 16)) (String (hex_digit (at_ b 2 mod 16)) EmptyString)) with (hex2 (at_ b 2)).
    change (String (hex_digit (at_ b 3 / 16)) (String (hex_digit (at_ b 3 mod 16)) EmptyString)) with (hex2 (at_ b 3)).
    rewrite A3, B3, C3, E2. pose proof (is_u8_at b 3 Hb) as U. unfold is_u8 in U.
    rewrite (proj2 (Z.eqb_eq _ _)) by done. rewrite (proj2 (Z.ltb_lt _ _)) by lia. done.
  - cbn [forallb]. unfold p. by rewrite Hp, !plain_app, A2, B2, C2.
  - unfold p. repeat destruct Hname as [<-|Hname]; done.
Qed.

(** The constraint bytes of an HEVC string are further fields. *)
Lemma suffix_dotted (l : Bytes) (f : string) :
  f +:+ Hevc.suffix l = dotted (f :: map hex2 l).
Proof.
  revert f. induction l as [|x l IH]; intros f; cbn [map]; [apply str_app_nil_r|].
  change (dotted (f :: hex2 x :: map hex2 l)) with (f +:+ "." +:+ dotted (hex2 x :: map hex2 l)).
  rewrite <- IH. done.
Qed.

Lemma trim_zeros_bound (l : Bytes) :
  bytes_ok l -> bytes_ok (Hevc.trim_zeros l) /\ (length (Hevc.trim_zeros l) <= length l)%nat.
Proof.
  intros H. induction H as [|x l Hx Hl [IH1 IH2]]; cbn; [split; [constructor|lia]|].
  destruct (Hevc.trim_zeros l) as [|y t]; [destruct (x =? 0)|].
  - split; [constructor|cbn; lia].
  - split; [by constructor|cbn; lia].
  - split; [by constructor|cbn in *; lia].
Qed.

Lemma hex2_fields (l : Bytes) :
  bytes_ok l -> forallb plain (map hex2 l) = true /\ forallb (fun v => hex v 2 2) (map hex2 l) = true.
Proof.
  intros H. induction H as [|x l Hx Hl [IH1 IH2]]; cbn [map forallb]; [done|].
  destruct (hex2_ok x Hx) as (-> & -> & _). by rewrite IH1, IH2.
Qed.

Lemma hex_length (s : string) (low high : Z) : hex s low high = true -> Str.len s <= high.
Proof. unfold hex. intros H. dk_bool. lia. Qed.

Lemma hevc_accepted (b : Bytes) (cfg : CodecConfiguration) :
  bytes_ok b -> Hevc.parse b = Some cfg -> accepted "hevc" "hev1" ["hvc1"; "hev1"]%string (CodecBytes.copy_codec cfg).
Proof.
  intros Hb H. unfold Hevc.parse in H. dk_ensure H E1. cbv zeta in H. dk_ensure H E2.
  destruct (slice b 6 12) as [cs|] eqn:Sl; [|done].
  destruct (Hevc.arrays_loop _ b 23 []) as [[o seen]|]; [|done].
  dk_ensure H E3. apply (f_equal (option_map CodecBytes.copy_codec)) in H.
  cbn [option_map CodecBytes.copy_codec] in H.
  assert (Hc := f_equal (fun o => unwrap_or o EmptyString) H). cbn [unwrap_or] in Hc.
  rewrite <- Hc. clear H Hc E3. dk_bool.
  match goal with E : Z.shiftr (at_ b 1) 6 = 0 |- _ => rewrite E end.
  change (Hevc.space 0) with EmptyString. rewrite mem_In in *.
  assert (Hcs : bytes_ok (Hevc.trim_zeros cs) /\ (length (Hevc.trim_zeros cs) <= 6)%nat).
  { destruct (slice_inv b cs 6 12 ltac:(lia) Sl) as (D & L & _).
    assert (Hcs : bytes_ok cs).
    { pose proof (bytes_ok_drop b (Z.to_nat 6) Hb) as F. rewrite D in F. by apply Forall_app in F as [F _]. }
    destruct (trim_zeros_bound cs Hcs) as [? ?]. split; [done|]. unfold blen in L. lia. }
  destruct Hcs as [Hcs Lcs]. set (t := Hevc.trim_zeros cs) in *.
  destruct (hex2_fields t Hcs) as [Pt Ht].
  set (h := hex32 (reverse_bits32 (be32 b 2))).
  destruct (hex32_ok (reverse_bits32 (be32 b 2))) as [Hh Ph]. fold h in Hh, Ph.
  set (p := Dec.print (Z.land (at_ b 1) 31)).
  assert (Hp : In p ["1"; "2"]%string).
  { unfold p. match goal with I : In _ [1; 2] |- _ => destruct I as [<-|[<-|[]]] end; cbn; auto. }
  set (tl := (if Z.land (at_ b 1) 32 =? 0 then "L" else "H") +:+ Dec.print (at_ b 12)).
  exists (p :: h :: tl :: map hex2 t).
  split; [by right; left|]. split.
  { change (dotted ("hev1" :: p :: h :: tl :: map hex2 t))%string with
      ("hev1" +:+ "." +:+ p +:+ "." +:+ h +:+ "." +:+ dotted (tl :: map hex2 t))%string.
    rewrite <- suffix_dotted. unfold tl. fold p h t.
    assert (E : forall x y z w v : string, "hev1." +:+ "" +:+ x +:+ "." +:+ y +:+ "." +:+ z +:+ w +:+ v =
      "hev1" +:+ "." +:+ x +:+ "." +:+ y +:+ "." +:+ (z +:+ w) +:+ v)
      by (intros; by rewrite !str_app_assoc).
    exact (E p h _ _ _). }
  split; [done|]. intros name Hname.
  assert (Hpn : plain name = true /\ one_of name ["hvc1"; "hev1"]%string = true /\ Str.len name = 4)
    by (repeat destruct Hname as [<-|Hname]; done).
  destruct Hpn as (Hn & Ho & Ln). split; [done|].
  assert (Hp' : plain p = true /\ one_of p ["1"; "2"]%string = true /\ Str.len p = 1)
    by (destruct Hp as [<-|[<-|[]]]; done).
  destruct Hp' as (Pp & Op & Lp).
  pose proof (is_u8_at b 12 Hb) as U12. pose proof U12 as U12'. unfold is_u8, u8_max in U12'.
  assert (Ptl : plain tl = true).
  { unfold tl. rewrite plain_app, print_plain. by destruct (_ =? 0). }
  assert (L12 : 1 <= Str.len (Dec.print (at_ b 12)) <= 3).
  { split.
    - pose proof (print_nonempty (at_ b 12)) as N. destruct (Dec.print (at_ b 12)); [done|].
      unfold Str.len. cbn. lia.
    - unfold Dec.print.
      pose proof (print_aux_length 3 (Dec.fuel_for (at_ b 12)) (at_ b 12) EmptyString) as P3.
      change (10 ^ Z.of_nat 3) with 1000 in P3. change (Str.len EmptyString) with 0 in P3. lia. }
  assert (Ltl : Str.len tl = 1 + Str.len (Dec.print (at_ b 12)))
    by (unfold tl; rewrite str_len_app; by destruct (_ =? 0)).
  assert (Fm : Forall (fun f => Str.len f <= 8) (map hex2 t)).
  { apply Forall_forall. intros x Hx. rewrite forallb_forall in Ht. apply list_elem_of_In in Hx.
    apply Ht, hex_length in Hx. lia. }
  assert (Lm : length (map hex2 t) = length t) by apply length_map.
  rewrite valid_codec_dotted; [|done| |].
  - change (valid_hevc (name :: p :: h :: tl :: map hex2 t) = true). unfold valid_hevc, field.
    change (drop 4 (name :: p :: h :: tl :: map hex2 t)) with (map hex2 t). cbn [nth].
    rewrite Ho, Op, Hh, Ht. cbn [length]. rewrite Lm.
    rewrite (proj2 (Nat.leb_le 4 _)), (proj2 (Nat.leb_le _ 10)), (proj2 (Z.leb_le 2 _)) by lia.
    unfold tl. destruct (_ =? 0); cbn [String.append drop_bytes byte_is];
      rewrite decimal_print by (done || lia); done.
  - cbn [forallb]. by rewrite Hn, Pp, Ph, Ptl, Pt.
  - pose proof (dotted_length (name :: p :: h :: tl :: map hex2 t) 8) as DL. cbn [length] in DL.
    apply hex_length in Hh. transitivity (Z.of_nat (S (S (S (S (length (map hex2 t)))))) * (8 + 1)); [|lia].
    apply DL; [|lia]. repeat (constructor; [lia|]). done.
Qed.

(** *** AV1 *)

Definition color_ok (v : Z) : Prop := 0 <= v <= 22.
Definition colors_ok (c : Av1.Colors) : Prop :=
  color_ok (Av1.primaries c) /\ color_ok (Av1.transfer c) /\ color_ok (Av1.matrix c)
  /\ 0 <= Av1.full_range c.

Lemma lookup_name_in (s : string) (t : list (string * Z)) (v : Z) :
  lookup_name s t = Some v -> In v (map snd t).
Proof.
  unfold lookup_name. destruct (List.find _ t) as [p|] eqn:F; [|done]. cbn. intros [= <-].
  apply find_some in F as [F _]. by apply in_map.
Qed.

(** Every colour the scanner knows fits the codec string. *)
Lemma probed_colors_ok (stream : StreamColors) (c : Av1.Colors) :
  colors stream = Some c -> colors_ok c.
Proof.
  unfold colors. intros H.
  assert (T : forall s t v, lookup_name s t = Some v -> forallb (fun x => (0 <=? x) && (x <=? 22)) (map snd t) = true ->
    color_ok v).
  { intros s t v L F. apply lookup_name_in in L. rewrite forallb_forall in F. specialize (F v L).
    unfold color_ok. dk_bool. lia. }
  repeat match type of H with
  | context [match ?o with Some _ => _ | None => _ end] => destruct o eqn:?; [|done]
  end.
  injection H as <-. unfold colors_ok. cbn [Av1.primaries Av1.transfer Av1.matrix Av1.full_range].
  do 3 (split; [eapply T; [eassumption|vm_compute; reflexivity]|]).
  match goal with L : lookup_name _ range_table = Some ?z |- _ =>
    apply (T _ _ _ L); vm_compute; reflexivity end.
Qed.

Lemma av1_accepted (b : Bytes) (c : Av1.Colors) (cfg : CodecConfiguration) :
  bytes_ok b -> colors_ok c -> Av1.parse b c = Some cfg ->
  accepted "av1" "av01" ["av01"]%string (CodecBytes.copy_codec cfg) /\
  nth_error (Str.split "." (CodecBytes.copy_codec cfg)) 3 = Some (Dec.print02 (CodecBytes.bit_depth cfg)) /\
  (CodecBytes.bit_depth cfg = 8 \/ CodecBytes.bit_depth cfg = 10).
Proof.
  intros Hb (C1 & C2 & C3 & C4) H. unfold Av1.parse in H. dk_ensure H E1. cbv zeta in H. dk_ensure H E2.
  destruct (Av1.obus _ b 4 0) as [n|]; [|done]. dk_ensure H E3.
  set (depth := if Z.land (at_ b 2) 64 =? 0 then 8 else 10) in *.
  assert (Hd : depth = 8 \/ depth = 10) by (unfold depth; destruct (Z.land (at_ b 2) 64 =? 0); [by left|by right]).
  clearbody depth.
  assert (Hbd := f_equal (fun o => unwrap_or (option_map CodecBytes.bit_depth o) 0) H).
  assert (Hc := f_equal (fun o => unwrap_or (option_map CodecBytes.copy_codec o) EmptyString) H).
  cbn [option_map unwrap_or CodecBytes.copy_codec CodecBytes.bit_depth] in Hc, Hbd.
  rewrite <- Hc, <- Hbd. clear H Hc Hbd E1 E3. dk_bool. rewrite mem_In in *.
  unfold Av1.colors_refused in *. dk_bool.
  match goal with E : existsb _ _ = false |- _ => cbn [existsb] in E end. dk_bool.
  unfold color_ok in *.
  match goal with E : Z.shiftr (at_ b 1) 5 = 0 |- _ => rewrite E end.
  set (level := Z.land (at_ b 1) 31) in *.
  assert (Hl : 0 <= level) by (unfold level; rewrite land_31; apply Z.mod_pos_bound; lia).
  clearbody level. set (high := negb (Z.land (at_ b 2) 128 =? 0)) in *. clearbody high.
  set (sub := Z.land (at_ b 2) 3) in *. clearbody sub.
  destruct (print02_ok level 0 23 ltac:(lia) ltac:(lia)) as (L1 & L2 & L3 & _).
  destruct (print02_ok (Av1.primaries c) 1 22 ltac:(lia) ltac:(lia)) as (P1 & P2 & P3 & P4).
  destruct (print02_ok (Av1.transfer c) 1 22 ltac:(lia) ltac:(lia)) as (T1 & T2 & T3 & T4).
  destruct (print02_ok (Av1.matrix c) 1 22 ltac:(lia) ltac:(lia)) as (M1 & M2 & M3 & M4).
  rewrite (proj2 (Z.eqb_neq _ _)) in P4 by done. rewrite (proj2 (Z.eqb_neq _ _)) in T4 by done.
  rewrite (proj2 (Z.eqb_neq _ _)) in M4 by done.
  assert (Hr : In (Dec.print (Av1.full_range c)) ["0"; "1"]%string)
    by (assert (R : Av1.full_range c = 0 \/ Av1.full_range c = 1) by lia; destruct R as [-> | ->]; cbn; auto).
  assert (Hs : In ("11" +:+ Dec.print sub) ["110"; "111"; "112"]%string).
  { match goal with I : In sub _ |- _ => destruct I as [<-|[<-|[<-|[]]]] end; cbn; auto. }
  set (pl := Dec.print02 level) in *. set (pp := Dec.print02 (Av1.primaries c)) in *.
  set (pt := Dec.print02 (Av1.transfer c)) in *. set (pm := Dec.print02 (Av1.matrix c)) in *.
  set (pr := Dec.print (Av1.full_range c)) in *. set (pd := Dec.print02 depth) in *.
  set (ps := "11" +:+ Dec.print sub) in *.
  set (lt := pl +:+ (if high then "H" else "M")).
  assert (Hpd : (pd = "08" \/ pd = "10")%string) by (unfold pd; destruct Hd as [-> | ->]; auto).
  set (fields := ["0"; lt; pd; "0"; ps; pp; pt; pm; pr]%string).
  assert (E : (forall x s : string, "av01." +:+ Dec.print 0 +:+ "." +:+ pl +:+ x +:+ "." +:+ pd +:+ ".0.11" +:+
      s +:+ "." +:+ pp +:+ "." +:+ pt +:+ "." +:+ pm +:+ "." +:+ pr =
      dotted ("av01" :: "0" :: (pl +:+ x) :: pd :: "0" :: ("11" +:+ s) :: [pp; pt; pm; pr]))%string).
  { intros x s. cbn [dotted]. rewrite !str_app_assoc. done. }
  rewrite E. fold ps lt. change (dotted ("av01" :: "0" :: lt :: pd :: "0" :: ps :: [pp; pt; pm; pr]))%string
    with (dotted ("av01" :: fields))%string.
  assert (Hlt : plain lt = true /\ Str.len lt = 3).
  { unfold lt. rewrite plain_app, str_len_app, L2, L1. by destruct high. }
  destruct Hlt as [Plt Llt].
  assert (Hpl : forallb plain ("av01" :: fields)%string = true).
  { unfold fields. cbn [forallb]. rewrite Plt, P2, T2, M2.
    destruct Hpd as [-> | ->]; repeat destruct Hs as [<-|Hs]; try done;
      repeat destruct Hr as [<-|Hr]; done. }
  split; [|split; [by rewrite split_dotted|done]].
  exists fields. split; [by left|]. split; [done|]. split; [done|].
  intros name [<-|[]]. split; [done|]. rewrite valid_codec_dotted; [|done|done|].
  - change (valid_av1 ("av01" :: fields)%string = true). unfold valid_av1, fields, field.
    change (take 3 (drop 6 ["av01"; "0"; lt; pd; "0"; ps; pp; pt; pm; pr]))%string with [pp; pt; pm].
    cbn [nth forallb]. rewrite bool_decide_eq_true_2 by done.
    rewrite Llt, P1, T1, M1, P3, T3, M3, P4, T4, M4.
    replace (one_of ps _) with true by (repeat destruct Hs as [<-|Hs]; done).
    replace (one_of pr _) with true by (repeat destruct Hr as [<-|Hr]; done).
    replace (one_of pd _) with true by (by destruct Hpd as [-> | ->]).
    assert (Hsplit : take_bytes 2 lt = pl /\ drop_bytes 2 lt = if high then "H"%string else "M"%string).
    { unfold lt. unfold Str.len in L1. destruct pl as [|x [|y [|z w]]]; try (cbn in L1; lia).
      by destruct high. }
    destruct Hsplit as [-> D]. unfold byte_is. rewrite D, L3.
    destruct high; [|done]. cbn.
    match goal with E : (level <? 8) && _ = false |- _ => rewrite andb_true_r in E; apply Z.ltb_ge in E end.
    destruct (print02_ok level 8 23 ltac:(lia) ltac:(lia)) as (_ & _ & L8 & _). fold pl in L8.
    by rewrite L8.
  - pose proof (dotted_length ("av01" :: fields)%string 4) as DL. cbn [length fields] in DL.
    transitivity (Z.of_nat 10 * (4 + 1)); [|lia]. apply DL; [|lia]. unfold fields.
    repeat (constructor; [try done; try lia|]); [..|constructor].
    + destruct Hpd as [-> | ->]; done.
    + repeat destruct Hs as [<-|Hs]; done.
    + repeat destruct Hr as [<-|Hr]; done.
Qed.

(** ** What a scan stores is accepted *)

Lemma replace_first_name (name tag : string) (fields : list string) :
  fields <> [] -> replace_first name tag (dotted (name :: fields)) = dotted (tag :: fields).
Proof.
  intros H. destruct fields as [|f fields]; [done|].
  change (dotted (name :: f :: fields)) with (name +:+ "." +:+ dotted (f :: fields)).
  change (dotted (tag :: f :: fields)) with (tag +:+ "." +:+ dotted (f :: fields)).
  generalize ("." +:+ dotted (f :: fields)). intros t.
  pose proof (strip_prefix_app name t) as S. destruct (name +:+ t); cbn [replace_first]; by rewrite S.
Qed.

Definition copy_name (codec : string) : string :=
  if String.eqb codec "h264" then "avc1" else if String.eqb codec "hevc" then "hev1" else "av01".

(** What the check of a descriptor asks of its codecs. *)
Definition codecs_valid (codec copy : string) (file : option string) : Prop :=
  valid_codec copy codec = true /\ head copy = Some (copy_name codec) /\
  forall value, file = Some value -> valid_codec value codec = true /\ rest value = rest copy.

Lemma accepted_valid (codec : string) (names : list string) (copy : string) (tag : option string)
    (container : string) :
  accepted codec (copy_name codec) names copy ->
  (codec = "h264" /\ names = ["avc1"; "avc3"] \/ codec = "hevc" /\ names = ["hvc1"; "hev1"] \/
   codec = "av1" /\ names = ["av01"])%string ->
  codecs_valid codec copy (probed_file_codec codec copy tag container).
Proof.
  intros (fields & Hin & -> & Hne & Hv) Hc. destruct (Hv _ Hin) as [Hp Hval].
  assert (R : forall name, plain name = true -> rest (dotted (name :: fields)) = Some (dotted fields))
    by (intros name Hn; unfold rest; by rewrite head_dotted).
  split; [done|]. split; [unfold head; by rewrite head_dotted|].
  assert (T : forall name, In name names ->
    valid_codec (dotted (name :: fields)) codec = true /\
    rest (dotted (name :: fields)) = rest (dotted (copy_name codec :: fields)))
    by (intros name Hn; destruct (Hv name Hn); split; [done|]; by rewrite !R).
  intros value. unfold probed_file_codec.
  destruct Hc as [[-> ->]|[[-> ->]|[-> ->]]]; cbn -[dotted replace_first existsb] in *;
    destruct (one_of container _); cbn -[dotted replace_first existsb]; try done.
  all: try (destruct tag as [tag|]; [|done]).
  all: repeat match goal with |- context [if ?b then _ else _] => destruct b eqn:? end; try done.
  all: try (rewrite replace_first_name by done); intros [= <-]; apply T; try done.
  all: match goal with E : one_of _ _ = true |- _ =>
    unfold one_of in E; apply existsb_exists in E as (x & I & ->%String.eqb_eq); exact I end.
Qed.

(** C32: what a scan reads from a file passes the checks made when it is read
    back: for every configuration record that is accepted (with colours the
    scanner knows, for AV1), the codec string is valid for its codec and begins
    with the name the checks expect, the codec of the file differs from it in
    that name at most, and an AV1 string carries the bit depth of the record. *)
Theorem scanned_codecs_are_accepted (codec : string) (b : Bytes) (depth : Z) (stream : StreamColors)
    (c : Av1.Colors) (cfg : CodecConfiguration) (tag : option string) (container : string) :
  bytes_ok b -> (codec = "av1"%string -> colors stream = Some c) ->
  CodecConfig.video codec b depth c = Some cfg ->
  codecs_valid codec (CodecBytes.copy_codec cfg)
    (probed_file_codec codec (CodecBytes.copy_codec cfg) tag container) /\
  CodecBytes.bit_depth cfg = depth /\
  (codec = "av1"%string ->
   (let! f := nth_error (Str.split "." (CodecBytes.copy_codec cfg)) 3 in Dec.parse_unsigned 255 f)
   = Some depth).
Proof.
  intros Hb Hcol H. unfold CodecConfig.video in H. destruct (too_long b); [done|].
  assert (Hd : forall p, (if CodecBytes.bit_depth p =? depth then Some p else None) = Some cfg ->
    p = cfg /\ CodecBytes.bit_depth p = depth).
  { intros p. destruct (CodecBytes.bit_depth p =? depth) eqn:E; [|done]. intros [= <-]. dk_bool. done. }
  destruct (String.eqb_spec codec "h264") as [->|N1].
  { destruct (Avc.parse b) as [p|] eqn:P; [|done]. destruct (Hd p H) as [<- <-].
    split; [|done]. eapply accepted_valid; [by apply (avc_accepted b)|]. by left. }
  destruct (String.eqb_spec codec "hevc") as [->|N2].
  { destruct (Hevc.parse b) as [p|] eqn:P; [|done]. destruct (Hd p H) as [<- <-].
    split; [|done]. eapply accepted_valid; [by apply (hevc_accepted b)|]. by right; left. }
  destruct (String.eqb_spec codec "av1") as [->|N3]; [|done].
  destruct (Av1.parse b c) as [p|] eqn:P; [|done]. destruct (Hd p H) as [<- <-].
  destruct (av1_accepted b c p Hb (probed_colors_ok _ _ (Hcol eq_refl)) P) as (A & F & D).
  split; [|split; [done|]].
  - eapply accepted_valid; [exact A|]. by right; right.
  - intros _. rewrite F. by destruct D as [-> | ->].
Qed.

(** An accepted descriptor names each stream of the file once, the video
    stream included, and every audio stream it lets a client copy is AAC-LC. *)
Theorem accepted_streams_are_distinct (from_value : Json.Value -> option PlaybackDescriptor)
    (metadata : Json.Value) (d : PlaybackDescriptor) :
  from_metadata from_value metadata = Some d ->
  NoDup (index (video d) :: map a_index (audio d)) /\
  Forall (fun a => 0 <= a_index a /\ (a_copy_codec a <> None ->
    a_codec a = "aac"%string /\ a_copy_codec a = Some "mp4a.40.2"%string)) (audio d) /\
  (length (audio d) <= 32)%nat.
Proof.
  unfold from_metadata. destruct (Json.get _ metadata) as [v|]; [|done].
  destruct (from_value v) as [d'|]; [|done]. intros H. dk_ensure H E. injection H as ->.
  unfold descriptor_valid in E. dk_bool.
  assert (A : forall l (s : gset Z), audios_valid s l = true ->
    NoDup (map a_index l) /\ Forall (fun a => (a_index a ∉ s) /\ audio_valid a = true) l).
  { induction l as [|a l IH]; intros s; cbn; [split; constructor|]. intros V. dk_bool.
    match goal with B : bool_decide _ = false |- _ => apply bool_decide_eq_false in B; rename B into Bd end.
    match goal with V : audios_valid _ _ = true |- _ => destruct (IH _ V) as [N F] end.
    split; [constructor; [|done]|].
    - intros I. apply list_elem_of_fmap in I as (x & Hx & I). rewrite Forall_forall in F.
      destruct (F x I) as [F' _]. set_solver.
    - constructor; [done|]. eapply Forall_impl; [exact F|]. intros x [? ?]. set_solver. }
  match goal with V : audios_valid _ _ = true |- _ => destruct (A _ _ V) as [N F] end.
  split; [|split; [|by apply Nat.leb_le]].
  - constructor; [|done]. intros I. apply list_elem_of_fmap in I as (x & Hx & I).
    rewrite Forall_forall in F. destruct (F x I) as [F' _]. set_solver.
  - eapply Forall_impl; [exact F|]. intros a [_ V]. unfold audio_valid in V. dk_bool. split; [lia|].
    destruct (a_copy_codec a) as [cc|]; [|done]. intros _. cbn in *. dk_bool.
    repeat match goal with E : String.eqb _ _ = true |- _ => apply String.eqb_eq in E end. by subst.
Qed.

Lemma scanned_codecs_are_accepted_witness :
  valid_codec "avc1.42001E" "h264" = true /\
  probed_file_codec "h264" "avc1.42001E" (Some "avc3"%string) "mp4" = Some "avc3.42001E"%string /\
  valid_codec "avc3.42001E" "h264" = true.
Proof.
  set (b := [1; 66; 0; 30; 0xff; 0xe1; 0; 4; 0x67; 66; 0; 30; 1; 0; 2; 0x68; 1]).
  destruct (scanned_codecs_are_accepted "h264" b 8 (mk_stream_colors None None None None)
    (Av1.mk_colors 1 1 1 0) (mk_config "avc1.42001E" 8 30) (Some "avc3"%string) "mp4")
    as ((V & _ & F) & _).
  - apply bytes_ok_of. vm_compute. reflexivity.
  - intros E. discriminate E.
  - vm_compute. reflexivity.
  - assert (P : probed_file_codec "h264" "avc1.42001E" (Some "avc3"%string) "mp4" = Some "avc3.42001E"%string)
      by (vm_compute; reflexivity).
    split; [exact V|]. split; [exact P|]. exact (proj1 (F _ P)).
Defined.

Definition hash_sample : string := "0123456789abcdef0123456789abcdef0123456789abcdef0123456789abcdef".
Definition descriptor_sample : PlaybackDescriptor :=
  mk_descriptor 1 (mk_scan 1000 "1700000000000000000") 1
    (mk_video 0 "h264" (Some "avc3.42001E"%string) "avc1.42001E" 1280 720 8 (F64.of_ratio 24000 1001)
       (Some 3000000) (Some "stream"%string) hash_sample "sdr")
    [mk_audio 1 "aac" "mp4a.40.2" (Some "mp4a.40.2"%string) None 48000 2 hash_sample].

Example accepted_streams_are_distinct_example :
  NoDup (index (video descriptor_sample) :: map a_index (audio descriptor_sample)).
Proof.
  destruct (accepted_streams_are_distinct (fun _ => Some descriptor_sample)
    (Json.Object [("playback_descriptor", Json.Null)]%string) descriptor_sample) as (N & _);
    [vm_compute; reflexivity|exact N].
Defined.

End DescriptorProofs.
