(* ===== verification/VodQueue.v ===== *)
(** * Output queue of a streamed response

    Models server/src/services/vod_lifecycle/queue.rs and body.rs, and the
    response task of read.rs: a bounded queue between the task that reads the
    content and the HTTP body that sends it.  Every operation under the lock of
    the queue is one step; the waker of the body and the notifications of the
    task are explicit, so that a lost wake-up would be a stuck state.

    A panic while the lock is held poisons it; no operation panics there, so the
    recovery from poison is left out. *)

From S2P Require Import Prelude.

Module VodQueue.

Definition CHUNK : Z := 65536.

Abbreviation Bytes := (list Z).
Definition blen (b : Bytes) : Z := Z.of_nat (length b).

(** ** queue.rs *)

(** [waker]: whether a waker of the body is stored. *)
Record State := mk_state { chunks : list Bytes; done : bool; cancelled : bool; waker : bool }.

Definition new : State := mk_state [] false false false.

(** What an operation tells the others: whether it wakes the body and whether it
    calls [notify_waiters]. *)
Record Signal := mk_signal { wakes : bool; notifies : bool }.

Definition cancel (s : State) : State * Signal :=
  (mk_state [] (done s) true false, mk_signal (waker s) true).

Definition finish (s : State) : State * Signal :=
  (mk_state (chunks s) true (cancelled s) false, mk_signal (waker s) true).

(** One turn of [push] under the lock: [Some false] when the queue is cancelled,
    [Some true] when the bytes are queued, [None] to wait for a change. *)
Definition try_push (bytes : Bytes) (s : State) : option bool * State * Signal :=
  if cancelled s then (Some false, s, mk_signal false false)
  else if (length (chunks s) <? 2)%nat then
    (Some true, mk_state (chunks s ++ [bytes]) (done s) false false, mk_signal (waker s) false)
  else (None, s, mk_signal false false).

(** The test of [drained] under the lock. *)
Definition is_drained (s : State) : bool :=
  cancelled s || (done s && match chunks s with [] => true | _ => false end).

(** ** body.rs *)

Inductive Poll : Type := Item (b : Bytes) | Interrupted | End | Pending.

(** [poll_next] of a body that has not ended, with whether it has now. *)
Definition poll_next (s : State) : Poll * bool * State * Signal :=
  if cancelled s then (Interrupted, true, s, mk_signal false false)
  else match chunks s with
  | b :: rest => (Item b, false, mk_state rest (done s) false (waker s), mk_signal false true)
  | [] =>
      if done s then (End, true, s, mk_signal false true)
      else (Pending, false, mk_state [] false false true, mk_signal false false)
  end.

(** ** read.rs: the response task

    [Reading rest]: about to read the next part of the content that is left;
    [Push], [PushArmed], [PushWait]: in the loop of [push], before it registers
    for a change, before it takes the lock, and while it waits, with whether a
    change has been signalled since it registered; [Failed]: streaming failed,
    about to cancel; [Finish]: about to mark the end; [Drain...]: in the loop of
    [drained]; [Completed]: the response is removed from its owner. *)
Inductive Producer : Type :=
| Reading (rest : Bytes)
| Push (part rest : Bytes)
| PushArmed (part rest : Bytes) (notified : bool)
| PushWait (part rest : Bytes) (notified : bool)
| Failed
| Finish
| Drain
| DrainArmed (notified : bool)
| DrainWait (notified : bool)
| Completed.

(** The body: open, with whether it is scheduled to be polled; ended, cleanly or
    by an interruption; dropped. *)
Inductive Body : Type :=
| Open (scheduled : bool)
| Ended (clean : bool)
| Dropped.

Record Sys := mk_sys { queue : State; producer : Producer; body : Body; received : Bytes }.

Definition notify (n : bool) (p : Producer) : Producer :=
  if n then
    match p with
    | PushArmed a r _ => PushArmed a r true
    | PushWait a r _ => PushWait a r true
    | DrainArmed _ => DrainArmed true
    | DrainWait _ => DrainWait true
    | _ => p
    end
  else p.

Definition wake (w : bool) (b : Body) : Body :=
  if w then match b with Open _ => Open true | _ => b end else b.

(** The system after an operation on the queue. *)
Definition after (x : State * Signal) (p : Producer) (b : Body) (r : Bytes) : Sys :=
  mk_sys x.1 (notify (notifies x.2) p) (wake (wakes x.2) b) r.

(** The parts [stream] may push next: a file is read in parts of any size up to
    [CHUNK]; bytes in memory are cut into parts of [CHUNK] bytes. *)
Definition part_ok (part : Bytes) : Prop := 1 <= blen part <= CHUNK.

(** Steps of the task and of the body. *)
Inductive internal : Sys -> Sys -> Prop :=
| read_part q b r part rest :
    part_ok part -> internal (mk_sys q (Reading (part ++ rest)) b r) (mk_sys q (Push part rest) b r)
| read_fails q b r rest :
    internal (mk_sys q (Reading rest) b r) (mk_sys q Failed b r)
| read_end q b r : internal (mk_sys q (Reading []) b r) (mk_sys q Finish b r)
| arm_push q b r part rest :
    internal (mk_sys q (Push part rest) b r) (mk_sys q (PushArmed part rest false) b r)
| push_step q q' sig b r part rest n res :
    try_push part q = (res, q', sig) ->
    internal (mk_sys q (PushArmed part rest n) b r)
      (after (q', sig) (match res with
                        | Some true => Reading rest
                        | Some false => Failed
                        | None => PushWait part rest n
                        end) b r)
| wake_push q b r part rest :
    internal (mk_sys q (PushWait part rest true) b r) (mk_sys q (Push part rest) b r)
| failed_cancels q b r : internal (mk_sys q Failed b r) (after (cancel q) Finish b r)
| finish_step q b r : internal (mk_sys q Finish b r) (after (finish q) Drain b r)
| arm_drain q b r : internal (mk_sys q Drain b r) (mk_sys q (DrainArmed false) b r)
| drain_step q b r n :
    internal (mk_sys q (DrainArmed n) b r)
      (mk_sys q (if is_drained q then Completed else DrainWait n) b r)
| wake_drain q b r : internal (mk_sys q (DrainWait true) b r) (mk_sys q Drain b r)
| poll_step q q' sig p r res ended :
    poll_next q = (res, ended, q', sig) ->
    internal (mk_sys q p (Open true) r)
      (after (q', sig) p
         (if ended then Ended (match res with End => true | _ => false end)
          else Open (match res with Pending => false | _ => true end))
         (match res with Item b => r ++ b | _ => r end)).

(** Steps of the others: the session, the viewer or the server cancels the
    queue, and the connection drops the body, which cancels it too. *)
Inductive external : Sys -> Sys -> Prop :=
| cancel_step q p b r : external (mk_sys q p b r) (after (cancel q) p b r)
| drop_step q p b r : external (mk_sys q p b r) (after (cancel q) p Dropped r).

Inductive reachable (content : Bytes) : Sys -> Prop :=
| reach_init : reachable content (mk_sys new (Reading content) (Open true) [])
| reach_internal s s' : reachable content s -> internal s s' -> reachable content s'
| reach_external s s' : reachable content s -> external s s' -> reachable content s'.

(** [for offset in (0..bytes.len()).step_by(CHUNK)]: the parts of bytes held in
    memory; the length of the bytes is enough fuel. *)
Fixpoint slices (fuel : nat) (bytes : Bytes) : list Bytes :=
  match fuel, bytes with
  | S f, _ :: _ => take (Z.to_nat CHUNK) bytes :: slices f (drop (Z.to_nat CHUNK) bytes)
  | _, _ => []
  end.

Lemma slices_parts (fuel : nat) (bytes : Bytes) :
  (length bytes <= fuel)%nat -> concat (slices fuel bytes) = bytes /\ Forall part_ok (slices fuel bytes).
Proof.
  assert (C : exists k, Z.to_nat CHUNK = S k) by (exists (Z.to_nat 65535); reflexivity).
  destruct C as [k C].
  revert bytes. induction fuel as [|f IH]; intros bytes H; [destruct bytes; [by split|cbn in H; lia]|].
  destruct bytes as [|x t]; [by split|]. cbn [slices concat].
  destruct (IH (drop (Z.to_nat CHUNK) (x :: t))) as [E F].
  { rewrite length_drop, C. cbn [length] in *. lia. }
  rewrite E, take_drop. split; [done|]. constructor; [|done].
  unfold part_ok, blen. rewrite length_take, C. unfold CHUNK in *. cbn [length]. lia.
Qed.

(** ** Invariant *)

(** The content the task has still to hand to the queue. *)
Definition unsent (p : Producer) : option Bytes :=
  match p with
  | Reading rest => Some rest
  | Push part rest | PushArmed part rest _ | PushWait part rest _ => Some (part ++ rest)
  | Failed => None
  | _ => Some []
  end.

Definition marks_done (p : Producer) : bool :=
  match p with Drain | DrainArmed _ | DrainWait _ | Completed => true | _ => false end.

Definition part_pending (p : Producer) : Prop :=
  match p with Push part _ | PushArmed part _ _ | PushWait part _ _ => part_ok part | _ => True end.

(** Waiting without a signal: nothing has changed since the test. *)
Definition waits_rightly (s : Sys) : Prop :=
  match producer s with
  | PushWait _ _ false => cancelled (queue s) = false /\ length (chunks (queue s)) = 2%nat
  | DrainWait false => is_drained (queue s) = false
  | Completed => is_drained (queue s) = true
  | _ => True
  end.

Definition body_ok (content : Bytes) (s : Sys) : Prop :=
  match body s with
  | Open false => waker (queue s) = true /\ chunks (queue s) = [] /\ done (queue s) = false /\
                  cancelled (queue s) = false
  | Open true => True
  | Ended true => received s = content /\ chunks (queue s) = [] /\ done (queue s) = true
  | Ended false | Dropped => cancelled (queue s) = true
  end.

Record inv (content : Bytes) (s : Sys) : Prop := {
  inv_bound : (length (chunks (queue s)) <= 2)%nat;
  inv_cleared : cancelled (queue s) = true -> chunks (queue s) = [];
  inv_done : done (queue s) = marks_done (producer s);
  inv_part : part_pending (producer s);
  inv_order : exists lost, received s ++ concat (chunks (queue s)) ++ lost = content /\
    (cancelled (queue s) = false -> forall u, unsent (producer s) = Some u -> lost = u);
  inv_wait : waits_rightly s;
  inv_body : body_ok content s }.

Lemma notify_unsent (n : bool) (p : Producer) :
  unsent (notify n p) = unsent p /\ marks_done (notify n p) = marks_done p /\
  (part_pending p -> part_pending (notify n p)) /\
  (forall a r, notify n p = PushWait a r false -> n = false /\ p = PushWait a r false) /\
  (notify n p = DrainWait false -> n = false /\ p = DrainWait false) /\
  (notify n p = Completed -> p = Completed).
Proof.
  split; [by destruct n, p|]. split; [by destruct n, p|]. split; [by destruct n, p|].
  destruct n, p; cbn; split; try split; intros; simplify_eq; auto.
Qed.

Lemma waits_intro (q : State) (p : Producer) (b : Body) (r : Bytes) :
  (forall a rest, p = PushWait a rest false -> cancelled q = false /\ length (chunks q) = 2%nat) ->
  (p = DrainWait false -> is_drained q = false) -> (p = Completed -> is_drained q = true) ->
  waits_rightly (mk_sys q p b r).
Proof.
  intros H1 H2 H3. unfold waits_rightly. cbn. destruct p as [| | |a r' []| | | | |[]|]; auto.
  by eapply H1.
Qed.

(** Cancelling keeps the invariant, whoever does it and whatever follows for the
    body. *)
Lemma cancel_inv (content : Bytes) (q : State) (p p' : Producer) (b b' : Body) (r : Bytes) :
  inv content (mk_sys q p b r) -> (p' = p \/ p = Failed /\ p' = Finish) -> (b' = b \/ b' = Dropped) ->
  inv content (after (cancel q) p' b' r).
Proof.
  intros [I1 I2 I3 I4 (lost & I5 & _) I6 I7] Hp Hb. cbn in *.
  assert (Hd : marks_done p' = marks_done p) by (by destruct Hp as [->|[-> ->]]).
  assert (Hu : part_pending p') by (by destruct Hp as [->|[-> ->]]).
  destruct (notify_unsent true p') as (_ & M & P & W1 & W2 & W3).
  split; cbn -[notify].
  - lia.
  - done.
  - congruence.
  - auto.
  - exists (concat (chunks q) ++ lost). split; [done|done].
  - apply waits_intro; cbn -[notify].
    + intros a rest E. by destruct (W1 a rest E).
    + intros E. by destruct (W2 E).
    + done.
  - unfold body_ok in *. cbn in *.
    destruct Hb as [->| ->]; [|by destruct (waker q)].
    destruct b as [[]|[]|]; cbn in *; destruct (waker q) eqn:Wq; cbn; intuition (try done).
Qed.


(** A step of the task that leaves the queue as it is. *)
Lemma producer_inv (content : Bytes) (q : State) (p p' : Producer) (b : Body) (r : Bytes) :
  inv content (mk_sys q p b r) -> marks_done p' = marks_done p -> part_pending p' ->
  (forall u, unsent p' = Some u -> unsent p = Some u) -> waits_rightly (mk_sys q p' b r) ->
  inv content (mk_sys q p' b r).
Proof.
  intros [I1 I2 I3 I4 (lost & I5 & I5') I6 I7] Hd Hp Hu Hw. cbn in *.
  split; cbn; try done; [congruence|]. exists lost. split; [done|]. intros C u U. auto.
Qed.

Lemma push_inv (content : Bytes) (q q' : State) (sig : Signal) (b : Body) (r part rest : Bytes)
    (n : bool) (res : option bool) :
  inv content (mk_sys q (PushArmed part rest n) b r) -> try_push part q = (res, q', sig) ->
  inv content (after (q', sig) (match res with
    | Some true => Reading rest | Some false => Failed | None => PushWait part rest n end) b r).
Proof.
  intros I E. unfold try_push in E. destruct (cancelled q) eqn:C; simplify_eq.
  { unfold after. cbn. by eapply producer_inv. }
  destruct (Nat.ltb_spec (length (chunks q)) 2) as [L|L]; simplify_eq.
  - destruct I as [I1 I2 I3 I4 (lost & I5 & I5') I6 I7]. cbn in *.
    split; cbn; try done.
    + rewrite length_app. cbn. lia.
    + exists rest. split; [|by intros ? u [= <-]]. rewrite (I5' C _ eq_refl) in I5.
      rewrite concat_app. cbn. by rewrite app_nil_r, <- !app_assoc.
    + unfold body_ok in *. cbn in *. destruct b as [[]|[]|], (waker q); cbn; intuition (try congruence).
  - unfold after. cbn.
    eapply producer_inv; [exact I|done|apply (inv_part _ _ I)|done|]. unfold waits_rightly. cbn.
    destruct n; [done|]. split; [done|]. destruct I as [I1 _ _ _ _ _ _]. cbn in I1. lia.
Qed.

Lemma finish_inv (content : Bytes) (q : State) (b : Body) (r : Bytes) :
  inv content (mk_sys q Finish b r) -> inv content (after (finish q) Drain b r).
Proof.
  intros [I1 I2 I3 I4 (lost & I5 & I5') I6 I7]. cbn in *. split; cbn; try done.
  - exists lost. split; [done|]. intros C u [= <-]. by apply I5'.
  - unfold body_ok in *. cbn in *. destruct b as [[]|[]|], (waker q); cbn; intuition (try congruence).
Qed.

Lemma poll_inv (content : Bytes) (q q' : State) (sig : Signal) (p : Producer) (r : Bytes)
    (res : Poll) (ended : bool) :
  inv content (mk_sys q p (Open true) r) -> poll_next q = (res, ended, q', sig) ->
  inv content (after (q', sig) p
    (if ended then Ended (match res with End => true | _ => false end)
     else Open (match res with Pending => false | _ => true end))
    (match res with Item b => r ++ b | _ => r end)).
Proof.
  intros [I1 I2 I3 I4 (lost & I5 & I5') I6 I7] E. cbn in *. unfold poll_next in E.
  destruct (notify_unsent true p) as (U & M & P & W1 & W2 & W3).
  destruct (cancelled q) eqn:C.
  { injection E as <- <- <- <-. split; cbn; rewrite ?C; auto. by exists lost. }
  destruct (chunks q) as [|c rest] eqn:Q; [destruct (done q) eqn:D|]; injection E as <- <- <- <-.
  - split; cbn -[notify]; rewrite ?Q; cbn -[notify]; try done; [by rewrite M, D|auto| | |].
    + exists lost. split; [done|]. rewrite U. auto.
    + apply waits_intro; cbn -[notify].
      * intros a r' X. by destruct (W1 _ _ X).
      * intros X. by destruct (W2 X).
      * intros X. unfold is_drained. by rewrite D, Q, orb_true_r.
    + unfold body_ok. cbn. split; [|done].
      enough (X : lost = []) by (rewrite X in I5; cbn in I5; by rewrite app_nil_r in I5).
      apply I5'; [done|]. by destruct p.
  - split; cbn; try done; [by exists lost|].
    unfold waits_rightly in *. cbn in *. destruct p as [| | |? ? []| | | | |[]|]; try done.
    destruct I6 as [_ I6]. by rewrite Q in I6.
  - split; cbn -[notify]; try done; [cbn in I1; lia|by rewrite M|auto| |].
    + exists lost. rewrite U. split; [|auto]. cbn in I5. by rewrite <- I5, <- !app_assoc.
    + apply waits_intro; cbn -[notify].
      * intros a r' X. by destruct (W1 _ _ X).
      * intros X. by destruct (W2 X).
      * intros X. rewrite (W3 X) in I6. unfold waits_rightly, is_drained in I6. cbn in I6.
        rewrite C, Q, andb_false_r in I6. done.
Qed.

Lemma internal_inv (content : Bytes) (s s' : Sys) : inv content s -> internal s s' -> inv content s'.
Proof.
  intros I H. revert I.
  destruct H as [q b r part rest Hp|q b r rest|q b r|q b r part rest|q q' sig b r part rest n res E|
            q b r part rest|q b r|q b r|q b r|q b r n|q b r|q q' sig p r res ended E]; intros I.
  - by apply (producer_inv _ _ _ _ _ _ I).
  - by apply (producer_inv _ _ _ _ _ _ I).
  - by apply (producer_inv _ _ _ _ _ _ I).
  - eapply producer_inv; [exact I|done|apply (inv_part _ _ I)|done|done].
  - by eapply push_inv.
  - eapply producer_inv; [exact I|done|apply (inv_part _ _ I)|done|done].
  - eapply cancel_inv; [done|right|left]; done.
  - by apply finish_inv.
  - by apply (producer_inv _ _ _ _ _ _ I).
  - eapply producer_inv; [done|by destruct (is_drained q)..|]; unfold waits_rightly; cbn;
      destruct (is_drained q) eqn:E; cbn; by destruct n.
  - by apply (producer_inv _ _ _ _ _ _ I).
  - by eapply poll_inv.
Qed.

Lemma reachable_inv (content : Bytes) (s : Sys) : reachable content s -> inv content s.
Proof.
  induction 1 as [|s s' _ I H|s s' _ I H].
  - split; cbn; try done; [lia|]. exists content. split; [done|]. by intros _ u [= <-].
  - by eapply internal_inv.
  - revert I. destruct H as [q p b r|q p b r]; intros I; apply (cancel_inv _ _ _ _ _ _ _ I); auto.
Qed.

(** ** Progress *)

(** Nothing is left to do: the response is removed from its owner, and the body
    has ended or was dropped. *)
Definition final (s : Sys) : Prop :=
  producer s = Completed /\ match body s with Open _ => False | _ => True end.

Lemma task_progress (q : State) (p : Producer) (b : Body) (r : Bytes) :
  (exists s', internal (mk_sys q p b r) s') \/ p = Completed \/ p = DrainWait false \/
  exists part rest, p = PushWait part rest false.
Proof.
  destruct p as [rest|part rest|part rest n|part rest []| | | |n|[]|].
  - left. eexists. apply read_fails.
  - left. eexists. apply arm_push.
  - left. destruct (try_push part q) as [[res q'] sig] eqn:E. eexists. by eapply push_step.
  - left. eexists. apply wake_push.
  - eauto 6.
  - left. eexists. apply failed_cancels.
  - left. eexists. apply finish_step.
  - left. eexists. apply arm_drain.
  - left. eexists. apply drain_step.
  - left. eexists. apply wake_drain.
  - auto.
  - auto.
Qed.

(** A system that satisfies the invariant can step while it is not final: no
    wake-up is ever lost, so the task and the body never wait for each other. A
    body that ended cleanly drained the queue; one that was interrupted found it
    cancelled. *)
Lemma inv_progress (content : Bytes) (s : Sys) : inv content s -> (exists s', internal s s') \/ final s.
Proof.
  destruct s as [q p b r]. intros [I1 I2 I3 I4 _ I6 I7]. unfold waits_rightly, body_ok in *. cbn in *.
  destruct (task_progress q p b r) as [H|H]; [by left|].
  destruct b as [[]|clean|]; cbn in I7.
  - left. destruct (poll_next q) as [[[res ended] q'] sig] eqn:E. eexists. by eapply poll_step.
  - destruct I7 as (_ & C & D & K). destruct H as [->|[->|(part & rest & ->)]].
    + cbn in I3. congruence.
    + cbn in I3. congruence.
    + by rewrite C in I6; destruct I6.
  - right. split; [|done]. destruct H as [->|[->|(part & rest & ->)]]; [done| |].
    + unfold is_drained in I6. destruct clean; [destruct I7 as (_ & C & D)|rewrite I7 in I6; done].
      by rewrite C, D, orb_true_r in I6.
    + destruct clean; [by destruct I7 as (_ & _ & D); rewrite D in I3|]. by destruct I6; congruence.
  - right. split; [|done]. destruct H as [->|[->|(part & rest & ->)]]; [done| |].
    + unfold is_drained in I6. by rewrite I7 in I6.
    + by destruct I6; congruence.
Qed.

(** The steps left: what the task has still to do, the chunks in the queue, and
    one for a body that is scheduled. A change may wake the one that waits. *)
Definition task_potential (p : Producer) : Z :=
  match p with
  | Reading rest => 100 * blen rest + 50
  | Push part rest => 100 * (blen part + blen rest) + 24
  | PushArmed part rest n => 100 * (blen part + blen rest) + 20 + (if n then 6 else 3)
  | PushWait part rest n => 100 * (blen part + blen rest) + 20 + (if n then 5 else 2)
  | Failed => 45
  | Finish => 30
  | Drain => 4
  | DrainArmed n => if n then 6 else 3
  | DrainWait n => if n then 5 else 2
  | Completed => 0
  end.

Definition body_potential (b : Body) : Z :=
  match b with Open true => 11 | Open false => 10 | _ => 0 end.

Definition potential (s : Sys) : Z :=
  task_potential (producer s) + 20 * Z.of_nat (length (chunks (queue s))) + body_potential (body s).

Lemma notify_potential (n : bool) (p : Producer) :
  task_potential p <= task_potential (notify n p) <= task_potential p + (if n then 3 else 0).
Proof. destruct n, p as [| |? ? []|? ? []| | | |[]|[]|]; cbn; lia. Qed.

Lemma wake_potential (w : bool) (b : Body) :
  body_potential b <= body_potential (wake w b) <= body_potential b + (if w then 1 else 0).
Proof. destruct w, b as [[]| |]; cbn; lia. Qed.

Lemma task_potential_pos (p : Producer) : 0 <= task_potential p.
Proof. unfold task_potential, blen. destruct p as [| |? ? []|? ? []| | | |[]|[]|]; lia. Qed.

Lemma potential_pos (s : Sys) : 0 <= potential s.
Proof.
  pose proof (task_potential_pos (producer s)). unfold potential.
  destruct (body s) as [[]| |]; cbn; lia.
Qed.

Lemma potential_decreases (content : Bytes) (s s' : Sys) :
  inv content s -> internal s s' -> potential s' < potential s.
Proof.
  intros I H. revert I.
  destruct H as [q b r part rest Hp|q b r rest|q b r|q b r part rest|q q' sig b r part rest n res E|
            q b r part rest|q b r|q b r|q b r|q b r n|q b r|q q' sig p r res ended E]; intros I;
    unfold potential; cbn -[Z.mul Z.add notify wake].
  - unfold blen. rewrite length_app. lia.
  - unfold blen. lia.
  - unfold blen. cbn. lia.
  - lia.
  - pose proof (inv_part _ _ I) as Hp. unfold part_pending, part_ok in Hp. cbn in Hp.
    assert (0 <= blen rest) by (unfold blen; lia). pose proof (wake_potential (waker q) b). unfold try_push in E.
    destruct (cancelled q); [|destruct (length (chunks q) <? 2)%nat];
      injection E as <- <- <-; cbn -[Z.mul Z.add Z.of_nat wake]; rewrite ?length_app;
      cbn -[Z.mul Z.add Z.of_nat Nat.add wake]; destruct n, (waker q); cbn [wake] in *; lia.
  - lia.
  - pose proof (wake_potential (waker q) b). cbn [notify task_potential]. destruct (waker q); lia.
  - pose proof (wake_potential (waker q) b). cbn [notify task_potential]. destruct (waker q); lia.
  - lia.
  - destruct (is_drained q), n; cbn; lia.
  - lia.
  - pose proof (notify_potential true p) as N. unfold poll_next in E.
    destruct (cancelled q); [|destruct (chunks q) eqn:Q; [destruct (done q)|]];
      injection E as <- <- <- <-; cbn -[Z.mul Z.add Z.of_nat notify]; rewrite ?Q; cbn [notify wake length] in *; lia.
Qed.

(** C5. However the task, the body and the cancellations interleave: the queue
    never holds more than two chunks; what the connection receives is a prefix of
    the content, so chunks are neither reordered, repeated nor lost in between;
    and a body that ends without an error has delivered the whole content. *)
Theorem output_is_a_prefix (content : Bytes) (s : Sys) :
  reachable content s ->
  (length (chunks (queue s)) <= 2)%nat /\ received s `prefix_of` content /\
  (body s = Ended true -> received s = content).
Proof.
  intros H. destruct (reachable_inv _ _ H) as [I1 _ _ _ (lost & I5 & _) _ I7]. split; [done|].
  split; [by eexists|]. intros E. unfold body_ok in I7. rewrite E in I7. by destruct I7.
Qed.

(** C6. A response always completes: in every reachable state either the task or
    the body can take a step or both are done, so no wake-up is lost and neither
    waits for the other for ever; and they take finitely many steps in a row,
    whatever the order, so a connection that keeps polling gets its response and
    the response is removed from its owner. *)
Theorem responses_complete (content : Bytes) (s : Sys) :
  reachable content s -> ((exists s', internal s s') \/ final s) /\ Acc (fun b a => internal a b) s.
Proof.
  intros H. split; [by eapply inv_progress, reachable_inv|]. apply reachable_inv in H.
  remember (Z.to_nat (potential s)) as n eqn:N. revert s N H.
  induction (lt_wf n) as [n _ IH]. intros s -> I. constructor. intros s' S.
  pose proof (potential_decreases _ _ _ I S). pose proof (potential_pos s').
  apply (IH (Z.to_nat (potential s'))); [lia|done|by eapply internal_inv].
Qed.

(** A run that ends cleanly: one part is queued and received, and the body drains
    the queue after the end is marked. *)
Lemma clean_run : reachable [1; 2; 3] (mk_sys (mk_state [] true false false) (DrainArmed true) (Ended true) [1; 2; 3]).
Proof.
  eapply (reach_internal _ (mk_sys (mk_state [] true false false) (DrainArmed false) (Open true) [1; 2; 3]));
    [|exact (poll_step (mk_state [] true false false) _ _ (DrainArmed false) [1; 2; 3] _ _ eq_refl)].
  eapply reach_internal; [|apply arm_drain].
  eapply (reach_internal _ (mk_sys (mk_state [] false false false) Finish (Open true) [1; 2; 3])); [|apply finish_step].
  eapply reach_internal; [|apply read_end].
  eapply (reach_internal _ (mk_sys (mk_state [[1; 2; 3]] false false false) (Reading []) (Open true) []));
    [|exact (poll_step (mk_state [[1; 2; 3]] false false false) _ _ (Reading []) [] _ _ eq_refl)].
  eapply (reach_internal _ (mk_sys new (PushArmed [1; 2; 3] [] false) (Open true) []));
    [|exact (push_step new _ _ (Open true) [] [1; 2; 3] [] false _ eq_refl)].
  eapply reach_internal; [|apply arm_push].
  eapply reach_internal; [apply reach_init|]. apply (read_part new _ _ [1; 2; 3] []). by vm_compute.
Qed.

Lemma output_is_a_prefix_witness :
  let s := mk_sys (mk_state [] true false false) (DrainArmed true) (Ended true) [1; 2; 3] in
  (length (chunks (queue s)) <= 2)%nat /\ received s `prefix_of` [1; 2; 3] /\
  (body s = Ended true -> received s = [1; 2; 3]).
Proof. exact (output_is_a_prefix [1; 2; 3] _ clean_run). Defined.

Lemma responses_complete_witness :
  let s := mk_sys (mk_state [] true false false) (DrainArmed true) (Ended true) [1; 2; 3] in
  ((exists s', internal s s') \/ final s) /\ Acc (fun b a => internal a b) s.
Proof. exact (responses_complete [1; 2; 3] _ clean_run). Defined.

End VodQueue.
