(* ===== verification/VodOwner.v ===== *)
(** * Ownership of streamed responses

    Models server/src/services/vod_lifecycle/owner.rs, generation.rs and the
    registration and completion of a response in read.rs: the registry of
    generations (one per playback session) and responses, their permits, and the
    shutdown.

    Locks: every operation runs under the lock of the registry or of one gate.
    [enqueue_response] takes the gates one after the other while it holds the
    registry; a gate that is retired between two of its registrations is the same
    as one retired before the second or after the first, so it is one step here.
    [Completion::finish] is three steps.  No operation panics under a lock, so
    the recovery from poison is left out. *)

From stdpp Require Import gmap.
From S2P Require Import Prelude VodQueue.

Module VodOwner.
Import VodQueue.

(** A [Uuid], the address of a [Generation] ([Arc]), and the tokens a task tracker
    counts, named by the task that holds them: a response for its generation, a
    response for its viewer, an inspection. *)
Abbreviation Uuid := Z.
Abbreviation Ref := positive.
Abbreviation Token := (Uuid + Uuid + Uuid)%type.
Definition generation_task (id : Uuid) : Token := inl (inl id).
Definition viewer_task (id : Uuid) : Token := inl (inr id).
Definition inspection_task (id : Uuid) : Token := inr id.

Inductive PlaybackError : Type := SessionNotFound | LifecycleUnavailable | LifecycleCleanup.

(** ** generation.rs *)

(** [queues]: the identifiers registered in the gate (their queues are held
    weakly, a queue that nobody holds can be cancelled without effect). *)
Record Generation := mk_generation {
  retired : bool; registered : gset Uuid; stop : bool; tracker : gset Token;
  tracker_closed : bool; g_failed : bool; permit : bool }.

Definition create (permit : bool) : Generation := mk_generation false ∅ false ∅ false false permit.

Definition register (id : Uuid) (token : Token) (g : Generation) : result Generation PlaybackError :=
  if retired g then Err SessionNotFound
  else Ok (mk_generation (retired g) ({[id]} ∪ registered g) (stop g) ({[token]} ∪ tracker g)
             (tracker_closed g) (g_failed g) (permit g)).

Definition remove (id : Uuid) (g : Generation) : Generation :=
  mk_generation (retired g) (registered g ∖ {[id]}) (stop g) (tracker g) (tracker_closed g)
    (g_failed g) (permit g).

(** The end of a task that holds a token. *)
Definition release_token (token : Token) (g : Generation) : Generation :=
  mk_generation (retired g) (registered g) (stop g) (tracker g ∖ {[token]}) (tracker_closed g)
    (g_failed g) (permit g).

Definition release (g : Generation) : Generation :=
  mk_generation (retired g) (registered g) (stop g) (tracker g) (tracker_closed g) (g_failed g) false.

Definition mark_retired (g : Generation) : Generation :=
  mk_generation true (registered g) true (tracker g) true (g_failed g) (permit g).

Definition mark_failed (g : Generation) : Generation :=
  mk_generation (retired g) (registered g) (stop g) (tracker g) (tracker_closed g) true (permit g).

Definition active (g : Generation) : bool := negb (retired g).

(** The end of [drain] once the tracker is closed: [None] while tasks are left. *)
Definition drain (g : Generation) : option (result unit PlaybackError) :=
  if tracker_closed g && bool_decide (tracker g = ∅) then
    Some (if g_failed g then Err LifecycleCleanup else Ok tt)
  else None.

(** ** owner.rs *)

Record ResponseEntry := mk_entry { generation : option Ref; viewer : option Ref }.

Record Registry := mk_registry {
  closed : bool; generations : gmap Uuid Ref; responses : gmap Uuid ResponseEntry }.

(** Permits left in the semaphores of generations, responses and commands. *)
Record Permits := mk_permits { p_generations : Z; p_responses : Z; command_slots : Z }.

(** How far [Completion::finish] of a response is. *)
Inductive Phase : Type := Streaming | Gone_from_generation | Gone_from_viewer.

(** [heap]: the generations and viewers; [output]: the queue of each response;
    [completions]: the responses whose task has a [Completion]; [ending]: those
    removed from the registry whose task still holds the entry; [commands]: the
    number of commands that run. *)
Record Owner := mk_owner {
  registry : Registry; permits : Permits; commands : Z; o_stop : bool; failed : bool;
  tasks_closed : bool; heap : gmap Ref Generation; output : gmap Uuid State;
  completions : gmap Uuid (ResponseEntry * Phase); ending : gset Uuid }.

Definition new_owner : Owner :=
  mk_owner (mk_registry false ∅ ∅) (mk_permits 128 128 128) 0 false false false ∅ ∅ ∅ ∅.

(** Updates of single fields. *)
Definition with_registry (r : Registry) (s : Owner) : Owner :=
  mk_owner r (permits s) (commands s) (o_stop s) (failed s) (tasks_closed s) (heap s) (output s)
    (completions s) (ending s).
Definition with_permits (p : Permits) (s : Owner) : Owner :=
  mk_owner (registry s) p (commands s) (o_stop s) (failed s) (tasks_closed s) (heap s) (output s)
    (completions s) (ending s).
Definition with_commands (c : Z) (s : Owner) : Owner :=
  mk_owner (registry s) (permits s) c (o_stop s) (failed s) (tasks_closed s) (heap s) (output s)
    (completions s) (ending s).
Definition with_heap (h : gmap Ref Generation) (s : Owner) : Owner :=
  mk_owner (registry s) (permits s) (commands s) (o_stop s) (failed s) (tasks_closed s) h (output s)
    (completions s) (ending s).
Definition with_output (o : gmap Uuid State) (s : Owner) : Owner :=
  mk_owner (registry s) (permits s) (commands s) (o_stop s) (failed s) (tasks_closed s) (heap s) o
    (completions s) (ending s).
Definition with_tasks (c : gmap Uuid (ResponseEntry * Phase)) (e : gset Uuid) (s : Owner) : Owner :=
  mk_owner (registry s) (permits s) (commands s) (o_stop s) (failed s) (tasks_closed s) (heap s)
    (output s) c e.

Definition take_generation_permit (p : Permits) : option Permits :=
  if 0 <? p_generations p then
    Some (mk_permits (p_generations p - 1) (p_responses p) (command_slots p))
  else None.
Definition take_response_permit (p : Permits) : option Permits :=
  if 0 <? p_responses p then
    Some (mk_permits (p_generations p) (p_responses p - 1) (command_slots p))
  else None.
Definition take_command_slot (p : Permits) : option Permits :=
  if 0 <? command_slots p then
    Some (mk_permits (p_generations p) (p_responses p) (command_slots p - 1))
  else None.

Definition insert_generation (id : Uuid) (r : Ref) (g : Registry) : Registry :=
  mk_registry (closed g) (<[id := r]> (generations g)) (responses g).

(** An operation on the generation at an address. *)
Definition on_generation (r : Ref) (f : Generation -> Generation) (s : Owner) : Owner :=
  with_heap (alter f r (heap s)) s.

Definition on_option (o : option Ref) (f : Ref -> Owner -> Owner) (s : Owner) : Owner :=
  match o with Some r => f r s | None => s end.

(** [queue.cancel()] for every queue of a set. *)
Definition cancel_all (ids : gset Uuid) (qs : gmap Uuid State) : gmap Uuid State :=
  map_imap (fun id q => Some (if decide (id ∈ ids) then (cancel q).1 else q)) qs.

Definition retire (r : Ref) (s : Owner) : Owner :=
  match heap s !! r with
  | Some g => on_generation r mark_retired (with_output (cancel_all (registered g) (output s)) s)
  | None => s
  end.

Definition fail_generation (r : Ref) (s : Owner) : Owner :=
  retire r (on_generation r mark_failed s).

Definition fail (s : Owner) : Owner :=
  mk_owner (registry s) (permits s) (commands s) (o_stop s) true (tasks_closed s) (heap s) (output s)
    (completions s) (ending s).

(** [r] is the address of the new generation, if one is made. *)
Definition begin_generation (id : Uuid) (cleanup : bool) (r : Ref) (s : Owner)
    : result Ref PlaybackError * Owner :=
  match generations (registry s) !! id with
  | Some g => (Ok g, s)
  | None =>
      if closed (registry s) && negb cleanup then (Err LifecycleUnavailable, s)
      else match take_generation_permit (permits s) with
      | None => (Err LifecycleUnavailable, s)
      | Some p =>
          let s := with_heap (<[r := create true]> (heap s)) (with_permits p s) in
          let s := if closed (registry s) then retire r s else s in
          (Ok r, with_registry (insert_generation id r (registry s)) s)
      end
  end.

Definition finish_generation (id : Uuid) (s : Owner) : Owner :=
  match generations (registry s) !! id with
  | Some r =>
      let p := permits s in
      let s := with_registry (mk_registry (closed (registry s)) (delete id (generations (registry s)))
                                (responses (registry s))) s in
      match heap s !! r with
      | Some g =>
          on_generation r release
            (if permit g then
               with_permits (mk_permits (p_generations p + 1) (p_responses p) (command_slots p)) s
             else s)
      | None => s
      end
  | None => s
  end.

Definition ensure_open (s : Owner) : result unit PlaybackError :=
  if closed (registry s) then Err LifecycleUnavailable else Ok tt.

(** [enqueue]: a command, which may begin the generation it starts. *)
Definition enqueue (cleanup : bool) (generation : option Uuid) (r : Ref) (s : Owner)
    : result unit PlaybackError * Owner :=
  if closed (registry s) && negb cleanup then (Err LifecycleUnavailable, s)
  else match take_command_slot (permits s) with
  | None => (Err LifecycleUnavailable, s)
  | Some p =>
      match generation with
      | None => (Ok tt, with_commands (commands s + 1) (with_permits p s))
      | Some id =>
          match generations (registry s) !! id with
          | Some _ => (Err LifecycleCleanup, s)
          | None =>
              match take_generation_permit p with
              | None => (Err LifecycleUnavailable, s)
              | Some p =>
                  (Ok tt, with_commands (commands s + 1) (with_permits p
                    (with_registry (insert_generation id r (registry s))
                      (with_heap (<[r := create true]> (heap s)) s))))
              end
          end
      end
  end.

(** [command] and [start_command]. *)
Definition command (cleanup : bool) (s : Owner) : result unit PlaybackError * Owner :=
  enqueue cleanup None 1%positive s.
Definition start_command (id : Uuid) (r : Ref) (s : Owner) : result unit PlaybackError * Owner :=
  enqueue false (Some id) r s.

(** The end of a command, or its panic. *)
Definition command_ends (panicked : bool) (s : Owner) : Owner :=
  let p := permits s in
  let s := with_commands (commands s - 1)
             (with_permits (mk_permits (p_generations p) (p_responses p) (command_slots p + 1)) s) in
  if panicked then fail s else s.

Definition close (s : Owner) : Owner :=
  let g := registry s in
  let s := with_registry (mk_registry true (generations g) (responses g)) s in
  let s := foldr retire s (map_to_list (generations g)).*2 in
  let s := with_output (cancel_all (dom (responses g)) (output s)) s in
  mk_owner (registry s) (permits s) (commands s) true (failed s) true (heap s) (output s)
    (completions s) (ending s).

(** The results of [drain_commands] and [drain_responses] once the trackers are
    closed and empty, and [complete]. *)
Definition drain_commands (s : Owner) : option (result unit PlaybackError) :=
  if tasks_closed s && (commands s =? 0) then Some (if failed s then Err LifecycleCleanup else Ok tt)
  else None.

Definition drain_responses (s : Owner) : option (result unit PlaybackError) :=
  if tasks_closed s && bool_decide (completions s = ∅) && bool_decide (ending s = ∅) then
    Some (if failed s || negb (bool_decide (responses (registry s) = ∅)) then Err LifecycleCleanup
          else Ok tt)
  else None.

Definition complete (s : Owner) : bool :=
  closed (registry s) && bool_decide (generations (registry s) = ∅) &&
  bool_decide (responses (registry s) = ∅) && negb (failed s).

(** ** read.rs: registration and completion *)

(** [o.map(|g| g.register(id, queue)).transpose()?] *)
Definition register_in (o : option Ref) (id : Uuid) (token : Token) (s : Owner)
    : result Owner PlaybackError :=
  match o with
  | None => Ok s
  | Some r =>
      match heap s !! r with
      | None => Ok s
      | Some g =>
          let? g' := register id token g in Ok (with_heap (<[r := g']> (heap s)) s)
      end
  end.

(** The permit is returned and the tokens are dropped where it fails; what was
    registered in the gate of the generation stays there. *)
Definition enqueue_response (gen : option Uuid) (view : option Ref) (id : Uuid) (s : Owner)
    : result unit PlaybackError * Owner :=
  if closed (registry s) then (Err LifecycleUnavailable, s)
  else match take_response_permit (permits s) with
  | None => (Err LifecycleUnavailable, s)
  | Some p =>
      let found := match gen with
                   | None => Ok None
                   | Some g => match generations (registry s) !! g with
                               | Some r => Ok (Some r)
                               | None => Err SessionNotFound
                               end
                   end in
      match found with
      | Err e => (Err e, s)
      | Ok gr =>
          match register_in gr id (generation_task id) s with
          | Err e => (Err e, s)
          | Ok s1 =>
              match register_in view id (viewer_task id) s1 with
              | Err e => (Err e, on_option gr (fun r => on_generation r (release_token (generation_task id))) s1)
              | Ok s2 =>
                  let entry := mk_entry gr view in
                  let g := registry s2 in
                  (Ok tt, with_permits p (with_output (<[id := VodQueue.new]> (output s2))
                    (with_tasks (<[id := (entry, Streaming)]> (completions s2)) (ending s2)
                      (with_registry (mk_registry (closed g) (generations g) (<[id := entry]> (responses g)))
                         s2))))
              end
          end
      end
  end.

(** [Completion::finish]: out of the gate of the generation, out of the gate of
    the viewer, out of the registry; then the completion and its tokens go. *)
Definition finish_in_generation (id : Uuid) (e : ResponseEntry) (s : Owner) : Owner :=
  with_tasks (<[id := (e, Gone_from_generation)]> (completions s)) (ending s)
    (on_option (generation e) (fun r => on_generation r (remove id)) s).

Definition finish_in_viewer (id : Uuid) (e : ResponseEntry) (s : Owner) : Owner :=
  with_tasks (<[id := (e, Gone_from_viewer)]> (completions s)) (ending s)
    (on_option (viewer e) (fun r => on_generation r (remove id)) s).

Definition drop_tokens (id : Uuid) (e : ResponseEntry) (s : Owner) : Owner :=
  on_option (generation e) (fun r => on_generation r (release_token (generation_task id)))
    (on_option (viewer e) (fun r => on_generation r (release_token (viewer_task id))) s).

Definition finish_in_registry (id : Uuid) (e : ResponseEntry) (s : Owner) : Owner :=
  let g := registry s in
  with_tasks (delete id (completions s)) ({[id]} ∪ ending s)
    (drop_tokens id e
      (with_registry (mk_registry (closed g) (generations g) (delete id (responses g))) s)).

(** The end of the task, which drops the last entry and its permit. *)
Definition task_ends (id : Uuid) (s : Owner) : Owner :=
  let p := permits s in
  with_tasks (completions s) (ending s ∖ {[id]})
    (with_permits (mk_permits (p_generations p) (p_responses p + 1) (command_slots p)) s).

(** The task panics: [Completion] is dropped unfinished. *)
Definition completion_dropped (id : Uuid) (e : ResponseEntry) (s : Owner) : Owner :=
  with_tasks (delete id (completions s)) (ending s)
    (drop_tokens id e
      (fail (on_option (viewer e) fail_generation
        (on_option (generation e) fail_generation
          (with_output (cancel_all {[id]} (output s)) s))))).

(** [inspect], and the end or the panic of its task. *)
Definition inspect (r : Ref) (id : Uuid) (s : Owner) : result unit PlaybackError * Owner :=
  match heap s !! r with
  | Some g =>
      if retired g then (Err LifecycleUnavailable, s)
      else (Ok tt, on_generation r (fun g => mk_generation (retired g) (registered g) (stop g)
                     ({[inspection_task id]} ∪ tracker g) (tracker_closed g) (g_failed g) (permit g)) s)
  | None => (Err LifecycleUnavailable, s)
  end.

Definition inspection_ends (r : Ref) (id : Uuid) (panicked : bool) (s : Owner) : Owner :=
  on_generation r (release_token (inspection_task id)) (if panicked then fail_generation r s else s).

(** ** Interleavings *)

(** The operations of the task and of the body on a queue; the task pushes
    nothing once it has marked the end. *)
Inductive moves (q : State) : State -> Prop :=
| moves_cancel : moves q (cancel q).1
| moves_finish : moves q (finish q).1
| moves_push bytes res q' sig : done q = false -> try_push bytes q = (res, q', sig) -> moves q q'
| moves_poll res ended q' sig : poll_next q = (res, ended, q', sig) -> moves q q'.

Inductive step (s : Owner) : Owner -> Prop :=
| step_begin id cleanup r : heap s !! r = None -> step s (begin_generation id cleanup r s).2
| step_finish_generation id : step s (finish_generation id s)
| step_viewer r : heap s !! r = None -> step s (with_heap (<[r := create false]> (heap s)) s)
| step_retire r : step s (retire r s)
| step_fail_generation r : step s (fail_generation r s)
| step_command cleanup : step s (command cleanup s).2
| step_start_command id r : heap s !! r = None -> step s (start_command id r s).2
| step_command_ends panicked : 0 < commands s -> step s (command_ends panicked s)
| step_response gen view id :
    output s !! id = None -> (forall r, view = Some r -> is_Some (heap s !! r)) ->
    step s (enqueue_response gen view id s).2
| step_queue id q q' :
    output s !! id = Some q -> moves q q' -> step s (with_output (<[id := q']> (output s)) s)
| step_finish_1 id e q :
    completions s !! id = Some (e, Streaming) -> output s !! id = Some q -> is_drained q = true ->
    step s (finish_in_generation id e s)
| step_finish_2 id e :
    completions s !! id = Some (e, Gone_from_generation) -> step s (finish_in_viewer id e s)
| step_finish_3 id e :
    completions s !! id = Some (e, Gone_from_viewer) -> step s (finish_in_registry id e s)
| step_task_ends id : id ∈ ending s -> step s (task_ends id s)
| step_panics id e phase : completions s !! id = Some (e, phase) -> step s (completion_dropped id e s)
| step_inspect r id : step s (inspect r id s).2
| step_inspection_ends r id panicked : step s (inspection_ends r id panicked s)
| step_close : step s (close s)
| step_fail : step s (fail s).

Inductive reachable : Owner -> Prop :=
| reach_new : reachable new_owner
| reach_step s s' : reachable s -> step s s' -> reachable s'.

(** ** Invariant *)

(** The two roles of a generation for a response. *)
Inductive Role : Type := As_generation | As_viewer.
Definition ref_of (role : Role) (e : ResponseEntry) : option Ref :=
  match role with As_generation => generation e | As_viewer => viewer e end.
Definition task_of (role : Role) (id : Uuid) : Token :=
  match role with As_generation => generation_task id | As_viewer => viewer_task id end.

Definition drained_in (o : gmap Uuid State) (id : Uuid) : Prop :=
  forall q, o !! id = Some q -> is_drained q = true.

(** A response in the registry: its queue is drained once the owner is closed or
    one of its generations is retired, and in every phase but the first; it is in
    the gate of each generation as long as it is not drained; each generation
    counts its task, and knows of its failure otherwise. *)
Definition response_ok (s : Owner) (id : Uuid) (e : ResponseEntry) : Prop :=
  is_Some (output s !! id) /\
  (closed (registry s) = true -> drained_in (output s) id) /\
  match completions s !! id with
  | Some (e', phase) => e' = e /\ (phase = Streaming \/ drained_in (output s) id)
  | None => failed s = true
  end /\
  forall role r, ref_of role e = Some r -> exists g, heap s !! r = Some g /\
    (id ∈ registered g \/ drained_in (output s) id) /\
    (retired g = true -> drained_in (output s) id) /\
    match completions s !! id with
    | Some _ => task_of role id ∈ tracker g
    | None => g_failed g = true
    end.

Record inv (s : Owner) : Prop := {
  inv_responses : forall id e, responses (registry s) !! id = Some e -> response_ok s id e;
  inv_completions : forall id c, completions s !! id = Some c -> is_Some (responses (registry s) !! id);
  inv_generations : forall id r, generations (registry s) !! id = Some r ->
    exists g, heap s !! r = Some g /\ permit g = true /\ (closed (registry s) = true -> retired g = true);
  inv_distinct : forall i j r, generations (registry s) !! i = Some r ->
    generations (registry s) !! j = Some r -> i = j;
  inv_trackers : forall r g, heap s !! r = Some g -> tracker_closed g = retired g;
  inv_ending : forall id, id ∈ ending s -> responses (registry s) !! id = None /\ is_Some (output s !! id);
  inv_permits : p_generations (permits s) + Z.of_nat (size (generations (registry s))) = 128 /\
    p_responses (permits s) + Z.of_nat (size (responses (registry s))) + Z.of_nat (size (ending s)) = 128 /\
    command_slots (permits s) + commands s = 128;
  inv_positive : 0 <= p_generations (permits s) /\ 0 <= p_responses (permits s) /\
    0 <= command_slots (permits s) /\ 0 <= commands s }.

(** How a generation may change without a change of the registry: tasks of the
    responses in [X] may end. *)
Definition gen_evolves (X : gset Uuid) (o' : gmap Uuid State) (g g' : Generation) : Prop :=
  (forall id, id ∈ registered g -> id ∈ registered g' \/ drained_in o' id) /\
  (retired g' = true -> retired g = true \/ forall id, id ∈ registered g -> drained_in o' id) /\
  (retired g = true -> retired g' = true) /\ (g_failed g = true -> g_failed g' = true) /\
  (forall role id, id ∉ X -> task_of role id ∈ tracker g -> task_of role id ∈ tracker g') /\
  (tracker_closed g = retired g -> tracker_closed g' = retired g') /\ permit g' = permit g.

Definition drains (o o' : gmap Uuid State) : Prop :=
  forall id, match o !! id, o' !! id with
             | Some q, Some q' => is_drained q = true -> is_drained q' = true
             | None, None => True
             | _, _ => False
             end.

Definition evolves (X : gset Uuid) (s s' : Owner) : Prop :=
  drains (output s) (output s') /\
  (forall r g, heap s !! r = Some g ->
     exists g', heap s' !! r = Some g' /\ gen_evolves X (output s') g g') /\
  (forall r g', heap s !! r = None -> heap s' !! r = Some g' -> tracker_closed g' = retired g').

(** ** Cancelled queues *)

Lemma cancel_all_lookup (ids : gset Uuid) (qs : gmap Uuid State) (id : Uuid) :
  cancel_all ids qs !! id = (fun q => if decide (id ∈ ids) then (cancel q).1 else q) <$> qs !! id.
Proof. unfold cancel_all. rewrite map_lookup_imap. by destruct (qs !! id). Qed.

Lemma cancel_drained (q : State) : is_drained (cancel q).1 = true.
Proof. done. Qed.

Lemma drains_refl (o : gmap Uuid State) : drains o o.
Proof. intros id. by destruct (o !! id). Qed.

Lemma drains_trans (a b c : gmap Uuid State) : drains a b -> drains b c -> drains a c.
Proof. intros H1 H2 id. specialize (H1 id). specialize (H2 id). by repeat case_match; auto. Qed.

Lemma drains_cancel_all (ids : gset Uuid) (qs : gmap Uuid State) : drains qs (cancel_all ids qs).
Proof.
  intros id. rewrite cancel_all_lookup. destruct (qs !! id); cbn; [|done]. by destruct (decide _).
Qed.

Lemma cancel_all_drained (ids : gset Uuid) (qs : gmap Uuid State) (id : Uuid) :
  id ∈ ids -> drained_in (cancel_all ids qs) id.
Proof.
  intros H q. rewrite cancel_all_lookup. destruct (qs !! id); cbn; [|done].
  rewrite decide_True by done. by intros [= <-].
Qed.

Lemma drained_mono (o o' : gmap Uuid State) (id : Uuid) : drains o o' -> drained_in o id -> drained_in o' id.
Proof. intros H D q' E. specialize (H id). rewrite E in H. destruct (o !! id) eqn:Q; [|done]. auto. Qed.

Lemma drains_some (o o' : gmap Uuid State) (id : Uuid) : drains o o' -> is_Some (o !! id) -> is_Some (o' !! id).
Proof. intros H [q E]. specialize (H id). rewrite E in H. by destruct (o' !! id). Qed.

Lemma moves_drained (q q' : State) : moves q q' -> is_drained q = true -> is_drained q' = true.
Proof.
  unfold is_drained. destruct 1 as [| |bytes res q' sig D E|res ended q' sig E]; cbn; [done|..].
  - destruct (cancelled q); [done|]. cbn. by intros [_ ?]%andb_true_iff.
  - rewrite D, orb_false_r. intros C. unfold try_push in E. rewrite C in E. by injection E as _ <- _; rewrite C.
  - unfold poll_next in E. destruct (cancelled q) eqn:C; [by injection E as _ _ <- _; rewrite C|].
    destruct (done q) eqn:D; [|done]. destruct (chunks q) eqn:Q; [|done].
    intros _. injection E as _ _ <- _. by rewrite C, D, Q.
Qed.

(** ** Changes of the generations *)

Lemma gen_evolves_refl (X : gset Uuid) (o : gmap Uuid State) (g : Generation) : gen_evolves X o g g.
Proof. unfold gen_evolves. repeat split; auto. Qed.

Lemma gen_evolves_trans (X : gset Uuid) (o' o'' : gmap Uuid State) (a b c : Generation) :
  drains o' o'' -> gen_evolves X o' a b -> gen_evolves X o'' b c -> gen_evolves X o'' a c.
Proof.
  intros D (A1 & A2 & A3 & A4 & A5 & A6 & A7) (B1 & B2 & B3 & B4 & B5 & B6 & B7).
  pose proof (fun id => drained_mono o' o'' id D) as M. unfold gen_evolves.
  split; [|split; [|split; [|split; [|split; [|split]]]]]; auto; [| |congruence].
  - intros id H. destruct (A1 id H); auto.
  - intros [R|R]%B2; [destruct (A2 R); auto|]. right. intros id H. destruct (A1 id H); auto.
Qed.

Lemma evolves_refl (X : gset Uuid) (s : Owner) : evolves X s s.
Proof.
  split; [apply drains_refl|]. split; [|congruence]. intros r g H. exists g. split; [done|].
  apply gen_evolves_refl.
Qed.

Lemma evolves_trans (X : gset Uuid) (a b c : Owner) : evolves X a b -> evolves X b c -> evolves X a c.
Proof.
  intros (D1 & H1 & N1) (D2 & H2 & N2). split; [by eapply drains_trans|]. split.
  2:{ intros r g'' A C. destruct (heap b !! r) as [g'|] eqn:B; [|eauto].
      destruct (H2 r g' B) as (g2 & G2 & _ & _ & _ & _ & _ & V6 & _). rewrite C in G2.
      injection G2 as <-. eauto. }
  intros r g (g' & E & V)%H1. destruct (H2 r g' E) as (g'' & E' & V'). exists g''. split; [done|].
  by eapply gen_evolves_trans.
Qed.

(** One generation changes, and perhaps queues. *)
Lemma evolves_alter (X : gset Uuid) (s : Owner) (r : Ref) (f : Generation -> Generation) (o : gmap Uuid State) :
  drains (output s) o -> (forall g, heap s !! r = Some g -> gen_evolves X o g (f g)) ->
  evolves X s (on_generation r f (with_output o s)).
Proof.
  intros D H. split; [done|]. cbn. split; intros r' g'.
  - intros E. destruct (decide (r = r')) as [<-|N].
    + exists (f g'). rewrite lookup_alter_eq, E. auto.
    + exists g'. rewrite lookup_alter_ne by done. split; [done|]. apply gen_evolves_refl.
  - intros A B. by rewrite (proj2 (lookup_alter_None f (heap s) r r') A) in B.
Qed.

Lemma evolves_alter_only (X : gset Uuid) (s : Owner) (r : Ref) (f : Generation -> Generation) :
  (forall g, heap s !! r = Some g -> gen_evolves X (output s) g (f g)) -> evolves X s (on_generation r f s).
Proof. intros H. exact (evolves_alter X s r f (output s) (drains_refl _) H). Qed.

Lemma evolves_retire (X : gset Uuid) (r : Ref) (s : Owner) : evolves X s (retire r s).
Proof.
  unfold retire. destruct (heap s !! r) as [g|] eqn:E; [|apply evolves_refl].
  apply evolves_alter; [apply drains_cancel_all|]. intros g' E'. rewrite E in E'. injection E' as <-.
  unfold gen_evolves, mark_retired. cbn. repeat split; auto. intros _. right. intros id.
  apply cancel_all_drained.
Qed.

Lemma evolves_fail_generation (X : gset Uuid) (r : Ref) (s : Owner) : evolves X s (fail_generation r s).
Proof.
  eapply evolves_trans; [|apply evolves_retire]. apply evolves_alter_only. intros g _.
  unfold gen_evolves, mark_failed. cbn. repeat split; auto.
Qed.

Lemma retired_after (r : Ref) (g : Generation) (s : Owner) :
  heap s !! r = Some g -> exists g', heap (retire r s) !! r = Some g' /\ retired g' = true /\
  (forall id, id ∈ registered g -> drained_in (output (retire r s)) id) /\ g_failed g' = g_failed g /\
  permit g' = permit g.
Proof.
  intros E. unfold retire. rewrite E. exists (mark_retired g). cbn. rewrite lookup_alter_eq, E.
  repeat split. intros id. apply cancel_all_drained.
Qed.

(** Retiring touches nothing else. *)
Lemma retire_frame (r : Ref) (s : Owner) :
  registry (retire r s) = registry s /\ permits (retire r s) = permits s /\
  commands (retire r s) = commands s /\ failed (retire r s) = failed s /\
  completions (retire r s) = completions s /\ ending (retire r s) = ending s.
Proof. unfold retire. by destruct (heap s !! r). Qed.

Lemma fail_generation_frame (r : Ref) (s : Owner) :
  registry (fail_generation r s) = registry s /\ permits (fail_generation r s) = permits s /\
  commands (fail_generation r s) = commands s /\ failed (fail_generation r s) = failed s /\
  completions (fail_generation r s) = completions s /\ ending (fail_generation r s) = ending s.
Proof. unfold fail_generation. exact (retire_frame r (on_generation r mark_failed s)). Qed.

Lemma response_ok_evolves (X : gset Uuid) (s s' : Owner) (id : Uuid) (e : ResponseEntry) :
  evolves X s s' -> (id ∈ X -> completions s !! id = None) -> closed (registry s') = closed (registry s) ->
  completions s' !! id = completions s !! id -> (failed s = true -> failed s' = true) ->
  response_ok s id e -> response_ok s' id e.
Proof.
  intros (D & H & _) NX C P F (R1 & R2 & R3 & R4).
  pose proof (drained_mono _ _ id D) as M. unfold response_ok. rewrite C, P.
  split; [by eapply drains_some|]. split; [auto|]. split.
  { destruct (completions s !! id) as [[e' phase]|]; [|auto]. destruct R3 as [-> [->|]]; auto. }
  intros role r E. destruct (R4 role r E) as (g & G & A1 & A2 & A3).
  destruct (H r g G) as (g' & G' & B1 & B2 & B3 & B4 & B5 & _). exists g'. split; [done|].
  split; [destruct A1 as [A1|]; [destruct (B1 id A1)|]; auto|]. split.
  - intros [?|?]%B2; [auto|]. destruct A1; auto.
  - destruct (completions s !! id); [|auto]. apply B5; [|done]. by intros ?%NX.
Qed.

(** A step that leaves the registry, the permits and the tasks as they are, but
    for the tokens of responses whose task has ended. *)
Lemma inv_evolves (X : gset Uuid) (s s' : Owner) :
  evolves X s s' -> (forall id, id ∈ X -> completions s !! id = None) -> registry s' = registry s ->
  permits s' = permits s -> commands s' = commands s -> completions s' = completions s ->
  ending s' = ending s -> (failed s = true -> failed s' = true) -> inv s -> inv s'.
Proof.
  intros V HX R P C K E F [I1 I2 I3 I4 I5 I6 I7 I8]. pose proof V as (D & H & N).
  split; rewrite ?R, ?P, ?C, ?K, ?E; auto.
  - intros id e L. eapply response_ok_evolves; [done|apply HX|by rewrite R|by rewrite K|done|auto].
  - intros id r L. destruct (I3 id r L) as (g & G & Q & T). destruct (H r g G) as (g' & G' & V').
    exists g'. destruct V' as (_ & _ & V3 & _ & _ & _ & V7). split; [done|]. split; [congruence|auto].
  - intros r g' G'. destruct (heap s !! r) as [g|] eqn:G; [|eauto].
    destruct (H r g G) as (g2 & G2 & V'). rewrite G' in G2. injection G2 as <-.
    destruct V' as (_ & _ & _ & _ & _ & V6 & _). eauto.
  - intros id L. destruct (I6 id L). split; [done|]. by eapply drains_some.
Qed.

Lemma evolves_inv (s s' : Owner) :
  evolves ∅ s s' -> registry s' = registry s -> permits s' = permits s -> commands s' = commands s ->
  completions s' = completions s -> ending s' = ending s -> (failed s = true -> failed s' = true) ->
  inv s -> inv s'.
Proof. intros V. apply (inv_evolves ∅ s s' V). set_solver. Qed.

Lemma retire_inv (r : Ref) (s : Owner) : inv s -> inv (retire r s).
Proof.
  destruct (retire_frame r s) as (A & B & C & D & E & F).
  apply evolves_inv; [apply evolves_retire|done..|by rewrite D].
Qed.

Lemma fail_generation_inv (r : Ref) (s : Owner) : inv s -> inv (fail_generation r s).
Proof.
  destruct (fail_generation_frame r s) as (A & B & C & D & E & F).
  apply evolves_inv; [apply evolves_fail_generation|done..|by rewrite D].
Qed.

Lemma fail_inv (s : Owner) : inv s -> inv (fail s).
Proof. apply evolves_inv; [exact (evolves_refl ∅ s)|done..]. Qed.

Lemma on_option_inv (o : option Ref) (f : Ref -> Owner -> Owner) (s : Owner) :
  (forall r s, inv s -> inv (f r s)) -> inv s -> inv (on_option o f s).
Proof. destruct o; cbn; auto. Qed.

(** A new address. *)
Lemma new_address_inv (r : Ref) (g : Generation) (s : Owner) :
  heap s !! r = None -> tracker_closed g = retired g -> inv s ->
  inv (with_heap (<[r := g]> (heap s)) s).
Proof.
  intros N T. apply evolves_inv; [|done..]. split; [apply drains_refl|]. cbn. split.
  - intros r' g' E. exists g'. rewrite lookup_insert_ne by congruence. split; [done|].
    apply gen_evolves_refl.
  - intros r' g' E. destruct (decide (r = r')) as [<-|]; [rewrite lookup_insert_eq|rewrite lookup_insert_ne by done].
    + by intros [= <-].
    + congruence.
Qed.

Lemma output_inv (id : Uuid) (q q' : State) (s : Owner) :
  output s !! id = Some q -> (is_drained q = true -> is_drained q' = true) -> inv s ->
  inv (with_output (<[id := q']> (output s)) s).
Proof.
  intros E H. apply evolves_inv; [|done..]. split.
  - intros j. cbn. destruct (decide (id = j)) as [<-|]; [by rewrite lookup_insert_eq, E|].
    rewrite lookup_insert_ne by done. by destruct (output s !! j).
  - cbn. split; [|congruence]. intros r g G. exists g. split; [done|]. apply gen_evolves_refl.
Qed.

Lemma cancel_all_inv (ids : gset Uuid) (s : Owner) : inv s -> inv (with_output (cancel_all ids (output s)) s).
Proof.
  apply evolves_inv; [|done..]. split; [apply drains_cancel_all|]. cbn. split; [|congruence].
  intros r g G. exists g. split; [done|]. apply gen_evolves_refl.
Qed.

(** *** Operations on one generation *)

Lemma alter_inv (X : gset Uuid) (r : Ref) (f : Generation -> Generation) (s : Owner) :
  (forall id, id ∈ X -> completions s !! id = None) ->
  (forall g, heap s !! r = Some g -> gen_evolves X (output s) g (f g)) ->
  inv s -> inv (on_generation r f s).
Proof. intros HX H. by apply (inv_evolves X); [apply evolves_alter_only|..]. Qed.

Lemma remove_inv (id : Uuid) (r : Ref) (s : Owner) :
  drained_in (output s) id -> inv s -> inv (on_generation r (remove id) s).
Proof.
  intros D. apply (alter_inv ∅); [set_solver|]. intros g _. unfold gen_evolves. cbn.
  repeat split; auto. intros j. destruct (decide (j = id)) as [->|]; [auto|set_solver].
Qed.

Lemma release_token_inv (t : Token) (X : gset Uuid) (r : Ref) (s : Owner) :
  (forall role id, id ∉ X -> task_of role id <> t) -> (forall id, id ∈ X -> completions s !! id = None) ->
  inv s -> inv (on_generation r (release_token t) s).
Proof.
  intros T HX. apply (alter_inv X); [done|]. intros g _. unfold gen_evolves. cbn.
  repeat split; auto. intros role id N. specialize (T role id N). set_solver.
Qed.

Lemma drop_tokens_inv (id : Uuid) (e : ResponseEntry) (s : Owner) :
  completions s !! id = None -> inv s -> inv (drop_tokens id e s).
Proof.
  assert (T : forall role t, t = generation_task id \/ t = viewer_task id ->
    forall j, j ∉ ({[id]} : gset Uuid) -> task_of role j <> t).
  { intros role t H j N E. apply N, elem_of_singleton.
    destruct role, H as [->| ->]; unfold task_of, generation_task, viewer_task in E; congruence. }
  intros N I. unfold drop_tokens.
  assert (K : forall j, j ∈ ({[id]} : gset Uuid) -> completions s !! j = None)
    by (by intros j ->%elem_of_singleton).
  destruct (generation e), (viewer e); cbn; [| | |done];
    repeat (apply (release_token_inv _ {[id]}); [intros role; apply T; auto|exact K|]); done.
Qed.

Lemma inspect_inv (r : Ref) (id : Uuid) (s : Owner) : inv s -> inv (inspect r id s).2.
Proof.
  unfold inspect. destruct (heap s !! r) as [g|] eqn:E; [|done]. destruct (retired g); [done|]. cbn.
  apply (alter_inv ∅); [set_solver|]. intros g' _. unfold gen_evolves. cbn. repeat split; auto. set_solver.
Qed.

Lemma inspection_ends_inv (r : Ref) (id : Uuid) (panicked : bool) (s : Owner) :
  inv s -> inv (inspection_ends r id panicked s).
Proof.
  intros I. unfold inspection_ends. apply (release_token_inv _ ∅); [|set_solver|].
  - intros role j _ E. destruct role; unfold task_of, generation_task, viewer_task, inspection_task in E; congruence.
  - destruct panicked; [by apply fail_generation_inv|done].
Qed.

Lemma register_evolves (r : Ref) (id : Uuid) (t : Token) (g g' : Generation) (s : Owner) :
  heap s !! r = Some g -> register id t g = Ok g' -> evolves ∅ s (with_heap (<[r := g']> (heap s)) s) /\
  retired g = false /\ id ∈ registered g' /\ t ∈ tracker g' /\ retired g' = false.
Proof.
  intros E R. unfold register in R. destruct (retired g) eqn:T; [done|]. injection R as <-. cbn.
  split; [|set_solver]. split; [apply drains_refl|]. cbn. split.
  - intros r' g2 G. destruct (decide (r = r')) as [<-|].
    + rewrite lookup_insert_eq. rewrite E in G. injection G as <-. eexists. split; [done|].
      unfold gen_evolves. cbn. rewrite T. repeat split; auto; set_solver.
    + rewrite lookup_insert_ne by done. exists g2. split; [done|apply gen_evolves_refl].
  - intros r' g2 N. rewrite lookup_insert_ne; congruence.
Qed.

(** *** Structural steps *)

Lemma drained_insert (o : gmap Uuid State) (i j : Uuid) (q : State) :
  i <> j -> drained_in (<[i := q]> o) j <-> drained_in o j.
Proof. intros N. unfold drained_in. by rewrite lookup_insert_ne. Qed.

Lemma capacity_inv (p : Permits) (c : Z) (s : Owner) :
  p_generations p = p_generations (permits s) -> p_responses p = p_responses (permits s) ->
  command_slots p + c = command_slots (permits s) + commands s -> 0 <= command_slots p -> 0 <= c ->
  inv s -> inv (with_commands c (with_permits p s)).
Proof.
  intros G R E P C [I1 I2 I3 I4 I5 I6 (I7 & I7' & I7'') (I8 & I8' & I8'')]. split; cbn; auto; lia.
Qed.

(** A generation enters the registry, or leaves it. *)
Lemma insert_generation_inv (id : Uuid) (r : Ref) (g : Generation) (p p' : Permits) (s : Owner) :
  generations (registry s) !! id = None -> heap s !! r = Some g -> permit g = true ->
  (closed (registry s) = true -> retired g = true) ->
  (forall j, generations (registry s) !! j <> Some r) ->
  p = permits s -> take_generation_permit p = Some p' -> inv s ->
  inv (with_permits p' (with_registry (insert_generation id r (registry s)) s)).
Proof.
  intros N G Q T F -> P [I1 I2 I3 I4 I5 I6 (I7 & I7' & I7'') (I8 & I8' & I8'')].
  unfold take_generation_permit in P. destruct (0 <? _) eqn:L; [|done]. apply Z.ltb_lt in L. injection P as <-.
  split; cbn; auto.
  - intros j r'. destruct (decide (id = j)) as [<-|]; [rewrite lookup_insert_eq|rewrite lookup_insert_ne by done];
      [|apply I3]. intros [= <-]. eauto.
  - intros i j r'.
    destruct (decide (id = i)) as [<-|], (decide (id = j)) as [<-|];
      rewrite ?lookup_insert_eq, ?lookup_insert_ne by done; intros A B; simplify_eq; auto;
      try (by exfalso; eapply F). by eapply I4.
  - rewrite map_size_insert_None by done. lia.
  - lia.
Qed.

Lemma delete_generation_inv (id : Uuid) (r : Ref) (s : Owner) :
  generations (registry s) !! id = Some r -> inv s ->
  inv (with_permits (mk_permits (p_generations (permits s) + 1) (p_responses (permits s)) (command_slots (permits s)))
    (with_registry (mk_registry (closed (registry s)) (delete id (generations (registry s)))
       (responses (registry s))) s)).
Proof.
  intros E [I1 I2 I3 I4 I5 I6 (I7 & I7' & I7'') (I8 & I8' & I8'')]. split; cbn; auto.
  - intros j r' [_ L]%lookup_delete_Some. by apply (I3 j).
  - intros i j r' [_ A]%lookup_delete_Some [_ B]%lookup_delete_Some. by eapply I4.
  - assert (size (generations (registry s)) <> 0)%nat by (rewrite map_size_ne_0_lookup; eauto).
    rewrite map_size_delete_Some by eauto. lia.
  - lia.
Qed.

Lemma release_inv (r : Ref) (s : Owner) :
  (forall j, generations (registry s) !! j <> Some r) -> inv s -> inv (on_generation r release s).
Proof.
  intros F [I1 I2 I3 I4 I5 I6 I7 I8].
  assert (A : forall r' g, heap s !! r' = Some g ->
    exists g', alter release r (heap s) !! r' = Some g' /\ registered g' = registered g /\
      retired g' = retired g /\ tracker g' = tracker g /\ g_failed g' = g_failed g /\
      (r <> r' -> permit g' = permit g)).
  { intros r' g E. destruct (decide (r = r')) as [<-|].
    - exists (release g). by rewrite lookup_alter_eq, E.
    - exists g. by rewrite lookup_alter_ne. }
  split; cbn; auto.
  - intros id e (R1 & R2 & R3 & R4)%I1. do 3 (split; [done|]). intros role r' (g & G & V)%R4.
    destruct (A r' g G) as (g' & G' & E1 & E2 & E3 & E4 & _). exists g'. by rewrite E1, E2, E3, E4.
  - intros id r' L. destruct (I3 id r' L) as (g & G & Q & T). destruct (A r' g G) as (g' & G' & _ & E2 & _ & _ & E5).
    exists g'. rewrite E2, E5; [done|]. intros <-. by apply (F id).
  - intros r' g'. destruct (decide (r = r')) as [<-|]; [rewrite lookup_alter_eq|rewrite lookup_alter_ne by done; apply I5].
    destruct (heap s !! r) as [g|] eqn:E; [|done]. intros [= <-]. cbn. eauto.
Qed.

(** A response enters the registry. *)
Lemma new_response_inv (id : Uuid) (e : ResponseEntry) (p : Permits) (s : Owner) :
  output s !! id = None -> closed (registry s) = false ->
  (forall role r, ref_of role e = Some r -> exists g, heap s !! r = Some g /\ retired g = false /\
     id ∈ registered g /\ task_of role id ∈ tracker g) ->
  take_response_permit (permits s) = Some p -> inv s ->
  inv (with_permits p (with_output (<[id := VodQueue.new]> (output s))
    (with_tasks (<[id := (e, Streaming)]> (completions s)) (ending s)
      (with_registry (mk_registry (closed (registry s)) (generations (registry s))
         (<[id := e]> (responses (registry s)))) s)))).
Proof.
  intros N C G P [I1 I2 I3 I4 I5 I6 (I7 & I7' & I7'') (I8 & I8' & I8'')].
  assert (NR : responses (registry s) !! id = None).
  { destruct (responses (registry s) !! id) eqn:E; [|done]. destruct (I1 id _ E) as [[q Q] _]. congruence. }
  unfold take_response_permit in P. destruct (0 <? _) eqn:L; [|done]. apply Z.ltb_lt in L. injection P as <-.
  split; cbn; auto.
  - intros j e'. destruct (decide (id = j)) as [<-|NE].
    + rewrite lookup_insert_eq. intros [= <-]. unfold response_ok. cbn. rewrite !lookup_insert_eq, C.
      split; [by eexists|]. split; [done|]. split; [auto|].
      intros role r (g & E1 & E2 & E3 & E4)%G. exists g. rewrite E2. split; [done|]. split; [by left|]. done.
    + rewrite lookup_insert_ne by done. intros (R1 & R2 & R3 & R4)%I1. unfold response_ok. cbn.
      rewrite !lookup_insert_ne by done.
      destruct (completions s !! j) as [[]|]; by setoid_rewrite (drained_insert (output s) id j new NE).
  - intros j c. destruct (decide (id = j)) as [<-|NE]; [rewrite !lookup_insert_eq; eauto|].
    rewrite !lookup_insert_ne by done. by apply I2.
  - intros j J. destruct (I6 j J) as [A B]. assert (id <> j) by (intros <-; destruct B; congruence).
    by rewrite !lookup_insert_ne.
  - rewrite map_size_insert_None by done. lia.
  - lia.
Qed.

(** The completion moves on, once the queue is drained. *)
Lemma phase_inv (id : Uuid) (e : ResponseEntry) (phase phase' : Phase) (s : Owner) :
  completions s !! id = Some (e, phase) -> drained_in (output s) id -> inv s ->
  inv (with_tasks (<[id := (e, phase')]> (completions s)) (ending s) s).
Proof.
  intros E D [I1 I2 I3 I4 I5 I6 I7 I8]. split; cbn; auto.
  - intros j e' (R1 & R2 & R3 & R4)%I1. unfold response_ok. cbn.
    destruct (decide (id = j)) as [<-|NE]; [|by rewrite lookup_insert_ne].
    rewrite lookup_insert_eq. rewrite E in R3, R4. destruct R3 as [-> _].
    do 2 (split; [done|]). split; [auto|done].
  - intros j c. destruct (decide (id = j)) as [<-|NE]; [|rewrite lookup_insert_ne by done; apply I2].
    intros _. by eapply I2.
Qed.

(** A response leaves the registry. *)
Lemma leave_inv (id : Uuid) (s : Owner) :
  is_Some (completions s !! id) -> inv s ->
  inv (with_tasks (delete id (completions s)) ({[id]} ∪ ending s)
    (with_registry (mk_registry (closed (registry s)) (generations (registry s))
       (delete id (responses (registry s)))) s)).
Proof.
  intros [c E] [I1 I2 I3 I4 I5 I6 (I7 & I7' & I7'') I8].
  destruct (I2 id c E) as [e R]. destruct (I1 id e R) as [O _].
  assert (id ∉ ending s) by (intros K; destruct (I6 id K); congruence).
  split; cbn; auto.
  - intros j e' [NE J]%lookup_delete_Some. destruct (I1 j e' J) as (R1 & R2 & R3 & R4).
    unfold response_ok. cbn. by rewrite lookup_delete_ne.
  - intros j c' [NE J]%lookup_delete_Some. rewrite lookup_delete_ne by done. by eapply I2.
  - intros j [->%elem_of_singleton|J]%elem_of_union; [by rewrite lookup_delete_eq|].
    destruct (I6 j J). split; [|done]. by apply lookup_delete_None; right.
  - assert (size (responses (registry s)) <> 0)%nat by (rewrite map_size_ne_0_lookup; eauto).
    rewrite map_size_delete_Some by eauto. rewrite size_union by set_solver. rewrite size_singleton. lia.
Qed.

(** A completion is lost: the owner and the generations have failed, and the
    queue is drained. *)
Lemma lost_inv (id : Uuid) (s : Owner) :
  failed s = true -> 
  (forall role r g e phase, completions s !! id = Some (e, phase) -> ref_of role e = Some r ->
     heap s !! r = Some g -> g_failed g = true) ->
  inv s -> inv (with_tasks (delete id (completions s)) (ending s) s).
Proof.
  intros F G [I1 I2 I3 I4 I5 I6 I7 I8]. split; cbn; auto.
  - intros j e L. destruct (I1 j e L) as (R1 & R2 & R3 & R4). unfold response_ok. cbn.
    destruct (decide (id = j)) as [<-|NE]; [|by rewrite lookup_delete_ne].
    rewrite lookup_delete_eq. do 3 (split; [done|]). intros role r E.
    destruct (R4 role r E) as (g & H & A1 & A2 & A3). exists g. do 3 (split; [done|]).
    destruct (completions s !! id) as [[e' phase]|] eqn:C; [|done]. destruct R3 as [-> _]. by eapply G.
  - intros j c [_ L]%lookup_delete_Some. by eapply I2.
Qed.

(** *** Every step keeps the invariant *)

Lemma begin_generation_inv (id : Uuid) (cleanup : bool) (r : Ref) (s : Owner) :
  heap s !! r = None -> inv s -> inv (begin_generation id cleanup r s).2.
Proof.
  intros N I. unfold begin_generation. destruct (generations (registry s) !! id) eqn:E; [done|].
  destruct (_ && _); [done|]. destruct (take_generation_permit _) as [p|] eqn:P; [|done]. cbn.
  assert (F : forall j, generations (registry s) !! j <> Some r).
  { intros j L. destruct (inv_generations _ I j r L) as (g & G & _). congruence. }
  set (s1 := with_heap (<[r := create true]> (heap s)) s).
  assert (I1 : inv s1) by by apply new_address_inv.
  assert (H : heap s1 !! r = Some (create true)) by apply lookup_insert_eq.
  destruct (closed (registry s)) eqn:C.
  - assert (W : retire r (with_heap (<[r := create true]> (heap s)) (with_permits p s)) =
                with_permits p (retire r s1)) by (unfold retire; cbn; by rewrite lookup_insert_eq).
    rewrite W. destruct (retire_frame r s1) as (A & B & _).
    destruct (retired_after r _ s1 H) as (g' & G' & T & _ & _ & Q).
    apply (insert_generation_inv id r g' (permits s) p (retire r s1)); rewrite ?A, ?B; try done.
    by apply retire_inv.
  - apply (insert_generation_inv id r (create true) (permits s) p s1); try done. cbn. congruence.
Qed.

Lemma finish_generation_inv (id : Uuid) (s : Owner) : inv s -> inv (finish_generation id s).
Proof.
  intros I. unfold finish_generation. destruct (generations (registry s) !! id) as [r|] eqn:E; [|done].
  destruct (inv_generations _ I id r E) as (g & G & Q & _). cbn [heap with_registry]. rewrite G, Q.
  apply release_inv; [|by apply (delete_generation_inv id r)].
  cbn. intros j [N L]%lookup_delete_Some. apply N. by apply (inv_distinct _ I id j r).
Qed.

Lemma slot_inv (p : Permits) (s : Owner) :
  take_command_slot (permits s) = Some p -> inv s -> inv (with_commands (commands s + 1) (with_permits p s)).
Proof.
  unfold take_command_slot. destruct (0 <? _) eqn:L; [|done]. apply Z.ltb_lt in L. intros [= <-] I.
  pose proof (inv_positive _ I) as (_ & _ & _ & K). apply capacity_inv; cbn; auto; lia.
Qed.

Lemma command_inv (cleanup : bool) (s : Owner) : inv s -> inv (command cleanup s).2.
Proof.
  intros I. unfold command, enqueue. destruct (_ && _) eqn:C; [done|].
  destruct (take_command_slot _) eqn:P; [|done]. by apply slot_inv.
Qed.

Lemma start_command_inv (id : Uuid) (r : Ref) (s : Owner) :
  heap s !! r = None -> inv s -> inv (start_command id r s).2.
Proof.
  intros N I. unfold start_command, enqueue. rewrite andb_true_r.
  destruct (closed (registry s)) eqn:C; [done|].
  destruct (take_command_slot _) as [p|] eqn:T; [|done].
  destruct (generations (registry s) !! id) eqn:E; [done|].
  destruct (take_generation_permit p) as [p'|] eqn:P; [|done].
  apply (insert_generation_inv id r (create true) p p'
    (with_heap (<[r := create true]> (heap s)) (with_commands (commands s + 1) (with_permits p s)))); try done.
  - apply lookup_insert_eq.
  - cbn. congruence.
  - intros j M. destruct (inv_generations _ I j r M) as (g & G & _). congruence.
  - apply (new_address_inv r (create true) (with_commands (commands s + 1) (with_permits p s))); try done.
    by apply slot_inv.
Qed.

Lemma command_ends_inv (panicked : bool) (s : Owner) : 0 < commands s -> inv s -> inv (command_ends panicked s).
Proof.
  intros L I. pose proof (inv_positive _ I) as (_ & _ & K & _).
  assert (J : inv (command_ends false s)) by (apply capacity_inv; cbn; auto; lia).
  destruct panicked; [|done]. exact (fail_inv _ J).
Qed.

Lemma register_in_inv (o : option Ref) (id : Uuid) (t : Token) (s s' : Owner) :
  register_in o id t s = Ok s' -> (forall r, o = Some r -> is_Some (heap s !! r)) -> inv s ->
  inv s' /\ registry s' = registry s /\ permits s' = permits s /\ output s' = output s /\
  completions s' = completions s /\ ending s' = ending s /\ evolves ∅ s s' /\
  (forall r, o <> Some r -> heap s' !! r = heap s !! r) /\
  (forall r, o = Some r -> exists g, heap s' !! r = Some g /\ retired g = false /\ id ∈ registered g /\ t ∈ tracker g).
Proof.
  unfold register_in. intros R K I. destruct o as [r|].
  2:{ injection R as <-. split; [done|]. do 5 (split; [done|]). split; [apply evolves_refl|done]. }
  destruct (K r eq_refl) as [g G]. rewrite G in R. destruct (register id t g) as [g'|] eqn:E; [|done].
  injection R as <-. destruct (register_evolves r id t g g' s G E) as (V & A & B & C & D).
  split; [by eapply evolves_inv|]. do 5 (split; [done|]). split; [done|]. cbn. split.
  - intros r' NE. apply lookup_insert_ne. congruence.
  - intros r' [= <-]. exists g'. by rewrite lookup_insert_eq.
Qed.

Lemma enqueue_response_inv (gen : option Uuid) (view : option Ref) (id : Uuid) (s : Owner) :
  output s !! id = None -> (forall r, view = Some r -> is_Some (heap s !! r)) -> inv s ->
  inv (enqueue_response gen view id s).2.
Proof.
  intros N K I. unfold enqueue_response. destruct (closed (registry s)) eqn:C; [done|].
  destruct (take_response_permit _) as [p|] eqn:P; [|done].
  set (found := match gen with None => _ | Some _ => _ end).
  assert (F : forall gr, found = Ok gr -> forall r, gr = Some r -> is_Some (heap s !! r)).
  { unfold found. intros gr E r ->. destruct gen as [g|]; [|done].
    destruct (generations (registry s) !! g) as [r'|] eqn:G; [|done]. injection E as ->.
    destruct (inv_generations _ I g r G) as (x & -> & _). by eexists. }
  destruct found as [gr|]; [|done]. specialize (F gr eq_refl).
  destruct (register_in gr id _ s) as [s1|] eqn:R1; [|done].
  destruct (register_in_inv _ _ _ _ _ R1 F I) as (I1 & Q1 & P1 & O1 & C1 & E1 & V1 & H1 & G1).
  destruct (register_in view id _ s1) as [s2|] eqn:R2; cbn.
  2:{ destruct gr; [|done]. apply (release_token_inv _ {[id]}); [| |done].
      - intros role j NE E. apply NE, elem_of_singleton. destruct role; unfold task_of, generation_task, viewer_task in E; congruence.
      - intros j ->%elem_of_singleton. rewrite C1. destruct (completions s !! id) as [c|] eqn:L; [|done].
        destruct (inv_completions _ I id c L) as [e2 L']. destruct (inv_responses _ I id e2 L') as [[q Q] _]. congruence. }
  assert (F2 : forall r, view = Some r -> is_Some (heap s1 !! r)).
  { intros r [g G]%K. destruct V1 as (_ & V1 & _). destruct (V1 r g G) as (g' & -> & _). by eexists. }
  destruct (register_in_inv _ _ _ _ _ R2 F2 I1) as (I2 & Q2 & P2 & O2 & C2 & E2 & V2 & H2 & G2).
  apply new_response_inv; [congruence..| |congruence|done].
  intros [] r E; cbn in E; [|by apply G2]. destruct (G1 r E) as (g & G & A1 & A2 & A3).
  destruct (decide (view = Some r)) as [W|W]; [|rewrite H2 by done; by exists g].
  destruct (G2 r W) as (g' & G' & B1 & B2 & B3). exists g'. do 3 (split; [done|]).
  destruct V2 as (_ & V2 & _). destruct (V2 r g G) as (g2 & L & _ & _ & _ & _ & T & _).
  rewrite G' in L. injection L as <-. apply (T As_generation id); [set_solver|done].
Qed.

Lemma finish_in_generation_inv (id : Uuid) (e : ResponseEntry) (phase : Phase) (s : Owner) :
  completions s !! id = Some (e, phase) -> drained_in (output s) id -> inv s ->
  inv (finish_in_generation id e s).
Proof.
  intros E D I. pose proof (phase_inv id e phase Gone_from_generation s E D I) as J.
  unfold finish_in_generation. destruct (generation e) as [r|]; [|done].
  apply (remove_inv id r) in J; [exact J|exact D].
Qed.

Lemma finish_in_viewer_inv (id : Uuid) (e : ResponseEntry) (phase : Phase) (s : Owner) :
  completions s !! id = Some (e, phase) -> drained_in (output s) id -> inv s ->
  inv (finish_in_viewer id e s).
Proof.
  intros E D I. pose proof (phase_inv id e phase Gone_from_viewer s E D I) as J.
  unfold finish_in_viewer. destruct (viewer e) as [r|]; [|done].
  apply (remove_inv id r) in J; [exact J|exact D].
Qed.

(** Past the first phase the queue is drained. *)
Lemma phase_drained (id : Uuid) (e : ResponseEntry) (phase : Phase) (s : Owner) :
  inv s -> completions s !! id = Some (e, phase) -> phase <> Streaming -> drained_in (output s) id.
Proof.
  intros I E N. destruct (inv_completions _ I id _ E) as [e' L].
  destruct (inv_responses _ I id e' L) as (_ & _ & R & _). rewrite E in R. by destruct R as [_ [?|?]].
Qed.

Lemma finish_in_registry_inv (id : Uuid) (e : ResponseEntry) (phase : Phase) (s : Owner) :
  completions s !! id = Some (e, phase) -> inv s -> inv (finish_in_registry id e s).
Proof.
  intros E I. pose proof (leave_inv id s (mk_is_Some _ _ E) I) as J.
  apply (drop_tokens_inv id e) in J; [|apply lookup_delete_eq].
  unfold finish_in_registry, drop_tokens in *. by destruct (generation e), (viewer e).
Qed.

Lemma task_ends_inv (id : Uuid) (s : Owner) : id ∈ ending s -> inv s -> inv (task_ends id s).
Proof.
  intros E [I1 I2 I3 I4 I5 I6 (I7 & I7' & I7'') (I8 & I8' & I8'')].
  assert (size (ending s) = S (size (ending s ∖ {[id]})))%nat.
  { assert (size (ending s) <> 0)%nat by (intros Q%size_empty_inv; set_solver).
    rewrite size_difference, size_singleton by set_solver. lia. }
  split; cbn; auto; [set_solver|lia|lia].
Qed.

Lemma fail_refs_failed (o : option Ref) (r : Ref) (g : Generation) (s : Owner) :
  is_Some (heap s !! r) -> o = Some r -> heap (on_option o fail_generation s) !! r = Some g -> g_failed g = true.
Proof.
  intros [g0 E] -> G. cbn in G. unfold fail_generation in G.
  assert (E' : heap (on_generation r mark_failed s) !! r = Some (mark_failed g0))
    by (cbn; by rewrite lookup_alter_eq, E).
  destruct (retired_after r _ _ E') as (g' & G' & _ & _ & F & _). rewrite G in G'. injection G' as <-. done.
Qed.

Lemma evolves_fail_option (o : option Ref) (s : Owner) : evolves ∅ s (on_option o fail_generation s).
Proof. destruct o; [apply evolves_fail_generation|apply evolves_refl]. Qed.

Lemma fail_option_frame (o : option Ref) (s : Owner) :
  completions (on_option o fail_generation s) = completions s /\ ending (on_option o fail_generation s) = ending s.
Proof. destruct o as [r|]; [|done]. by destruct (fail_generation_frame r s) as (_ & _ & _ & _ & ? & ?). Qed.

Lemma completion_dropped_inv (id : Uuid) (e : ResponseEntry) (phase : Phase) (s : Owner) :
  completions s !! id = Some (e, phase) -> inv s -> inv (completion_dropped id e s).
Proof.
  intros E I. set (s0 := with_output (cancel_all {[id]} (output s)) s).
  assert (I0 : inv s0) by by apply cancel_all_inv.
  set (s1 := on_option (generation e) fail_generation s0).
  set (s2 := on_option (viewer e) fail_generation s1).
  assert (I1 : inv s1) by (apply on_option_inv; [apply fail_generation_inv|done]).
  assert (I2 : inv s2) by (apply on_option_inv; [apply fail_generation_inv|done]).
  destruct (fail_option_frame (generation e) s0) as [C1 E1], (fail_option_frame (viewer e) s1) as [C2 E2].
  assert (C : completions s2 = completions s) by (transitivity (completions s1); [exact C2|exact C1]).
  assert (J : inv (with_tasks (delete id (completions s2)) (ending s2) (fail s2))).
  { apply (lost_inv id (fail s2)); [done| |by apply fail_inv]. intros role r g e' phase' L R G. cbn in L, G.
    rewrite C, E in L. injection L as <- <-.
    destruct (inv_completions _ I id _ E) as [e2 L2].
    destruct (inv_responses _ I id e2 L2) as (_ & _ & Q & H). rewrite E in Q. destruct Q as [-> _].
    destruct (H role r R) as (g0 & G0 & _).
    assert (K0 : is_Some (heap s0 !! r)) by by eexists.
    assert (K1 : exists g1, heap s1 !! r = Some g1 /\ (role = As_generation -> g_failed g1 = true)).
    { destruct (evolves_fail_option (generation e2) s0) as (_ & V & _). destruct (V r g0 G0) as (g1 & G1 & _).
      exists g1. split; [done|]. intros ->. exact (fail_refs_failed _ r g1 s0 K0 R G1). }
    destruct K1 as (g1 & G1 & F1). destruct role; cbn in R.
    - destruct (evolves_fail_option (viewer e2) s1) as (_ & V & _).
      destruct (V r g1 G1) as (g2 & G2 & _ & _ & _ & M & _). unfold s2 in G. rewrite G in G2.
      injection G2 as <-. auto.
    - eapply (fail_refs_failed (viewer e2) r g s1); [by eexists|done|done]. }
  assert (D : ending s2 = ending s) by (transitivity (ending s1); [exact E2|exact E1]).
  rewrite C, D in J. apply (drop_tokens_inv id e) in J; [|apply lookup_delete_eq].
  unfold completion_dropped, drop_tokens in *. fold s0 s1 s2. by destruct (generation e), (viewer e).
Qed.

(** *** Shutdown *)

Lemma retire_all (l : list Ref) (s : Owner) :
  inv s -> let s' := foldr retire s l in
  inv s' /\ registry s' = registry s /\ completions s' = completions s /\ evolves ∅ s s' /\
  permits s' = permits s /\ commands s' = commands s /\ ending s' = ending s /\
  (forall r g, r ∈ l -> heap s !! r = Some g -> exists g', heap s' !! r = Some g' /\ retired g' = true).
Proof.
  intros I. induction l as [|r l IH]; cbn.
  { do 3 (split; [done|]). split; [apply evolves_refl|]. do 3 (split; [done|]).
    intros r g H. by apply elem_of_nil in H. }
  destruct IH as (J & A & B & V & P & C & E & R). set (s1 := foldr retire s l) in *.
  destruct (retire_frame r s1) as (F1 & F2 & F3 & F4 & F5 & F6).
  split; [by apply retire_inv|]. split; [congruence|]. split; [congruence|].
  split; [eapply evolves_trans; [exact V|apply evolves_retire]|]. do 3 (split; [congruence|]).
  intros r' g [->|L]%elem_of_cons G.
  - destruct V as (_ & V & _). destruct (V r g G) as (g1 & G1 & _).
    destruct (retired_after r g1 s1 G1) as (g2 & G2 & T & _). by exists g2.
  - destruct (R r' g L G) as (g1 & G1 & T). destruct (evolves_retire ∅ r s1) as (_ & V1 & _).
    destruct (V1 r' g1 G1) as (g2 & G2 & _ & _ & M & _). exists g2. auto.
Qed.

Lemma retire_all_registry (l : list Ref) (g : Registry) (s : Owner) :
  foldr retire (with_registry g s) l = with_registry g (foldr retire s l).
Proof.
  induction l as [|r l IH]; [done|]. cbn [foldr]. rewrite IH. generalize (foldr retire s l) as t.
  intros t. unfold retire. cbn. by destruct (heap t !! r).
Qed.

Lemma closed_inv (s : Owner) :
  inv s ->
  (forall id r g, generations (registry s) !! id = Some r -> heap s !! r = Some g -> retired g = true) ->
  (forall id, is_Some (responses (registry s) !! id) -> drained_in (output s) id) ->
  inv (with_registry (mk_registry true (generations (registry s)) (responses (registry s))) s).
Proof.
  intros [I1 I2 I3 I4 I5 I6 I7 I8] G R. split; cbn; auto.
  - intros id e L. destruct (I1 id e L) as (R1 & R2 & R3 & R4). unfold response_ok. cbn.
    split; [done|]. split; [|done]. intros _. apply R. by eexists.
  - intros id r L. destruct (I3 id r L) as (g & H & Q & _). exists g. split; [done|]. split; [done|].
    intros _. by eapply G.
Qed.

Lemma close_inv (s : Owner) : inv s -> inv (close s).
Proof.
  intros I. unfold close. set (l := (map_to_list (generations (registry s))).*2).
  rewrite retire_all_registry. destruct (retire_all l s I) as (J & A & B & V & P & C & E & R).
  set (s1 := foldr retire s l) in *. set (o := cancel_all (dom (responses (registry s))) (output s1)).
  pose proof (cancel_all_inv (dom (responses (registry s))) s1 J) as K. fold o in K.
  apply closed_inv in K; cbn in K.
  - rewrite A in K. revert K. apply evolves_inv; [|done..]. exact (evolves_refl ∅ (with_output o s1)).
  - cbn. rewrite A. intros id r g L G.
    destruct (inv_generations _ I id r L) as (g0 & G0 & _).
    destruct (R r g0) as (g' & G' & T); [|done|congruence].
    apply list_elem_of_fmap. exists (id, r). split; [done|]. by apply elem_of_map_to_list.
  - cbn. rewrite A. intros id L. by apply cancel_all_drained, elem_of_dom.
Qed.

Lemma step_inv (s s' : Owner) : inv s -> step s s' -> inv s'.
Proof.
  intros I H. destruct H.
  - by apply begin_generation_inv.
  - by apply finish_generation_inv.
  - by apply new_address_inv.
  - by apply retire_inv.
  - by apply fail_generation_inv.
  - by apply command_inv.
  - by apply start_command_inv.
  - by apply command_ends_inv.
  - by apply enqueue_response_inv.
  - by eapply output_inv, I; [|apply moves_drained].
  - eapply finish_in_generation_inv; [done| |done]. intros q' L. congruence.
  - eapply finish_in_viewer_inv; [done| |done]. by eapply phase_drained.
  - by eapply finish_in_registry_inv.
  - by apply task_ends_inv.
  - by eapply completion_dropped_inv.
  - by apply inspect_inv.
  - by apply inspection_ends_inv.
  - by apply close_inv.
  - by apply fail_inv.
Qed.

Lemma owner_inv (s : Owner) : reachable s -> inv s.
Proof.
  induction 1 as [|s s' _ I H]; [|by eapply step_inv].
  split; cbn; try done; try set_solver; try (by intros ? ?; rewrite lookup_empty).
Qed.

Lemma drained_poll (q : State) (b : Bytes) : is_drained q = true -> (poll_next q).1.1.1 <> Item b.
Proof.
  unfold is_drained, poll_next. destruct (cancelled q); [done|]. cbn.
  destruct (done q), (chunks q); done.
Qed.

(** ** Theorems *)

(** C7. Once a generation or a viewer is retired, or the owner is closed, no
    response that belongs to it sends anything more: its queue is cancelled or has
    been drained, however registration, completion, panics and retirement
    interleave. *)
Theorem retired_is_silent (s : Owner) (id : Uuid) (e : ResponseEntry) :
  reachable s -> responses (registry s) !! id = Some e ->
  (closed (registry s) = true \/
   exists role r g, ref_of role e = Some r /\ heap s !! r = Some g /\ retired g = true) ->
  exists q, output s !! id = Some q /\ is_drained q = true /\ forall b, (poll_next q).1.1.1 <> Item b.
Proof.
  intros R L H. destruct (inv_responses _ (owner_inv s R) id e L) as ([q Q] & C & _ & G).
  assert (D : drained_in (output s) id).
  { destruct H as [H|(role & r & g & E & A & T)]; [by apply C|]. destruct (G role r E) as (g' & A' & _ & D & _).
    rewrite A in A'. injection A' as <-. auto. }
  exists q. split; [done|]. split; [by apply D|]. intros b. by apply drained_poll, D.
Qed.

(** When [drain] of a generation succeeds, nothing of it is left and nothing
    can come: no response in the registry belongs to it, and it registers none. A
    task that was lost makes [drain] fail instead. *)
Theorem drained_is_empty (s : Owner) (r : Ref) (g : Generation) :
  reachable s -> heap s !! r = Some g -> drain g = Some (Ok tt) ->
  (forall id e role, responses (registry s) !! id = Some e -> ref_of role e <> Some r) /\
  (forall id t, register id t g = Err SessionNotFound).
Proof.
  intros R G D. pose proof (owner_inv s R) as I. unfold drain in D.
  destruct (tracker_closed g) eqn:T; [|done]. cbn in D. destruct (bool_decide _) eqn:E; [|done].
  apply bool_decide_eq_true in E. destruct (g_failed g) eqn:F; [done|]. split.
  - intros id e role L H. destruct (inv_responses _ I id e L) as (_ & _ & _ & K).
    destruct (K role r H) as (g' & G' & _ & _ & M). rewrite G in G'. injection G' as <-.
    destruct (completions s !! id); [|congruence]. rewrite E in M. by apply not_elem_of_empty in M.
  - intros id t. unfold register. rewrite (inv_trackers _ I r g G) in T. by rewrite T.
Qed.

(** Permits are neither lost nor exceeded: at most 128 generations, 128
    responses and 128 commands exist; and once the owner is complete and its
    responses have drained every permit is back. *)
Theorem permits_are_conserved (s : Owner) :
  reachable s ->
  (size (generations (registry s)) <= 128)%nat /\
  (size (responses (registry s)) + size (ending s) <= 128)%nat /\ 0 <= commands s <= 128 /\
  (complete s = true -> drain_responses s = Some (Ok tt) ->
   p_generations (permits s) = 128 /\ p_responses (permits s) = 128).
Proof.
  intros R. destruct (owner_inv s R) as [_ _ _ _ _ _ (P1 & P2 & P3) (Q1 & Q2 & Q3 & Q4)].
  do 3 (split; [lia|]). unfold complete, drain_responses. intros C D.
  destruct (bool_decide (generations _ = ∅)) eqn:G; [|by rewrite andb_false_r in C].
  destruct (bool_decide (ending s = ∅)) eqn:E; [|by rewrite andb_false_r in D].
  destruct (bool_decide (responses _ = ∅)) eqn:K; [|by rewrite andb_false_r in C].
  apply bool_decide_eq_true in G, E, K. rewrite G in P1. rewrite E, K in P2.
  rewrite map_size_empty in P1. rewrite map_size_empty, size_empty in P2. lia.
Qed.

(** *** Concrete runs *)

(** A generation with one response, then retired. *)
Definition run_begun : Owner := (begin_generation 1 false 1%positive new_owner).2.
Definition run_streaming : Owner := (enqueue_response (Some 1) None 7 run_begun).2.
Definition run_retired : Owner := retire 1%positive run_streaming.

Lemma run_retired_reachable : reachable run_retired.
Proof.
  eapply reach_step; [|apply step_retire]. eapply reach_step; [|by apply step_response].
  eapply reach_step; [apply reach_new|]. by apply step_begin.
Qed.

Lemma retired_is_silent_witness :
  exists q, output run_retired !! 7 = Some q /\ is_drained q = true /\ forall b, (poll_next q).1.1.1 <> Item b.
Proof.
  apply (retired_is_silent run_retired 7 (mk_entry (Some 1%positive) None) run_retired_reachable).
  - vm_compute. reflexivity.
  - right. exists As_generation, 1%positive. eexists. split; [reflexivity|]. split; vm_compute; reflexivity.
Defined.

Lemma drained_is_empty_example :
  let s := retire 1%positive run_begun in
  exists g, heap s !! 1%positive = Some g /\
  (forall id e role, responses (registry s) !! id = Some e -> ref_of role e <> Some 1%positive) /\
  (forall id t, register id t g = Err SessionNotFound).
Proof.
  intros s. eexists. split; [vm_compute; reflexivity|].
  apply (drained_is_empty s 1%positive).
  - eapply reach_step; [|apply step_retire]. eapply reach_step; [apply reach_new|]. by apply step_begin.
  - vm_compute. reflexivity.
  - vm_compute. reflexivity.
Defined.

Lemma permits_are_conserved_example :
  (size (generations (registry run_retired)) <= 128)%nat /\
  (size (responses (registry run_retired)) + size (ending run_retired) <= 128)%nat /\
  0 <= commands run_retired <= 128 /\
  (complete run_retired = true -> drain_responses run_retired = Some (Ok tt) ->
   p_generations (permits run_retired) = 128 /\ p_responses (permits run_retired) = 128).
Proof. exact (permits_are_conserved run_retired run_retired_reachable). Defined.

(** A response refused by its viewer leaves its identifier in the gate of the
    generation: no completion will remove it. *)
Definition run_refused : result unit PlaybackError * Owner :=
  enqueue_response (Some 1) (Some 2%positive) 7
    (retire 2%positive (with_heap (<[2%positive := create false]> (heap run_begun)) run_begun)).

Lemma refused_response_stays_registered :
  run_refused.1 = Err SessionNotFound /\
  (registered <$> heap run_refused.2 !! 1%positive) = Some {[7]} /\
  responses (registry run_refused.2) = ∅ /\ completions run_refused.2 = ∅ /\ ending run_refused.2 = ∅.
Proof. by vm_compute. Qed.

End VodOwner.
