(* ===== verification/Workers.v ===== *)
(** * Supervision of transcoder workers

    Models server/src/services/transcoding/lifecycle.rs and lifecycle_execution.rs:
    the task that owns one FFmpeg process, from its start to the removal of its
    cache, the [watch] channels it shares with the callers of [stop], and what
    observers read of it.

    A [watch] channel is its latest value and a version; a receiver remembers the
    version it has seen.  Between two [await]s of the task other threads may run:
    each rule of [work] is what the task does between two of them.  The outcome of
    an awaited operation of the operating system or of a library (waiting for the
    process, terminating it, removing a directory) is chosen by the rule. *)

From stdpp Require Import gmap.
From S2P Require Import Prelude VodQueue VodOwner F64 BitReader CodecBytes CodecProofs Readiness Ladder Transcode Recovery.

Module Workers.
Import VodOwner.

Abbreviation ExecutionState := Readiness.ExecutionState.
Abbreviation PlaybackError := Readiness.PlaybackError.
Abbreviation FailureClass := Recovery.FailureClass.
Abbreviation FailureHints := Recovery.FailureHints.

(** ** lifecycle_execution.rs *)

(** What waiting for the process gives: its status, its termination after an hour,
    or an error. *)
Inductive Waited : Type := Completed (success : bool) | Timed_out | Wait_failed.

(** [result.map(execution_result).map_err(|_| ())], with [None] for the error. *)
Definition execution_result (r : Waited) : option ExecutionState :=
  match r with
  | Completed true => Some Readiness.Succeeded
  | Wait_failed => None
  | _ => Some Readiness.Failed
  end.

Definition classify_failure (r : Waited) : bool := match r with Completed false => true | _ => false end.

Definition failure_of (outcome : option ExecutionState) (classify stderr_complete : bool) (hints : FailureHints)
    : option FailureClass :=
  match outcome with
  | Some Readiness.Stalled =>
      Some (if negb stderr_complete || Recovery.blocks_recovery hints then Recovery.Unknown else Recovery.Stalled)
  | Some Readiness.Failed =>
      if classify && stderr_complete then Some (Recovery.classify hints) else Some Recovery.Unknown
  | None => Some Recovery.Unknown
  | _ => None
  end.

(** ** lifecycle.rs: the worker *)

Record Completion := mk_completion { request : Z; outcome : result unit string }.

Definition succeeded (c : Completion) : bool := is_ok (outcome c).

(** Where the task is. *)
Inductive Phase : Type :=
| Supervising (stdout_open : bool)
| Terminating (next : ExecutionState)
| Collecting (outcome : option ExecutionState) (classify : bool)
| Unconfirmed
| Terminating_again
| Exited
| Awaiting
| Cleaning
| Draining
| Removing
| Cleanup_failed
| Reported
| Finished
| Lost.

(** [requests], [unseen]: the value of the channel of requests, and whether the
    task has not seen its latest change; [completion], [version]: the channel of
    results; [bumped]: whether the stop of the generation was passed on; [alive],
    [encoder], [cache]: the process, the encoder permit and the cache directory. *)
Record Worker := mk_worker {
  phase : Phase; alive : bool; encoder : bool; cache : bool; registered : bool; bumped : bool;
  requests : Z; unseen : bool; completion : option Completion; version : nat;
  execution : ExecutionState; failure : option FailureClass; generation : Generation }.

(** [start_with_watchdog] *)
Definition start (generation : Generation) : Worker :=
  mk_worker (Supervising true) true true true true false 0 false None 0 Readiness.Running None generation.

Definition with_phase (p : Phase) (w : Worker) : Worker :=
  mk_worker p (alive w) (encoder w) (cache w) (registered w) (bumped w) (requests w) (unseen w)
    (completion w) (version w) (execution w) (failure w) (generation w).
Definition with_alive (b : bool) (w : Worker) : Worker :=
  mk_worker (phase w) b (encoder w) (cache w) (registered w) (bumped w) (requests w) (unseen w)
    (completion w) (version w) (execution w) (failure w) (generation w).
Definition with_encoder (b : bool) (w : Worker) : Worker :=
  mk_worker (phase w) (alive w) b (cache w) (registered w) (bumped w) (requests w) (unseen w)
    (completion w) (version w) (execution w) (failure w) (generation w).
Definition with_unseen (b : bool) (w : Worker) : Worker :=
  mk_worker (phase w) (alive w) (encoder w) (cache w) (registered w) (bumped w) (requests w) b
    (completion w) (version w) (execution w) (failure w) (generation w).
Definition with_generation (g : Generation) (w : Worker) : Worker :=
  mk_worker (phase w) (alive w) (encoder w) (cache w) (registered w) (bumped w) (requests w) (unseen w)
    (completion w) (version w) (execution w) (failure w) g.
Definition with_execution (e : ExecutionState) (f : option FailureClass) (w : Worker) : Worker :=
  mk_worker (phase w) (alive w) (encoder w) (cache w) (registered w) (bumped w) (requests w) (unseen w)
    (completion w) (version w) e f (generation w).
Definition without_cache (w : Worker) : Worker :=
  mk_worker (phase w) (alive w) (encoder w) false (registered w) (bumped w) (requests w) (unseen w)
    (completion w) (version w) (execution w) (failure w) (generation w).
Definition unregister (w : Worker) : Worker :=
  mk_worker (phase w) (alive w) (encoder w) (cache w) false (bumped w) (requests w) (unseen w)
    (completion w) (version w) (execution w) (failure w) (generation w).
Definition mark_bumped (w : Worker) : Worker :=
  mk_worker (phase w) (alive w) (encoder w) (cache w) (registered w) true (requests w) (unseen w)
    (completion w) (version w) (execution w) (failure w) (generation w).

(** [send_modify(|value| *value = value.saturating_add(1))] *)
Definition bump (w : Worker) : Worker :=
  mk_worker (phase w) (alive w) (encoder w) (cache w) (registered w) (bumped w) (sat_add64 (requests w) 1) true
    (completion w) (version w) (execution w) (failure w) (generation w).

Definition report (outcome : result unit string) (w : Worker) : Worker :=
  mk_worker (phase w) (alive w) (encoder w) (cache w) (registered w) (bumped w) (requests w) false
    (Some (mk_completion (requests w) outcome)) (S (version w)) (execution w) (failure w) (generation w).

Definition unconfirmed : result unit string := Err "FFmpeg termination could not be confirmed"%string.
Definition cleanup_failed : result unit string := Err "transcode cache cleanup failed"%string.

(** [Generation::fail], the queues apart *)
Definition fail_generation (g : Generation) : Generation := mark_retired (mark_failed g).

(** What follows [supervise]: the state and the class observers read, and a report
    when the end of the process is not confirmed. *)
Definition supervised (outcome : option ExecutionState) (classified : option FailureClass) (w : Worker) : Worker :=
  let terminal := if 0 <? requests w then Readiness.Cancelled
                  else match outcome with Some s => s | None => Readiness.Failed end in
  let w := with_execution terminal
             (match terminal with Readiness.Failed | Readiness.Stalled => classified | _ => None end) w in
  match outcome with
  | None => with_phase Unconfirmed (report unconfirmed w)
  | Some _ => with_phase Exited w
  end.

(** The permit is dropped, or its lock is poisoned; then the requests are looked at. *)
Definition release_encoder (poisoned : bool) (w : Worker) : Worker :=
  let w := if poisoned then with_generation (fail_generation (generation w)) w else with_encoder false w in
  with_unseen false (with_phase (if requests w =? 0 then Awaiting else Cleaning) w).

Definition cleanup_result (r : result unit string) (w : Worker) : Worker :=
  match r with
  | Ok _ => with_phase Reported (report (Ok tt) (without_cache w))
  | Err e => with_phase Cleanup_failed (report (Err e) w)
  end.

(** The task.  The rules of [Supervising] allow any order of ready branches; the
    code's [biased] excludes some. *)
Inductive work (w : Worker) : Worker -> Prop :=
| w_stop o p :
    phase w = p -> (p = Supervising o \/ (exists n, p = Terminating n) \/ exists r c, p = Collecting r c) ->
    stop (generation w) = true -> bumped w = false -> work w (mark_bumped (bump w))
| w_output_closes : phase w = Supervising true -> work w (with_phase (Supervising false) w)
| w_cancelled o seen :
    phase w = Supervising o -> 0 < requests w ->
    work w (with_unseen (unseen w && negb seen) (with_phase (Terminating Readiness.Cancelled) w))
| w_output_failed : phase w = Supervising true -> work w (with_phase (Terminating Readiness.Failed) w)
| w_expired o : phase w = Supervising o -> work w (with_phase (Terminating Readiness.Stalled) w)
| w_waited o r :
    phase w = Supervising o -> (is_Some (execution_result r) -> alive w = false) ->
    work w (with_phase (Collecting (execution_result r) (classify_failure r)) w)
| w_terminated next (terminated : bool) :
    phase w = Terminating next ->
    work w (if terminated then with_alive false (with_phase (Collecting (Some next) false) w)
            else with_phase (Collecting None false) w)
| w_collected r c stderr_complete hints :
    phase w = Collecting r c -> work w (supervised r (failure_of r c stderr_complete hints) w)
| w_exited : phase w = Unconfirmed -> alive w = false -> work w (with_phase Exited w)
| w_still_there : phase w = Unconfirmed -> work w (report unconfirmed w)
| w_retry : phase w = Unconfirmed -> unseen w = true -> work w (with_unseen false (with_phase Terminating_again w))
| w_retried terminated :
    phase w = Terminating_again ->
    work w (if terminated : bool then with_alive false (with_phase Exited w)
            else with_phase Unconfirmed (report unconfirmed w))
| w_release poisoned : phase w = Exited -> work w (release_encoder poisoned w)
| w_awaited : phase w = Awaiting -> unseen w = true -> work w (with_unseen false (with_phase Cleaning w))
| w_retire :
    phase w = Cleaning -> work w (with_phase Draining (with_generation (mark_retired (generation w)) w))
| w_drained :
    phase w = Draining -> drain (generation w) = Some (Ok tt) -> work w (with_phase Removing w)
| w_not_drained e :
    phase w = Draining -> drain (generation w) = Some (Err e) -> work w (cleanup_result cleanup_failed w)
| w_removed (removed : bool) :
    phase w = Removing -> work w (cleanup_result (if removed then Ok tt else cleanup_failed) w)
| w_again : phase w = Cleanup_failed -> unseen w = true -> work w (with_unseen false (with_phase Cleaning w))
| w_finished : phase w = Reported -> work w (with_phase Finished (unregister w))
| w_lost :
    phase w <> Reported -> phase w <> Finished -> phase w <> Lost ->
    work w (with_phase Lost (with_generation (fail_generation (generation w)) w)).

(** What others do to a generation: responses and inspections come and go. *)
Inductive touches (g : Generation) : Generation -> Prop :=
| t_retire : touches g (mark_retired g)
| t_fail : touches g (fail_generation g)
| t_register id g' : register id (generation_task id) g = Ok g' -> touches g g'
| t_inspect id :
    retired g = false ->
    touches g (mk_generation (retired g) (VodOwner.registered g) (stop g) ({[inspection_task id]} ∪ tracker g)
                 (tracker_closed g) (g_failed g) (permit g))
| t_remove id : touches g (remove id g)
| t_ends token : touches g (release_token token g)
| t_release : touches g (release g).

(** The process exits by itself; others ask to cancel ([WorkerCancellation],
    [cancel_all], the drop of the workers). *)
Inductive outside (w : Worker) : Worker -> Prop :=
| o_exit : outside w (with_alive false w)
| o_cancel : outside w (bump w)
| o_touch g : touches (generation w) g -> outside w (with_generation g w).

(** ** [TranscodeWorkers::stop] *)

(** [seen]: the version of the result the receiver has seen. *)
Inductive Caller : Type :=
| Called | Found | Checking | Bumping | Looping (request : Z) | Parked (request : Z) (seen : nat)
| Returned (r : result bool PlaybackError).

Definition lost : PlaybackError := Readiness.FfmpegFailed "transcode worker completion was lost".

Definition answer (c : Completion) : result bool PlaybackError :=
  match outcome c with Ok _ => Ok true | Err e => Err (Readiness.FfmpegFailed e) end.

(** The receiver's sender is dropped with the task. *)
Definition closed (w : Worker) : bool := match phase w with Finished | Lost => true | _ => false end.

Definition read_result (r : Z) (w : Worker) : Caller :=
  match completion w with
  | Some c => if succeeded c || (r <=? request c) then Returned (answer c) else Parked r (version w)
  | None => Parked r (version w)
  end.

Definition wake (r : Z) (seen : nat) (w : Worker) : Caller :=
  if negb (version w =? seen)%nat then Looping r
  else if closed w then Returned (Err lost) else Parked r seen.

(** What a call does between two points where others may run. *)
Definition call (c : Caller) (w : Worker) : Caller * Worker :=
  match c with
  | Called => if registered w then (Found, w) else (Returned (Ok false), w)
  | Found => (Checking, with_generation (mark_retired (generation w)) w)
  | Checking =>
      if is_some_and (completion w) succeeded then (Returned (Ok true), w) else (Bumping, w)
  | Bumping => (Looping (sat_add64 (requests w) 1), bump w)
  | Looping r => (read_result r w, w)
  | Parked r seen => (wake r seen w, w)
  | Returned r => (Returned r, w)
  end.

Record Sys := mk_sys { worker : Worker; callers : list Caller }.

Inductive step (s : Sys) : Sys -> Prop :=
| s_work w : work (worker s) w -> step s (mk_sys w (callers s))
| s_outside w : outside (worker s) w -> step s (mk_sys w (callers s))
| s_call : step s (mk_sys (worker s) (callers s ++ [Called]))
| s_caller i c :
    callers s !! i = Some c ->
    step s (mk_sys (call c (worker s)).2 (<[i := (call c (worker s)).1]> (callers s))).

Inductive reachable : Sys -> Prop :=
| reach_start g : tracker_closed g = retired g -> reachable (mk_sys (start g) [])
| reach_step s s' : reachable s -> step s s' -> reachable s'.

(** ** What observers read *)

Record WorkerSnapshot := mk_snapshot { s_state : ExecutionState; s_failure : option FailureClass }.

(** [WorkerObservation::snapshot]; the channel of states lives as long as the task
    of the worker, the channel of requests no less. *)
Definition snapshot (w : Worker) : WorkerSnapshot :=
  let state := match execution w with
               | Readiness.Running =>
                   if 0 <? requests w then Readiness.Cancelled
                   else if closed w then Readiness.Failed else Readiness.Running
               | s => s
               end in
  mk_snapshot state (match state with
                     | Readiness.Failed | Readiness.Stalled => Some (unwrap_or (failure w) Recovery.Unknown)
                     | _ => None
                     end).

(** [ExecutionMonitor::state] *)
Definition monitor (w : Worker) : ExecutionState :=
  if 0 <? requests w then Readiness.Cancelled
  else match execution w with
       | Readiness.Running =>
           if closed w then Readiness.Failed else Readiness.Running
       | s => s
       end.

(** ** Invariant *)

Definition finished (p : Phase) : bool := match p with Reported | Finished => true | _ => false end.
Definition drained (p : Phase) : bool := match p with Removing => true | _ => finished p end.
Definition released (p : Phase) : bool :=
  match p with Awaiting | Cleaning | Draining | Cleanup_failed => true | _ => drained p end.
Definition exited (p : Phase) : bool :=
  match p with Exited | Collecting (Some _) _ => true | _ => released p end.
Definition after_report (p : Phase) : bool := match p with Unconfirmed | Cleanup_failed => true | _ => false end.

Record inv (w : Worker) : Prop := {
  inv_tracker : tracker_closed (generation w) = retired (generation w);
  inv_exited : exited (phase w) = true -> alive w = false;
  inv_released : released (phase w) = true -> encoder w = false \/ g_failed (generation w) = true;
  inv_draining : phase w = Draining -> retired (generation w) = true;
  inv_drained : drained (phase w) = true ->
    retired (generation w) = true /\ tracker (generation w) = ∅ /\ encoder w = false;
  inv_cache : finished (phase w) = true -> cache w = false;
  inv_success : is_some_and (completion w) succeeded = finished (phase w);
  inv_requests : 0 <= requests w <= u64_max;
  inv_request : forall c, completion w = Some c -> request c <= requests w;
  inv_reported : after_report (phase w) = true ->
    exists c, completion w = Some c /\ (unseen w = false -> request c = requests w);
  inv_awaiting : phase w = Awaiting -> unseen w = false -> requests w = 0 }.

Lemma start_inv (g : Generation) : tracker_closed g = retired g -> inv (start g).
Proof. by split. Qed.

Lemma sat_bump (n : Z) : 0 <= n <= u64_max -> 0 < sat_add64 n 1 <= u64_max /\ n <= sat_add64 n 1.
Proof. unfold sat_add64, u64_max. lia. Qed.

Lemma bump_inv (w : Worker) : inv w -> inv (bump w).
Proof.
  intros [A B C D E F G R Q P O]. pose proof (sat_bump _ R). split; cbn; auto; try lia; try done.
  - intros c Hc. specialize (Q c Hc). lia.
  - intros Hp. destruct (P Hp) as (c & Hc & _). by exists c.
Qed.

Ltac use_inv :=
  repeat match goal with
  | H : ?p = ?p -> _ |- _ => specialize (H eq_refl)
  | H : true = false -> _ |- _ => clear H
  | H : false = true -> _ |- _ => clear H
  | H : _ /\ _ |- _ => destruct H
  | H : exists _, _ |- _ => destruct H
  | H : Some _ = Some _ |- _ => injection H as H
  end.

(** A rule with a known phase: what the invariant says of the new phase. *)
Ltac solve_inv :=
  split; cbn; try done; intros; use_inv; subst; cbn in *;
  try first [done | lia | congruence | by auto | by eauto].

Lemma mark_retired_inv (w : Worker) : inv w -> inv (with_generation (mark_retired (generation w)) w).
Proof. intros []. split; cbn; auto. intros D. destruct (inv_drained0 D). by split. Qed.

Lemma worker_fail_inv (w : Worker) : inv w -> inv (with_generation (fail_generation (generation w)) w).
Proof. intros []. split; cbn; auto. intros D. destruct (inv_drained0 D). by split. Qed.

Lemma report_inv (e : string) (w : Worker) : finished (phase w) = false -> phase w <> Awaiting -> inv w -> inv (report (Err e) w).
Proof.
  intros N M []. split; cbn; auto; try congruence.
  - intros c [= <-]. done.
  - intros P. eauto.
Qed.

Lemma supervised_inv (r : option ExecutionState) (c : bool) (f : option FailureClass) (w : Worker) :
  phase w = Collecting r c -> inv w -> inv (supervised r f w).
Proof.
  intros H I. unfold supervised. destruct r as [r|].
  - destruct I as [A B C D E F G R Q P O]. rewrite H in *. cbn in *. use_inv. solve_inv.
  - apply (report_inv "FFmpeg termination could not be confirmed") in I; [|by rewrite H..].
    destruct I as [A B C D E F G R Q P O]. cbn in *. rewrite H in *. cbn in *. solve_inv.
Qed.

Lemma encoder_release_inv (poisoned : bool) (w : Worker) :
  phase w = Exited -> inv w -> inv (release_encoder poisoned w).
Proof.
  intros H I. unfold release_encoder. destruct poisoned.
  - apply worker_fail_inv in I. destruct I as [A B C D E F G R Q P O]. cbn in *. rewrite H in *. cbn in *. use_inv.
    destruct (requests w =? 0) eqn:Z; dk_bool; solve_inv; by right.
  - destruct I as [A B C D E F G R Q P O]. rewrite H in *. cbn in *. use_inv.
    destruct (requests w =? 0) eqn:Z; dk_bool; solve_inv; by left.
Qed.

Lemma cleanup_inv (r : result unit string) (w : Worker) :
  phase w = Draining \/ phase w = Removing -> (is_ok r = true -> phase w = Removing) -> inv w ->
  inv (cleanup_result r w).
Proof.
  intros H HR I. assert (N : finished (phase w) = false) by (by destruct H as [-> | ->]).
  destruct r as [[]|e]; cbn in *.
  - specialize (HR eq_refl). destruct I as [A B C D E F G R Q P O]. rewrite HR in *. cbn in *. use_inv. solve_inv.
  - apply (report_inv e) in I; [|done|by destruct H as [-> | ->]].
    destruct I as [A B C D E F G R Q P O]. cbn in *.
    destruct H as [H|H]; rewrite H in *; cbn in *; use_inv; solve_inv.
Qed.

Lemma work_inv (w w' : Worker) : work w w' -> inv w -> inv w'.
Proof.
  intros H I. destruct H.
  all: try (by apply bump_inv in I; destruct I; split).
  all: try (by eapply supervised_inv). all: try (by apply encoder_release_inv).
  all: try (by apply report_inv; [rewrite H|rewrite H|]).
  all: try (by apply cleanup_inv; [auto..|try destruct removed; auto|]).
  all: try (by apply mark_retired_inv in I; destruct I; cbn in *; rewrite H in *; split; cbn; auto).
  all: try (by apply worker_fail_inv in I; destruct I as [A B C D E F G R Q P O]; cbn in *; 
    split; cbn; try done; auto).
  all: try (destruct I as [A B C D E F G R Q P O]; rewrite ?H in *; cbn in *; use_inv; by solve_inv).
  - destruct I as [A B C D E F G R Q P O]; rewrite H in *; cbn in *; use_inv.
    destruct r as [[]| |]; cbn in *; solve_inv; apply H0; eauto.
  - destruct terminated; destruct I as [A B C D E F G R Q P O]; cbn in *; rewrite H in *; cbn in *; solve_inv.
  - destruct terminated; [|apply (report_inv "FFmpeg termination could not be confirmed") in I; try by rewrite H];
      destruct I as [A B C D E F G R Q P O]; cbn in *; rewrite H in *; cbn in *; use_inv; solve_inv.
  - destruct I as [A B C D E F G R Q P O]; rewrite H in *; cbn in *; use_inv. unfold drain in H0.
    destruct (tracker_closed _ && _) eqn:T; [|done]. dk_bool. case_bool_decide; [|done].
    destruct (g_failed (generation w)) eqn:Z; [done|]. destruct C; [|congruence]. solve_inv.
  - apply worker_fail_inv in I. destruct I as [A B C D E F G R Q P O]. cbn in *.
    destruct (finished (phase w)) eqn:Z; [by destruct (phase w)|]. split; cbn; try done; auto.
Qed.

Lemma touches_ok (g g' : Generation) :
  touches g g' -> tracker_closed g = retired g ->
  tracker_closed g' = retired g' /\ (retired g = true -> retired g' = true) /\
  (g_failed g = true -> g_failed g' = true) /\
  (retired g = true -> tracker g = ∅ -> tracker g' = ∅).
Proof.
  intros T E. destruct T as [| |id g' R|id R|id|t|]; cbn; auto.
  - unfold register in R. destruct (retired g) eqn:F; [done|]. injection R as <-. cbn. repeat split; auto; congruence.
  - repeat split; auto; congruence.
  - repeat split; auto. intros _ E'. rewrite E'. set_solver.
Qed.

Lemma outside_inv (w w' : Worker) : outside w w' -> inv w -> inv w'.
Proof.
  intros [| |g T] I; [destruct I; by split|by apply bump_inv|].
  destruct I as [A B C D E F G R Q P O]. destruct (touches_ok _ _ T A) as (T1 & T2 & T3 & T4).
  split; cbn; auto.
  - intros X. destruct (C X); auto.
  - intros X. destruct (E X) as (X1 & X2 & X3). auto.
Qed.

Lemma call_inv (c : Caller) (w : Worker) : inv w -> inv (call c w).2.
Proof.
  intros I. destruct c; cbn; try done.
  - by destruct (registered w).
  - by apply mark_retired_inv.
  - by destruct (is_some_and _ _).
  - by apply bump_inv.
Qed.

(** *** Callers *)

Definition satisfies (r : Z) (c : Completion) : bool := succeeded c || (r <=? request c).

(** What the channel of results holds answers a request, or it is closed. *)
Definition answered (r : Z) (w : Worker) : bool := closed w || is_some_and (completion w) (satisfies r).

Definition caller_ok (w : Worker) (c : Caller) : Prop :=
  match c with
  | Looping r => 0 < r <= requests w
  | Parked r seen =>
      0 < r <= requests w /\ (seen <= version w)%nat /\
      (seen = version w -> is_some_and (completion w) (satisfies r) = false)
  | Returned (Ok true) => finished (phase w) = true
  | _ => True
  end.

(** What one worker becomes: requests and versions grow, a finished worker stays
    finished, an answer stays one. *)
Definition grows (w w' : Worker) : Prop :=
  requests w <= requests w' /\ (version w <= version w')%nat /\
  (version w = version w' -> completion w = completion w') /\
  (finished (phase w) = true -> finished (phase w') = true) /\
  (forall r, r <= requests w -> answered r w = true -> answered r w' = true).

Lemma grows_refl (w : Worker) : grows w w.
Proof. by repeat split. Qed.

Lemma grows_intro (w w' : Worker) :
  requests w <= requests w' -> (finished (phase w) = true -> finished (phase w') = true) ->
  (closed w = true -> closed w' = true) ->
  version w' = version w /\ completion w' = completion w \/
  version w' = S (version w) /\ (exists c, completion w' = Some c /\ requests w <= request c) ->
  grows w w'.
Proof.
  intros R F C V. unfold grows, answered. split; [done|]. split; [destruct V as [[-> _]|[-> _]]; lia|].
  split; [destruct V as [[_ ->]|[-> _]]; [done|lia]|]. split; [done|]. intros r L.
  destruct V as [[_ ->]|[_ (c & -> & Q)]].
  - intros [X|X]%orb_true_iff; [by rewrite C|by rewrite X, orb_true_r].
  - cbn. unfold satisfies. rewrite (proj2 (Z.leb_le _ _)) by lia. by rewrite !orb_true_r.
Qed.

Lemma bump_grows (w : Worker) : inv w -> grows w (bump w).
Proof. intros I. apply grows_intro; cbn; auto. apply sat_bump, I. Qed.

Lemma work_grows (w w' : Worker) : work w w' -> inv w -> grows w w'.
Proof.
  intros H I. destruct H; try (by apply bump_grows).
  all: unfold supervised, release_encoder, cleanup_result.
  all: repeat match goal with
       | |- context [match ?r with Some _ => _ | None => _ end] => destruct r
       | b : bool |- _ => destruct b
       end; unfold closed.
  all: try (apply grows_intro; unfold closed; cbn; rewrite ?H; cbn; try lia; try done; auto;
     try (by right; split; [|eexists; split; [done|cbn; lia]]); by destruct (_ =? _)).
  apply grows_intro; cbn; auto; [lia|by destruct (phase w)].
Qed.

Lemma outside_grows (w w' : Worker) : outside w w' -> inv w -> grows w w'.
Proof. intros [] I; [|by apply bump_grows|]; apply grows_intro; cbn; auto; lia. Qed.

Lemma call_grows (c : Caller) (w : Worker) : inv w -> grows w (call c w).2.
Proof.
  intros I. destruct c; cbn; try apply grows_refl.
  - destruct (registered w); apply grows_refl.
  - apply grows_intro; cbn; auto; lia.
  - destruct (is_some_and _ _); apply grows_refl.
  - by apply bump_grows.
Qed.

Lemma caller_grows (w w' : Worker) (c : Caller) : grows w w' -> caller_ok w c -> caller_ok w' c.
Proof.
  intros (R & V & K & F & _). destruct c as [| | | |r|r seen|[[]|]]; cbn; auto; try lia.
  intros (A & B & D). split; [lia|]. split; [lia|]. intros E. assert (E' : seen = version w) by lia.
  rewrite <- K by lia. auto.
Qed.

Lemma caller_step (w : Worker) (c : Caller) : inv w -> caller_ok w c -> caller_ok (call c w).2 (call c w).1.
Proof.
  intros I H. destruct c as [| | | |r|r seen|[[]|]]; cbn; auto.
  - by destruct (registered w).
  - destruct (is_some_and _ _) eqn:E; cbn; [|done]. by rewrite <- (inv_success w I).
  - pose proof (sat_bump _ (inv_requests w I)). lia.
  - cbn in H. unfold read_result. destruct (completion w) as [c|] eqn:E.
    + fold (satisfies r c). destruct (satisfies r c) eqn:S; cbn; [|rewrite E; auto].
      unfold answer. destruct (outcome c) eqn:O; cbn; [|done].
      rewrite <- (inv_success w I), E. cbn. unfold succeeded. by rewrite O.
    + cbn. by rewrite E.
  - unfold wake. destruct (negb _); cbn in *; [tauto|]. by destruct (closed w).
Qed.

Definition sys_inv (s : Sys) : Prop := inv (worker s) /\ Forall (caller_ok (worker s)) (callers s).

Lemma sys_step_inv (s s' : Sys) : step s s' -> sys_inv s -> sys_inv s'.
Proof.
  assert (M : forall w, grows (worker s) w -> Forall (caller_ok (worker s)) (callers s) ->
    Forall (caller_ok w) (callers s)).
  { intros w G F. eapply Forall_impl; [exact F|]. intros c. by apply caller_grows. }
  intros [w H|w H| |i c H] [I C]; unfold sys_inv; cbn.
  - split; [by eapply work_inv|]. apply M; [by apply work_grows|done].
  - split; [by eapply outside_inv|]. apply M; [by apply outside_grows|done].
  - split; [done|]. apply Forall_app. split; [done|]. by repeat constructor.
  - split; [by apply call_inv|]. apply Forall_insert; [apply M; [by apply call_grows|done]|].
    apply caller_step; [done|]. by eapply Forall_lookup_1.
Qed.

Lemma sys_reachable_inv (s : Sys) : reachable s -> sys_inv s.
Proof.
  induction 1 as [g E|]; [|by eapply sys_step_inv]. split; [by apply start_inv|constructor].
Qed.

(** The process has exited, its encoder permit is back, its generation is retired
    with no response or inspection left, and its cache is removed. *)
Definition gone (w : Worker) : Prop :=
  alive w = false /\ encoder w = false /\ retired (generation w) = true /\ tracker (generation w) = ∅ /\
  cache w = false.

(** C27. Whatever happens concurrently, a call of [stop] that returns success for a
    worker it found returns only when the process has exited, the encoder permit
    is released, the generation is retired and drained and the cache is removed,
    and this stays so. *)
Theorem stopped_means_gone (s s' : Sys) (i : nat) :
  reachable s -> callers s !! i = Some (Returned (Ok true)) -> rtc step s s' -> gone (worker s').
Proof.
  intros H E T. pose proof (sys_reachable_inv s H) as [I C].
  pose proof (Forall_lookup_1 _ _ _ _ C E) as F. cbn in F.
  assert (sys_inv s' /\ finished (phase (worker s')) = true) as [[I' _] F'].
  { clear E C. assert (V : sys_inv s) by (by apply sys_reachable_inv). clear H I.
    induction T as [|s s1 s2 T _ IH]; [done|]. apply IH; [|by eapply sys_step_inv].
    destruct V as [I _]. assert (G : grows (worker s) (worker s1)).
    { destruct T; cbn; [by apply work_grows|by apply outside_grows|apply grows_refl|by apply call_grows]. }
    by apply G. }
  assert (D : drained (phase (worker s')) = true) by (by destruct (phase (worker s'))).
  destruct (inv_drained _ I' D) as (A1 & A2 & A3). repeat split; try done.
  - apply (inv_exited _ I'). by destruct (phase (worker s')).
  - by apply (inv_cache _ I').
Qed.

(** *** Every call is answered *)

Definition waiting (c : Caller) : option Z :=
  match c with Looping r => Some r | Parked r _ => Some r | _ => None end.

(** The number of rules the task applies at most before its next report, when a
    request waits for it. *)
Definition potential (w : Worker) : nat :=
  match phase w with
  | Supervising true => 8 | Supervising false => 7 | Terminating _ => 6 | Collecting _ _ => 5
  | Unconfirmed => 6 | Terminating_again => 5 | Exited => 4 | Awaiting => 4 | Cleanup_failed => 4
  | Cleaning => 3 | Draining => 2 | Removing => 1 | Reported | Finished | Lost => 0
  end + if bumped w then 0 else 1.

Lemma report_answers (o : result unit string) (r : Z) (w : Worker) :
  r <= requests w -> answered r (report o w) = true.
Proof.
  intros R. unfold answered, satisfies. cbn. rewrite (proj2 (Z.leb_le _ _)) by done. by rewrite !orb_true_r.
Qed.

Lemma answered_phase (r : Z) (p : Phase) (w : Worker) :
  closed w = false -> answered r w = true -> answered r (with_phase p w) = true.
Proof. unfold answered. intros ->. cbn. intros ->. by rewrite orb_true_r. Qed.

Lemma work_potential (w w' : Worker) (r : Z) :
  work w w' -> inv w -> 0 < r <= requests w -> answered r w = false ->
  answered r w' = true \/ (potential w' < potential w)%nat.
Proof.
  intros H I R A.
  assert (RA : forall o p w1, closed w1 = false -> requests w1 = requests w ->
    answered r (with_phase p (report o w1)) = true).
  { intros o p w1 N E. apply answered_phase; [done|]. apply report_answers. lia. }
  destruct H; try (right; unfold potential; cbn; rewrite H; try destruct o; destruct (bumped w); lia).
  - right. destruct terminated; unfold potential; cbn; rewrite H; lia.
  - unfold supervised. destruct r0; [right; unfold potential; cbn; rewrite H; lia|].
    left. apply RA; [|done]. unfold closed. cbn. by rewrite H.
  - left. apply report_answers. lia.
  - destruct terminated; [right; unfold potential; cbn; rewrite H; lia|]. left. apply RA; [|done].
    unfold closed. by rewrite H.
  - right. unfold release_encoder, potential. rewrite H. destruct poisoned; cbn;
      rewrite (proj2 (Z.eqb_neq _ _)) by lia; lia.
  - left. unfold cleanup_result. apply RA; [|done]. unfold closed. by rewrite H.
  - left. destruct removed; unfold cleanup_result, cleanup_failed; apply RA; try done; unfold closed;
      change (phase (without_cache w)) with (phase w); by rewrite H.
  - pose proof (inv_success w I) as S. rewrite H in S. cbn in S. unfold answered, satisfies in A.
    destruct (completion w) as [c|]; [|done]. cbn in *. rewrite S, orb_true_r in A. done.
  - left. done.
Qed.

Definition progress (w : Worker) : Prop := exists w', work w w' /\ phase w' <> Lost.

Lemma work_progress (w : Worker) (r : Z) :
  inv w -> 0 < r <= requests w -> answered r w = false ->
  progress w \/ phase w = Draining /\ tracker (generation w) <> ∅.
Proof.
  intros I R A. assert (N : closed w = false) by (unfold answered in A; by destruct (closed w)).
  assert (U : after_report (phase w) = true -> unseen w = true).
  { intros P. destruct (inv_reported w I P) as (c & E & Q). destruct (unseen w); [done|].
    unfold answered, satisfies in A. rewrite E, N in A. cbn in A.
    rewrite (Q eq_refl), (proj2 (Z.leb_le _ _)) in A by lia. by rewrite orb_true_r in A. }
  assert (Go : forall w1, work w w1 -> phase w1 <> Lost -> progress w \/ phase w = Draining /\ tracker (generation w) <> ∅)
    by (intros w1 H1 H2; left; by exists w1).
  destruct (phase w) as [o|n|o c| | | | | | | | | | |] eqn:P.
  - assert (Q : 0 < requests w) by lia. by apply (Go _ (w_cancelled w o false P Q)).
  - by apply (Go _ (w_terminated w n true P)).
  - apply (Go _ (w_collected w o c true Recovery.no_hints P)). by destruct o.
  - apply (Go _ (w_still_there w P)). cbn. congruence.
  - by apply (Go _ (w_retried w true P)).
  - apply (Go _ (w_release w false P)). cbn. by destruct (_ =? _).
  - destruct (unseen w) eqn:E; [by apply (Go _ (w_awaited w P E))|].
    pose proof (inv_awaiting w I P E). lia.
  - by apply (Go _ (w_retire w P)).
  - destruct (drain (generation w)) as [[[]|e]|] eqn:D.
    + by apply (Go _ (w_drained w P D)).
    + by apply (Go _ (w_not_drained w e P D)).
    + right. split; [done|]. unfold drain in D. rewrite (inv_tracker w I), (inv_draining w I P) in D.
      cbn in D. by case_bool_decide.
  - by apply (Go _ (w_removed w true P)).
  - by apply (Go _ (w_again w P (U eq_refl))).
  - by apply (Go _ (w_finished w P)).
  - unfold closed in N. by rewrite P in N.
  - unfold closed in N. by rewrite P in N.
Qed.

(** Executions, with the number of rules the task applies. *)
Inductive runs : nat -> Sys -> Sys -> Prop :=
| runs_done s : runs 0 s s
| runs_work n s w s' : work (worker s) w -> runs n (mk_sys w (callers s)) s' -> runs (S n) s s'
| runs_other n s s1 s' : step s s1 -> runs n s1 s' -> runs n s s'.

Lemma step_grows (s s' : Sys) : step s s' -> sys_inv s -> grows (worker s) (worker s').
Proof.
  intros T [I _]. destruct T; cbn; [by apply work_grows|by apply outside_grows|apply grows_refl|by apply call_grows].
Qed.

Lemma step_potential (s s' : Sys) (r : Z) :
  step s s' -> sys_inv s -> 0 < r <= requests (worker s) ->
  answered r (worker s) = true \/ answered r (worker s') = true \/
  (potential (worker s') <= potential (worker s))%nat.
Proof.
  intros T [I _] R. destruct (answered r (worker s)) eqn:A; [by left|]. right. destruct T as [w H|w H| |i c H]; cbn.
  - destruct (work_potential _ _ r H I R A); [by left|right; lia].
  - right. by destruct H.
  - by right.
  - right. destruct c; cbn; try done; [by destruct (registered _)|by destruct (is_some_and _ _)].
Qed.

Lemma runs_answered (n : nat) (s s' : Sys) (r : Z) :
  runs n s s' -> sys_inv s -> 0 < r <= requests (worker s) ->
  answered r (worker s) = true \/ (potential (worker s) < n)%nat -> answered r (worker s') = true.
Proof.
  induction 1 as [s|n s w s' W _ IH|n s s1 s' T _ IH]; intros V R A.
  - destruct A; [done|lia].
  - pose proof (step_grows _ _ (s_work _ _ W) V) as (G1 & _ & _ & _ & G2). cbn in *.
    apply IH; [by eapply sys_step_inv, V; apply s_work|cbn; lia|]. cbn.
    destruct (answered r (worker s)) eqn:E; [left; apply G2; [lia|done]|].
    destruct A as [|A]; [done|]. destruct (work_potential _ _ r W (proj1 V) R E); [by left|right; lia].
  - pose proof (step_grows _ _ T V) as (G1 & _ & _ & _ & G2).
    apply IH; [by eapply sys_step_inv|lia|]. destruct A as [A|A]; [left; apply G2; [lia|done]|].
    destruct (step_potential _ _ r T V R) as [E|[E|E]]; [left; apply G2; [lia|done]|by left|right; lia].
Qed.

(** A caller that runs alone. *)
Fixpoint turns (n : nat) (c : Caller) (w : Worker) : Caller :=
  match n with O => c | S n => turns n (call c w).1 w end.

Lemma answered_returns (c : Caller) (r : Z) (w : Worker) :
  caller_ok w c -> waiting c = Some r -> answered r w = true -> exists res, turns 3 c w = Returned res.
Proof.
  unfold answered. intros K W A.
  assert (Q : forall n, exists res, turns (S (S n)) (Looping r) w = Returned res).
  { assert (S : forall n res, turns n (Returned res) w = Returned res) by (induction n; auto).
    intros n. cbn. unfold read_result. destruct (completion w) as [d|]; cbn in A.
    - fold (satisfies r d). destruct (satisfies r d); [cbn; eauto|]. rewrite orb_false_r in A.
      cbn. unfold wake. rewrite Nat.eqb_refl, A. cbn. eauto.
    - rewrite orb_false_r in A. cbn. unfold wake. rewrite Nat.eqb_refl, A. cbn. eauto. }
  destruct c as [| | | |q|q seen|]; try done; injection W as ->; [apply Q|].
  change (turns 3 (Parked r seen) w) with (turns 2 (wake r seen w) w). unfold wake.
  destruct (Nat.eqb_spec (version w) seen) as [E|]; cbn [negb]; [|apply Q].
  destruct K as (_ & _ & K). rewrite K, orb_false_r in A by done. rewrite A. cbn. eauto.
Qed.

(** C28. A call of [stop] that waits is answered: while it is not, the task can go
    on (unless a response or an inspection of the generation has not ended), and
    whatever is interleaved, its next ten rules answer it; once it is answered, the
    call returns within three looks.  No request to stop is lost, whatever the task
    was doing when it came. *)
Theorem stop_is_answered (s : Sys) (i : nat) (c : Caller) (r : Z) :
  reachable s -> callers s !! i = Some c -> waiting c = Some r ->
  (answered r (worker s) = true \/ progress (worker s) \/
   phase (worker s) = Draining /\ tracker (generation (worker s)) <> ∅) /\
  (forall n s', runs n s s' -> (9 < n)%nat -> answered r (worker s') = true) /\
  (answered r (worker s) = true -> exists res, turns 3 c (worker s) = Returned res).
Proof.
  intros H E W. pose proof (sys_reachable_inv s H) as V. pose proof (Forall_lookup_1 _ _ _ _ (proj2 V) E) as K.
  assert (R : 0 < r <= requests (worker s)) by (destruct c; try done; injection W as ->; cbn in K; tauto).
  split; [|split; [|by apply answered_returns]].
  - destruct (answered r (worker s)) eqn:A; [by left|]. right. apply (work_progress _ r); [apply V|done..].
  - intros n s' X L. eapply runs_answered; [exact X|done..|]. right.
    assert (potential (worker s) <= 9)%nat; [|lia]. unfold potential.
    destruct (phase (worker s)) as [[]| | | | | | | | | | | | |], (bumped (worker s)); lia.
Qed.

(** *** Failures are fresh *)

Definition asked (r : Z) (v : nat) (w : Worker) (c : Caller) : Prop :=
  match c with
  | Looping q | Parked q _ => q = r
  | Returned (Err e) => e = lost \/ (v < version w)%nat
  | Returned (Ok b) => b = true
  | _ => False
  end /\
  (v <= version w)%nat /\ (version w = v -> is_some_and (completion w) (satisfies r) = true ->
    is_some_and (completion w) succeeded = true).

Lemma asked_step (r : Z) (v : nat) (s s' : Sys) (i : nat) (c : Caller) :
  step s s' -> sys_inv s -> callers s !! i = Some c -> asked r v (worker s) c ->
  exists c', callers s' !! i = Some c' /\ asked r v (worker s') c'.
Proof.
  intros T V E (A & L & F). pose proof (step_grows _ _ T V) as (_ & G1 & G2 & _ & _).
  assert (L' : (v <= version (worker s'))%nat) by lia.
  assert (F' : version (worker s') = v -> is_some_and (completion (worker s')) (satisfies r) = true ->
    is_some_and (completion (worker s')) succeeded = true).
  { intros X. assert (X' : version (worker s) = version (worker s')) by lia.
    rewrite <- (G2 X'). apply F. lia. }
  assert (A' : asked r v (worker s') c).
  { split; [|done]. destruct c as [| | | | | |[|]]; try done. destruct A; [by left|right; lia]. }
  destruct T as [w H|w H| |j d D]; cbn in *; try (by exists c).
  - exists c. split; [|done]. by apply lookup_app_l_Some.
  - destruct (decide (i = j)) as [<-|N]; [|by exists c; rewrite list_lookup_insert_ne].
    rewrite E in D. injection D as <-. eexists. split; [by apply list_lookup_insert_eq, lookup_lt_Some in E || (apply list_lookup_insert_eq; by eapply lookup_lt_Some)|].
    split; [|done]. destruct c as [| | | |q|q seen|res]; cbn in *; try done.
    + subst q. unfold read_result. destruct (completion (worker s)) as [d|] eqn:C; [|done].
      fold (satisfies r d). destruct (satisfies r d) eqn:S; [|done]. unfold answer.
      destruct (outcome d) eqn:O; [done|]. right. destruct (decide (version (worker s) = v)) as [X|]; [|lia].
      cbn in F. specialize (F X S). unfold succeeded in F. by rewrite O in F.
    + subst q. unfold wake. destruct (negb _); [done|]. destruct (closed _); [by left|done].
Qed.

(** A call of [stop] that fails was not answered with an old failure: unless the
    task of the worker was lost, the report it returns was made after the call had
    asked for the worker to stop. *)
Theorem failed_stop_is_fresh (s s1 s' : Sys) (i : nat) (e : PlaybackError) :
  reachable s -> requests (worker s) < u64_max -> callers s !! i = Some Bumping ->
  s1 = mk_sys (call Bumping (worker s)).2 (<[i := (call Bumping (worker s)).1]> (callers s)) ->
  rtc step s1 s' -> callers s' !! i = Some (Returned (Err e)) ->
  e = lost \/ (version (worker s) < version (worker s'))%nat.
Proof.
  intros H B E E1 T R. pose proof (sys_reachable_inv s H) as V.
  assert (V1 : sys_inv s1) by (rewrite E1; by eapply sys_step_inv, V; apply s_caller).
  assert (A1 : exists c, callers s1 !! i = Some c /\ asked (requests (worker s) + 1) (version (worker s)) (worker s1) c).
  { rewrite E1. cbn. eexists. split; [apply list_lookup_insert_eq; by eapply lookup_lt_Some|].
    pose proof (inv_requests _ (proj1 V)). split; [unfold sat_add64; lia|]. cbn. split; [done|]. intros _.
    destruct (completion (worker s)) as [c|] eqn:C; [|done]. cbn. unfold satisfies.
    pose proof (inv_request _ (proj1 V) c C). rewrite (proj2 (Z.leb_gt _ _)) by lia. by rewrite orb_false_r. }
  clear E1 E H B. revert A1. induction T as [|s1 s2 s3 T _ IH]; intros (c & C & A).
  - rewrite R in C. injection C as <-. by destruct A.
  - apply IH; [done|by eapply sys_step_inv|]. by eapply asked_step.
Qed.

(** *** A worker that is stopped *)

Definition caller_turn (i : nat) (s : Sys) : Sys :=
  match callers s !! i with
  | Some c => mk_sys (call c (worker s)).2 (<[i := (call c (worker s)).1]> (callers s))
  | None => s
  end.

Lemma caller_turn_step (i : nat) (s : Sys) : reachable s -> reachable (caller_turn i s).
Proof.
  intros H. unfold caller_turn. destruct (callers s !! i) eqn:E; [|done].
  eapply reach_step; [done|]. by apply s_caller.
Qed.

Definition sample_start : Sys := mk_sys (start (create true)) [].
Definition sample_bumping : Sys := caller_turn 0 (caller_turn 0 (caller_turn 0 (mk_sys (start (create true)) [Called]))).
Definition sample_asked : Sys := caller_turn 0 sample_bumping.
Definition on_worker (f : Worker -> Worker) (s : Sys) : Sys := mk_sys (f (worker s)) (callers s).

(** The task terminates the process, then cleans up, or fails to. *)
Definition sample_removing : Sys :=
  on_worker (with_phase Removing)
    (on_worker (fun w => with_phase Draining (with_generation (mark_retired (generation w)) w))
      (on_worker (release_encoder false)
        (on_worker (supervised (Some Readiness.Cancelled) None)
          (on_worker (fun w => with_alive false (with_phase (Collecting (Some Readiness.Cancelled) false) w))
            (on_worker (fun w => with_unseen (unseen w && negb false) (with_phase (Terminating Readiness.Cancelled) w))
              sample_asked))))).
Definition sample_end (removed : bool) : Sys :=
  caller_turn 0 (on_worker (cleanup_result (if removed then Ok tt else cleanup_failed)) sample_removing).

Lemma sample_bumping_reachable : reachable sample_bumping.
Proof.
  do 3 apply caller_turn_step. eapply reach_step; [by apply (reach_start (create true))|].
  exact (s_call sample_start).
Qed.

Lemma caller_turn_rtc (i : nat) (s : Sys) : rtc step s (caller_turn i s).
Proof.
  unfold caller_turn. destruct (callers s !! i) eqn:E; [|done]. apply rtc_once. by apply s_caller.
Qed.

Lemma work_rtc (f : Worker -> Worker) (s : Sys) : work (worker s) (f (worker s)) -> rtc step s (on_worker f s).
Proof. intros H. apply rtc_once. by apply s_work. Qed.

Lemma sample_steps (removed : bool) : rtc step sample_asked (sample_end removed).
Proof.
  unfold sample_end. etrans; [|apply caller_turn_rtc]. etrans; [|apply work_rtc; by apply (w_removed _ removed)].
  unfold sample_removing.
  etrans; [|apply work_rtc; by apply w_drained]. etrans; [|apply work_rtc; by apply w_retire].
  etrans; [|apply work_rtc; by apply (w_release _ false)].
  etrans; [|apply work_rtc; by apply (w_collected _ (Some Readiness.Cancelled) false true Recovery.no_hints)].
  etrans; [|apply work_rtc; by apply (w_terminated _ Readiness.Cancelled true)].
  apply work_rtc. by apply (w_cancelled _ true false).
Qed.

Lemma stopped_means_gone_witness :
  exists s, reachable s /\ callers s !! 0%nat = Some (Returned (Ok true)) /\ gone (worker s).
Proof.
  assert (H : reachable (sample_end true)).
  { assert (G : forall s s', rtc step s s' -> reachable s -> reachable s')
      by (induction 1; intros; eauto using reach_step).
    eapply G; [apply sample_steps|]. apply caller_turn_step, sample_bumping_reachable. }
  exists (sample_end true). split; [exact H|]. split; [reflexivity|].
  apply (stopped_means_gone (sample_end true) (sample_end true) 0 H); [reflexivity|apply rtc_refl].
Defined.

Lemma stop_is_answered_witness :
  waiting (Looping 1) = Some 1 /\
  (answered 1 (worker sample_asked) = true \/ progress (worker sample_asked) \/
   phase (worker sample_asked) = Draining /\ tracker (generation (worker sample_asked)) <> ∅) /\
  (forall n s', runs n sample_asked s' -> (9 < n)%nat -> answered 1 (worker s') = true) /\
  (answered 1 (worker sample_asked) = true -> exists res, turns 3 (Looping 1) (worker sample_asked) = Returned res).
Proof.
  split; [reflexivity|]. apply (stop_is_answered sample_asked 0 (Looping 1) 1); [|reflexivity|reflexivity].
  apply caller_turn_step, sample_bumping_reachable.
Defined.

Example failed_stop_is_fresh_example :
  let e := Readiness.FfmpegFailed "transcode cache cleanup failed" in
  callers (sample_end false) !! 0%nat = Some (Returned (Err e)) /\
  (e = lost \/ (version (worker sample_bumping) < version (worker (sample_end false)))%nat).
Proof.
  split; [reflexivity|].
  apply (failed_stop_is_fresh sample_bumping sample_asked (sample_end false) 0);
    [apply sample_bumping_reachable|reflexivity|reflexivity|reflexivity|apply sample_steps|reflexivity].
Defined.

End Workers.
