(* ===== verification/Scheduler.v ===== *)
(** * Scheduled tasks

    Models server/src/services/scheduler.rs: the claim of a task row, its runs,
    the cancellation tokens and the updates when a run ends, as interleaved steps,
    one per database statement or map operation.  Every statement selects by the
    identifier of the task, so the model follows one task; its executions, started
    by the tick or by an administrator, run concurrently.

    Instants are in milliseconds.  The cron parser (crate croner) is a parameter.
    Durations, statistics and log output are left out; what an executor does is an
    outcome chosen by the environment. *)

From stdpp Require Import gmap.
From S2P Require Import Prelude.

Module Scheduler.

Inductive TaskState : Type := Idle | Running.
Inductive RunResult : Type := R_success | R_failure | R_timeout | R_cancelled.
Inductive RunState : Type := Run_running | Run_completed | Run_cancelled | Run_failed.

#[global] Instance task_state_eq : EqDecision TaskState.
Proof. solve_decision. Defined.
#[global] Instance run_state_eq : EqDecision RunState.
Proof. solve_decision. Defined.

Record ScheduledTaskRow := mk_row {
  cron_expression : option string; interval_seconds : option Z; is_enabled : bool;
  max_retries : Z; retry_delay_seconds : Z; state : TaskState; consecutive_failures : Z;
  last_run_result : option RunResult; last_error : option string; next_run_at : option Z }.

Record ScheduledTaskRunRow := mk_run {
  r_state : RunState; result : option RunResult; error_message : option string }.

(** [TaskRunOutcome], and the error of a task that panicked. *)
Inductive TaskRunOutcome : Type :=
| Success
| Failed (message : string)
| Cancelled
| Timeout (message : string)
| Panicked (message : string).

(** An [i32] addition wraps in a release build. *)
Definition wrap_i32 (n : Z) : Z := (n + 2147483648) mod 4294967296 - 2147483648.

(** [task_timeout_duration], in seconds. *)
Definition task_timeout_duration (timeout_seconds : Z) : Z := Z.max timeout_seconds 1.

(** ** Statements *)

(** The [WHERE] clause of [fetch_due_tasks]; a [NULL] is not due. *)
Definition due (now : Z) (t : ScheduledTaskRow) : bool :=
  is_enabled t && bool_decide (state t <> Running) &&
  match next_run_at t with Some n => n <=? now | None => false end.

(** [claim_task]: [None] when no row is affected. *)
Definition claim_task (t : ScheduledTaskRow) : option ScheduledTaskRow :=
  if decide (state t = Running) then None
  else Some (mk_row (cron_expression t) (interval_seconds t) (is_enabled t) (max_retries t)
               (retry_delay_seconds t) Running (consecutive_failures t) (last_run_result t) (last_error t)
               (next_run_at t)).

(** The guard [AND state = 'running']. *)
Definition when_running (t t' : ScheduledTaskRow) : ScheduledTaskRow :=
  if decide (state t = Running) then t' else t.

Definition reset_claim_after_start_failure (t : ScheduledTaskRow) : ScheduledTaskRow :=
  when_running t
    (mk_row (cron_expression t) (interval_seconds t) (is_enabled t) (max_retries t)
       (retry_delay_seconds t) Idle (consecutive_failures t) (last_run_result t)
       (Some "Failed to create scheduled task run record"%string) (next_run_at t)).

Definition create_run : ScheduledTaskRunRow := mk_run Run_running None None.

Definition complete_run (r : RunResult) (message : option string) (run : ScheduledTaskRunRow)
    : ScheduledTaskRunRow :=
  if decide (r_state run = Run_running) then
    mk_run (match r with R_success => Run_completed | R_cancelled => Run_cancelled | _ => Run_failed end)
      (Some r) message
  else run.

Definition cancel_message : option string := Some "Cancelled by administrator"%string.

Definition on_task_cancelled (t : ScheduledTaskRow) : ScheduledTaskRow :=
  when_running t
    (mk_row (cron_expression t) (interval_seconds t) (is_enabled t) (max_retries t)
       (retry_delay_seconds t) Idle (consecutive_failures t) (Some R_cancelled) cancel_message
       (next_run_at t)).

(** The two statements of [cancel_task]; the one on the task is not guarded. *)
Definition cancel_runs (run : ScheduledTaskRunRow) : ScheduledTaskRunRow :=
  if decide (r_state run = Run_running) then mk_run Run_cancelled (Some R_cancelled) cancel_message
  else run.

Definition cancel_row (t : ScheduledTaskRow) : ScheduledTaskRow :=
  mk_row (cron_expression t) (interval_seconds t) (is_enabled t) (max_retries t)
    (retry_delay_seconds t) Idle (consecutive_failures t) (Some R_cancelled) cancel_message (next_run_at t).

Abbreviation RunId := positive.
Abbreviation ExecId := positive.

Section Cron.

(** [Cron::from_str(expr)] and [find_next_occurrence(from, false)]. *)
Variable find_next_occurrence : string -> Z -> option Z.

Definition compute_next_run (cron : option string) (interval : option Z) (from : Z) : Z :=
  match match cron with Some expr => find_next_occurrence expr from | None => None end with
  | Some next => next
  | None => match interval with
            | Some secs => from + 1000 * secs
            | None => from + 3600000
            end
  end.

(** [found]: whether the row could be read for its schedule. *)
Definition on_task_success (found : bool) (now : Z) (t : ScheduledTaskRow) : ScheduledTaskRow :=
  let next_run := if found then compute_next_run (cron_expression t) (interval_seconds t) now
                  else now + 3600000 in
  when_running t
    (mk_row (cron_expression t) (interval_seconds t) (is_enabled t) (max_retries t)
       (retry_delay_seconds t) Idle 0 (Some R_success) None (Some next_run)).

(** [max_retries], the delay and the failures so far are those of the row the
    execution started from; [u64 as i64] of the delay is the delay. *)
Definition on_task_failure (kind : RunResult) (message : string) (info : ScheduledTaskRow) (now : Z)
    (t : ScheduledTaskRow) : ScheduledTaskRow :=
  let new_failures := wrap_i32 (consecutive_failures info + 1) in
  let should_disable := max_retries info <=? new_failures in
  when_running t
    (mk_row (cron_expression t) (interval_seconds t) (if should_disable then false else is_enabled t)
       (max_retries t) (retry_delay_seconds t) Idle new_failures (Some kind) (Some message)
       (if should_disable then None else Some (now + 1000 * retry_delay_seconds info))).

(** The update of the task row that follows the outcome of its executor. *)
Definition on_outcome (o : TaskRunOutcome) (found : bool) (info : ScheduledTaskRow) (now : Z)
    (t : ScheduledTaskRow) : ScheduledTaskRow :=
  match o with
  | Success => on_task_success found now t
  | Failed message => on_task_failure R_failure message info now t
  | Cancelled => on_task_cancelled t
  | Timeout message => on_task_failure R_timeout message info now t
  | Panicked message => on_task_failure R_failure message info now t
  end.

Definition result_of (o : TaskRunOutcome) : RunResult * option string :=
  match o with
  | Success => (R_success, None)
  | Failed message => (R_failure, Some message)
  | Cancelled => (R_cancelled, cancel_message)
  | Timeout message => (R_timeout, Some message)
  | Panicked message => (R_failure, Some message)
  end.

(** ** Executions *)

(** Where [execute_task] and the task it spawns are: about to claim, to create the
    run, to insert the token, running the executor, about to update the task row,
    to complete the run, to remove the token. *)
Inductive Phase : Type :=
| Fetched
| Claimed
| Created (run : RunId)
| Started (run : RunId)
| Reported (run : RunId) (o : TaskRunOutcome)
| Updated (run : RunId) (o : TaskRunOutcome)
| Recorded (run : RunId).

Record Execution := mk_execution { snapshot : ScheduledTaskRow; phase : Phase }.

(** [active_tasks]: the run whose token is in the map; [tokens]: the runs whose
    token is cancelled; [to_cancel_runs], [to_cancel_row]: calls of [cancel_task]
    that have still to update the runs, or only the row. *)
Record Sys := mk_sys {
  row : ScheduledTaskRow; runs : gmap RunId ScheduledTaskRunRow; active_tasks : option RunId;
  tokens : gset RunId; executions : gmap ExecId Execution;
  to_cancel_runs : nat; to_cancel_row : nat }.

Definition set_execution (e : ExecId) (x : Execution) (p : Phase) (s : Sys) : Sys :=
  mk_sys (row s) (runs s) (active_tasks s) (tokens s) (<[e := mk_execution (snapshot x) p]> (executions s))
    (to_cancel_runs s) (to_cancel_row s).
Definition end_execution (e : ExecId) (s : Sys) : Sys :=
  mk_sys (row s) (runs s) (active_tasks s) (tokens s) (delete e (executions s))
    (to_cancel_runs s) (to_cancel_row s).
Definition with_row (t : ScheduledTaskRow) (s : Sys) : Sys :=
  mk_sys t (runs s) (active_tasks s) (tokens s) (executions s) (to_cancel_runs s) (to_cancel_row s).
Definition with_runs (r : gmap RunId ScheduledTaskRunRow) (s : Sys) : Sys :=
  mk_sys (row s) r (active_tasks s) (tokens s) (executions s) (to_cancel_runs s) (to_cancel_row s).
Definition with_active (a : option RunId) (s : Sys) : Sys :=
  mk_sys (row s) (runs s) a (tokens s) (executions s) (to_cancel_runs s) (to_cancel_row s).

(** The first half of [cancel_task] on a running task: its token is taken out of
    the map and cancelled. *)
Definition cancel_token (s : Sys) : Sys :=
  mk_sys (row s) (runs s) None
    (match active_tasks s with Some run => {[run]} ∪ tokens s | None => tokens s end)
    (executions s) (S (to_cancel_runs s)) (to_cancel_row s).

(** [ok]: whether a statement succeeds.  [cancels]: whether administrators cancel. *)
Inductive step (cancels : bool) (s : Sys) : Sys -> Prop :=
| step_tick e now :
    due now (row s) = true -> executions s !! e = None ->
    step cancels s (set_execution e (mk_execution (row s) Fetched) Fetched s)
| step_trigger e :
    state (row s) <> Running -> executions s !! e = None ->
    step cancels s (set_execution e (mk_execution (row s) Fetched) Fetched s)
| step_skip e x :
    executions s !! e = Some x -> phase x = Fetched -> step cancels s (end_execution e s)
| step_claim e x t :
    executions s !! e = Some x -> phase x = Fetched -> claim_task (row s) = Some t ->
    step cancels s (set_execution e x Claimed (with_row t s))
| step_create e x run :
    executions s !! e = Some x -> phase x = Claimed -> runs s !! run = None ->
    step cancels s (set_execution e x (Created run) (with_runs (<[run := create_run]> (runs s)) s))
| step_create_fails e x ok :
    executions s !! e = Some x -> phase x = Claimed ->
    step cancels s (end_execution e
      (with_row (if ok : bool then reset_claim_after_start_failure (row s) else row s) s))
| step_start e x run :
    executions s !! e = Some x -> phase x = Created run ->
    step cancels s (set_execution e x (Started run) (with_active (Some run) s))
| step_report e x run o :
    executions s !! e = Some x -> phase x = Started run -> (o = Cancelled -> run ∈ tokens s) ->
    step cancels s (set_execution e x (Reported run o) s)
| step_update e x run o found ok now :
    executions s !! e = Some x -> phase x = Reported run o ->
    step cancels s (set_execution e x (Updated run o)
      (with_row (if ok : bool then on_outcome o found (snapshot x) now (row s) else row s) s))
| step_record e x run o ok :
    executions s !! e = Some x -> phase x = Updated run o ->
    step cancels s (set_execution e x (Recorded run)
      (with_runs (if ok : bool then alter (complete_run (result_of o).1 (result_of o).2) run (runs s)
                  else runs s) s))
| step_remove e x run :
    executions s !! e = Some x -> phase x = Recorded run ->
    step cancels s (end_execution e (with_active None s))
| step_cancel_token :
    cancels = true -> state (row s) = Running -> step cancels s (cancel_token s)
| step_cancel_runs n :
    to_cancel_runs s = S n ->
    step cancels s (mk_sys (row s) (cancel_runs <$> runs s) (active_tasks s) (tokens s) (executions s) n
      (S (to_cancel_row s)))
| step_cancel_row n :
    to_cancel_row s = S n ->
    step cancels s (mk_sys (cancel_row (row s)) (runs s) (active_tasks s) (tokens s) (executions s)
      (to_cancel_runs s) n).

Definition start (t : ScheduledTaskRow) : Sys := mk_sys t ∅ None ∅ ∅ 0 0.

Inductive reachable (cancels : bool) (t : ScheduledTaskRow) : Sys -> Prop :=
| reach_start : reachable cancels t (start t)
| reach_step s s' : reachable cancels t s -> step cancels s s' -> reachable cancels t s'.

(** From the claim until the row is updated an execution owns the task. *)
Definition owns (p : Phase) : bool :=
  match p with Claimed | Created _ | Started _ | Reported _ _ => true | _ => false end.

(** ** One run at a time *)

Definition owner (s : Sys) (e : ExecId) : Prop :=
  exists x, executions s !! e = Some x /\ owns (phase x) = true.

Lemma owner_set (e e' : ExecId) (x : Execution) (p : Phase) (s : Sys) :
  owner (set_execution e x p s) e' <-> (e' = e /\ owns p = true) \/ (e' <> e /\ owner s e').
Proof.
  unfold owner, set_execution. cbn. destruct (decide (e' = e)) as [->|N].
  - rewrite lookup_insert_eq. split; [intros (y & [= <-] & H); auto|].
    intros [[_ H]|[N _]]; [|done]. eexists. by split.
  - rewrite lookup_insert_ne by done. split; [auto|]. by intros [[? _]|[_ ?]].
Qed.

Lemma owner_end (e e' : ExecId) (s : Sys) : owner (end_execution e s) e' <-> e' <> e /\ owner s e'.
Proof.
  unfold owner, end_execution. cbn. destruct (decide (e' = e)) as [->|N].
  - rewrite lookup_delete_eq. split; [by intros (y & ? & _)|by intros [? _]].
  - rewrite lookup_delete_ne by done. split; [auto|by intros [_ ?]].
Qed.

(** The exclusion: one owner at most, and only of a task that is marked running. *)
Definition exclusive (s : Sys) : Prop :=
  (forall e1 e2, owner s e1 -> owner s e2 -> e1 = e2) /\
  (forall e, owner s e -> state (row s) = Running).

(** An execution moves on without becoming an owner. *)
Lemma exclusive_set (e : ExecId) (x : Execution) (p : Phase) (s : Sys) :
  (owns p = true -> owner s e) -> exclusive s -> exclusive (set_execution e x p s).
Proof.
  intros O [U R]. split.
  - intros e1 e2 [[-> H1]|[N1 H1]]%owner_set [[-> H2]|[N2 H2]]%owner_set; auto.
  - intros e' [[-> H]|[_ H]]%owner_set; [apply (R e); auto|by apply (R e')].
Qed.

(** The owner gives the task up. *)
Lemma exclusive_release (e : ExecId) (s s' : Sys) :
  (forall e', owner s' e' -> e' <> e /\ owner s e') -> owner s e -> exclusive s -> exclusive s'.
Proof.
  intros H O [U _]. assert (K : forall e', ~ owner s' e').
  { intros e' [N O']%H. by apply N, U. }
  split; [intros e1 e2 K1; by destruct (K e1)|intros e' K1; by destruct (K e')].
Qed.

Lemma exclusive_end (e : ExecId) (s : Sys) : exclusive s -> exclusive (end_execution e s).
Proof.
  intros [U R]. split; [intros e1 e2 [_ H1]%owner_end [_ H2]%owner_end; auto|].
  intros e' [_ H]%owner_end. by apply (R e').
Qed.

Lemma claim_state (t t' : ScheduledTaskRow) :
  claim_task t = Some t' -> state t <> Running /\ state t' = Running.
Proof. unfold claim_task. destruct (decide _); [done|]. by intros [= <-]. Qed.

Lemma owner_of (s : Sys) (e : ExecId) (x : Execution) (p : Phase) :
  executions s !! e = Some x -> phase x = p -> owns p = true -> owner s e.
Proof. intros E <- H. by exists x. Qed.

Lemma step_exclusive (s s' : Sys) :
  to_cancel_runs s = 0%nat -> to_cancel_row s = 0%nat -> exclusive s -> step false s s' ->
  exclusive s' /\ to_cancel_runs s' = 0%nat /\ to_cancel_row s' = 0%nat.
Proof.
  intros Z1 Z2 X H.
  destruct H as [e now D N|e D N|e x E P|e x t E P C|e x run E P N|e x ok E P|e x run E P|e x run o E P T|
    e x run o found ok now E P|e x run o ok E P|e x run E P|C|n C|n C]; try congruence;
    (split; [|by split]).
  - by apply exclusive_set.
  - by apply exclusive_set.
  - by apply exclusive_end.
  - apply claim_state in C as [C1 C2]. destruct X as [U R].
    assert (K : forall e', ~ owner s e') by (intros e' O; by apply C1, (R e')).
    split; [intros e1 e2|intros e1]; rewrite owner_set; intros [[-> _]|[_ O]]; try by destruct (K _ O).
    + rewrite owner_set. intros [[-> _]|[_ O]]; [done|by destruct (K _ O)].
    + done.
  - apply exclusive_set; [intros _; by eapply owner_of|exact X].
  - apply (exclusive_release e s); [|by eapply owner_of|done]. intros e' O. by apply owner_end in O.
  - apply exclusive_set; [intros _; by eapply owner_of|exact X].
  - apply exclusive_set; [intros _; by eapply owner_of|exact X].
  - apply (exclusive_release e s); [|by eapply owner_of|done].
    intros e' [[_ O]|O]%owner_set; [done|exact O].
  - by apply exclusive_set.
  - apply exclusive_end. exact X.
Qed.

(** C26. While no administrator cancels a task it runs once at a time, whatever
    the interleaving of ticks, triggers, database errors and outcomes: at most one
    execution holds the claim, and the task is marked running as long as it does. *)
Theorem runs_are_exclusive (t : ScheduledTaskRow) (s : Sys) (e1 e2 : ExecId) (x1 x2 : Execution) :
  reachable false t s -> executions s !! e1 = Some x1 -> executions s !! e2 = Some x2 ->
  owns (phase x1) = true -> owns (phase x2) = true -> e1 = e2 /\ state (row s) = Running.
Proof.
  intros R E1 E2 O1 O2.
  assert (X : exclusive s /\ to_cancel_runs s = 0%nat /\ to_cancel_row s = 0%nat).
  { clear E1 E2. induction R as [|s s' _ (X & Z1 & Z2) H]; [|by eapply step_exclusive].
    split; [|by split]. split; [intros a b (x & L & _)|intros a (x & L & _)];
      cbn in L; by rewrite lookup_empty in L. }
  destruct X as ([U S] & _). split; [apply U; by eexists|]. apply (S e1). by eexists.
Qed.

(** ** Records of runs *)

(** The record of a run is final: it changes once, from running, to what its
    executor reported or to cancelled by a cancellation, and never goes away. *)
Theorem run_record_is_final (cancels : bool) (t : ScheduledTaskRow) (s s' : Sys) (run : RunId)
    (r : ScheduledTaskRunRow) :
  reachable cancels t s -> step cancels s s' -> runs s !! run = Some r ->
  exists r', runs s' !! run = Some r' /\
    (r' = r \/ (r_state r = Run_running /\ r_state r' <> Run_running /\
      ((exists e x o, executions s !! e = Some x /\ phase x = Updated run o /\
          result r' = Some (result_of o).1 /\ error_message r' = (result_of o).2) \/
       (cancels = true /\ r_state r' = Run_cancelled)))).
Proof.
  intros R H L.
  assert (Z : to_cancel_runs s <> 0%nat -> cancels = true).
  { clear L H. induction R as [|s s1 _ IH H]; [done|]. destruct cancels; [done|].
    destruct H; cbn; auto; try congruence. intros _. apply IH. congruence. }
  destruct H as [e now D N|e D N|e x E P|e x u E P C|e x run' E P N|e x ok E P|e x run' E P|e x run' o E P T|
    e x run' o found ok now E P|e x run' o ok E P|e x run' E P|C|n C|n C]; try (exists r; by auto).
  - exists r. cbn. rewrite lookup_insert_ne by congruence. auto.
  - destruct ok; [|exists r; auto]. cbn. destruct (decide (run = run')) as [<-|NE].
    + rewrite lookup_alter_eq, L. eexists. split; [done|]. unfold complete_run.
      destruct (decide (r_state r = Run_running)) as [W|]; [|auto]. right. split; [done|].
      split; [by destruct o|]. left. exists e, x, o. auto.
    + rewrite lookup_alter_ne by done. exists r. auto.
  - cbn. rewrite lookup_fmap, L. cbn. eexists. split; [done|]. unfold cancel_runs.
    destruct (decide (r_state r = Run_running)) as [W|]; [|auto]. right. split; [done|]. split; [done|].
    right. split; [|done]. apply Z. congruence.
Qed.

(** ** Failures in a row *)

(** A run of the tick from claim to update; that it also waits for [next_run_at]
    only delays it. *)
Definition scheduled_run (t : ScheduledTaskRow) (x : TaskRunOutcome * Z) : ScheduledTaskRow :=
  if is_enabled t then
    match claim_task t with
    | Some c => on_outcome x.1 true t x.2 c
    | None => t
    end
  else t.

Definition history (l : list (TaskRunOutcome * Z)) (t : ScheduledTaskRow) : ScheduledTaskRow :=
  fold_left scheduled_run l t.

Definition is_failure (o : TaskRunOutcome) : bool :=
  match o with Failed _ | Timeout _ | Panicked _ => true | _ => false end.
Definition is_cancelled (o : TaskRunOutcome) : bool :=
  match o with Cancelled => true | _ => false end.

(** The outcomes that count: a cancelled run neither adds to the failures nor
    clears them. *)
Definition counted (l : list (TaskRunOutcome * Z)) : list TaskRunOutcome :=
  List.filter (fun o => negb (is_cancelled o)) l.*1.

(** [n] failures in a row. *)
Definition failed_in_a_row (n : nat) (l : list TaskRunOutcome) : Prop :=
  exists a mid b, l = a ++ mid ++ b /\ length mid = n /\ Forall (fun o => is_failure o = true) mid.

Lemma failed_short (n : nat) (l : list TaskRunOutcome) :
  (length l < n)%nat -> ~ failed_in_a_row n l.
Proof. intros H (a & mid & b & -> & L & _). rewrite !length_app in H. lia. Qed.

Lemma failed_prefix (n : nat) (a l : list TaskRunOutcome) :
  failed_in_a_row n l -> failed_in_a_row n (a ++ l).
Proof. intros (a' & mid & b & -> & H). exists (a ++ a'), mid, b. by rewrite <- app_assoc. Qed.

(** Past a success the failures before it do not matter, if they were too few. *)
Lemma failed_after_success (n : nat) (a l : list TaskRunOutcome) (x : TaskRunOutcome) :
  (length a < n)%nat -> is_failure x = false -> failed_in_a_row n (a ++ x :: l) -> failed_in_a_row n l.
Proof.
  intros A X (b & mid & c & E & L & F).
  destruct (decide (length b <= length a)%nat) as [B|B].
  - exfalso. assert (K : (a ++ x :: l) !! length a = Some x) by (by apply list_lookup_middle).
    rewrite E, lookup_app_r in K by done. rewrite lookup_app_l in K by lia.
    rewrite Forall_lookup in F. apply F in K. congruence.
  - assert (P : drop (length a + 1) (a ++ x :: l) = l).
    { rewrite drop_app_ge, Nat.add_comm, Nat.add_sub by lia. done. }
    rewrite E in P. exists (drop (length a + 1) b), mid, c. split; [|done].
    rewrite <- P. by rewrite drop_app_le by lia.
Qed.

Lemma history_disabled (l : list (TaskRunOutcome * Z)) (t : ScheduledTaskRow) :
  is_enabled t = false -> is_enabled (history l t) = false.
Proof.
  revert t. induction l as [|x l IH]; intros t H; [done|]. cbn. apply IH. unfold scheduled_run. by rewrite H.
Qed.

(** One run of an idle, enabled row. *)
Lemma scheduled_run_row (t : ScheduledTaskRow) (o : TaskRunOutcome) (now : Z) (k : nat) :
  is_enabled t = true -> state t = Idle -> consecutive_failures t = Z.of_nat k ->
  Z.of_nat k < max_retries t <= 2147483647 ->
  let t' := scheduled_run t (o, now) in
  state t' = Idle /\ max_retries t' = max_retries t /\
  is_enabled t' = negb (is_failure o && (max_retries t <=? Z.of_nat (S k))) /\
  consecutive_failures t' = Z.of_nat (if is_failure o then S k else if is_cancelled o then k else 0).
Proof.
  intros E I F M. unfold scheduled_run, claim_task. rewrite E, I. cbn [decide].
  assert (W : wrap_i32 (Z.of_nat k + 1) = Z.of_nat (S k)).
  { unfold wrap_i32. rewrite Z.mod_small by lia. lia. }
  destruct o; cbn [fst snd on_outcome is_failure is_cancelled andb negb];
    unfold on_task_success, on_task_failure, on_task_cancelled, when_running;
    cbn -[Z.leb Z.of_nat wrap_i32]; rewrite ?F, ?W, ?E; repeat split;
    by destruct (max_retries t <=? Z.of_nat (S k)).
Qed.

(** What the row counts, after failures [f] in a row. *)
Lemma history_counts (l : list (TaskRunOutcome * Z)) (t : ScheduledTaskRow) (f : list TaskRunOutcome) :
  is_enabled t = true -> state t = Idle -> consecutive_failures t = Z.of_nat (length f) ->
  Z.of_nat (length f) < max_retries t <= 2147483647 -> Forall (fun o => is_failure o = true) f ->
  is_enabled (history l t) = false <-> failed_in_a_row (Z.to_nat (max_retries t)) (f ++ counted l).
Proof.
  revert t f. induction l as [|[o now] l IH]; intros t f E I F M A.
  { cbn. split; [congruence|]. intros H. exfalso. revert H. apply failed_short. rewrite app_nil_r. lia. }
  destruct (scheduled_run_row t o now _ E I F M) as (I' & M' & E' & F').
  change (history ((o, now) :: l) t) with (history l (scheduled_run t (o, now))).
  set (t' := scheduled_run t (o, now)) in *. destruct (is_failure o) eqn:O; cbn [andb] in *.
  - assert (C : counted ((o, now) :: l) = o :: counted l) by (by destruct o).
    rewrite C. destruct (Z.leb_spec (max_retries t) (Z.of_nat (S (length f)))) as [D|D]; cbn in E'.
    + split; [intros _|intros _; by apply history_disabled].
      exists [], (f ++ [o]), (counted l). rewrite <- app_assoc, length_app, Forall_app. cbn.
      split; [done|]. split; [lia|]. auto.
    + rewrite (IH t' (f ++ [o])); try done.
      * by rewrite <- app_assoc, M'.
      * rewrite F', length_app. cbn. lia.
      * rewrite M', length_app. cbn. lia.
      * rewrite Forall_app. auto.
  - destruct (is_cancelled o) eqn:K.
    + assert (C : counted ((o, now) :: l) = counted l) by (by destruct o).
      rewrite C, <- M'. apply IH; try done. by rewrite M'.
    + assert (C : counted ((o, now) :: l) = o :: counted l) by (by destruct o).
      rewrite C, (IH t' []); try done; [|rewrite M'; cbn; lia]. rewrite M'. cbn. split.
      * intros H. apply (failed_prefix _ (f ++ [o])) in H. by rewrite <- app_assoc in H.
      * apply failed_after_success; [lia|done].
Qed.

(** A task of the schedule is disabled exactly when [max_retries] of its runs
    have failed in a row, by an error, a panic or a timeout; successes in between
    start the count again, cancelled runs do not count either way. *)
Theorem disabled_by_failures_in_a_row (l : list (TaskRunOutcome * Z)) (t : ScheduledTaskRow) :
  is_enabled t = true -> state t = Idle -> consecutive_failures t = 0 -> 0 < max_retries t <= 2147483647 ->
  is_enabled (history l t) = false <-> failed_in_a_row (Z.to_nat (max_retries t)) (counted l).
Proof. intros E I F M. by apply (history_counts l t []). Qed.

End Cron.

(** ** Concrete runs *)

Definition task : ScheduledTaskRow := mk_row None (Some 60) true 2 30 Idle 0 None None (Some 0).
Definition no_cron (expr : string) (from : Z) : option Z := None.

(** The tick starts an execution, which gets as far as its executor. *)
Definition launch (e : ExecId) (run : RunId) (s : Sys) : Sys :=
  match claim_task (row s) with
  | Some t =>
      let x := mk_execution (row s) Fetched in
      let s := set_execution e x Claimed (with_row t (set_execution e x Fetched s)) in
      let s := set_execution e x (Created run) (with_runs (<[run := create_run]> (runs s)) s) in
      set_execution e x (Started run) (with_active (Some run) s)
  | None => s
  end.

Lemma launch_reachable (cancels : bool) (t : ScheduledTaskRow) (e : ExecId) (run : RunId) (now : Z) (s : Sys) :
  reachable no_cron cancels t s -> due now (row s) = true -> executions s !! e = None ->
  runs s !! run = None -> reachable no_cron cancels t (launch e run s).
Proof.
  intros R D E N. unfold launch. destruct (claim_task (row s)) as [c|] eqn:C; [|done].
  set (x := mk_execution (row s) Fetched).
  assert (L : forall p s', executions (set_execution e x p s') !! e = Some (mk_execution (row s) p))
    by (intros; apply lookup_insert_eq).
  eapply reach_step; [|eapply (step_start _ _ _ e (mk_execution (row s) (Created run))); [apply L|done]].
  eapply reach_step; [|eapply (step_create _ _ _ e (mk_execution (row s) Claimed)); [apply L|done|exact N]].
  eapply reach_step; [|eapply (step_claim _ _ _ e x); [apply L|done|exact C]].
  eapply reach_step; [exact R|]. by eapply step_tick.
Qed.

(** The executor of an execution reports, and the row is updated. *)
Definition report (e : ExecId) (run : RunId) (o : TaskRunOutcome) (now : Z) (s : Sys) : Sys :=
  let x := mk_execution task Fetched in
  let s := set_execution e x (Reported run o) s in
  set_execution e x (Updated run o) (with_row (on_outcome no_cron o true task now (row s)) s).

Lemma report_reachable (cancels : bool) (t : ScheduledTaskRow) (e : ExecId) (run : RunId)
    (o : TaskRunOutcome) (now : Z) (s : Sys) :
  reachable no_cron cancels t s -> executions s !! e = Some (mk_execution task (Started run)) ->
  (o = Cancelled -> run ∈ tokens s) -> reachable no_cron cancels t (report e run o now s).
Proof.
  intros R E T. unfold report.
  eapply reach_step; [|eapply (step_update _ _ _ e (mk_execution task (Reported run o)) run o true true now);
    [apply lookup_insert_eq|done]].
  eapply reach_step; [exact R|]. by eapply (step_report _ _ _ e (mk_execution task (Started run))).
Qed.

(** A cancelled task is due again, so the tick may start it before the executor
    of the first run reports; that report then frees the claim of the second run,
    and a third runs beside it. *)
Definition token_cancelled : Sys := cancel_token (launch 1%positive 1%positive (start task)).
Definition runs_cancelled : Sys :=
  let s := token_cancelled in
  mk_sys (row s) (cancel_runs <$> runs s) (active_tasks s) (tokens s) (executions s) 0 1.
Definition cancelled_run : Sys :=
  let s := runs_cancelled in
  mk_sys (cancel_row (row s)) (runs s) (active_tasks s) (tokens s) (executions s) 0 0.

Definition overlapping_runs : Sys :=
  launch 3%positive 3%positive
    (report 1%positive 1%positive Cancelled 0 (launch 2%positive 2%positive cancelled_run)).

Lemma cancellation_allows_overlap :
  reachable no_cron true task overlapping_runs /\
  (phase <$> executions overlapping_runs !! 2%positive) = Some (Started 2%positive) /\
  (phase <$> executions overlapping_runs !! 3%positive) = Some (Started 3%positive) /\
  tokens overlapping_runs = {[1%positive]}.
Proof.
  split; [|by vm_compute].
  apply (launch_reachable _ _ _ _ 0); [|by vm_compute..].
  apply report_reachable; [|by vm_compute|intros _; by apply elem_of_union_l, elem_of_singleton].
  apply (launch_reachable _ _ _ _ 0); [|by vm_compute..].
  apply (reach_step _ _ _ runs_cancelled); [|exact (step_cancel_row _ _ runs_cancelled 0 eq_refl)].
  apply (reach_step _ _ _ token_cancelled); [|exact (step_cancel_runs _ _ token_cancelled 0 eq_refl)].
  eapply reach_step; [|by apply step_cancel_token].
  apply (launch_reachable _ _ _ _ 0); [apply reach_start|by vm_compute..].
Qed.

(** Without any cancellation: an execution that ends late removes the token of
    the next one, which can then not be cancelled. *)
Definition lost_token : Sys :=
  let s := report 1%positive 1%positive Success 0 (launch 1%positive 1%positive (start task)) in
  let s := launch 2%positive 2%positive s in
  let x := mk_execution task Fetched in
  let s := set_execution 1%positive x (Recorded 1%positive)
             (with_runs (alter (complete_run R_success None) 1%positive (runs s)) s) in
  end_execution 1%positive (with_active None s).

Lemma late_end_drops_the_token :
  reachable no_cron false task lost_token /\
  (phase <$> executions lost_token !! 2%positive) = Some (Started 2%positive) /\
  state (row lost_token) = Running /\ active_tasks lost_token = None.
Proof.
  split; [|by vm_compute].
  eapply reach_step; [|eapply (step_remove _ _ _ _ (mk_execution task (Recorded 1%positive)) 1%positive);
    [apply lookup_insert_eq|done]].
  eapply reach_step; [|eapply (step_record _ _ _ _ (mk_execution task (Updated 1%positive Success)) _ Success true);
    [by vm_compute|done]].
  apply (launch_reachable _ _ _ _ 60000); [|by vm_compute..].
  apply report_reachable; [|by vm_compute|done].
  apply (launch_reachable _ _ _ _ 0); [apply reach_start|by vm_compute..].
Qed.

Definition one_running : Sys := launch 1%positive 1%positive (start task).

Lemma one_running_reachable (cancels : bool) : reachable no_cron cancels task one_running.
Proof. apply (launch_reachable _ _ _ _ 0); [apply reach_start|by vm_compute..]. Qed.

Lemma runs_are_exclusive_witness :
  let s := one_running in (1 = 1)%positive /\ state (row s) = Running.
Proof.
  apply (runs_are_exclusive no_cron task one_running 1%positive 1%positive
    (mk_execution task (Started 1%positive)) (mk_execution task (Started 1%positive)));
    [exact (one_running_reachable false)|vm_compute; reflexivity..].
Defined.

Lemma run_record_is_final_example :
  exists r', runs (cancel_token one_running) !! 1%positive = Some r' /\
    (r' = create_run \/ (r_state create_run = Run_running /\ r_state r' <> Run_running /\
      ((exists e x o, executions one_running !! e = Some x /\ phase x = Updated 1%positive o /\
          result r' = Some (result_of o).1 /\ error_message r' = (result_of o).2) \/
       (true = true /\ r_state r' = Run_cancelled)))).
Proof.
  apply (run_record_is_final no_cron true task one_running (cancel_token one_running) 1%positive create_run).
  - exact (one_running_reachable true).
  - apply step_cancel_token; reflexivity.
  - vm_compute. reflexivity.
Defined.

(** Two failures around a cancelled run disable a task with two retries. *)
Lemma disabled_by_failures_in_a_row_example :
  let l := [(Failed "a"%string, 0); (Success, 1); (Failed "b"%string, 2); (Cancelled, 3); (Timeout "c"%string, 4)] in
  is_enabled (history no_cron l task) = false <-> failed_in_a_row 2 (counted l).
Proof.
  intros l. apply (disabled_by_failures_in_a_row no_cron l task); [reflexivity..|].
  vm_compute. split; congruence.
Defined.

End Scheduler.
