(* ===== verification/Subtitles.v ===== *)
(** * Subtitles

    Conversion of subtitle text between formats, correction of its timing and the
    alignment with the audio (services/subtitles.rs).  Extraction by FFmpeg and
    the recognition engines are not modelled; the answer of FFmpeg's silence
    detection is an argument.  SubtitlesProofs.v holds the theorems. *)

From S2P Require Import Prelude F64.

Module Subtitles.

Definition newline : string := String Str.lf EmptyString.
Definition blank : string := String Str.lf newline.
Definition arrow : string := "-->".

(** ** Operations of [str] *)

(** [str::replace(from, to)] for a string of two characters *)
Fixpoint replace_pair (a b : ascii) (to s : string) : string :=
  match s with
  | String c ((String d t) as u) =>
      if Ascii.eqb a c && Ascii.eqb b d then to +:+ replace_pair a b to t
      else String c (replace_pair a b to u)
  | _ => s
  end.

(** [lines.iter().position(|l| l.contains(p))], with the line and those behind it. *)
Fixpoint find_line (p : string) (lines : list string) : option (string * list string) :=
  match lines with
  | [] => None
  | l :: t => if Str.contains p l then Some (l, t) else find_line p t
  end.

(** [lines.iter().map(..).collect().join("\n")] *)
Definition map_lines (f : string -> string) (content : string) : string :=
  Str.join newline (map f (Str.lines content)).

(** [cue_num += 1] of a [u32] *)
Definition next_cue (cue_num : Z) : Z := (cue_num + 1) mod (u32_max + 1).

(** ** Timecodes *)

Definition wrap_u64 (n : Z) : Z := n mod (u64_max + 1).

(** [s.parse::<u64>().unwrap_or(0)] *)
Definition number_or_0 (max : Z) (s : string) : Z := unwrap_or (Dec.parse_unsigned max s) 0.

Definition parse_timecode_to_ms (tc : string) (separator : ascii) : Z :=
  let of_parts h m s_ms :=
    let '(s_str, ms_str) :=
      match Str.split_once separator s_ms with Some p => p | None => (s_ms, "0"%string) end in
    wrap_u64 (h * 3600000 + m * 60000 + number_or_0 u64_max s_str * 1000
              + number_or_0 u64_max ms_str) in
  match Str.split ":" (Str.trim tc) with
  | [h; m; s_ms] => of_parts (number_or_0 u64_max h) (number_or_0 u64_max m) s_ms
  | [m; s_ms] => of_parts 0 (number_or_0 u64_max m) s_ms
  | _ => 0
  end.

Definition ms_to_timecode (ms : Z) (separator : ascii) : string :=
  let h := ms / 3600000 in
  let m := ms mod 3600000 / 60000 in
  let s := ms mod 60000 / 1000 in
  let millis := ms mod 1000 in
  Dec.print02 h +:+ String ":" (Dec.print02 m +:+ String ":" (Dec.print02 s
  +:+ String separator (F64.print03 millis))).

(** ** Offset and frame rate *)

(** [x as i64] of a [u64] *)
Definition wrap_i64 (n : Z) : Z := (n - i64_min) mod (u64_max + 1) + i64_min.

Definition shift_ms (ms offset_ms : Z) : Z := Z.max 0 (wrap_i64 (wrap_i64 ms + offset_ms)).

Definition apply_offset_to_timecode_line (line : string) (separator : ascii) (offset_ms : Z)
    : string :=
  match Str.split_str arrow line with
  | [start; stop] =>
      let start_ms := parse_timecode_to_ms (Str.trim start) separator in
      let end_ms := parse_timecode_to_ms (Str.trim stop) separator in
      ms_to_timecode (shift_ms start_ms offset_ms) separator +:+ " --> "
      +:+ ms_to_timecode (shift_ms end_ms offset_ms) separator
  | _ => line
  end.

Definition separator_of (format : string) : ascii :=
  if String.eqb format "vtt" then "."%char else ","%char.

Definition apply_offset (content format : string) (offset_ms : Z) : string :=
  let separator := separator_of format in
  map_lines (fun line =>
    if Str.contains arrow line then apply_offset_to_timecode_line line separator offset_ms else line)
    content.

Fixpoint detect_separator_in (lines : list string) : ascii :=
  match lines with
  | [] => ","
  | line :: t =>
      if Str.contains arrow line then
        if Str.contains_char "," line then ","
        else if Str.contains_char "." line then "." else detect_separator_in t
      else detect_separator_in t
  end%char.
Definition detect_separator (content : string) : ascii := detect_separator_in (Str.lines content).

(** [x.round() as u64] *)
Definition round_u64 (x : F64.f64) : Z :=
  match x with
  | SpecFloat.S754_infinity s => if s then 0 else u64_max
  | _ => F64.clamp 0 u64_max (F64.round x)
  end.

Definition scale_ms (scale : F64.f64) (ms : Z) : Z := round_u64 (F64.mul (F64.of_Z ms) scale).

Definition rescale_timecode_line (line : string) (separator : ascii) (scale : F64.f64) : string :=
  match Str.split_str arrow line with
  | [start; stop] =>
      let start_ms := parse_timecode_to_ms (Str.trim start) separator in
      let end_ms := parse_timecode_to_ms (Str.trim stop) separator in
      ms_to_timecode (scale_ms scale start_ms) separator +:+ " --> "
      +:+ ms_to_timecode (scale_ms scale end_ms) separator
  | _ => line
  end.

Definition adjust_fps (content : string) (source_fps target_fps : F64.f64) : string :=
  if F64.leb source_fps F64.zero || F64.leb target_fps F64.zero
     || F64.ltb (F64.abs (F64.sub source_fps target_fps)) F64.epsilon
  then content
  else
    let scale := F64.div source_fps target_fps in
    let separator := detect_separator content in
    map_lines (fun line =>
      if Str.contains arrow line then rescale_timecode_line line separator scale else line) content.

(** ** SubRip and WebVTT *)

(** The cue of one block under the next number: the number, the timecode line with
    one character replaced, and the lines behind it. *)
Definition cue_text (from : ascii) (to : string) (cue_num : Z) (timecode : string)
    (text_lines : list string) : string :=
  Dec.print cue_num +:+ newline +:+ Str.replace_char from to timecode +:+ newline
  +:+ fold_right (fun l acc => l +:+ newline +:+ acc) EmptyString text_lines +:+ newline.

Fixpoint convert_blocks (skipped : string -> bool) (from : ascii) (to : string) (cue_num : Z)
    (blocks : list string) : string :=
  match blocks with
  | [] => EmptyString
  | block :: t =>
      let block := Str.trim block in
      if Str.is_empty block || skipped block then convert_blocks skipped from to cue_num t
      else
        match find_line arrow (Str.lines block) with
        | None => convert_blocks skipped from to cue_num t
        | Some (timecode, text_lines) =>
            cue_text from to cue_num timecode text_lines
            +:+ convert_blocks skipped from to (next_cue cue_num) t
        end
  end.

Definition srt_to_webvtt (srt : string) : string :=
  "WEBVTT" +:+ blank +:+ convert_blocks (fun _ => false) "," "." 1 (Str.split_str blank srt).

Definition vtt_to_srt (vtt : string) : string :=
  convert_blocks (fun block => Str.starts_with "WEBVTT" block || Str.starts_with "NOTE" block)
    "." "," 1 (Str.split_str blank vtt).

(** ** Advanced SubStation Alpha *)

Definition ass_timestamp_to_srt (ts : string) : string :=
  match Str.split ":" (Str.trim ts) with
  | [h; m; sec_and_cs] =>
      let '(sec_str, cs_str) :=
        match Str.split_once "." sec_and_cs with Some p => p | None => (sec_and_cs, "0"%string) end in
      let ms := (number_or_0 u32_max cs_str * 10) mod (u32_max + 1) in
      Dec.print02 (number_or_0 u32_max h) +:+ ":" +:+ Dec.print02 (number_or_0 u32_max m) +:+ ":"
      +:+ Dec.print02 (number_or_0 u32_max sec_str) +:+ "," +:+ F64.print03 ms
  | _ => "00:00:00,000"
  end.

Definition srt_timestamp_to_ass (ts : string) : string :=
  let ms := parse_timecode_to_ms (Str.trim ts) "," in
  Dec.print (ms / 3600000) +:+ ":" +:+ Dec.print02 (ms mod 3600000 / 60000) +:+ ":"
  +:+ Dec.print02 (ms mod 60000 / 1000) +:+ "." +:+ Dec.print02 (ms mod 1000 / 10).

Fixpoint strip_tags (in_tag : bool) (text : string) : string :=
  match text with
  | EmptyString => EmptyString
  | String c t =>
      if Ascii.eqb c "{" then strip_tags true t
      else if Ascii.eqb c "}" then strip_tags false t
      else if in_tag then strip_tags in_tag t
      else String c (strip_tags in_tag t)
  end.
Definition strip_ass_override_tags (text : string) : string := strip_tags false text.

(** The variables of the loop of [ass_to_srt]. *)
Record AssState : Type := mk_ass {
  in_events : bool;
  start_idx : nat;
  end_idx : nat;
  text_idx : nat;
  cue_num : Z
}.

Fixpoint read_format (i : nat) (fields : list string) (st : AssState) : AssState :=
  match fields with
  | [] => st
  | field :: t =>
      let field := Str.lower (Str.trim field) in
      let st :=
        if String.eqb field "start" then mk_ass (in_events st) i (end_idx st) (text_idx st) (cue_num st)
        else if String.eqb field "end" then mk_ass (in_events st) (start_idx st) i (text_idx st) (cue_num st)
        else if String.eqb field "text" then mk_ass (in_events st) (start_idx st) (end_idx st) i (cue_num st)
        else st in
      read_format (S i) t st
  end.

Definition clean_text (text : string) : string :=
  strip_ass_override_tags
    (replace_pair "\" "h" " " (replace_pair "\" "n" newline (replace_pair "\" "N" newline text))).

Definition ass_line (line : string) (st : AssState) : AssState * string :=
  let line := Str.trim line in
  if Str.starts_with "[" line && Str.ends_with "]" line then
    (mk_ass (Str.eq_ignore_case line "[Events]") (start_idx st) (end_idx st) (text_idx st) (cue_num st),
     EmptyString)
  else if negb (in_events st) then (st, EmptyString)
  else
    match Str.strip_prefix "Format:" line with
    | Some format_spec => (read_format 0 (Str.split "," format_spec) st, EmptyString)
    | None =>
        match Str.strip_prefix "Dialogue:" line with
        | None => (st, EmptyString)
        | Some dialogue =>
            let fields := Str.split "," dialogue in
            match fields !! start_idx st, fields !! end_idx st, fields !! text_idx st with
            | Some start, Some stop, Some text =>
                (mk_ass (in_events st) (start_idx st) (end_idx st) (text_idx st) (next_cue (cue_num st)),
                 Dec.print (cue_num st) +:+ newline
                 +:+ ass_timestamp_to_srt (Str.trim start) +:+ " --> "
                 +:+ ass_timestamp_to_srt (Str.trim stop) +:+ newline
                 +:+ clean_text (Str.trim text) +:+ blank)
            | _, _, _ => (st, EmptyString)
            end
        end
    end.

Fixpoint ass_lines (lines : list string) (st : AssState) : string :=
  match lines with
  | [] => EmptyString
  | line :: t => let '(st, out) := ass_line line st in out +:+ ass_lines t st
  end.

Definition ass_to_srt (ass : string) : string :=
  ass_lines (Str.lines ass) (mk_ass false 1 2 9 1).

Definition split_srt_timecode (line : string) : option (string * string) :=
  match Str.split_str arrow line with
  | [start; stop] => Some (Str.trim start, Str.trim stop)
  | _ => None
  end.

Definition ASS_HEADER : string :=
  "[Script Info]" +:+ newline
  +:+ "ScriptType: v4.00+" +:+ newline
  +:+ "WrapStyle: 0" +:+ blank
  +:+ "[V4+ Styles]" +:+ newline
  +:+ "Format: Name, Fontname, Fontsize, PrimaryColour, BackColour, OutlineColour, "
  +:+ "Bold, Italic, Underline, StrikeOut, ScaleX, ScaleY, Spacing, Angle, "
  +:+ "BorderStyle, Outline, Shadow, Alignment, MarginL, MarginR, MarginV, Encoding" +:+ newline
  +:+ "Style: Default,Arial,20,&H00FFFFFF,&H000000FF,&H00000000,0,0,0,0,100,100,0,0,1,2,2,2,10,10,10,1"
  +:+ blank
  +:+ "[Events]" +:+ newline
  +:+ "Format: Layer, Start, End, Style, Name, MarginL, MarginR, MarginV, Effect, Text" +:+ newline.

(** One block of [srt_to_ass]; a block it skips gives nothing. *)
Definition ass_dialogue (block : string) : string :=
  let block := Str.trim block in
  if Str.is_empty block then EmptyString
  else
    match find_line arrow (Str.lines block) with
    | None => EmptyString
    | Some (timecode, text_lines) =>
        match split_srt_timecode timecode with
        | None => EmptyString
        | Some (start_srt, end_srt) =>
            "Dialogue: 0," +:+ srt_timestamp_to_ass start_srt +:+ "," +:+ srt_timestamp_to_ass end_srt
            +:+ ",Default,,0,0,0,," +:+ Str.join "\N" text_lines +:+ newline
        end
    end.

Definition srt_to_ass (srt : string) : string :=
  ASS_HEADER +:+ fold_right (fun block acc => ass_dialogue block +:+ acc) EmptyString
                   (Str.split_str blank srt).

Definition to_srt (content source_format : string) : string :=
  if String.eqb source_format "srt" then content
  else if String.eqb source_format "ass" || String.eqb source_format "ssa" then ass_to_srt content
  else if String.eqb source_format "vtt" then vtt_to_srt content
  else content.

(** ** Alignment with the audio *)

(** [value.parse().unwrap_or(0.0)] of the first word behind the key, as
    milliseconds of a [u64] *)
Definition seconds_or_0 (rest : string) : Z :=
  let secs := unwrap_or (F64.parse (unwrap_or (Str.first_token rest) "0"%string)) F64.zero in
  round_u64 (F64.mul secs (F64.of_Z 1000)).

Fixpoint silence_intervals (current_start : option Z) (lines : list string) : list (Z * Z) :=
  match lines with
  | [] => []
  | line :: t =>
      let trimmed := Str.trim line in
      match Str.after "silence_start:" trimmed with
      | Some rest => silence_intervals (Some (seconds_or_0 rest)) t
      | None =>
          match Str.after "silence_end:" trimmed with
          | None => silence_intervals current_start t
          | Some rest =>
              match current_start with
              | Some start => (start, seconds_or_0 rest) :: silence_intervals None t
              | None => silence_intervals None t
              end
          end
      end
  end.
Definition parse_silence_intervals (stderr : string) : list (Z * Z) :=
  silence_intervals None (Str.lines stderr).

(** Speech begins at the start of the file unless silence does, and where each
    silence ends. *)
Definition compute_speech_starts (intervals : list (Z * Z)) : list Z :=
  match intervals with
  | [] => []
  | (start, _) :: _ => (if 0 <? start then [0] else []) ++ map snd intervals
  end.

(** The start of the first timecode line of a block *)
Fixpoint cue_start (lines : list string) : option Z :=
  match lines with
  | [] => None
  | line :: t =>
      if Str.contains arrow line
      then Some (parse_timecode_to_ms (Str.trim (hd EmptyString (Str.split_str arrow line))) ",")
      else cue_start t
  end.
Definition parse_srt_cue_starts (srt : string) : list Z :=
  omap (fun block => cue_start (Str.lines (Str.trim block))) (Str.split_str blank srt).

Definition MIN_OFFSET_MS : Z := -30000.
Definition MAX_OFFSET_MS : Z := 30000.
Definition STEP_MS : Z := 250.
Definition TOLERANCE_MS : Z := 1000.

(** How many cues, moved by the offset, begin near the beginning of speech. *)
Definition near (adjusted_cue speech : Z) : bool :=
  Z.abs (wrap_i64 (adjusted_cue - wrap_i64 speech)) <=? TOLERANCE_MS.
Definition count_at (speech_starts cue_starts : list Z) (offset : Z) : Z :=
  Z.of_nat (length (List.filter
    (fun cue => existsb (near (wrap_i64 (wrap_i64 cue + offset))) speech_starts) cue_starts)).

(** The variables of the loop of [cross_correlate]; [counts] is in reverse. *)
Record Peak : Type := mk_peak { best_offset : Z; best_count : Z; counts : list Z }.

Definition consider (count offset : Z) (p : Peak) : Peak :=
  if (best_count p <? count) || ((count =? best_count p) && (Z.abs offset <? Z.abs (best_offset p)))
  then mk_peak offset count (count :: counts p)
  else mk_peak (best_offset p) (best_count p) (count :: counts p).

(** [while offset <= MAX_OFFSET_MS]; the fuel is the number of turns and one more. *)
Fixpoint correlate_loop (fuel : nat) (speech_starts cue_starts : list Z) (offset : Z) (p : Peak)
    : option Peak :=
  match fuel with
  | O => None
  | S fuel =>
      if offset <=? MAX_OFFSET_MS then
        correlate_loop fuel speech_starts cue_starts (offset + STEP_MS)
          (consider (count_at speech_starts cue_starts offset) offset p)
      else Some p
  end.

Definition correlate_fuel : nat := 242.

Record CrossCorrelationResult : Type := mk_correlation { offset_ms : Z; confidence : F64.f64 }.

Definition confidence_of (p : Peak) : F64.f64 :=
  let mean :=
    if (length (counts p) =? 0)%nat then F64.zero
    else F64.div (fold_left F64.add (map F64.of_Z (rev (counts p))) F64.zero)
           (F64.of_Z (Z.of_nat (length (counts p)))) in
  if F64.ltb F64.zero mean then F64.div (F64.of_Z (best_count p)) mean else F64.zero.

Definition cross_correlate (speech_starts cue_starts : list Z) : option CrossCorrelationResult :=
  let! p := correlate_loop correlate_fuel speech_starts cue_starts MIN_OFFSET_MS (mk_peak 0 0 []) in
  Some (mk_correlation (best_offset p) (confidence_of p)).

Record VoiceAlignmentResult : Type := mk_alignment {
  alignment_offset : Z;
  alignment_confidence : F64.f64;
  speech_segments : Z;
  subtitle_cues : Z
}.

(** [analyze_voice_activity] once FFmpeg has reported the silences; the loop of
    the correlation always ends. *)
Definition analyze_voice_activity (silence_intervals : list (Z * Z)) (subtitle_srt : string)
    : option (result VoiceAlignmentResult string) :=
  if (length silence_intervals =? 0)%nat then
    Some (Err "no silence detected; cannot derive speech segments"%string)
  else
    let speech_starts := compute_speech_starts silence_intervals in
    if (length speech_starts =? 0)%nat then
      Some (Err "no speech segments derived from silence intervals"%string)
    else
      let cue_starts := parse_srt_cue_starts subtitle_srt in
      if (length cue_starts =? 0)%nat then
        Some (Err "no subtitle cues found in SRT content"%string)
      else
        let! result := cross_correlate speech_starts cue_starts in
        Some (Ok (mk_alignment (offset_ms result) (confidence result)
                    (Z.of_nat (length speech_starts)) (Z.of_nat (length cue_starts)))).

(** ** Delivery (domains/subtitles/service.rs) *)

Inductive SubtitleError : Type :=
| FileNotFound
| InvalidSubtitleFormat (reason : string).

(** [rsplit('.').next()]: the text behind the last dot, or all of it. *)
Definition extension (path : string) : string := List.last (Str.split "." path) EmptyString.

Definition detect_subtitle_format (file_path : string) : option string :=
  let ext := Str.lower (extension file_path) in
  if existsb (String.eqb ext) ["srt"; "ass"; "ssa"; "vtt"; "sup"; "sub"; "idx"; "ttml"]%string
  then Some ext else None.

Definition VALID_DELIVERY_FORMATS : list string := ["srt"; "vtt"]%string.

Definition subtitle_content_type (format : string) : string :=
  if String.eqb format "vtt" then "text/vtt; charset=utf-8"
  else if String.eqb format "srt" then "application/x-subrip; charset=utf-8"
  else "text/plain; charset=utf-8".

(** [get_subtitle_content] for the row of the file; [content] is what reading the
    file gives, if it can be read. *)
Definition get_subtitle_content (file_path : string) (content : option string)
    (delivery_format : option string) (user_offset_ms : option Z)
    : result (string * string) SubtitleError :=
  if Str.contains "::embedded::" file_path then
    Err (InvalidSubtitleFormat "embedded subtitle extraction requires FFmpeg (not yet implemented)")
  else
    match detect_subtitle_format file_path with
    | None => Err (InvalidSubtitleFormat ("unsupported subtitle file extension: " +:+ file_path))
    | Some source_format =>
        if existsb (String.eqb source_format) ["sup"; "sub"; "idx"]%string then
          Err (InvalidSubtitleFormat ("image subtitle format '" +:+ source_format
                                      +:+ "' requires OCR before delivery (see Task 5)"))
        else
          let? content := ok_or content FileNotFound in
          let target_format := unwrap_or delivery_format source_format in
          if negb (existsb (String.eqb target_format) VALID_DELIVERY_FORMATS)
             && negb (String.eqb target_format "ass") && negb (String.eqb target_format "ssa")
          then Err (InvalidSubtitleFormat ("unsupported delivery format: " +:+ target_format))
          else
            let srt_content := to_srt content source_format in
            let final_content :=
              if String.eqb target_format "vtt" then srt_to_webvtt srt_content else srt_content in
            let final_content :=
              match user_offset_ms with
              | Some offset =>
                  if offset =? 0 then final_content else apply_offset final_content target_format offset
              | None => final_content
              end in
            Ok (final_content, subtitle_content_type target_format)
    end.

End Subtitles.
