(* ===== verification/Trim.v ===== *)
(** * White space at the ends of strings

    When [trim] leaves a string as it is, and what it removes: the lemmas that the
    proofs on subtitles and on playlists share. *)

From S2P Require Import Prelude.

(** Printable ASCII characters, which are no part of a white space. *)
Definition plain_char (c : ascii) : bool :=
  let n := nat_of_ascii c in ((33 <=? n) && (n <=? 126))%nat.

Lemma plain_not_start (c : ascii) (s : string) :
  plain_char c = true -> List.find (fun w => Str.starts_with w (String c s)) Str.whitespace = None.
Proof. by destruct c as [[] [] [] [] [] [] [] []]. Qed.

Lemma plain_not_end (c : ascii) (s : string) :
  plain_char c = true ->
  List.find (fun w => Str.starts_with w (String c s)) (map Str.rev Str.whitespace) = None.
Proof. by destruct c as [[] [] [] [] [] [] [] []]. Qed.

Lemma trim_with_none (ws : list string) (n : nat) (s : string) :
  List.find (fun w => Str.starts_with w s) ws = None -> Str.trim_with ws n s = s.
Proof. destruct n; [done|]. cbn [Str.trim_with]. by intros ->. Qed.

Lemma trim_start_plain (c : ascii) (s : string) :
  plain_char c = true -> Str.trim_start (String c s) = String c s.
Proof. intros H. unfold Str.trim_start. by apply trim_with_none, plain_not_start. Qed.

(** Nothing to trim at the end *)
Definition ends_clean (s : string) : Prop :=
  s <> EmptyString /\ List.find (fun w => Str.starts_with w (Str.rev s)) (map Str.rev Str.whitespace) = None.

Lemma trim_end_clean (s : string) : ends_clean s -> Str.trim_end s = s.
Proof. intros [_ H]. unfold Str.trim_end. rewrite trim_with_none by done. apply rev_rev. Qed.

Lemma plain_ends_clean (s : string) (c : ascii) :
  plain_char c = true -> ends_clean (s +:+ String c EmptyString).
Proof. intros H. split; [by destruct s|]. rewrite rev_app. by apply plain_not_end. Qed.

Lemma starts_with_guard (c : ascii) (p s t : string) :
  free_of c p = true -> Str.starts_with p (s +:+ String c t) = Str.starts_with p s.
Proof.
  unfold free_of. revert p. induction s as [|x s IH]; intros [|y p]; cbn [Str.all]; try done.
  - unfold Str.starts_with. cbn [String.append Str.strip_prefix].
    destruct (Ascii.eqb_spec c y); [done|]. by destruct (Ascii.eqb_spec y c).
  - change (String x s +:+ String c t) with (String x (s +:+ String c t)).
    unfold Str.starts_with in *. cbn [Str.strip_prefix]. intros [_ H]%andb_true_iff.
    destruct (Ascii.eqb y x); [|done]. by apply IH.
Qed.

Lemma starts_with_head (x c : ascii) (s : string) :
  Str.starts_with (String x EmptyString) (String c s) = Ascii.eqb x c.
Proof. unfold Str.starts_with. cbn [Str.strip_prefix]. by destruct (Ascii.eqb x c). Qed.

(** A last line without white space at its end keeps a text clean. *)
Lemma ends_clean_line (s l : string) : ends_clean l -> ends_clean (s +:+ String Str.lf l).
Proof.
  intros [N H]. split; [by destruct s|]. rewrite rev_app, rev_cons, str_app_assoc.
  assert (Nr : Str.rev l <> EmptyString).
  { intros E. apply N. rewrite <- (rev_rev l), E. done. }
  change (String Str.lf EmptyString +:+ Str.rev s) with (String Str.lf (Str.rev s)).
  assert (G : forall w, (free_of Str.lf w = true \/ exists x, w = String x EmptyString) ->
              Str.starts_with w (Str.rev l +:+ String Str.lf (Str.rev s))
              = Str.starts_with w (Str.rev l)).
  { intros w [F|[x ->]]; [by apply starts_with_guard|].
    destruct (Str.rev l) as [|c r]; [done|].
    change (String c r +:+ String Str.lf (Str.rev s)) with (String c (r +:+ String Str.lf (Str.rev s))).
    by rewrite !starts_with_head. }
  assert (W : Forall (fun w => free_of Str.lf w = true \/ exists x, w = String x EmptyString)
                (map Str.rev Str.whitespace)).
  { vm_compute. repeat (constructor; [first [left; reflexivity | right; eexists; reflexivity]|]).
    constructor. }
  revert H. induction W as [|w ws Hw W IH]; [done|]. cbn [List.find]. rewrite (G w Hw).
  by destruct (Str.starts_with w (Str.rev l)).
Qed.

Lemma trim_clean (c : ascii) (s : string) :
  plain_char c = true -> ends_clean (String c s) -> Str.trim (String c s) = String c s.
Proof. intros H E. unfold Str.trim. rewrite trim_start_plain by done. by apply trim_end_clean. Qed.

Lemma string_length_app (a b : string) :
  String.length (a +:+ b) = (String.length a + String.length b)%nat.
Proof. induction a as [|c a IH]; [done|]. cbn [String.append String.length]. lia. Qed.

(** One space before or behind *)
Lemma trim_space_front (c : ascii) (s : string) :
  plain_char c = true -> ends_clean (String c s) ->
  Str.trim (String " " (String c s)) = String c s.
Proof.
  intros H E. unfold Str.trim, Str.trim_start. cbn [String.length].
  change (Str.trim_end (Str.trim_with Str.whitespace (S (String.length s)) (String c s)) = String c s).
  rewrite trim_with_none by (by apply plain_not_start). by apply trim_end_clean.
Qed.

Lemma trim_space_back (c : ascii) (s : string) :
  plain_char c = true -> ends_clean (String c s) ->
  Str.trim (String c s +:+ " ") = String c s.
Proof.
  intros H [N E]. unfold Str.trim.
  change (String c s +:+ " ") with (String c (s +:+ " ")). rewrite trim_start_plain by done.
  change (String c (s +:+ " ")) with (String c s +:+ " "). unfold Str.trim_end. rewrite rev_app.
  replace (String.length (String c s +:+ " ")) with (S (S (String.length s))).
  - change (Str.rev (Str.trim_with (map Str.rev Str.whitespace) (S (String.length s)) (Str.rev (String c s)))
            = String c s).
    rewrite trim_with_none by done. apply rev_rev.
  - rewrite string_length_app. cbn [String.length]. lia.
Qed.

Lemma trim_with_length (ws : list string) (n : nat) (s : string) :
  (String.length (Str.trim_with ws n s) <= String.length s)%nat.
Proof.
  revert s. induction n as [|n IH]; intros s; cbn [Str.trim_with]; [done|].
  destruct (List.find _ ws) as [w|]; [|done].
  destruct (Str.strip_prefix w s) as [t|] eqn:E; [|done]. apply strip_prefix_eq in E as ->.
  rewrite string_length_app. specialize (IH t). lia.
Qed.

Lemma trim_end_id (s : string) : s <> EmptyString -> Str.trim_end s = s -> ends_clean s.
Proof.
  intros N E. split; [done|]. unfold Str.trim_end in E.
  assert (E' : Str.trim_with (map Str.rev Str.whitespace) (String.length s) (Str.rev s) = Str.rev s)
    by (by rewrite <- E at 3; rewrite rev_rev).
  destruct s as [|c s]; [done|]. cbn [String.length Str.trim_with] in E'.
  destruct (List.find _ _) as [w|] eqn:F; [|done].
  assert (W : w <> EmptyString).
  { apply find_some in F as [F _]. revert F.
    assert (A : Forall (fun w => w <> EmptyString) (map Str.rev Str.whitespace))
      by (vm_compute; repeat constructor; discriminate).
    rewrite Forall_forall in A. intros F. by apply A, list_elem_of_In. }
  apply find_some in F as [_ F]. unfold Str.starts_with in F.
  destruct (Str.strip_prefix w _) as [t|] eqn:P; [|done]. apply strip_prefix_eq in P.
  pose proof (trim_with_length (map Str.rev Str.whitespace) (String.length s) t) as L.
  rewrite E', P, string_length_app in L. destruct w; [done|]. cbn [String.length] in L. lia.
Qed.
