(* ===== verification/SubtitlesProofs.v ===== *)
(** * Theorems on subtitles

    Timecodes and whole documents read back as they were written, offsets move
    every cue, and the alignment finds the best offset. *)

From S2P Require Import Prelude F64 Trim Subtitles.
Import Subtitles.

Module SubtitlesProofs.


(** ** Timecodes *)

Lemma digit_plain (c : ascii) : Str.is_digit c = true -> plain_char c = true.
Proof. by destruct c as [[] [] [] [] [] [] [] []]. Qed.

Lemma digits_free (c : ascii) (s : string) :
  Str.is_digit c = false -> Str.all Str.is_digit s = true -> free_of c s = true.
Proof.
  intros Hc. unfold free_of. induction s as [|d s IH]; [done|]. cbn [Str.all].
  intros [Hd Hs]%andb_true_iff. rewrite IH by done. destruct (Ascii.eqb_spec c d); [congruence|done].
Qed.

Lemma print02_digits (n : Z) : Str.all Str.is_digit (Dec.print02 n) = true.
Proof. unfold Dec.print02. destruct (n <? 10); [|apply print_digits]. exact (print_digits n). Qed.

Lemma print03_digits (n : Z) : Str.all Str.is_digit (F64.print03 n) = true.
Proof.
  unfold F64.print03. destruct (n <? 10); [exact (print_digits n)|].
  destruct (n <? 100); exact (print_digits n).
Qed.

(** Leading zeros do not change the number that is read. *)
Lemma number_zero (max : Z) (s : string) :
  Str.all Str.is_digit s = true -> Str.is_empty s = false ->
  number_or_0 max (String "0" s) = number_or_0 max s.
Proof.
  intros D E. unfold number_or_0. rewrite !parse_unsigned_digits by done.
  unfold Dec.parse_digits. cbn [Str.is_empty Str.all]. rewrite E, D. reflexivity.
Qed.

Lemma number_of_print (max n : Z) : 0 <= n <= max -> number_or_0 max (Dec.print n) = n.
Proof.
  intros H. unfold number_or_0. rewrite parse_unsigned_digits by apply print_digits.
  by rewrite parse_print.
Qed.

Lemma number_print02 (max n : Z) : 0 <= n <= max -> number_or_0 max (Dec.print02 n) = n.
Proof.
  intros H. unfold Dec.print02. destruct (n <? 10); [|by apply number_of_print].
  rewrite number_zero by auto with dk. by apply number_of_print.
Qed.

Lemma number_print03 (max n : Z) : 0 <= n <= max -> number_or_0 max (F64.print03 n) = n.
Proof.
  intros H. unfold F64.print03. destruct (n <? 10); [|destruct (n <? 100)].
  - change ("00" +:+ Dec.print n) with (String "0" (String "0" (Dec.print n))).
    rewrite !number_zero by (auto with dk; exact (print_digits n)). by apply number_of_print.
  - change ("0" +:+ Dec.print n) with (String "0" (Dec.print n)).
    rewrite number_zero by auto with dk. by apply number_of_print.
  - by apply number_of_print.
Qed.

(** The separators of the two formats *)
Definition timecode_separator (c : ascii) : Prop := c = ","%char \/ c = "."%char.

Definition timecode_char (c : ascii) : bool :=
  Str.is_digit c || Ascii.eqb c ":" || Ascii.eqb c "," || Ascii.eqb c ".".

Lemma timecode_char_plain (c : ascii) : timecode_char c = true -> plain_char c = true.
Proof. by destruct c as [[] [] [] [] [] [] [] []]. Qed.

Lemma digits_timecode (s : string) :
  Str.all Str.is_digit s = true -> Str.all timecode_char s = true.
Proof.
  induction s as [|d s IH]; [done|]. cbn [Str.all]. intros [Hd Hs]%andb_true_iff.
  rewrite IH by done. unfold timecode_char. by rewrite Hd.
Qed.

Lemma timecode_chars (ms : Z) (sep : ascii) :
  timecode_separator sep -> Str.all timecode_char (ms_to_timecode ms sep) = true.
Proof.
  intros S. unfold ms_to_timecode. do 3 (rewrite str_all_app; cbn [Str.all]).
  rewrite !(digits_timecode _ (print02_digits _)), (digits_timecode _ (print03_digits _)).
  by destruct S as [-> | ->].
Qed.

(** The last character of a number *)
Lemma digits_last (s : string) :
  Str.all Str.is_digit s = true -> Str.is_empty s = false ->
  exists t c, s = t +:+ String c EmptyString /\ plain_char c = true.
Proof.
  induction s as [|d s IH]; [done|]. cbn [Str.all]. intros [Hd Hs]%andb_true_iff _.
  destruct s as [|x s]; [exists EmptyString, d; split; [done|by apply digit_plain]|].
  destruct (IH Hs eq_refl) as (t & c & E & Hc). exists (String d t), c. split; [|done].
  by rewrite E.
Qed.

Lemma print03_nonempty (n : Z) : Str.is_empty (F64.print03 n) = false.
Proof. unfold F64.print03. destruct (n <? 10); [done|]. destruct (n <? 100); [done|]. auto with dk. Qed.

Lemma timecode_ends (ms : Z) (sep : ascii) (pre : string) : ends_clean (pre +:+ ms_to_timecode ms sep).
Proof.
  destruct (digits_last (F64.print03 (ms mod 1000)) (print03_digits _) (print03_nonempty _))
    as (t & c & E & Hc).
  unfold ms_to_timecode. rewrite E.
  set (a := Dec.print02 _). set (b := Dec.print02 _). set (d := Dec.print02 _).
  replace (pre +:+ a +:+ String ":" (b +:+ String ":" (d +:+ String sep (t +:+ String c EmptyString))))
    with ((pre +:+ a +:+ String ":" (b +:+ String ":" (d +:+ String sep t))) +:+ String c EmptyString).
  - by apply plain_ends_clean.
  - by repeat (rewrite str_app_assoc; cbn [String.append]).
Qed.

Lemma timecode_head (ms : Z) (sep : ascii) :
  exists c t, ms_to_timecode ms sep = String c t /\ plain_char c = true.
Proof.
  unfold ms_to_timecode. pose proof (print02_digits (ms / 3600000)) as D.
  assert (E : Str.is_empty (Dec.print02 (ms / 3600000)) = false).
  { unfold Dec.print02. destruct (_ <? 10); [done|auto with dk]. }
  destruct (Dec.print02 (ms / 3600000)) as [|c t]; [done|]. cbn [Str.all] in D.
  apply andb_true_iff in D as [D _]. eexists c, _. split; [done|by apply digit_plain].
Qed.

Lemma timecode_parses (ms : Z) (sep : ascii) :
  is_u64 ms -> timecode_separator sep ->
  Str.trim (ms_to_timecode ms sep) = ms_to_timecode ms sep /\
  parse_timecode_to_ms (ms_to_timecode ms sep) sep = ms.
Proof.
  intros Hm S. assert (T : Str.trim (ms_to_timecode ms sep) = ms_to_timecode ms sep).
  { pose proof (timecode_ends ms sep EmptyString) as En. cbn [String.append] in En.
    destruct (timecode_head ms sep) as (c & t & E & Hc). rewrite E in *. by apply trim_clean. }
  split; [done|]. unfold parse_timecode_to_ms. rewrite T. unfold ms_to_timecode. cbv zeta.
  pose proof (print02_digits (ms / 3600000)) as D1.
  pose proof (print02_digits (ms mod 3600000 / 60000)) as D2.
  pose proof (print02_digits (ms mod 60000 / 1000)) as D3.
  pose proof (print03_digits (ms mod 1000)) as D4.
  rewrite !split_at by (by apply digits_free).
  rewrite split_free.
  2:{ unfold free_of. rewrite str_all_app. cbn [Str.all]. fold (free_of ":" (Dec.print02 (ms mod 60000 / 1000))).
      fold (free_of ":" (F64.print03 (ms mod 1000))). rewrite !digits_free by done.
      by destruct S as [-> | ->]. }
  rewrite (split_once_app sep _ _ Str.is_digit) by (try done; by destruct S as [-> | ->]).
  unfold is_u64, u64_max in Hm. rewrite !number_print02, number_print03 by (unfold u64_max; dk_lia).
  unfold wrap_u64, u64_max. rewrite Z.mod_small; dk_lia.
Qed.

(** ** Lines and blocks *)

(** A line of text: not empty, without line feed and without white space at its end. *)
Definition good_line (l : string) : Prop :=
  free_of Str.lf l = true /\ l <> EmptyString /\ Str.trim_end l = l.

Lemma good_clean (l : string) : good_line l -> ends_clean l.
Proof. intros (_ & N & T). by apply trim_end_id. Qed.

Lemma clean_cr (l : string) : ends_clean l -> Str.strip_cr l = l.
Proof.
  intros [_ H]. unfold Str.strip_cr, Str.strip_suffix.
  assert (S : Str.starts_with (Str.rev Str.cr_str) (Str.rev l) = false).
  { apply (find_none _ _ H). vm_compute. tauto. }
  unfold Str.starts_with in S. by destruct (Str.strip_prefix _ (Str.rev l)).
Qed.

(** Lines, each ended by a line feed *)
Definition lines_text (ls : list string) : string :=
  fold_right (fun l acc => l +:+ newline +:+ acc) EmptyString ls.

Definition readable (l : string) : Prop := free_of Str.lf l = true /\ Str.strip_cr l = l.

Lemma good_readable (l : string) : good_line l -> readable l.
Proof. intros H. split; [apply H|]. by apply clean_cr, good_clean. Qed.

Lemma split_lines_text (ls : list string) :
  Forall readable ls -> Str.split Str.lf (lines_text ls) = ls ++ [EmptyString].
Proof.
  induction 1 as [|l ls [F _] _ IH]; [done|]. cbn [lines_text fold_right].
  change (newline +:+ ?x) with (String Str.lf x). rewrite split_at by done.
  by fold (lines_text ls); rewrite IH.
Qed.

Lemma lines_lines_text (ls : list string) : Forall readable ls -> Str.lines (lines_text ls) = ls.
Proof.
  intros H. unfold Str.lines. rewrite split_lines_text by done.
  induction H as [|l ls [_ C] _ IH]; [done|]. cbn [app]. cbn [Str.lines_of].
  rewrite IH, C. by destruct ls.
Qed.

Lemma lines_join (ls : list string) :
  Forall readable ls -> List.last ls EmptyString <> EmptyString -> Str.lines (Str.join newline ls) = ls.
Proof.
  intros H. unfold Str.lines. assert (E : ls <> [] -> Str.split Str.lf (Str.join newline ls) = ls).
  { induction H as [|l [|m t] [F _] H IH]; intros N; [done|by apply split_free|].
    change (Str.join newline (l :: m :: t)) with (l +:+ String Str.lf (Str.join newline (m :: t))).
    rewrite split_at by done. by rewrite IH. }
  intros L. rewrite E by (by intros ->). clear E.
  induction H as [|l [|m t] [_ C] H IH]; [done| |].
  - cbn [Str.lines_of]. by destruct l.
  - change (Str.strip_cr l :: Str.lines_of (m :: t) = l :: m :: t). rewrite C, IH; done.
Qed.

Lemma join_lines_text (l : string) (ls : list string) :
  Str.join newline (l :: ls) +:+ newline = lines_text (l :: ls).
Proof.
  revert l. induction ls as [|m ls IH]; intros l; [done|].
  change (Str.join newline (l :: m :: ls)) with (l +:+ newline +:+ Str.join newline (m :: ls)).
  rewrite !str_app_assoc, IH. done.
Qed.

Lemma lines_text_app (a b : list string) : lines_text (a ++ b) = lines_text a +:+ lines_text b.
Proof.
  induction a as [|l a IH]; [done|]. cbn [app lines_text fold_right]. fold (lines_text (a ++ b)).
  fold (lines_text a). by rewrite IH, !str_app_assoc.
Qed.

Lemma split_blank_line (d : ascii) (u : string) :
  Ascii.eqb Str.lf d = false ->
  Str.split_str blank (String Str.lf (String d u)) = prepend newline (Str.split_str blank (String d u)).
Proof.
  intros H. unfold Str.split_str.
  assert (S : Str.starts_with blank (String Str.lf (String d u)) = false).
  { unfold Str.starts_with, blank, newline. cbn [Str.strip_prefix]. by rewrite Ascii.eqb_refl, H. }
  remember (String d u) as t. cbn [Str.split_go]. rewrite S.
  pose proof (split_go_nonempty blank t 0). by destruct (Str.split_go blank 0 t).
Qed.

Lemma good_head (l : string) (s : string) :
  good_line l -> exists d u, l +:+ s = String d u /\ Ascii.eqb Str.lf d = false.
Proof.
  intros (F & N & _). destruct l as [|d l]; [done|]. unfold free_of in F. cbn [Str.all] in F.
  apply andb_true_iff in F as [F _]. apply negb_true_iff in F. by exists d, (l +:+ s).
Qed.

(** A block ends at its blank line. *)
Lemma split_block (l : string) (ls : list string) (rest : string) :
  Forall good_line (l :: ls) ->
  Str.split_str blank (Str.join newline (l :: ls) +:+ blank +:+ rest)
  = Str.join newline (l :: ls) :: Str.split_str blank rest.
Proof.
  revert l. induction ls as [|m ls IH]; intros l H.
  - apply Forall_cons in H as [[F _] _]. cbn [Str.join].
    change blank with (String Str.lf newline) at 1. rewrite (split_str_free Str.lf newline l) by done.
    rewrite (split_str_sep Str.lf newline). cbn [prepend]. by rewrite str_app_nil_r.
  - apply Forall_cons in H as [[F _] H].
    change (Str.join newline (l :: m :: ls)) with (l +:+ newline +:+ Str.join newline (m :: ls)).
    rewrite !str_app_assoc. change blank with (String Str.lf newline) at 1.
    rewrite (split_str_free Str.lf newline l) by done.
    set (x := Str.join newline (m :: ls) +:+ blank +:+ rest).
    assert (X : exists d u, x = String d u /\ Ascii.eqb Str.lf d = false).
    { apply Forall_cons in H as [Hm _]. unfold x.
      destruct ls as [|k ls]; [by apply good_head|].
      change (Str.join newline (m :: k :: ls)) with (m +:+ newline +:+ Str.join newline (k :: ls)).
      rewrite !str_app_assoc. by apply good_head. }
    destruct X as (d & u & E & D). change (newline +:+ x) with (String Str.lf x). rewrite E.
    change (Str.split_str (String Str.lf newline)) with (Str.split_str blank).
    rewrite split_blank_line by done. rewrite <- E. unfold x. rewrite IH by done.
    cbn [prepend]. done.
Qed.

(** ** Documents *)

Record Cue : Type := mk_cue { start : Z; stop : Z; text : list string }.

Definition timing (sep : ascii) (c : Cue) : string :=
  ms_to_timecode (start c) sep +:+ " --> " +:+ ms_to_timecode (stop c) sep.

Definition cue_lines (sep : ascii) (n : Z) (c : Cue) : list string :=
  Dec.print n :: timing sep c :: text c.

(** The lines of a document whose cues are numbered from [n]. *)
Fixpoint document (sep : ascii) (n : Z) (cues : list Cue) : list string :=
  match cues with
  | [] => []
  | c :: t => cue_lines sep n c ++ EmptyString :: document sep (n + 1) t
  end.

Definition render_srt (cues : list Cue) : string := lines_text (document "," 1 cues).
Definition render_vtt (cues : list Cue) : string :=
  "WEBVTT" +:+ blank +:+ lines_text (document "." 1 cues).

Definition good_cue (c : Cue) : Prop :=
  is_u64 (start c) /\ is_u64 (stop c) /\ Forall good_line (text c).

Lemma clean_good (l : string) : free_of Str.lf l = true -> ends_clean l -> good_line l.
Proof. intros F E. split; [done|]. split; [apply E|]. by apply trim_end_clean. Qed.

Lemma print_good (n : Z) : good_line (Dec.print n).
Proof.
  apply clean_good; [apply digits_free; [done|apply print_digits]|].
  destruct (digits_last (Dec.print n) (print_digits n) (print_nonempty n)) as (t & c & -> & Hc).
  by apply plain_ends_clean.
Qed.

Lemma timecode_free (x : ascii) (ms : Z) (sep : ascii) :
  timecode_separator sep -> timecode_char x = false -> free_of x (ms_to_timecode ms sep) = true.
Proof.
  intros S Hx. pose proof (timecode_chars ms sep S) as A. unfold free_of.
  induction (ms_to_timecode ms sep) as [|d s IH]; [done|]. cbn [Str.all] in *.
  apply andb_true_iff in A as [Ad As]. rewrite IH by done.
  destruct (Ascii.eqb_spec x d) as [->|]; [congruence|done].
Qed.

Lemma timing_good (sep : ascii) (c : Cue) : timecode_separator sep -> good_line (timing sep c).
Proof.
  intros S. unfold timing. apply clean_good.
  - unfold free_of. rewrite !str_all_app. fold (free_of Str.lf (ms_to_timecode (start c) sep)).
    fold (free_of Str.lf (ms_to_timecode (stop c) sep)). by rewrite !timecode_free.
  - rewrite <- str_app_assoc. apply timecode_ends.
Qed.

Lemma cue_lines_good (sep : ascii) (n : Z) (c : Cue) :
  timecode_separator sep -> good_cue c -> Forall good_line (cue_lines sep n c).
Proof.
  intros S (_ & _ & T). constructor; [apply print_good|]. constructor; [by apply timing_good|done].
Qed.

Lemma document_readable (sep : ascii) (n : Z) (cues : list Cue) :
  timecode_separator sep -> Forall good_cue cues -> Forall readable (document sep n cues).
Proof.
  intros S H. revert n. induction H as [|c t Hc _ IH]; intros n; cbn [document]; [done|].
  apply Forall_app. split; [|by constructor].
  eapply Forall_impl; [by apply cue_lines_good|apply good_readable].
Qed.

(** *** Conversion of a block *)

Lemma contains_free (c : ascii) (p s : string) :
  free_of c s = true -> Str.contains (String c p) s = false.
Proof.
  unfold free_of. induction s as [|d s IH]; [done|]. cbn [Str.all Str.contains].
  unfold Str.starts_with. cbn [Str.strip_prefix]. destruct (Ascii.eqb c d); [done|].
  cbn [negb andb is_some_b orb]. exact IH.
Qed.

Lemma contains_app (p a b : string) : Str.contains p (a +:+ p +:+ b) = true.
Proof.
  induction a as [|c a IH].
  - cbn [String.append]. assert (S : Str.starts_with p (p +:+ b) = true)
      by (unfold Str.starts_with; by rewrite strip_prefix_app).
    destruct (p +:+ b); cbn [Str.contains]; by rewrite S.
  - change (String c a +:+ p +:+ b) with (String c (a +:+ p +:+ b)). cbn [Str.contains].
    rewrite IH. apply orb_true_r.
Qed.

Lemma timing_arrow (sep : ascii) (c : Cue) : Str.contains arrow (timing sep c) = true.
Proof.
  unfold timing. change (" --> " +:+ ?x) with (" " +:+ arrow +:+ " " +:+ x).
  rewrite <- str_app_assoc. apply contains_app.
Qed.

Lemma print_no_arrow (n : Z) : Str.contains arrow (Dec.print n) = false.
Proof. apply contains_free, digits_free; [done|apply print_digits]. Qed.

Lemma replace_free (c : ascii) (to s : string) : free_of c s = true -> Str.replace_char c to s = s.
Proof.
  unfold free_of. induction s as [|d s IH]; [done|]. cbn [Str.all Str.replace_char].
  destruct (Ascii.eqb c d); [done|]. cbn [negb andb]. intros H. by rewrite IH.
Qed.

Lemma replace_timecode (from to : ascii) (ms : Z) :
  timecode_separator from ->
  Str.replace_char from (String to EmptyString) (ms_to_timecode ms from) = ms_to_timecode ms to.
Proof.
  intros S. assert (D : Str.is_digit from = false /\ Ascii.eqb from ":" = false)
    by (by destruct S as [-> | ->]). destruct D as [D C].
  unfold ms_to_timecode. cbv zeta.
  rewrite replace_char_app, replace_free by (by apply digits_free, print02_digits). f_equal.
  cbn [Str.replace_char]. rewrite C. f_equal.
  rewrite replace_char_app, replace_free by (by apply digits_free, print02_digits). f_equal.
  cbn [Str.replace_char]. rewrite C. f_equal.
  rewrite replace_char_app, replace_free by (by apply digits_free, print02_digits). f_equal.
  cbn [Str.replace_char]. rewrite Ascii.eqb_refl.
  rewrite replace_free by (by apply digits_free, print03_digits). done.
Qed.

Lemma replace_timing (from to : ascii) (c : Cue) :
  timecode_separator from ->
  Str.replace_char from (String to EmptyString) (timing from c) = timing to c.
Proof.
  intros S. unfold timing. rewrite !replace_char_app, !replace_timecode by done.
  rewrite (replace_free from _ " --> "); [done|]. by destruct S as [-> | ->].
Qed.

Lemma cue_text_lines (from to : ascii) (n : Z) (c : Cue) :
  timecode_separator from ->
  cue_text from (String to EmptyString) n (timing from c) (text c)
  = lines_text (cue_lines to n c ++ [EmptyString]).
Proof.
  intros S. unfold cue_text. rewrite replace_timing by done. rewrite lines_text_app.
  unfold cue_lines. cbn [lines_text fold_right]. by rewrite !str_app_assoc.
Qed.

Lemma digit_string (n : Z) (s : string) :
  exists c t, Dec.print n +:+ s = String c t /\ Str.is_digit c = true.
Proof.
  pose proof (print_digits n) as D. pose proof (print_nonempty n) as N.
  destruct (Dec.print n) as [|c t]; [done|]. cbn [Str.all] in D.
  apply andb_true_iff in D as [D _]. by exists c, (t +:+ s).
Qed.

Lemma last_good (x : string) (ls : list string) :
  Forall good_line (x :: ls) -> good_line (List.last (x :: ls) EmptyString).
Proof.
  revert x. induction ls as [|y ls IH]; intros x H; [apply Forall_cons in H as [H _]; exact H|].
  apply Forall_cons in H as [_ H]. by apply IH.
Qed.

Lemma join_clean (x : string) (ls : list string) :
  Forall good_line (x :: ls) -> ends_clean (Str.join newline (x :: ls)).
Proof.
  revert x. induction ls as [|y ls IH]; intros x H.
  - apply Forall_cons in H as [H _]. by apply good_clean.
  - apply Forall_cons in H as [_ H]. specialize (IH y H).
    change (Str.join newline (x :: y :: ls)) with (x +:+ String Str.lf (Str.join newline (y :: ls))).
    by apply ends_clean_line.
Qed.

(** A block of a cue is trimmed to itself and read as its lines. *)
Lemma block_trim (sep : ascii) (n : Z) (c : Cue) :
  timecode_separator sep -> good_cue c ->
  exists d t, Str.join newline (cue_lines sep n c) = String d t /\ Str.is_digit d = true /\
              Str.trim (String d t) = String d t.
Proof.
  intros S G. pose proof (join_clean _ _ (cue_lines_good sep n c S G)) as E.
  change (ends_clean (Dec.print n +:+ newline +:+ Str.join newline (timing sep c :: text c))) in E.
  change (Str.join newline (cue_lines sep n c))
    with (Dec.print n +:+ newline +:+ Str.join newline (timing sep c :: text c)).
  destruct (digit_string n (newline +:+ Str.join newline (timing sep c :: text c))) as (d & t & Eq & D).
  exists d, t. split; [done|]. split; [done|]. rewrite Eq in E. apply trim_clean; [by apply digit_plain|done].
Qed.

Lemma block_lines (sep : ascii) (n : Z) (c : Cue) :
  timecode_separator sep -> good_cue c ->
  find_line arrow (Str.lines (Str.join newline (cue_lines sep n c))) = Some (timing sep c, text c).
Proof.
  intros S G. pose proof (cue_lines_good sep n c S G) as F. rewrite lines_join.
  - unfold cue_lines. cbn [find_line]. by rewrite print_no_arrow, timing_arrow.
  - eapply Forall_impl; [exact F|apply good_readable].
  - by apply last_good in F as (_ & N & _).
Qed.

Lemma document_blocks (sep : ascii) (n : Z) (c : Cue) (t : list Cue) :
  lines_text (document sep n (c :: t))
  = Str.join newline (cue_lines sep n c) +:+ blank +:+ lines_text (document sep (n + 1) t).
Proof.
  cbn [document]. rewrite lines_text_app. unfold cue_lines at 1. rewrite <- join_lines_text.
  rewrite str_app_assoc. done.
Qed.

(** A converter rewrites the separator of every cue and keeps everything else. *)
Lemma convert_document (skipped : string -> bool) (from to : ascii) (n : Z) (cues : list Cue) :
  timecode_separator from -> (forall d t, Str.is_digit d = true -> skipped (String d t) = false) ->
  Forall good_cue cues -> 0 <= n -> n + Z.of_nat (length cues) <= u32_max + 1 ->
  convert_blocks skipped from (String to EmptyString) n
    (Str.split_str blank (lines_text (document from n cues)))
  = lines_text (document to n cues).
Proof.
  intros S K H. revert n. induction H as [|c t Hc _ IH]; intros n Hn L; [done|].
  rewrite !document_blocks. change (Str.join newline (cue_lines from n c))
    with (Str.join newline (Dec.print n :: timing from c :: text c)).
  rewrite split_block by (by apply cue_lines_good). cbn [convert_blocks].
  change (Dec.print n :: timing from c :: text c) with (cue_lines from n c).
  destruct (block_trim from n c S Hc) as (d & u & E & D & T).
  pose proof (block_lines from n c S Hc) as B. rewrite E in *. rewrite T, K by done.
  cbn [Str.is_empty orb]. rewrite B. cbn [length] in L. unfold next_cue, u32_max in *.
  rewrite cue_text_lines by done. rewrite lines_text_app.
  assert (Hnext : convert_blocks skipped from (String to EmptyString) ((n + 1) mod (4294967295 + 1))
            (Str.split_str blank (lines_text (document from (n + 1) t)))
          = lines_text (document to (n + 1) t)).
  { destruct t as [|c' t]; [done|]. cbn [length] in L. rewrite Z.mod_small by lia.
    apply IH; cbn [length]; lia. }
  rewrite Hnext. unfold cue_lines. rewrite <- join_lines_text, !str_app_assoc. done.
Qed.

Definition few (cues : list Cue) : Prop := Z.of_nat (length cues) <= u32_max.

(** *** Offsets *)

Definition shift_cue (offset_ms : Z) (c : Cue) : Cue :=
  mk_cue (Z.max 0 (start c + offset_ms)) (Z.max 0 (stop c + offset_ms)) (text c).

(** Times that an offset of 32 bits keeps within 63 bits *)
Definition timely (c : Cue) : Prop :=
  0 <= start c <= i64_max - i32_max /\ 0 <= stop c <= i64_max - i32_max.

Lemma shift_ms_small (ms offset_ms : Z) :
  0 <= ms <= i64_max - i32_max -> is_i32 offset_ms -> shift_ms ms offset_ms = Z.max 0 (ms + offset_ms).
Proof.
  unfold is_i32, i32_min, i32_max, i64_max. intros M O. unfold shift_ms, wrap_i64, i64_min, u64_max.
  rewrite (Z.mod_small (ms - _)) by lia. rewrite Z.mod_small by lia. f_equal. lia.
Qed.

(** Both timecodes of a timing line are read back. *)
Lemma shift_timing (sep : ascii) (c : Cue) (offset_ms : Z) :
  timecode_separator sep -> timely c -> is_i32 offset_ms ->
  apply_offset_to_timecode_line (timing sep c) sep offset_ms = timing sep (shift_cue offset_ms c).
Proof.
  intros S [T1 T2] O. unfold apply_offset_to_timecode_line, timing.
  assert (U : is_u64 (start c) /\ is_u64 (stop c))
    by (unfold is_u64, u64_max, i64_max, i32_max in *; lia). destruct U as [U1 U2].
  assert (F : forall ms, free_of "-" (ms_to_timecode ms sep) = true) by (intros ms; by apply timecode_free).
  change (" --> " +:+ ?x) with (" " +:+ arrow +:+ " " +:+ x). rewrite <- str_app_assoc.
  unfold arrow at 1. rewrite (split_str_free "-" "->").
  2:{ unfold free_of. rewrite str_all_app. fold (free_of "-" (ms_to_timecode (start c) sep)). by rewrite F. }
  change arrow with (String "-" "->"). rewrite split_str_sep. cbn [prepend].
  rewrite <- (str_app_nil_r (" " +:+ ms_to_timecode (stop c) sep)).
  rewrite (split_str_free "-" "->").
  2:{ unfold free_of. cbn [Str.all String.append]. exact (F (stop c)). }
  change (Str.split_str (String "-" "->") EmptyString) with [EmptyString].
  cbn [prepend]. rewrite !str_app_nil_r.
  pose proof (timecode_ends (start c) sep EmptyString) as E1.
  pose proof (timecode_ends (stop c) sep EmptyString) as E2. cbn [String.append] in E1, E2.
  destruct (timecode_parses (start c) sep U1 S) as [_ P1], (timecode_parses (stop c) sep U2 S) as [_ P2].
  destruct (timecode_head (start c) sep) as (c1 & t1 & Q1 & H1), (timecode_head (stop c) sep) as (c2 & t2 & Q2 & H2).
  rewrite Q1 in *. rewrite Q2 in *.
  rewrite trim_space_back by done. change (" " +:+ String c2 t2) with (String " " (String c2 t2)).
  rewrite trim_space_front by done. rewrite P1, P2, !shift_ms_small by done. done.
Qed.

Lemma join_terminated (ls : list string) :
  ls <> [] -> Str.join newline ls +:+ newline = lines_text ls.
Proof. destruct ls as [|l ls]; [done|]. intros _. apply join_lines_text. Qed.

Definition no_arrow (c : Cue) : Prop := Forall (fun l => Str.contains arrow l = false) (text c).

Lemma shift_document (sep : ascii) (n offset_ms : Z) (cues : list Cue) :
  timecode_separator sep -> is_i32 offset_ms -> Forall timely cues -> Forall no_arrow cues ->
  map (fun line => if Str.contains arrow line then apply_offset_to_timecode_line line sep offset_ms
                   else line) (document sep n cues)
  = document sep n (map (shift_cue offset_ms) cues).
Proof.
  intros S O T. revert n. induction T as [|c t Tc _ IH]; intros n A; [done|].
  apply Forall_cons in A as [Ac A]. cbn [document map]. rewrite map_app. unfold cue_lines.
  cbn [map]. rewrite print_no_arrow, timing_arrow, shift_timing by done. rewrite IH by done.
  f_equal. f_equal. f_equal. cbn [shift_cue text]. unfold no_arrow in Ac.
  induction Ac as [|l ls Hl _ IHl]; [done|]. cbn [map]. by rewrite Hl, IHl.
Qed.

Lemma separator_of_ok (format : string) : timecode_separator (separator_of format).
Proof. unfold separator_of, timecode_separator. destruct (String.eqb format "vtt"); auto. Qed.

(** ** Alignment *)

Definition grid : list Z := map (fun i => MIN_OFFSET_MS + STEP_MS * Z.of_nat i) (seq 0 241).

(** The best of the offsets seen: none has more matches, none with as many is
    nearer to zero; while nothing matched it is zero. *)
Record best_of (count : Z -> Z) (seen : list Z) (p : Peak) : Prop := mk_best_of {
  b_count : best_count p = 0 \/ best_count p = count (best_offset p) /\ best_offset p ∈ seen;
  b_zero : best_count p = 0 -> best_offset p = 0;
  b_most : forall o, o ∈ seen -> count o <= best_count p;
  b_near : forall o, o ∈ seen -> count o = best_count p -> Z.abs (best_offset p) <= Z.abs o }.

Lemma consider_best (count : Z -> Z) (seen : list Z) (p : Peak) (o : Z) :
  (forall x, 0 <= count x) -> best_of count seen p -> best_of count (o :: seen) (consider (count o) o p).
Proof.
  intros P [C Z0 M N]. unfold consider. destruct (_ || _) eqn:E.
  - assert (K : best_count p < count o \/ (count o = best_count p /\ Z.abs o < Z.abs (best_offset p))).
    { apply orb_true_iff in E as [E|E]; [left; by dk_bool|right].
      apply andb_true_iff in E as [E1 E2]. dk_bool. done. }
    constructor; cbn [best_count best_offset].
    + right. split; [done|by left].
    + intros L. pose proof (P o). destruct K as [K|[K1 K2]]; [|rewrite Z0 in K2 by lia; lia].
      destruct C as [C|[C _]]; [lia|]. pose proof (P (best_offset p)). lia.
    + intros x [->|Hx]%elem_of_cons; [done|]. specialize (M x Hx). lia.
    + intros x [->|Hx]%elem_of_cons L; [done|]. specialize (M x Hx).
      destruct K as [K|[K1 K2]]; [lia|]. specialize (N x Hx ltac:(lia)). lia.
  - apply orb_false_iff in E as [E1 E2]. apply andb_false_iff in E2. dk_bool.
    constructor; cbn [best_count best_offset].
    + destruct C as [C|[C S]]; [by left|right]. split; [done|by right].
    + done.
    + intros x [->|Hx]%elem_of_cons; [done|by apply M].
    + intros x [->|Hx]%elem_of_cons L; [|by apply N]. destruct E2 as [E2|E2]; dk_bool; [done|lia].
Qed.

Lemma correlate_best (speech cues : list Z) (k : nat) (fuel : nat) (seen : list Z) (p : Peak) :
  (k <= 241)%nat -> (242 - k <= fuel)%nat ->
  (forall o, o ∈ seen <-> exists i, (i < k)%nat /\ o = MIN_OFFSET_MS + STEP_MS * Z.of_nat i) ->
  best_of (count_at speech cues) seen p ->
  exists q, correlate_loop fuel speech cues (MIN_OFFSET_MS + STEP_MS * Z.of_nat k) p = Some q /\
            best_of (count_at speech cues) grid q.
Proof.
  intros Hk Hf. remember (241 - k)%nat as m eqn:Em. revert k fuel seen p Hk Hf Em.
  induction m as [|m IH]; intros k fuel seen p Hk Hf Em Sn B; (destruct fuel as [|fuel]; [lia|]);
    cbn [correlate_loop].
  - assert (k = 241)%nat as -> by lia. exists p. split; [done|].
    assert (G : forall o, o ∈ grid <-> o ∈ seen).
    { intros o. rewrite Sn. unfold grid. rewrite list_elem_of_fmap. split.
      - intros (i & -> & Hi%elem_of_seq). exists i. split; [lia|done].
      - intros (i & Hi & ->). exists i. split; [done|]. apply elem_of_seq. lia. }
    destruct B as [C Z0 M N]. constructor; [by rewrite G|done| |]; intros o Ho%G; auto.
  - rewrite (proj2 (Z.leb_le _ _)) by (unfold MIN_OFFSET_MS, STEP_MS, MAX_OFFSET_MS; lia).
    replace (MIN_OFFSET_MS + STEP_MS * Z.of_nat k + STEP_MS)
      with (MIN_OFFSET_MS + STEP_MS * Z.of_nat (S k)) by (unfold STEP_MS; lia).
    apply (IH (S k) fuel (MIN_OFFSET_MS + STEP_MS * Z.of_nat k :: seen)); [lia|lia|lia| |].
    + intros o. rewrite elem_of_cons, Sn. split.
      * intros [->|(i & Hi & ->)]; eexists; (split; [|done]); lia.
      * intros (i & Hi & ->). destruct (decide (i = k)) as [->|]; [by left|right].
        exists i. split; [lia|done].
    + apply consider_best; [|done]. intros x. unfold count_at. lia.
Qed.

(** ** Theorems *)

Lemma srt_to_webvtt_document (cues : list Cue) :
  Forall good_cue cues -> few cues -> srt_to_webvtt (render_srt cues) = render_vtt cues.
Proof.
  intros G F. unfold few in F. unfold srt_to_webvtt, render_srt, render_vtt. f_equal. f_equal.
  apply convert_document; [by left|done|done|lia|lia].
Qed.

Lemma vtt_to_srt_document (cues : list Cue) :
  Forall good_cue cues -> few cues -> vtt_to_srt (render_vtt cues) = render_srt cues.
Proof.
  intros G F. unfold few in F. unfold vtt_to_srt, render_vtt.
  change ("WEBVTT" +:+ blank +:+ ?x) with (Str.join newline ["WEBVTT"%string] +:+ blank +:+ x).
  rewrite split_block.
  - cbn [convert_blocks Str.join]. apply convert_document; [by right| |done|lia|lia].
    intros [[] [] [] [] [] [] [] []] t D; try done.
  - constructor; [|done]. split; [done|]. split; [done|]. by vm_compute.
Qed.

(** Documents convert back: a SubRip document, cues numbered from one with
    lines that are not empty and have no white space at their end, becomes the
    WebVTT document of the same cues, and that becomes the SubRip document again. *)
Theorem webvtt_round_trip (cues : list Cue) :
  Forall good_cue cues -> few cues ->
  srt_to_webvtt (render_srt cues) = render_vtt cues /\
  vtt_to_srt (srt_to_webvtt (render_srt cues)) = render_srt cues.
Proof. intros G F. rewrite srt_to_webvtt_document by done. split; [done|by apply vtt_to_srt_document]. Qed.

(** An offset moves every cue: the text of the result is that of the same document
    with both ends of each cue moved by the offset, those before zero at zero,
    except that the last line feed is dropped. *)
Lemma offset_shifts_document (header : list string) (format : string) (offset_ms : Z)
    (cues : list Cue) :
  Forall readable header -> Forall (fun l => Str.contains arrow l = false) header ->
  Forall good_cue cues -> Forall timely cues -> Forall no_arrow cues -> cues <> [] ->
  is_i32 offset_ms ->
  apply_offset (lines_text (header ++ document (separator_of format) 1 cues)) format offset_ms
    +:+ newline
  = lines_text (header ++ document (separator_of format) 1 (map (shift_cue offset_ms) cues)).
Proof.
  intros R H G T A N O. pose proof (separator_of_ok format) as S. unfold apply_offset, map_lines.
  rewrite lines_lines_text by (apply Forall_app; split; [done|by apply document_readable]).
  rewrite map_app, shift_document by done.
  replace (map _ header) with header.
  - apply join_terminated. destruct cues; [done|]. by destruct header.
  - clear R. induction H as [|l ls Hl _ IH]; [done|]. cbn [map]. by rewrite Hl, <- IH.
Qed.

(** The document of the cues in a format. *)
Definition render (format : string) (cues : list Cue) : string :=
  if String.eqb format "vtt" then render_vtt cues else render_srt cues.

Definition deliverable (format : string) : Prop := format = "srt"%string \/ format = "vtt"%string.

Lemma render_lines (format : string) (cues : list Cue) :
  deliverable format ->
  render format cues
  = lines_text ((if String.eqb format "vtt" then ["WEBVTT"; ""]%string else [])
                ++ document (separator_of format) 1 cues).
Proof. by intros [-> | ->]. Qed.

Lemma offset_shifts_cues (format : string) (offset_ms : Z) (cues : list Cue) :
  deliverable format -> Forall good_cue cues -> Forall timely cues -> Forall no_arrow cues ->
  cues <> [] -> is_i32 offset_ms ->
  apply_offset (render format cues) format offset_ms +:+ newline
  = render format (map (shift_cue offset_ms) cues).
Proof.
  intros D G T A N O. rewrite !render_lines by done.
  apply offset_shifts_document; try done; destruct D as [-> | ->]; repeat constructor.
Qed.

Lemma convert_render (source target : string) (cues : list Cue) :
  deliverable source -> deliverable target -> Forall good_cue cues -> few cues ->
  (if String.eqb target "vtt" then srt_to_webvtt (to_srt (render source cues) source)
   else to_srt (render source cues) source) = render target cues.
Proof.
  intros S T G F. assert (V : to_srt (render source cues) source = render_srt cues).
  { destruct S as [-> | ->]; [done|]. by apply vtt_to_srt_document. }
  rewrite V. destruct T as [-> | ->]; [done|]. by apply srt_to_webvtt_document.
Qed.

(** A text subtitle is delivered as it was stored: whatever of SubRip and WebVTT
    the file holds and the client asks for, the answer holds the same cues, moved
    by the offset the user set. *)
Theorem delivered_cues (path : string) (source target : string) (cues : list Cue)
    (user_offset_ms : option Z) :
  deliverable source -> deliverable target -> detect_subtitle_format path = Some source ->
  Str.contains "::embedded::" path = false ->
  Forall good_cue cues -> Forall timely cues -> Forall no_arrow cues -> few cues -> cues <> [] ->
  is_i32 (unwrap_or user_offset_ms 0) ->
  exists text,
    get_subtitle_content path (Some (render source cues)) (Some target) user_offset_ms
    = Ok (text, subtitle_content_type target) /\
    if unwrap_or user_offset_ms 0 =? 0 then text = render target cues
    else text +:+ newline = render target (map (shift_cue (unwrap_or user_offset_ms 0)) cues).
Proof.
  intros S T D E G Ti A F N O. unfold get_subtitle_content. rewrite E, D.
  assert (I : existsb (String.eqb source) ["sup"; "sub"; "idx"]%string = false)
    by (by destruct S as [-> | ->]).
  rewrite I. cbn [ok_or unwrap_or]. rewrite convert_render by done.
  assert (V : existsb (String.eqb target) VALID_DELIVERY_FORMATS = true)
    by (by destruct T as [-> | ->]).
  rewrite V. cbn [negb andb]. eexists. split; [reflexivity|].
  destruct user_offset_ms as [o|]; cbn [unwrap_or] in *; [|done].
  destruct (o =? 0); [done|]. by apply offset_shifts_cues.
Qed.

(** C37. The alignment ends after its 241 offsets and returns the best: no offset
    between -30 and 30 seconds in steps of a quarter brings more cues near the
    beginning of speech, and none that brings as many is smaller. *)
Theorem alignment_is_best (speech cues : list Z) :
  exists r, cross_correlate speech cues = Some r /\ offset_ms r ∈ grid /\
    forall o, o ∈ grid ->
      count_at speech cues o <= count_at speech cues (offset_ms r) /\
      (count_at speech cues o = count_at speech cues (offset_ms r) -> Z.abs (offset_ms r) <= Z.abs o).
Proof.
  destruct (correlate_best speech cues 0 correlate_fuel [] (mk_peak 0 0 [])) as (q & E & [C Z0 M N]).
  - lia.
  - unfold correlate_fuel. lia.
  - intros o. split; [by intros ?%elem_of_nil|]. intros (i & Hi & _). lia.
  - constructor; cbn [best_count best_offset]; auto; by intros o ?%elem_of_nil.
  - unfold cross_correlate. change (MIN_OFFSET_MS + STEP_MS * Z.of_nat 0) with MIN_OFFSET_MS in E.
    rewrite E. eexists. split; [done|]. cbn [offset_ms].
    assert (G0 : 0 ∈ grid) by (unfold grid; apply list_elem_of_fmap; exists 120%nat; split; [done|]; apply elem_of_seq; lia).
    assert (K : best_count q = count_at speech cues (best_offset q) /\ best_offset q ∈ grid).
    { destruct C as [C|C]; [|done]. rewrite Z0 by done. split; [|done]. specialize (M 0 G0).
      unfold count_at in *. lia. }
    destruct K as [K1 K2]. split; [done|]. intros o Ho. rewrite <- K1. split; [by apply M|by apply N].
Qed.

(** ** Witnesses *)

Definition two_cues : list Cue :=
  [mk_cue 1000 2500 ["Hello, world"; "- again"]%string; mk_cue 3600000 3661001 ["Bye"%string]].

Lemma two_cues_good : Forall good_cue two_cues.
Proof.
  unfold two_cues. repeat constructor; cbn [start stop]; unfold u64_max; try lia; try done;
    by vm_compute.
Qed.

Example webvtt_round_trip_example :
  srt_to_webvtt (render_srt two_cues) = render_vtt two_cues /\
  vtt_to_srt (srt_to_webvtt (render_srt two_cues)) = render_srt two_cues.
Proof. apply (webvtt_round_trip two_cues); [exact two_cues_good|]. unfold few. vm_compute. discriminate. Defined.

Lemma delivered_cues_example :
  exists text,
    get_subtitle_content "/media/Film.en.SRT" (Some (render "srt" two_cues)) (Some "vtt"%string)
      (Some (-1500)) = Ok (text, "text/vtt; charset=utf-8"%string) /\
    text +:+ newline
    = render "vtt" [mk_cue 0 1000 ["Hello, world"; "- again"]%string;
                    mk_cue 3598500 3659501 ["Bye"%string]].
Proof.
  apply (delivered_cues "/media/Film.en.SRT" "srt" "vtt" two_cues (Some (-1500))).
  - left. reflexivity.
  - right. reflexivity.
  - vm_compute. reflexivity.
  - vm_compute. reflexivity.
  - exact two_cues_good.
  - unfold two_cues, timely. repeat constructor; vm_compute; discriminate.
  - unfold two_cues, no_arrow. repeat constructor.
  - unfold few. vm_compute. discriminate.
  - discriminate.
  - unfold is_i32. vm_compute. split; discriminate.
Defined.

(** A file of SubStation Alpha is delivered as SubRip when the client asks for its
    own format. *)
Example ass_is_delivered_as_srt :
  let srt := render_srt [mk_cue 1000 2500 ["Hello"%string]] in
  get_subtitle_content "film.ass" (Some (srt_to_ass srt)) (Some "ass"%string) None
  = Ok (srt, "text/plain; charset=utf-8"%string).
Proof. vm_compute. reflexivity. Qed.

(** A line of dialogue loses what follows its first comma. *)
Example comma_cuts_dialogue :
  ass_to_srt (srt_to_ass (render_srt [mk_cue 1000 2500 ["Hello, world"%string]]))
  = render_srt [mk_cue 1000 2500 ["Hello"%string]].
Proof. vm_compute. reflexivity. Qed.

(** A document with the line endings of Windows is one block: all but its first cue
    become text of that cue. *)
Definition crlf : string := String Str.cr newline.
Example crlf_is_one_block :
  let cue n t := n +:+ crlf +:+ "00:00:01,000 --> 00:00:02,000" +:+ crlf +:+ t +:+ crlf +:+ crlf in
  parse_srt_cue_starts (cue "1" "Hello" +:+ cue "2" "Bye")%string = [1000].
Proof. vm_compute. reflexivity. Qed.

(** The hundredths of the fourth format of [parse_timecode_to_ms] are read as
    milliseconds. *)
Example hundredths_are_thousandths : parse_timecode_to_ms "0:00:01.50" "." = 1050.
Proof. vm_compute. reflexivity. Qed.

End SubtitlesProofs.
