(* ===== verification/Segments.v ===== *)
(** * Segment detection

    The detection of intros, credits, recaps, previews and outros
    (services/segments.rs) and the part of workers/segment_detector.rs that turns
    its results into rows of media_segments: chapters, fingerprints compared
    across episodes, black frames and silence.  The regex crate, the
    fingerprinter and FFmpeg itself are parameters.  SegmentsProofs.v holds the
    theorems. *)

From Stdlib Require Import SpecFloat.
From stdpp Require Import gmap.
From S2P Require Import Prelude F64 Json.

(** Rust's [f32] as SpecFloat's numbers at precision 24, exponent 128. *)
Module F32.

Abbreviation f32 := spec_float.
Definition add : f32 -> f32 -> f32 := SFadd 24 128.
Definition mul : f32 -> f32 -> f32 := SFmul 24 128.
Definition div : f32 -> f32 -> f32 := SFdiv 24 128.
(** [n as f32] and a decimal literal [n / d] *)
Definition of_Z (n : Z) : f32 := binary_normalize 24 128 n 0 false.
Definition lit (n d : positive) : f32 := div (S754_finite false n 0) (S754_finite false d 0).
Definition ltb (x y : f32) : bool := SFltb x y.
Definition leb (x y : f32) : bool := SFleb x y.
Definition zero : f32 := S754_zero false.
Definition one : f32 := of_Z 1.
(** [f32::max]: the other operand when one is not a number *)
Definition max (x y : f32) : f32 :=
  if F64.is_nan x then y else if ltb x y then y else x.
(** [x.clamp(0.0, 1.0)] *)
Definition clamp01 (x : f32) : f32 :=
  let x := if ltb x zero then zero else x in
  if ltb one x then one else x.
(** [f64::from(x)], which is exact *)
Definition to_f64 (x : f32) : F64.f64 :=
  match x with
  | S754_finite s m e => binary_normalize 53 1024 (if s then Zneg m else Zpos m) e s
  | _ => x
  end.

End F32.

Module Segments.
Import F32.

Section Segments.

(** Identifiers of media items, and the one [Uuid::nil] makes. *)
Context {Uuid : Type} `{Countable Uuid} (nil_uuid : Uuid).
(** [Regex::new(pattern).is_match(text)] of the regex crate. *)
Context (is_match : string -> string -> bool).

(** ** Types *)

Inductive SegmentType : Type := Intro | Credits | Recap | Preview | Outro.

#[global] Instance segment_type_eq_dec : EqDecision SegmentType.
Proof. solve_decision. Defined.

Definition type_as_str (t : SegmentType) : string :=
  match t with
  | Intro => "intro" | Credits => "credits" | Recap => "recap"
  | Preview => "preview" | Outro => "outro"
  end.

Definition from_db_str (s : string) : option SegmentType :=
  if String.eqb s "intro" then Some Intro
  else if String.eqb s "credits" then Some Credits
  else if String.eqb s "recap" then Some Recap
  else if String.eqb s "preview" then Some Preview
  else if String.eqb s "outro" then Some Outro
  else None.

Inductive SegmentSource : Type := Chapter | Chromaprint | Blackframe | Silence | Combined.

Definition source_as_str (s : SegmentSource) : string :=
  match s with
  | Chapter => "chapter" | Chromaprint => "chromaprint" | Blackframe => "blackframe"
  | Silence => "silence" | Combined => "combined"
  end.

Record DetectedSegment : Type := mk_segment {
  segment_type : SegmentType;
  start_ms : Z;
  end_ms : Z;
  skip_to_ms : Z;
  source : SegmentSource;
  confidence : f32;
  metadata : Json.Value
}.

Record ChapterInfo : Type := mk_chapter {
  chapter_start : Z;
  chapter_end : Z;
  title : option string
}.

Definition duration_ms (c : ChapterInfo) : Z := wrap_i32 (chapter_end c - chapter_start c).

Record SearchWindow : Type := mk_window { window_start : Z; window_end : Z }.

Record FingerprintOutput : Type := mk_output {
  raw : list Z;
  sample_rate : Z;
  fingerprint_duration : Z
}.

Record FingerprintWithContext : Type := mk_fingerprint {
  media_item_id : Uuid;
  runtime_ms : Z;
  fingerprint : list Z
}.

Record RecurringMatch : Type := mk_match {
  match_item : Uuid;
  match_type : SegmentType;
  match_start : Z;
  match_end : Z;
  matching_episodes : Z;
  similarity : f32
}.

Record BlackframeEvent : Type := mk_blackframe { frame : Z; pblack : Z; time_ms : Z }.

Record SilenceEvent : Type := mk_silence {
  silence_start : Z;
  silence_end : Z;
  silence_duration : Z
}.

Record SafetyConfig : Type := mk_safety {
  intro_start_padding_ms : Z;
  intro_end_padding_ms : Z;
  credits_start_padding_ms : Z;
  credits_end_padding_ms : Z;
  min_confidence : f32
}.

Definition default_safety : SafetyConfig := mk_safety 0 2000 0 0 (lit 7 10).

Record DurationThresholds : Type := mk_durations { min_ms : Z; max_tv_ms : Z; max_movie_ms : Z }.

Definition for_type (t : SegmentType) : DurationThresholds :=
  match t with
  | Intro => mk_durations 15000 120000 120000
  | Credits => mk_durations 15000 300000 900000
  | Recap => mk_durations 15000 120000 120000
  | Preview => mk_durations 15000 120000 120000
  | Outro => mk_durations 15000 120000 300000
  end.

Definition max_for (d : DurationThresholds) (is_movie : bool) : Z :=
  if is_movie then max_movie_ms d else max_tv_ms d.

Record BlackframeParams : Type := mk_blackframe_params { amount : Z; threshold : Z }.
Definition default_blackframe : BlackframeParams := mk_blackframe_params 75 2.

Record SilenceParams : Type := mk_silence_params { noise_db : Z; min_duration_ms : Z }.
Definition default_silence : SilenceParams := mk_silence_params (-55) 2000.

Record ChromaprintThresholds : Type := mk_chromaprint {
  min_bit_agreement : Z;
  high_confidence_episodes : Z;
  subfp_period_ms : Z
}.
Definition default_chromaprint : ChromaprintThresholds := mk_chromaprint 30 3 11.

Inductive SegmentPipelineError : Type :=
| FfmpegSpawn (error : string)
| FfmpegFailed (code : option Z) (stderr : string)
| ParseError (error : string)
| ChromaprintFailed (error : string)
| Io (error : string).

(** A number of [json!] *)
Definition json_int (n : Z) : Json.Value :=
  Json.Num (if n <? 0 then Json.NegInt n else Json.PosInt n).
Definition json_opt (s : option string) : Json.Value :=
  match s with Some s => Json.Str s | None => Json.Null end.

(** ** Safety padding *)

Definition with_skip (skip : Z) (s : DetectedSegment) : DetectedSegment :=
  mk_segment (segment_type s) (start_ms s) (end_ms s) skip (source s) (confidence s) (metadata s).

Definition apply_safety_padding (s : DetectedSegment) (safety : SafetyConfig) : DetectedSegment :=
  match segment_type s with
  | Intro =>
      let target := wrap_i32 (end_ms s - intro_end_padding_ms safety) in
      with_skip (Z.max target (start_ms s)) s
  | Credits =>
      let target := wrap_i32 (end_ms s + credits_end_padding_ms safety) in
      with_skip (Z.min target (end_ms s)) s
  | Recap | Preview | Outro => with_skip (end_ms s) s
  end.

(** [Map::insert] of serde_json *)
Fixpoint insert_entry (k : string) (v : Json.Value) (m : list (string * Json.Value))
    : list (string * Json.Value) :=
  match m with
  | [] => [(k, v)]
  | (k', v') :: t => if String.eqb k k' then (k, v) :: t else (k', v') :: insert_entry k v t
  end.

Definition mark_surfaced (s : DetectedSegment) (safety : SafetyConfig) : DetectedSegment :=
  let surfaced := leb (min_confidence safety) (confidence s) in
  let metadata :=
    match Json.as_object (metadata s) with
    | Some obj => Json.Object (insert_entry "surfaced" (Json.Bool surfaced) obj)
    | None => Json.Object [("surfaced", Json.Bool surfaced)%string]
    end in
  mk_segment (segment_type s) (start_ms s) (end_ms s) (skip_to_ms s) (source s) (confidence s)
    metadata.

(** ** Chapters *)

Definition CHAPTER_PATTERNS : list (string * SegmentType) :=
  [("(?i)\b(Intro|Introduction|OP|Opening)\b"%string, Intro);
   ("(?i)\b(Credits?|ED|Ending|Outro)\b"%string, Credits);
   ("(?i)\b(Re?cap|Sum{1,2}ary|Prev(ious(ly)?)?|Last|Earlier)\b"%string, Recap);
   ("(?i)\b(Preview|PV|Sneak\s?Peek|Coming\s?(Up|Soon)|Next\s+(time|on|episode))\b"%string,
    Preview)].

Definition clock_seconds (h m sec : string) : option F64.f64 :=
  let! h := F64.parse h in
  let! m := F64.parse m in
  let! sec := F64.parse sec in
  Some (F64.add (F64.add (F64.mul h (F64.of_Z 3600)) (F64.mul m (F64.of_Z 60))) sec).

Definition parse_chapter_time_ms (s : string) : option Z :=
  let s := Str.trim s in
  ensure negb (Str.is_empty s) in
  let! seconds_f :=
    if Str.contains_char ":" s then
      match Str.split ":" s with
      | [h; m; sec] => clock_seconds h m sec
      | [m; sec] => clock_seconds "0" m sec
      | _ => None
      end
    else F64.parse s in
  ensure F64.is_finite seconds_f && negb (F64.ltb seconds_f F64.zero) in
  Some (F64.round_i32 (F64.mul seconds_f (F64.of_Z 1000))).

Definition string_at (k : string) (v : Json.Value) : option string :=
  let! x := Json.get k v in Json.as_str x.

(** One turn of the loop of [extract_chapters]; [None] is its [continue]. *)
Definition extract_chapter (ch : Json.Value) : option ChapterInfo :=
  let! start_ms := (let! s := string_at "start_time" ch in parse_chapter_time_ms s) in
  let! end_ms := (let! s := string_at "end_time" ch in parse_chapter_time_ms s) in
  ensure negb (end_ms <=? start_ms) in
  let title := (let! tags := Json.get "tags" ch in
                let! s := string_at "title" tags in
                Some (Str.trim s)) in
  Some (mk_chapter start_ms end_ms
          (let! s := title in ensure negb (Str.is_empty s) in Some s)).

Definition extract_chapters (additional_streams : Json.Value) : list ChapterInfo :=
  match (let! c := Json.get "chapters" additional_streams in Json.as_array c) with
  | Some chapters => omap extract_chapter chapters
  | None => []
  end.

Definition classify_chapter_title (title : string) : option SegmentType :=
  let trimmed := Str.trim title in
  if Str.is_empty trimmed then None
  else option_map snd (List.find (fun p => is_match (fst p) trimmed) CHAPTER_PATTERNS).

Definition chapter_to_detected_segment (chapter : ChapterInfo) (t : SegmentType) (runtime_ms : Z)
    (safety : SafetyConfig) : DetectedSegment :=
  apply_safety_padding
    (mk_segment t (chapter_start chapter) (chapter_end chapter) (chapter_end chapter) Chapter one
       (Json.Object [("source_chapter_title", json_opt (title chapter));
                     ("runtime_ms", json_int runtime_ms)]%string))
    safety.

(** What [apply_chapter_segments] of the worker makes of one chapter before it
    asks whether the item has a segment of the type; [None] is its [continue]. *)
Definition chapter_segment (chapter : ChapterInfo) (runtime_ms : Z) (safety : SafetyConfig)
    (is_movie : bool) : option DetectedSegment :=
  let! title := title chapter in
  let! t := classify_chapter_title title in
  let thresholds := for_type t in
  let duration := duration_ms chapter in
  ensure negb ((duration <? min_ms thresholds) || (max_for thresholds is_movie <? duration)) in
  Some (mark_surfaced (chapter_to_detected_segment chapter t runtime_ms safety) safety).

(** ** Fingerprints *)

(** [i16::from_le_bytes] and the pairs of [as_chunks::<2>().0], which leaves the
    last byte of an odd number of bytes in its remainder. *)
Definition from_le_bytes (lo hi : Z) : Z :=
  let n := lo + 256 * hi in if n <? 32768 then n else n - 65536.

Fixpoint samples (bytes : list Z) : list Z :=
  match bytes with
  | lo :: hi :: t => from_le_bytes lo hi :: samples t
  | _ => []
  end.

(** The loop over the output of FFmpeg: the bytes each [read] returned, until it
    returned none, give the samples fed to the fingerprinter. *)
Fixpoint feed (reads : list (list Z)) : list Z :=
  match reads with
  | [] => []
  | [] :: _ => []
  | buf :: t => samples buf ++ feed t
  end.

Definition effective_rate (sample_rate : Z) : Z := if sample_rate =? 0 then 11025 else sample_rate.

Definition fingerprint_args (path : string) (sample_rate : Z) : list string :=
  ["-hide_banner"; "-nostdin"; "-i"; path; "-vn"; "-ac"; "1"; "-ar";
   Dec.print (effective_rate sample_rate); "-f"; "s16le"; "-acodec"; "pcm_s16le"; "pipe:1"]%string.

(** What a finished FFmpeg process leaves behind; its standard error is already
    decoded by [String::from_utf8_lossy]. *)
Record Output : Type := mk_process { success : bool; code : option Z; stderr : string }.

(** [fingerprint_file] once the process runs: [fingerprint_of] is what the
    fingerprinter returns for the samples, or its error. *)
Definition fingerprint_file (fingerprint_of : list Z -> result (list Z) string)
    (sample_rate : Z) (reads : list (list Z)) (output : Output)
    : result FingerprintOutput SegmentPipelineError :=
  let sample_rate := effective_rate sample_rate in
  let fed := feed reads in
  let total_samples := Z.of_nat (length fed) in
  if negb (success output) then Err (FfmpegFailed (code output) (stderr output))
  else
    match fingerprint_of fed with
    | Err e => Err (ChromaprintFailed e)
    | Ok raw =>
        if (length raw =? 0)%nat then
          Err (ChromaprintFailed ("empty fingerprint (samples=" +:+ Dec.print total_samples
                                  +:+ ", stderr=" +:+ Str.trim (stderr output) +:+ ")"))
        else
          let seconds := F64.div (F64.of_Z total_samples) (F64.of_Z sample_rate) in
          Ok (mk_output raw sample_rate (F64.round_i32 (F64.mul seconds (F64.of_Z 1000))))
    end.

Definition usize_of_i32 (n : Z) : Z := n mod (u64_max + 1).

Definition duration_to_subfps (duration_ms subfp_period_ms : Z) : Z :=
  if subfp_period_ms <=? 0 then 0
  else usize_of_i32 duration_ms / usize_of_i32 subfp_period_ms.

Definition ms_to_subfp (ms subfp_period_ms : Z) : Z := duration_to_subfps ms subfp_period_ms.

Definition subfp_to_ms (subfp subfp_period_ms : Z) : Z := wrap_i32 (wrap_i32 subfp * subfp_period_ms).

(** [u32::count_ones] *)
Definition count_ones (n : Z) : Z :=
  Z.of_nat (length (List.filter (fun i => Z.testbit n (Z.of_nat i)) (seq 0 32))).

Definition bit_agreement (a b : Z) : Z := 32 - count_ones (Z.lxor a b).

(** ** Search windows *)

(** Division of [i32] truncates towards zero. *)
Definition intro_search_window_ms (runtime_ms : Z) (is_movie : bool) : SearchWindow :=
  let cap := 10 * 60000 in
  let end_ms := if is_movie then cap else Z.min (Z.quot runtime_ms 4) cap in
  mk_window 0 (Z.max end_ms 0).

Definition credits_search_window_ms (runtime_ms : Z) (is_movie : bool) : SearchWindow :=
  let start_ms :=
    if is_movie then wrap_i32 (runtime_ms - Z.quot runtime_ms 5)
    else wrap_i32 (runtime_ms - Z.quot (wrap_i32 (runtime_ms * 3)) 10) in
  mk_window (Z.max start_ms 0) runtime_ms.

Definition recap_search_window_ms (runtime_ms : Z) : SearchWindow :=
  mk_window 0 (Z.quot (wrap_i32 (runtime_ms * 15)) 100).

(** ** Comparison of two episodes *)

(** The state of the inner loop of [best_pair_match]. *)
Record Run : Type := mk_run { run_len : Z; run_sum_bits : Z; run_best_similarity : f32 }.

Definition extend_run (r : Run) (agreement : Z) : Run :=
  let len := run_len r + 1 in
  let sum := run_sum_bits r + agreement in
  let avg := F32.div (F32.of_Z sum) (F32.mul (F32.of_Z len) (F32.of_Z 32)) in
  mk_run len sum (F32.max (run_best_similarity r) avg).

Definition reset_run (r : Run) : Run := mk_run 0 0 (run_best_similarity r).

(** The inner loop from index [idx_a] of the first fingerprint, over the pairs
    of sub-fingerprints that are left. *)
Fixpoint scan_run (bits min_run max_run window_end idx_a : Z) (r : Run) (pairs : list (Z * Z))
    : Run :=
  match pairs with
  | [] => r
  | (x, y) :: t =>
      if window_end <? idx_a then r
      else
        let agreement := bit_agreement x y in
        if bits <=? agreement then
          let r := extend_run r agreement in
          if max_run <=? run_len r then r
          else scan_run bits min_run max_run window_end (idx_a + 1) r t
        else if min_run <=? run_len r then r
        else
          let r := reset_run r in
          if max_run <=? run_len r then r
          else scan_run bits min_run max_run window_end (idx_a + 1) r t
  end.

(** The best run so far: offset, length and similarity; a new one replaces it when
    the pair of its length and similarity is greater. *)
Definition Best : Type := option (Z * Z * f32).

Definition better (best : Best) (len : Z) (sim : f32) : bool :=
  match best with
  | None => true
  | Some (_, prev_len, prev_sim) => (prev_len <? len) || ((prev_len =? len) && ltb prev_sim sim)
  end.

(** The outer loop: [n] offsets are left, [fp_a] is the first fingerprint without
    its first [offset] elements. *)
Fixpoint scan_offsets (bits min_run max_run window_end : Z) (n : nat) (offset : Z)
    (fp_a fp_b : list Z) (best : Best) : Best :=
  match n with
  | O => best
  | S n =>
      if window_end <? offset then best
      else
        let r := scan_run bits min_run max_run window_end offset (mk_run 0 0 F32.zero)
                   (combine fp_a fp_b) in
        let best :=
          if (min_run <=? run_len r) && better best (run_len r) (run_best_similarity r)
          then Some (offset, run_len r, run_best_similarity r) else best in
        scan_offsets bits min_run max_run window_end n (offset + 1) (tl fp_a) fp_b best
  end.

(** Where the common search window of two episodes ends, as a sub-fingerprint. *)
Definition common_window_end (a b : FingerprintWithContext) (th : ChromaprintThresholds) : Z :=
  ms_to_subfp
    (Z.min (window_end (intro_search_window_ms (runtime_ms a) false))
           (window_end (intro_search_window_ms (runtime_ms b) false)))
    (subfp_period_ms th).

Definition best_run (a b : FingerprintWithContext) (th : ChromaprintThresholds)
    (min_run max_run : Z) : Best :=
  scan_offsets (min_bit_agreement th) min_run max_run (common_window_end a b th)
    (Z.to_nat (sat_sub (Z.of_nat (length (fingerprint a))) min_run)) 0
    (fingerprint a) (fingerprint b) None.

Definition best_pair_match (a b : FingerprintWithContext) (th : ChromaprintThresholds)
    (min_run max_run : Z) : option RecurringMatch :=
  let window_end_subfp := common_window_end a b th in
  let! (offset, run_len, similarity) := best_run a b th min_run max_run in
  let start_subfp := Z.min offset window_end_subfp in
  let end_subfp := Z.min (offset + run_len) (window_end_subfp + 1) in
  ensure negb (end_subfp <=? start_subfp) in
  let start_ms := subfp_to_ms start_subfp (subfp_period_ms th) in
  let end_ms := subfp_to_ms end_subfp (subfp_period_ms th) in
  ensure negb (wrap_i32 (end_ms - start_ms) <? min_ms (for_type Intro)) in
  Some (mk_match nil_uuid Intro start_ms end_ms 2 similarity).

(** ** Comparison of all episodes of a season *)

Definition with_item (item : Uuid) (m : RecurringMatch) : RecurringMatch :=
  mk_match item (match_type m) (match_start m) (match_end m) (matching_episodes m) (similarity m).
Definition with_episodes (n : Z) (m : RecurringMatch) : RecurringMatch :=
  mk_match (match_item m) (match_type m) (match_start m) (match_end m) n (similarity m).

(** [entry(..).and_modify(..).or_insert_with(..)] *)
Definition record_match (m : RecurringMatch) (by_item : gmap Uuid RecurringMatch)
    : gmap Uuid RecurringMatch :=
  match by_item !! match_item m with
  | Some existing =>
      let e := if ltb (similarity existing) (similarity m) then m else existing in
      <[match_item m := with_episodes (Z.max (Z.min u64_max (matching_episodes e + 1)) 2) e]> by_item
  | None => <[match_item m := m]> by_item
  end.

Definition min_run_of (th : ChromaprintThresholds) : Z :=
  duration_to_subfps (min_ms (for_type Intro)) (subfp_period_ms th).
Definition max_run_of (th : ChromaprintThresholds) : Z :=
  duration_to_subfps (max_tv_ms (for_type Intro)) (subfp_period_ms th).

Definition compare_pair (th : ChromaprintThresholds) (by_item : gmap Uuid RecurringMatch)
    (a b : FingerprintWithContext) : gmap Uuid RecurringMatch :=
  let min_run := min_run_of th in
  if (Z.of_nat (length (fingerprint a)) <? min_run) || (Z.of_nat (length (fingerprint b)) <? min_run)
  then by_item
  else
    match best_pair_match a b th min_run (max_run_of th) with
    | None => by_item
    | Some m =>
        record_match (with_item (media_item_id b) m)
          (record_match (with_item (media_item_id a) m) by_item)
    end.

(** The two loops over pairs of indices [i < j]. *)
Fixpoint compare_all (th : ChromaprintThresholds) (by_item : gmap Uuid RecurringMatch)
    (l : list FingerprintWithContext) : gmap Uuid RecurringMatch :=
  match l with
  | [] => by_item
  | a :: t => compare_all th (fold_left (fun acc b => compare_pair th acc a b) t by_item) t
  end.

(** The map whose values are returned, in an order the map chooses. *)
Definition find_recurring_segments (l : list FingerprintWithContext) (th : ChromaprintThresholds)
    : gmap Uuid RecurringMatch :=
  if (length l <? 2)%nat then ∅ else compare_all th ∅ l.

Definition chromaprint_match_to_segment (m : RecurringMatch) (th : ChromaprintThresholds)
    (silence_confirms blackframe_confirms : bool) (runtime_ms : Z) (safety : SafetyConfig)
    : DetectedSegment :=
  let base := if high_confidence_episodes th <=? matching_episodes m then lit 9 10 else lit 7 10 in
  let confidence := if blackframe_confirms then F32.add base (lit 5 100) else base in
  let confidence := if silence_confirms then F32.add confidence (lit 1 10) else confidence in
  apply_safety_padding
    (mk_segment (match_type m) (match_start m) (match_end m) (match_end m) Chromaprint
       (clamp01 confidence)
       (Json.Object [("matching_episodes", json_int (matching_episodes m));
                     ("similarity", Json.Num (Json.Float (to_f64 (similarity m))));
                     ("silence_confirms", Json.Bool silence_confirms);
                     ("blackframe_confirms", Json.Bool blackframe_confirms);
                     ("runtime_ms", json_int runtime_ms)]%string))
    safety.

(** ** Reading FFmpeg's log *)

(** The text before the first occurrence of [key], and [split(key).nth(1)]. *)
Fixpoint before (key s : string) : string :=
  if Str.starts_with key s then EmptyString
  else match s with EmptyString => EmptyString | String c t => String c (before key t) end.

Definition split_nth_1 (key s : string) : option string := option_map (before key) (Str.after key s).

Definition parse_leading_f64 (s : string) : option F64.f64 :=
  let! token := Str.first_token s in F64.parse token.
Definition parse_leading_i64 (s : string) : option Z :=
  let! token := Str.first_token s in Dec.parse_i64 token.

Definition parse_kv_i64 (line key : string) : option Z :=
  let! rest := Str.after key line in parse_leading_i64 rest.
Definition parse_kv_u8 (line key : string) : option Z :=
  let! v := parse_kv_i64 line key in
  ensure (0 <=? v) && (v <=? u8_max) in Some v.
(** [(f * 1_000.0).round() as i32] *)
Definition seconds_to_ms (f : F64.f64) : Z := F64.round_i32 (F64.mul f (F64.of_Z 1000)).
Definition parse_kv_f64_ms (line key : string) : option Z :=
  let! rest := Str.after key line in
  let! f := parse_leading_f64 rest in
  Some (seconds_to_ms f).

Definition parse_blackframe_line (line : string) : option BlackframeEvent :=
  ensure Str.contains "blackframe" line in
  let! frame := parse_kv_i64 line "frame:" in
  let! pblack := parse_kv_u8 line "pblack:" in
  let! time_ms := parse_kv_f64_ms line "t:" in
  Some (mk_blackframe frame pblack time_ms).

Definition parse_blackframe_output (stderr : string) : list BlackframeEvent :=
  omap parse_blackframe_line (Str.lines stderr).

(** [trim_end_matches(c)] *)
Definition trim_end_char (c : ascii) (s : string) : string :=
  Str.rev (Str.trim_start_char c (Str.rev s)).

Definition format_duration_secs (secs : F64.f64) : string :=
  let trimmed := trim_end_char "." (trim_end_char "0" (F64.fixed3 secs)) in
  if Str.is_empty trimmed then "0"%string else trimmed.

Definition blackframe_args (path : string) (params : BlackframeParams) : list string :=
  ["-hide_banner"; "-nostdin"; "-i"; path; "-vf";
   "blackframe=amount=" +:+ Dec.print (amount params)
     +:+ ":threshold=" +:+ Dec.print (threshold params);
   "-an"; "-f"; "null"; "-"]%string.

(** [detect_blackframes] once the process has ended *)
Definition detect_blackframes (search_window : SearchWindow) (output : Output)
    : result (list BlackframeEvent) SegmentPipelineError :=
  if negb (success output) then Err (FfmpegFailed (code output) (stderr output))
  else
    Ok (List.filter (fun e => (window_start search_window <=? time_ms e)
                              && (time_ms e <=? window_end search_window))
          (parse_blackframe_output (stderr output))).

Definition silence_args (path : string) (params : SilenceParams) : list string :=
  let secs := F64.div (F64.of_Z (min_duration_ms params)) (F64.of_Z 1000) in
  ["-hide_banner"; "-nostdin"; "-i"; path; "-vn"; "-af";
   "silencedetect=noise=" +:+ Dec.print_int (noise_db params) +:+ "dB:d=" +:+ format_duration_secs secs;
   "-f"; "null"; "-"]%string.

(** One line of [parse_silence_output]: the pending start and the event it ends. *)
Definition silence_line (current_start : option Z) (line : string)
    : option Z * option SilenceEvent :=
  if negb (Str.contains "silencedetect" line) then (current_start, None)
  else
    match split_nth_1 "silence_start:" line with
    | Some rest =>
        (match parse_leading_f64 rest with
         | Some ts => Some (seconds_to_ms ts)
         | None => current_start
         end, None)
    | None =>
        match (let! rest := split_nth_1 "silence_end:" line in
               let! token := Str.first_token rest in parse_leading_f64 token), current_start with
        | Some e, Some start =>
            let end_ms := seconds_to_ms e in
            (None, Some (mk_silence start end_ms (wrap_i32 (end_ms - start))))
        | _, _ => (current_start, None)
        end
    end.

Fixpoint silence_lines (current_start : option Z) (lines : list string) : list SilenceEvent :=
  match lines with
  | [] => []
  | line :: t =>
      let '(current_start, event) := silence_line current_start line in
      match event with
      | Some e => e :: silence_lines current_start t
      | None => silence_lines current_start t
      end
  end.

Definition parse_silence_output (stderr : string) : list SilenceEvent :=
  silence_lines None (Str.lines stderr).

Definition detect_silence (output : Output) : result (list SilenceEvent) SegmentPipelineError :=
  if negb (success output) then Err (FfmpegFailed (code output) (stderr output))
  else Ok (parse_silence_output (stderr output)).

(** ** Credits from black frames and silence *)

(** [sort_by_key(|e| e.time_ms)], which is stable *)
Fixpoint insert_event (e : BlackframeEvent) (l : list BlackframeEvent) : list BlackframeEvent :=
  match l with
  | [] => [e]
  | x :: t => if time_ms e <=? time_ms x then e :: l else x :: insert_event e t
  end.
Definition sort_events (l : list BlackframeEvent) : list BlackframeEvent :=
  fold_right insert_event [] l.

(** The run that ends with the loop or at a gap, if it is long enough. *)
Definition push_run (run_start run_end min_duration_ms : Z) : list (Z * Z) :=
  if min_duration_ms <=? wrap_i32 (run_end - run_start) then [(run_start, run_end)] else [].

Fixpoint cluster_loop (min_duration_ms run_start run_end : Z) (l : list BlackframeEvent)
    : list (Z * Z) :=
  match l with
  | [] => push_run run_start run_end min_duration_ms
  | e :: t =>
      if wrap_i32 (time_ms e - run_end) <=? 2000
      then cluster_loop min_duration_ms run_start (time_ms e) t
      else push_run run_start run_end min_duration_ms
           ++ cluster_loop min_duration_ms (time_ms e) (time_ms e) t
  end.

Definition cluster_blackframes (events : list BlackframeEvent) (min_duration_ms : Z)
    : list (Z * Z) :=
  match sort_events events with
  | [] => []
  | e :: t => cluster_loop min_duration_ms (time_ms e) (time_ms e) t
  end.

Definition cluster_silence (events : list SilenceEvent) (min_duration_ms : Z) : list (Z * Z) :=
  map (fun e => (silence_start e, silence_end e))
    (List.filter (fun e => min_duration_ms <=? silence_duration e) events).

Definition intervals_overlap (a b : Z * Z) : bool := (fst a <=? snd b) && (fst b <=? snd a).

Definition credits_segment (span : Z * Z) (source : SegmentSource) (confidence : f32)
    (methods : list string) (search_window : SearchWindow) (runtime_ms : Z)
    (safety : SafetyConfig) : DetectedSegment :=
  apply_safety_padding
    (mk_segment Credits (fst span) (snd span) (snd span) source confidence
       (Json.Object [("methods", Json.Array (map Json.Str methods));
                     ("runtime_ms", json_int runtime_ms);
                     ("window", Json.Object [("start_ms", json_int (window_start search_window));
                                             ("end_ms", json_int (window_end search_window))])]%string))
    safety.

Definition blackframe_credits (sil_window : list (Z * Z)) (search_window : SearchWindow)
    (runtime_ms : Z) (safety : SafetyConfig) (bf : Z * Z) : DetectedSegment :=
  if existsb (intervals_overlap bf) sil_window
  then credits_segment bf Combined (lit 8 10) ["blackframe"; "silence"]%string
         search_window runtime_ms safety
  else credits_segment bf Blackframe (lit 5 10) ["blackframe"]%string
         search_window runtime_ms safety.

Definition combine_credits_signals (blackframes : list BlackframeEvent)
    (silence : list SilenceEvent) (search_window : SearchWindow) (runtime_ms : Z)
    (safety : SafetyConfig) : list DetectedSegment :=
  let min := min_ms (for_type Credits) in
  let bf_window := cluster_blackframes blackframes min in
  let sil_window := cluster_silence silence min in
  map (blackframe_credits sil_window search_window runtime_ms safety) bf_window
  ++ map (fun s => credits_segment s Silence (lit 5 10) ["silence"]%string
                     search_window runtime_ms safety)
       (List.filter (fun s => negb (existsb (fun b => intervals_overlap b s) bf_window)) sil_window).

(** ** Outros *)

(** [saturating_add] and [saturating_sub] of [i32] *)
Definition sat_i32 (n : Z) : Z := Z.max i32_min (Z.min i32_max n).

Definition detect_outro_from_silence (credits_end_ms : Z) (silence : list SilenceEvent)
    (runtime_ms : Z) (is_movie : bool) : option DetectedSegment :=
  let thresholds := for_type Outro in
  let! gap := List.find (fun e => (silence_start e <=? sat_i32 (credits_end_ms + 5000))
                                  && (credits_end_ms <=? silence_end e)
                                  && (silence_end e <? runtime_ms)) silence in
  let start_ms := silence_end gap in
  let end_ms := runtime_ms in
  let duration_ms := sat_i32 (end_ms - start_ms) in
  ensure negb ((duration_ms <? min_ms thresholds) || (max_for thresholds is_movie <? duration_ms)) in
  Some (mk_segment Outro start_ms end_ms end_ms Silence (lit 6 10)
          (Json.Object [("algorithm", Json.Str "silence_gap_v1");
                        ("credits_end_ms", json_int credits_end_ms);
                        ("silence_start_ms", json_int (silence_start gap));
                        ("silence_end_ms", json_int (silence_end gap));
                        ("runtime_ms", json_int runtime_ms)]%string)).

(** ** The worker and the rows it writes *)

(** Fingerprints as the bytes of media_fingerprints. *)
Definition to_le_bytes (n : Z) : list Z :=
  [n mod 256; n / 256 mod 256; n / 65536 mod 256; n / 16777216 mod 256].
Definition encode_raw (raw : list Z) : list Z := flat_map to_le_bytes raw.

Fixpoint decode_chunks (bytes : list Z) : list Z :=
  match bytes with
  | b0 :: b1 :: b2 :: b3 :: t => (b0 + 256 * b1 + 65536 * b2 + 16777216 * b3) :: decode_chunks t
  | _ => []
  end.

(** One row of [load_season_fingerprints]; [None] is its [continue]. *)
Definition load_fingerprint (item : Uuid) (runtime_seconds : Z) (bytes : list Z)
    : option FingerprintWithContext :=
  ensure (length bytes mod 4 =? 0)%nat in
  let raw := decode_chunks bytes in
  ensure negb (length raw =? 0)%nat in
  Some (mk_fingerprint item (wrap_i32 (Z.max runtime_seconds 0 * 1000)) raw).

(** The constraints of the table media_segments on the columns the worker binds
    from a segment. *)
Definition storable (s : DetectedSegment) : bool :=
  (0 <=? start_ms s) && (start_ms s <? end_ms s)
  && (start_ms s <=? skip_to_ms s) && (skip_to_ms s <=? end_ms s)
  && leb F32.zero (confidence s) && leb (confidence s) one.

End Segments.

End Segments.
