(* ===== verification/SegmentsProofs.v ===== *)
(** * Theorems on segment detection

    Which runs of fingerprints count as a common intro, which black frames form
    credits, and that the rows of the worker meet the constraints of their
    table. *)

From Stdlib Require Import SpecFloat.
From stdpp Require Import gmap.
From S2P Require Import Prelude F64 Json Segments.
Import Segments.

Module SegmentsProofs.

(** ** Runs of black frames *)

(** [s] and [e] bound a maximal group of times in which each one is followed by
    another within two seconds. *)
Definition is_cluster (times : list Z) (s e : Z) : Prop :=
  s ∈ times /\ e ∈ times /\ s <= e /\
  (forall t, t ∈ times -> s <= t < e -> exists t', t' ∈ times /\ t < t' <= t + 2000) /\
  (forall t, t ∈ times -> ~ (s - 2000 <= t < s)) /\
  (forall t, t ∈ times -> ~ (e < t <= e + 2000)).

Lemma greatest_below (l : list Z) (x s : Z) :
  s ∈ l -> s < x -> exists t, t ∈ l /\ t < x /\ forall p, p ∈ l -> p < x -> p <= t.
Proof.
  revert s. induction l as [|a l IH]; intros s Hs Hx; [by apply elem_of_nil in Hs|].
  destruct (decide (Exists (fun p => p < x) l)) as [[p [Hp Hpx]]%Exists_exists|N].
  - destruct (IH p Hp Hpx) as (t & Ht & Htx & M).
    destruct (decide (a < x /\ t < a)) as [[A B]|C].
    + exists a. split; [by left|]. split; [done|]. intros q [->|Hq]%elem_of_cons Hqx; [lia|].
      specialize (M q Hq Hqx). lia.
    + exists t. split; [by right|]. split; [done|].
      intros q [->|Hq]%elem_of_cons Hqx; [lia|]. by apply M.
  - apply not_Exists_Forall in N; [|apply _]. rewrite Forall_forall in N.
    apply elem_of_cons in Hs as [->|Hs]; [|by specialize (N s Hs)].
    exists a. split; [by left|]. split; [done|].
    intros q [->|Hq]%elem_of_cons Hqx; [lia|]. by specialize (N q Hq).
Qed.

(** In a group every time but the first is close to an earlier one. *)
Lemma cluster_back (times : list Z) (s e x : Z) :
  is_cluster times s e -> s < x <= e -> exists t, t ∈ times /\ x - 2000 <= t < x.
Proof.
  intros (Hs & _ & _ & C & _) Hx.
  destruct (greatest_below times x s Hs) as (t & Ht & Htx & M); [lia|].
  assert (s <= t) by (apply M; [done|lia]).
  destruct (C t Ht) as (t' & Ht' & L); [lia|]. exists t. split; [done|].
  destruct (Z.lt_ge_cases t' x) as [K|K]; [specialize (M t' Ht' K)|]; lia.
Qed.

Lemma cluster_unique (times : list Z) (s e x y : Z) :
  is_cluster times s e -> is_cluster times x y -> s <= x <= e -> x = s /\ y = e.
Proof.
  intros C D Hx. assert (x = s) as ->.
  { destruct (Z.eq_dec x s) as [|N]; [done|].
    destruct (cluster_back times s e x C) as (t & Ht & L); [lia|].
    destruct D as (_ & _ & _ & _ & D & _). by destruct (D t Ht). }
  split; [done|].
  destruct C as (_ & He & _ & C & _ & Ce), D as (_ & Hy & Hxy & D & _ & Dy).
  destruct (Z.lt_trichotomy y e) as [L|[|L]]; [|done|].
  - destruct (C y Hy) as (t & Ht & K); [lia|]. by destruct (Dy t Ht).
  - destruct (D e He) as (t & Ht & K); [lia|]. by destruct (Ce t Ht).
Qed.

Lemma elem_of_insert_event (x e : BlackframeEvent) (l : list BlackframeEvent) :
  x ∈ insert_event e l <-> x = e \/ x ∈ l.
Proof. induction l as [|y l IH]; cbn; [|case_match]; set_solver. Qed.

Lemma elem_of_sort_events (x : BlackframeEvent) (l : list BlackframeEvent) :
  x ∈ sort_events l <-> x ∈ l.
Proof.
  unfold sort_events. induction l as [|y l IH]; cbn [fold_right]; [done|].
  rewrite elem_of_insert_event, IH. set_solver.
Qed.

Definition before_all (t : Z) (l : list BlackframeEvent) : Prop := Forall (fun e => t <= time_ms e) l.

(** Sorted by time *)
Fixpoint ordered (l : list BlackframeEvent) : Prop :=
  match l with [] => True | e :: t => before_all (time_ms e) t /\ ordered t end.

Lemma insert_event_ordered (e : BlackframeEvent) (l : list BlackframeEvent) :
  ordered l -> ordered (insert_event e l).
Proof.
  induction l as [|y l IH]; cbn [insert_event]; [by repeat constructor|]. intros [B O].
  destruct (time_ms e <=? time_ms y) eqn:L; dk_bool; cbn [ordered]; [|split; [|by apply IH]].
  - split; [|done]. constructor; [done|]. eapply Forall_impl; [exact B|]. cbn. lia.
  - apply Forall_forall. intros x [->|Hx]%elem_of_insert_event; [lia|].
    unfold before_all in B. rewrite Forall_forall in B. by apply B.
Qed.

Lemma sort_events_ordered (l : list BlackframeEvent) : ordered (sort_events l).
Proof. unfold sort_events. induction l; [done|]. by apply insert_event_ordered. Qed.

(** The state of the loop: the run [s..e] of the times before [l] is a group that
    may still grow to the right. *)
Record growing (times : list Z) (s e : Z) (l : list BlackframeEvent) : Prop := mk_growing {
  g_start : s ∈ times;
  g_end : e ∈ times;
  g_le : s <= e;
  g_split : forall t, t ∈ times -> t <= e \/ t ∈ map time_ms l;
  g_rest : forall t, t ∈ map time_ms l -> t ∈ times /\ e <= t;
  g_ordered : ordered l;
  g_chain : forall t, t ∈ times -> s <= t < e -> exists t', t' ∈ times /\ t < t' <= t + 2000;
  g_first : forall t, t ∈ times -> ~ (s - 2000 <= t < s) }.

Lemma growing_closed (times : list Z) (s e : Z) (l : list BlackframeEvent) :
  growing times s e l -> (forall t, t ∈ map time_ms l -> e + 2000 < t) -> is_cluster times s e.
Proof.
  intros G C. destruct G as [A B L Sp R O Ch F]. do 5 (split; [done|]).
  intros t Ht K. apply Sp in Ht as [?|Ht]; [lia|]. apply C in Ht. lia.
Qed.

Lemma elem_of_push_run (s e m x y : Z) :
  0 <= s -> s <= e <= i32_max -> (x, y) ∈ push_run s e m <-> x = s /\ y = e /\ m <= y - x.
Proof.
  intros Hs He. unfold push_run. unfold i32_max in He.
  rewrite wrap_i32_id by (unfold is_i32, i32_min, i32_max; lia).
  destruct (m <=? e - s) eqn:L; dk_bool.
  - rewrite list_elem_of_singleton. split; [by intros [= -> ->]|by intros (-> & -> & _)].
  - rewrite elem_of_nil. split; [done|]. intros (-> & -> & ?). lia.
Qed.

Definition in_range (times : list Z) : Prop := forall t, t ∈ times -> 0 <= t <= i32_max.

Lemma growing_step (times : list Z) (s e : Z) (v : BlackframeEvent) (l : list BlackframeEvent) :
  growing times s e (v :: l) -> time_ms v <= e + 2000 -> growing times s (time_ms v) l.
Proof.
  intros [A B L Sp R O Ch F] K. destruct O as [O1 O2].
  destruct (R (time_ms v)) as [Vt Ve]; [by left|]. constructor; try done.
  - lia.
  - intros t Ht.
    apply Sp in Ht as [?|[->|?]%elem_of_cons]; [left; lia|by left|by right].
  - intros t Ht. split; [apply R; by right|]. unfold before_all in O1. rewrite Forall_forall in O1.
    apply list_elem_of_fmap in Ht as (w & -> & Hw). by apply O1.
  - intros t Ht Hst. apply Sp in Ht as Ht'. destruct Ht' as [Le|[->|Hl]%elem_of_cons]; [|lia|].
    + destruct (Z.eq_dec t e) as [->|]; [exists (time_ms v); split; [done|lia]|].
      apply Ch; [done|lia].
    + unfold before_all in O1. rewrite Forall_forall in O1.
      apply list_elem_of_fmap in Hl as (w & -> & Hw). specialize (O1 w Hw). lia.
Qed.

Lemma growing_restart (times : list Z) (s e : Z) (v : BlackframeEvent) (l : list BlackframeEvent) :
  growing times s e (v :: l) -> e + 2000 < time_ms v -> growing times (time_ms v) (time_ms v) l.
Proof.
  intros [A B L Sp R O Ch F] K. destruct O as [O1 O2]. unfold before_all in O1. rewrite Forall_forall in O1.
  destruct (R (time_ms v)) as [Vt Ve]; [by left|]. constructor; try done; [| |lia|].
  - intros t Ht.
    apply Sp in Ht as [?|[->|?]%elem_of_cons]; [left; lia|by left|by right].
  - intros t Ht. split; [apply R; by right|].
    apply list_elem_of_fmap in Ht as (w & -> & Hw). by apply O1.
  - intros t Ht Hr. apply Sp in Ht as [?|[->|Hl]%elem_of_cons]; [lia|lia|].
    apply list_elem_of_fmap in Hl as (w & -> & Hw). specialize (O1 w Hw). lia.
Qed.

Lemma cluster_loop_spec (times : list Z) (m s e : Z) (l : list BlackframeEvent) (x y : Z) :
  in_range times -> growing times s e l ->
  (x, y) ∈ cluster_loop m s e l <-> is_cluster times x y /\ m <= y - x /\ s <= x.
Proof.
  intros Rg. revert s e. induction l as [|v l IH]; intros s e G; cbn [cluster_loop].
  - pose proof (Rg _ (g_start _ _ _ _ G)). pose proof (Rg _ (g_end _ _ _ _ G)).
    pose proof (g_le _ _ _ _ G). rewrite elem_of_push_run by lia.
    assert (C : is_cluster times s e) by (eapply growing_closed; [done|]; by intros t ?%elem_of_nil).
    split; [intros (-> & -> & K); done || (split; [done|lia])|].
    intros (D & K & Sx). destruct (cluster_unique times s e x y C D) as [-> ->]; [|done].
    split; [done|]. destruct D as (Hx & _).
    by apply (g_split _ _ _ _ G) in Hx as [?|?%elem_of_nil].
  - pose proof (Rg _ (g_start _ _ _ _ G)). pose proof (Rg _ (g_end _ _ _ _ G)) as He.
    destruct (g_rest _ _ _ _ G (time_ms v)) as [Vt Ve]; [by left|].
    pose proof (Rg _ Vt) as Hv. unfold i32_max in He, Hv.
    rewrite wrap_i32_id by (unfold is_i32, i32_min, i32_max; lia).
    destruct (time_ms v - e <=? 2000) eqn:L; dk_bool.
    + apply IH. eapply growing_step; [done|lia].
    + assert (G' : growing times (time_ms v) (time_ms v) l)
        by (eapply growing_restart; [done|lia]).
      pose proof (g_le _ _ _ _ G).
      rewrite elem_of_app, (IH _ _ G'), elem_of_push_run by (unfold i32_max in *; lia).
      assert (C : is_cluster times s e).
      { eapply growing_closed; [done|]. intros t [->|Ht]%elem_of_cons; [lia|].
        apply (g_rest _ _ _ _ G') in Ht. lia. }
      split.
      * intros [(-> & -> & K)|(D & K & Sx)]; (split; [done|]); [|lia]. lia.
      * intros (D & K & Sx). destruct (Z.le_gt_cases x e).
        -- left. destruct (cluster_unique times s e x y C D) as [-> ->]; [lia|]. done.
        -- right. split; [done|]. split; [done|]. destruct D as (Hx & _).
           apply (g_split _ _ _ _ G) in Hx as [?|[->|Hx]%elem_of_cons]; [lia|lia|].
           apply (g_rest _ _ _ _ G') in Hx. lia.
Qed.

Lemma cluster_blackframes_spec (events : list BlackframeEvent) (m x y : Z) :
  in_range (map time_ms events) ->
  (x, y) ∈ cluster_blackframes events m
  <-> is_cluster (map time_ms events) x y /\ m <= y - x.
Proof.
  intros Rg. unfold cluster_blackframes.
  assert (P : forall t, t ∈ map time_ms (sort_events events) <-> t ∈ map time_ms events).
  { intros t. rewrite !list_elem_of_fmap. by setoid_rewrite elem_of_sort_events. }
  pose proof (sort_events_ordered events) as O.
  destruct (sort_events events) as [|v l] eqn:E.
  - split; [by intros ?%elem_of_nil|]. intros [(Hx & _) _]. by apply P, elem_of_nil in Hx.
  - destruct O as [O1 O2]. unfold before_all in O1. rewrite Forall_forall in O1.
    assert (Lv : forall t, t ∈ map time_ms l -> time_ms v <= t).
    { intros t (w & -> & Hw)%list_elem_of_fmap. by apply O1. }
    assert (Vt : time_ms v ∈ map time_ms events) by (apply P; by left).
    rewrite (cluster_loop_spec (map time_ms events)); [|done|].
    + split; [by intros (? & ? & ?)|]. intros [D K]. split; [done|]. split; [done|].
      destruct D as (Hx & _). apply P, elem_of_cons in Hx as [->|Hx]; [done|]. by apply Lv.
    + constructor; try done; [| |lia|].
      * intros t Ht.
        apply P, elem_of_cons in Ht as [->|Ht]; [by left|by right].
      * intros t Ht. split; [apply P; by right|by apply Lv].
      * intros t Ht Hr. apply P, elem_of_cons in Ht as [->|Ht]; [lia|]. apply Lv in Ht. lia.
Qed.

(** ** Common runs of two fingerprints *)

(** [gs] from index [k] on agrees [n] times. *)
Definition run_at (gs : list bool) (k n : nat) : Prop :=
  forall i, (k <= i < k + n)%nat -> gs !! i = Some true.

(** The length of the run the inner loop of [best_pair_match] ends with, on the
    answers of its test; [n] is the length of the current run. *)
Fixpoint scan_len (mn mx n : nat) (gs : list bool) : nat :=
  match gs with
  | [] => n
  | true :: t => if (mx <=? S n)%nat then S n else scan_len mn mx (S n) t
  | false :: t => if (mn <=? n)%nat then n else scan_len mn mx 0 t
  end.

(** The first run of at least [mn] answers: its start and its length, cut at [mx]. *)
Definition first_run_at (gs : list bool) (mn k n : nat) : Prop :=
  run_at gs k n /\ (mn <= n)%nat /\ forall k', (k' < k)%nat -> ~ run_at gs k' mn.

Definition found (gs : list bool) (mn mx len : nat) : Prop :=
  ((len < mn)%nat /\ forall k, ~ run_at gs k mn) \/
  (exists k, first_run_at gs mn k len /\ (len <= mx)%nat /\
             (len = mx \/ gs !! (k + len)%nat <> Some true)).

Lemma run_at_app (gs t : list bool) (k n : nat) : run_at gs k n -> run_at (gs ++ t) k n.
Proof. intros R i Hi. by apply lookup_app_l_Some, R. Qed.

Lemma scan_len_found (mn mx : nat) (gs pre : list bool) (n : nat) :
  (0 < mn <= mx)%nat -> (n <= length pre)%nat -> (n < mx)%nat ->
  run_at (pre ++ gs) (length pre - n) n ->
  (forall k, (k < length pre - n)%nat -> ~ run_at (pre ++ gs) k mn) ->
  found (pre ++ gs) mn mx (scan_len mn mx n gs).
Proof.
  intros Hm. revert pre n. induction gs as [|g gs IH]; intros pre n Hn Hx R N; cbn [scan_len].
  - rewrite app_nil_r in *. destruct (Nat.lt_ge_cases n mn) as [L|L]; [left|right].
    + split; [done|]. intros k K. destruct (Nat.lt_ge_cases k (length pre - n)); [by eapply N|].
      specialize (K (k + mn - 1)%nat ltac:(lia)). by rewrite lookup_ge_None_2 in K by lia.
    + exists (length pre - n)%nat. split; [by split_and!|]. split; [lia|]. right.
      rewrite lookup_ge_None_2; [done|lia].
  - assert (Hl : (pre ++ g :: gs) !! length pre = Some g) by (by apply list_lookup_middle).
    replace (pre ++ g :: gs) with ((pre ++ [g]) ++ gs) in * by (by rewrite <- app_assoc).
    assert (Len : length (pre ++ [g]) = S (length pre)) by (rewrite length_app; cbn; lia).
    destruct g.
    + assert (R' : run_at ((pre ++ [true]) ++ gs) (length pre - n) (S n)).
      { intros i Hi. destruct (decide (i = length pre)) as [->|]; [done|]. apply R. lia. }
      destruct (mx <=? S n)%nat eqn:E; [apply Nat.leb_le in E|apply Nat.leb_gt in E].
      * right. exists (length pre - n)%nat. split; [split_and!; [done|lia|done]|]. lia.
      * apply IH; rewrite ?Len; [lia|lia| |];
          replace (S (length pre) - S n)%nat with (length pre - n)%nat by lia; done.
    + destruct (mn <=? n)%nat eqn:E; [apply Nat.leb_le in E|apply Nat.leb_gt in E].
      * right. exists (length pre - n)%nat. split; [by split_and!|]. split; [lia|]. right.
        replace (length pre - n + n)%nat with (length pre) by lia. by rewrite Hl.
      * apply IH; rewrite ?Len; [lia|lia| |].
        -- intros i Hi. lia.
        -- intros k Hk K. destruct (Nat.lt_ge_cases k (length pre - n)); [by eapply N|].
           specialize (K (length pre) ltac:(lia)). by rewrite Hl in K.
Qed.


(** The answers of the test for the pairs the inner loop may look at. *)
Fixpoint answers (bits window_end idx_a : Z) (pairs : list (Z * Z)) : list bool :=
  match pairs with
  | [] => []
  | (x, y) :: t =>
      if window_end <? idx_a then []
      else (bits <=? bit_agreement x y) :: answers bits window_end (idx_a + 1) t
  end.

Lemma scan_run_len (bits : Z) (mn mx : nat) (window_end idx : Z) (r : Run) (n : nat)
    (pairs : list (Z * Z)) :
  (0 < mx)%nat -> run_len r = Z.of_nat n ->
  run_len (scan_run bits (Z.of_nat mn) (Z.of_nat mx) window_end idx r pairs)
  = Z.of_nat (scan_len mn mx n (answers bits window_end idx pairs)).
Proof.
  intros Hm. revert idx r n. induction pairs as [|[x y] t IH]; intros idx r n E; [done|].
  cbn [scan_run answers]. destruct (window_end <? idx); [done|].
  destruct (bits <=? bit_agreement x y); cbn [scan_len].
  - assert (E' : run_len (extend_run r (bit_agreement x y)) = Z.of_nat (S n)).
    { unfold extend_run. cbn [run_len]. lia. }
    rewrite E'. destruct (mx <=? S n)%nat eqn:L.
    + apply Nat.leb_le in L. rewrite (proj2 (Z.leb_le _ _)) by lia. done.
    + apply Nat.leb_gt in L. rewrite (proj2 (Z.leb_gt _ _)) by lia. by apply IH.
  - rewrite E. destruct (mn <=? n)%nat eqn:L.
    + apply Nat.leb_le in L. rewrite (proj2 (Z.leb_le _ _)) by lia. done.
    + apply Nat.leb_gt in L. rewrite (proj2 (Z.leb_gt _ _)) by lia.
      cbn [reset_run run_len]. rewrite (proj2 (Z.leb_gt _ _)) by lia. by apply IH.
Qed.

Lemma answers_lookup (bits window_end idx : Z) (a b : list Z) (i : nat) :
  answers bits window_end idx (combine a b) !! i = Some true
  <-> exists x y, a !! i = Some x /\ b !! i = Some y /\ idx + Z.of_nat i <= window_end /\
                  bits <= bit_agreement x y.
Proof.
  revert idx b i. induction a as [|x a IH]; intros idx b i; [by split; [|intros (? & ? & ? & _)]|].
  destruct b as [|y b]; [by split; [|intros (? & ? & _ & ? & _)]|].
  cbn [combine answers]. destruct (window_end <? idx) eqn:W; dk_bool.
  { split; [done|]. intros (? & ? & _ & _ & ? & _). lia. }
  destruct i as [|i].
  - change (Some (bits <=? bit_agreement x y) = Some true <->
            exists x0 y0, Some x = Some x0 /\ Some y = Some y0 /\ idx + Z.of_nat 0 <= window_end /\
                          bits <= bit_agreement x0 y0).
    split.
    + intros [= B]. dk_bool. exists x, y. repeat split; [lia|done].
    + intros (? & ? & [= <-] & [= <-] & _ & B). f_equal. by apply Z.leb_le.
  - change (answers bits window_end (idx + 1) (combine a b) !! i = Some true <->
            exists x0 y0, a !! i = Some x0 /\ b !! i = Some y0 /\
                          idx + Z.of_nat (S i) <= window_end /\ bits <= bit_agreement x0 y0).
    rewrite IH. replace (idx + 1 + Z.of_nat i) with (idx + Z.of_nat (S i)) by lia. done.
Qed.

Lemma tl_drop {A} (n : nat) (l : list A) : tl (drop n l) = drop (S n) l.
Proof. revert n. induction l as [|x l IH]; intros [|n]; try done. exact (IH n). Qed.

Section Pairs.
Context {Uuid : Type} `{Countable Uuid} (nil_uuid : Uuid).
Implicit Types a b : @FingerprintWithContext Uuid.

(** From index [k] of [b] on, [n] sub-fingerprints agree with those of [a] behind
    [offset], inside the window in which an intro is searched. *)
Definition aligned_run (th : ChromaprintThresholds) a b (offset k n : nat) : Prop :=
  forall i, (k <= i < k + n)%nat ->
  exists x y, fingerprint a !! (offset + i)%nat = Some x /\ fingerprint b !! i = Some y /\
              Z.of_nat (offset + i) <= common_window_end a b th /\
              min_bit_agreement th <= bit_agreement x y.

(** The first run of this alignment that is at least [mn] long. *)
Definition first_common_run (th : ChromaprintThresholds) a b (mn : Z) (offset k n : nat) : Prop :=
  Z.of_nat offset + mn < Z.of_nat (length (fingerprint a)) /\
  mn <= Z.of_nat n /\ aligned_run th a b offset k n /\
  forall k', (k' < k)%nat -> ~ aligned_run th a b offset k' (Z.to_nat mn).

Definition alignment (th : ChromaprintThresholds) a b (offset : nat) : list bool :=
  answers (min_bit_agreement th) (common_window_end a b th) (Z.of_nat offset)
    (combine (drop offset (fingerprint a)) (fingerprint b)).

Lemma run_at_alignment (th : ChromaprintThresholds) a b (offset k n : nat) :
  run_at (alignment th a b offset) k n <-> aligned_run th a b offset k n.
Proof.
  unfold run_at, aligned_run, alignment. setoid_rewrite answers_lookup. setoid_rewrite lookup_drop.
  by setoid_rewrite Nat2Z.inj_add.
Qed.

Lemma alignment_beyond (th : ChromaprintThresholds) a b (offset : nat) :
  common_window_end a b th < Z.of_nat offset -> alignment th a b offset = [].
Proof.
  intros L. unfold alignment. destruct (combine _ _) as [|[x y] t]; [done|]. cbn [answers].
  by rewrite (proj2 (Z.ltb_lt _ _)).
Qed.

Definition len_at (th : ChromaprintThresholds) (mn mx : nat) a b (offset : nat) : nat :=
  scan_len mn mx 0 (alignment th a b offset).

Lemma len_at_found (th : ChromaprintThresholds) (mn mx : nat) a b (offset : nat) :
  (0 < mn <= mx)%nat -> found (alignment th a b offset) mn mx (len_at th mn mx a b offset).
Proof.
  intros Hm. apply (scan_len_found mn mx _ []); cbn; try lia.
  all: intros i Hi; lia.
Qed.

(** What the outer loop adds to the best run so far. *)
Definition improves (best : Best) (len : Z) : Prop :=
  exists o l s, best = Some (o, l, s) /\ len <= l.

Lemma scan_offsets_spec (th : ChromaprintThresholds) (mn mx : nat) a b (n off : nat) (best : Best) :
  (0 < mn <= mx)%nat ->
  let r := scan_offsets (min_bit_agreement th) (Z.of_nat mn) (Z.of_nat mx)
             (common_window_end a b th) n (Z.of_nat off) (drop off (fingerprint a))
             (fingerprint b) best in
  (forall o l s, r = Some (o, l, s) -> best = Some (o, l, s) \/
     exists o', o = Z.of_nat o' /\ (off <= o' < off + n)%nat /\
                l = Z.of_nat (len_at th mn mx a b o') /\ Z.of_nat mn <= l) /\
  (forall o l s, best = Some (o, l, s) -> improves r l) /\
  (forall o', (off <= o' < off + n)%nat -> (mn <= len_at th mn mx a b o')%nat ->
     improves r (Z.of_nat (len_at th mn mx a b o'))).
Proof.
  intros Hm. revert off best. induction n as [|n IH]; intros off best r.
  { subst r. cbn [scan_offsets]. split; [by left|]. split; [|intros o' ?; lia].
    intros o l s ->. by exists o, l, s. }
  subst r. cbn [scan_offsets]. destruct (common_window_end a b th <? Z.of_nat off) eqn:W; dk_bool.
  { split; [by left|]. split; [intros o l s ->; by exists o, l, s|].
    intros o' Ho L. unfold len_at in L. rewrite alignment_beyond in L by lia. cbn in L. lia. }
  set (run := scan_run _ _ _ _ _ _ _).
  assert (L : run_len run = Z.of_nat (len_at th mn mx a b off)) by (apply scan_run_len; [lia|done]).
  replace (tl (drop off (fingerprint a))) with (drop (S off) (fingerprint a))
    by (by rewrite tl_drop).
  replace (Z.of_nat off + 1) with (Z.of_nat (S off)) by lia.
  set (best' := if (Z.of_nat mn <=? run_len run)
                   && better best (run_len run) (run_best_similarity run)
                then Some (Z.of_nat off, run_len run, run_best_similarity run) else best).
    assert (M : forall o l s, best = Some (o, l, s) -> improves best' l).
  { intros o l s ->. unfold best'. rewrite L. cbn [better]. clear best'.
    destruct ((Z.of_nat mn <=? _) && _) eqn:E; [|by exists o, l, s].
    apply andb_true_iff in E as [_ E]. eexists _, _, _. split; [done|].
    apply orb_true_iff in E as [E|E]; [|apply andb_true_iff in E as [E _]]; dk_bool; lia. }
  assert (K : (mn <= len_at th mn mx a b off)%nat ->
              improves best' (Z.of_nat (len_at th mn mx a b off))).
  { intros Le. unfold best'. rewrite L, (proj2 (Z.leb_le _ _)) by lia. cbn [andb].
    destruct best as [[[o l] s]|]; cbn [better]; [|by eexists _, _, _].
    destruct (_ || _) eqn:E; [by eexists _, _, _|]. apply orb_false_iff in E as [E _]. dk_bool.
    by exists o, l, s. }
  assert (T : forall len, improves best' len ->
     improves (scan_offsets (min_bit_agreement th) (Z.of_nat mn) (Z.of_nat mx)
       (common_window_end a b th) n (Z.of_nat (S off)) (drop (S off) (fingerprint a))
       (fingerprint b) best') len).
  { intros len (o & l & s & E & Le). destruct (proj1 (proj2 (IH (S off) best')) o l s E) as (o' & l' & s' & E' & Le').
    exists o', l', s'. split; [done|lia]. }
  destruct (IH (S off) best') as (A & B & C). split_and!.
  - intros o l s E. destruct (A o l s E) as [E'|(o' & -> & Ho & F)].
    + unfold best' in E'. destruct ((Z.of_nat mn <=? _) && _) eqn:Q; [|by left].
      apply andb_true_iff in Q as [Q _]. dk_bool. right. injection E' as <- <- _.
      exists off. rewrite L in Q |- *. split_and!; [done|lia|lia|done|lia].
    + right. exists o'. split; [done|]. split; [lia|done].
  - intros o l s E. apply T. by eapply M.
  - intros o' Ho Le. destruct (decide (o' = off)) as [->|]; [by apply T, K|]. apply C; [lia|done].
Qed.

(** The period of a sub-fingerprint is at most the shortest intro. *)
Definition sane_period (th : ChromaprintThresholds) : Prop := 0 < subfp_period_ms th <= 15000.

Lemma usize_small (n : Z) : 0 <= n <= 2147483647 -> usize_of_i32 n = n.
Proof. intros Hn. unfold usize_of_i32, u64_max. apply Z.mod_small. lia. Qed.

Lemma to_subfps (ms p : Z) :
  0 <= ms <= 2147483647 -> 0 < p <= 15000 -> duration_to_subfps ms p = ms / p.
Proof.
  intros Hm Hp. unfold duration_to_subfps. rewrite (proj2 (Z.leb_gt _ _)) by lia.
  by rewrite !usize_small by lia.
Qed.

Lemma run_limits (th : ChromaprintThresholds) :
  sane_period th ->
  min_run_of th = 15000 / subfp_period_ms th /\ max_run_of th = 120000 / subfp_period_ms th /\
  1 <= min_run_of th <= max_run_of th.
Proof.
  intros Hp. unfold min_run_of, max_run_of. cbn [for_type min_ms max_tv_ms].
  rewrite !to_subfps by (unfold sane_period in Hp; lia). split; [done|]. split; [done|].
  unfold sane_period in Hp. split; [apply Z.div_le_lower_bound; lia|apply Z.div_le_mono; lia].
Qed.

Lemma intro_window_end (runtime : Z) :
  0 <= window_end (intro_search_window_ms runtime false) <= 600000.
Proof. unfold intro_search_window_ms. cbn [window_end]. lia. Qed.

Lemma common_window_bounds (th : ChromaprintThresholds) a b :
  sane_period th ->
  0 <= common_window_end a b th /\ common_window_end a b th * subfp_period_ms th <= 600000.
Proof.
  intros Hp. unfold common_window_end, ms_to_subfp.
  pose proof (intro_window_end (runtime_ms a)). pose proof (intro_window_end (runtime_ms b)).
  unfold sane_period in Hp. rewrite to_subfps by lia. set (w := Z.min _ _). split.
  - apply Z.div_pos; lia.
  - rewrite Z.mul_comm. transitivity w; [apply Z.mul_div_le; lia|lia].
Qed.

Lemma subfp_to_ms_small (n p : Z) : 0 <= n -> n * p <= 615000 -> 1 <= p -> subfp_to_ms n p = n * p.
Proof.
  intros Hn Hp P. assert (n <= 615000) by nia. unfold subfp_to_ms.
  rewrite (wrap_i32_id n), wrap_i32_id; unfold is_i32, i32_min, i32_max; nia.
Qed.

(** The end of a run lies within the window. *)
Lemma aligned_run_end (th : ChromaprintThresholds) a b (offset k n : nat) :
  aligned_run th a b offset k n -> (0 < n)%nat ->
  Z.of_nat (offset + k + n) <= common_window_end a b th + 1.
Proof. intros R Hn. destruct (R (k + n - 1)%nat) as (_ & _ & _ & _ & L & _); lia. Qed.

Section Found.
Context (th : ChromaprintThresholds) (a b : @FingerprintWithContext Uuid).
Context (P : sane_period th).

Let p : Z := subfp_period_ms th.
Let mn : nat := Z.to_nat (min_run_of th).
Let mx : nat := Z.to_nat (max_run_of th).

Lemma run_limits_nat :
  min_run_of th = Z.of_nat mn /\ max_run_of th = Z.of_nat mx /\ (0 < mn <= mx)%nat /\
  Z.of_nat mn * p <= 15000 /\ Z.of_nat mx * p <= 120000 /\ 105000 <= Z.of_nat mx * p.
Proof.
  destruct (run_limits th P) as (E1 & E2 & L). subst mn mx p. rewrite !Z2Nat.id by lia.
  split; [done|]. split; [done|]. split; [lia|]. rewrite E1, E2.
  pose proof P as Hp. unfold sane_period in Hp.
  pose proof (Z.mul_div_le 15000 (subfp_period_ms th)).
  pose proof (Z.mul_div_le 120000 (subfp_period_ms th)).
  pose proof (Z.mul_succ_div_gt 120000 (subfp_period_ms th)). nia.
Qed.

Lemma best_run_spec :
  (forall o l s, best_run a b th (min_run_of th) (max_run_of th) = Some (o, l, s) ->
     exists o', o = Z.of_nat o' /\ Z.of_nat o' + min_run_of th < Z.of_nat (length (fingerprint a)) /\
                l = Z.of_nat (len_at th mn mx a b o') /\ Z.of_nat mn <= l) /\
  (forall o', Z.of_nat o' + min_run_of th < Z.of_nat (length (fingerprint a)) ->
     (mn <= len_at th mn mx a b o')%nat ->
     improves (best_run a b th (min_run_of th) (max_run_of th)) (Z.of_nat (len_at th mn mx a b o'))).
Proof.
  destruct run_limits_nat as (E1 & E2 & L & _). unfold best_run. rewrite E1, E2.
  set (n := Z.to_nat (sat_sub _ _)).
  assert (Hn : forall o', (0 <= o' < 0 + n)%nat
               <-> Z.of_nat o' + Z.of_nat mn < Z.of_nat (length (fingerprint a))).
  { intros o'. unfold n, sat_sub. lia. }
  destruct (scan_offsets_spec th mn mx a b n 0 None L) as (A & _ & C). split.
  - intros o l s E. destruct (A o l s E) as [?|(o' & -> & Ho & F)]; [done|].
    apply Hn in Ho. by exists o'.
  - intros o' Ho Le. apply Hn in Ho. by apply C.
Qed.

Lemma pair_match_some (m : RecurringMatch) :
  best_pair_match nil_uuid a b th (min_run_of th) (max_run_of th) = Some m ->
  exists offset k n, first_common_run th a b (min_run_of th) offset k n /\
    15000 <= Z.of_nat n * p <= 120000 /\
    match_start m = Z.of_nat offset * p /\ match_end m = Z.of_nat (offset + n) * p /\
    match_end m <= 615000 /\ match_type m = Intro.
Proof.
  destruct run_limits_nat as (E1 & E2 & L & B1 & B2 & _).
  pose proof (common_window_bounds th a b P) as [W0 W1]. pose proof P as Hp. unfold sane_period in Hp.
  unfold best_pair_match. destruct (best_run _ _ _ _ _) as [[[o l] s]|] eqn:E; [|done].
  destruct (proj1 best_run_spec o l s E) as (offset & -> & Ho & -> & Hl).
  destruct (len_at_found th mn mx a b offset L) as [[F _]|(k & (R & Hn & N) & Hx & _)]; [lia|].
  set (n := len_at th mn mx a b offset) in *. apply run_at_alignment in R.
  pose proof (aligned_run_end th a b offset k n R ltac:(lia)) as En.
  assert (S : (Z.of_nat offset + Z.of_nat n) * p <= 615000) by (subst p; nia).
  rewrite Z.min_l, Z.min_l by lia.
  destruct (_ <=? Z.of_nat offset) eqn:C; [done|]. cbn [negb]. dk_bool. fold p.
  rewrite !subfp_to_ms_small by (subst p; nia). rewrite wrap_i32_id
    by (unfold is_i32, i32_min, i32_max; subst p; nia).
  destruct (_ <? _) eqn:D; [done|]. cbn [negb for_type min_ms] in *. dk_bool. intros [= <-].
  exists offset, k, n. cbn [match_start match_end match_type]. split.
  - split; [done|]. split; [lia|]. split; [done|]. intros k' Hk R'. rewrite E1, Nat2Z.id in R'.
    destruct (N k' Hk). by apply run_at_alignment.
  - assert (Z.of_nat n <= Z.of_nat mx) by lia. subst p. split_and!; [nia|nia|lia|nia|nia|done].
Qed.


End Found.
End Pairs.

(** ** Segments the table accepts *)

Lemma storable_iff (s : DetectedSegment) :
  storable s = true <->
  (0 <= start_ms s < end_ms s /\ start_ms s <= skip_to_ms s <= end_ms s) /\
  F32.leb F32.zero (confidence s) = true /\ F32.leb (confidence s) F32.one = true.
Proof. unfold storable. rewrite !andb_true_iff, !Z.leb_le, Z.ltb_lt. naive_solver lia. Qed.

(** Paddings the configuration may hold without leaving the 32 bits of a time. *)
Definition sane_safety (safety : SafetyConfig) (last_ms : Z) : Prop :=
  0 <= intro_end_padding_ms safety <= i32_max /\
  0 <= credits_end_padding_ms safety /\ last_ms + credits_end_padding_ms safety <= i32_max.

(** A segment before its padding, and after it. *)
Definition well_placed (s : DetectedSegment) : Prop :=
  0 <= start_ms s < end_ms s /\ end_ms s <= i32_max /\
  F32.leb F32.zero (confidence s) = true /\ F32.leb (confidence s) F32.one = true.

Lemma padding_frame (s : DetectedSegment) (safety : SafetyConfig) :
  apply_safety_padding s safety = with_skip (skip_to_ms (apply_safety_padding s safety)) s.
Proof. unfold apply_safety_padding. by destruct (segment_type s). Qed.

Lemma padding_end (s : DetectedSegment) (safety : SafetyConfig) :
  end_ms (apply_safety_padding s safety) = end_ms s.
Proof. by rewrite padding_frame. Qed.

Lemma padded_storable (s : DetectedSegment) (safety : SafetyConfig) :
  well_placed s -> sane_safety safety (end_ms s) ->
  storable (apply_safety_padding s safety) = true.
Proof.
  intros (T & M & C0 & C1) (I & Cr & Le). apply storable_iff. unfold i32_max in *.
  unfold apply_safety_padding. destruct (segment_type s); cbn [with_skip start_ms end_ms skip_to_ms confidence];
    (split; [|done]); rewrite ?wrap_i32_id by (unfold is_i32, i32_min, i32_max; lia); lia.
Qed.

Lemma surfaced_storable (s : DetectedSegment) (safety : SafetyConfig) :
  storable (mark_surfaced s safety) = storable s.
Proof. done. Qed.

Lemma round_aux_nonneg (prec emax mx ex : Z) (lx : location) :
  0 <= F64.round_i32 (binary_round_aux prec emax false mx ex lx).
Proof.
  unfold binary_round_aux. destruct (shr_fexp _ _ _ _ _) as [mrs e]. destruct (shr_fexp _ _ _ _ _) as [mrs' e'].
  destruct (shr_m mrs') as [|m|m]; cbn [F64.round_i32 F64.round]; try (unfold F64.clamp, i32_min, i32_max; lia).
  destruct (e' <=? _); [|done]. cbn [F64.round_i32 F64.round].
  unfold F64.clamp, i32_min, i32_max.
  assert (0 <= (if 0 <=? e' then Z.pos m * 2 ^ e' else (2 * Z.pos m + 2 ^ - e') / (2 * 2 ^ - e'))); [|lia].
  destruct (0 <=? e') eqn:L; dk_bool; [pose proof (Z.pow_nonneg 2 e'); nia|].
  pose proof (Z.pow_pos_nonneg 2 (- e') ltac:(lia) ltac:(lia)). apply Z.div_pos; lia.
Qed.

Lemma thousand_is : exists m e, F64.of_Z 1000 = S754_finite false m e.
Proof. vm_compute. by eexists _, _. Qed.

Lemma seconds_nonneg (x : F64.f64) :
  F64.is_finite x = true -> F64.ltb x F64.zero = false ->
  0 <= F64.round_i32 (F64.mul x (F64.of_Z 1000)).
Proof.
  destruct thousand_is as (m & e & ->). unfold F64.mul, SFmul.
  destruct x as [[]|s| |[] mx ex]; try done; intros _ _; cbn [xorb]. by apply round_aux_nonneg.
Qed.

Lemma round_i32_range (x : F64.f64) : is_i32 (F64.round_i32 x).
Proof. destruct x as [s|[]| |s m e]; cbn [F64.round_i32]; unfold F64.clamp, is_i32, i32_min, i32_max; lia. Qed.

Lemma chapter_time_range (s : string) (t : Z) : parse_chapter_time_ms s = Some t -> 0 <= t <= i32_max.
Proof.
  unfold parse_chapter_time_ms. destruct (Str.is_empty (Str.trim s)); [done|]. cbn [negb].
  destruct (if Str.contains_char _ _ then _ else _) as [x|]; [|done].
  destruct (F64.is_finite x) eqn:Fx; [|done]. destruct (F64.ltb x F64.zero) eqn:Lx; [done|].
  cbn [negb andb]. intros [= <-]. split; [by apply seconds_nonneg|]. apply round_i32_range.
Qed.

Lemma chapter_range (streams : Json.Value) (c : ChapterInfo) :
  c ∈ extract_chapters streams -> 0 <= chapter_start c < chapter_end c /\ chapter_end c <= i32_max.
Proof.
  unfold extract_chapters. destruct (match Json.get _ _ with Some _ => _ | None => _ end) as [l|];
    [|by intros ?%elem_of_nil].
  intros (ch & _ & Hc)%list_elem_of_omap. unfold extract_chapter in Hc.
  destruct (match string_at "start_time" ch with Some _ => _ | None => _ end) as [st|] eqn:Es; [|done].
  destruct (match string_at "end_time" ch with Some _ => _ | None => _ end) as [en|] eqn:Ee; [|done].
  destruct (string_at "start_time" ch) as [s1|]; [|done]. apply chapter_time_range in Es.
  destruct (string_at "end_time" ch) as [s2|]; [|done]. apply chapter_time_range in Ee.
  destruct (en <=? st) eqn:L; [done|]. dk_bool. cbn [negb] in Hc.
  injection Hc as <-. cbn [chapter_start chapter_end]. lia.
Qed.

Lemma chapter_storable (safety : SafetyConfig) (is_match : string -> string -> bool)
    (streams : Json.Value) (c : ChapterInfo) (runtime : Z) (is_movie : bool) (s : DetectedSegment) :
  c ∈ extract_chapters streams -> chapter_segment is_match c runtime safety is_movie = Some s ->
  sane_safety safety (end_ms s) -> storable s = true.
Proof.
  intros Hc%chapter_range. unfold chapter_segment.
  destruct (title c) as [t|]; [|done]. destruct (classify_chapter_title is_match t) as [ty|]; [|done].
  destruct (_ || _); [done|]. cbn [negb]. intros [= <-] Sf. rewrite surfaced_storable.
  apply padded_storable; [|by rewrite <- (padding_end _ safety)].
  split; [cbn [start_ms end_ms]; lia|]. split; [cbn [end_ms]; lia|]. done.
Qed.

(** *** Fingerprints *)

Section Season.
Context {Uuid : Type} `{Countable Uuid} (nil_uuid : Uuid).
Context (th : ChromaprintThresholds) (P : sane_period th).

Definition placed_match (m : @RecurringMatch Uuid) : Prop :=
  match_type m = Intro /\ 0 <= match_start m < match_end m /\ match_end m <= 615000.

Definition all_placed (by_item : gmap Uuid RecurringMatch) : Prop :=
  map_Forall (fun _ m => placed_match m) by_item.

Lemma record_match_placed (m : RecurringMatch) (by_item : gmap Uuid RecurringMatch) :
  placed_match m -> all_placed by_item -> all_placed (record_match m by_item).
Proof.
  intros Hm A. unfold record_match. destruct (by_item !! match_item m) as [e|] eqn:E.
  - apply map_Forall_insert_2; [|done]. pose proof (A _ _ E) as He.
    by destruct (F32.ltb (similarity e) (similarity m)).
  - by apply map_Forall_insert_2.
Qed.

Lemma compare_pair_placed (by_item : gmap Uuid RecurringMatch) (a b : FingerprintWithContext) :
  all_placed by_item -> all_placed (compare_pair nil_uuid th by_item a b).
Proof.
  intros A. unfold compare_pair. destruct (_ || _); [done|].
  destruct (best_pair_match _ _ _ _ _ _) as [m|] eqn:E; [|done].
  destruct (pair_match_some nil_uuid th a b P m E) as (o & k & n & _ & L & S & T & M & Ty).
  assert (placed_match m) by (split; [done|]; unfold sane_period in P; split; [nia|done]).
  by repeat apply record_match_placed.
Qed.

Lemma compare_all_placed (l : list FingerprintWithContext) (by_item : gmap Uuid RecurringMatch) :
  all_placed by_item -> all_placed (compare_all nil_uuid th by_item l).
Proof.
  revert by_item. induction l as [|a l IH]; intros by_item A; cbn [compare_all]; [done|].
  apply IH. clear IH. generalize dependent by_item. generalize l. intros t.
  induction t as [|b t IHt]; intros by_item A; cbn [fold_left]; [done|].
  by apply IHt, compare_pair_placed.
Qed.

Lemma recurring_placed (season : list FingerprintWithContext) (item : Uuid) (m : RecurringMatch) :
  find_recurring_segments nil_uuid season th !! item = Some m -> placed_match m.
Proof.
  unfold find_recurring_segments. destruct (_ <? 2)%nat; [by rewrite lookup_empty|].
  intros E. refine (compare_all_placed season ∅ _ item m E). apply map_Forall_empty.
Qed.

Lemma recurring_storable (season : list FingerprintWithContext) (item : Uuid) (m : RecurringMatch)
    (runtime : Z) (safety : SafetyConfig) :
  find_recurring_segments nil_uuid season th !! item = Some m ->
  0 <= intro_end_padding_ms safety <= i32_max ->
  storable (mark_surfaced (chromaprint_match_to_segment m th false false runtime safety) safety) = true.
Proof.
  intros (Ty & S & M)%recurring_placed I. rewrite surfaced_storable. apply storable_iff.
  unfold i32_max in *. unfold chromaprint_match_to_segment, apply_safety_padding.
  cbn [segment_type]. rewrite Ty. cbn [with_skip start_ms end_ms skip_to_ms confidence].
  rewrite wrap_i32_id by (unfold is_i32, i32_min, i32_max; lia). split; [lia|].
  by destruct (_ <=? _).
Qed.

End Season.

(** *** Credits and outros *)

Lemma credits_window (runtime : Z) (is_movie : bool) (t : Z) :
  window_start (credits_search_window_ms runtime is_movie) <= t ->
  0 <= t.
Proof. unfold credits_search_window_ms. destruct is_movie; cbn [window_start]; lia. Qed.

Lemma blackframe_time (line : string) (e : BlackframeEvent) :
  parse_blackframe_line line = Some e -> is_i32 (time_ms e).
Proof.
  unfold parse_blackframe_line. destruct (Str.contains _ _); [|done].
  destruct (parse_kv_i64 _ _); [|done]. destruct (parse_kv_u8 _ _); [|done].
  destruct (parse_kv_f64_ms _ _) as [t|] eqn:E; [|done]. intros [= <-]. cbn [time_ms].
  unfold parse_kv_f64_ms in E. destruct (Str.after _ _); [|done].
  destruct (parse_leading_f64 _); [|done]. injection E as <-. apply round_i32_range.
Qed.

(** Every black frame that is kept lies in the window, at a time of its type. *)
Lemma blackframes_in_window (w : SearchWindow) (out : Output) (events : list BlackframeEvent) (t : Z) :
  detect_blackframes w out = Ok events -> t ∈ map time_ms events ->
  window_start w <= t <= window_end w /\ t <= i32_max.
Proof.
  unfold detect_blackframes. destruct (success out); [|done]. cbn [negb]. intros [= <-].
  intros (e & -> & He)%list_elem_of_fmap. apply list_elem_of_In, filter_In in He as [He W].
  apply andb_true_iff in W as [W1 W2]. dk_bool. split; [lia|].
  apply list_elem_of_In, list_elem_of_omap in He as (line & _ & He). by apply blackframe_time in He as [_ ?].
Qed.

Lemma credits_blackframes_range (runtime : Z) (is_movie : bool) (out : Output)
    (events : list BlackframeEvent) :
  detect_blackframes (credits_search_window_ms runtime is_movie) out = Ok events ->
  in_range (map time_ms events).
Proof.
  intros E t Ht. destruct (blackframes_in_window _ _ _ _ E Ht) as [W M]. split; [|done].
  apply (credits_window runtime is_movie). lia.
Qed.

Lemma credits_storable (span : Z * Z) (src : SegmentSource) (conf : F32.f32) (methods : list string)
    (w : SearchWindow) (runtime : Z) (safety : SafetyConfig) :
  0 <= span.1 < span.2 -> span.2 <= i32_max ->
  F32.leb F32.zero conf = true -> F32.leb conf F32.one = true ->
  sane_safety safety (end_ms (credits_segment span src conf methods w runtime safety)) ->
  storable (credits_segment span src conf methods w runtime safety) = true.
Proof.
  intros S M C0 C1 Sf. unfold credits_segment in *. rewrite padding_end in Sf.
  by apply padded_storable.
Qed.

Lemma credits_start (span : Z * Z) (src : SegmentSource) (conf : F32.f32) (methods : list string)
    (w : SearchWindow) (runtime : Z) (safety : SafetyConfig) :
  start_ms (credits_segment span src conf methods w runtime safety) = span.1.
Proof. unfold credits_segment. by rewrite padding_frame. Qed.

(** The silences FFmpeg reports are ended after they began. *)
Definition orderly (silence : list SilenceEvent) : Prop :=
  Forall (fun e => silence_start e <= silence_end e) silence.

Lemma silence_lines_range (lines : list string) (current : option Z) (e : SilenceEvent) :
  (forall s, current = Some s -> is_i32 s) -> e ∈ silence_lines current lines ->
  is_i32 (silence_start e) /\ is_i32 (silence_end e) /\
  silence_duration e = wrap_i32 (silence_end e - silence_start e).
Proof.
  revert current. induction lines as [|line t IH]; intros current C; cbn [silence_lines];
    [by intros ?%elem_of_nil|].
  unfold silence_line. destruct (Str.contains _ _); cbn [negb]; [|by apply IH].
  destruct (split_nth_1 "silence_start:" line) as [rest|].
  { apply IH. destruct (parse_leading_f64 rest); [|done]. intros ? [= <-]. apply round_i32_range. }
  destruct (match split_nth_1 "silence_end:" line with Some _ => _ | None => _ end) as [x|];
    [|by apply IH].
  destruct current as [s|]; [|by apply IH]. intros [->|He]%elem_of_cons; [|by apply (IH None)].
  split; [by apply C|]. split; [apply round_i32_range|done].
Qed.

Lemma silence_range (out : Output) (silence : list SilenceEvent) (e : SilenceEvent) :
  detect_silence out = Ok silence -> e ∈ silence ->
  is_i32 (silence_start e) /\ is_i32 (silence_end e) /\
  silence_duration e = wrap_i32 (silence_end e - silence_start e).
Proof.
  unfold detect_silence. destruct (success out); [|done]. cbn [negb]. intros [= <-].
  by apply silence_lines_range.
Qed.

Lemma long_silence (out : Output) (silence : list SilenceEvent) (span : Z * Z) :
  detect_silence out = Ok silence -> orderly silence -> 0 <= span.1 ->
  span ∈ cluster_silence silence 15000 -> span.1 < span.2 /\ span.2 <= i32_max.
Proof.
  intros D O S (e & -> & He)%list_elem_of_fmap. apply list_elem_of_In, filter_In in He as [He L].
  apply list_elem_of_In in He. destruct (silence_range _ _ _ D He) as (R1 & R2 & Du). dk_bool.
  unfold orderly in O. rewrite Forall_forall in O. specialize (O e He). cbn [fst snd] in *.
  unfold is_i32, i32_min, i32_max in *.
  rewrite wrap_i32_id in Du by (unfold is_i32, i32_min, i32_max; lia). lia.
Qed.

Lemma combined_storable (runtime : Z) (is_movie : bool) (out_black out_silence : Output)
    (blackframes : list BlackframeEvent) (silence : list SilenceEvent) (safety : SafetyConfig)
    (s : DetectedSegment) :
  detect_blackframes (credits_search_window_ms runtime is_movie) out_black = Ok blackframes ->
  detect_silence out_silence = Ok silence -> orderly silence ->
  s ∈ combine_credits_signals blackframes silence
        (credits_search_window_ms runtime is_movie) runtime safety ->
  sane_safety safety (end_ms s) ->
  storable s = true \/ (segment_type s = Credits /\ source s = Silence /\ start_ms s < 0).
Proof.
  intros B D O Hs Sf. unfold combine_credits_signals in Hs.
  apply elem_of_app in Hs as [Hs|Hs]; apply list_elem_of_fmap in Hs as ([x y] & -> & Hs).
  - left. change (min_ms (for_type Credits)) with 15000 in *.
    pose proof (credits_blackframes_range _ _ _ _ B) as R.
    apply cluster_blackframes_spec in Hs as [(Hx & Hy & Hxy & _) L]; [|done].
    pose proof (R x Hx). pose proof (R y Hy).
    unfold blackframe_credits in *. destruct (existsb _ _);
      (apply credits_storable; cbn [fst snd]; [lia|lia|done|done|done]).
  - apply list_elem_of_In, filter_In in Hs as [Hs _]. apply list_elem_of_In in Hs.
    destruct (Z.lt_ge_cases x 0) as [N|N].
    + right. rewrite credits_start. unfold credits_segment. rewrite padding_frame. done.
    + left. destruct (long_silence _ _ (x, y) D O N Hs) as [L1 L2].
      apply credits_storable; done.
Qed.

Lemma outro_storable (credits_end : Z) (out : Output) (silence : list SilenceEvent) (runtime : Z)
    (is_movie : bool) (s : DetectedSegment) :
  0 <= credits_end -> runtime <= i32_max -> detect_silence out = Ok silence ->
  detect_outro_from_silence credits_end silence runtime is_movie = Some s -> storable s = true.
Proof.
  intros C R D. unfold detect_outro_from_silence.
  destruct (List.find _ silence) as [gap|] eqn:F; [|done].
  apply find_some in F as [_ F]. apply andb_true_iff in F as [F F3].
  apply andb_true_iff in F as [_ F2]. dk_bool. destruct (_ || _); [done|]. cbn [negb].
  intros [= <-]. apply storable_iff. cbn [start_ms end_ms skip_to_ms confidence].
  split; [lia|]. by vm_compute.
Qed.

(** The segments of each step of [analyze_library_inner] that reach
    [insert_segment], for any answer of FFmpeg and any stored rows. *)
Inductive detected {Uuid : Type} `{Countable Uuid} (nil_uuid : Uuid)
    (is_match : string -> string -> bool) (safety : SafetyConfig) : DetectedSegment -> Prop :=
| from_chapter streams chapter runtime is_movie s :
    chapter ∈ extract_chapters streams ->
    chapter_segment is_match chapter runtime safety is_movie = Some s ->
    detected nil_uuid is_match safety s
| from_fingerprints season item m runtime :
    find_recurring_segments nil_uuid season default_chromaprint !! item = Some m ->
    detected nil_uuid is_match safety
      (mark_surfaced
         (chromaprint_match_to_segment m default_chromaprint false false runtime safety) safety)
| from_credits runtime is_movie out_black out_silence blackframes silence s :
    detect_blackframes (credits_search_window_ms runtime is_movie) out_black = Ok blackframes ->
    detect_silence out_silence = Ok silence -> orderly silence ->
    s ∈ combine_credits_signals blackframes silence
          (credits_search_window_ms runtime is_movie) runtime safety ->
    detected nil_uuid is_match safety (mark_surfaced s safety)
| from_silence credits_end out_silence silence runtime is_movie s :
    0 <= credits_end -> runtime <= i32_max ->
    detect_silence out_silence = Ok silence ->
    detect_outro_from_silence credits_end silence runtime is_movie = Some s ->
    detected nil_uuid is_match safety (mark_surfaced s safety).

(** ** Samples and stored fingerprints *)

Lemma samples_app (l m : list Z) : Nat.Even (length l) -> samples (l ++ m) = samples l ++ samples m.
Proof.
  remember (length l) as n eqn:E. revert l E. induction n as [n IH] using lt_wf_ind.
  intros [|x [|y l]] E Ev; [done|by destruct Ev as [k ?]; cbn in E; lia|].
  cbn [app samples]. f_equal. cbn in E. apply (IH (n - 2)%nat); [lia|lia|].
  destruct Ev as [k ?]. exists (k - 1)%nat. lia.
Qed.

(** When each read but the last returns an even number of bytes, the fingerprinter
    is fed the samples of the stream. *)
Lemma feed_even (reads : list (list Z)) (last : list Z) :
  Forall (fun r => r <> [] /\ Nat.Even (length r)) reads -> last <> [] ->
  feed (reads ++ [last]) = samples (concat reads ++ last).
Proof.
  intros F L. induction F as [|r reads [N Ev] F IH]; cbn [app feed concat].
  - destruct last; [done|]. apply app_nil_r.
  - destruct r as [|x r]; [done|].
    rewrite <- app_assoc, (samples_app (x :: r)) by done. by rewrite <- IH.
Qed.

Lemma decode_encode (raw : list Z) : Forall is_u32 raw -> decode_chunks (encode_raw raw) = raw.
Proof.
  induction 1 as [|n raw Hn _ IH]; [done|].
  change (encode_raw (n :: raw)) with (to_le_bytes n ++ encode_raw raw).
  cbn [to_le_bytes app decode_chunks]. rewrite IH. f_equal.
  unfold is_u32, u32_max in Hn. dk_lia.
Qed.

Lemma encode_length (raw : list Z) : length (encode_raw raw) = (length raw * 4)%nat.
Proof.
  induction raw as [|n raw IH]; [done|].
  change (encode_raw (n :: raw)) with (to_le_bytes n ++ encode_raw raw).
  rewrite length_app, IH. done.
Qed.

(** ** Theorems *)

(** Detected segments meet the constraints of their table: whichever step of an
    analysis finds a segment, its bounds, its skip target and its confidence are
    accepted by the checks of media_segments, unless it is a candidate for credits
    that stands on silence alone and begins before the file does. *)
Theorem detected_is_storable {Uuid : Type} `{Countable Uuid} (nil_uuid : Uuid)
    (is_match : string -> string -> bool) (safety : SafetyConfig) (s : DetectedSegment) :
  detected nil_uuid is_match safety s -> sane_safety safety (end_ms s) ->
  storable s = true \/ (segment_type s = Credits /\ source s = Silence /\ start_ms s < 0).
Proof.
  intros D Sf. destruct D as [streams c runtime mv s Hc E|season item m runtime E
    |runtime mv ob os bs sl s B S O Hs|ce os sl runtime mv s C R D E].
  - left. by eapply chapter_storable.
  - left. eapply recurring_storable; [|done|apply Sf]. by unfold sane_period.
  - exact (combined_storable runtime mv ob os bs sl safety s B S O Hs Sf).
  - left. rewrite surfaced_storable. by eapply outro_storable.
Qed.

(** Credits on black frames are the groups of black frames: the runs of
    [cluster_blackframes] over what [detect_blackframes] kept are exactly the
    maximal groups whose neighbours are at most two seconds apart and that last
    as long as the shortest credits. *)
Theorem black_runs_are_clusters (w : SearchWindow) (out : Output) (events : list BlackframeEvent)
    (x y : Z) :
  detect_blackframes w out = Ok events -> 0 <= window_start w ->
  (x, y) ∈ cluster_blackframes events (min_ms (for_type Credits))
  <-> is_cluster (map time_ms events) x y /\ min_ms (for_type Credits) <= y - x.
Proof.
  intros E W. apply cluster_blackframes_spec. intros t Ht.
  destruct (blackframes_in_window _ _ _ _ E Ht). lia.
Qed.


(** A stored fingerprint is read back as it was computed. *)
Theorem stored_fingerprint_reads_back {Uuid : Type} (item : Uuid) (runtime : Z) (raw : list Z) :
  Forall is_u32 raw -> raw <> [] -> 0 <= runtime * 1000 <= i32_max ->
  load_fingerprint item runtime (encode_raw raw) = Some (mk_fingerprint item (runtime * 1000) raw).
Proof.
  intros U N R. unfold load_fingerprint. rewrite encode_length, Nat.Div0.mod_mul. cbn [Nat.eqb].
  rewrite decode_encode by done. destruct raw as [|n raw]; [done|]. cbn [length Nat.eqb negb].
  rewrite Z.max_l by lia. by rewrite wrap_i32_id by (unfold is_i32, i32_min, i32_max in *; lia).
Qed.

(** ** Witnesses *)

Definition log_line (frame time : string) : string :=
  "[Parsed_blackframe_0 @ 0x1] frame:" +:+ frame +:+ " pblack:99 pts:1 t:" +:+ time
  +:+ " type:I last_keyframe:0" +:+ String Str.lf EmptyString.

(** Black frames every two seconds from 100 s to 116 s, and one far behind. *)
Definition black_log : string :=
  fold_right (fun t s => log_line "1" t +:+ s) EmptyString
    ["116.0"; "100.0"; "102.0"; "104.0"; "106.0"; "108.0"; "110.0"; "112.0"; "114.0"; "130.5"]%string.

Definition silence_log : string :=
  "[silencedetect @ 0x1] silence_start: 101.5" +:+ String Str.lf
  ("[silencedetect @ 0x1] silence_end: 120 | silence_duration: 18.5" +:+ String Str.lf EmptyString).

Definition done_with (log : string) : Output := mk_process true (Some 0) log.

Definition black_events : list BlackframeEvent :=
  match detect_blackframes (mk_window 90000 140000) (done_with black_log) with
  | Ok l => l
  | Err _ => []
  end.

Example black_runs_example : cluster_blackframes black_events 15000 = [(100000, 116000)].
Proof. vm_compute. reflexivity. Qed.

Lemma black_runs_are_clusters_example :
  is_cluster (map time_ms black_events) 100000 116000 /\ 15000 <= 116000 - 100000.
Proof.
  apply (black_runs_are_clusters (mk_window 90000 140000) (done_with black_log) black_events).
  - vm_compute. reflexivity.
  - vm_compute. discriminate.
  - apply list_elem_of_In. vm_compute. left. reflexivity.
Defined.

(** A period of five seconds keeps the example small: three agreements make an
    intro. *)
Definition coarse : ChromaprintThresholds := mk_chromaprint 30 3 5000.
Definition episode (item : nat) (fingerprint : list Z) : @FingerprintWithContext nat :=
  mk_fingerprint item 2400000 fingerprint.
Definition first_episode := episode 1 [1023; 4095; 16; 32; 48; 64].
Definition second_episode := episode 2 [65535; 0; 16; 32; 48; 64].

(** The common run begins at the third sub-fingerprint, at 10 seconds; the match is
    placed at the beginning of both files. *)
Example late_run_is_placed_early :
  option_map (fun m => (match_start m, match_end m))
    (best_pair_match 0%nat first_episode second_episode coarse (min_run_of coarse) (max_run_of coarse))
  = Some (0, 20000).
Proof. vm_compute. reflexivity. Qed.


(** A better pair resets the number of episodes an item was matched with. *)
Example better_match_forgets_episodes :
  let m n s := mk_match 1%nat Intro 0 20000 n s in
  option_map matching_episodes
    (record_match (m 2 F32.one) {[1%nat := m 7 (F32.lit 9 10)]} !! 1%nat) = Some 3.
Proof. vm_compute. reflexivity. Qed.

(** Two files of one episode count as two episodes with a common intro. *)
Example item_matches_itself :
  option_map matching_episodes
    (find_recurring_segments 0%nat [episode 1 [16; 32; 48; 64]; episode 1 [16; 32; 48; 64]] coarse
     !! 1%nat) = Some 3.
Proof. vm_compute. reflexivity. Qed.

(** A read that ends in the middle of a sample loses a byte, and every sample of
    the following reads is made of the wrong bytes. *)
Example odd_read_shifts_samples :
  (feed [[1; 0; 2]; [0; 3; 0]; [4; 0]], samples [1; 0; 2; 0; 3; 0; 4; 0])
  = ([1; 768; 4], [1; 2; 3; 4]).
Proof. vm_compute. reflexivity. Qed.

(** Silence alone makes credits anywhere in the file, here in its first minute. *)
Example silence_is_credits_anywhere :
  map (fun s => (start_ms s, end_ms s))
    (combine_credits_signals [] [mk_silence 20000 40000 20000]
       (credits_search_window_ms 7200000 true) 7200000 default_safety) = [(20000, 40000)].
Proof. vm_compute. reflexivity. Qed.

(** A silence that begins before the first timestamp is refused by the table. *)
Example early_silence_is_refused :
  map storable
    (combine_credits_signals [] [mk_silence (-20) 20000 20020]
       (credits_search_window_ms 7200000 true) 7200000 default_safety) = [false].
Proof. vm_compute. reflexivity. Qed.

Definition credits_found : DetectedSegment :=
  credits_segment (100000, 116000) Combined (F32.lit 8 10) ["blackframe"; "silence"]%string
    (credits_search_window_ms 125000 false) 125000 default_safety.

Lemma detected_is_storable_example :
  storable (mark_surfaced credits_found default_safety) = true \/
  (segment_type credits_found = Credits /\ source credits_found = Silence
   /\ start_ms credits_found < 0).
Proof.
  apply (detected_is_storable 0%nat (fun _ _ => false) default_safety
           (mark_surfaced credits_found default_safety)).
  - apply (from_credits 0%nat (fun _ _ => false) default_safety 125000 false
             (done_with black_log) (done_with silence_log)
             (List.filter (fun e => time_ms e <=? 125000) black_events)
             [mk_silence 101500 120000 18500]).
    + vm_compute. reflexivity.
    + vm_compute. reflexivity.
    + constructor; [|constructor]. vm_compute. discriminate.
    + apply list_elem_of_In. vm_compute. left. reflexivity.
  - unfold sane_safety. vm_compute. repeat split; discriminate.
Defined.

End SegmentsProofs.
