(* ===== verification/Admission.v ===== *)
(** * Playback admission

    Models server/src/services/playback_admission (types.rs, policy.rs, vod.rs,
    database.rs, ledger.rs, operator.rs, retention/database.rs), the settlement of
    starts in server/src/domains/playback/commands/settlement, and the triggers of
    server/migrations that guard their tables.

    An operation is one transaction: a function from the tables to a result and
    the tables after it; an error rolls back.  A transaction locks the row of the
    household (or of the instance) it counts for, so transactions that matter to
    each other run one after the other.  Times are microseconds; [now] is the time
    of the transaction. *)

From stdpp Require Import gmap.
From S2P Require Import Prelude.

Module Admission.

(** ** Identifiers and time *)

(** A [Uuid] is 128 bits: the version is bits 76 to 79, and the first 48 bits of
    version 7 are milliseconds. *)
Abbreviation Uuid := Z.
Abbreviation Hash := (list Z).

Definition get_version_num (id : Uuid) : Z := Z.land (Z.shiftr id 76) 15.
Definition uuid_extract_timestamp (id : Uuid) : Z := Z.shiftr id 80 * 1000.

Definition milliseconds (t : Z) : Z := t - t mod 1000.
Definition seconds (n : Z) : Z := n * 1000000.
Definition minutes (n : Z) : Z := seconds (60 * n).
Definition hours (n : Z) : Z := minutes (60 * n).

Inductive AdmissionError : Type :=
| Authority | Policy_invalid | Capacity | Expired | RequestTime | ReceiptCapacity | Conflict
| Precondition | Pending | Closed | Retired | Storage | Indeterminate | Cleanup.

(** ** types.rs *)

Inductive CredentialTransport : Type := Cookie | Bearer | Legacy.

Record Scope := mk_scope {
  version : Z; user : Uuid; session : Uuid; profile : Uuid; transport : CredentialTransport;
  s_binding : option Hash }.

Inductive Subject : Type := Vod (file item : Uuid) | Live (snapshot channel : Uuid).

Record Request := mk_request { id : Uuid; actor : Scope; profile_revision : Z; subject : Subject }.

Record Fingerprint := mk_fingerprint {
  f_user : Uuid; f_session : Uuid; f_profile : Uuid; f_version : Z; f_profile_revision : Z;
  f_transport : Z; f_subject : Subject }.

Definition transport_code (t : CredentialTransport) : option Z :=
  match t with Cookie => Some 0 | Bearer => Some 1 | Legacy => None end.
Definition transport_of (n : Z) : option CredentialTransport :=
  if n =? 0 then Some Cookie else if n =? 1 then Some Bearer else None.

Inductive ReservationState : Type := Held | Retiring | Released.
#[global] Instance state_eq : EqDecision ReservationState.
Proof. solve_decision. Defined.

Inductive Kind : Type := Kind_vod | Kind_live.
#[global] Instance kind_eq : EqDecision Kind.
Proof. solve_decision. Defined.

(** A row of playback_reservations. *)
Record Row := mk_row {
  instance_id : Uuid; household_id : Uuid; fingerprint : string; kind : Kind;
  assignment_id : option Uuid; source_generation : option Z; channel_key : option Hash;
  state : ReservationState; deadline : Z; released_at : option Z; prune_after : option Z }.

Record Receipt := mk_receipt {
  r_id : Uuid; r_instance : Uuid; r_state : ReservationState; r_deadline : Z; observed_at : Z;
  fresh : bool; owned_here : bool }.

Definition is_live (s : Subject) : bool := match s with Live _ _ => true | Vod _ _ => false end.
Definition kind_of (s : Subject) : Kind := if is_live s then Kind_live else Kind_vod.

(** ** vod.rs *)

Inductive Mode : Type := DirectPlay | DirectStream | Transcode.
#[global] Instance mode_eq : EqDecision Mode.
Proof. solve_decision. Defined.

Record Binding := mk_binding {
  intent : Hash; policy_hash : Hash; source : Hash; mode : Mode; encodes : bool; source_4k : bool;
  ambient : option (Uuid * Z) }.
#[global] Instance binding_eq : EqDecision Binding.
Proof. solve_decision. Defined.

Record Policy := mk_policy {
  total : option Z; transcode : option Z; bandwidth : option Z; allow_direct_play : bool;
  allow_direct_stream : bool; allow_transcode : bool; resolution : option string;
  allow_transcode_4k : bool; require_direct_play_4k : bool; supported : bool; valid : bool }.

Definition permits (p : Policy) (b : Binding) : bool :=
  valid p && supported p &&
  match mode b with
  | DirectPlay => allow_direct_play p
  | DirectStream => allow_direct_stream p
  | Transcode => allow_transcode p
  end &&
  (negb (encodes b) || allow_transcode p) &&
  (negb (source_4k b) ||
   ((negb (encodes b) || allow_transcode_4k p) &&
    (bool_decide (mode b = DirectPlay) || negb (require_direct_play_4k p)))).

(** ** Tables *)

Record User := mk_user {
  max_streams : option Z; max_transcode_streams : option Z; bandwidth_limit_bps : option Z;
  streaming_policy_id : option Uuid }.

(** [plain]: no ranges of addresses and no automatic termination. *)
Record StreamingPolicy := mk_streaming_policy {
  p_max_streams : option Z; p_max_transcode_streams : option Z; p_bandwidth_limit_bps : option Z;
  is_default : bool; p_allow_direct_play : bool; p_allow_direct_stream : bool; p_allow_transcode : bool;
  max_transcode_resolution : option string; p_allow_transcode_4k : bool;
  p_require_direct_play_4k : bool; plain : bool }.

Record Instance_ := mk_instance { fenced : bool; revision : Z; start_intent_protocol : Z; reconciled : bool }.

(** A row of playback_start_intents. *)
Record Intent := mk_intent {
  i_household : Uuid; i_session : Uuid; i_version : Z; i_transport : Z; i_profile : option Uuid;
  i_revision : option Z; i_hash : option Hash; i_instance : Uuid; admission_fenced : bool;
  preparation_complete : bool; promoted : bool; admission_deadline : Z; settled_at : option Z;
  i_prune_after : option Z }.

(** [commands]: the bindings of playback_vod_commands; [controls]: [claim_encodes]
    of playback_vod_controls; [cutoff]: of playback_retention, whose counts are the
    numbers of rows they count. *)
Record Db := mk_db {
  users : gmap Uuid User; policies : gmap Uuid StreamingPolicy; instances : gmap Uuid Instance_;
  reservations : gmap Uuid Row; intents : gmap Uuid Intent; commands : gmap Uuid Binding;
  controls : gmap Uuid bool; cutoff : Z }.

Definition with_reservations (m : gmap Uuid Row) (db : Db) : Db :=
  mk_db (users db) (policies db) (instances db) m (intents db) (commands db) (controls db) (cutoff db).
Definition with_intents (m : gmap Uuid Intent) (db : Db) : Db :=
  mk_db (users db) (policies db) (instances db) (reservations db) m (commands db) (controls db) (cutoff db).
Definition with_commands (m : gmap Uuid Binding) (db : Db) : Db :=
  mk_db (users db) (policies db) (instances db) (reservations db) (intents db) m (controls db) (cutoff db).
Definition with_controls (m : gmap Uuid bool) (db : Db) : Db :=
  mk_db (users db) (policies db) (instances db) (reservations db) (intents db) (commands db) m (cutoff db).
Definition with_instances (m : gmap Uuid Instance_) (db : Db) : Db :=
  mk_db (users db) (policies db) m (reservations db) (intents db) (commands db) (controls db) (cutoff db).
Definition with_cutoff (t : Z) (db : Db) : Db :=
  mk_db (users db) (policies db) (instances db) (reservations db) (intents db) (commands db) (controls db) t.

(** ** policy.rs *)

Definition negative (o : option Z) : bool := is_some_and o (fun n => n <? 0).

(** The policies that apply to a user, two at most when they are defaults. *)
Definition applying (db : Db) (u : User) : list StreamingPolicy :=
  match streaming_policy_id u with
  | Some p => match policies db !! p with Some p => [p] | None => [] end
  | None => take 2 (List.filter is_default (map_to_list (policies db)).*2)
  end.

Definition ceiling (db : Db) (household : Uuid) : result (option Z) AdmissionError :=
  match users db !! household with
  | None => Err Storage
  | Some u =>
      if negative (max_transcode_streams u) then Err Policy_invalid
      else match applying db u with
      | [p] =>
          if negative (max_streams u) then Err Policy_invalid
          else if negative (p_max_streams p) || negative (p_max_transcode_streams p) then Err Policy_invalid
          else Ok (option_or (max_streams u) (p_max_streams p))
      | _ => Err Policy_invalid
      end
  end.

Definition allows (ceiling : option Z) (count : Z) : bool := is_none_or ceiling (fun limit => count <? limit).

(** The SQL function playback_vod_policy. *)
Definition playback_vod_policy (db : Db) (household : Uuid) : option Policy :=
  let! u := users db !! household in
  match applying db u with
  | [p] =>
      Some (mk_policy (option_or (max_streams u) (p_max_streams p))
              (option_or (max_transcode_streams u) (p_max_transcode_streams p))
              (option_or (bandwidth_limit_bps u) (p_bandwidth_limit_bps p))
              (p_allow_direct_play p) (p_allow_direct_stream p) (p_allow_transcode p)
              (max_transcode_resolution p) (p_allow_transcode_4k p) (p_require_direct_play_4k p) (plain p)
              (negb (negative (max_streams u) || negative (max_transcode_streams u)
                     || negative (p_max_streams p) || negative (p_max_transcode_streams p)
                     || negative (bandwidth_limit_bps u) || negative (p_bandwidth_limit_bps p))))
  | _ => None
  end.

Definition vod_policy (db : Db) (household : Uuid) : result Policy AdmissionError :=
  let? p := ok_or (playback_vod_policy db household) Policy_invalid in
  if negb (valid p) || negb (supported p) then Err Policy_invalid else Ok p.

(** [vod::matches] *)
Definition matches (db : Db) (i : Uuid) (b : option Binding) : result unit AdmissionError :=
  if bool_decide (commands db !! i = b) then Ok tt else Err Conflict.

(** ** database.rs *)

Definition instance (db : Db) (i : Uuid) (active : bool) : result unit AdmissionError :=
  match instances db !! i with
  | Some x => if negb (fenced x) then Ok tt else if negb active then Ok tt else Err Closed
  | None => Err Closed
  end.

Definition household (db : Db) (i : Uuid) : result unit AdmissionError :=
  match users db !! i with Some _ => Ok tt | None => Err Authority end.

(** ** Triggers *)

(** playback_receipt_time_error *)
Definition time_error (i : Uuid) (observed floor : Z) : Z :=
  if negb (get_version_num i =? 7) then 3
  else if uuid_extract_timestamp i <? Z.max floor (milliseconds observed - minutes 5) then 1
  else if milliseconds observed + minutes 2 <? uuid_extract_timestamp i then 2
  else 0.

(** [retained_count]: the identities that have a reservation or an intent. *)
Definition retained (db : Db) : Z := Z.of_nat (size (dom (reservations db) ∪ dom (intents db))).
Definition retained_of (h : Uuid) (db : Db) : Z :=
  Z.of_nat (size (dom (filter (fun x => household_id x.2 = h) (reservations db)) ∪
                  dom (filter (fun x => i_household x.2 = h) (intents db)))).

(** The checks on a new identity, shared by the two tables. *)
Definition new_identity (h i : Uuid) (now : Z) (db : Db) : result Db AdmissionError :=
  let e := time_error i now (cutoff db) in
  if e =? 1 then Err Expired
  else if e =? 2 then Err RequestTime
  else if negb (e =? 0) then Err Conflict
  else if 65536 <=? retained db then Err ReceiptCapacity
  else if 4096 <=? retained_of h db then Err ReceiptCapacity
  else Ok (with_cutoff (Z.max (cutoff db) (milliseconds now - minutes 5)) db).

(** No reservation of the identity is unreleased. *)
Definition parent_released (db : Db) (i : Uuid) : bool :=
  match reservations db !! i with Some r => bool_decide (state r = Released) | None => true end.

Definition prune_time (i : Uuid) (t : Z) : Z :=
  Z.max (t + hours 24) (uuid_extract_timestamp i + minutes 5 + 1000).

(** playback_start_intent_update *)
Definition update_intent (i : Uuid) (now : Z) (fence complete promote : bool) (db : Db) : Db :=
  with_intents
    (alter (fun x =>
       let f := admission_fenced x || fence in
       let c := preparation_complete x || complete in
       let settled := if f && c && parent_released db i then Some (unwrap_or (settled_at x) now) else None in
       mk_intent (i_household x) (i_session x) (i_version x) (i_transport x) (i_profile x) (i_revision x)
         (i_hash x) (i_instance x) f c (promoted x || promote) (admission_deadline x) settled
         (prune_time i <$> settled)) i (intents db)) db.

(** playback_start_intent_insert *)
Definition insert_intent (i : Uuid) (x : Intent) (now : Z) (db : Db) : result Db AdmissionError :=
  match reservations db !! i with
  | Some _ => Err Conflict
  | None =>
      let? db := new_identity (i_household x) i now db in
      let settled := if admission_fenced x && preparation_complete x then Some now else None in
      let x := mk_intent (i_household x) (i_session x) (i_version x) (i_transport x) (i_profile x)
                 (i_revision x) (i_hash x) (i_instance x) (admission_fenced x) (preparation_complete x)
                 (promoted x) (now + seconds 60) settled (prune_time i <$> settled) in
      match intents db !! i with
      | Some _ => Err Storage
      | None => Ok (with_intents (<[i := x]> (intents db)) db)
      end
  end.

(** The actor of a request is the one of its intent. *)
Definition same_actor (x : Intent) (r : Request) : bool :=
  (i_session x =? session (actor r)) && (i_version x =? version (actor r)) &&
  bool_decide (transport_code (transport (actor r)) = Some (i_transport x)) &&
  bool_decide (i_profile x = Some (profile (actor r))) &&
  bool_decide (i_revision x = Some (profile_revision r)).

(** The check of the table on the source of a reservation. *)
Definition source_ok (x : Row) : bool :=
  match kind x, assignment_id x, source_generation x, channel_key x with
  | Kind_vod, None, None, None => true
  | Kind_live, Some _, Some g, Some k => (0 <? g) && (Z.of_nat (length k) =? 32)
  | _, _, _, _ => false
  end.

(** playback_receipt_insert, and the keys and checks of the table. *)
Definition insert_reservation (r : Request) (x : Row) (now : Z) (db : Db) : result Db AdmissionError :=
  let? db :=
    (match intents db !! id r with
     | Some i =>
         if (i_household i =? household_id x) && (i_instance i =? instance_id x) &&
            negb (admission_fenced i) && negb (promoted i) && preparation_complete i &&
            (now <? admission_deadline i) && same_actor i r
         then Ok (update_intent (id r) now false false true db)
         else Err Conflict
     | None =>
         match reservations db !! id r with
         | Some _ => Err Conflict
         | None => new_identity (household_id x) (id r) now db
         end
     end) in
  match reservations db !! id r with
  | Some _ => Err Storage
  | None =>
      if source_ok x
      then Ok (with_reservations (<[id r := x]> (reservations db)) db)
      else Err Storage
  end.

(** playback_vod_command_guard, playback_start_command_binding and the key. *)
Definition insert_command (i : Uuid) (b : Binding) (db : Db) : result Db AdmissionError :=
  match reservations db !! i, commands db !! i with
  | Some x, None =>
      if negb (bool_decide (kind x = Kind_vod) && bool_decide (state x = Held)) then Err Storage
      else if is_some_and (intents db !! i)
                (fun y => negb (promoted y) || negb (bool_decide (i_hash y = Some (intent b))))
      then Err Conflict
      else Ok (with_commands (<[i := b]> (commands db)) db)
  | _, _ => Err Storage
  end.

(** playback_start_promotion_complete, which runs when the transaction commits. *)
Definition promotion_complete (i : Uuid) (db : Db) : bool :=
  match intents db !! i with
  | None => true
  | Some y =>
      promoted y && preparation_complete y &&
      is_some_and (commands db !! i) (fun b => bool_decide (i_hash y = Some (intent b))) &&
      is_some_and (reservations db !! i) (fun x => bool_decide (kind x = Kind_vod))
  end.

(** playback_receipt_update: [state] never goes back, and a release is timed. *)
Definition set_state (i : Uuid) (now : Z) (s : ReservationState) (x : Row) : Row :=
  let released := match s with
                  | Released => Some (match state x, released_at x with Released, Some t => t | _, _ => now end)
                  | _ => None
                  end in
  mk_row (instance_id x) (household_id x) (fingerprint x) (kind x) (assignment_id x) (source_generation x)
    (channel_key x) s (deadline x) released (prune_time i <$> released).

Definition with_deadline (t : Z) (x : Row) : Row :=
  mk_row (instance_id x) (household_id x) (fingerprint x) (kind x) (assignment_id x) (source_generation x)
    (channel_key x) (state x) t (released_at x) (prune_after x).

(** [UPDATE ... SET state='retiring' WHERE id=... AND state='held'] *)
Definition retire_row (i : Uuid) (now : Z) (db : Db) : Db :=
  with_reservations
    (alter (fun x => if decide (state x = Held) then set_state i now Retiring x else x) i (reservations db)) db.

(** [UPDATE ... SET state='released'], with playback_start_parent_completion. *)
Definition release_row (i : Uuid) (now : Z) (db : Db) : Db :=
  let db' := with_reservations (alter (set_state i now Released) i (reservations db)) db in
  match reservations db !! i with
  | Some _ => update_intent i now true false false db'
  | None => db'
  end.

(** playback_receipt_delete, and the rows that go with the reservation: [None]
    where the trigger refuses. *)
Definition delete_reservation (i : Uuid) (now : Z) (db : Db) : option Db :=
  match reservations db !! i with
  | None => Some db
  | Some x =>
      match state x, released_at x, prune_after x with
      | Released, Some r, Some p =>
          if (r + hours 24 <=? milliseconds now) && (p <=? milliseconds now) &&
             (uuid_extract_timestamp i <? cutoff db)
          then Some (with_controls (delete i (controls db)) (with_commands (delete i (commands db))
                       (with_reservations (delete i (reservations db)) db)))
          else None
      | _, _, _ => None
      end
  end.

(** playback_start_intent_delete *)
Definition delete_intent (i : Uuid) (now : Z) (db : Db) : option Db :=
  match intents db !! i with
  | None => Some db
  | Some x =>
      match settled_at x, i_prune_after x, reservations db !! i with
      | Some _, Some p, None =>
          if (p <=? now) && (uuid_extract_timestamp i <? cutoff db) then Some (with_intents (delete i (intents db)) db)
          else None
      | _, _, _ => None
      end
  end.

Definition raise_cutoff (now : Z) (db : Db) : Db :=
  with_cutoff (Z.max (cutoff db) (milliseconds now - minutes 5)) db.

End Admission.
