(* ===== verification/Ledger.v ===== *)
(** * The playback ledger

    Models the operations of server/src/services/playback_admission (ledger.rs,
    operator.rs, retention/database.rs, the requests of types.rs) and of
    server/src/domains/playback/commands/settlement on the tables of Admission.

    What a transaction reads of other tables is a parameter: the authority of the
    actor, the membership of ambient channels, the policy of reconfigured viewers,
    and which identities have operations of their own; so are serde_json and the
    digest of a policy. *)

From stdpp Require Import gmap.
From S2P Require Import Prelude Admission.

Module Ledger.
Import Admission.

(** What [authority::verify] finds. *)
Record Verified := mk_verified {
  v_assignment : option Uuid; v_generation : option Z; v_key : option Hash; cap : option Z }.

Section ledger.
Context (to_string : Fingerprint -> option string) (from_str : string -> option Fingerprint).
Context (verify : Db -> Request -> option Row -> result Verified AdmissionError).
Context (ambient_allowed : Db -> Request -> Uuid -> Z -> bool).
Context (digest : Policy -> option Hash) (permitted : Db -> Uuid -> Policy -> bool) (busy : Db -> Uuid -> bool).

(** ** types.rs *)

Definition encode (r : Request) : result string AdmissionError :=
  if negb (get_version_num (id r) =? 7) || (version (actor r) <=? 0) || (profile_revision r <=? 0)
  then Err Authority
  else
    let? t := ok_or (transport_code (transport (actor r))) Authority in
    let? value := ok_or (to_string (mk_fingerprint (user (actor r)) (session (actor r)) (profile (actor r))
                                       (version (actor r)) (profile_revision r) t (subject r))) Authority in
    if 2048 <? Str.len value then Err Authority else Ok value.

Definition decode (i : Uuid) (value : string) : result Request AdmissionError :=
  if 2048 <? Str.len value then Err Authority
  else
    let? f := ok_or (from_str value) Authority in
    let? t := ok_or (transport_of (f_transport f)) Authority in
    let r := mk_request i (mk_scope (f_version f) (f_user f) (f_session f) (f_profile f) t None)
               (f_profile_revision f) (f_subject f) in
    let? again := encode r in
    if negb (String.eqb again value) then Err Authority else Ok r.

Definition receipt (i : Uuid) (x : Row) (now : Z) (fresh : bool) (owner : Uuid) : result Receipt AdmissionError :=
  let? original := decode i (fingerprint x) in
  if negb (bool_decide (kind x = kind_of (subject original))) || negb (user (actor original) =? household_id x)
  then Err Storage
  else Ok (mk_receipt i (instance_id x) (state x) (deadline x) now fresh (instance_id x =? owner)).

(** ** ledger.rs *)

(** The counts of a household's reservations that are not released: all, the live
    ones, those that encode. *)
Definition streams (h : Uuid) (db : Db) : Z :=
  Z.of_nat (size (filter (fun x => household_id x.2 = h /\ state x.2 <> Released) (reservations db))).
Definition live_streams (h : Uuid) (db : Db) : Z :=
  Z.of_nat (size (filter (fun x => (household_id x.2 = h /\ state x.2 <> Released) /\ kind x.2 = Kind_live)
                    (reservations db))).
Definition claims_encoding (db : Db) (i : Uuid) : bool :=
  is_some_and (commands db !! i) (fun b => unwrap_or (controls db !! i) (encodes b)).
Definition encoding_streams (h : Uuid) (db : Db) : Z :=
  Z.of_nat (size (filter (fun x => (household_id x.2 = h /\ state x.2 <> Released) /\ claims_encoding db x.1 = true)
                    (reservations db))).

(** [retention::database::missing] *)
Definition missing (i : Uuid) (now : Z) (db : Db) : result unit AdmissionError :=
  let e := time_error i now (cutoff db) in
  if e =? 0 then Ok tt else if e =? 1 then Err Expired else if e =? 2 then Err RequestTime else Err Storage.

(** [vod::ambient] *)
Definition ambient_ok (db : Db) (r : Request) (b : Binding) : result unit AdmissionError :=
  match ambient b with
  | None => Ok tt
  | Some (channel, revision) =>
      if is_live (subject r) then Err Authority
      else if ambient_allowed db r channel revision then Ok tt else Err Authority
  end.

(** The checks of [claim] on a binding. *)
Definition binding_ok (db : Db) (r : Request) (b : Binding) : result unit AdmissionError :=
  if is_live (subject r) then Err Authority
  else
    let? p := vod_policy db (user (actor r)) in
    let? h := (if permits p b then ok_or (digest p) Policy_invalid else Err Policy_invalid) in
    if negb (bool_decide (h = policy_hash b)) then Err Policy_invalid
    else
      let? _ := ambient_ok db r b in
      if encodes b && negb (allows (transcode p) (encoding_streams (user (actor r)) db)) then Err Capacity
      else Ok tt.

Definition option_ok {A} (o : option A) (f : A -> result unit AdmissionError) : result unit AdmissionError :=
  match o with Some a => f a | None => Ok tt end.

(** The claim of an identity that has a reservation. *)
Definition claim_existing (inst : Uuid) (r : Request) (fp : string) (b : option Binding) (now : Z) (db : Db) (x : Row)
    : result (Receipt * Db) AdmissionError :=
  if negb (String.eqb (fingerprint x) fp) || negb (household_id x =? user (actor r)) then Err Conflict
  else
    let? _ := matches db (id r) b in
    let '(x, db) := if bool_decide (state x = Held) && ((deadline x <=? now) || negb (is_ok (verify db r (Some x))))
                    then (set_state (id r) now Retiring x, retire_row (id r) now db) else (x, db) in
    let? receipt := receipt (id r) x now false inst in
    Ok (receipt, db).

(** The claim of a new identity. *)
Definition claim_new (inst : Uuid) (r : Request) (fp : string) (b : option Binding) (now : Z) (db : Db)
    : result (Receipt * Db) AdmissionError :=
  let h := user (actor r) in
  let? limit := ceiling db h in
  let? _ := option_ok b (binding_ok db r) in
  let? v := verify db r None in
  if negb (allows limit (streams h db)) || (is_live (subject r) && negb (allows (cap v) (live_streams h db)))
  then Err Capacity
  else
    let row := mk_row inst h fp (kind_of (subject r)) (v_assignment v) (v_generation v) (v_key v) Held
                 (now + seconds 60) None None in
    let? db := insert_reservation r row now db in
    let? db := (match b with Some b => insert_command (id r) b db | None => Ok db end) in
    let? receipt := receipt (id r) row now true inst in
    if promotion_complete (id r) db then Ok (receipt, db) else Err Indeterminate.

Definition claim (inst : Uuid) (r : Request) (allow_insert : bool) (b : option Binding) (now : Z) (db : Db)
    : result (Receipt * Db) AdmissionError :=
  let? fp := encode r in
  let? _ := instance db inst true in
  let? _ := household db (user (actor r)) in
  match reservations db !! id r with
  | Some x => claim_existing inst r fp b now db x
  | None =>
      if negb allow_insert then (let? _ := missing (id r) now db in Err Indeterminate)
      else claim_new inst r fp b now db
  end.

Definition check_on (inst : Uuid) (r : Request) (renew : bool) (b : option Binding) (now : Z) (db : Db)
    : result (Receipt * Db) AdmissionError :=
  let? fp := encode r in
  let? _ := instance db inst true in
  let? _ := household db (user (actor r)) in
  let? x := ok_or (reservations db !! id r) Retired in
  if negb (instance_id x =? inst) || negb (String.eqb (fingerprint x) fp) then Err Conflict
  else if negb (bool_decide (state x = Held)) || (deadline x <=? now) then Err Retired
  else
    let? _ := ceiling db (user (actor r)) in
    let? _ := matches db (id r) b in
    let? _ := option_ok b (fun b =>
      let? _ := ambient_ok db r b in
      let? p := vod_policy db (user (actor r)) in
      if permitted db (id r) p then Ok tt else Err Policy_invalid) in
    let? _ := verify db r (Some x) in
    let x := if renew then with_deadline (now + seconds 60) x else x in
    let db := if renew then with_reservations (<[id r := x]> (reservations db)) db else db in
    let? receipt := receipt (id r) x now false inst in
    Ok (receipt, db).

Definition retire (inst : Uuid) (r : Request) (release : bool) (now : Z) (db : Db) : result Db AdmissionError :=
  let? fp := encode r in
  let? _ := instance db inst false in
  match reservations db !! id r with
  | None => Ok db
  | Some x =>
      if negb (instance_id x =? inst) || negb (String.eqb (fingerprint x) fp) then Err Conflict
      else Ok (if release then release_row (id r) now db else retire_row (id r) now db)
  end.

(** ** operator.rs *)

Definition register_instance (inst : Uuid) (db : Db) : result Db AdmissionError :=
  match instances db !! inst with
  | Some _ => Err Storage
  | None => Ok (with_instances (<[inst := mk_instance false 1 2 false]> (instances db)) db)
  end.

(** The identities of an instance: its reservations, those not released, its
    intents, those not fenced. *)
Definition owned_by (inst : Uuid) (db : Db) : list Uuid :=
  (map_to_list (filter (fun x => instance_id x.2 = inst) (reservations db))).*1.
Definition open_rows (inst : Uuid) (db : Db) : list Uuid :=
  (map_to_list (filter (fun x => instance_id x.2 = inst /\ state x.2 <> Released) (reservations db))).*1.
Definition intents_of (inst : Uuid) (db : Db) : list Uuid :=
  (map_to_list (filter (fun x => i_instance x.2 = inst) (intents db))).*1.
Definition unfenced_intents (inst : Uuid) (db : Db) : list Uuid :=
  (map_to_list (filter (fun x => i_instance x.2 = inst /\ admission_fenced x.2 = false) (intents db))).*1.

Definition fence (inst : Uuid) (expected : Z) (now : Z) (db : Db) : result (Z * Db) AdmissionError :=
  match instances db !! inst with
  | Some x =>
      if (revision x =? expected) && negb (fenced x) then
        let db := with_instances (<[inst := mk_instance true (revision x + 1) (start_intent_protocol x)
                                              (reconciled x)]> (instances db)) db in
        let db := foldr (fun i => update_intent i now true false false) db (unfenced_intents inst db) in
        Ok (revision x + 1, foldr (fun i => retire_row i now) db (owned_by inst db))
      else Err Conflict
  | None => Err Conflict
  end.

Definition reconcile (inst : Uuid) (rev : Z) (resources_gone : bool) (now : Z) (db : Db)
    : result Db AdmissionError :=
  if negb resources_gone then Err Cleanup
  else match instances db !! inst with
  | Some x =>
      if fenced x && (revision x =? rev) then
        let db := foldr (fun i => release_row i now) db (open_rows inst db) in
        let db := foldr (fun i => update_intent i now true true false) db (intents_of inst db) in
        Ok (with_instances (<[inst := mk_instance (fenced x) (revision x) (start_intent_protocol x) true]>
              (instances db)) db)
      else Err Conflict
  | None => Err Conflict
  end.

(** ** settlement/database.rs and settlement/service.rs *)

Definition compatible (db : Db) : bool :=
  bool_decide (map_Forall (fun _ x => start_intent_protocol x = 2 \/ reconciled x = true) (instances db)).

Definition intent_actor (x : Intent) (s : Scope) : bool :=
  (i_household x =? user s) && (i_session x =? session s) && (i_version x =? version s) &&
  bool_decide (transport_code (transport s) = Some (i_transport x)).

(** [register]; [context]: the revision of the profile, if the actor may start. *)
Definition register (inst : Uuid) (s : Scope) (i : Uuid) (hash : Hash) (context : result Z AdmissionError)
    (now : Z) (db : Db) : result (bool * Db) AdmissionError :=
  match instances db !! inst with
  | Some x =>
      if fenced x || negb (start_intent_protocol x =? 2) then Err Closed
      else
        let? rev := context in
        if negb (compatible db) then Err Closed
        else match intents db !! i with
        | Some saved =>
            if negb (intent_actor saved s) then Err Conflict
            else if negb (bool_decide (i_hash saved = Some hash)) || negb (bool_decide (i_profile saved = Some (profile s)))
                    || negb (bool_decide (i_revision saved = Some rev)) then Err Conflict
            else Ok (false, db)
        | None =>
            let? t := ok_or (transport_code (transport s)) Authority in
            let? db := insert_intent i (mk_intent (user s) (session s) (version s) t (Some (profile s)) (Some rev)
                                          (Some hash) inst false false false 0 None None) now db in
            Ok (true, db)
        end
  | None => Err Closed
  end.

(** [complete] *)
Definition complete (inst : Uuid) (s : Scope) (i : Uuid) (fence : bool) (now : Z) (db : Db)
    : result Db AdmissionError :=
  match intents db !! i with
  | None => Err Conflict
  | Some saved =>
      if negb (intent_actor saved s) || negb (i_instance saved =? inst) then Err Conflict
      else Ok (update_intent i now fence true false db)
  end.

(** The part of [inspect] that withdraws an identity; [context]: of the actor. *)
Definition withdraw (inst : Uuid) (s : Scope) (i : Uuid) (context : result unit AdmissionError) (now : Z) (db : Db)
    : result Db AdmissionError :=
  let? _ := context in
  if negb (compatible db) then Err Closed
  else
    let? db :=
      (match intents db !! i with
       | Some saved => if intent_actor saved s then Ok db else Err Conflict
       | None =>
           match reservations db !! i with
           | Some _ => Err Conflict
           | None =>
               let db := raise_cutoff now db in
               if uuid_extract_timestamp i <? cutoff db then Ok db
               else
                 let? t := ok_or (transport_code (transport s)) Authority in
                 insert_intent i (mk_intent (user s) (session s) (version s) t None None None inst true true false
                                    0 None None) now db
           end
       end) in
    let db := match intents db !! i with
              | Some x => if i_household x =? user s then update_intent i now true false false db else db
              | None => db
              end in
    Ok (match reservations db !! i with
        | Some x => if household_id x =? user s then retire_row i now db else db
        | None => db
        end).

(** ** retention/database.rs *)

(** playback_start_prune, for the candidates that are not locked. *)
Fixpoint start_prune (candidates : list Uuid) (now : Z) (db : Db) : option Db :=
  match candidates with
  | [] => Some db
  | i :: candidates =>
      if is_some_and (intents db !! i) (fun x => is_some_b (settled_at x) &&
           is_some_and (i_prune_after x) (fun t => t <=? now)) && negb (busy db i)
      then
        let! db := (match reservations db !! i with
                    | Some x =>
                        if bool_decide (state x = Released) && is_some_and (prune_after x) (fun t => t <=? now)
                        then delete_reservation i now db else Some db
                    | None => Some db
                    end) in
        match reservations db !! i with
        | Some _ => start_prune candidates now db
        | None => let! db := delete_intent i now db in start_prune candidates now db
        end
      else start_prune candidates now db
  end.

(** The last query of [prune], for the candidates that are not locked. *)
Fixpoint prune_rows (candidates : list Uuid) (now : Z) (db : Db) : option Db :=
  match candidates with
  | [] => Some db
  | i :: candidates =>
      match reservations db !! i with
      | Some x =>
          if bool_decide (state x = Released) && is_some_and (prune_after x) (fun t => t <=? milliseconds now) &&
             negb (is_some_b (intents db !! i)) && negb (busy db i)
          then let! db := delete_reservation i now db in prune_rows candidates now db
          else prune_rows candidates now db
      | None => prune_rows candidates now db
      end
  end.

Definition prune (inst : Uuid) (starts rows : list Uuid) (now : Z) (db : Db) : result Db AdmissionError :=
  let? _ := instance db inst true in
  let db := raise_cutoff now db in
  let? db := ok_or (start_prune starts now db) Conflict in
  ok_or (prune_rows rows now db) Conflict.

(** ** Histories *)

(** The transactions that commit, and [Some i] where one admits the identity [i].
    Others may retire held reservations, change [controls], and, in [step_admin],
    users and policies. *)
Inductive step (db : Db) : option Uuid -> Db -> Prop :=
| step_claim inst r allow b now x db' :
    claim inst r allow b now db = Ok (x, db') -> step db (if fresh x then Some (id r) else None) db'
| step_check inst r renew b now x db' : check_on inst r renew b now db = Ok (x, db') -> step db None db'
| step_retire inst r release now db' : retire inst r release now db = Ok db' -> step db None db'
| step_instance inst db' : register_instance inst db = Ok db' -> step db None db'
| step_fence inst expected now n db' : fence inst expected now db = Ok (n, db') -> step db None db'
| step_reconcile inst rev now db' : reconcile inst rev true now db = Ok db' -> step db None db'
| step_register inst s i hash context now n db' : register inst s i hash context now db = Ok (n, db') -> step db None db'
| step_complete inst s i fence now db' : complete inst s i fence now db = Ok db' -> step db None db'
| step_withdraw inst s i context now db' : withdraw inst s i context now db = Ok db' -> step db None db'
| step_prune inst starts rows now db' : prune inst starts rows now db = Ok db' -> step db None db'
| step_evict i now : step db None (retire_row i now db)
| step_controls m : step db None (with_controls m db).

Inductive admin (db : Db) : Db -> Prop :=
| admin_change u p : admin db (mk_db u p (instances db) (reservations db) (intents db) (commands db) (controls db) (cutoff db)).

(** A history with the identities it admits, in order; without [admin] where
    [fixed]. *)
Inductive history (fixed : bool) : Db -> list Uuid -> Db -> Prop :=
| history_nil db : history fixed db [] db
| history_step db e db1 l db2 :
    step db e db1 -> history fixed db1 l db2 ->
    history fixed db (match e with Some i => i :: l | None => l end) db2
| history_admin db db1 l db2 : fixed = false -> admin db db1 -> history fixed db1 l db2 -> history fixed db l db2.

End ledger.
End Ledger.
