(* ===== verification/LedgerProofs.v ===== *)
(** * Theorems on the playback ledger

    An identity is admitted at most once, never after it was withdrawn; a household
    never has more streams than its ceiling allows. *)

From stdpp Require Import gmap.
From S2P Require Import Prelude Admission Ledger.

Module LedgerProofs.
Import Admission Ledger.

(** ** Identities that are never admitted again *)

Definition dead (i : Uuid) (db : Db) : Prop :=
  match intents db !! i with
  | Some x => admission_fenced x || promoted x = true
  | None => is_Some (reservations db !! i) \/ uuid_extract_timestamp i < cutoff db
  end.

Definition keeps (db db' : Db) : Prop := forall i, dead i db -> dead i db'.

#[global] Instance keeps_preorder : PreOrder keeps.
Proof. split; [by intros db i|]. intros a b c H1 H2 i H. auto. Qed.

(** Rows may go back only together with their time. *)
Lemma keeps_intro (db db' : Db) :
  cutoff db <= cutoff db' ->
  (forall i x, intents db !! i = Some x -> admission_fenced x || promoted x = true ->
     exists x', intents db' !! i = Some x' /\ admission_fenced x' || promoted x' = true) ->
  (forall i, intents db !! i = None -> dead i db -> intents db' !! i = None) ->
  (forall i, is_Some (reservations db !! i) -> is_Some (reservations db' !! i)) -> keeps db db'.
Proof.
  intros C I N R i. unfold dead at 1. destruct (intents db !! i) as [x|] eqn:E.
  - intros H. destruct (I i x E H) as (x' & E' & H'). unfold dead. by rewrite E'.
  - intros H. assert (D : dead i db) by (unfold dead; by rewrite E). unfold dead. rewrite (N i E D).
    destruct H as [H|H]; [left; auto|right; lia].
Qed.

Lemma update_intent_keeps (i : Uuid) (now : Z) (f c p : bool) (db : Db) : keeps db (update_intent i now f c p db).
Proof.
  apply keeps_intro; cbn; [lia| | |done].
  - intros j x E H. destruct (decide (i = j)) as [<-|Nj].
    + eexists. rewrite lookup_alter_eq, E. split; [done|]. cbn. apply orb_true_iff in H as [->| ->]; cbn; [done|].
      by rewrite orb_true_r.
    + exists x. by rewrite lookup_alter_ne.
  - intros j E _. apply lookup_alter_None. done.
Qed.

Lemma alter_keeps (i : Uuid) (f : Row -> Row) (db : Db) : keeps db (with_reservations (alter f i (reservations db)) db).
Proof.
  apply keeps_intro; cbn; [lia|by eauto|done|]. intros j H. by apply lookup_alter_is_Some.
Qed.

Lemma retire_row_keeps (i : Uuid) (now : Z) (db : Db) : keeps db (retire_row i now db).
Proof. apply alter_keeps. Qed.

Lemma release_row_keeps (i : Uuid) (now : Z) (db : Db) : keeps db (release_row i now db).
Proof.
  unfold release_row. destruct (reservations db !! i).
  - etrans; [apply alter_keeps|apply update_intent_keeps].
  - apply alter_keeps.
Qed.

Lemma raise_cutoff_keeps (now : Z) (db : Db) : keeps db (raise_cutoff now db).
Proof. apply keeps_intro; cbn; [lia|by eauto|done|done]. Qed.

Lemma instances_keeps (m : gmap Uuid Instance_) (db : Db) : keeps db (with_instances m db).
Proof. intros i H. exact H. Qed.

Lemma time_error_ok (i : Uuid) (now floor : Z) : time_error i now floor = 0 -> floor <= uuid_extract_timestamp i.
Proof.
  unfold time_error. destruct (negb _); [done|]. destruct (Z.ltb_spec (uuid_extract_timestamp i)
    (Z.max floor (milliseconds now - minutes 5))); [done|]. lia.
Qed.

Lemma new_identity_inv (h i : Uuid) (now : Z) (db db' : Db) :
  new_identity h i now db = Ok db' -> db' = raise_cutoff now db /\ cutoff db <= uuid_extract_timestamp i.
Proof.
  unfold new_identity. destruct (Z.eqb_spec (time_error i now (cutoff db)) 1); [done|].
  destruct (Z.eqb_spec (time_error i now (cutoff db)) 2); [done|].
  destruct (Z.eqb_spec (time_error i now (cutoff db)) 0) as [E|]; [|done]. cbn [negb].
  destruct (_ <=? _); [done|]. destruct (_ <=? _); [done|]. intros [= <-]. split; [done|].
  by eapply time_error_ok.
Qed.

Lemma insert_intent_keeps (i : Uuid) (x : Intent) (now : Z) (db db' : Db) :
  insert_intent i x now db = Ok db' ->
  keeps db db' /\ intents db !! i = None /\ exists x', intents db' !! i = Some x' /\
    i_household x' = i_household x /\ admission_fenced x' = admission_fenced x.
Proof.
  unfold insert_intent. destruct (reservations db !! i) eqn:R; [done|].
  destruct (new_identity _ _ _ _) as [db1|] eqn:N; [|done]. apply new_identity_inv in N as [-> T].
  cbn. destruct (intents db !! i) eqn:E; [done|]. intros [= <-]. split; [|split; [done|]].
  - apply keeps_intro; cbn; [lia| | |done].
    + intros j y Ej H. exists y. rewrite lookup_insert_ne by congruence. done.
    + intros j Ej D. rewrite lookup_insert_ne; [done|]. intros <-. unfold dead in D. rewrite Ej, R in D.
      destruct D as [[? ?]|D]; [done|lia].
  - cbn. rewrite lookup_insert_eq. eexists. split; [done|]. done.
Qed.

Lemma insert_reservation_admits (r : Request) (x : Row) (now : Z) (db db' : Db) :
  insert_reservation r x now db = Ok db' -> keeps db db' /\ ~ dead (id r) db /\ dead (id r) db'.
Proof.
  unfold insert_reservation. intros H.
  assert (S : exists db1, (keeps db db1 /\ ~ dead (id r) db /\
      match intents db1 !! id r with Some y => promoted y = true | None => True end) /\
      reservations db1 !! id r = None /\ with_reservations (<[id r := x]> (reservations db1)) db1 = db').
  { destruct (intents db !! id r) as [y|] eqn:E.
    - destruct (_ && same_actor y r) eqn:G in H; [|done].
      exists (update_intent (id r) now false false true db).
      destruct (reservations (update_intent _ _ _ _ _ db) !! id r) eqn:R; [done|].
      split; [|split; [done|]].
      + split; [apply update_intent_keeps|]. split.
        * unfold dead. rewrite E. repeat (apply andb_true_iff in G as [G ?]).
          destruct (admission_fenced y), (promoted y); done.
        * cbn. rewrite lookup_alter_eq, E. cbn. by rewrite orb_true_r.
      + destruct (source_ok x); [by injection H as <-|done].
    - destruct (reservations db !! id r) eqn:R; [done|].
      destruct (new_identity _ _ _ _) as [db1|] eqn:N; [|done]. apply new_identity_inv in N as [-> T].
      exists (raise_cutoff now db). cbn in H. rewrite R in H. split; [|split; [done|]].
      + split; [apply raise_cutoff_keeps|]. split; [|cbn; by rewrite E].
        unfold dead. rewrite E, R. intros [[? ?]|?]; [done|lia].
      + destruct (source_ok x); [by injection H as <-|done]. }
  destruct S as (db1 & (K & N & P) & R & <-). split; [|split; [done|]].
  - etrans; [exact K|]. apply keeps_intro; cbn; [lia|by eauto|done|].
    intros j Hj. destruct (decide (id r = j)) as [<-|]; [by rewrite lookup_insert_eq|by rewrite lookup_insert_ne].
  - unfold dead. cbn. destruct (intents db1 !! id r) as [y|]; [by rewrite P, orb_true_r|].
    left. by rewrite lookup_insert_eq.
Qed.

Lemma insert_command_keeps (i : Uuid) (b : Binding) (db db' : Db) :
  insert_command i b db = Ok db' -> keeps db db' /\ keeps db' db.
Proof.
  unfold insert_command. destruct (reservations db !! i); [|done]. destruct (commands db !! i); [done|].
  destruct (negb _); [done|]. destruct (is_some_and _ _); [done|]. intros [= <-]. split; intros j H; exact H.
Qed.

Lemma delete_reservation_keeps (i : Uuid) (now : Z) (db db' : Db) : delete_reservation i now db = Some db' -> keeps db db'.
Proof.
  unfold delete_reservation. destruct (reservations db !! i) as [x|]; [|by intros [= <-]].
  destruct (state x), (released_at x), (prune_after x); try done. destruct (_ && _) eqn:G; [|done].
  apply andb_true_iff in G as [_ G]. dk_bool. intros [= <-] j. unfold dead. cbn.
  destruct (intents db !! j); [done|]. intros [H|H]; [|by right]. destruct (decide (i = j)) as [<-|]; [by right|].
  left. by rewrite lookup_delete_ne.
Qed.

Lemma delete_intent_keeps (i : Uuid) (now : Z) (db db' : Db) : delete_intent i now db = Some db' -> keeps db db'.
Proof.
  unfold delete_intent. destruct (intents db !! i) as [x|] eqn:E; [|by intros [= <-]].
  destruct (settled_at x), (i_prune_after x), (reservations db !! i) eqn:R; try done.
  destruct (_ && _) eqn:G; [|done]. apply andb_true_iff in G as [_ G]. dk_bool. intros [= <-] j. unfold dead. cbn.
  destruct (decide (i = j)) as [<-|]; [rewrite lookup_delete_eq; by right|by rewrite lookup_delete_ne].
Qed.

(** ** Streams of a household *)

(** What a row says of its stream. *)
Definition stream_of (x : Row) : Uuid * Uuid * string := (household_id x, instance_id x, fingerprint x).

(** Rows of [m'] come from rows of [m] of the same stream, and a released one stays
    released. *)
Definition shrinks (m m' : gmap Uuid Row) : Prop :=
  forall i x', m' !! i = Some x' -> exists x, m !! i = Some x /\ stream_of x = stream_of x' /\
    (state x = Released -> state x' = Released).

Definition frame (db db' : Db) : Prop :=
  users db' = users db /\ policies db' = policies db /\ shrinks (reservations db) (reservations db').

#[global] Instance frame_preorder : PreOrder frame.
Proof.
  split.
  - intros db. repeat split. intros i x H. eauto.
  - intros a b c (U1 & P1 & S1) (U2 & P2 & S2). split; [congruence|]. split; [congruence|].
    intros i x H. destruct (S2 i x H) as (y & Hy & E & R). destruct (S1 i y Hy) as (z & Hz & E' & R').
    exists z. split; [done|]. split; [congruence|auto].
Qed.

Lemma frame_same (db db' : Db) :
  users db' = users db -> policies db' = policies db -> reservations db' = reservations db -> frame db db'.
Proof. intros U P R. split; [done|]. split; [done|]. rewrite R. intros i x H. eauto. Qed.

Lemma streams_shrinks (h : Uuid) (db db' : Db) :
  shrinks (reservations db) (reservations db') -> streams h db' <= streams h db.
Proof.
  intros S. unfold streams. apply Nat2Z.inj_le. rewrite <- !size_dom. apply subseteq_size. intros i.
  rewrite !elem_of_dom. intros [x' X]. apply map_lookup_filter_Some in X as [X [E N]].
  destruct (S i x' X) as (x & Y & [= E' _ _] & R). exists x. apply map_lookup_filter_Some. cbn in *.
  split; [done|]. split; [congruence|auto].
Qed.

Lemma alter_frame (i : Uuid) (f : Row -> Row) (db : Db) :
  (forall x, stream_of (f x) = stream_of x /\ (state x = Released -> state (f x) = Released)) ->
  frame db (with_reservations (alter f i (reservations db)) db).
Proof.
  intros F. split; [done|]. split; [done|]. cbn. intros j x' H.
  destruct (decide (i = j)) as [<-|N]; [|rewrite lookup_alter_ne in H by done; eauto].
  rewrite lookup_alter_eq in H. destruct (reservations db !! i) as [x|]; [|done]. injection H as <-.
  exists x. destruct (F x). auto.
Qed.

Lemma retire_row_frame (i : Uuid) (now : Z) (db : Db) : frame db (retire_row i now db).
Proof. apply alter_frame. intros x. case_decide as E; [rewrite E|]; done. Qed.

Lemma release_row_frame (i : Uuid) (now : Z) (db : Db) : frame db (release_row i now db).
Proof.
  unfold release_row. destruct (reservations db !! i); [|by apply alter_frame].
  exact (alter_frame i (set_state i now Released) db (fun x => conj eq_refl (fun _ => eq_refl))).
Qed.

Lemma update_intent_frame (i : Uuid) (now : Z) (f c p : bool) (db : Db) : frame db (update_intent i now f c p db).
Proof. by apply frame_same. Qed.

Lemma delete_reservation_frame (i : Uuid) (now : Z) (db db' : Db) : delete_reservation i now db = Some db' -> frame db db'.
Proof.
  unfold delete_reservation. destruct (reservations db !! i) as [x|]; [|by intros [= <-]].
  destruct (state x), (released_at x), (prune_after x); try done. destruct (_ && _); [|done].
  intros [= <-]. split; [done|]. split; [done|]. cbn. intros j y H. apply lookup_delete_Some in H as [_ H]. eauto.
Qed.

Lemma delete_intent_frame (i : Uuid) (now : Z) (db db' : Db) : delete_intent i now db = Some db' -> frame db db'.
Proof.
  unfold delete_intent. destruct (intents db !! i) as [x|]; [|by intros [= <-]].
  destruct (settled_at x), (i_prune_after x), (reservations db !! i); try done.
  destruct (_ && _); [|done]. intros [= <-]. by apply frame_same.
Qed.

Lemma insert_intent_frame (i : Uuid) (x : Intent) (now : Z) (db db' : Db) : insert_intent i x now db = Ok db' -> frame db db'.
Proof.
  unfold insert_intent. destruct (reservations db !! i); [done|].
  destruct (new_identity _ _ _ _) as [db1|] eqn:N; [|done]. apply new_identity_inv in N as [-> _]. cbn.
  destruct (intents db !! i); [done|]. intros [= <-]. by apply frame_same.
Qed.

Lemma insert_command_frame (i : Uuid) (b : Binding) (db db' : Db) : insert_command i b db = Ok db' -> frame db db'.
Proof.
  unfold insert_command. destruct (reservations db !! i); [|done]. destruct (commands db !! i); [done|].
  destruct (negb _); [done|]. destruct (is_some_and _ _); [done|]. intros [= <-]. by apply frame_same.
Qed.

(** All rows counted but one were counted before. *)
Lemma count_le (P P' : Uuid * Row -> Prop) `{!forall x, Decision (P x)} `{!forall x, Decision (P' x)}
    (m m' : gmap Uuid Row) (j : Uuid) :
  (forall i x, m' !! i = Some x -> P' (i, x) -> i <> j -> exists y, m !! i = Some y /\ P (i, y)) ->
  Z.of_nat (size (filter P' m')) <= Z.of_nat (size (filter P m)) + 1.
Proof.
  intros In. rewrite <- !size_dom. assert (S : dom (filter P' m') ⊆ {[j]} ∪ dom (filter P m)).
  { intros i. rewrite elem_of_union, elem_of_singleton, !elem_of_dom. intros [x X].
    apply map_lookup_filter_Some in X as [X1 X2]. destruct (decide (i = j)) as [|N]; [by left|]. right.
    destruct (In i x X1 X2 N) as (y & Y1 & Y2). exists y. by apply map_lookup_filter_Some. }
  apply subseteq_size in S. rewrite size_union_alt, size_singleton in S.
  assert (L : (size (dom (filter P m) ∖ {[j]}) <= size (dom (filter P m)))%nat) by (apply subseteq_size; set_solver).
  lia.
Qed.

Lemma insert_reservation_rows (r : Request) (x : Row) (now : Z) (db db' : Db) :
  insert_reservation r x now db = Ok db' ->
  users db' = users db /\ policies db' = policies db /\ controls db' = controls db /\
  commands db' = commands db /\ reservations db !! id r = None /\
  reservations db' = <[id r := x]> (reservations db).
Proof.
  unfold insert_reservation. intros H.
  assert (S : exists db1, (users db1 = users db /\ policies db1 = policies db /\ controls db1 = controls db /\
      commands db1 = commands db /\ reservations db1 = reservations db) /\ reservations db !! id r = None /\
    with_reservations (<[id r := x]> (reservations db1)) db1 = db').
  { destruct (intents db !! id r) as [y|].
    - destruct (_ && same_actor y r); [|done]. exists (update_intent (id r) now false false true db).
      split; [done|]. cbn in H. destruct (reservations db !! id r); [done|].
      destruct (source_ok x); [by injection H|done].
    - destruct (reservations db !! id r) eqn:R; [done|].
      destruct (new_identity _ _ _ _) as [db1|] eqn:N; [|done]. apply new_identity_inv in N as [-> _].
      cbn in H. rewrite R in H. destruct (source_ok x); [|done]. exists (raise_cutoff now db). by injection H. }
  destruct S as (db1 & (U & P & K & M & R) & N & <-). cbn. by rewrite U, P, K, M, R.
Qed.

(** ** Relations that every operation but an admission respects

    [Steady]: that releases need not respect either. *)

Class Steady (R : Db -> Db -> Prop) : Prop := {
  stable_order :: PreOrder R;
  stable_update_intent i now f c p db : R db (update_intent i now f c p db);
  stable_retire_row i now db : R db (retire_row i now db);
  stable_deadline i t x db : reservations db !! i = Some x ->
    R db (with_reservations (<[i := with_deadline t x]> (reservations db)) db);
  stable_raise_cutoff now db : R db (raise_cutoff now db);
  stable_instances m db : dom (instances db) ⊆ dom m -> R db (with_instances m db);
  stable_controls m db : R db (with_controls m db);
  stable_insert_intent i x now db db' : insert_intent i x now db = Ok db' -> R db db';
  stable_delete_reservation i now db db' : delete_reservation i now db = Some db' -> R db db';
  stable_delete_intent i now db db' : delete_intent i now db = Some db' -> R db db' }.

Class Stable (R : Db -> Db -> Prop) : Prop := {
  stable_steady :: Steady R;
  stable_release_row i now db : R db (release_row i now db) }.

#[global] Instance keeps_stable : Stable keeps.
Proof.
  split; [|intros; apply release_row_keeps].
  split; try apply _; try (intros; by eauto using update_intent_keeps, retire_row_keeps, raise_cutoff_keeps,
    instances_keeps, delete_reservation_keeps, delete_intent_keeps).
  - intros i t x db R. apply keeps_intro; cbn; [lia|by eauto|done|]. intros j Hj.
    destruct (decide (i = j)) as [<-|]; [by rewrite lookup_insert_eq|by rewrite lookup_insert_ne].
  - intros m db j Hj. exact Hj.
  - intros i x now db db' H. by apply insert_intent_keeps in H as [H _].
Qed.

#[global] Instance frame_stable : Stable frame.
Proof.
  split; [|intros; apply release_row_frame].
  split; try apply _; try (intros; by eauto using update_intent_frame, retire_row_frame,
    delete_reservation_frame, delete_intent_frame, insert_intent_frame, frame_same).
  intros i t x db E. split; [done|]. split; [done|]. cbn. intros j y H. destruct (decide (i = j)) as [<-|].
  - rewrite lookup_insert_eq in H. injection H as <-. by exists x.
  - rewrite lookup_insert_ne in H by done. eauto.
Qed.

Section stable.
Context (R : Db -> Db -> Prop) `{!Steady R}.

Lemma foldr_stable (f : Uuid -> Db -> Db) (l : list Uuid) (db : Db) : (forall i db, R db (f i db)) -> R db (foldr f db l).
Proof. intros H. induction l as [|i l IH]; cbn; [done|]. etrans; [exact IH|apply H]. Qed.

Lemma start_prune_stable (busy : Db -> Uuid -> bool) (l : list Uuid) (now : Z) (db db' : Db) :
  start_prune busy l now db = Some db' -> R db db'.
Proof.
  revert db. induction l as [|i l IH]; intros db; cbn; [by intros [= <-]|].
  destruct (_ && negb _); [|auto]. intros H.
  assert (S : exists db1, R db db1 /\ match reservations db1 !! i with
      | Some _ => start_prune busy l now db1
      | None => let! db := delete_intent i now db1 in start_prune busy l now db
      end = Some db').
  { destruct (reservations db !! i) as [x|] eqn:E; [|by exists db; rewrite E in *].
    destruct (_ && _) in H; [|by exists db; rewrite E in *].
    destruct (delete_reservation i now db) as [db1|] eqn:D; [|done]. exists db1. split; [|done].
    by eapply stable_delete_reservation. }
  destruct S as (db1 & K & S). etrans; [exact K|]. destruct (reservations db1 !! i); [auto|].
  destruct (delete_intent i now db1) as [db2|] eqn:D; [|done]. etrans; [by eapply stable_delete_intent|auto].
Qed.

Lemma prune_rows_stable (busy : Db -> Uuid -> bool) (l : list Uuid) (now : Z) (db db' : Db) :
  prune_rows busy l now db = Some db' -> R db db'.
Proof.
  revert db. induction l as [|i l IH]; intros db; cbn; [by intros [= <-]|].
  destruct (reservations db !! i); [|auto]. destruct (_ && negb (busy db i)); [|auto].
  destruct (delete_reservation i now db) as [db1|] eqn:D; [|done]. intros H.
  etrans; [by eapply stable_delete_reservation|auto].
Qed.

Lemma register_stable (inst : Uuid) (s : Scope) (i : Uuid) (hash : Hash) (context : result Z AdmissionError) (now : Z)
    (n : bool) (db db' : Db) : register inst s i hash context now db = Ok (n, db') -> R db db'.
Proof.
  unfold register. destruct (instances db !! inst); [|done]. destruct (_ || _); [done|]. destruct context; [|done].
  destruct (compatible db); [|done]. destruct (intents db !! i).
  - cbn. destruct (intent_actor _ _); [|done]. cbn. destruct (_ || _); [done|]. by intros [= _ <-].
  - cbn. destruct (transport_code _); [|done]. cbn. destruct (insert_intent _ _ _ _) eqn:I; [|done]. intros [= _ <-].
    by eapply stable_insert_intent.
Qed.

(** What [withdraw] does before it fences and retires. *)
Definition withdrawn (s : Scope) (i : Uuid) (now : Z) (db : Db) : Db :=
  let db := match intents db !! i with
            | Some x => if i_household x =? user s then update_intent i now true false false db else db
            | None => db
            end in
  match reservations db !! i with
  | Some x => if household_id x =? user s then retire_row i now db else db
  | None => db
  end.

Lemma withdraw_inv (inst : Uuid) (s : Scope) (i : Uuid) (context : result unit AdmissionError) (now : Z) (db db' : Db) :
  withdraw inst s i context now db = Ok db' ->
  exists db1, db' = withdrawn s i now db1 /\ R db db1 /\
    match intents db1 !! i with
    | Some x => i_household x = user s
    | None => uuid_extract_timestamp i < cutoff db1
    end.
Proof.
  unfold withdraw. destruct context; [|done]. destruct (compatible db); [|done]. cbn [negb]. intros H.
  destruct (intents db !! i) as [x|] eqn:E.
  - destruct (intent_actor x s) eqn:A; [|done]. injection H as <-. exists db. split; [done|]. split; [done|].
    rewrite E. unfold intent_actor in A. dk_bool. lia.
  - destruct (reservations db !! i) eqn:Q; [done|].
    destruct (Z.ltb_spec (uuid_extract_timestamp i) (cutoff (raise_cutoff now db))) as [T|_].
    + injection H as <-. exists (raise_cutoff now db). split; [done|]. split; [apply stable_raise_cutoff|].
      cbn. by rewrite E.
    + destruct (ok_or _ _); [|done]. destruct (insert_intent _ _ _ _) as [db1|] eqn:I; [|done].
      injection H as <-. exists db1. split; [done|]. split.
      * etrans; [apply stable_raise_cutoff|by eapply stable_insert_intent].
      * destruct (insert_intent_keeps _ _ _ _ _ I) as (_ & _ & x' & E' & Hh & _). by rewrite E'.
Qed.

Lemma withdrawn_stable (s : Scope) (i : Uuid) (now : Z) (db : Db) : R db (withdrawn s i now db).
Proof.
  unfold withdrawn. set (db2 := match intents db !! i with Some _ => _ | None => _ end).
  assert (K : R db db2).
  { subst db2. destruct (intents db !! i); [|done]. destruct (_ =? _); [|done]. apply stable_update_intent. }
  destruct (reservations db2 !! i); [|done]. destruct (_ =? _); [|done]. etrans; [exact K|apply stable_retire_row].
Qed.

End stable.

Section ledger.
Context (to_string : Fingerprint -> option string) (from_str : string -> option Fingerprint).
Context (verify : Db -> Request -> option Row -> result Verified AdmissionError).
Context (ambient_allowed : Db -> Request -> Uuid -> Z -> bool).
Context (digest : Policy -> option Hash) (permitted : Db -> Uuid -> Policy -> bool) (busy : Db -> Uuid -> bool).

Abbreviation receipt := (receipt to_string from_str).
Abbreviation claim_existing := (claim_existing to_string from_str verify).
Abbreviation claim_new := (claim_new to_string from_str verify ambient_allowed digest).
Abbreviation claim := (claim to_string from_str verify ambient_allowed digest).
Abbreviation check_on := (check_on to_string from_str verify ambient_allowed permitted).
Abbreviation retire := (retire to_string).
Abbreviation start_prune := (start_prune busy).
Abbreviation prune_rows := (prune_rows busy).
Abbreviation prune := (prune busy).
Abbreviation step := (step to_string from_str verify ambient_allowed digest permitted busy).
Abbreviation history := (history to_string from_str verify ambient_allowed digest permitted busy).

Lemma receipt_fresh (i : Uuid) (x : Row) (now : Z) (f : bool) (owner : Uuid) (y : Receipt) :
  receipt i x now f owner = Ok y -> fresh y = f.
Proof.
  unfold Ledger.receipt. destruct (decode _ _ i (fingerprint x)); [|done]. destruct (_ || _); [done|].
  by intros [= <-].
Qed.

(** A new claim, seen from outside. *)
Lemma claim_new_inv (inst : Uuid) (r : Request) (fp : string) (b : option Binding) (now : Z) (db db' : Db) (y : Receipt) :
  claim_new inst r fp b now db = Ok (y, db') ->
  fresh y = true /\ exists limit v db1, ceiling db (user (actor r)) = Ok limit /\ verify db r None = Ok v /\
    option_ok b (binding_ok ambient_allowed digest db r) = Ok tt /\
    allows limit (streams (user (actor r)) db) = true /\
    (is_live (subject r) = true -> allows (cap v) (live_streams (user (actor r)) db) = true) /\
    insert_reservation r (mk_row inst (user (actor r)) fp (kind_of (subject r)) (v_assignment v) (v_generation v)
      (v_key v) Held (now + seconds 60) None None) now db = Ok db1 /\
    match b with Some b => insert_command (id r) b db1 = Ok db' | None => db' = db1 end.
Proof.
  unfold Ledger.claim_new. destruct (ceiling db _) as [limit|]; [|done]. destruct (option_ok b _) as [[]|]; [|done].
  destruct (verify db r None) as [v|]; [|done].
  destruct (negb (allows limit _) || _) eqn:A; [done|]. apply orb_false_iff in A as [A1 A2].
  destruct (insert_reservation _ _ _ _) as [db1|] eqn:I; [|done]. intros H.
  assert (X : fresh y = true /\ match b with Some b => insert_command (id r) b db1 = Ok db' | None => db' = db1 end).
  { destruct b as [b|].
    - destruct (insert_command (id r) b db1) as [db2|]; [|done]. destruct (receipt _ _ _ _ _) eqn:Y in H; [|done].
      destruct (promotion_complete _ _); [|done]. injection H as <- <-. by apply receipt_fresh in Y.
    - destruct (receipt _ _ _ _ _) eqn:Y in H; [|done]. destruct (promotion_complete _ _); [|done].
      injection H as <- <-. by apply receipt_fresh in Y. }
  destruct X as [X1 X2]. split; [done|]. exists limit, v, db1.
  repeat (split; [done|]). split; [by destruct (allows limit _)|]. split.
  { intros L. rewrite L in A2. cbn in A2. by destruct (allows (cap v) _). }
  done.
Qed.

(** A claim finds the reservation of its identity, or admits it. *)
Lemma claim_cases (inst : Uuid) (r : Request) (allow : bool) (b : option Binding) (now : Z) (db db' : Db) (y : Receipt) :
  claim inst r allow b now db = Ok (y, db') ->
  fresh y = false /\ (db' = db \/ db' = retire_row (id r) now db) \/
  (fresh y = true /\ allow = true) /\ exists fp, encode to_string r = Ok fp /\ reservations db !! id r = None /\
    claim_new inst r fp b now db = Ok (y, db').
Proof.
  unfold Ledger.claim. destruct (encode to_string r) as [fp|] eqn:E; [|done]. destruct (instance db inst true); [|done].
  destruct (household db _); [|done]. destruct (reservations db !! id r) as [x|] eqn:R.
  - unfold Ledger.claim_existing. destruct (_ || _); [done|]. destruct (matches db (id r) b); [|done]. intros H. left.
    destruct (_ && _) in H; destruct (receipt _ _ _ _ _) as [y'|] eqn:Y in H; try done; injection H as <- <-;
      apply receipt_fresh in Y; auto.
  - destruct allow; cbn [negb]; [|by destruct (missing _ _ _)]. intros H. right.
    split; [split; [by eapply claim_new_inv|done]|by exists fp].
Qed.

Lemma claim_new_held (inst : Uuid) (r : Request) (fp : string) (b : option Binding) (now : Z) (db db' : Db) (y : Receipt) :
  claim_new inst r fp b now db = Ok (y, db') -> r_state y = Held.
Proof.
  assert (H : forall x f, receipt (id r) x now f inst = Ok y -> r_state y = state x).
  { intros x f. unfold Ledger.receipt. destruct (decode _ _ _ _); [|done]. destruct (_ || _); [done|]. by intros [= <-]. }
  unfold Ledger.claim_new. destruct (ceiling db _); [|done]. destruct (option_ok b _); [|done].
  destruct (verify db r None); [|done]. destruct (_ || _); [done|].
  destruct (insert_reservation _ _ _ _) as [db1|]; [|done]. cbn.
  destruct (match b with Some _ => _ | None => _ end) as [db2|]; [|done].
  destruct (receipt _ _ _ _ _) as [y'|] eqn:E; [|done]. destruct (promotion_complete _ _); [|done].
  intros [= -> _]. by apply H in E.
Qed.

Lemma claim_new_admits (inst : Uuid) (r : Request) (fp : string) (b : option Binding) (now : Z) (db db' : Db) (y : Receipt) :
  claim_new inst r fp b now db = Ok (y, db') -> keeps db db' /\ ~ dead (id r) db /\ dead (id r) db'.
Proof.
  intros H. apply claim_new_inv in H as (_ & limit & v & db1 & _ & _ & _ & _ & _ & I & C).
  apply insert_reservation_admits in I as (K & N & D). destruct b as [b|]; [|by subst].
  apply insert_command_keeps in C as [C _]. split; [by etrans|]. split; [done|by apply C].
Qed.

(** After a withdrawal the identity is dead. *)
Lemma withdraw_dead (inst : Uuid) (s : Scope) (i : Uuid) (context : result unit AdmissionError) (now : Z) (db db' : Db) :
  withdraw inst s i context now db = Ok db' -> dead i db'.
Proof.
  intros H. apply (withdraw_inv keeps) in H as (db1 & -> & _ & D). unfold withdrawn.
  set (db2 := match intents db1 !! i with Some _ => _ | None => _ end). assert (K : dead i db2).
  { subst db2. unfold dead. destruct (intents db1 !! i) as [x|] eqn:E; [|rewrite E; by right].
    rewrite D, Z.eqb_refl. cbn. rewrite lookup_alter_eq, E. cbn. by rewrite orb_true_r. }
  destruct (reservations db2 !! i); [|done]. destruct (_ =? _); [|done]. by apply retire_row_keeps.
Qed.

Section steady.
Context (R : Db -> Db -> Prop) `{!Steady R}.

Lemma check_on_steady (inst : Uuid) (r : Request) (renew : bool) (b : option Binding) (now : Z) (x : Receipt) (db db' : Db) :
  check_on inst r renew b now db = Ok (x, db') -> R db db'.
Proof.
  intros H. unfold Ledger.check_on in H. destruct (encode _ r); [|done]. destruct (instance _ _ _); [|done].
  destruct (household _ _); [|done]. destruct (reservations db !! id r) as [y|] eqn:E; [|done]. cbn in H.
  destruct (_ || _); [done|]. destruct (_ || _); [done|]. destruct (ceiling _ _); [|done].
  destruct (matches _ _ _); [|done]. destruct (option_ok _ _); [|done]. destruct (verify _ _ _); [|done].
  destruct (receipt _ _ _ _ _); [|done]. injection H as _ <-. destruct renew; [|done]. by apply stable_deadline.
Qed.

Lemma fence_steady (inst : Uuid) (ex now n : Z) (db db' : Db) : fence inst ex now db = Ok (n, db') -> R db db'.
Proof.
  intros H. unfold fence in H. destruct (instances db !! inst) as [y|]; [|done]. destruct (_ && _); [|done].
  injection H as _ <-. etrans; [|apply (foldr_stable R); intros; apply stable_retire_row].
  etrans; [|apply (foldr_stable R); intros; apply stable_update_intent]. apply stable_instances, dom_insert_subseteq.
Qed.

Lemma register_instance_steady (inst : Uuid) (db db' : Db) : register_instance inst db = Ok db' -> R db db'.
Proof.
  unfold register_instance. destruct (instances db !! inst); [done|]. intros [= <-]. apply stable_instances, dom_insert_subseteq.
Qed.

Lemma complete_steady (inst : Uuid) (s : Scope) (i : Uuid) (f : bool) (now : Z) (db db' : Db) :
  complete inst s i f now db = Ok db' -> R db db'.
Proof.
  unfold complete. destruct (intents db !! i); [|done]. destruct (_ || _); [done|]. intros [= <-].
  apply stable_update_intent.
Qed.

Lemma withdraw_steady (inst : Uuid) (s : Scope) (i : Uuid) (ctx : result unit AdmissionError) (now : Z) (db db' : Db) :
  withdraw inst s i ctx now db = Ok db' -> R db db'.
Proof. intros H. apply (withdraw_inv R) in H as (db1 & -> & K & _). etrans; [exact K|by apply withdrawn_stable]. Qed.

Lemma prune_steady (inst : Uuid) (starts rows : list Uuid) (now : Z) (db db' : Db) :
  prune inst starts rows now db = Ok db' -> R db db'.
Proof.
  unfold Ledger.prune. destruct (instance _ _ _); [|done]. intros H.
  destruct (start_prune _ _ _) as [db1|] eqn:S; [|done]. cbn in H.
  destruct (prune_rows _ _ _) as [db2|] eqn:P; [|done]. injection H as <-.
  etrans; [apply (stable_raise_cutoff now)|].
  etrans; [by eapply (start_prune_stable R)|by eapply (prune_rows_stable R)].
Qed.

End steady.

(** [retire] changes the row of its own identity only, and of its own instance. *)
Lemma retire_cases (inst : Uuid) (r : Request) (release : bool) (now : Z) (db db' : Db) :
  retire inst r release now db = Ok db' ->
  exists fp, encode to_string r = Ok fp /\
    match reservations db !! id r with
    | None => db' = db
    | Some x => instance_id x = inst /\ fingerprint x = fp /\
                db' = if release then release_row (id r) now db else retire_row (id r) now db
    end.
Proof.
  unfold Ledger.retire. destruct (encode _ r) as [fp|]; [|done]. destruct (instance _ _ _); [|done].
  intros H. exists fp. split; [done|]. cbn in H. destruct (reservations db !! id r) as [x|]; [|by injection H].
  destruct (_ || _) eqn:E; [done|]. dk_bool. apply String.eqb_eq in H1. injection H as <-. done.
Qed.

(** A committed transaction respects every stable relation, or admits. *)
Lemma step_stable (R : Db -> Db -> Prop) `{!Stable R} (db db' : Db) (e : option Uuid) :
  step db e db' ->
  e = None /\ R db db' \/
  exists inst r fp b now x, e = Some (id r) /\ claim_new inst r fp b now db = Ok (x, db').
Proof.
  destruct 1 as [inst r allow b now x db' H|inst r renew b now x db' H|inst r release now db' H|inst db' H|
    inst ex now n db' H|inst rev now db' H|inst s i hash ctx now n db' H|inst s i f now db' H|
    inst s i ctx now db' H|inst starts rows now db' H|i now|m].
  { apply claim_cases in H as [[-> [->| ->]]|([-> _] & fp & _ & _ & H)]; [by left|left; split; [done|apply stable_retire_row]|].
    right. by exists inst, r, fp, b, now, x. }
  all: left; split; [done|].
  - by eapply (check_on_steady R).
  - apply retire_cases in H as (fp & _ & H). destruct (reservations db !! id r); [|by subst].
    destruct H as (_ & _ & ->). destruct release; [apply stable_release_row|apply stable_retire_row].
  - by eapply (register_instance_steady R).
  - by eapply (fence_steady R).
  - unfold reconcile in H. cbn in H. destruct (instances db !! inst) as [y|]; [|done].
    destruct (_ && _); [|done]. injection H as <-. etrans; [|apply stable_instances, dom_insert_subseteq].
    etrans; [|apply (foldr_stable R); intros; apply stable_update_intent].
    apply (foldr_stable R). intros. apply stable_release_row.
  - by eapply (register_stable R).
  - by eapply (complete_steady R).
  - by eapply (withdraw_steady R).
  - by eapply (prune_steady R).
  - apply stable_retire_row.
  - apply stable_controls.
Qed.

(** Dead identities stay dead, and an admitted one was not but is. *)
Lemma step_dead (db db' : Db) (e : option Uuid) :
  step db e db' ->
  keeps db db' /\ match e with Some i => ~ dead i db /\ dead i db' | None => True end.
Proof.
  intros [[-> K]|(inst & r & fp & b & now & x & -> & C)]%(step_stable keeps); [done|].
  by apply claim_new_admits in C.
Qed.

(** C24. In any history of the ledger an identity is admitted at most once, however
    often it is claimed, released, pruned or withdrawn; and never after a
    withdrawal of it was committed. *)
Theorem identities_are_admitted_once (fixed : bool) (db db' : Db) (l : list Uuid) :
  history fixed db l db' ->
  NoDup l /\
  forall inst s i context now db0, withdraw inst s i context now db0 = Ok db -> i ∉ l.
Proof.
  intros H. assert (M : keeps db db' /\ NoDup l /\ forall i, dead i db -> i ∉ l).
  { induction H as [db|db e db1 l db2 T _ (K & N & D)|db db1 l db2 _ [u p] _ IH].
    - split; [done|]. split; [constructor|]. intros i _. apply not_elem_of_nil.
    - destruct (step_dead _ _ _ T) as [K' E]. split; [by etrans|]. destruct e as [i|].
      + destruct E as [E1 E2]. split; [constructor; auto|]. intros j Hj.
        apply not_elem_of_cons. split; [congruence|auto].
      + auto.
    - exact IH. }
  destruct M as (_ & N & D). split; [done|]. intros inst s i context now db0 W. apply D.
  by eapply withdraw_dead.
Qed.

Lemma count_allowed (limit : option Z) (n c : Z) : allows limit n = true -> limit = Some c -> n < c.
Proof. intros A ->. cbn in A. dk_bool. lia. Qed.

(** An admission adds at most one row to a count, and none to other households. *)
Lemma claim_new_rows (inst : Uuid) (r : Request) (fp : string) (b : option Binding) (now : Z) (db db' : Db) (y : Receipt) :
  claim_new inst r fp b now db = Ok (y, db') ->
  users db' = users db /\ policies db' = policies db /\ controls db' = controls db /\
  reservations db !! id r = None /\
  (exists x, (stream_of x = (user (actor r), inst, fp) /\ state x = Held) /\
             reservations db' = <[id r := x]> (reservations db)) /\
  (forall i, i <> id r -> commands db' !! i = commands db !! i).
Proof.
  intros H. apply claim_new_inv in H as (_ & limit & v & db1 & _ & _ & _ & _ & _ & I & C).
  apply insert_reservation_rows in I as (U & P & K & M & N0 & Q).
  destruct b as [b|].
  - unfold insert_command in C. destruct (reservations db1 !! id r); [|done]. destruct (commands db1 !! id r); [done|].
    destruct (negb _); [done|]. destruct (is_some_and _ _); [done|]. injection C as <-. cbn.
    rewrite U, P, K, M, Q. do 4 (split; [done|]). split; [eexists; split; [|reflexivity]; done|].
    intros i N. by rewrite lookup_insert_ne.
  - subst db'. rewrite U, P, K, M, Q. do 4 (split; [done|]). split; [eexists; split; [|reflexivity]; done|done].
Qed.

Lemma claim_new_streams (inst : Uuid) (r : Request) (fp : string) (b : option Binding) (now : Z) (db db' : Db) (y : Receipt) :
  claim_new inst r fp b now db = Ok (y, db') ->
  users db' = users db /\ policies db' = policies db /\
  forall h c, ceiling db h = Ok (Some c) -> streams h db' <= Z.max c (streams h db).
Proof.
  intros H. pose proof (claim_new_rows _ _ _ _ _ _ _ _ H) as (U & P & _ & N0 & (x & [[= E _ _] _] & Q) & _).
  apply claim_new_inv in H as (_ & limit & v & db1 & L & _ & _ & A & _). split; [done|]. split; [done|]. intros h c C.
  destruct (decide (h = user (actor r))) as [->|N].
  - rewrite L in C. injection C as ->. pose proof (count_allowed _ _ c A eq_refl).
    enough (streams (user (actor r)) db' <= streams (user (actor r)) db + 1) by lia. unfold streams. rewrite Q.
    apply (count_le _ _ _ _ (id r)). intros i z Z F Ni. rewrite lookup_insert_ne in Z by done. eauto.
  - enough (streams h db' = streams h db) by lia. unfold streams. rewrite Q.
    rewrite map_filter_insert_False, map_filter_delete_not; [done| |]; cbn.
    + intros z Z. congruence.
    + intros [F _]. congruence.
Qed.

Lemma ceiling_same (db db' : Db) (h : Uuid) : users db' = users db -> policies db' = policies db -> ceiling db' h = ceiling db h.
Proof. intros U P. unfold ceiling, applying. by rewrite U, P. Qed.

(** What a claim that admits finds: the ceilings hold after it, for all streams of
    the household, for live ones and for those that encode. *)
Theorem fresh_claim_within_limits (inst : Uuid) (r : Request) (allow : bool) (b : option Binding) (now : Z) (db db' : Db)
    (y : Receipt) :
  claim inst r allow b now db = Ok (y, db') -> fresh y = true ->
  (forall c, ceiling db (user (actor r)) = Ok (Some c) -> streams (user (actor r)) db' <= c) /\
  (is_live (subject r) = true -> forall v c, verify db r None = Ok v -> cap v = Some c ->
     live_streams (user (actor r)) db' <= c) /\
  (forall b' p c, b = Some b' -> encodes b' = true -> vod_policy db (user (actor r)) = Ok p ->
     transcode p = Some c -> encoding_streams (user (actor r)) db' <= c).
Proof.
  intros H F. apply claim_cases in H as [[F' _]|(_ & fp & _ & _ & H)]; [congruence|].
  pose proof (claim_new_rows _ _ _ _ _ _ _ _ H) as (_ & _ & K & N0 & (x & _ & Q) & M).
  apply claim_new_inv in H as (_ & limit & v & db1 & L & V & O & A & B & _).
  assert (Other : forall i z, reservations db' !! i = Some z -> i <> id r -> reservations db !! i = Some z)
    by (intros i z Z N; rewrite Q, lookup_insert_ne in Z by done; done).
  split; [|split].
  - intros c C. rewrite L in C. injection C as ->. pose proof (count_allowed _ _ c A eq_refl).
    enough (streams (user (actor r)) db' <= streams (user (actor r)) db + 1) by lia.
    apply (count_le _ _ _ _ (id r)). intros i z Z D N. eauto.
  - intros Lv v' c V' C. rewrite V in V'. injection V' as <-. pose proof (count_allowed _ _ c (B Lv) C).
    enough (live_streams (user (actor r)) db' <= live_streams (user (actor r)) db + 1) by lia.
    apply (count_le _ _ _ _ (id r)). intros i z Z D N. eauto.
  - intros b' p c -> Enc P C. cbn in O. unfold binding_ok in O. destruct (is_live _); [done|]. rewrite P in O.
    destruct (if permits p b' then _ else _) as [d|]; [|done]. destruct (negb _); [done|].
    destruct (ambient_ok _ _ _ _); [|done]. rewrite Enc in O. cbn in O.
    destruct (allows (transcode p) _) eqn:W; [|done]. pose proof (count_allowed _ _ c W C).
    enough (encoding_streams (user (actor r)) db' <= encoding_streams (user (actor r)) db + 1) by lia.
    apply (count_le _ _ _ _ (id r)). intros i z Z D N. exists z. split; [eauto|]. cbn in *.
    unfold claims_encoding in *. rewrite K, M in D by done. done.
Qed.

Lemma history_capacity (db db' : Db) (l : list Uuid) (h : Uuid) (c : Z) :
  history true db l db' -> ceiling db h = Ok (Some c) -> streams h db' <= Z.max c (streams h db).
Proof.
  intros H. remember true as fixed eqn:F. induction H as [db|db e db1 l db2 T _ IH|]; intros C; [lia| |congruence].
  assert (S : users db1 = users db /\ policies db1 = policies db /\ streams h db1 <= Z.max c (streams h db)).
  { apply (step_stable frame) in T as [[_ (U & P & S)]|(inst & r & fp & b & now & x & _ & N)].
    - split; [done|]. split; [done|]. pose proof (streams_shrinks h _ _ S). lia.
    - apply claim_new_streams in N as (U & P & N). auto. }
  destruct S as (U & P & S). rewrite (ceiling_same db db1 h U P) in IH. specialize (IH C). lia.
Qed.

(** While an administrator changes no policy and no user, the number of streams
    of a household that are not released never exceeds its ceiling (or the number
    it had, if that was above the ceiling already). *)
Theorem capacity_is_kept (db db' : Db) (l : list Uuid) (h : Uuid) (c : Z) :
  history true db l db' -> ceiling db h = Ok (Some c) -> streams h db' <= Z.max c (streams h db).
Proof. apply history_capacity. Qed.

End ledger.
(** ** A small household *)

Definition sample_time : Z := seconds 1700000000.
(** An identifier of version 7 made at [sample_time]. *)
Definition sample_id (n : Z) : Uuid := Z.shiftl (sample_time / 1000) 80 + Z.shiftl 7 76 + n.
Definition sample_scope : Scope := mk_scope 1 10 11 12 Cookie None.
Definition sample_request (n : Z) : Request := mk_request (sample_id n) sample_scope 1 (Vod 20 21).
Definition sample_fingerprint : Fingerprint := mk_fingerprint 10 11 12 1 1 0 (Vod 20 21).
Definition sample_policy : StreamingPolicy :=
  mk_streaming_policy (Some 1) None None true true true true None true false true.
Definition sample_db : Db :=
  mk_db {[10 := mk_user None None None None]} {[5 := sample_policy]} {[9 := mk_instance false 1 2 false]} ∅ ∅ ∅ ∅ 0.
Definition sample_to_string (f : Fingerprint) : option string := Some "fingerprint"%string.
Definition sample_from_str (s : string) : option Fingerprint := Some sample_fingerprint.
Definition sample_verify (db : Db) (r : Request) (x : option Row) : result Verified AdmissionError :=
  Ok (mk_verified None None None None).
Definition sample_claim (n : Z) (db : Db) : result (Receipt * Db) AdmissionError :=
  claim sample_to_string sample_from_str sample_verify (fun _ _ _ _ => true) (fun _ => Some []) 9
    (sample_request n) true None (sample_time + 5) db.
Definition sample_withdrawn : Db :=
  match withdraw 9 sample_scope (sample_id 1) (Ok tt) sample_time sample_db with Ok db => db | Err _ => sample_db end.
Definition after_claim (n : Z) (db : Db) : Db := match sample_claim n db with Ok (_, db) => db | Err _ => db end.
Definition sample_receipt (n : Z) : Receipt :=
  mk_receipt (sample_id n) 9 Held (sample_time + 5 + seconds 60) (sample_time + 5) true true.

Lemma sample_history (db : Db) (n : Z) :
  sample_claim n db = Ok (sample_receipt n, after_claim n db) ->
  history sample_to_string sample_from_str sample_verify (fun _ _ _ _ => true) (fun _ => Some [])
    (fun _ _ _ => true) (fun _ _ => false) true db [sample_id n] (after_claim n db).
Proof.
  intros H. eapply (history_step _ _ _ _ _ _ _ true db (Some (sample_id n)) _ []); [|apply history_nil].
  exact (step_claim _ _ _ _ _ _ _ db 9 (sample_request n) true None (sample_time + 5) _ _ H).
Qed.

(** The second request is admitted after the first was withdrawn; the first one,
    and a third for which there is no room, are not. *)
Example sample_refused :
  sample_claim 1 sample_withdrawn = Err Conflict /\
  sample_claim 3 (after_claim 2 sample_withdrawn) = Err Capacity.
Proof. split; vm_compute; reflexivity. Qed.

(** A start settled and released in the same millisecond of the day before: the
    query of [start_prune] takes it, since it compares with the time itself, and
    the trigger refuses, since it compares with its millisecond; the whole
    transaction of [prune] fails. *)
Example prune_is_refused :
  let t := sample_time + 500 in
  let x := mk_row 9 10 "fingerprint" Kind_vod None None None Released sample_time (Some t)
             (Some (prune_time (sample_id 1) t)) in
  let y := mk_intent 10 11 1 0 (Some 12) (Some 1) (Some []) 9 true true true sample_time (Some t)
             (Some (prune_time (sample_id 1) t)) in
  let db := with_intents {[sample_id 1 := y]} (with_reservations {[sample_id 1 := x]} sample_db) in
  prune (fun _ _ => false) 9 [sample_id 1] [] (t + hours 24) db = Err Conflict.
Proof. vm_compute. reflexivity. Qed.

Lemma identities_are_admitted_once_witness :
  withdraw 9 sample_scope (sample_id 1) (Ok tt) sample_time sample_db = Ok sample_withdrawn /\
  NoDup [sample_id 2] /\ sample_id 1 ∉ [sample_id 2].
Proof.
  assert (W : withdraw 9 sample_scope (sample_id 1) (Ok tt) sample_time sample_db = Ok sample_withdrawn)
    by (vm_compute; reflexivity).
  split; [exact W|].
  assert (H : sample_claim 2 sample_withdrawn = Ok (sample_receipt 2, after_claim 2 sample_withdrawn))
    by (vm_compute; reflexivity).
  destruct (identities_are_admitted_once _ _ _ _ _ _ _ true _ _ _ (sample_history sample_withdrawn 2 H)) as [N D].
  split; [exact N|]. exact (D 9 sample_scope (sample_id 1) (Ok tt) sample_time sample_db W).
Defined.

Lemma capacity_is_kept_example :
  ceiling sample_db 10 = Ok (Some 1) /\ streams 10 (after_claim 2 sample_db) = 1 /\
  streams 10 (after_claim 2 sample_db) <= Z.max 1 (streams 10 sample_db).
Proof.
  assert (H : sample_claim 2 sample_db = Ok (sample_receipt 2, after_claim 2 sample_db)) by (vm_compute; reflexivity).
  assert (C : ceiling sample_db 10 = Ok (Some 1)) by (vm_compute; reflexivity).
  split; [exact C|]. split; [vm_compute; reflexivity|].
  exact (capacity_is_kept _ _ _ _ _ _ _ _ _ _ 10 1 (sample_history sample_db 2 H) C).
Defined.

End LedgerProofs.
