(* ===== verification/AdmissionOwner.v ===== *)
(** * The owner of playback admissions

    Models server/src/services/playback_admission/owner (mod.rs, commands.rs,
    lifecycle.rs, the counters of sql.rs and maintenance.rs): what one process keeps
    of the streams it runs, and the tasks that claim, check, retire and release
    their reservations in the tables of Ledger.

    An [Arc<Entry>] is a key of [heap]; a spawned future is a [Task] with the point
    it waits at, and a step runs it to its next point.  Several owners share the
    tables.  A lock is held within one step only. *)

From stdpp Require Import gmap sorting.
From S2P Require Import Prelude Admission Ledger.

Module AdmissionOwner.
Import Admission Ledger.

(** ** Data *)

(** [Entry]; [expires]: its [deadline], an instant in microseconds. *)
Record Entry := mk_entry {
  request : Request; binding : option Binding; cancel : bool; pending : bool; attached : bool;
  checking : bool; expires : option Z; completed : bool }.

(** The future of [enqueue] before it runs, at the ledger, with its answer, and
    before it clears [pending]. *)
Inductive ClaimAt : Type :=
| Queued | Claiming (began : Z) | Claimed (began : Z) (x : result Receipt AdmissionError) | Settling.

(** The future of [queue_check]. *)
Inductive CheckAt : Type :=
| Check_queued | Checking (began : Z) | Checked (began : Z) (x : result Receipt AdmissionError).

(** The future of [monitor]: at [check], at [retire(false)], at [retire(true)],
    each with the answer, and before it clears [checking]. *)
Inductive MonitorAt : Type :=
| M_check | M_checked (ok : bool) | M_retire | M_retired (ok : bool) | M_release | M_released (ok : bool) | M_clear.

(** [resource]: in [select!]; cancelled, before and after it has a permit; in the
    [timeout] until an instant, and after it. *)
Inductive ResourceAt : Type := R_select | R_stop | R_stopping | R_grace (until : Z) | R_overdue.

(** [resource] after its loop: ended badly, before and after it has a permit; ended
    well, likewise, and with the answer of [retire(true)]. *)
Inductive EndingAt : Type := R_fail | R_failing | R_end | R_releasing | R_released (ok : bool).

(** [out]: how the factory ended, if it did; it is running until then. *)
Inductive Task : Type :=
| Claim (k : nat) (r : Request) (b : option Binding) (inserted : bool) (p : ClaimAt)
| Check (k : nat) (r : Request) (renew : bool) (p : CheckAt)
| Monitor (k : nat) (p : MonitorAt)
| Resource (k : nat) (out : option bool) (p : ResourceAt)
| Ending (k : nat) (p : EndingAt)
| Sql.

(** [AdmissionOwner] and its [Gate]; [available]: of the semaphore [commands].
    [watching]: the loop around [monitor] runs; [scanning]: the entries it has left;
    [draining], [drained]: those [drain] has left, and what it returned. *)
Record Owner := mk_owner {
  closed : bool; entries : gmap Uuid nat; heap : gmap nat Entry; tasks : gmap nat Task; next : nat;
  available : Z; failed : bool; maintenance_lost : bool; watching : bool; scanning : option (list nat);
  scan : Z; draining : option (list nat); drained : option (result unit AdmissionError) }.

Definition REGULAR_OPERATIONS : Z := 7.

(** [create] *)
Definition create : Owner :=
  mk_owner false ∅ ∅ ∅ 0 REGULAR_OPERATIONS false false true None 0 None None.

Definition with_heap (m : gmap nat Entry) (o : Owner) : Owner :=
  mk_owner (closed o) (entries o) m (tasks o) (next o) (available o) (failed o) (maintenance_lost o)
    (watching o) (scanning o) (scan o) (draining o) (drained o).
Definition with_entries (m : gmap Uuid nat) (o : Owner) : Owner :=
  mk_owner (closed o) m (heap o) (tasks o) (next o) (available o) (failed o) (maintenance_lost o)
    (watching o) (scanning o) (scan o) (draining o) (drained o).
Definition with_tasks (m : gmap nat Task) (o : Owner) : Owner :=
  mk_owner (closed o) (entries o) (heap o) m (next o) (available o) (failed o) (maintenance_lost o)
    (watching o) (scanning o) (scan o) (draining o) (drained o).
Definition with_flags (c f l w : bool) (o : Owner) : Owner :=
  mk_owner c (entries o) (heap o) (tasks o) (next o) (available o) f l w (scanning o) (scan o)
    (draining o) (drained o).
Definition with_scan (s : option (list nat)) (n : Z) (o : Owner) : Owner :=
  mk_owner (closed o) (entries o) (heap o) (tasks o) (next o) (available o) (failed o) (maintenance_lost o)
    (watching o) s n (draining o) (drained o).
Definition with_drain (l : option (list nat)) (x : option (result unit AdmissionError)) (o : Owner) : Owner :=
  mk_owner (closed o) (entries o) (heap o) (tasks o) (next o) (available o) (failed o) (maintenance_lost o)
    (watching o) (scanning o) (scan o) l x.

(** [available], and a number not used before. *)
Definition give (n : Z) (o : Owner) : Owner :=
  mk_owner (closed o) (entries o) (heap o) (tasks o) (next o) (available o + n) (failed o) (maintenance_lost o)
    (watching o) (scanning o) (scan o) (draining o) (drained o).
Definition advance (o : Owner) : Owner :=
  mk_owner (closed o) (entries o) (heap o) (tasks o) (S (next o)) (available o) (failed o) (maintenance_lost o)
    (watching o) (scanning o) (scan o) (draining o) (drained o).

Definition fail (o : Owner) : Owner := with_flags (closed o) true (maintenance_lost o) (watching o) o.
Definition on_entry (f : Entry -> Entry) (k : nat) (o : Owner) : Owner := with_heap (alter f k (heap o)) o.
Definition put (t : nat) (x : Task) (o : Owner) : Owner := with_tasks (<[t := x]> (tasks o)) o.
Definition finish (t : nat) (o : Owner) : Owner := with_tasks (delete t (tasks o)) o.
Definition spawn (x : Task) (o : Owner) : Owner := advance (put (next o) x o).

(** [remove]: by identity. *)
Definition remove (i : Uuid) (o : Owner) : Owner := with_entries (delete i (entries o)) o.

Definition set_cancel (e : Entry) : Entry :=
  mk_entry (request e) (binding e) true (pending e) (attached e) (checking e) (expires e) (completed e).
Definition set_settled (e : Entry) : Entry :=
  mk_entry (request e) (binding e) (cancel e) false (attached e) (checking e) (expires e) (completed e).
Definition set_attached (e : Entry) : Entry :=
  mk_entry (request e) (binding e) (cancel e) (pending e) true (checking e) (expires e) (completed e).
Definition set_checking (c : bool) (e : Entry) : Entry :=
  mk_entry (request e) (binding e) (cancel e) (pending e) (attached e) c (expires e) (completed e).
Definition set_expires (t : Z) (e : Entry) : Entry :=
  mk_entry (request e) (binding e) (cancel e) (pending e) (attached e) (checking e) (Some t) (completed e).
Definition set_completed (c : bool) (e : Entry) : Entry :=
  mk_entry (request e) (binding e) (cancel e) (pending e) (attached e) (checking e) (expires e) c.

(** ** Transactions *)

(** How a transaction ends: it is answered; the answer of COMMIT is lost, whether it
    was committed or not; or it fails before. *)
Inductive Outcome : Type := Answered | Lost (committed : bool) | Refused (e : AdmissionError).

(** [database::transaction] *)
Definition transaction {A} (oc : Outcome) (action : Db -> result (A * Db) AdmissionError) (db : Db)
    : result A AdmissionError * Db :=
  match oc, action db with
  | Refused e, _ => (Err e, db)
  | _, Err e => (Err e, db)
  | Answered, Ok (x, db') => (Ok x, db')
  | Lost committed, Ok (_, db') => (Err Indeterminate, if committed then db' else db)
  end.

(** The entries in the order of their identities. *)
Definition ordered (m : gmap Uuid nat) : list nat :=
  omap (fun i => m !! i) (merge_sort Z.le (map_to_list m).*1).

Definition held_fresh (x : Receipt) : bool := fresh x && bool_decide (r_state x = Held).

(** [(receipt.deadline - receipt.observed_at).to_std().unwrap_or_default()] *)
Definition remaining (x : Receipt) : Z := Z.max 0 (r_deadline x - observed_at x).

Section owner.
Context (to_string : Fingerprint -> option string) (from_str : string -> option Fingerprint).
Context (verify : Db -> Request -> option Row -> result Verified AdmissionError).
Context (ambient_allowed : Db -> Request -> Uuid -> Z -> bool).
Context (digest : Policy -> option Hash) (permitted : Db -> Uuid -> Policy -> bool) (busy : Db -> Uuid -> bool).

Abbreviation encode := (encode to_string).
Abbreviation claim := (claim to_string from_str verify ambient_allowed digest).
Abbreviation check_on := (check_on to_string from_str verify ambient_allowed permitted).
Abbreviation step := (step to_string from_str verify ambient_allowed digest permitted busy).

Definition retire_unit (inst : Uuid) (r : Request) (release : bool) (now : Z) (db : Db)
    : result (unit * Db) AdmissionError :=
  let? db := retire to_string inst r release now db in Ok (tt, db).

(** ** commands.rs *)

Definition enqueue (r : Request) (b : option Binding) (o : Owner) : result Owner AdmissionError :=
  let? fp := encode r in
  if available o <=? 0 then Err Capacity
  else if closed o || failed o || maintenance_lost o then Err Closed
  else match entries o !! id r with
  | Some k =>
      let? e := ok_or (heap o !! k) Closed in
      let? fe := encode (request e) in
      if negb (String.eqb fe fp) || negb (bool_decide (binding e = b)) then Err Conflict
      else if pending e then Err Pending
      else Ok (spawn (Claim k r b false Queued) (give (-1) o))
  | None =>
      if 128 <=? Z.of_nat (size (entries o)) then Err Capacity
      else
        let k := next o in
        let e := mk_entry r b false true false false None false in
        let o := advance (with_entries (<[id r := k]> (entries o)) (with_heap (<[k := e]> (heap o)) o)) in
        Ok (spawn (Claim k r b true Queued) (give (-1) o))
  end.

(** The owner is open and the entry not cancelled. *)
Definition launches (k : nat) (o : Owner) : bool := negb (closed o) && negb (is_some_and (heap o !! k) cancel).

(** What the future of [enqueue] that inserted [k] does with its answer. *)
Definition claimed (k : nat) (r : Request) (began : Z) (x : result Receipt AdmissionError) (o : Owner) : Owner :=
  match x with
  | Ok x =>
      if held_fresh x then
        let o := on_entry (set_expires (began + remaining x)) k o in
        if launches k o
        then spawn (Resource k None R_select) (on_entry set_attached k o)
        else on_entry set_cancel k o
      else remove (id r) o
  | Err Indeterminate => on_entry set_cancel k o
  | Err _ => remove (id r) o
  end.

Definition run_claim (inst : Uuid) (oc : Outcome) (clock : Z) (t k : nat) (r : Request) (b : option Binding)
    (inserted : bool) (p : ClaimAt) (db : Db) (o : Owner) : Db * Owner :=
  match p with
  | Queued => (db, put t (Claim k r b inserted (Claiming clock)) o)
  | Claiming began =>
      let '(x, db) := transaction oc (claim inst r inserted b clock) db in
      (db, put t (Claim k r b inserted (Claimed began x)) o)
  | Claimed began x =>
      (db, if inserted then put t (Claim k r b inserted Settling) (claimed k r began x o)
           else give 1 (finish t o))
  | Settling => (db, give 1 (finish t (if inserted then on_entry set_settled k o else o)))
  end.

Definition queue_check (r : Request) (renew : bool) (o : Owner) : result Owner AdmissionError :=
  if available o <=? 0 then Err Capacity
  else if closed o || failed o then Err Closed
  else
    let? k := ok_or (entries o !! id r) Retired in
    let? e := ok_or (heap o !! k) Closed in
    let? fe := encode (request e) in
    let? fp := encode r in
    if negb (String.eqb fe fp) then Err Conflict
    else if pending e || cancel e then Err Retired
    else Ok (spawn (Check k r renew Check_queued) (give (-1) o)).

Definition run_check (inst : Uuid) (oc : Outcome) (clock : Z) (t k : nat) (r : Request) (renew : bool) (p : CheckAt)
    (e : Entry) (db : Db) (o : Owner) : Db * Owner :=
  match p with
  | Check_queued => (db, put t (Check k r renew (Checking clock)) o)
  | Checking began =>
      let '(x, db) := transaction oc (check_on inst r renew (binding e) clock) db in
      (db, put t (Check k r renew (Checked began x)) o)
  | Checked began x =>
      let o := match x with
               | Ok x => if renew then on_entry (set_expires (began + remaining x)) k o else o
               | Err _ => on_entry set_cancel k o
               end in
      (db, give 1 (finish t o))
  end.

(** ** lifecycle.rs *)

(** The condition under which [monitor] and [drain] release. *)
Definition is_over (e : Entry) : bool := negb (attached e) || completed e.

Definition run_monitor (inst : Uuid) (oc : Outcome) (clock : Z) (t k : nat) (p : MonitorAt) (e : Entry)
    (db : Db) (o : Owner) : Db * Owner :=
  match p with
  | M_check =>
      if cancel e then (db, put t (Monitor k M_retire) o)
      else
        let '(x, db) := transaction oc (check_on inst (request e) false (binding e) clock) db in
        (db, put t (Monitor k (M_checked (is_ok x))) o)
  | M_checked ok =>
      let o := if ok then o else on_entry set_cancel k o in
      (db, put t (Monitor k (if negb ok || cancel e then M_retire else M_clear)) o)
  | M_retire =>
      let '(x, db) := transaction oc (retire_unit inst (request e) false clock) db in
      (db, put t (Monitor k (M_retired (is_ok x))) o)
  | M_retired ok =>
      let o := if ok then o else fail o in
      (db, put t (Monitor k (if is_over e then M_release else M_clear)) o)
  | M_release =>
      let '(x, db) := transaction oc (retire_unit inst (request e) true clock) db in
      (db, put t (Monitor k (M_released (is_ok x))) o)
  | M_released ok => (db, put t (Monitor k M_clear) (if ok then remove (id (request e)) o else o))
  | M_clear => (db, give 1 (finish t (on_entry (set_checking false) k o)))
  end.

(** [task] has ended: the token is cancelled, and [resource] goes on with the result. *)
Definition ended (t k : nat) (ok : bool) (o : Owner) : Owner :=
  put t (Ending k (if ok then R_end else R_fail)) (on_entry set_cancel k o).

(** The step of [resource]; none while it waits. *)
Definition run_resource (inst : Uuid) (oc : Outcome) (clock : Z) (t k : nat) (out : option bool) (p : ResourceAt)
    (e : Entry) (db : Db) (o : Owner) : option (Db * Owner) :=
  match p with
  | R_select =>
      match out with
      | Some ok => Some (db, ended t k ok o)
      | None =>
          if cancel e then Some (db, put t (Resource k out R_stop) o)
          else if unwrap_or (expires e) clock <=? clock then Some (db, on_entry set_cancel k o)
          else None
      end
  | R_stop => if available o <=? 0 then None else Some (db, give (-1) (put t (Resource k out R_stopping) o))
  | R_stopping =>
      let '(_, db) := transaction oc (retire_unit inst (request e) false clock) db in
      Some (db, give 1 (put t (Resource k out (R_grace (clock + seconds 10))) o))
  | R_grace until =>
      match out with
      | Some ok => Some (db, ended t k ok o)
      | None => if until <=? clock then Some (db, fail (put t (Resource k out R_overdue) o)) else None
      end
  | R_overdue => match out with Some ok => Some (db, ended t k ok o) | None => None end
  end.

Definition run_ending (inst : Uuid) (oc : Outcome) (clock : Z) (t k : nat) (p : EndingAt) (e : Entry) (db : Db)
    (o : Owner) : option (Db * Owner) :=
  match p with
  | R_fail => if available o <=? 0 then None else Some (db, give (-1) (put t (Ending k R_failing) o))
  | R_failing =>
      let '(_, db) := transaction oc (retire_unit inst (request e) false clock) db in
      Some (db, give 1 (fail (finish t o)))
  | R_end =>
      if available o <=? 0 then None
      else Some (db, give (-1) (put t (Ending k R_releasing)
                                  (on_entry (set_completed (is_some_b (binding e))) k o)))
  | R_releasing =>
      let '(x, db) := transaction oc (retire_unit inst (request e) true clock) db in
      Some (db, put t (Ending k (R_released (is_ok x))) o)
  | R_released ok =>
      Some (db, give 1 (finish t (if ok then remove (id (request e)) o else fail o)))
  end.

(** [monitor] takes its copy of the entries. *)
Definition monitor_begin (o : Owner) : option Owner :=
  match watching o, scanning o with
  | true, None =>
      let l := ordered (entries o) in
      match l with
      | [] => Some (with_scan (Some []) (scan o) o)
      | _ => Some (with_scan (Some (rotate (Z.to_nat (scan o mod Z.of_nat (length l))) l))
                     ((scan o + REGULAR_OPERATIONS) mod 2 ^ 64) o)
      end
  | _, _ => None
  end.

(** One turn of the loop of [monitor]. *)
Definition monitor_next (o : Owner) : option Owner :=
  match scanning o with
  | Some [] => Some (with_scan None (scan o) o)
  | Some (k :: l) =>
      let! e := heap o !! k in
      let o := with_scan (Some l) (scan o) o in
      if pending e then Some o
      else if checking e then Some o
      else if available o <=? 0 then Some o
      else
        let o := on_entry (set_checking true) k o in
        if closed o then Some (with_scan None (scan o) o)
        else Some (spawn (Monitor k M_check) (give (-1) o))
  | None => None
  end.

(** ** mod.rs *)

(** The loop of [create] ends once the owner is closed. *)
Definition unwatch (o : Owner) : option Owner :=
  if closed o && bool_decide (scanning o = None)
  then Some (with_flags (closed o) (failed o) (maintenance_lost o) false o) else None.

Definition stop (i : Uuid) (o : Owner) : Owner :=
  match entries o !! i with Some k => on_entry set_cancel k o | None => o end.

Definition close (o : Owner) : Owner :=
  let o := with_flags true (failed o) (maintenance_lost o) (watching o) o in
  foldr (on_entry set_cancel) o (ordered (entries o)).

(** [drain]: the tracker is empty; then an entry; then the result. *)
Definition drain_begin (o : Owner) : option Owner :=
  if closed o && negb (watching o) && bool_decide (tasks o = ∅) && bool_decide (scanning o = None)
     && bool_decide (draining o = None)
  then Some (with_drain (Some (ordered (entries o))) (drained o) o) else None.

Definition drain_next (inst : Uuid) (oc : Outcome) (clock : Z) (db : Db) (o : Owner) : option (Db * Owner) :=
  match draining o with
  | Some (k :: l) =>
      let! e := heap o !! k in
      let o := with_drain (Some l) (drained o) o in
      if is_over e then
        let '(x, db) := transaction oc (retire_unit inst (request e) true clock) db in
        Some (db, if is_ok x then remove (id (request e)) o else fail o)
      else Some (db, o)
  | _ => None
  end.

Definition drain_end (o : Owner) : option Owner :=
  match draining o with
  | Some [] =>
      Some (with_drain None
        (Some (if failed o || maintenance_lost o || negb (bool_decide (entries o = ∅)) then Err Cleanup else Ok tt)) o)
  | _ => None
  end.

(** ** sql.rs and maintenance.rs: their permits, and what they leave when a future
    is dropped. *)
Definition sql (cleanup : bool) (o : Owner) : result Owner AdmissionError :=
  if available o <=? 0 then Err Capacity
  else if closed o && negb cleanup then Err Closed
  else Ok (spawn Sql (give (-1) o)).
Definition sql_end (t : nat) (done : bool) (o : Owner) : option Owner :=
  match tasks o !! t with
  | Some Sql => Some (give 1 (finish t (if done then o else fail o)))
  | _ => None
  end.
Definition maintenance_dropped (o : Owner) : Owner := with_flags (closed o) (failed o) true (watching o) o.

(** ** One step of an owner *)

Inductive Event : Type :=
| E_start (r : Request) (b : option Binding) | E_check (r : Request) (renew : bool) | E_stop (i : Uuid)
| E_close | E_run (t : nat) (oc : Outcome) | E_factory (t : nat) (ok : bool) | E_scan | E_next | E_unwatch
| E_drain | E_drain_next (oc : Outcome) | E_drain_end | E_sql (cleanup : bool) | E_sql_end (t : nat) (done : bool)
| E_lost.

(** A call that is refused changes nothing. *)
Definition accepted (x : result Owner AdmissionError) : option Owner := match x with Ok o => Some o | Err _ => None end.

Definition run (inst : Uuid) (oc : Outcome) (clock : Z) (t : nat) (db : Db) (o : Owner) : option (Db * Owner) :=
  let! x := tasks o !! t in
  match x with
  | Claim k r b inserted p => Some (run_claim inst oc clock t k r b inserted p db o)
  | Check k r renew p => let! e := heap o !! k in Some (run_check inst oc clock t k r renew p e db o)
  | Monitor k p => let! e := heap o !! k in Some (run_monitor inst oc clock t k p e db o)
  | Resource k out p => let! e := heap o !! k in run_resource inst oc clock t k out p e db o
  | Ending k p => let! e := heap o !! k in run_ending inst oc clock t k p e db o
  | Sql => None
  end.

Definition act (inst : Uuid) (clock : Z) (ev : Event) (db : Db) (o : Owner) : option (Db * Owner) :=
  match ev with
  | E_start r b => pair db <$> accepted (enqueue r b o)
  | E_check r renew => pair db <$> accepted (queue_check r renew o)
  | E_stop i => Some (db, stop i o)
  | E_close => Some (db, close o)
  | E_run t oc => run inst oc clock t db o
  | E_factory t ok =>
      match tasks o !! t with
      | Some (Resource k None p) => Some (db, put t (Resource k (Some ok) p) o)
      | _ => None
      end
  | E_scan => pair db <$> monitor_begin o
  | E_next => pair db <$> monitor_next o
  | E_unwatch => pair db <$> unwatch o
  | E_drain => pair db <$> drain_begin o
  | E_drain_next oc => drain_next inst oc clock db o
  | E_drain_end => pair db <$> drain_end o
  | E_sql cleanup => pair db <$> accepted (sql cleanup o)
  | E_sql_end t done => pair db <$> sql_end t done o
  | E_lost => Some (db, maintenance_dropped o)
  end.

(** ** Owners that share the tables *)

Record World := mk_world { tables : Db; time : Z; owners : gmap Uuid Owner }.

(** The entry [monitor] is about to look at is still registered. *)
Definition current (o : Owner) : bool :=
  match scanning o with
  | Some (k :: _) =>
      is_some_and (heap o !! k) (fun e => bool_decide (entries o !! id (request e) = Some k))
  | _ => true
  end.

(** The transactions of other parts, and of processes not modelled; an operator
    reconciles an instance when its process is gone. *)
Inductive others (w : World) : Db -> Prop :=
| others_claim inst r allow b now x db' :
    owners w !! inst = None -> claim inst r allow b now (tables w) = Ok (x, db') -> others w db'
| others_check inst r renew b now x db' : check_on inst r renew b now (tables w) = Ok (x, db') -> others w db'
| others_retire inst r release now db' :
    owners w !! inst = None -> retire to_string inst r release now (tables w) = Ok db' -> others w db'
| others_fence inst expected now n db' : fence inst expected now (tables w) = Ok (n, db') -> others w db'
| others_reconcile inst rev now db' :
    owners w !! inst = None -> reconcile inst rev true now (tables w) = Ok db' -> others w db'
| others_register inst s i hash context now n db' :
    register inst s i hash context now (tables w) = Ok (n, db') -> others w db'
| others_complete inst s i fence now db' : complete inst s i fence now (tables w) = Ok db' -> others w db'
| others_withdraw inst s i context now db' : withdraw inst s i context now (tables w) = Ok db' -> others w db'
| others_prune inst starts rows now db' : prune busy inst starts rows now (tables w) = Ok db' -> others w db'
| others_evict i now : others w (retire_row i now (tables w))
| others_controls m : others w (with_controls m (tables w)).

(** The identities whose streams a step starts. *)
Definition started (ev : Event) (o : Owner) : list Uuid :=
  match ev with
  | E_run t _ =>
      match tasks o !! t with
      | Some (Claim k r _ true (Claimed _ (Ok x))) =>
          if held_fresh x && launches k o then [id r] else []
      | _ => []
      end
  | _ => []
  end.

(** [world_step prompt w l w'], with what it starts; where [prompt], a registered
    entry is not removed between the copy of [monitor] and the turn of its loop. *)
Inductive world_step (prompt : bool) (w : World) : list Uuid -> World -> Prop :=
| world_act inst o ev db' o' :
    owners w !! inst = Some o -> (prompt = true -> ev = E_next -> current o = true) ->
    act inst (time w) ev (tables w) o = Some (db', o') ->
    world_step prompt w (started ev o) (mk_world db' (time w) (<[inst := o']> (owners w)))
| world_attach inst db' :
    owners w !! inst = None -> register_instance inst (tables w) = Ok db' ->
    world_step prompt w [] (mk_world db' (time w) (<[inst := create]> (owners w)))
| world_exit inst : world_step prompt w [] (mk_world (tables w) (time w) (delete inst (owners w)))
| world_tick t : time w <= t -> world_step prompt w [] (mk_world (tables w) t (owners w))
| world_others db' : others w db' -> world_step prompt w [] (mk_world db' (time w) (owners w)).

Inductive worlds (prompt : bool) : World -> list Uuid -> World -> Prop :=
| worlds_nil w : worlds prompt w [] w
| worlds_step w l w1 l1 w2 : world_step prompt w l w1 -> worlds prompt w1 l1 w2 -> worlds prompt w (l ++ l1) w2.

(** The identities of the streams of a household that an owner runs, and that all
    processes run. *)
Definition running_of (h : Uuid) (o : Owner) : list Uuid :=
  map_to_list (tasks o) ≫= fun x =>
    match x.2 with
    | Resource k None _ =>
        match heap o !! k with
        | Some e => if user (actor (request e)) =? h then [id (request e)] else []
        | None => []
        end
    | _ => []
    end.
Definition running (h : Uuid) (w : World) : list Uuid := map_to_list (owners w) ≫= fun x => running_of h x.2.

End owner.
End AdmissionOwner.
