(* ===== verification/AdmissionOwnerProofs.v ===== *)
(** * Theorems on the owner of playback admissions

    A stream that runs has a reservation that is not released, so that the streams
    of a household that run, in all processes, are within its ceiling; an identity
    is started at most once; an owner that drains leaves no reservation behind. *)

From stdpp Require Import gmap sorting.
From S2P Require Import Prelude Admission Ledger LedgerProofs AdmissionOwner.

Module AdmissionOwnerProofs.
Import Admission Ledger LedgerProofs AdmissionOwner.

(** ** Reservations of an instance *)

(** The identity has a reservation of the instance that is not released. *)
Definition live (inst i h : Uuid) (fp : string) (db : Db) : Prop :=
  exists x, reservations db !! i = Some x /\ stream_of x = (h, inst, fp) /\ state x <> Released.

Definition unheld (inst i : Uuid) (db : Db) : Prop := forall h fp, ~ live inst i h fp db.

Definition spares (inst i : Uuid) (db db' : Db) : Prop := forall h fp, live inst i h fp db -> live inst i h fp db'.
Definition origin (inst i : Uuid) (db db' : Db) : Prop := forall h fp, live inst i h fp db' -> live inst i h fp db.

#[global] Instance spares_preorder (inst i : Uuid) : PreOrder (spares inst i).
Proof. split; [by intros db h fp|]. intros a b c H1 H2 h fp H. auto. Qed.

Lemma spares_same (inst i : Uuid) (db db' : Db) : reservations db' !! i = reservations db !! i -> spares inst i db db'.
Proof. intros E h fp (x & X & H). exists x. by rewrite E. Qed.

Lemma alter_spares (inst i j : Uuid) (f : Row -> Row) (db : Db) :
  (forall x, stream_of (f x) = stream_of x /\ (state x <> Released -> state (f x) <> Released)) ->
  spares inst i db (with_reservations (alter f j (reservations db)) db).
Proof.
  intros F h fp (x & X & S & N). destruct (decide (j = i)) as [->|D].
  - exists (f x). destruct (F x) as [-> G]. cbn. rewrite lookup_alter_eq, X. auto.
  - exists x. cbn. by rewrite lookup_alter_ne.
Qed.

#[global] Instance spares_steady (inst i : Uuid) : Steady (spares inst i).
Proof.
  split; try apply _; try (intros; by apply spares_same).
  - intros j now db. apply alter_spares. intros x. case_decide; done.
  - intros j t x db E h fp (y & Y & S & N). destruct (decide (j = i)) as [->|D].
    + rewrite E in Y. injection Y as ->. exists (with_deadline t y). cbn. by rewrite lookup_insert_eq.
    + exists y. cbn. by rewrite lookup_insert_ne.
  - intros j x now db db' H. apply spares_same. unfold insert_intent in H. destruct (reservations db !! j); [done|].
    destruct (new_identity _ _ _ _) as [db1|] eqn:N; [|done]. apply new_identity_inv in N as [-> _]. cbn in H.
    destruct (intents db !! j); [done|]. by injection H as <-.
  - intros j now db db' H h fp (x & X & S & N). unfold delete_reservation in H.
    destruct (reservations db !! j) as [y|] eqn:E; [|injection H as <-; by exists x].
    destruct (state y) eqn:Sy, (released_at y), (prune_after y); try done. destruct (_ && _); [|done].
    injection H as <-. exists x. cbn. rewrite lookup_delete_ne; [done|]. intros ->. rewrite E in X. injection X as ->.
    done.
  - intros j now db db' H. apply spares_same. unfold delete_intent in H. destruct (intents db !! j); [|by injection H as <-].
    destruct (settled_at i0), (i_prune_after i0), (reservations db !! j); try done. destruct (_ && _); [|done].
    by injection H as <-.
Qed.

Lemma release_spares (inst i j : Uuid) (now : Z) (db : Db) : j <> i -> spares inst i db (release_row j now db).
Proof.
  intros D. apply spares_same. unfold release_row.
  destruct (reservations db !! j); cbn; by rewrite lookup_alter_ne.
Qed.

Lemma release_unheld (inst i : Uuid) (now : Z) (db : Db) : unheld inst i (release_row i now db).
Proof.
  intros h fp (x & X & _ & N). assert (E : reservations (release_row i now db) !! i = set_state i now Released <$> reservations db !! i).
  { unfold release_row. destruct (reservations db !! i) eqn:R; cbn; by rewrite lookup_alter_eq, R. }
  rewrite E in X. destruct (reservations db !! i); [|done]. injection X as <-. done.
Qed.

Lemma frame_origin (inst i : Uuid) (db db' : Db) : frame db db' -> origin inst i db db'.
Proof.
  intros (_ & _ & F) h fp (x & X & S & N). destruct (F i x X) as (y & Y & E & R). exists y. rewrite E. naive_solver.
Qed.

Lemma origin_unheld (inst i : Uuid) (db db' : Db) : origin inst i db db' -> unheld inst i db -> unheld inst i db'.
Proof. intros O U h fp H. exact (U h fp (O h fp H)). Qed.

(** A transaction that neither releases nor admits for the instance. *)
Record benign (inst : Uuid) (db db' : Db) : Prop := mk_benign {
  benign_keeps : keeps db db';
  benign_spares i : spares inst i db db';
  benign_origin i : origin inst i db db' }.

Lemma benign_refl (inst : Uuid) (db : Db) : benign inst db db.
Proof. split; [done|done|by intros i h fp]. Qed.

Section ledger.
Context (to_string : Fingerprint -> option string) (from_str : string -> option Fingerprint).
Context (verify : Db -> Request -> option Row -> result Verified AdmissionError).
Context (ambient_allowed : Db -> Request -> Uuid -> Z -> bool).
Context (digest : Policy -> option Hash) (permitted : Db -> Uuid -> Policy -> bool) (busy : Db -> Uuid -> bool).

Abbreviation encode := (encode to_string).
Abbreviation claim := (claim to_string from_str verify ambient_allowed digest).
Abbreviation claim_new := (claim_new to_string from_str verify ambient_allowed digest).
Abbreviation check_on := (check_on to_string from_str verify ambient_allowed permitted).
Abbreviation retire := (retire to_string).
Abbreviation retire_unit := (retire_unit to_string).

(** What respects [keeps], [frame] and [spares]. *)
Lemma benign_steady (inst : Uuid) (db db' : Db) :
  keeps db db' -> frame db db' -> (forall i, spares inst i db db') -> benign inst db db'.
Proof. intros K F S. split; [done|done|]. intros i. by apply frame_origin. Qed.

Lemma steady_benign (inst : Uuid) (db db' : Db) :
  (forall R, Steady R -> R db db') -> benign inst db db'.
Proof. intros H. apply benign_steady; [apply H|apply H|intros i; apply H]; apply _. Qed.

Lemma check_on_benign (inst o : Uuid) (r : Request) (renew : bool) (b : option Binding) (now : Z) (x : Receipt) (db db' : Db) :
  check_on o r renew b now db = Ok (x, db') -> benign inst db db'.
Proof. intros H. apply steady_benign. intros R ?. by eapply (check_on_steady _ _ _ _ _ R). Qed.

Lemma retire_benign (inst o : Uuid) (r : Request) (release : bool) (now : Z) (db db' : Db) :
  retire o r release now db = Ok db' -> release = false \/ o <> inst -> benign inst db db'.
Proof.
  intros H D. apply retire_cases in H as (fp & _ & H).
  destruct (reservations db !! id r) as [x|] eqn:E; [|subst; apply benign_refl]. destruct H as (I & _ & ->).
  destruct release; [|apply steady_benign; intros R ?; apply stable_retire_row].
  apply benign_steady; [apply release_row_keeps|apply release_row_frame|]. intros i.
  destruct (decide (id r = i)) as [<-|N]; [|by apply release_spares].
  intros h fp' (y & Y & S & _). rewrite E in Y. injection Y as ->. unfold stream_of in S. destruct D; [done|congruence].
Qed.

(** A release by the instance itself. *)
Lemma retire_releases (inst : Uuid) (r : Request) (now : Z) (db db' : Db) :
  retire inst r true now db = Ok db' ->
  keeps db db' /\ (forall i, i <> id r -> spares inst i db db') /\ (forall i, origin inst i db db') /\
  unheld inst (id r) db'.
Proof.
  intros H. apply retire_cases in H as (fp & _ & H). destruct (reservations db !! id r) as [x|] eqn:E.
  - destruct H as (_ & _ & ->). split; [apply release_row_keeps|]. split; [|split].
    + intros i N. by apply release_spares.
    + intros i. apply frame_origin, release_row_frame.
    + apply release_unheld.
  - subst. split; [done|]. split; [done|]. split; [by intros i h f|]. intros h f (y & Y & _). congruence.
Qed.

(** An admission for the instance. *)
Record admits (inst : Uuid) (r : Request) (db db' : Db) : Prop := mk_admits {
  admits_keeps : keeps db db';
  admits_new : ~ dead (id r) db;
  admits_dead : dead (id r) db';
  admits_none : reservations db !! id r = None;
  admits_live : exists fp, encode r = Ok fp /\ live inst (id r) (user (actor r)) fp db';
  admits_spares i inst' : spares inst' i db db';
  admits_origin i inst' : i <> id r \/ inst' <> inst -> origin inst' i db db' }.

Lemma claim_new_admits_row (inst : Uuid) (r : Request) (fp : string) (b : option Binding) (now : Z) (db db' : Db)
    (y : Receipt) :
  encode r = Ok fp -> claim_new inst r fp b now db = Ok (y, db') -> admits inst r db db'.
Proof.
  intros E H. pose proof (claim_new_rows _ _ _ _ _ _ _ _ _ _ _ _ _ H) as (_ & _ & _ & N & (x & [S Q] & R) & _).
  pose proof (claim_new_admits _ _ _ _ _ _ _ _ _ _ _ _ _ H) as (K & D & D'). split; try done.
  - exists fp. split; [done|]. exists x. rewrite R, lookup_insert_eq, Q. done.
  - intros i inst' h f (z & Z & W). exists z. rewrite R, lookup_insert_ne; [done|]. intros <-. congruence.
  - intros i inst' C h f (z & Z & W). exists z. rewrite R in Z. destruct (decide (id r = i)) as [<-|D0].
    + rewrite lookup_insert_eq in Z. injection Z as <-. rewrite S in W. destruct W as [[= _ ? _] _], C; congruence.
    + by rewrite lookup_insert_ne in Z.
Qed.

(** A claim neither releases nor admits for others; for the instance it may admit. *)
Lemma claim_effect (inst : Uuid) (r : Request) (allow : bool) (b : option Binding) (now : Z) (db db' : Db) (y : Receipt) :
  claim inst r allow b now db = Ok (y, db') ->
  fresh y = false /\ (forall inst', benign inst' db db') \/
  (held_fresh y = true /\ allow = true) /\ admits inst r db db'.
Proof.
  intros H. apply claim_cases in H as [[F [->| ->]]|([F A] & fp & E & _ & H)].
  - left. split; [done|]. intros. apply benign_refl.
  - left. split; [done|]. intros. apply steady_benign. intros R ?. apply stable_retire_row.
  - right. split; [|by eapply claim_new_admits_row]. split; [|done]. unfold held_fresh. rewrite F.
    by rewrite (claim_new_held _ _ _ _ _ _ _ _ _ _ _ _ _ H).
Qed.

Lemma admits_benign (inst inst' : Uuid) (r : Request) (db db' : Db) :
  admits inst r db db' -> inst' <> inst -> benign inst' db db'.
Proof. intros [K _ _ _ _ S O] N. split; [done|auto|auto]. Qed.

(** ** Transactions *)

Lemma transaction_cases {A} (oc : Outcome) (action : Db -> result (A * Db) AdmissionError) (db db1 : Db)
    (x : result A AdmissionError) :
  transaction oc action db = (x, db1) ->
  (exists e, x = Err e /\ db1 = db) \/
  (exists y, action db = Ok (y, db1) /\ (x = Ok y \/ x = Err Indeterminate)).
Proof.
  unfold transaction. destruct oc as [|c|e]; destruct (action db) as [[y db']|e']; intros [= <- <-]; eauto.
  destruct c; eauto 6.
Qed.

Lemma check_transaction (inst o : Uuid) (oc : Outcome) (r : Request) (renew : bool) (b : option Binding) (now : Z)
    (x : result Receipt AdmissionError) (db db1 : Db) :
  transaction oc (check_on o r renew b now) db = (x, db1) -> benign inst db db1.
Proof.
  intros [(e & _ & ->)|(y & H & _)]%transaction_cases; [apply benign_refl|].
  exact (check_on_benign _ _ _ _ _ _ _ _ _ H).
Qed.

Lemma retire_unit_inv (inst : Uuid) (r : Request) (release : bool) (now : Z) (db db' : Db) (u : unit) :
  retire_unit inst r release now db = Ok (u, db') -> retire inst r release now db = Ok db'.
Proof.
  unfold AdmissionOwner.retire_unit. destruct (retire inst r release now db); [|done]. by intros [= _ <-].
Qed.

Lemma retire_transaction (inst o : Uuid) (oc : Outcome) (r : Request) (release : bool) (now : Z)
    (x : result unit AdmissionError) (db db1 : Db) :
  transaction oc (retire_unit o r release now) db = (x, db1) -> release = false \/ o <> inst -> benign inst db db1.
Proof.
  intros [(e & _ & ->)|(y & H & _)]%transaction_cases D; [apply benign_refl|].
  apply retire_unit_inv in H. eauto using retire_benign.
Qed.

(** What a transaction that releases leaves. *)
Record releases (inst i : Uuid) (ok : bool) (db db' : Db) : Prop := mk_releases {
  releases_keeps : keeps db db';
  releases_spares j : j <> i -> spares inst j db db';
  releases_origin j : origin inst j db db';
  releases_unheld : ok = true -> unheld inst i db' }.

Lemma release_transaction (inst : Uuid) (oc : Outcome) (r : Request) (now : Z) (x : result unit AdmissionError) (db db1 : Db) :
  transaction oc (retire_unit inst r true now) db = (x, db1) -> releases inst (id r) (is_ok x) db db1.
Proof.
  intros [(e & -> & ->)|(y & H & _)]%transaction_cases.
  - split; [done|done|by intros j h fp|done].
  - apply retire_unit_inv, retire_releases in H as (K & S & O & U). by split.
Qed.

Lemma claim_transaction (inst : Uuid) (oc : Outcome) (r : Request) (allow : bool) (b : option Binding) (now : Z)
    (x : result Receipt AdmissionError) (db db1 : Db) :
  transaction oc (claim inst r allow b now) db = (x, db1) ->
  (forall inst', benign inst' db db1) /\ match x with Ok y => held_fresh y = false | Err _ => True end \/
  (admits inst r db db1 /\ allow = true) /\ match x with Ok y => held_fresh y = true | Err e => e = Indeterminate end.
Proof.
  intros [(e & -> & ->)|(y & H & X)]%transaction_cases.
  - left. split; [intros; apply benign_refl|done].
  - apply claim_effect in H as [[F B]|[[F L] A]].
    + left. split; [done|]. destruct X as [->| ->]; [|done]. unfold held_fresh. by rewrite F.
    + right. split; [done|]. by destruct X as [->| ->].
Qed.

End ledger.

(** ** The state of an owner *)

Inductive TaskKind : Type := K_claim | K_monitor | K_resource | K_other.
#[global] Instance task_kind_eq : EqDecision TaskKind.
Proof. solve_decision. Defined.

(** What matters of a task: it runs a stream or is about to ([v_owns]); it may
    release or remove its identity ([v_threat]), and found that nothing is held for
    it ([v_settled]); it has not started a stream yet ([v_early]); it is about to
    release for [monitor] ([v_release]). *)
Record View := mk_view {
  v_kind : TaskKind; v_key : nat; v_request : option Request; v_owns : bool; v_threat : bool; v_settled : bool;
  v_early : bool; v_release : bool }.

Definition claim_view (k : nat) (r : Request) (p : ClaimAt) : View :=
  match p with
  | Queued | Claiming _ => mk_view K_claim k (Some r) false true true true false
  | Claimed _ (Ok x) =>
      if held_fresh x then mk_view K_claim k (Some r) true false false true false
      else mk_view K_claim k (Some r) false true true true false
  | Claimed _ (Err Indeterminate) => mk_view K_claim k (Some r) false false false true false
  | Claimed _ (Err _) => mk_view K_claim k (Some r) false true true true false
  | Settling => mk_view K_claim k (Some r) false false false false false
  end.

Definition monitor_view (k : nat) (p : MonitorAt) : View :=
  match p with
  | M_check | M_checked _ | M_retire | M_retired _ => mk_view K_monitor k None false true false false false
  | M_release => mk_view K_monitor k None false true false false true
  | M_released ok => mk_view K_monitor k None false true ok false false
  | M_clear => mk_view K_monitor k None false false false false false
  end.

Definition resource_view (k : nat) (running : bool) (settled : bool) : View :=
  mk_view K_resource k None running (negb running) settled false false.

Definition view (x : Task) : View :=
  match x with
  | Claim k r _ true p => claim_view k r p
  | Monitor k p => monitor_view k p
  | Resource k out _ => resource_view k (negb (is_some_b out)) false
  | Ending k (R_released ok) => resource_view k false ok
  | Ending k _ => resource_view k false false
  | Claim _ _ _ false _ | Check _ _ _ _ | Sql => mk_view K_other 0 None false false false false false
  end.

Definition implies (a b : bool) : Prop := a = true -> b = true.

(** Fewer claims than before. *)
Record below (v' v : View) : Prop := mk_below {
  below_kind : v_kind v' = v_kind v; below_key : v_key v' = v_key v; below_request : v_request v' = v_request v;
  below_owns : implies (v_owns v') (v_owns v); below_threat : implies (v_threat v') (v_threat v);
  below_settled : implies (v_settled v') (v_settled v); below_early : implies (v_early v') (v_early v);
  below_release : implies (v_release v') (v_release v) }.

Section owner.
Context (to_string : Fingerprint -> option string).

Abbreviation encode := (encode to_string).

(** The invariant of an owner of [inst], on its entries and tasks. *)
Record Inv (inst : Uuid) (db : Db) (es : gmap Uuid nat) (hp : gmap nat Entry) (ts : gmap nat Task) (nx : nat) : Prop :=
  mk_inv {
  i_next_heap k e : hp !! k = Some e -> (k < nx)%nat;
  i_next_task t x : ts !! t = Some x -> (t < nx)%nat;
  i_gate i k : es !! i = Some k -> exists e, hp !! k = Some e /\ id (request e) = i;
  i_key t x : ts !! t = Some x -> v_kind (view x) <> K_other -> exists e, hp !! v_key (view x) = Some e;
  i_claim t x e : ts !! t = Some x -> v_kind (view x) = K_claim -> hp !! v_key (view x) = Some e ->
    pending e = true /\ v_request (view x) = Some (request e) /\ (v_early (view x) = true -> attached e = false);
  i_monitor t x e : ts !! t = Some x -> v_kind (view x) = K_monitor -> hp !! v_key (view x) = Some e ->
    pending e = false /\ checking e = true /\ (v_release (view x) = true -> is_over e = true);
  i_resource t x e : ts !! t = Some x -> v_kind (view x) = K_resource -> hp !! v_key (view x) = Some e ->
    attached e = true /\ (v_owns (view x) = true -> completed e = false);
  i_unique t1 t2 x1 x2 : ts !! t1 = Some x1 -> ts !! t2 = Some x2 -> v_kind (view x1) <> K_other ->
    v_kind (view x1) = v_kind (view x2) -> v_key (view x1) = v_key (view x2) -> t1 = t2;
  i_dead k e : hp !! k = Some e -> attached e = true -> dead (id (request e)) db;
  i_over k e : hp !! k = Some e -> completed e = true -> attached e = true /\ is_some_b (binding e) = true;
  i_same k1 k2 e1 e2 : hp !! k1 = Some e1 -> hp !! k2 = Some e2 -> attached e1 = true -> attached e2 = true ->
    id (request e1) = id (request e2) -> k1 = k2;
  i_owns t x e : ts !! t = Some x -> v_owns (view x) = true -> hp !! v_key (view x) = Some e ->
    es !! id (request e) = Some (v_key (view x)) /\ dead (id (request e)) db /\
    exists fp, encode (request e) = Ok fp /\ live inst (id (request e)) (user (actor (request e))) fp db;
  i_threat t t' x x' e e' : ts !! t = Some x -> ts !! t' = Some x' -> v_owns (view x) = true ->
    v_threat (view x') = true -> hp !! v_key (view x) = Some e -> hp !! v_key (view x') = Some e' ->
    id (request e) = id (request e') ->
    v_key (view x') = v_key (view x) /\ v_kind (view x') = K_monitor /\ v_kind (view x) = K_resource;
  i_first t x k e e' : ts !! t = Some x -> v_owns (view x) = true -> v_kind (view x) = K_claim ->
    hp !! v_key (view x) = Some e -> hp !! k = Some e' -> attached e' = true -> id (request e') <> id (request e);
  i_open t x e : ts !! t = Some x -> v_threat (view x) = true -> hp !! v_key (view x) = Some e ->
    ~ dead (id (request e)) db -> es !! id (request e) = Some (v_key (view x));
  i_settled t x e : ts !! t = Some x -> v_settled (view x) = true -> hp !! v_key (view x) = Some e ->
    unheld inst (id (request e)) db;
  i_held i h fp : live inst i h fp db -> exists k e, es !! i = Some k /\ hp !! k = Some e /\ encode (request e) = Ok fp }.

(** ** Views *)

Lemma view_owns (x : Task) : v_owns (view x) = true -> v_kind (view x) = K_claim \/ v_kind (view x) = K_resource.
Proof.
  destruct x as [k r b [] p|k r n p|k p|k out p|k p|]; cbn; try done.
  - destruct p as [| |c [y|[]]|]; cbn; auto; destruct (held_fresh y); cbn; auto.
  - by destruct p.
  - auto.
  - destruct p; auto.
Qed.

Lemma view_early (x : Task) : v_owns (view x) = true -> v_kind (view x) = K_claim -> v_early (view x) = true.
Proof.
  destruct x as [k r b [] p|k r n p|k p|k out p|k p|]; cbn; try done.
  - destruct p as [| |c [y|[]]|]; cbn; try done; destruct (held_fresh y); done.
  - by destruct p.
  - by destruct p.
Qed.

Lemma view_settled (x : Task) : v_settled (view x) = true -> v_threat (view x) = true.
Proof.
  destruct x as [k r b [] p|k r n p|k p|k out p|k p|]; cbn; try done.
  - destruct p as [| |c [y|[]]|]; cbn; try done; destruct (held_fresh y); done.
  - by destruct p.
  - by destruct p.
Qed.

Lemma view_threat (x : Task) : v_threat (view x) = true -> v_owns (view x) = false.
Proof.
  destruct x as [k r b [] p|k r n p|k p|k out p|k p|]; cbn; try done.
  - destruct p as [| |c [y|[]]|]; cbn; try done; destruct (held_fresh y); done.
  - by destruct p.
  - by destruct out.
  - by destruct p.
Qed.

Lemma view_other (x : Task) :
  v_kind (view x) = K_other -> v_owns (view x) = false /\ v_threat (view x) = false /\ v_settled (view x) = false.
Proof.
  destruct x as [k r b [] p|k r n p|k p|k out p|k p|]; cbn; try done.
  - destruct p as [| |c [y|[]]|]; cbn; try done; destruct (held_fresh y); done.
  - destruct p; done.
  - destruct p; cbn; done.
Qed.

Lemma view_active (x : Task) :
  v_owns (view x) = true \/ v_threat (view x) = true \/ v_settled (view x) = true -> v_kind (view x) <> K_other.
Proof. intros H K. destruct (view_other x K) as (A & B & C). destruct H as [H|[H|H]]; congruence. Qed.

Lemma below_refl (v : View) : below v v.
Proof. split; unfold implies; auto. Qed.

(** ** Steps that keep the invariant *)

Section preserve.
Context (inst : Uuid).
Implicit Types (db : Db) (es : gmap Uuid nat) (hp : gmap nat Entry) (ts : gmap nat Task) (nx : nat).

(** Tasks go on without more claims, end, or are replaced by ones that claim nothing. *)
Lemma inv_tasks db es hp ts ts' nx nx' :
  Inv inst db es hp ts nx -> (nx <= nx')%nat ->
  (forall t x', ts' !! t = Some x' -> v_kind (view x') = K_other /\ (t < nx')%nat \/
     exists x, ts !! t = Some x /\ below (view x') (view x)) -> Inv inst db es hp ts' nx'.
Proof.
  intros I L F.
  assert (G : forall t x', ts' !! t = Some x' -> v_kind (view x') <> K_other ->
      exists x, ts !! t = Some x /\ below (view x') (view x)).
  { intros t x' T N. destruct (F t x' T) as [[? _]|]; done. }
  assert (A : forall t x', ts' !! t = Some x' ->
      v_owns (view x') = true \/ v_threat (view x') = true \/ v_settled (view x') = true ->
      exists x, ts !! t = Some x /\ below (view x') (view x)) by (intros t x' T V; eauto using view_active).
  destruct I. split; try done.
  - intros k e H. specialize (i_next_heap0 k e H). lia.
  - intros t x' T. destruct (F t x' T) as [[_ ?]|(x & X & _)]; [done|]. specialize (i_next_task0 t x X). lia.
  - intros t x' T K. destruct (G t x' T K) as (x & X & [Bk By _ _ _ _ _ _]). rewrite By. rewrite Bk in K. eauto.
  - intros t x' e T K E. destruct (G t x' T) as (x & X & [Bk By Br _ _ _ Be _]); [congruence|].
    rewrite By in E. rewrite Bk in K. destruct (i_claim0 t x e X K E) as (P & R & Q). rewrite Br. eauto.
  - intros t x' e T K E. destruct (G t x' T) as (x & X & [Bk By _ _ _ _ _ Bl]); [congruence|].
    rewrite By in E. rewrite Bk in K. destruct (i_monitor0 t x e X K E) as (P & R & Q). eauto.
  - intros t x' e T K E. destruct (G t x' T) as (x & X & [Bk By _ Bo _ _ _ _]); [congruence|].
    rewrite By in E. rewrite Bk in K. destruct (i_resource0 t x e X K E) as (P & Q). eauto.
  - intros t1 t2 x1' x2' T1 T2 N K Y. destruct (G t1 x1' T1 N) as (x1 & X1 & [Bk1 By1 _ _ _ _ _ _]).
    destruct (G t2 x2' T2) as (x2 & X2 & [Bk2 By2 _ _ _ _ _ _]); [congruence|].
    eapply i_unique0; [exact X1|exact X2|congruence..].
  - intros t x' e T O E. destruct (A t x' T) as (x & X & [_ By _ Bo _ _ _ _]); [auto|]. rewrite By in *. eauto.
  - intros t t' x1' x2' e e' T1 T2 O Th E E' D. destruct (A t x1' T1) as (x1 & X1 & [Bk1 By1 _ Bo1 _ _ _ _]); [auto|].
    destruct (A t' x2' T2) as (x2 & X2 & [Bk2 By2 _ _ Bt2 _ _ _]); [auto|]. rewrite Bk1, Bk2, By1, By2 in *. eauto.
  - intros t x' k e e' T O K E E' Q. destruct (A t x' T) as (x & X & [Bk By _ Bo _ _ _ _]); [auto|].
    rewrite By in E. rewrite Bk in K. eauto.
  - intros t x' e T Th E D. destruct (A t x' T) as (x & X & [_ By _ _ Bt _ _ _]); [auto|]. rewrite By in *. eauto.
  - intros t x' e T S E. destruct (A t x' T) as (x & X & [_ By _ _ _ Bs _ _]); [auto|]. rewrite By in *. eauto.
Qed.

(** Transactions that neither release nor admit for the instance. *)
Lemma inv_benign db db' es hp ts nx : Inv inst db es hp ts nx -> benign inst db db' -> Inv inst db' es hp ts nx.
Proof.
  intros [] [K S O]. split; try done.
  - eauto.
  - intros t x e T W E. destruct (i_owns0 t x e T W E) as (G & D & fp & N & L). split; [done|]. split; [by apply K|].
    exists fp. split; [done|by apply S].
  - intros t x e T W E D. apply (i_open0 t x e T W E). intros D'. by apply D, K.
  - intros t x e T W E. eapply origin_unheld; eauto.
  - intros i h fp L. eapply i_held0, O, L.
Qed.

(** What the tasks on an entry say of it. *)
Definition fits ts (k : nat) (e : Entry) : Prop :=
  (forall t x, ts !! t = Some x -> v_key (view x) = k -> v_kind (view x) = K_claim ->
     pending e = true /\ (v_early (view x) = true -> attached e = false)) /\
  (forall t x, ts !! t = Some x -> v_key (view x) = k -> v_kind (view x) = K_monitor ->
     pending e = false /\ checking e = true /\ (v_release (view x) = true -> is_over e = true)) /\
  (forall t x, ts !! t = Some x -> v_key (view x) = k -> v_kind (view x) = K_resource ->
     attached e = true /\ (v_owns (view x) = true -> completed e = false)) /\
  (completed e = true -> attached e = true /\ is_some_b (binding e) = true).

Lemma inv_fits db es hp ts nx k e : Inv inst db es hp ts nx -> hp !! k = Some e -> fits ts k e.
Proof.
  intros [] E. split; [|split; [|split; [|eauto]]]; intros t x T <- K.
  - destruct (i_claim0 t x e T K E) as (P & _ & Q). auto.
  - eauto.
  - eauto.
Qed.

Lemma alter_back (f : Entry -> Entry) (k j : nat) hp e' :
  alter f k hp !! j = Some e' -> exists e, hp !! j = Some e /\ e' = if decide (k = j) then f e else e.
Proof. intros [(<- & e & E & ->)|[N E]]%lookup_alter_Some; eexists; (split; [exact E|]); by case_decide. Qed.

Lemma alter_forth (f : Entry -> Entry) (k j : nat) hp e :
  hp !! j = Some e -> alter f k hp !! j = Some (if decide (k = j) then f e else e).
Proof. intros E. case_decide as D; [subst; by rewrite lookup_alter_eq, E|by rewrite lookup_alter_ne]. Qed.

(** A stream may start on the entry. *)
Definition may_attach db hp ts (k : nat) (e : Entry) : Prop :=
  dead (id (request e)) db /\
  (forall j e', hp !! j = Some e' -> attached e' = true -> id (request e') = id (request e) -> j = k) /\
  (forall t x e', ts !! t = Some x -> v_owns (view x) = true -> v_kind (view x) = K_claim ->
     hp !! v_key (view x) = Some e' -> id (request e') <> id (request e)).

(** The flags of an entry change, as its tasks allow. *)
Lemma inv_alter db es hp ts nx (f : Entry -> Entry) k :
  Inv inst db es hp ts nx -> (forall e, request (f e) = request e) ->
  (forall e, hp !! k = Some e ->
     fits ts k (f e) /\ (attached (f e) = true -> attached e = true \/ may_attach db hp ts k e)) ->
  Inv inst db es (alter f k hp) ts nx.
Proof.
  intros I Rq F.
  assert (B : forall j e', alter f k hp !! j = Some e' -> exists e, hp !! j = Some e /\ request e' = request e /\
    fits ts j e' /\ (attached e' = true -> attached e = true \/ j = k /\ may_attach db hp ts k e)).
  { intros j e' (e & E & ->)%alter_back. exists e. case_decide as D.
    { subst. destruct (F e E) as [F1 F2]. rewrite Rq. do 3 (split; [done|]). intros Q. destruct (F2 Q); auto. }
    split; [done|]. split; [done|]. split; [by eapply inv_fits|auto]. }
  destruct I. split; try done.
  - intros j e' (e & E & _)%B. eauto.
  - intros i j G. destruct (i_gate0 i j G) as (e & E & <-). eexists. split; [by apply alter_forth|].
    case_decide; [by rewrite Rq|done].
  - intros t x T K. destruct (i_key0 t x T K) as [e E]. eexists. by apply alter_forth.
  - intros t x e' T K (e & E & R & (C & _) & _)%B. destruct (C t x T eq_refl K) as [P Q].
    destruct (i_claim0 t x e T K E) as (_ & R' & _). by rewrite R.
  - intros t x e' T K (e & E & _ & (_ & M & _) & _)%B. eauto.
  - intros t x e' T K (e & E & _ & (_ & _ & M & _) & _)%B. eauto.
  - intros j e' (e & E & R & _ & A)%B Q. rewrite R. destruct (A Q) as [?|[_ [? _]]]; eauto.
  - intros j e' (e & E & _ & (_ & _ & _ & O) & _)%B. auto.
  - intros k1 k2 e1' e2' (e1 & E1 & R1 & _ & A1)%B (e2 & E2 & R2 & _ & A2)%B Q1 Q2 D. rewrite R1, R2 in D.
    destruct (A1 Q1) as [?|[-> (_ & M1 & _)]], (A2 Q2) as [?|[-> (_ & M2 & _)]]; [eauto|eauto|symmetry; eauto|done].
  - intros t x e' T O (e & E & R & _)%B. rewrite R. eauto.
  - intros t t' x x' e1' e2' T T' O W (e1 & E1 & R1 & _)%B (e2 & E2 & R2 & _)%B D. rewrite R1, R2 in D. eauto.
  - intros t x j e1' e2' T O K (e1 & E1 & R1 & _)%B (e2 & E2 & R2 & _ & A2)%B Q. rewrite R1, R2.
    destruct (A2 Q) as [?|[-> (_ & _ & M)]]; [eauto|]. intros D. by apply (M t x e1 T O K E1).
  - intros t x e' T W (e & E & R & _)%B. rewrite R. eauto.
  - intros t x e' T W (e & E & R & _)%B. rewrite R. eauto.
  - intros i h fp L. destruct (i_held0 i h fp L) as (j & e & G & E & C). eexists _, _. split; [done|].
    split; [by apply alter_forth|]. case_decide; [by rewrite Rq|done].
Qed.

(** What does not matter to the tasks. *)
Definition core (e : Entry) : Request * option Binding * bool * bool * bool * bool :=
  (request e, binding e, pending e, attached e, checking e, completed e).

Lemma inv_core db es hp ts nx (f : Entry -> Entry) k :
  Inv inst db es hp ts nx -> (forall e, core (f e) = core e) -> Inv inst db es (alter f k hp) ts nx.
Proof.
  intros I C. apply inv_alter; [done| |].
  - intros e. by injection (C e).
  - intros e E. injection (C e) as R B P A W Q. split; [|rewrite A; by left].
    unfold fits, is_over. rewrite B, P, A, W, Q. by eapply inv_fits.
Qed.

(** Two tasks that may release the same identity, while it may still be admitted. *)
Lemma threats_alone db es hp ts nx t t' x x' e e' :
  Inv inst db es hp ts nx -> ts !! t = Some x -> ts !! t' = Some x' -> v_threat (view x) = true ->
  v_threat (view x') = true -> hp !! v_key (view x) = Some e -> hp !! v_key (view x') = Some e' ->
  id (request e) = id (request e') -> ~ dead (id (request e)) db -> t = t'.
Proof.
  intros [] T T' W W' E E' D N.
  pose proof (i_open0 t x e T W E N) as G. assert (N' := N). rewrite D in N'.
  pose proof (i_open0 t' x' e' T' W' E' N') as G'. rewrite D, G' in G. injection G as Y. rewrite Y in E'.
  rewrite E in E'. injection E' as <-.
  assert (K : forall t x, ts !! t = Some x -> v_threat (view x) = true -> hp !! v_key (view x) = Some e ->
    v_kind (view x) = K_claim /\ pending e = true \/ v_kind (view x) = K_monitor /\ pending e = false).
  { intros t0 x0 T0 W0 E0. destruct (v_kind (view x0)) eqn:Kd.
    - left. by destruct (i_claim0 t0 x0 e T0 Kd E0).
    - right. by destruct (i_monitor0 t0 x0 e T0 Kd E0).
    - destruct (i_resource0 t0 x0 e T0 Kd E0) as [A _]. destruct N. eauto.
    - destruct (view_other x0 Kd) as (_ & ? & _). congruence. }
  eapply i_unique0; [exact T|exact T'| | |congruence].
  - eapply view_active. eauto.
  - rewrite Y in *. destruct (K t x T W E) as [[-> ?]|[-> ?]], (K t' x' T' W') as [[-> ?]|[-> ?]]; congruence.
Qed.

(** [remove], by a task that found that nothing is held. *)
Lemma inv_remove db es hp ts nx t x e :
  Inv inst db es hp ts nx -> ts !! t = Some x -> hp !! v_key (view x) = Some e -> v_settled (view x) = true ->
  (forall x', v_threat (view x') = false -> below (view x') (view x) ->
    Inv inst db (delete (id (request e)) es) hp (<[t := x']> ts) nx) /\
  Inv inst db (delete (id (request e)) es) hp (delete t ts) nx.
Proof.
  intros I T E S. pose proof (view_settled x S) as W.
  assert (G : forall ts', (forall t0 x0, ts' !! t0 = Some x0 ->
      (t0 <> t \/ v_threat (view x0) = false) /\ exists y, ts !! t0 = Some y /\ below (view x0) (view y)) ->
      Inv inst db (delete (id (request e)) es) hp ts' nx).
  { intros ts' F. assert (I' : Inv inst db es hp ts' nx).
    { eapply inv_tasks; [exact I|done|]. intros t0 x0 T0. right. by destruct (F t0 x0 T0) as [_ ?]. }
    pose proof (i_settled _ _ _ _ _ _ I t x e T S E) as U. destruct I'. split; try done.
    - intros i k [_ H]%lookup_delete_Some. eauto.
    - intros t0 x0 e0 T0 O E0. destruct (i_owns0 t0 x0 e0 T0 O E0) as (H & D & fp & C & L).
      rewrite lookup_delete_ne; [eauto|]. intros N. rewrite <- N in L. by destruct (U _ _ L).
    - intros t0 x0 e0 T0 W0 E0 D. destruct (F t0 x0 T0) as [N (y & Y & [Bk By _ _ Bt _ _ _])].
      rewrite lookup_delete_ne; [eauto|]. intros Q. destruct N as [N|N]; [|congruence]. apply N. symmetry.
      rewrite By in E0. eapply (threats_alone db es hp ts nx); eauto. by rewrite Q.
    - intros i h fp L. destruct (i_held0 i h fp L) as (k & e0 & H & E0 & C). exists k, e0.
      rewrite lookup_delete_ne; [done|]. intros <-. by destruct (U _ _ L). }
  split.
  - intros x' Wf B. apply G. intros t0 x0 [[<- <-]|[N H]]%lookup_insert_Some; [eauto|].
    split; [by left|]. exists x0. split; [done|apply below_refl].
  - apply G. intros t0 x0 [N H]%lookup_delete_Some. split; [by left|]. exists x0. split; [done|apply below_refl].
Qed.

(** A new entry, of which no task knows. *)
Lemma inv_alloc db es hp ts nx e0 :
  Inv inst db es hp ts nx -> attached e0 = false -> completed e0 = false -> Inv inst db es (<[nx := e0]> hp) ts (S nx).
Proof.
  intros I A0 C0.
  assert (Old : forall t x e, ts !! t = Some x -> v_kind (view x) <> K_other ->
      <[nx := e0]> hp !! v_key (view x) = Some e -> hp !! v_key (view x) = Some e).
  { intros t x e T K E. destruct (i_key _ _ _ _ _ _ I t x T K) as [e' E'].
    rewrite lookup_insert_ne in E; [done|]. apply (i_next_heap _ _ _ _ _ _ I) in E'. lia. }
  assert (New : forall k e, hp !! k = Some e -> <[nx := e0]> hp !! k = Some e).
  { intros k e E. rewrite lookup_insert_ne; [done|]. apply (i_next_heap _ _ _ _ _ _ I) in E. lia. }
  assert (Act : forall t x e, ts !! t = Some x ->
      v_owns (view x) = true \/ v_threat (view x) = true \/ v_settled (view x) = true ->
      <[nx := e0]> hp !! v_key (view x) = Some e -> hp !! v_key (view x) = Some e) by eauto using view_active.
  destruct I. split; try done.
  - intros k e [[<- _]|[_ E]]%lookup_insert_Some; [lia|]. apply i_next_heap0 in E. lia.
  - intros t x T. apply i_next_task0 in T. lia.
  - intros i k G. destruct (i_gate0 i k G) as (e & E & D). eauto.
  - intros t x T K. destruct (i_key0 t x T K) as [e E]. eauto.
  - intros t x e T K E. apply (Old t) in E; [eauto|done|congruence].
  - intros t x e T K E. apply (Old t) in E; [eauto|done|congruence].
  - intros t x e T K E. apply (Old t) in E; [eauto|done|congruence].
  - intros k e [[<- <-]|[_ E]]%lookup_insert_Some; [congruence|eauto].
  - intros k e [[<- <-]|[_ E]]%lookup_insert_Some; [congruence|eauto].
  - intros k1 k2 e1 e2 [[<- <-]|[_ E1]]%lookup_insert_Some [[<- <-]|[_ E2]]%lookup_insert_Some; try congruence. eauto.
  - intros t x e T O E. apply (Act t _ _ T) in E; [eauto|auto].
  - intros t t' x x' e e' T T' O W E E'. apply (Act t _ _ T) in E; [|auto]. apply (Act t' _ _ T') in E'; [eauto|auto].
  - intros t x k e e' T O K E [[<- <-]|[_ E']]%lookup_insert_Some; [congruence|]. apply (Act t _ _ T) in E; [eauto|auto].
  - intros t x e T W E. apply (Act t _ _ T) in E; [eauto|auto].
  - intros t x e T W E. apply (Act t _ _ T) in E; [eauto|auto].
  - intros i h f L. destruct (i_held0 i h f L) as (k & e & G & E & Q). exists k, e. auto.
Qed.

(** The entry is registered, and its claim starts. *)
Lemma inv_register db es hp ts nx r b k e0 fp :
  Inv inst db es hp ts nx -> encode r = Ok fp -> es !! id r = None -> hp !! k = Some e0 -> request e0 = r ->
  pending e0 = true -> attached e0 = false ->
  (forall t x, ts !! t = Some x -> v_kind (view x) <> K_other -> v_key (view x) <> k) ->
  Inv inst db (<[id r := k]> es) hp (<[nx := Claim k r b true Queued]> ts) (S nx).
Proof.
  intros [] C N E0 R P A F. split; try done.
  - intros j e E. apply i_next_heap0 in E. lia.
  - intros t x [[<- _]|[_ T]]%lookup_insert_Some; [lia|]. apply i_next_task0 in T. lia.
  - intros i j [[<- <-]|[Ni G]]%lookup_insert_Some; [|eauto]. exists e0. by rewrite R.
  - intros t x [[<- <-]|[_ T]]%lookup_insert_Some; eauto.
  - intros t x e [[<- <-]|[_ T]]%lookup_insert_Some K E; [|eauto]. cbn in *. rewrite E0 in E. injection E as <-. by rewrite R.
  - intros t x e [[<- <-]|[_ T]]%lookup_insert_Some K E; [done|eauto].
  - intros t x e [[<- <-]|[_ T]]%lookup_insert_Some K E; [done|eauto].
  - intros t1 t2 x1 x2 [[<- <-]|[_ T1]]%lookup_insert_Some [[<- <-]|[_ T2]]%lookup_insert_Some K Kd Y; [done|..|eauto].
    + destruct (F t2 x2 T2); [by rewrite <- Kd|by rewrite <- Y].
    + by destruct (F t1 x1 T1 K).
  - intros t x e [[<- <-]|[_ T]]%lookup_insert_Some O E; [done|]. destruct (i_owns0 t x e T O E) as (G & L).
    rewrite lookup_insert_ne; [done|]. congruence.
  - intros t t' x x' e e' [[<- <-]|[_ T]]%lookup_insert_Some [[<- <-]|[_ T']]%lookup_insert_Some O W E E' D; try done; [|eauto].
    cbn in E'. destruct (i_owns0 t x e T O E) as (G & L). congruence.
  - intros t x j e e' [[<- <-]|[_ T]]%lookup_insert_Some O K E E' Q; [done|eauto].
  - intros t x e [[<- <-]|[_ T]]%lookup_insert_Some W E D.
    + cbn in *. rewrite E0 in E. injection E as <-. by rewrite R, lookup_insert_eq.
    + pose proof (i_open0 t x e T W E D) as G. rewrite lookup_insert_ne; [done|]. congruence.
  - intros t x e [[<- <-]|[_ T]]%lookup_insert_Some W E; [|eauto]. cbn in *. rewrite E0 in E. injection E as <-.
    intros h f L. destruct (i_held0 _ h f L) as (j & e & G & _). congruence.
  - intros i h f L. destruct (i_held0 i h f L) as (j & e & G & E & Q). exists j, e.
    rewrite lookup_insert_ne by congruence. done.
Qed.

(** The claim admits: its task is about to start the stream, or lost the answer. *)
Lemma inv_admits db db' es hp ts nx t k r b began x' :
  Inv inst db es hp ts nx -> ts !! t = Some (Claim k r b true (Claiming began)) -> admits to_string inst r db db' ->
  (x' = mk_view K_claim k (Some r) true false false true false \/
   x' = mk_view K_claim k (Some r) false false false true false) ->
  forall y, view y = x' -> Inv inst db' es hp (<[t := y]> ts) nx.
Proof.
  intros I T [Ka N D Rn (fp & C & L) Sp Or] X y V.
  destruct (i_key _ _ _ _ _ _ I t _ T) as [e E]; [done|]. cbn in E.
  destruct (i_claim _ _ _ _ _ _ I t _ e T eq_refl E) as (P & R & A). cbn in R, A. injection R as R.
  assert (A' : attached e = false) by auto. clear A. subst r.
  pose proof (i_open _ _ _ _ _ _ I t _ e T eq_refl E N) as G. cbn in G.
  assert (Alone : forall t' x e', ts !! t' = Some x -> v_threat (view x) = true -> hp !! v_key (view x) = Some e' ->
      id (request e') = id (request e) -> t' = t).
  { intros t' x e' T' W E' Q. symmetry. eapply (threats_alone db es hp ts nx t t'); eauto. }
  assert (Vk : v_kind (view y) = K_claim /\ v_key (view y) = k /\ v_request (view y) = Some (request e) /\
               v_threat (view y) = false /\ v_settled (view y) = false /\ v_early (view y) = true)
    by (rewrite V; destruct X as [->| ->]; done).
  destruct Vk as (Vk & Vy & Vr & Vt & Vs & Ve). destruct I. split; try done.
  - intros t' x [[<- <-]|[_ T']]%lookup_insert_Some; eauto.
  - intros t' x [[<- <-]|[_ T']]%lookup_insert_Some; [rewrite Vy|]; eauto.
  - intros t' x e' [[<- <-]|[_ T']]%lookup_insert_Some K E'; [|eauto]. rewrite Vy, E in E'. injection E' as <-.
    by rewrite Vr.
  - intros t' x e' [[<- <-]|[_ T']]%lookup_insert_Some K E'; [congruence|eauto].
  - intros t' x e' [[<- <-]|[_ T']]%lookup_insert_Some K E'; [congruence|eauto].
  - intros t1 t2 x1 x2 [[<- <-]|[N1 T1]]%lookup_insert_Some [[<- <-]|[N2 T2]]%lookup_insert_Some K Kd Y; [done|..|eauto].
    + destruct N2. eapply (i_unique0 t t2); [exact T|exact T2|done|cbn; congruence|cbn; congruence].
    + destruct N1. symmetry. eapply (i_unique0 t1 t); [exact T1|exact T|done|cbn; congruence|cbn; congruence].
  - eauto.
  - intros t' x e' [[<- <-]|[_ T']]%lookup_insert_Some O E'.
    + rewrite Vy in *. rewrite E in E'. injection E' as <-. eauto 6.
    + destruct (i_owns0 t' x e' T' O E') as (G' & D' & fp' & C' & L'). split; [done|]. split; [auto|].
      exists fp'. split; [done|]. by apply Sp.
  - intros t1 t2 x1 x2 e1 e2 [[<- <-]|[N1 T1]]%lookup_insert_Some [[<- <-]|[N2 T2]]%lookup_insert_Some O W E1 E2 Q;
      [congruence| |congruence|eauto].
    rewrite Vy, E in E1. injection E1 as <-. destruct N2. symmetry. eauto.
  - intros t' x j e1 e2 [[<- <-]|[_ T']]%lookup_insert_Some O K E1 E2 Q; [|eauto].
    rewrite Vy, E in E1. injection E1 as <-. intros W. destruct N. rewrite <- W. eauto.
  - intros t' x e' [[<- <-]|[_ T']]%lookup_insert_Some W E' Q; [congruence|]. eapply (i_open0 t'); eauto.
  - intros t' x e' [[<- <-]|[N' T']]%lookup_insert_Some W E'; [congruence|].
    eapply origin_unheld; [|eauto]. apply Or. left. intros Q. destruct N'. symmetry. eauto using view_settled.
  - intros i h f L'. destruct (decide (i = id (request e))) as [->|Ni].
    + exists k, e. split; [done|]. split; [done|]. destruct L as (z & Z & S & _), L' as (z' & Z' & S' & _). congruence.
    + apply Or in L'; [eauto|by left].
Qed.

(** Two tasks do not own one identity. *)
Lemma owners_alone db es hp ts nx t t' x x' e e' :
  Inv inst db es hp ts nx -> ts !! t = Some x -> ts !! t' = Some x' -> v_owns (view x) = true ->
  v_owns (view x') = true -> hp !! v_key (view x) = Some e -> hp !! v_key (view x') = Some e' ->
  id (request e) = id (request e') -> t = t'.
Proof.
  intros [] T T' O O' E E' D.
  destruct (i_owns0 t x e T O E) as [G _], (i_owns0 t' x' e' T' O' E') as [G' _]. rewrite D, G' in G. injection G as Y.
  rewrite Y, E in E'. injection E' as <-.
  assert (K : forall t x, ts !! t = Some x -> v_owns (view x) = true -> hp !! v_key (view x) = Some e ->
    v_kind (view x) = K_claim /\ attached e = false \/ v_kind (view x) = K_resource /\ attached e = true).
  { intros t0 x0 T0 O0 E0. destruct (view_owns x0 O0) as [Kd|Kd].
    - left. destruct (i_claim0 t0 x0 e T0 Kd E0) as (_ & _ & A). auto using view_early.
    - right. by destruct (i_resource0 t0 x0 e T0 Kd E0). }
  eapply (i_unique0 t t'); [exact T|exact T'| |  |congruence].
  - apply view_active. auto.
  - rewrite Y in *. destruct (K t x T O E) as [[-> ?]|[-> ?]], (K t' x' T' O') as [[-> ?]|[-> ?]]; congruence.
Qed.

(** A stream runs on an entry that was attached for it. *)
Lemma inv_run db es hp ts nx k e fp :
  Inv inst db es hp ts nx -> hp !! k = Some e -> attached e = true -> completed e = false ->
  es !! id (request e) = Some k -> encode (request e) = Ok fp ->
  live inst (id (request e)) (user (actor (request e))) fp db ->
  (forall t x, ts !! t = Some x -> v_kind (view x) = K_resource -> v_key (view x) <> k) ->
  (forall t x e', ts !! t = Some x -> v_threat (view x) = true -> hp !! v_key (view x) = Some e' ->
     id (request e') <> id (request e)) ->
  Inv inst db es hp (<[nx := Resource k None R_select]> ts) (S nx).
Proof.
  intros [] E A Cf G C L NoRes NoThreat. split; try done.
  - intros j e' E'. apply i_next_heap0 in E'. lia.
  - intros t x [[<- _]|[_ T]]%lookup_insert_Some; [lia|]. apply i_next_task0 in T. lia.
  - intros t x [[<- <-]|[_ T]]%lookup_insert_Some; eauto.
  - intros t x e' [[<- <-]|[_ T]]%lookup_insert_Some K E'; [done|eauto].
  - intros t x e' [[<- <-]|[_ T]]%lookup_insert_Some K E'; [done|eauto].
  - intros t x e' [[<- <-]|[_ T]]%lookup_insert_Some K E'; [|eauto]. cbn in E'. rewrite E in E'. by injection E' as <-.
  - intros t1 t2 x1 x2 [[<- <-]|[_ T1]]%lookup_insert_Some [[<- <-]|[_ T2]]%lookup_insert_Some K Kd Y; [done|..|eauto].
    + by destruct (NoRes t2 x2 T2).
    + by destruct (NoRes t1 x1 T1).
  - intros t x e' [[<- <-]|[_ T]]%lookup_insert_Some O E'; [|eauto]. cbn in *. rewrite E in E'. injection E' as <-. eauto 6.
  - intros t t' x x' e1 e2 [[<- <-]|[_ T]]%lookup_insert_Some [[<- <-]|[_ T']]%lookup_insert_Some O W E1 E2 D; try done; [|eauto].
    cbn in E1. rewrite E in E1. injection E1 as <-. by destruct (NoThreat t' x' e2 T' W E2).
  - intros t x j e1 e2 [[<- <-]|[_ T]]%lookup_insert_Some O K E1 E2 Q; [done|eauto].
  - intros t x e' [[<- <-]|[_ T]]%lookup_insert_Some W E' D; [done|eauto].
  - intros t x e' [[<- <-]|[_ T]]%lookup_insert_Some W E'; [done|eauto].
Qed.

(** The claim that admitted starts its stream. *)
Lemma inv_launch db es hp ts nx t k r b began y e :
  Inv inst db es hp ts nx -> ts !! t = Some (Claim k r b true (Claimed began (Ok y))) -> held_fresh y = true ->
  hp !! k = Some e ->
  Inv inst db es (alter set_attached k hp)
    (<[t := Claim k r b true Settling]> (<[nx := Resource k None R_select]> ts)) (S nx).
Proof.
  intros I T F E. set (X := Claim k r b true (Claimed began (Ok y))) in *.
  assert (V : view X = mk_view K_claim k (Some r) true false false true false) by (cbn; by rewrite F).
  clearbody X. assert (O : v_owns (view X) = true) by by rewrite V.
  assert (E0 : hp !! v_key (view X) = Some e) by by rewrite V.
  destruct (i_claim _ _ _ _ _ _ I t X e T) as (P & R & A); [by rewrite V|done|]. rewrite V in A. specialize (A eq_refl).
  destruct (i_owns _ _ _ _ _ _ I t X e T O E0) as (G & D & fp & C & L). rewrite V in G. cbn in G.
  assert (Old : forall t0 x0, <[t := Claim k r b true Settling]> ts !! t0 = Some x0 ->
      t0 = t /\ x0 = Claim k r b true Settling \/ t0 <> t /\ ts !! t0 = Some x0)
    by (intros t0 x0 [[<- <-]|[N T0]]%lookup_insert_Some; auto).
  assert (I0 : Inv inst db es hp (<[t := Claim k r b true Settling]> ts) nx).
  { eapply inv_tasks; [exact I|done|]. intros t0 x0 [[-> ->]|[_ T0]]%Old; right.
    - exists X. split; [done|]. rewrite V. by split.
    - exists x0. split; [done|apply below_refl]. }
  rewrite insert_insert_ne by (intros ->; apply (i_next_task _ _ _ _ _ _ I) in T; lia).
  assert (Cf : completed e = false).
  { destruct (completed e) eqn:Q; [|done]. destruct (i_over _ _ _ _ _ _ I k e E Q). congruence. }
  assert (E1 : alter set_attached k hp !! k = Some (set_attached e)) by by rewrite lookup_alter_eq, E.
  eapply inv_run; [|exact E1|done|exact Cf|exact G|exact C|exact L|..].
  - apply inv_alter; [done|done|]. intros e' E'. rewrite E in E'. injection E' as <-. split.
    + destruct (inv_fits _ _ _ _ _ k e I0 E) as (F1 & F2 & F3 & F4). split; [|split; [|split; [|intros Q; cbn in Q; congruence]]].
      * intros t0 x0 T0 Y K. split; [done|]. intros Er. pose proof T0 as [[-> ->]|[N T1]]%Old; [done|].
        destruct N. apply (i_unique _ _ _ _ _ _ I t0 t x0 X T1 T); rewrite ?V; cbn; congruence.
      * intros t0 x0 T0 Y K. destruct (F2 t0 x0 T0 Y K). congruence.
      * intros t0 x0 T0 Y K. destruct (F3 t0 x0 T0 Y K). congruence.
    + intros _. right. split; [done|]. split.
      * intros j e' E' A' Q. by destruct (i_first _ _ _ _ _ _ I t X j e e' T O ltac:(by rewrite V) E0 E' A').
      * intros t0 x0 e' [[-> ->]|[N T0]]%Old O' K E' Q; [done|]. destruct N.
        by apply (owners_alone db es hp ts nx t0 t x0 X e' e).
  - intros t0 x0 T0 K Y. pose proof T0 as [[-> ->]|[N T1]]%Old; [done|].
    destruct (i_resource _ _ _ _ _ _ I t0 x0 e T1 K) as [? _]; [by rewrite Y|congruence].
  - intros t0 x0 e' [[-> ->]|[N T0]]%Old W (e2 & E2 & ->)%alter_back Q; [done|].
    assert (Q' : id (request e) = id (request e2)) by (case_decide; done).
    destruct (i_threat _ _ _ _ _ _ I t t0 X x0 e e2 T T0 O W E0 E2 Q') as (_ & _ & K). by rewrite V in K.
Qed.

(** [checking] is set where no task watches. *)
Lemma inv_checking db es hp ts nx k e :
  Inv inst db es hp ts nx -> hp !! k = Some e -> checking e = false ->
  (forall t x, ts !! t = Some x -> v_kind (view x) = K_monitor -> v_key (view x) <> k) /\
  Inv inst db es (alter (set_checking true) k hp) ts nx.
Proof.
  intros I E Ch.
  assert (NoMon : forall t x, ts !! t = Some x -> v_kind (view x) = K_monitor -> v_key (view x) <> k).
  { intros t x T K Y. destruct (i_monitor _ _ _ _ _ _ I t x e T K) as (_ & ? & _); [by rewrite Y|congruence]. }
  split; [done|]. apply inv_alter; [done|done|]. intros e' E'. rewrite E in E'. injection E' as <-. split; [|by left].
  destruct (inv_fits _ _ _ _ _ k e I E) as (F1 & F2 & F3 & F4). split; [done|]. split; [|split; done].
  intros t x T Y K. by destruct (NoMon t x T K).
Qed.

(** [monitor] takes up a registered entry that is not being checked. *)
Lemma inv_watch db es hp ts nx k e :
  Inv inst db es hp ts nx -> hp !! k = Some e -> pending e = false -> checking e = false ->
  es !! id (request e) = Some k ->
  Inv inst db es (alter (set_checking true) k hp) (<[nx := Monitor k M_check]> ts) (S nx).
Proof.
  intros I E P Ch G. destruct (inv_checking _ _ _ _ _ _ _ I E Ch) as [NoMon I0].
  assert (E1 : alter (set_checking true) k hp !! k = Some (set_checking true e)) by by rewrite lookup_alter_eq, E.
  set (e1 := set_checking true e) in *. assert (G1 : es !! id (request e1) = Some k) by done.
  assert (P1 : pending e1 = false /\ checking e1 = true) by done. clearbody e1. clear I. set (hp1 := alter _ _ _) in *. clearbody hp1.
  destruct I0. split; try done.
  - intros j e' E'. apply i_next_heap0 in E'. lia.
  - intros t x [[<- _]|[_ T]]%lookup_insert_Some; [lia|]. apply i_next_task0 in T. lia.
  - intros t x [[<- <-]|[_ T]]%lookup_insert_Some; eauto.
  - intros t x e' [[<- <-]|[_ T]]%lookup_insert_Some K E'; [done|eauto].
  - intros t x e' [[<- <-]|[_ T]]%lookup_insert_Some K E'; [|eauto]. cbn in E'. rewrite E1 in E'. injection E' as <-. destruct P1. done.
  - intros t x e' [[<- <-]|[_ T]]%lookup_insert_Some K E'; [done|eauto].
  - intros t1 t2 x1 x2 [[<- <-]|[_ T1]]%lookup_insert_Some [[<- <-]|[_ T2]]%lookup_insert_Some K Kd Y; [done|..|eauto].
    + by destruct (NoMon t2 x2 T2).
    + by destruct (NoMon t1 x1 T1).
  - intros t x e' [[<- <-]|[_ T]]%lookup_insert_Some O E'; [done|eauto].
  - intros t t' x x' ea eb [[<- <-]|[_ T]]%lookup_insert_Some [[<- <-]|[_ T']]%lookup_insert_Some O W Ea Eb D; try done; [|eauto].
    cbn in *. rewrite E1 in Eb. injection Eb as <-. destruct (i_owns0 t x ea T O Ea) as [Ga _].
    rewrite D, G1 in Ga. injection Ga as Y. split; [done|]. split; [done|].
    destruct (view_owns x O) as [K|K]; [|done]. rewrite <- Y, E1 in Ea. injection Ea as <-.
    destruct (i_claim0 t x e1 T K) as (? & _); [by rewrite <- Y|]. destruct P1. congruence.
  - intros t x j ea eb [[<- <-]|[_ T]]%lookup_insert_Some O K Ea Eb Q; [done|eauto].
  - intros t x e' [[<- <-]|[_ T]]%lookup_insert_Some W E' D; [|eauto]. cbn in *. rewrite E1 in E'. by injection E' as <-.
  - intros t x e' [[<- <-]|[_ T]]%lookup_insert_Some W E'; [done|eauto].
Qed.

(** A task goes on: a stream may have ended, something may have been found about
    the entry. *)
Record follows db (e : Entry) (x y : Task) : Prop := mk_follows {
  f_kind : v_kind (view y) = v_kind (view x); f_key : v_key (view y) = v_key (view x);
  f_request : v_request (view y) = v_request (view x); f_owns : implies (v_owns (view y)) (v_owns (view x));
  f_threat : v_threat (view y) = true ->
    v_threat (view x) = true \/ v_owns (view x) = true /\ v_kind (view x) = K_resource;
  f_settled : v_settled (view y) = true -> v_settled (view x) = true \/ unheld inst (id (request e)) db;
  f_early : implies (v_early (view y)) (v_early (view x));
  f_release : v_release (view y) = true -> v_release (view x) = true \/ is_over e = true }.

Lemma inv_put db es hp ts nx t x y e :
  Inv inst db es hp ts nx -> ts !! t = Some x -> v_kind (view x) <> K_other -> hp !! v_key (view x) = Some e ->
  follows db e x y -> Inv inst db es hp (<[t := y]> ts) nx.
Proof.
  intros I T K0 E [Fk Fy Fr Fo Ft Fs Fe Fl].
  assert (Ex : forall e', hp !! v_key (view x) = Some e' -> e' = e) by congruence.
  pose proof I as [I1 I2 I3 I4 I5 I6 I7 I8 I9 I10 I11 I12 I13 I14 I15 I16 I17].
  split; try done.
  - intros t0 x0 [[<- <-]|[_ T0]]%lookup_insert_Some; eauto.
  - intros t0 x0 [[<- <-]|[_ T0]]%lookup_insert_Some K; [|eauto]. rewrite Fy. eauto.
  - intros t0 x0 e0 [[<- <-]|[_ T0]]%lookup_insert_Some K E0; [|eauto]. rewrite Fy in E0. rewrite Fk in K.
    destruct (I5 t x e0 T K E0) as (P & R & A). rewrite Fr. auto.
  - intros t0 x0 e0 [[<- <-]|[_ T0]]%lookup_insert_Some K E0; [|eauto]. rewrite Fy in E0. rewrite Fk in K.
    destruct (I6 t x e0 T K E0) as (P & R & A). split; [done|]. split; [done|]. intros L. apply Ex in E0 as ->.
    destruct (Fl L); auto.
  - intros t0 x0 e0 [[<- <-]|[_ T0]]%lookup_insert_Some K E0; [|eauto]. rewrite Fy in E0. rewrite Fk in K.
    destruct (I7 t x e0 T K E0) as (P & A). auto.
  - intros t1 t2 x1 x2 [[<- <-]|[N1 T1]]%lookup_insert_Some [[<- <-]|[N2 T2]]%lookup_insert_Some K Kd Y; [done|..|eauto].
    + apply (I8 t t2 x x2 T T2); congruence.
    + apply (I8 t1 t x1 x T1 T); congruence.
  - intros t0 x0 e0 [[<- <-]|[_ T0]]%lookup_insert_Some O E0; [|eauto]. rewrite Fy in *. eauto.
  - intros t1 t2 x1 x2 e1 e2 [[<- <-]|[N1 T1]]%lookup_insert_Some [[<- <-]|[N2 T2]]%lookup_insert_Some O W E1 E2 D; [..|eauto].
    + apply view_threat in W. congruence.
    + rewrite Fy, Fk in *. eauto.
    + rewrite Fy, Fk in *. destruct (Ft W) as [W'|[O' _]]; [eauto|]. destruct N1.
      exact (owners_alone db es hp ts nx t t1 x x1 e2 e1 I T T1 O' O E2 E1 (eq_sym D)).
  - intros t0 x0 j e1 e2 [[<- <-]|[_ T0]]%lookup_insert_Some O K E1 E2 A; [|eauto]. rewrite Fy in E1. rewrite Fk in K. eauto.
  - intros t0 x0 e0 [[<- <-]|[_ T0]]%lookup_insert_Some W E0 D; [|eauto]. rewrite Fy in *.
    destruct (Ft W) as [W'|[O' _]]; [eauto|]. destruct (I12 t x e0 T O' E0) as (_ & ? & _). done.
  - intros t0 x0 e0 [[<- <-]|[_ T0]]%lookup_insert_Some W E0; [|eauto]. rewrite Fy in E0.
    destruct (Fs W) as [W'|U]; [eauto|]. by apply Ex in E0 as ->.
Qed.

(** The transaction that releases, of a task that may. *)
Lemma inv_releases db db' es hp ts nx t x e ok :
  Inv inst db es hp ts nx -> ts !! t = Some x -> hp !! v_key (view x) = Some e -> v_threat (view x) = true ->
  (v_kind (view x) = K_monitor -> v_release (view x) = true) -> releases inst (id (request e)) ok db db' ->
  Inv inst db' es hp ts nx.
Proof.
  intros [] T E W M [Ka Sp Or _]. split; try done.
  - eauto.
  - intros t0 x0 e0 T0 O E0. destruct (i_owns0 t0 x0 e0 T0 O E0) as (G & D & fp & C & L).
    split; [done|]. split; [auto|]. exists fp. split; [done|]. apply Sp; [|done]. intros Q.
    destruct (i_threat0 t0 t x0 x e0 e T0 T O W E0 E Q) as (Y & Km & Kr). rewrite Y in E. rewrite E in E0.
    injection E0 as <-. destruct (i_resource0 t0 x0 e T0 Kr E) as [A C']. rewrite <- Y in E.
    destruct (i_monitor0 t x e T Km E) as (_ & _ & R). specialize (R (M Km)). unfold is_over in R.
    by rewrite A, C' in R.
  - intros t0 x0 e0 T0 W0 E0 D. apply (i_open0 t0 x0 e0 T0 W0 E0). intros D'. by apply D, Ka.
  - intros t0 x0 e0 T0 W0 E0. eapply origin_unheld; eauto.
  - intros i h fp L. eapply i_held0, Or, L.
Qed.

(** The task goes on without more claims, or ends. *)
Lemma inv_go db es hp ts nx t x y :
  Inv inst db es hp ts nx -> ts !! t = Some x -> below (view y) (view x) -> Inv inst db es hp (<[t := y]> ts) nx.
Proof.
  intros I T B. eapply inv_tasks; [exact I|done|]. intros t0 x0 [[<- <-]|[_ T0]]%lookup_insert_Some; right; eauto.
  exists x0. split; [done|apply below_refl].
Qed.

Lemma inv_finish db es hp ts nx t : Inv inst db es hp ts nx -> Inv inst db es hp (delete t ts) nx.
Proof.
  intros I. eapply inv_tasks; [exact I|done|]. intros t0 x0 [_ T0]%lookup_delete_Some. right.
  exists x0. split; [done|apply below_refl].
Qed.

Lemma inv_spawn db es hp ts nx x : Inv inst db es hp ts nx -> v_kind (view x) = K_other -> Inv inst db es hp (<[nx := x]> ts) (S nx).
Proof.
  intros I K. eapply inv_tasks; [exact I|lia|]. intros t0 x0 [[<- <-]|[_ T0]]%lookup_insert_Some; [left; split; [done|lia]|].
  right. exists x0. split; [done|apply below_refl].
Qed.

(** A task of an entry ends, and the entry's flag with it. *)
Lemma inv_settle db es hp ts nx t x k :
  Inv inst db es hp ts nx -> ts !! t = Some x -> v_kind (view x) = K_claim -> v_key (view x) = k ->
  Inv inst db es (alter set_settled k hp) (delete t ts) nx.
Proof.
  intros I T K Y. apply inv_alter; [by apply inv_finish|done|]. intros e E. split; [|by left].
  destruct (inv_fits _ _ _ _ _ k e I E) as (F1 & F2 & F3 & F4). split; [|split; [|split; [|done]]].
  - intros t0 x0 [N T0]%lookup_delete_Some Y0 K0. destruct N.
    apply (i_unique _ _ _ _ _ _ I t t0 x x0 T T0); congruence.
  - intros t0 x0 [N T0]%lookup_delete_Some Y0 K0. by destruct (F2 t0 x0 T0 Y0 K0).
  - intros t0 x0 [N T0]%lookup_delete_Some. eauto.
Qed.

Lemma inv_clear db es hp ts nx t x k :
  Inv inst db es hp ts nx -> ts !! t = Some x -> v_kind (view x) = K_monitor -> v_key (view x) = k ->
  Inv inst db es (alter (set_checking false) k hp) (delete t ts) nx.
Proof.
  intros I T K Y. apply inv_alter; [by apply inv_finish|done|]. intros e E. split; [|by left].
  destruct (inv_fits _ _ _ _ _ k e I E) as (F1 & F2 & F3 & F4). split; [|split; [|split; [|done]]].
  - intros t0 x0 [N T0]%lookup_delete_Some. eauto.
  - intros t0 x0 [N T0]%lookup_delete_Some Y0 K0. destruct N.
    apply (i_unique _ _ _ _ _ _ I t t0 x x0 T T0); congruence.
  - intros t0 x0 [N T0]%lookup_delete_Some. eauto.
Qed.

(** The stream of the entry has ended. *)
Lemma inv_complete db es hp ts nx t x k e :
  Inv inst db es hp ts nx -> ts !! t = Some x -> v_kind (view x) = K_resource -> v_key (view x) = k ->
  v_owns (view x) = false -> hp !! k = Some e ->
  Inv inst db es (alter (set_completed (is_some_b (binding e))) k hp) ts nx.
Proof.
  intros I T K Y O E. apply inv_alter; [done|done|]. intros e' E'. rewrite E in E'. injection E' as <-. split; [|by left].
  destruct (inv_fits _ _ _ _ _ k e I E) as (F1 & F2 & F3 & F4). destruct (F3 t x T Y K) as [A _].
  split; [done|]. split; [|split; [|done]].
  - intros t0 x0 T0 Y0 K0. destruct (F2 t0 x0 T0 Y0 K0) as (P & C & L). split; [done|]. split; [done|].
    intros R. specialize (L R). unfold is_over in *. cbn. rewrite A in *. cbn in *. by destruct (F4 L).
  - intros t0 x0 T0 Y0 K0. split; [done|]. intros O0.
    assert (t0 = t) as -> by (apply (i_unique _ _ _ _ _ _ I t0 t x0 x T0 T); congruence). congruence.
Qed.

(** Where no task is left, releasing and removing an identity. *)
Lemma inv_drain db db' es hp ts nx e ok :
  Inv inst db es hp ts nx -> (forall t x, ts !! t = Some x -> v_kind (view x) = K_other) ->
  releases inst (id (request e)) ok db db' ->
  Inv inst db' (if ok then delete (id (request e)) es else es) hp ts nx.
Proof.
  intros [] F [Ka Sp Or U].
  assert (Sub : forall i k, (if ok then delete (id (request e)) es else es) !! i = Some k -> es !! i = Some k)
    by (intros i k; destruct ok; [intros [_ ?]%lookup_delete_Some|]; done).
  assert (Idle : forall t x, ts !! t = Some x ->
      v_owns (view x) = false /\ v_threat (view x) = false /\ v_settled (view x) = false) by eauto using view_other.
  split; try done; try (by eauto).
  - intros t x e0 T O. destruct (Idle t x T) as (? & ? & ?). congruence.
  - intros t x e0 T O. destruct (Idle t x T) as (? & ? & ?). congruence.
  - intros t x e0 T O. destruct (Idle t x T) as (? & ? & ?). congruence.
  - intros i h fp L. destruct (i_held0 i h fp (Or i h fp L)) as (k & e0 & G & E & C). exists k, e0.
    split; [|done]. destruct ok; [|done]. rewrite lookup_delete_ne; [done|]. intros <-. by destruct (U eq_refl _ _ L).
Qed.

End preserve.
End owner.
End AdmissionOwnerProofs.
