(* ===== verification/AdmissionWorld.v ===== *)
(** * Theorems on owners that share the ledger

    The invariant of AdmissionOwnerProofs holds in every reachable state, so that
    the streams of a household that run, in all processes, are within its ceiling;
    an identity is started at most once; an owner that drains leaves no reservation
    behind. *)

From stdpp Require Import gmap sorting.
From S2P Require Import Prelude Admission Ledger LedgerProofs AdmissionOwner AdmissionOwnerProofs.

Module AdmissionWorld.
Import Admission Ledger LedgerProofs AdmissionOwner AdmissionOwnerProofs.

Create HintDb starts.

Section world.
Context (to_string : Fingerprint -> option string) (from_str : string -> option Fingerprint).
Context (verify : Db -> Request -> option Row -> result Verified AdmissionError).
Context (ambient_allowed : Db -> Request -> Uuid -> Z -> bool).
Context (digest : Policy -> option Hash) (permitted : Db -> Uuid -> Policy -> bool) (busy : Db -> Uuid -> bool).

Abbreviation encode := (encode to_string).
Abbreviation claim := (claim to_string from_str verify ambient_allowed digest).
Abbreviation check_on := (check_on to_string from_str verify ambient_allowed permitted).
Abbreviation retire := (retire to_string).
Abbreviation run_claim := (run_claim to_string from_str verify ambient_allowed digest).
Abbreviation run_check := (run_check to_string from_str verify ambient_allowed permitted).
Abbreviation run_monitor := (run_monitor to_string from_str verify ambient_allowed permitted).
Abbreviation run_resource := (run_resource to_string).
Abbreviation run_ending := (run_ending to_string).
Abbreviation run := (run to_string from_str verify ambient_allowed digest permitted).
Abbreviation act := (act to_string from_str verify ambient_allowed digest permitted).
Abbreviation step := (step to_string from_str verify ambient_allowed digest permitted busy).
Abbreviation history := (history to_string from_str verify ambient_allowed digest permitted busy).

(** ** The steps of an owner keep its invariant *)

Section preserve.
Context (inst : Uuid) (oc : Outcome) (clock : Z).

Definition holds (db : Db) (o : Owner) : Prop := Inv to_string inst db (entries o) (heap o) (tasks o) (next o).

Lemma enqueue_holds (r : Request) (b : option Binding) (db : Db) (o o' : Owner) :
  holds db o -> enqueue to_string r b o = Ok o' -> holds db o'.
Proof.
  intros I. unfold enqueue. destruct (encode r) as [fp|] eqn:C; [|done]. cbn. destruct (_ <=? 0); [done|].
  destruct (_ || _); [done|]. destruct (entries o !! id r) as [k|] eqn:G.
  - destruct (heap o !! k) as [e|]; [|done]. cbn. destruct (encode (request e)); [|done]. cbn.
    destruct (_ || _); [done|]. destruct (pending e); [done|]. intros [= <-]. by apply inv_spawn.
  - destruct (128 <=? _); [done|]. intros [= <-]. set (e0 := mk_entry r b false true false false None false).
    apply (inv_register to_string inst db (entries o) (<[next o := e0]> (heap o)) (tasks o) (S (next o)) r b (next o) e0 fp); try done.
    + by apply inv_alloc.
    + by rewrite lookup_insert_eq.
    + intros t x T K Y. destruct (i_key _ _ _ _ _ _ _ I t x T K) as [e E]. rewrite Y in E.
      apply (i_next_heap _ _ _ _ _ _ _ I) in E. lia.
Qed.

Lemma run_claim_holds (t k : nat) (r : Request) (b : option Binding) (inserted : bool) (p : ClaimAt)
    (db db' : Db) (o o' : Owner) :
  holds db o -> tasks o !! t = Some (Claim k r b inserted p) ->
  run_claim inst oc clock t k r b inserted p db o = (db', o') -> holds db' o'.
Proof.
  intros I T. destruct p as [|began|began x|]; cbn [AdmissionOwner.run_claim].
  - intros [= <- <-]. eapply inv_go; [exact I|exact T|]. destruct inserted; apply below_refl.
  - destruct (transaction _ _ _) as [x db1] eqn:X. intros [= <- <-].
    apply claim_transaction in X as [[B F]|[[A ->] F]].
    + eapply inv_go; [eapply inv_benign; [exact I|apply B]|exact T|]. destruct inserted; [|apply below_refl].
      destruct x as [y|e]; cbn; [rewrite F; apply below_refl|]. destruct e; by split.
    + eapply inv_admits; [exact I|exact T|exact A| |reflexivity]. destruct x as [y|e]; cbn; [rewrite F; auto|].
      subst. auto.
  - destruct inserted; intros [= <- <-]; [|by apply inv_finish].
    destruct (i_key _ _ _ _ _ _ _ I t _ T) as [e E]; [by destruct x as [y|[]]; cbn; [destruct (held_fresh y)|..]|].
    assert (E1 : heap o !! k = Some e) by (by destruct x as [y|[]]; cbn in E; [destruct (held_fresh y)|..]).
    clear E. rename E1 into E.
    assert (Rm : view (Claim k r b true (Claimed began x)) = mk_view K_claim k (Some r) false true true true false ->
        holds db (put t (Claim k r b true Settling) (remove (id r) o))).
    { intros V. destruct (i_claim _ _ _ _ _ _ _ I t _ e T) as (_ & R & _); [by rewrite V|by rewrite V|].
      rewrite V in R. injection R as ->. eapply inv_remove; [exact I|exact T|by rewrite V|by rewrite V|done|].
      rewrite V. by split. }
    assert (Go : view (Claim k r b true (Claimed began x)) = mk_view K_claim k (Some r) false false false true false \/
        view (Claim k r b true (Claimed began x)) = mk_view K_claim k (Some r) true false false true false ->
        forall f, (forall e, core (f e) = core e) -> holds db (put t (Claim k r b true Settling) (on_entry f k o))).
    { intros V f F. eapply inv_go; [by apply inv_core|exact T|]. destruct V as [->| ->]; by split. }
    destruct x as [y|[]]; cbn [claimed]; try (by apply Rm); [|by apply Go; [left|]].
    destruct (held_fresh y) eqn:F; [|apply Rm; cbn; by rewrite F].
    destruct (launches _ _).
    + assert (I1 : holds db (on_entry (set_expires (began + remaining y)) k o)) by by apply inv_core.
      eapply inv_launch; [exact I1|exact T|exact F|]. cbn. by rewrite lookup_alter_eq, E.
    + assert (I1 : holds db (on_entry (set_expires (began + remaining y)) k o)) by by apply inv_core.
      eapply inv_go; [by apply inv_core|exact T|]. cbn. rewrite F. by split.
  - intros [= <- <-]. destruct inserted; [by eapply inv_settle|by apply inv_finish].
Qed.

Lemma run_check_holds (t k : nat) (r : Request) (renew : bool) (p : CheckAt) (e : Entry) (db db' : Db) (o o' : Owner) :
  holds db o -> tasks o !! t = Some (Check k r renew p) ->
  run_check inst oc clock t k r renew p e db o = (db', o') -> holds db' o'.
Proof.
  intros I T. destruct p as [|began|began x]; cbn [AdmissionOwner.run_check].
  - intros [= <- <-]. eapply inv_go; [exact I|exact T|apply below_refl].
  - destruct (transaction _ _ _) as [x db1] eqn:X. intros [= <- <-]. apply (check_transaction _ _ _ _ _ inst) in X.
    eapply inv_go; [by eapply inv_benign|exact T|apply below_refl].
  - intros [= <- <-]. apply inv_finish. destruct x; [destruct renew; [|exact I]|]; by apply inv_core.
Qed.

Lemma run_monitor_holds (t k : nat) (p : MonitorAt) (e : Entry) (db db' : Db) (o o' : Owner) :
  holds db o -> tasks o !! t = Some (Monitor k p) -> heap o !! k = Some e ->
  run_monitor inst oc clock t k p e db o = (db', o') -> holds db' o'.
Proof.
  intros I T E. destruct p; cbn [AdmissionOwner.run_monitor].
  - destruct (cancel e).
    + intros [= <- <-]. eapply inv_go; [exact I|exact T|apply below_refl].
    + destruct (transaction _ _ _) as [x db1] eqn:X. intros [= <- <-]. apply (check_transaction _ _ _ _ _ inst) in X.
      eapply inv_go; [by eapply inv_benign|exact T|apply below_refl].
  - intros [= <- <-]. destruct ok; cbn [negb orb]; (eapply inv_go; [|exact T|]).
    + exact I.
    + destruct (cancel e); [apply below_refl|by split].
    + by apply inv_core.
    + apply below_refl.
  - destruct (transaction _ _ _) as [x db1] eqn:X. intros [= <- <-]. apply (retire_transaction _ inst) in X; [|by left].
    eapply inv_go; [by eapply inv_benign|exact T|apply below_refl].
  - intros [= <- <-]. assert (H : holds db (put t (Monitor k (if is_over e then M_release else M_clear)) o)); [|by destruct ok].
    destruct (is_over e) eqn:O; [|eapply inv_go; [exact I|exact T|by split]].
    eapply inv_put; [exact I|exact T|done|exact E|]. by split; auto.
  - destruct (transaction _ _ _) as [x db1] eqn:X. intros [= <- <-]. apply release_transaction in X.
    eapply inv_put; [eapply inv_releases; [exact I|exact T|exact E|done|done|exact X]|exact T|done|exact E|].
    split; try done; [by left|]. intros S. right. by apply X.
  - intros [= <- <-]. destruct ok; [|eapply inv_go; [exact I|exact T|by split]].
    eapply inv_remove; [exact I|exact T|exact E|done|done|by split].
  - intros [= <- <-]. by eapply inv_clear.
Qed.

Lemma ended_holds (t k : nat) (p : ResourceAt) (ok : bool) (db : Db) (o : Owner) :
  holds db o -> tasks o !! t = Some (Resource k (Some ok) p) -> holds db (ended t k ok o).
Proof. intros I T. eapply inv_go; [by apply inv_core|exact T|]. destruct ok; apply below_refl. Qed.

Lemma run_resource_holds (t k : nat) (out : option bool) (p : ResourceAt) (e : Entry) (db db' : Db) (o o' : Owner) :
  holds db o -> tasks o !! t = Some (Resource k out p) ->
  run_resource inst oc clock t k out p e db o = Some (db', o') -> holds db' o'.
Proof.
  intros I T.
  assert (Go : forall p' db1, holds db1 o -> holds db1 (put t (Resource k out p') o))
    by (intros p' db1 I1; eapply inv_go; [exact I1|exact T|apply below_refl]).
  destruct p as [| | |u|]; cbn [AdmissionOwner.run_resource].
  - destruct out as [ok|]; [intros [= <- <-]; by eapply ended_holds|]. destruct (cancel e); [intros [= <- <-]; by apply Go|].
    destruct (_ <=? _); [|done]. intros [= <- <-]. by apply inv_core.
  - destruct (_ <=? _); [done|]. intros [= <- <-]. by apply (Go R_stopping).
  - destruct (transaction _ _ _) as [x db1] eqn:X. intros [= <- <-]. apply (retire_transaction _ inst) in X; [|by left].
    apply (Go (R_grace _)). by eapply inv_benign.
  - destruct out as [ok|]; [intros [= <- <-]; by eapply ended_holds|]. destruct (_ <=? _); [|done].
    intros [= <- <-]. by apply (Go R_overdue).
  - destruct out as [ok|]; [|done]. intros [= <- <-]. by eapply ended_holds.
Qed.

Lemma run_ending_holds (t k : nat) (p : EndingAt) (e : Entry) (db db' : Db) (o o' : Owner) :
  holds db o -> tasks o !! t = Some (Ending k p) -> heap o !! k = Some e ->
  run_ending inst oc clock t k p e db o = Some (db', o') -> holds db' o'.
Proof.
  intros I T E. destruct p; cbn [AdmissionOwner.run_ending].
  - destruct (_ <=? _); [done|]. intros [= <- <-]. eapply inv_go; [exact I|exact T|apply below_refl].
  - destruct (transaction _ _ _) as [x db1] eqn:X. intros [= <- <-]. apply (retire_transaction _ inst) in X; [|by left].
    apply inv_finish. by eapply inv_benign.
  - destruct (_ <=? _); [done|]. intros [= <- <-]. eapply inv_go; [|exact T|apply below_refl].
    by eapply inv_complete.
  - destruct (transaction _ _ _) as [x db1] eqn:X. intros [= <- <-]. apply release_transaction in X.
    eapply inv_put; [eapply inv_releases; [exact I|exact T|exact E|done|done|exact X]|exact T|done|exact E|].
    split; try done; [by left|]. intros S. right. by apply X.
  - intros [= <- <-]. destruct ok; [|by apply inv_finish].
    by apply (inv_remove _ _ _ _ _ _ _ _ _ e I T E).
Qed.

Lemma monitor_next_holds (db : Db) (o o' : Owner) :
  holds db o -> current o = true -> monitor_next o = Some o' -> holds db o'.
Proof.
  intros I. unfold monitor_next, current. destruct (scanning o) as [[|k l]|]; [by intros _ [= <-]| |done].
  destruct (heap o !! k) as [e|] eqn:E; [|done]. cbn [is_some_and]. intros G.
  case_bool_decide as G'; [clear G|done]. destruct (pending e) eqn:P; [by intros [= <-]|].
  destruct (checking e) eqn:C; [by intros [= <-]|]. destruct (_ <=? 0); [by intros [= <-]|].
  cbn. destruct (closed o); intros [= <-]; [by eapply inv_checking|by eapply inv_watch].
Qed.

Lemma close_entries (l : list nat) (o : Owner) :
  exists hp, foldr (on_entry set_cancel) o l = with_heap hp o /\
    forall db, holds db o -> holds db (with_heap hp o).
Proof.
  induction l as [|k l (hp & E & H)]; [by exists (heap o); destruct o|].
  cbn [foldr]. rewrite E. eexists. split; [reflexivity|]. intros db I. cbn. apply inv_core; [|done]. by apply H.
Qed.

(** Once [drain] has begun, no task of an entry is left; after it succeeded no
    entry either. *)
Definition quiet (o : Owner) : Prop :=
  (draining o <> None \/ drained o <> None ->
     closed o = true /\ watching o = false /\ scanning o = None /\ forall t x, tasks o !! t = Some x -> x = Sql) /\
  (drained o = Some (Ok tt) -> entries o = ∅).

Lemma drain_next_holds (db db' : Db) (o o' : Owner) :
  holds db o -> quiet o -> drain_next to_string inst oc clock db o = Some (db', o') -> holds db' o'.
Proof.
  intros I [Q _]. unfold drain_next. destruct (draining o) as [[|k l]|] eqn:D; try done.
  destruct Q as (_ & _ & _ & Q); [by left|]. destruct (heap o !! k) as [e|] eqn:E; [|done].
  destruct (is_over e); [|by intros [= <- <-]].
  destruct (transaction _ _ _) as [x db1] eqn:X. apply release_transaction in X. intros [= <- <-].
  pose proof (inv_drain to_string inst db db1 _ _ _ _ e (is_ok x) I) as H.
  destruct (is_ok x); apply H; try done; intros t y ->%Q; done.
Qed.

Lemma act_holds (ev : Event) (db db' : Db) (o o' : Owner) :
  holds db o -> quiet o -> (ev = E_next -> current o = true) ->
  act inst clock ev db o = Some (db', o') -> (forall t oc', ev = E_run t oc' -> oc' = oc) ->
  (forall oc', ev = E_drain_next oc' -> oc' = oc) -> holds db' o'.
Proof.
  intros I Q Cur. destruct ev as [r b|r renew|i| |t oc'|t ok| | | | |oc'| |cl|t dn|]; cbn [AdmissionOwner.act].
  - destruct (enqueue _ r b o) as [o1|] eqn:H; [|done]. intros [= <- <-] _ _. by eapply enqueue_holds.
  - unfold queue_check. destruct (_ <=? 0); [done|]. destruct (_ || _); [done|].
    destruct (entries o !! id r) as [k|]; [|done]. cbn. destruct (heap o !! k) as [e|]; [|done]. cbn.
    destruct (encode (request e)); [|done]. cbn. destruct (encode r); [|done]. cbn. destruct (negb _); [done|].
    destruct (_ || _); [done|]. intros [= <- <-] _ _. by apply inv_spawn.
  - intros [= <- <-] _ _. unfold stop. destruct (entries o !! i); [|done]. by apply inv_core.
  - intros [= <- <-] _ _. unfold close.
    match goal with |- context [foldr _ ?o1 ?l] => destruct (close_entries l o1) as (hp & -> & H) end. by apply H.
  - intros H Oc _. specialize (Oc t oc' eq_refl) as ->. unfold AdmissionOwner.run in H.
    destruct (tasks o !! t) as [x|] eqn:T; [|done]. cbn in H.
    destruct x as [k r b ins p|k r renew p|k p|k out p|k p|]; [injection H as H; by eapply run_claim_holds| |..|done];
      (destruct (heap o !! k) as [e|] eqn:E; [|done]); cbn in H.
    + injection H as H. by eapply run_check_holds.
    + injection H as H. by eapply run_monitor_holds.
    + by eapply run_resource_holds.
    + by eapply run_ending_holds.
  - destruct (tasks o !! t) as [[| | |k [] p| |]|] eqn:T; try done. intros [= <- <-] _ _.
    destruct (i_key _ _ _ _ _ _ _ I t _ T) as [e E]; [done|].
    eapply inv_put; [exact I|exact T|done|exact E|]. split; try done. by right.
  - unfold monitor_begin. destruct (watching o), (scanning o); try done.
    destruct (ordered (entries o)); intros [= <- <-] _ _; exact I.
  - destruct (monitor_next o) as [o1|] eqn:H; [|done]. intros [= <- <-] _ _. eapply monitor_next_holds; eauto.
  - unfold unwatch. destruct (_ && _); [|done]. intros [= <- <-] _ _. exact I.
  - unfold drain_begin. destruct (_ && _); [|done]. intros [= <- <-] _ _. exact I.
  - intros H _ Oc. specialize (Oc oc' eq_refl) as ->. by eapply drain_next_holds.
  - unfold drain_end. destruct (draining o) as [[]|]; try done. intros [= <- <-] _ _. exact I.
  - unfold sql. destruct (_ <=? 0); [done|]. destruct (_ && _); [done|]. intros [= <- <-] _ _. by apply inv_spawn.
  - unfold sql_end. destruct (tasks o !! t) as [[]|]; try done. intros [= <- <-] _ _. apply inv_finish. by destruct dn.
  - intros [= <- <-] _ _. exact I.
Qed.

End preserve.
(** ** Draining *)

Definition progress (o : Owner) : option (list nat) * option (result unit AdmissionError) := (draining o, drained o).

Lemma claimed_progress (k : nat) (r : Request) (began : Z) (x : result Receipt AdmissionError) (o : Owner) :
  progress (claimed k r began x o) = progress o.
Proof. destruct x as [y|[]]; cbn; try done. destruct (held_fresh y); [|done]. by destruct (launches _ _). Qed.

Lemma run_progress (inst : Uuid) (oc : Outcome) (clock : Z) (t : nat) (db db' : Db) (o o' : Owner) :
  run inst oc clock t db o = Some (db', o') -> progress o' = progress o.
Proof.
  unfold AdmissionOwner.run. destruct (tasks o !! t) as [[k r b ins p|k r renew p|k p|k out p|k p|]|]; cbn; try done.
  - intros [= H]. destruct p as [| |began x|]; cbn in H.
    + by injection H as _ <-.
    + destruct (transaction _ _ _). by injection H as _ <-.
    + destruct ins; injection H as _ <-; [|done]. apply claimed_progress.
    + destruct ins; by injection H as _ <-.
  - destruct (heap o !! k) as [e|]; [|done]. intros [= H]. destruct p as [| |began [y|]]; cbn in H; try destruct (transaction _ _ _);
      try destruct renew; by injection H as _ <-.
  - destruct (heap o !! k) as [e|]; [|done]. intros [= H]. destruct p as [|[]| |[]| |[]|]; cbn in H; try destruct (cancel e);
      try destruct (transaction _ _ _); by injection H as _ <-.
  - destruct (heap o !! k) as [e|]; [|done]. destruct p, out; cbn; try destruct (transaction _ _ _);
      repeat (match goal with |- context [if ?c then _ else _] => destruct c end); try done; by intros [= _ <-].
  - destruct (heap o !! k) as [e|]; [|done]. destruct p as [| | | |[]]; cbn; try destruct (transaction _ _ _);
      repeat (match goal with |- context [if ?c then _ else _] => destruct c end); try done; by intros [= _ <-].
Qed.

Lemma run_sql (inst : Uuid) (oc : Outcome) (clock : Z) (t : nat) (db : Db) (o : Owner) :
  (forall t x, tasks o !! t = Some x -> x = Sql) -> run inst oc clock t db o = None.
Proof.
  intros F. unfold AdmissionOwner.run. destruct (tasks o !! t) as [x|] eqn:T; [|done]. by rewrite (F t x T).
Qed.

(** A step before [drain] began, or of what it waited for. *)
Lemma quiet_before (o o' : Owner) :
  quiet o -> progress o' = progress o ->
  (closed o = true -> watching o = false -> scanning o = None -> (forall t x, tasks o !! t = Some x -> x = Sql) ->
     closed o' = true /\ watching o' = false /\ scanning o' = None /\ (forall t x, tasks o' !! t = Some x -> x = Sql) /\
     (entries o = ∅ -> entries o' = ∅)) -> quiet o'.
Proof.
  intros [Q1 Q2] [= P1 P2] F. split.
  - rewrite P1, P2. intros D. destruct (Q1 D) as (C & W & S & T). destruct (F C W S T) as (? & ? & ? & ? & _). done.
  - rewrite P2. intros D. destruct Q1 as (C & W & S & T); [right; congruence|].
    destruct (F C W S T) as (_ & _ & _ & _ & E). auto.
Qed.

Lemma act_quiet (inst : Uuid) (clock : Z) (ev : Event) (db db' : Db) (o o' : Owner) :
  quiet o -> act inst clock ev db o = Some (db', o') -> quiet o'.
Proof.
  intros Q. destruct ev as [r b|r renew|i| |t oc|t ok| | | | |oc| |cl|t dn|]; cbn [AdmissionOwner.act].
  - unfold enqueue. destruct (encode r); [|done]. cbn. destruct (_ <=? 0); [done|]. destruct (closed o) eqn:C; [done|].
    destruct (_ || _); [done|]. intros H. apply (quiet_before o); [done| |congruence].
    destruct (entries o !! id r) as [k|]; [|destruct (128 <=? _); [done|]; by injection H as _ <-].
    cbn in H. destruct (heap o !! k) as [e|]; [|done]. cbn in H. destruct (encode (request e)); [|done]. cbn in H.
    destruct (_ || _); [done|]. destruct (pending e); [done|]. by injection H as _ <-.
  - unfold queue_check. destruct (_ <=? 0); [done|]. destruct (closed o) eqn:C; [done|]. destruct (_ || _); [done|].
    intros H. apply (quiet_before o); [done| |congruence]. destruct (entries o !! id r) as [k|]; [|done]. cbn in H.
    destruct (heap o !! k) as [e|]; [|done]. cbn in H. destruct (encode (request e)); [|done]. cbn in H.
    destruct (encode r); [|done]. cbn in H. destruct (negb _); [done|]. destruct (_ || _); [done|]. by injection H as _ <-.
  - intros [= _ <-]. apply (quiet_before o); [done|..]; unfold stop; destruct (entries o !! i); cbn; auto 6.
  - intros [= _ <-]. unfold close.
    match goal with |- context [foldr _ ?o1 ?l] => destruct (close_entries inst l o1) as (hp & -> & _) end.
    apply (quiet_before o); cbn; auto 6.
  - intros H. apply (quiet_before o); [done|by eapply run_progress|]. intros _ _ _ T. by rewrite run_sql in H.
  - destruct (tasks o !! t) as [[| | |k [] p| |]|] eqn:T; try done. intros [= _ <-]. apply (quiet_before o); [done|done|].
    intros _ _ _ F. by apply F in T.
  - unfold monitor_begin. destruct (watching o) eqn:W, (scanning o); try done. intros H.
    apply (quiet_before o); [done| |congruence]. destruct (ordered (entries o)); by injection H as _ <-.
  - unfold monitor_next. destruct (scanning o) as [l|] eqn:S; [|done]. intros H.
    apply (quiet_before o); [done| |congruence]. destruct l as [|k l]; [by injection H as _ <-|].
    destruct (heap o !! k) as [e|]; [|done]. cbn in H.
    repeat (match type of H with context [if ?c then _ else _] => destruct c end); by injection H as _ <-.
  - unfold unwatch. destruct (closed o) eqn:C; [|done]. cbn. case_bool_decide as S; [|done]. intros [= _ <-].
    apply (quiet_before o); cbn; auto 6.
  - unfold drain_begin. destruct (closed o) eqn:C; [|done]. destruct (watching o) eqn:W; [done|]. cbn.
    case_bool_decide as T; [|done]. case_bool_decide as S; [|done]. case_bool_decide as D; [|done].
    intros [= _ <-]. destruct Q as [_ Q]. split; [|exact Q]. intros _. cbn. rewrite T. do 3 (split; [done|]).
    intros t x Hx. by rewrite lookup_empty in Hx.
  - unfold drain_next. destruct (draining o) as [[|k l]|] eqn:D; try done. destruct (heap o !! k) as [e|]; [|done].
    destruct Q as [Q1 Q2]. assert (Q : forall o', closed o' = closed o -> watching o' = watching o -> scanning o' = scanning o ->
      tasks o' = tasks o -> drained o' = drained o -> (entries o = ∅ -> entries o' = ∅) -> quiet o').
    { intros o1 C W S T Dd E. split.
      - intros _. rewrite C, W, S, T. apply Q1. left. by rewrite D.
      - rewrite Dd. auto. }
    destruct (is_over e); [|intros [= _ <-]; by apply Q].
    destruct (transaction _ _ _) as [x db1]. intros [= _ <-].
    destruct (is_ok x); apply Q; try done. cbn. intros ->. by rewrite delete_empty.
  - unfold drain_end. destruct (draining o) as [[]|] eqn:D; try done. intros [= _ <-]. destruct Q as [Q1 _]. split.
    + intros _. apply Q1. left. by rewrite D.
    + cbn. destruct (failed o || maintenance_lost o); [done|]. cbn. by case_bool_decide.
  - unfold sql. destruct (_ <=? 0); [done|]. destruct (_ && _); [done|]. intros [= _ <-].
    apply (quiet_before o); [done|done|]. intros C W S T. do 3 (split; [done|]). split; [|done].
    intros t x Hx. cbn in Hx. apply lookup_insert_Some in Hx as [[_ <-]|[_ Hx]]; eauto.
  - unfold sql_end. destruct (tasks o !! t) as [[]|] eqn:T; try done. intros [= _ <-].
    apply (quiet_before o); [done|by destruct dn|]. intros C W S F. destruct dn; cbn; do 3 (split; [done|]); (split; [|done]);
      intros t' x Hx; cbn in Hx; apply lookup_delete_Some in Hx as [_ Hx]; eauto.
  - intros [= _ <-]. apply (quiet_before o); cbn; auto 6.
Qed.

(** ** Instances of rows *)

(** The foreign key of the reservations. *)
Definition known (db : Db) : Prop := forall i x, reservations db !! i = Some x -> is_Some (instances db !! instance_id x).

Definition grows (db db' : Db) : Prop := dom (instances db) ⊆ dom (instances db').

#[local] Instance grows_preorder : PreOrder grows.
Proof. split; unfold grows; [by intros db|]. intros a b c. set_solver. Qed.

Lemma grows_same (db db' : Db) : instances db' = instances db -> grows db db'.
Proof. unfold grows. by intros ->. Qed.

#[local] Instance grows_stable : Stable grows.
Proof.
  split; [split; try apply _; try (intros; unfold grows; cbn; done)|].
  - intros i x now db db' H. apply grows_same. unfold insert_intent in H. destruct (reservations db !! i); [done|].
    destruct (new_identity _ _ _ _) as [db1|] eqn:N; [|done]. apply new_identity_inv in N as [-> _]. cbn in H.
    destruct (intents db !! i); [done|]. by injection H as <-.
  - intros i now db db' H. apply grows_same. unfold delete_reservation in H. destruct (reservations db !! i) as [y|]; [|by injection H as <-].
    destruct (state y), (released_at y), (prune_after y); try done. destruct (_ && _); [|done]. by injection H as <-.
  - intros i now db db' H. apply grows_same. unfold delete_intent in H. destruct (intents db !! i) as [y|]; [|by injection H as <-].
    destruct (settled_at y), (i_prune_after y), (reservations db !! i); try done. destruct (_ && _); [|done].
    by injection H as <-.
  - intros i now db. apply grows_same. unfold release_row. by destruct (reservations db !! i).
Qed.

Lemma frame_known (db db' : Db) : frame db db' -> grows db db' -> known db -> known db'.
Proof.
  intros (_ & _ & F) G K i x X. destruct (F i x X) as (y & Y & [= _ E _] & _). rewrite <- E.
  apply elem_of_dom, G, elem_of_dom. eauto.
Qed.

Lemma insert_reservation_instances (r : Request) (x : Row) (now : Z) (db db' : Db) :
  insert_reservation r x now db = Ok db' -> instances db' = instances db.
Proof.
  unfold insert_reservation. intros H. destruct (intents db !! id r) as [y|].
  - destruct (_ && same_actor y r); [|done]. cbn in H. destruct (reservations db !! id r); [done|].
    destruct (source_ok x); [by injection H as <-|done].
  - destruct (reservations db !! id r) eqn:R; [done|]. destruct (new_identity _ _ _ _) as [db1|] eqn:N; [|done].
    apply new_identity_inv in N as [-> _]. cbn in H. rewrite R in H. destruct (source_ok x); [by injection H as <-|done].
Qed.

Lemma claim_known (inst : Uuid) (r : Request) (allow : bool) (b : option Binding) (now : Z) (db db' : Db) (y : Receipt) :
  claim inst r allow b now db = Ok (y, db') -> known db -> known db'.
Proof.
  intros H K. assert (N : is_Some (instances db !! inst)).
  { unfold Ledger.claim, instance in H. destruct (encode r); [|done]. cbn in H. destruct (instances db !! inst); [|done]. eauto. }
  apply claim_cases in H as [[_ [->| ->]]|(_ & fp & _ & _ & H)]; [done|..].
  - eapply frame_known; [apply stable_retire_row|apply (stable_retire_row (R:=grows))|done].
  - apply claim_new_inv in H as (_ & limit & v & db1 & _ & _ & _ & _ & _ & I & C).
    assert (E : reservations db' = reservations db1 /\ instances db' = instances db1).
    { destruct b as [b|]; [|by subst]. unfold insert_command in C. destruct (reservations db1 !! id r); [|done].
      destruct (commands db1 !! id r); [done|]. destruct (negb _); [done|]. destruct (is_some_and _ _); [done|].
      by injection C as <-. }
    destruct E as [E1 E2]. pose proof (insert_reservation_instances _ _ _ _ _ I) as E3.
    apply insert_reservation_rows in I as (_ & _ & _ & _ & _ & Q). intros i x X. rewrite E2, E3. rewrite E1, Q in X.
    apply lookup_insert_Some in X as [[_ <-]|[_ X]]; [exact N|eauto].
Qed.

Lemma step_known (db db' : Db) (e : option Uuid) : step db e db' -> known db -> known db'.
Proof.
  intros T. destruct (step_stable _ _ _ _ _ _ _ frame _ _ _ T) as [[-> F]|(inst & r & fp & b & now & x & -> & N)].
  - destruct (step_stable _ _ _ _ _ _ _ grows _ _ _ T) as [[_ G]|(? & ? & ? & ? & ? & ? & ? & _)]; [by apply frame_known|done].
  - inversion T; subst. by eapply claim_known.
Qed.

(** ** What a step of an owner does to the tables *)

(** Nothing, or one transaction, which others do not feel. *)
Definition transacts (inst : Uuid) (db : Db) (e : option Uuid) (db' : Db) : Prop :=
  e = None /\ db' = db \/ step db e db' /\ forall inst', inst' <> inst -> benign inst' db db'.

Lemma check_transacts (inst o : Uuid) (oc : Outcome) (r : Request) (renew : bool) (b : option Binding) (now : Z)
    (x : result Receipt AdmissionError) (db db1 : Db) :
  transaction oc (check_on o r renew b now) db = (x, db1) -> transacts inst db None db1.
Proof.
  intros [(e & _ & ->)|(y & H & _)]%transaction_cases; [by left|]. right. split; [by eapply step_check|].
  intros inst' _. exact (check_on_benign _ _ _ _ _ _ _ _ _ _ _ _ _ _ H).
Qed.

Lemma retire_transacts (inst : Uuid) (oc : Outcome) (r : Request) (release : bool) (now : Z)
    (x : result unit AdmissionError) (db db1 : Db) :
  transaction oc (retire_unit to_string inst r release now) db = (x, db1) -> transacts inst db None db1.
Proof.
  intros [(e & _ & ->)|(y & H & _)]%transaction_cases; [by left|]. apply retire_unit_inv in H. right.
  split; [by eapply step_retire|]. intros inst' N. eapply retire_benign; [exact H|by right; apply not_eq_sym].
Qed.

Lemma claim_transacts (inst : Uuid) (oc : Outcome) (r : Request) (allow : bool) (b : option Binding) (now : Z)
    (x : result Receipt AdmissionError) (db db1 : Db) :
  transaction oc (claim inst r allow b now) db = (x, db1) ->
  exists e, transacts inst db e db1 /\ forall y, x = Ok y -> fresh y = true -> e = Some (id r).
Proof.
  intros [(e & -> & ->)|(y & H & X)]%transaction_cases; [exists None; split; [by left|done]|].
  exists (if fresh y then Some (id r) else None). split.
  - right. split; [by eapply step_claim|]. intros inst' N.
    apply claim_effect in H as [[_ B]|[_ A]]; [apply B|by eapply admits_benign].
  - intros y' -> F. destruct X as [[= ->]|]; [|done]. by rewrite F.
Qed.

(** The identity whose stream a task is about to start. *)
Definition starts (x : Task) : option Uuid :=
  match x with
  | Claim k r _ true (Claimed _ (Ok y)) => if held_fresh y then Some (id r) else None
  | _ => None
  end.
Definition starting (m : gmap nat Task) (t : nat) : option Uuid := m !! t ≫= starts.

Definition no_new (m m' : gmap nat Task) : Prop := forall t i, starting m' t = Some i -> starting m t = Some i.

Lemma no_new_insert (m m' : gmap nat Task) (t : nat) (x : Task) : starts x = None -> no_new m m' -> no_new m (<[t := x]> m').
Proof.
  intros X N t' i. unfold starting. destruct (decide (t = t')) as [<-|D].
  - rewrite lookup_insert_eq. cbn. congruence.
  - rewrite lookup_insert_ne by done. apply N.
Qed.

Lemma no_new_delete (m m' : gmap nat Task) (t : nat) : no_new m m' -> no_new m (delete t m').
Proof.
  intros N t' i. unfold starting. destruct (decide (t = t')) as [<-|D]; [by rewrite lookup_delete_eq|].
  rewrite lookup_delete_ne by done. apply N.
Qed.

Lemma no_new_refl (m : gmap nat Task) : no_new m m.
Proof. by intros t i. Qed.

#[local] Hint Resolve no_new_insert no_new_delete no_new_refl : starts.

Lemma claimed_starts (k : nat) (r : Request) (began : Z) (x : result Receipt AdmissionError) (o : Owner) :
  no_new (tasks o) (tasks (claimed k r began x o)).
Proof.
  destruct x as [y|[]]; cbn; auto with starts. destruct (held_fresh y); cbn; auto with starts.
  destruct (launches _ _); cbn; auto with starts.
Qed.

(** [run], but for the answer of a claim. *)
Lemma run_transacts (inst : Uuid) (oc : Outcome) (clock : Z) (t : nat) (db db' : Db) (o o' : Owner) :
  run inst oc clock t db o = Some (db', o') ->
  exists e, transacts inst db e db' /\
    forall t' i, starting (tasks o') t' = Some i -> starting (tasks o) t' = Some i \/ t' = t /\ e = Some i.
Proof.
  assert (Plain : forall e o1, transacts inst db e db' -> no_new (tasks o) (tasks o1) -> exists e, transacts inst db e db' /\
    forall t' i, starting (tasks o1) t' = Some i -> starting (tasks o) t' = Some i \/ t' = t /\ e = Some i) by eauto.
  unfold AdmissionOwner.run. destruct (tasks o !! t) as [[k r b ins p|k r renew p|k p|k out p|k p|]|]; cbn; try done.
  - intros [= H]. destruct p as [|c|began x|]; cbn in H.
    + injection H as <- <-. eapply Plain; [by left|]. cbn. destruct ins; auto with starts.
    + destruct (transaction _ _ _) as [x db1] eqn:X. injection H as <- <-.
      apply claim_transacts in X as (e & T & F). exists e. split; [done|]. intros t' i. unfold starting. cbn.
      intros S. destruct (decide (t = t')) as [<-|D].
      * right. rewrite lookup_insert_eq in S. cbn in S. split; [done|]. destruct ins, x as [y|]; try done.
        destruct (held_fresh y) eqn:Hf; [|done]. injection S as <-. apply (F y eq_refl).
        unfold held_fresh in Hf. by apply andb_true_iff in Hf as [-> _].
      * left. by rewrite lookup_insert_ne in S.
    + destruct ins; injection H as <- <-; (eapply Plain; [by left|]); cbn; auto with starts.
      apply no_new_insert; [done|apply claimed_starts].
    + injection H as <- <-. eapply Plain; [by left|]. destruct ins; cbn; auto with starts.
  - destruct (heap o !! k) as [e|]; [|done]. intros [= H]. destruct p as [|c|began x]; cbn in H.
    + injection H as <- <-. eapply Plain; [by left|]; cbn; auto with starts.
    + destruct (transaction _ _ _) as [x db1] eqn:X. injection H as <- <-. eapply Plain; [by eapply check_transacts|].
      cbn. auto with starts.
    + injection H as <- <-. eapply Plain; [by left|]. destruct x; [destruct renew|]; cbn; auto with starts.
  - destruct (heap o !! k) as [e|]; [|done]. intros [= H]. destruct p as [|ok| |ok| |ok|]; cbn in H.
    + destruct (cancel e); [injection H as <- <-; eapply Plain; [by left|]; cbn; auto with starts|].
      destruct (transaction _ _ _) as [x db1] eqn:X. injection H as <- <-. eapply Plain; [by eapply check_transacts|].
      cbn. auto with starts.
    + injection H as <- <-. eapply Plain; [by left|]. destruct ok; cbn; auto with starts.
    + destruct (transaction _ _ _) as [x db1] eqn:X. injection H as <- <-. eapply Plain; [by eapply retire_transacts|].
      cbn. auto with starts.
    + injection H as <- <-. eapply Plain; [by left|]. destruct ok; cbn; auto with starts.
    + destruct (transaction _ _ _) as [x db1] eqn:X. injection H as <- <-. eapply Plain; [by eapply retire_transacts|].
      cbn. auto with starts.
    + injection H as <- <-. eapply Plain; [by left|]. destruct ok; cbn; auto with starts.
    + injection H as <- <-. eapply Plain; [by left|]. cbn. auto with starts.
  - destruct (heap o !! k) as [e|]; [|done]. destruct p, out; cbn; try destruct (transaction _ _ _) as [x db1] eqn:X;
      repeat (match goal with |- context [if ?c then _ else _] => destruct c end); try done; intros [= <- <-];
      (eapply Plain; [first [by left|by eapply retire_transacts]|]); cbn; auto with starts.
  - destruct (heap o !! k) as [e|]; [|done]. destruct p as [| | | |[]]; cbn; try destruct (transaction _ _ _) as [x db1] eqn:X;
      repeat (match goal with |- context [if ?c then _ else _] => destruct c end); try done; intros [= <- <-];
      (eapply Plain; [first [by left|by eapply retire_transacts]|]); cbn; auto with starts.
Qed.

Lemma enqueue_no_new (r : Request) (b : option Binding) (o o' : Owner) :
  enqueue to_string r b o = Ok o' -> no_new (tasks o) (tasks o').
Proof.
  unfold enqueue. destruct (encode r); [|done]. cbn. destruct (_ <=? 0); [done|]. destruct (_ || _); [done|].
  destruct (entries o !! id r) as [k|].
  - cbn. destruct (heap o !! k) as [e|]; [|done]. cbn. destruct (encode (request e)); [|done]. cbn.
    destruct (_ || _); [done|]. destruct (pending e); [done|]. intros [= <-]. cbn. auto with starts.
  - destruct (128 <=? _); [done|]. intros [= <-]. cbn. auto with starts.
Qed.

Lemma queue_check_no_new (r : Request) (renew : bool) (o o' : Owner) :
  queue_check to_string r renew o = Ok o' -> no_new (tasks o) (tasks o').
Proof.
  unfold queue_check. destruct (_ <=? 0); [done|]. destruct (_ || _); [done|]. destruct (entries o !! id r) as [k|]; [|done].
  cbn. destruct (heap o !! k) as [e|]; [|done]. cbn. destruct (encode (request e)); [|done]. cbn.
  destruct (encode r); [|done]. cbn. destruct (negb _); [done|]. destruct (_ || _); [done|]. intros [= <-]. cbn.
  auto with starts.
Qed.

Lemma monitor_next_no_new (o o' : Owner) : monitor_next o = Some o' -> no_new (tasks o) (tasks o').
Proof.
  unfold monitor_next. destruct (scanning o) as [[|k l]|]; [intros [= <-]; apply no_new_refl| |done].
  destruct (heap o !! k) as [e|]; [|done]. cbn.
  repeat (match goal with |- context [if ?c then _ else _] => destruct c end); intros [= <-]; cbn; auto with starts.
Qed.

(** The events that change the tasks of the owner alone. *)
Lemma local_no_new (inst : Uuid) (clock : Z) (ev : Event) (db db' : Db) (o o' : Owner) :
  act inst clock ev db o = Some (db', o') -> (forall t oc, ev <> E_run t oc) -> (forall oc, ev <> E_drain_next oc) ->
  db' = db /\ no_new (tasks o) (tasks o').
Proof.
  destruct ev as [r b|r renew|i| |t oc|t ok| | | | |oc| |cl|t dn|]; cbn [AdmissionOwner.act]; intros H R D.
  - destruct (enqueue _ r b o) as [o1|] eqn:A; [|done]. injection H as <- <-. split; [done|]. by eapply enqueue_no_new.
  - destruct (queue_check _ r renew o) as [o1|] eqn:A; [|done]. injection H as <- <-. split; [done|].
    by eapply queue_check_no_new.
  - injection H as <- <-. split; [done|]. unfold stop. destruct (entries o !! i); apply no_new_refl.
  - injection H as <- <-. split; [done|]. unfold close.
    match goal with |- context [foldr _ ?o1 ?l] => destruct (close_entries 0 l o1) as (hp & -> & _) end. apply no_new_refl.
  - by destruct (R t oc).
  - destruct (tasks o !! t) as [[| | |k [] p| |]|]; try done. injection H as <- <-. cbn. auto with starts.
  - destruct (monitor_begin o) as [o1|] eqn:A; [|done]. injection H as <- <-. split; [done|].
    unfold monitor_begin in A. destruct (watching o), (scanning o); try done.
    destruct (ordered (entries o)); injection A as <-; apply no_new_refl.
  - destruct (monitor_next o) as [o1|] eqn:A; [|done]. injection H as <- <-. split; [done|]. by apply monitor_next_no_new.
  - unfold unwatch in H. destruct (_ && _); [|done]. injection H as <- <-. split; [done|apply no_new_refl].
  - unfold drain_begin in H. destruct (_ && _); [|done]. injection H as <- <-. split; [done|apply no_new_refl].
  - by destruct (D oc).
  - unfold drain_end in H. destruct (draining o) as [[]|]; try done. injection H as <- <-. split; [done|apply no_new_refl].
  - unfold sql in H. destruct (_ <=? 0); [done|]. destruct (_ && _); [done|]. injection H as <- <-. cbn. auto with starts.
  - unfold sql_end in H. destruct (tasks o !! t) as [[]|]; try done. injection H as <- <-.
    split; [done|]. destruct dn; cbn; auto with starts.
  - injection H as <- <-. split; [done|apply no_new_refl].
Qed.

Lemma act_transacts (inst : Uuid) (clock : Z) (ev : Event) (db db' : Db) (o o' : Owner) :
  act inst clock ev db o = Some (db', o') ->
  exists e, transacts inst db e db' /\ forall t i, starting (tasks o') t = Some i ->
    starting (tasks o) t = Some i \/ e = Some i /\ exists oc, ev = E_run t oc.
Proof.
  intros H. destruct (match ev with E_run t oc => Some (inl (t, oc)) | E_drain_next oc => Some (inr oc) | _ => None end)
    as [[[t oc]|oc]|] eqn:K.
  - destruct ev; try done. injection K as -> ->. cbn in H. apply run_transacts in H as (e & T & F).
    exists e. split; [done|]. intros t' i S. destruct (F t' i S) as [?|[-> ?]]; eauto.
  - destruct ev; try done. injection K as ->. cbn in H. unfold drain_next in H.
    destruct (draining o) as [[|k l]|]; try done. destruct (heap o !! k) as [e|]; [|done].
    destruct (is_over e); [|injection H as <- <-; exists None; split; [by left|auto]].
    destruct (transaction _ _ _) as [x db1] eqn:X. injection H as <- <-. exists None.
    split; [by eapply retire_transacts|]. destruct (is_ok x); auto.
  - apply local_no_new in H as [-> N]; [|by intros ? ? ->|by intros ? ->]. exists None. split; [by left|]. intros t i S. left. by apply N.
Qed.

Lemma started_inv (inst : Uuid) (clock : Z) (ev : Event) (db db' : Db) (o o' : Owner) :
  act inst clock ev db o = Some (db', o') ->
  started ev o = [] \/ exists t i, started ev o = [i] /\ starting (tasks o) t = Some i /\ starting (tasks o') t = None.
Proof.
  intros H. destruct ev; try (by left). cbn in *. unfold AdmissionOwner.run in H.
  destruct (tasks o !! t) as [[k r b [] [|c|began [y|]|]| | | | |]|] eqn:T; try (by left).
  destruct (held_fresh y) eqn:F; [|by left]. destruct (launches k o); [|by left]. right. exists t, (id r).
  split; [done|]. split; [unfold starting; by rewrite T; cbn; rewrite F|]. injection H as <- <-.
  unfold starting. cbn. by rewrite lookup_insert_eq.
Qed.

(** ** The transactions of others *)

Lemma foldr_release_spares (inst i : Uuid) (now : Z) (l : list Uuid) (db : Db) :
  i ∉ l -> spares inst i db (foldr (fun j => release_row j now) db l).
Proof.
  induction l as [|j l IH]; cbn; [done|]. intros N. apply not_elem_of_cons in N as [N1 N2].
  etrans; [by apply IH|]. apply release_spares. by apply not_eq_sym.
Qed.

Lemma reconcile_benign (inst inst' : Uuid) (rev now : Z) (db db' : Db) :
  reconcile inst' rev true now db = Ok db' -> inst' <> inst -> benign inst db db'.
Proof.
  intros H N. assert (T : step db None db') by by eapply step_reconcile.
  assert (S : forall R, Stable R -> R db db').
  { intros R SR. by destruct (step_stable _ _ _ _ _ _ _ R _ _ _ T) as [[_ ?]|(? & ? & ? & ? & ? & ? & ? & _)]. }
  apply benign_steady; [by apply S, _|by apply S, _|]. intros i h fp L.
  unfold reconcile in H. cbn in H. destruct (instances db !! inst') as [x|]; [|done]. destruct (_ && _); [|done].
  injection H as <-. apply (stable_instances (R:=spares inst i)); [apply dom_insert_subseteq|].
  apply (foldr_stable (spares inst i)); [intros; apply stable_update_intent|].
  apply foldr_release_spares; [|done]. destruct L as (y & Y & [= _ E _] & _). unfold open_rows.
  intros (z & -> & Z)%list_elem_of_fmap. destruct z as [j z]. apply elem_of_map_to_list, map_lookup_filter_Some in Z as [Z [E' _]].
  cbn in *. rewrite Y in Z. injection Z as <-. congruence.
Qed.

Abbreviation others := (others to_string from_str verify ambient_allowed digest permitted busy).
Abbreviation world_step := (world_step to_string from_str verify ambient_allowed digest permitted busy).
Abbreviation worlds := (worlds to_string from_str verify ambient_allowed digest permitted busy).

Lemma others_transact (w : World) (db' : Db) :
  others w db' -> exists e, step (tables w) e db' /\ forall inst o, owners w !! inst = Some o -> benign inst (tables w) db'.
Proof.
  assert (Steady_ : forall e db', step (tables w) e db' -> (forall R, Steady R -> R (tables w) db') ->
    exists e, step (tables w) e db' /\ forall inst o, owners w !! inst = Some o -> benign inst (tables w) db').
  { intros e db1 T S. exists e. split; [done|]. intros inst o _. by apply steady_benign. }
  destruct 1 as [i r allow b now x db' N H|i r renew b now x db' H|i r rel now db' N H|i ex now n db' H|
    i rev now db' N H|i s j hash ctx now n db' H|i s j f now db' H|i s j ctx now db' H|i starts rows now db' H|i now|m].
  - eexists. split; [by eapply step_claim|]. intros inst o O. assert (inst <> i) by congruence.
    apply claim_effect in H as [[_ B]|[_ A]]; [apply B|by eapply admits_benign].
  - eapply Steady_; [by eapply step_check|]. intros R SR. by eapply (check_on_steady _ _ _ _ _ R).
  - eexists. split; [by eapply step_retire|]. intros inst o O. eapply retire_benign; [exact H|]. right. congruence.
  - eapply Steady_; [by eapply step_fence|]. intros R SR. by eapply (fence_steady R).
  - eexists. split; [by eapply step_reconcile|]. intros inst o O. eapply reconcile_benign; [exact H|]. congruence.
  - eapply Steady_; [by eapply step_register|]. intros R SR. by eapply (register_stable R).
  - eapply Steady_; [by eapply step_complete|]. intros R SR. by eapply (complete_steady R).
  - eapply Steady_; [by eapply step_withdraw|]. intros R SR. by eapply (withdraw_steady R).
  - eapply Steady_; [by eapply step_prune|]. intros R SR. by eapply (prune_steady busy R).
  - eapply Steady_; [apply step_evict|]. intros R SR. apply stable_retire_row.
  - eapply Steady_; [apply step_controls|]. intros R SR. apply stable_controls.
Qed.

(** ** Reachable worlds *)

(** The invariant of all owners. *)
Definition sound (w : World) : Prop :=
  known (tables w) /\ forall inst o, owners w !! inst = Some o -> holds inst (tables w) o /\ quiet o.

Lemma create_holds (inst : Uuid) (db : Db) : known db -> instances db !! inst = None -> holds inst db create /\ quiet create.
Proof.
  intros K N. split.
  - split; try (by intros ? ? ?%lookup_empty_Some); try done.
    intros i h fp (x & X & [= _ E _] & _). destruct (K i x X) as [y Y]. congruence.
  - by split; [intros [?|?]|].
Qed.

(** An owner is not touched by what others do. *)
Lemma holds_benign (inst : Uuid) (db db' : Db) (o : Owner) : holds inst db o -> benign inst db db' -> holds inst db' o.
Proof. apply inv_benign. Qed.

Lemma step_sound (w w' : World) (l : list Uuid) : world_step true w l w' -> sound w -> sound w'.
Proof.
  intros S [K W]. destruct S as [inst o ev db' o' O Cur A|inst db' O R|inst|t _|db' Ot].
  - destruct (act_transacts _ _ _ _ _ _ _ A) as (e & T & _). destruct (W inst o O) as [H Q]. split; cbn.
    + destruct T as [[_ ->]|[T _]]; [done|by eapply step_known].
    + intros i x [[<- <-]|[N X]]%lookup_insert_Some.
      * split; [|by eapply act_quiet].
        eapply (act_holds inst (match ev with E_run _ oc | E_drain_next oc => oc | _ => Answered end));
          [exact H|exact Q|by apply Cur|exact A|by intros ? ? ->|by intros ? ->].
      * destruct (W i x X) as [Hx Qx]. split; [|done]. destruct T as [[_ ->]|[_ B]]; [done|].
        eapply holds_benign; [exact Hx|]. by apply B, not_eq_sym.
  - assert (Kn : known db') by (eapply step_known; [by eapply step_instance|done]). split; [done|]. cbn.
    intros i x [[<- <-]|[N X]]%lookup_insert_Some.
    + pose proof R as R'. unfold register_instance in R'. destruct (instances (tables w) !! inst) eqn:E; [done|].
      destruct (create_holds inst (tables w) K E) as [H Q]. split; [|done]. eapply holds_benign; [exact H|].
      apply steady_benign. intros R0 SR. by eapply (register_instance_steady R0).
    + destruct (W i x X) as [Hx Qx]. split; [|done]. eapply holds_benign; [exact Hx|].
      apply steady_benign. intros R0 SR. by eapply (register_instance_steady R0).
  - split; [done|]. cbn. intros i x [_ X]%lookup_delete_Some. auto.
  - by split.
  - destruct (others_transact w db' Ot) as (e & T & B). split; [by eapply step_known|]. cbn. intros i x X.
    destruct (W i x X) as [Hx Qx]. split; [|done]. eapply holds_benign; [exact Hx|by eapply B].
Qed.

Lemma worlds_sound (w w' : World) (l : list Uuid) : worlds true w l w' -> sound w -> sound w'.
Proof. induction 1 as [|w l w1 l1 w2 S _ IH]; [done|]. intros H. by eapply IH, step_sound. Qed.

(** A world without processes, and a ledger with its foreign key. *)
Definition initial (w : World) : Prop := known (tables w) /\ owners w = ∅.

Lemma initial_sound (w : World) : initial w -> sound w.
Proof. intros [K E]. split; [done|]. intros i x. by rewrite E, lookup_empty. Qed.

(** ** Histories of the ledger *)

Lemma world_history (prompt : bool) (w w' : World) (l : list Uuid) :
  world_step prompt w l w' -> tables w' = tables w \/ exists e, step (tables w) e (tables w').
Proof.
  destruct 1 as [inst o ev db' o' O Cur A|inst db' O R|inst|t _|db' Ot]; cbn; [..|by left|by left|].
  - destruct (act_transacts _ _ _ _ _ _ _ A) as (e & [[_ ->]|[T _]] & _); eauto.
  - right. eexists. by eapply step_instance.
  - destruct (others_transact w db' Ot) as (e & T & _). eauto.
Qed.

Lemma worlds_history (prompt : bool) (w w' : World) (l : list Uuid) :
  worlds prompt w l w' -> exists h, history true (tables w) h (tables w').
Proof.
  induction 1 as [|w l w1 l1 w2 S _ [h IH]]; [eexists; apply history_nil|].
  destruct (world_history _ _ _ _ S) as [E|[e T]]; [rewrite <- E; eauto|].
  eexists. eapply history_step; [exact T|exact IH].
Qed.

(** ** The streams that run *)

Lemma running_of_inv (h i : Uuid) (o : Owner) :
  i ∈ running_of h o -> exists t k p e, tasks o !! t = Some (Resource k None p) /\ heap o !! k = Some e /\
    user (actor (request e)) = h /\ id (request e) = i.
Proof.
  unfold running_of. intros ([t x] & X & T)%list_elem_of_bind. apply elem_of_map_to_list in T. cbn in X.
  destruct x as [| | |k [] p| |]; try (by apply not_elem_of_nil in X). destruct (heap o !! k) as [e|] eqn:E; [|by apply not_elem_of_nil in X].
  destruct (Z.eqb_spec (user (actor (request e))) h) as [U|]; [|by apply not_elem_of_nil in X].
  apply list_elem_of_singleton in X as ->. eauto 8.
Qed.

(** A stream that runs has a reservation. *)
Lemma running_is_live (inst h i : Uuid) (db : Db) (o : Owner) :
  holds inst db o -> i ∈ running_of h o -> exists fp, live inst i h fp db.
Proof.
  intros I (t & k & p & e & T & E & <- & <-)%running_of_inv.
  destruct (i_owns _ _ _ _ _ _ _ I t _ e T eq_refl E) as (_ & _ & fp & _ & L). eauto.
Qed.

Lemma running_of_NoDup (inst h : Uuid) (db : Db) (o : Owner) : holds inst db o -> NoDup (running_of h o).
Proof.
  intros I. unfold running_of. apply NoDup_bind; [| |apply NoDup_map_to_list].
  - intros [t1 x1] [t2 x2] i X1 X2. apply elem_of_map_to_list in X1, X2. cbn. intros Y1 Y2.
    destruct x1 as [| | |k1 [] p1| |]; try (by apply not_elem_of_nil in Y1).
    destruct x2 as [| | |k2 [] p2| |]; try (by apply not_elem_of_nil in Y2).
    destruct (heap o !! k1) as [e1|] eqn:E1; [|by apply not_elem_of_nil in Y1].
    destruct (heap o !! k2) as [e2|] eqn:E2; [|by apply not_elem_of_nil in Y2].
    destruct (_ =? h); [|by apply not_elem_of_nil in Y1]. destruct (_ =? h); [|by apply not_elem_of_nil in Y2].
    apply list_elem_of_singleton in Y1, Y2. subst i.
    assert (t1 = t2) as <- by exact (owners_alone _ _ _ _ _ _ _ t1 t2 _ _ e1 e2 I X1 X2 eq_refl eq_refl E1 E2 Y2).
    congruence.
  - intros [t x] _. cbn. destruct x as [| | |k [] p| |]; try apply NoDup_nil_2. destruct (heap o !! k); [|apply NoDup_nil_2].
    destruct (_ =? h); [apply NoDup_singleton|apply NoDup_nil_2].
Qed.

Lemma running_within (h : Uuid) (w : World) : sound w -> Z.of_nat (length (running h w)) <= streams h (tables w).
Proof.
  intros [K W].
  assert (N : NoDup (running h w)).
  { unfold running. apply NoDup_bind; [| |apply NoDup_map_to_list].
    - intros [i1 o1] [i2 o2] i X1 X2 Y1 Y2. apply elem_of_map_to_list in X1, X2. cbn in Y1, Y2.
      destruct (running_is_live i1 h i _ o1 (proj1 (W i1 o1 X1)) Y1) as (f1 & x & R & [= _ E1 _] & _).
      destruct (running_is_live i2 h i _ o2 (proj1 (W i2 o2 X2)) Y2) as (f2 & y & R' & [= _ E2 _] & _). congruence.
    - intros [i o] X. apply elem_of_map_to_list in X. cbn. eapply running_of_NoDup, W, X. }
  unfold streams. apply Nat2Z.inj_le. rewrite <- size_dom, <- (size_list_to_set (C:=gset Uuid) _ N).
  apply subseteq_size. intros i. rewrite elem_of_list_to_set. unfold running.
  intros ([inst o] & Y & X)%list_elem_of_bind. apply elem_of_map_to_list in X. cbn in Y.
  destruct (running_is_live inst h i _ o (proj1 (W inst o X)) Y) as (fp & x & R & [= E _ _] & S).
  apply elem_of_dom. exists x. by apply map_lookup_filter_Some.
Qed.

(** ** Starts *)

(** The identities of [l] were started; those about to be are others, each once. *)
Record once (l : list Uuid) (w : World) : Prop := mk_once {
  once_NoDup : NoDup l;
  once_dead i : i ∈ l -> dead i (tables w);
  once_starting inst o t i : owners w !! inst = Some o -> starting (tasks o) t = Some i -> dead i (tables w) /\ i ∉ l;
  once_alone inst inst' o o' t t' i : owners w !! inst = Some o -> owners w !! inst' = Some o' ->
    starting (tasks o) t = Some i -> starting (tasks o') t' = Some i -> inst = inst' /\ t = t' }.

Lemma transacts_dead (inst : Uuid) (db db' : Db) (e : option Uuid) :
  transacts inst db e db' -> keeps db db' /\ forall i, e = Some i -> ~ dead i db /\ dead i db'.
Proof.
  intros [[-> ->]|[T _]]; [by split; [|done]|]. apply step_dead in T as [K D]. split; [done|]. by intros i ->.
Qed.

Lemma once_same (l : list Uuid) (w w' : World) :
  once l w -> keeps (tables w) (tables w') ->
  (forall inst o, owners w' !! inst = Some o -> owners w !! inst = Some o \/ tasks o = ∅) -> once l w'.
Proof.
  intros [N D S A] K F.
  assert (G : forall inst o t i, owners w' !! inst = Some o -> starting (tasks o) t = Some i -> owners w !! inst = Some o).
  { intros inst o t i O H. destruct (F inst o O) as [?|E]; [done|]. unfold starting in H. by rewrite E, lookup_empty in H. }
  split; [done|auto|..].
  - intros inst o t i O H. destruct (S inst o t i (G inst o t i O H) H). auto.
  - intros inst inst' o o' t t' i O O' H H'. eapply A; [eapply G..| |]; eauto.
Qed.

Lemma once_act (l : list Uuid) (w : World) (inst : Uuid) (o o' : Owner) (ev : Event) (db' : Db) :
  once l w -> owners w !! inst = Some o -> act inst (time w) ev (tables w) o = Some (db', o') ->
  once (l ++ started ev o) (mk_world db' (time w) (<[inst := o']> (owners w))).
Proof.
  intros [N D S A] O H. destruct (act_transacts _ _ _ _ _ _ _ H) as (e & T & F).
  destruct (transacts_dead _ _ _ _ T) as [K E]. pose proof (started_inv _ _ _ _ _ _ _ H) as G.
  assert (Old : forall inst0 o0 t i, <[inst := o']> (owners w) !! inst0 = Some o0 -> starting (tasks o0) t = Some i ->
      (exists o1, owners w !! inst0 = Some o1 /\ starting (tasks o1) t = Some i) \/
      inst0 = inst /\ e = Some i /\ exists oc, ev = E_run t oc).
  { intros inst0 o0 t i [[<- <-]|[_ O0]]%lookup_insert_Some Hs; [|eauto]. destruct (F t i Hs) as [?|[? ?]]; eauto. }
  split; cbn.
  - destruct G as [->|(t & i & -> & Hs & _)]; [by rewrite app_nil_r|]. destruct (S inst o t i O Hs).
    apply NoDup_app. split; [done|]. split; [|apply NoDup_singleton]. by intros j Hj ->%list_elem_of_singleton.
  - intros i [Hi|Hi]%elem_of_app; [auto|]. destruct G as [Q|(t & j & Q & Hs & _)]; rewrite Q in Hi;
      [by apply not_elem_of_nil in Hi|]. apply list_elem_of_singleton in Hi as ->. apply K. by eapply S.
  - intros inst0 o0 t i O0 Hs. destruct (Old inst0 o0 t i O0 Hs) as [(o1 & O1 & H1)|(-> & -> & oc & ->)].
    + destruct (S inst0 o1 t i O1 H1) as [Di Ni]. split; [auto|]. rewrite elem_of_app. intros [?|Hi]; [done|].
      destruct G as [Q|(t' & j & Q & Hs' & Z)]; rewrite Q in Hi; [by apply not_elem_of_nil in Hi|].
      apply list_elem_of_singleton in Hi as ->. destruct (A inst0 inst o1 o t t' j O1 O H1 Hs') as [-> ->].
      rewrite lookup_insert_eq in O0. injection O0 as <-. congruence.
    + destruct (E i eq_refl) as [Nd Dd]. split; [done|]. rewrite elem_of_app. intros [Hi|Hi]; [by apply Nd, D|].
      destruct G as [Q|(t' & j & Q & Hs' & Z)]; rewrite Q in Hi; [by apply not_elem_of_nil in Hi|].
      apply list_elem_of_singleton in Hi as ->. apply Nd. by eapply S.
  - intros i1 i2 o1 o2 t1 t2 i O1 O2 H1 H2.
    destruct (Old i1 o1 t1 i O1 H1) as [(p1 & P1 & Q1)|(-> & E1 & oc1 & V1)],
             (Old i2 o2 t2 i O2 H2) as [(p2 & P2 & Q2)|(-> & E2 & oc2 & V2)].
    + by eapply A.
    + destruct (E i E2) as [Nd _], (S i1 p1 t1 i P1 Q1). done.
    + destruct (E i E1) as [Nd _], (S i2 p2 t2 i P2 Q2). done.
    + split; [done|]. congruence.
Qed.

Lemma worlds_once (prompt : bool) (w w' : World) (l l0 : list Uuid) :
  worlds prompt w l w' -> once l0 w -> NoDup (l0 ++ l).
Proof.
  intros H. revert l0. induction H as [w|w l w1 l1 w2 S _ IH]; intros l0 O; [rewrite app_nil_r; apply O|].
  rewrite app_assoc. apply IH. destruct S as [inst o ev db' o' X _ A|inst db' X R|inst|t _|db' Ot]; try rewrite app_nil_r.
  - by apply once_act.
  - eapply once_same; [exact O|cbn; by eapply (register_instance_steady keeps)|]. cbn.
    intros i x [[_ <-]|[_ Hx]]%lookup_insert_Some; auto.
  - eapply once_same; [exact O|done|]. cbn. intros i x [_ Hx]%lookup_delete_Some. auto.
  - eapply once_same; [exact O|done|]. cbn. auto.
  - destruct (others_transact w db' Ot) as (e & T & _). apply step_dead in T as [K _].
    eapply once_same; [exact O|exact K|]. cbn. auto.
Qed.

(** ** Runs *)

(** The events of owners, one after the other. *)
Fixpoint play (prompt : bool) (evs : list (Uuid * Event)) (w : World) : option (list Uuid * World) :=
  match evs with
  | [] => Some ([], w)
  | (inst, ev) :: evs =>
      let! o := owners w !! inst in
      if prompt && match ev with E_next => negb (current o) | _ => false end then None
      else
        match act inst (time w) ev (tables w) o with
        | Some (db', o') =>
            match play prompt evs (mk_world db' (time w) (<[inst := o']> (owners w))) with
            | Some (l, w') => Some (started ev o ++ l, w')
            | None => None
            end
        | None => None
        end
  end.

Lemma play_worlds (prompt : bool) (evs : list (Uuid * Event)) (w w' : World) (l : list Uuid) :
  play prompt evs w = Some (l, w') -> worlds prompt w l w'.
Proof.
  revert w l. induction evs as [|[inst ev] evs IH]; intros w l; cbn [play]; [intros [= <- <-]; apply worlds_nil|].
  destruct (owners w !! inst) as [o|] eqn:O; [|done].
  destruct (prompt && _) eqn:P; [done|]. destruct (act _ _ _ _ _) as [[db' o']|] eqn:A; [|done].
  destruct (play prompt evs _) as [[l1 w1]|] eqn:E; [|done]. intros [= <- <-].
  eapply worlds_step; [|by apply IH]. eapply world_act; [exact O| |exact A]. intros -> ->. cbn in P.
  by destruct (current o).
Qed.

(** ** Properties *)

(** C8. The streams of a household that run, in all processes, are within its
    ceiling (or the number of reservations it had, if that was above already): as
    long as no entry is removed between the copy of [monitor] and its turn, however
    tasks, answers that are lost, cancellations, processes that end and operators
    interleave. *)
Theorem running_streams_within_ceiling (w w' : World) (l : list Uuid) (h : Uuid) (c : Z) :
  initial w -> worlds true w l w' -> ceiling (tables w) h = Ok (Some c) ->
  Z.of_nat (length (running h w')) <= Z.max c (streams h (tables w)).
Proof.
  intros I H C. pose proof (running_within h w' (worlds_sound _ _ _ H (initial_sound w I))).
  destruct (worlds_history _ _ _ _ H) as [s Hs]. pose proof (history_capacity _ _ _ _ _ _ _ _ _ _ h c Hs C). lia.
Qed.

(** C9. The stream of an identity is started at most once, in all processes and
    whatever interleaves, also where a start is sent again. *)
Theorem streams_start_once (prompt : bool) (w w' : World) (l : list Uuid) :
  owners w = ∅ -> worlds prompt w l w' -> NoDup l.
Proof.
  intros E H. apply (worlds_once _ _ _ _ [] H). split; [apply NoDup_nil_2|by intros i ?%not_elem_of_nil|..].
  - intros inst o t i. by rewrite E, lookup_empty.
  - intros inst inst' o o' t t' i. by rewrite E, lookup_empty.
Qed.


End world.

(** ** A small household *)

Section sample.
Abbreviation allowed := (fun (_ : Db) (_ : Request) (_ : Uuid) (_ : Z) => true).
Abbreviation digest := (fun _ : Policy => Some ([] : Hash)).
Abbreviation permitted := (fun (_ : Db) (_ : Uuid) (_ : Policy) => true).
Abbreviation busy := (fun (_ : Db) (_ : Uuid) => false).
Abbreviation sample_play := (play sample_to_string sample_from_str sample_verify allowed digest permitted).
Abbreviation sample_worlds := (worlds sample_to_string sample_from_str sample_verify allowed digest permitted busy).

Definition sample_world : World := mk_world sample_db (sample_time + 5) ∅.
Definition attached_world : World :=
  match register_instance 8 sample_db with
  | Ok db => mk_world db (sample_time + 5) {[8 := create]}
  | Err _ => sample_world
  end.

(** A start, with the task that claims and the one that runs the stream. *)
Definition start_events (n : Z) (t : nat) : list (Uuid * Event) :=
  [(8, E_start (sample_request n) None); (8, E_run t Answered); (8, E_run t Answered); (8, E_run t Answered)].
Definition started_world : World :=
  match sample_play true (start_events 1 1) attached_world with Some (_, w) => w | None => sample_world end.


(** The second start of an identity whose claim failed at first; [monitor] had
    copied the first entry. *)
Definition stale_events : list (Uuid * Event) :=
  [(8, E_start (sample_request 1) None); (8, E_scan); (8, E_run 1 Answered); (8, E_run 1 (Refused Storage));
   (8, E_run 1 Answered); (8, E_run 1 Answered); (8, E_next); (8, E_run 2 Answered); (8, E_run 2 Answered)] ++
  start_events 1 4 ++
  [(8, E_run 2 Answered); (8, E_run 2 Answered); (8, E_run 2 Answered); (8, E_run 2 Answered)].
Definition stale_world : option (list Uuid * World) := sample_play false (stale_events ++ start_events 2 7) attached_world.

(** The monitor that copied an entry which was then removed releases the reservation
    of the stream started since: two streams run where the ceiling is one. *)
Example stale_monitor_releases :
  ceiling sample_db 10 = Ok (Some 1) /\
  exists w, stale_world = Some ([sample_id 1; sample_id 2], w) /\
    running 10 w = [sample_id 2; sample_id 1] /\ state <$> reservations (tables w) !! sample_id 1 = Some Released.
Proof. split; [vm_compute; reflexivity|]. eexists. split; [vm_compute; reflexivity|]. split; vm_compute; reflexivity. Qed.

Lemma attached_worlds (l : list Uuid) (w : World) : sample_worlds true attached_world l w -> sample_worlds true sample_world l w.
Proof.
  intros H. change l with ([] ++ l). eapply worlds_step; [|exact H].
  apply (world_attach _ _ _ _ _ _ _ true sample_world 8); vm_compute; reflexivity.
Qed.

Lemma sample_initial : initial sample_world.
Proof. split; [|done]. intros i x X. change ((∅ : gmap Uuid Row) !! i = Some x) in X. by rewrite lookup_empty in X. Qed.

Lemma started_worlds : sample_worlds true sample_world [sample_id 1] started_world.
Proof. apply attached_worlds, (play_worlds _ _ _ _ _ _ _ true (start_events 1 1)). vm_compute. reflexivity. Qed.


Lemma running_streams_within_ceiling_witness :
  running 10 started_world = [sample_id 1] /\ Z.of_nat (length (running 10 started_world)) <= Z.max 1 (streams 10 sample_db).
Proof.
  split; [vm_compute; reflexivity|].
  apply (running_streams_within_ceiling _ _ _ _ _ _ _ _ _ _ 10 1 sample_initial started_worlds). vm_compute. reflexivity.
Defined.

Lemma streams_start_once_witness : owners sample_world = ∅ /\ NoDup [sample_id 1].
Proof. split; [done|]. exact (streams_start_once _ _ _ _ _ _ _ true sample_world _ _ eq_refl started_worlds). Defined.



End sample.
End AdmissionWorld.
