(* ===== verification/HouseholdOwner.v ===== *)
(** * Protection of household management

    domains/household_security: proofs that the owner of a household is present, the
    grants they give for five minutes, the lock after five refusals, the hand-offs of
    the operator, and the passkeys of domains/auth/service/passkeys.rs under this
    protection.  Every operation is one transaction on the tables; the rows of an
    account are locked by it, so that transactions of one account do not overlap.
    The clock of a transaction is read once. *)

From stdpp Require Import gmap strings sorting.
From S2P Require Import Prelude Json.

Module HouseholdOwner.

Inductive OwnerError :=
| ContextChanged | Required | InvalidProof | Locked | LastFactor | InvalidRequest
| Database | Unavailable.
#[export] Instance OwnerError_eq_dec : EqDecision OwnerError.
Proof. solve_decision. Defined.

Inductive CredentialTransport := Cookie | Bearer | Legacy.

Record Scope := mk_scope {
  version : Z;
  user : Z;
  session : Z;
  profile : Z;
  transport : CredentialTransport;
  binding : option string;
}.

(** ** The tables *)

Record User := mk_user { role : string; active : bool; password_hash : option string }.
Record Profile := mk_profile { owner_user_id : Z; profile_type : string }.
Record Session := mk_session {
  s_user : Z;
  active_profile : Z;
  selection_required : bool;
  context_revision : Z;
  credential_version : Z;
  token_hash : string;
  s_expires : Z;
}.
Record OwnerState := mk_owner {
  enabled : bool;
  revision : Z;
  password_fingerprint : option string;
  failed_attempts : Z;
  locked_until : option Z;
}.
Record Grant := mk_grant {
  g_version : Z;
  g_user : Z;
  g_profile : Z;
  g_revision : Z;
  g_expires : Z;
}.
Record Handoff := mk_handoff { h_id : Z; h_hash : string; h_expires : Z }.
Record Passkey := mk_passkey {
  k_user : Z;
  credential_id : string;
  public_key : string;
  k_name : string;
  owner_trusted : bool;
  sign_count : Z;
}.
(** The state of a ceremony: of an authentication with its factors and their
    fingerprints, or of a registration *)
Inductive Ceremony :=
| Authentication (state : string) (factors : list (Z * string))
| Registration (state : string).
Record Challenge := mk_challenge {
  c_user : Z;
  c_session : Z;
  c_version : Z;
  c_profile : Z;
  c_revision : Z;
  c_handoff : option Z;
  c_purpose : string;
  c_factor : option Z;
  c_state : Ceremony;
  c_name : option string;
  c_expires : Z;
}.
(** Grants are kept per session, hand-offs and states per account. *)
Record Db := mk_db {
  users : gmap Z User;
  profiles : gmap Z Profile;
  sessions : gmap Z Session;
  capabilities : gmap (Z * string) bool;
  owners : gmap Z OwnerState;
  grants : gmap Z Grant;
  handoffs : gmap Z Handoff;
  challenges : gmap Z Challenge;
  passkeys : gmap Z Passkey;
  audit_log : list (Z * option Z * string);
}.

Definition set_sessions (x : gmap Z Session) (d : Db) : Db :=
  mk_db (users d) (profiles d) x (capabilities d) (owners d) (grants d) (handoffs d) (challenges d)
    (passkeys d) (audit_log d).
Definition set_owners (x : gmap Z OwnerState) (d : Db) : Db :=
  mk_db (users d) (profiles d) (sessions d) (capabilities d) x (grants d) (handoffs d) (challenges d)
    (passkeys d) (audit_log d).
Definition set_grants (x : gmap Z Grant) (d : Db) : Db :=
  mk_db (users d) (profiles d) (sessions d) (capabilities d) (owners d) x (handoffs d) (challenges d)
    (passkeys d) (audit_log d).
Definition set_handoffs (x : gmap Z Handoff) (d : Db) : Db :=
  mk_db (users d) (profiles d) (sessions d) (capabilities d) (owners d) (grants d) x (challenges d)
    (passkeys d) (audit_log d).
Definition set_challenges (x : gmap Z Challenge) (d : Db) : Db :=
  mk_db (users d) (profiles d) (sessions d) (capabilities d) (owners d) (grants d) (handoffs d) x
    (passkeys d) (audit_log d).
Definition set_passkeys (x : gmap Z Passkey) (d : Db) : Db :=
  mk_db (users d) (profiles d) (sessions d) (capabilities d) (owners d) (grants d) (handoffs d)
    (challenges d) x (audit_log d).
Definition set_users (x : gmap Z User) (d : Db) : Db :=
  mk_db x (profiles d) (sessions d) (capabilities d) (owners d) (grants d) (handoffs d) (challenges d)
    (passkeys d) (audit_log d).

(** What an assertion or a registration tells before it is verified, and the result
    of verifying an assertion *)
Record Assertion := mk_assertion { user_handle : option string; client_data : string }.
Record Verified := mk_verified { cred_id : string; user_verified : bool; counter : Z }.

(** Outside the repository: SHA-256 and base64, the verification of password hashes
    (argon2), serde_json and the ceremonies of the webauthn crate. *)
Class Outside := {
  sha256 : string -> string;
  uuid_bytes : Z -> string;
  base64_url : string -> string;
  verify_password_hash : string -> string -> bool;
  parse_json : string -> option Json.Value;
  cred_of : string -> option string;
  assertion_of : string -> option Assertion;
  registration_of : string -> option string;
  start_authentication : list string -> option string;
  finish_authentication : string -> string -> option Verified;
  update_credential : string -> Verified -> option string;
  start_registration : list string -> option string;
  finish_registration : string -> string -> option (string * string);
  counter_of : string -> Z;
}.

(** A row of a table, deleted rows of a user *)
Definition of_user {A} (owner : A -> Z) (u : Z) (m : gmap Z A) : gmap Z A :=
  filter (fun p => owner p.2 <> u) m.

(** The fresh row of an account *)
Definition fresh_owner : OwnerState := mk_owner false 1 None 0 None.

Section Outside.
Context {O : Outside}.

(** operator.rs: [fingerprint], in lower-case hexadecimal *)
Definition hex_digit (n : nat) : ascii := ascii_of_nat (if (n <? 10)%nat then 48 + n else 87 + n).
Fixpoint hex (s : string) : string :=
  match s with
  | EmptyString => EmptyString
  | String c t => let n := nat_of_ascii c in String (hex_digit (n / 16)) (String (hex_digit (n mod 16)) (hex t))
  end.
Definition fingerprint (value : string) : string := hex (sha256 value).

(** ** transactions.rs *)

Definition lock_accounts (l : list Z) (d : Db) : Db :=
  set_owners (fold_left (fun m u => if bool_decide (is_Some (users d !! u)) && negb (bool_decide (is_Some (m !! u)))
                                    then <[u := fresh_owner]> m else m) l (owners d)) d.

Definition begin (u : Z) (d : Db) : result Db OwnerError :=
  if is_some_and (users d !! u) active then Ok (lock_accounts [u] d) else Err InvalidProof.

(** domains/auth/service/session_context.rs: [read] *)
Record SessionContextResponse := mk_context_response {
  r_user : Z;
  r_session : Z;
  r_profile : Z;
  r_credential : Z;
  r_context : Z;
  r_selection : bool;
  r_transport : CredentialTransport;
  r_expires : Z;
  observed_at : Z;
  context_id : string;
}.

Definition context_text (u s p version context : Z) (selection : bool) : string :=
  "duskcue-session-context:1" +:+ uuid_bytes u +:+ uuid_bytes s +:+ uuid_bytes p
  +:+ Str.be_bytes 8 version +:+ Str.be_bytes 8 context +:+ Str.be_bytes 1 (if selection then 1 else 0).

Definition read_context (now : Z) (scope : Scope) (d : Db) : result SessionContextResponse OwnerError :=
  let? s := ok_or (sessions d !! session scope) ContextChanged in
  let? p := ok_or (profiles d !! profile scope) ContextChanged in
  if (s_user s =? user scope) && (active_profile s =? profile scope)
     && (credential_version s =? version scope) && (now <? s_expires s)
     && is_some_and (users d !! user scope) active && (owner_user_id p =? user scope)
  then Ok (mk_context_response (user scope) (session scope) (profile scope) (credential_version s)
             (context_revision s) (selection_required s) (transport scope) (s_expires s) now
             ("sc1." +:+ base64_url (sha256 (context_text (user scope) (session scope) (profile scope)
                           (credential_version s) (context_revision s) (selection_required s)))))
  else Err ContextChanged.

(** context.rs: [check] *)
Definition check_context (now : Z) (scope : Scope) (d : Db) : result unit OwnerError :=
  match binding scope with
  | Some binding =>
      let? context := read_context now scope d in
      if String.eqb (context_id context) ("sc1." +:+ base64_url binding) then Ok tt
      else Err ContextChanged
  | None => Ok tt
  end.

(** [session_scope_conn] *)
Definition session_scope (now : Z) (actor : Scope) (strict : bool) (d : Db) : result unit OwnerError :=
  if negb (is_some_and (profiles d !! profile actor) (fun p =>
             (owner_user_id p =? user actor) && (negb strict || String.eqb (profile_type p) "standard")))
  then Err Required
  else if negb (is_some_and (sessions d !! session actor) (fun s =>
             (s_user s =? user actor) && (active_profile s =? profile actor)
             && (negb strict || negb (selection_required s)) && (now <? s_expires s)
             && (credential_version s =? version actor)))
  then Err InvalidProof
  else check_context now actor d.
Definition scope (now : Z) (actor : Scope) (d : Db) : result unit OwnerError :=
  session_scope now actor true d.

(** [locked_until IS NULL OR locked_until<=clock_timestamp()] *)
Definition unlocked (now : Z) (o : OwnerState) : bool := is_none_or (locked_until o) (fun l => l <=? now).

(** [require_conn] *)
Definition require (now : Z) (actor : Scope) (d : Db) : result unit OwnerError :=
  if is_some_and (grants d !! session actor) (fun g =>
       is_some_and (owners d !! g_user g) (fun o =>
         (g_user g =? user actor) && (g_profile g =? profile actor) && (g_revision g =? revision o)
         && (g_version g =? version actor) && enabled o && (now <? g_expires g) && unlocked now o))
  then Ok tt else Err Required.

(** [authorize] *)
Definition authorize (now : Z) (u : Z) (actor : option Scope) (d : Db) : result bool OwnerError :=
  let? o := ok_or (owners d !! u) Database in
  match actor with
  | Some actor =>
      if negb (user actor =? u) then Err Required
      else
        let? _ := session_scope now actor (enabled o) d in
        let? _ := if enabled o then require now actor d else Ok tt in
        Ok (enabled o)
  | None => if enabled o then Err Required else Ok (enabled o)
  end.

(** [available] *)
Definition available (now : Z) (u : Z) (d : Db) : result Z OwnerError :=
  let? o := ok_or (owners d !! u) Database in
  if is_some_and (locked_until o) (fun l => now <? l) then Err Locked else Ok (revision o).

(** [invalidate] and [audit] *)
Definition bump (o : OwnerState) : OwnerState :=
  mk_owner (enabled o) (revision o + 1) (password_fingerprint o) (failed_attempts o) (locked_until o).
Definition invalidate (u : Z) (d : Db) : Db :=
  set_challenges (of_user c_user u (challenges d))
    (set_grants (of_user g_user u (grants d)) (set_owners (alter bump u (owners d)) d)).
Definition audit (u : Z) (actor : option Z) (event : string) (d : Db) : Db :=
  mk_db (users d) (profiles d) (sessions d) (capabilities d) (owners d) (grants d) (handoffs d)
    (challenges d) (passkeys d) ((u, actor, event) :: audit_log d).

(** [failed]: the attempt is counted, the fifth one locks for fifteen minutes. *)
Definition LOCK : Z := 15 * 60 * 1000000.
Definition count_failure (now : Z) (o : OwnerState) : OwnerState :=
  let n := if is_some_and (locked_until o) (fun l => l <=? now) then 1 else failed_attempts o + 1 in
  mk_owner (enabled o) (revision o) (password_fingerprint o) (Z.min 5 n)
    (if 5 <=? n then Some (now + LOCK) else None).
Definition failed (now : Z) (actor : Scope) (d : Db) : Db :=
  audit (user actor) (Some (user actor)) "proof_refused"
    (set_owners (alter (count_failure now) (user actor) (owners d)) d).

(** How an operation ends: without effect, or counting a refusal on the tables it
    has reached *)
Inductive Exit := Fail (e : OwnerError) | Refuse (d : Db).
Definition or_fail {A} (r : result A OwnerError) : result A Exit :=
  match r with Ok x => Ok x | Err e => Err (Fail e) end.
(** The commit, or the rollback *)
Definition settle {A} (now : Z) (actor : Scope) (d : Db) (r : result (A * Db) Exit)
  : result A OwnerError * Db :=
  match r with
  | Ok (x, d') => (Ok x, d')
  | Err (Fail e) => (Err e, d)
  | Err (Refuse d') => (Err InvalidProof, failed now actor d')
  end.
Definition commit {A} (d : Db) (r : result (A * Db) OwnerError) : result A OwnerError * Db :=
  match r with Ok (x, d') => (Ok x, d') | Err e => (Err e, d) end.

(** ** access.rs *)

Definition allowed (now : Z) (actor : Scope) (capability : string) (d : Db) : result bool OwnerError :=
  let? u := ok_or (users d !! user actor) InvalidProof in
  if negb (active u) then Err InvalidProof
  else
    let? _ := session_scope now actor true d in
    Ok (String.eqb (role u) "owner"
        || unwrap_or (capabilities d !! (user actor, capability)) (String.eqb (role u) "admin")).

(** ** operator.rs *)

Definition validate (now : Z) (u : Z) (token : string) (d : Db) : result Z OwnerError :=
  if negb (Str.len token =? 57) || negb (Str.starts_with "duskcue-owner-" token) then Err InvalidProof
  else
    let? h := ok_or (handoffs d !! u) InvalidProof in
    if String.eqb (h_hash h) (fingerprint token) && (now <? h_expires h) then Ok (h_id h)
    else Err InvalidProof.

(** Deleting a hand-off deletes the challenges that refer to it. *)
Definition delete_handoff (u : Z) (d : Db) : Db :=
  match handoffs d !! u with
  | Some h =>
      set_challenges (filter (fun p => c_handoff p.2 <> Some (h_id h)) (challenges d))
        (set_handoffs (delete u (handoffs d)) d)
  | None => d
  end.
Definition consume (now : Z) (u handoff : Z) (d : Db) : result Db OwnerError :=
  if is_some_and (handoffs d !! u) (fun h => (h_id h =? handoff) && (now <? h_expires h))
  then Ok (delete_handoff u d) else Err InvalidProof.

(** [issue_handoff]; [secret] are the random bytes and [id] the new key. *)
Definition distrust (u : Z) (k : Passkey) : Passkey :=
  if k_user k =? u
  then mk_passkey (k_user k) (credential_id k) (public_key k) (k_name k) false (sign_count k) else k.
Definition clear_password (o : OwnerState) : OwnerState :=
  mk_owner (enabled o) (revision o) None 0 None.
Definition issue_handoff (now : Z) (u : Z) (secret : string) (id : Z) (d : Db)
  : result string OwnerError * Db :=
  let token := "duskcue-owner-" +:+ base64_url secret in
  commit d
    (let? d := begin u d in
     let d := invalidate u d in
     let d := set_passkeys (distrust u <$> passkeys d) d in
     let d := set_owners (alter clear_password u (owners d)) d in
     let d := delete_handoff u d in
     let d := set_handoffs (<[u := mk_handoff id (fingerprint token) (now + 10 * 60 * 1000000)]> (handoffs d)) d in
     Ok (token, audit u None "operator_handoff_issued" d)).

(** ** factors.rs *)

Definition validate_client_context (bytes : string) : result unit OwnerError :=
  if 16384 <? Str.len bytes then Err InvalidProof
  else
    let? data := ok_or (parse_json bytes) InvalidProof in
    match data with
    | Json.Object members =>
        if is_some_b (Json.lookup "topOrigin" members)
           || is_some_and (Json.lookup "crossOrigin" members)
                (fun v => match v with Json.Bool false => false | _ => true end)
        then Err InvalidProof else Ok tt
    | _ => Err InvalidProof
    end.

Definition enable (o : OwnerState) : OwnerState :=
  mk_owner true (revision o) (password_fingerprint o) (failed_attempts o) (locked_until o).
Definition activate (u : Z) (d : Db) : Db :=
  let d := invalidate u d in
  let d := set_owners (alter enable u (owners d)) d in
  audit u (Some u) "owner_factor_designated" d.

Definition password_available (u : Z) (d : Db) : bool :=
  match users d !! u, owners d !! u with
  | Some usr, Some o =>
      is_some_and (password_hash usr) (fun p => bool_decide (password_fingerprint o = Some (fingerprint p)))
  | _, _ => false
  end.

(** The passkeys of a user in the order of their ids *)
Definition key_le (a b : Z * Passkey) : Prop := a.1 <= b.1.
#[export] Instance key_le_dec : RelDecision key_le.
Proof. intros a b. unfold key_le. apply _. Defined.
Definition keys_of (u : Z) (d : Db) : list (Z * Passkey) :=
  merge_sort key_le (filter (fun p => k_user p.2 = u) (map_to_list (passkeys d))).
(** [load] *)
Definition candidates (u : Z) (selected : option Z) (d : Db) : list (Z * Passkey) :=
  take 65 (filter (fun p => Is_true ((Str.len (public_key p.2) <=? 65536)
             && match selected with Some id => p.1 =? id | None => owner_trusted p.2 end)) (keys_of u d)).
Fixpoint each_factor (l : list (Z * Passkey)) : result (list (Z * string * string * string)) OwnerError :=
  match l with
  | [] => Ok []
  | (id, k) :: l =>
      let? cred := ok_or (cred_of (public_key k)) Unavailable in
      let? rest := each_factor l in
      Ok ((id, public_key k, cred, fingerprint (public_key k)) :: rest)
  end.
Definition load (u : Z) (selected : option Z) (d : Db)
  : result (list (Z * string * string * string)) OwnerError :=
  let rows := candidates u selected d in
  if (length rows =? 0)%nat || (64 <? length rows)%nat then Err InvalidProof else each_factor rows.

(** [update] *)
Definition update (u id : Z) (key : string) (r : Verified) (trusted : bool) (d : Db) : result Db OwnerError :=
  let? k := ok_or (passkeys d !! id) InvalidProof in
  if negb (k_user k =? u) then Err InvalidProof
  else if negb (user_verified r)
          || (negb (counter r =? 0) && negb (sign_count k =? 0) && (counter r <=? sign_count k))
  then Err InvalidProof
  else
    let? bytes := ok_or (update_credential key r) Unavailable in
    Ok (set_passkeys (<[id := mk_passkey (k_user k) (credential_id k) bytes (k_name k)
                              (owner_trusted k || trusted) (counter r)]> (passkeys d)) d).

Definition trusted_change (u : Z) (d : Db) : Db :=
  audit u (Some u) "owner_factors_changed" (invalidate u d).

Definition trusted_keys (u : Z) (d : Db) : list (Z * Passkey) :=
  filter (fun p => Is_true (owner_trusted p.2)) (keys_of u d).
Definition ensure_enrollment_capacity (u : Z) (d : Db) : result unit OwnerError :=
  if (64 <=? length (trusted_keys u d))%nat then Err Locked else Ok tt.

(** [allow_delete] *)
Definition others (u id : Z) (d : Db) : list (Z * Passkey) :=
  take 65 (filter (fun p => Is_true (negb (p.1 =? id) && (Str.len (public_key p.2) <=? 65536))) (trusted_keys u d)).
Definition allow_delete (u id : Z) (d : Db) : result bool OwnerError :=
  let? k := ok_or (passkeys d !! id) InvalidProof in
  if negb (k_user k =? u) then Err InvalidProof
  else if owner_trusted k && negb (password_available u d)
          && negb (existsb (fun p => is_some_b (cred_of (public_key p.2))) (others u id d))
  then Err LastFactor else Ok (owner_trusted k).

(** ** grants.rs *)

Record Proven := mk_proven {
  p_context : SessionContextResponse;
  p_token : string;
  p_expires : Z;
  p_session_expires : Z;
}.

Definition MINUTE : Z := 60 * 1000000.
Definition clear_failures (o : OwnerState) : OwnerState :=
  mk_owner (enabled o) (revision o) (password_fingerprint o) 0 None.

(** [rotate] with the new session token *)
Definition rotate (now : Z) (actor : Scope) (token : string) (d : Db) : result (Proven * Db) OwnerError :=
  let? _ := scope now actor d in
  let? s := ok_or (sessions d !! session actor) Database in
  let? o := ok_or (owners d !! user actor) Database in
  if i64_max <=? credential_version s then Err Database
  else
    let d := set_challenges (of_user c_session (session actor) (challenges d)) d in
    let s := mk_session (s_user s) (active_profile s) (selection_required s) (context_revision s)
               (credential_version s + 1) (fingerprint token) (s_expires s) in
    let d := set_sessions (<[session actor := s]> (sessions d)) d in
    let expires := Z.min (now + 5 * MINUTE) (s_expires s) in
    let d := set_grants (<[session actor := mk_grant (credential_version s) (user actor) (profile actor)
                                              (revision o) expires]> (grants d)) d in
    let d := set_owners (alter clear_failures (user actor) (owners d)) d in
    let d := audit (user actor) (Some (user actor)) "owner_proof_verified" d in
    let? version := ok_or (if version actor <? i64_max then Some (version actor + 1) else None) Unavailable in
    let? context := read_context now (mk_scope version (user actor) (session actor) (profile actor)
                                        (transport actor) None) d in
    Ok (mk_proven context token expires (s_expires s), d).

(** ** service.rs *)

(** [password]; [slot] says whether a slot for the verification is free. *)
Definition trust_password (hash : string) (o : OwnerState) : OwnerState :=
  mk_owner (enabled o) (revision o) (Some (fingerprint hash)) (failed_attempts o) (locked_until o).

Definition password_body (now : Z) (actor : Scope) (password : string) (handoff : option string)
    (slot : bool) (token : string) (d : Db) : result (Proven * Db) Exit :=
  if Str.is_empty password || (1024 <? Str.len password) || is_some_and handoff (fun v => 128 <? Str.len v)
  then Err (Fail InvalidRequest)
  else
    let? d := or_fail (begin (user actor) d) in
    let? _ := or_fail (scope now actor d) in
    let? _ := or_fail (available now (user actor) d) in
    let? handoff :=
      match handoff with
      | Some token =>
          match validate now (user actor) token d with
          | Ok id => Ok (Some id)
          | Err InvalidProof => Err (Refuse d)
          | Err e => Err (Fail e)
          end
      | None => Ok None
      end in
    if negb (is_some_b handoff) && negb (password_available (user actor) d) then Err (Refuse d)
    else
      let? u := ok_or (users d !! user actor) (Fail Database) in
      let? hash := ok_or (password_hash u) (Refuse d) in
      if negb slot then Err (Fail Locked)
      else if negb (verify_password_hash hash password) then Err (Refuse d)
      else
        let? d :=
          match handoff with
          | Some id =>
              let? d := or_fail (consume now (user actor) id d) in
              let d := set_owners (alter (trust_password hash) (user actor) (owners d)) d in
              Ok (activate (user actor) d)
          | None => Ok d
          end in
        or_fail (rotate now actor token d).
Definition password (now : Z) (actor : Scope) (pass : string) (handoff : option string) (slot : bool)
    (token : string) (d : Db) : result Proven OwnerError * Db :=
  settle now actor d (password_body now actor pass handoff slot token d).

(** [lock] *)
Definition lock (now : Z) (actor : Scope) (d : Db) : result unit OwnerError * Db :=
  commit d
    (let? d := begin (user actor) d in
     let? _ := scope now actor d in
     let d := set_grants (filter (fun p => ~ (p.1 = session actor /\ g_user p.2 = user actor)) (grants d)) d in
     let d := set_challenges (filter (fun p => ~ (c_session p.2 = session actor /\ c_user p.2 = user actor))
                                (challenges d)) d in
     Ok (tt, audit (user actor) (Some (user actor)) "management_locked" d)).

(** [status] without the response's other fields: when the grant ends *)
Definition status (now : Z) (actor : Scope) (d : Db)
  : result (bool * option Z * bool * Z * SessionContextResponse) OwnerError :=
  let? d := begin (user actor) d in
  let? _ := scope now actor d in
  let? o := ok_or (owners d !! user actor) Database in
  let expires :=
    let! g := grants d !! session actor in
    let! o := owners d !! g_user g in
    if (g_revision g =? revision o) && (g_version g =? version actor) && (now <? g_expires g) && unlocked now o
    then Some (g_expires g) else None in
  let? context := read_context now actor d in
  Ok (enabled o, expires, password_available (user actor) d,
      Z.of_nat (length (trusted_keys (user actor) d)), context).

(** ** challenges.rs *)

Inductive PasskeyStartRequest :=
| Unlock
| Enroll (handoff : string) (passkey_id : Z)
| Register (handoff name : string).

(** The characters of a UTF-8 string: its bytes that do not continue one *)
Fixpoint char_count (s : string) : Z :=
  match s with
  | EmptyString => 0
  | String c t =>
      let n := nat_of_ascii c in (if (128 <=? n)%nat && (n <? 192)%nat then 0 else 1) + char_count t
  end.

(** [start]; [id] is the key of the new challenge. *)
Definition start_body (now : Z) (actor : Scope) (req : PasskeyStartRequest) (id : Z) (d : Db)
  : result (Z * Db) Exit :=
  let? d := or_fail (begin (user actor) d) in
  let? _ := or_fail (scope now actor d) in
  let? revision := or_fail (available now (user actor) d) in
  let? (purpose, handoff, selected, name) :=
    match req with
    | Unlock => Ok ("unlock"%string, None, None, None)
    | Enroll handoff key => Ok ("enroll"%string, Some handoff, Some key, None)
    | Register handoff name =>
        if Str.is_empty (Str.trim name) || (200 <? char_count name) then Err (Fail InvalidRequest)
        else Ok ("register"%string, Some handoff, None, Some (Str.trim name))
    end in
  let? handoff :=
    match handoff with
    | Some token =>
        match validate now (user actor) token d with
        | Ok id => Ok (Some id)
        | Err InvalidProof => Err (Refuse d)
        | Err e => Err (Fail e)
        end
    | None => Ok None
    end in
  let d := set_challenges (filter (fun p => now < c_expires p.2) (challenges d)) d in
  if (4096 <=? size (challenges d))%nat
     || (8 <=? size (filter (fun p => c_user p.2 = user actor) (challenges d)))%nat
  then Err (Fail Locked)
  else
    let? ceremony :=
      if String.eqb purpose "register" then
        let? _ := or_fail (ensure_enrollment_capacity (user actor) d) in
        let ids := map (fun p => credential_id p.2) (take 64 (keys_of (user actor) d)) in
        let? state := ok_or (start_registration ids) (Fail Unavailable) in
        Ok (Registration state)
      else
        let? values := or_fail (load (user actor) selected d) in
        let? state := ok_or (start_authentication (map (fun v => v.1.1.2) values)) (Fail Unavailable) in
        Ok (Authentication state (map (fun v => (v.1.1.1, v.2)) values)) in
    let c := mk_challenge (user actor) (session actor) (version actor) (profile actor) revision handoff
               purpose selected ceremony name (now + 2 * MINUTE) in
    Ok (id, set_challenges (<[id := c]> (challenges d)) d).
Definition start (now : Z) (actor : Scope) (req : PasskeyStartRequest) (id : Z) (d : Db)
  : result Z OwnerError * Db :=
  settle now actor d (start_body now actor req id d).

(** [complete]; [new] is the key of a passkey that is registered. *)
Definition complete (now : Z) (actor : Scope) (c : Challenge) (credential : string) (slot : bool)
    (new : Z) (token : string) (d : Db) : result (Proven * Db) OwnerError :=
  let unlock := String.eqb (c_purpose c) "unlock" in
  let known := existsb (fun h => bool_decide (c_handoff c = Some (h_id h)) && (now <? h_expires h))
                 (match handoffs d !! user actor with Some h => [h] | None => [] end) in
  if (negb unlock && negb known) || (unlock && is_some_b (c_handoff c)) then Err InvalidProof
  else if negb slot then Err Locked
  else
    let? d :=
      match c_state c with
      | Authentication state bound =>
          if negb (unlock || String.eqb (c_purpose c) "enroll") then Err InvalidProof
          else
            let? assertion := ok_or (assertion_of credential) InvalidProof in
            if is_some_and (user_handle assertion) (fun h => negb (String.eqb h (uuid_bytes (user actor))))
            then Err InvalidProof
            else
              let? _ := validate_client_context (client_data assertion) in
              let? r := ok_or (finish_authentication credential state) InvalidProof in
              let? values := load (user actor) (c_factor c) d in
              let? (id, key, _, fp) :=
                ok_or (List.find (fun v => String.eqb v.1.2 (cred_id r)) values) InvalidProof in
              if negb (existsb (fun b => (b.1 =? id) && String.eqb b.2 fp) bound) then Err InvalidProof
              else update (user actor) id key r (String.eqb (c_purpose c) "enroll") d
      | Registration state =>
          if negb (String.eqb (c_purpose c) "register") then Err InvalidProof
          else
            let? _ := ensure_enrollment_capacity (user actor) d in
            let? data := ok_or (registration_of credential) InvalidProof in
            let? _ := validate_client_context data in
            let? (cred, bytes) := ok_or (finish_registration credential state) InvalidProof in
            let? name := ok_or (c_name c) Unavailable in
            if existsb (fun p => String.eqb (credential_id p.2) cred) (map_to_list (passkeys d))
            then Err InvalidProof
            else Ok (set_passkeys (<[new := mk_passkey (user actor) cred bytes name true 0]> (passkeys d)) d)
      end in
    let? d :=
      match c_handoff c with
      | Some id => let? d := consume now (user actor) id d in Ok (activate (user actor) d)
      | None => Ok d
      end in
    rotate now actor token d.

(** [finish] *)
Definition finish_body (now : Z) (actor : Scope) (challenge : Z) (credential : string) (slot : bool)
    (new : Z) (token : string) (d : Db) : result (Proven * Db) Exit :=
  let? d := or_fail (begin (user actor) d) in
  let? _ := or_fail (scope now actor d) in
  let? revision := or_fail (available now (user actor) d) in
  match challenges d !! challenge with
  | None => Err (Refuse d)
  | Some c =>
      if negb ((c_user c =? user actor) && (c_session c =? session actor) && (c_profile c =? profile actor)
               && (c_version c =? version actor)) then Err (Refuse d)
      else
        let d := set_challenges (delete challenge (challenges d)) d in
        if negb (c_revision c =? revision) || negb (now <? c_expires c) then Err (Refuse d)
        else
          match complete now actor c credential slot new token d with
          | Ok x => Ok x
          | Err InvalidProof => Err (Refuse d)
          | Err e => Err (Fail e)
          end
  end.
Definition finish (now : Z) (actor : Scope) (challenge : Z) (credential : string) (slot : bool)
    (new : Z) (token : string) (d : Db) : result Proven OwnerError * Db :=
  settle now actor d (finish_body now actor challenge credential slot new token d).

(** ** domains/auth/service/passkeys.rs: passkeys of a signed-in user *)

Inductive AuthError :=
| Household (e : OwnerError) | WebauthnChallengeExpired | WebauthnRegistrationFailed | PasskeyNotFound
| AuthDatabase.
Definition household {A} (r : result A OwnerError) : result A AuthError :=
  match r with Ok x => Ok x | Err e => Err (Household e) end.
Definition auth_commit {A} (d : Db) (r : result (A * Db) AuthError) : result A AuthError * Db :=
  match r with Ok (x, d') => (Ok x, d') | Err e => (Err e, d) end.

(** [WebauthnChallenge] of a registration, kept in memory *)
Record WebauthnChallenge := mk_webauthn {
  registration_state : option string;
  w_user : option Z;
  owner_scope : option Scope;
  owner_revision : option Z;
  created_at : Z;
}.

(** [start_passkey_registration] *)
Definition start_passkey_registration (now : Z) (actor : Scope) (d : Db)
  : result WebauthnChallenge AuthError * Db :=
  auth_commit d
    (let u := user actor in
     let? d := household (begin u d) in
     let? enabled := household (authorize now u (Some actor) d) in
     let? _ := if enabled then household (ensure_enrollment_capacity u d) else Ok tt in
     let? o := ok_or (owners d !! u) AuthDatabase in
     let? state := ok_or (start_registration (map (fun p => credential_id p.2) (keys_of u d)))
                     WebauthnRegistrationFailed in
     Ok (mk_webauthn (Some state) (Some u) (Some actor) (Some (revision o)) now, d)).

(** [finish_passkey_registration] with the challenge it has removed; [new] is the key
    of the passkey. *)
Definition finish_passkey_registration (now : Z) (actor : Scope) (challenge : option WebauthnChallenge)
    (credential name : string) (new : Z) (d : Db) : result Z AuthError * Db :=
  auth_commit d
    (let? w := ok_or challenge WebauthnChallengeExpired in
     let? state := ok_or (registration_state w) WebauthnChallengeExpired in
     if 300 * 1000000 <? now - created_at w then Err WebauthnChallengeExpired
     else
       let? u := ok_or (w_user w) WebauthnChallengeExpired in
       if is_none_or (owner_scope w) (fun s =>
            negb (user s =? user actor) || negb (session s =? session actor)
            || negb (profile s =? profile actor) || negb (version s =? version actor))
          || negb (u =? user actor) then Err WebauthnChallengeExpired
       else
         let? d := household (begin u d) in
         let? enabled := household (authorize now u (Some actor) d) in
         let? _ := if enabled then household (ensure_enrollment_capacity u d) else Ok tt in
         let? o := ok_or (owners d !! u) AuthDatabase in
         if negb (bool_decide (owner_revision w = Some (revision o))) then Err WebauthnChallengeExpired
         else
           let? data := ok_or (registration_of credential) WebauthnRegistrationFailed in
           let? _ := if enabled then household (validate_client_context data) else Ok tt in
           let? (cred, bytes) := ok_or (finish_registration credential state) WebauthnRegistrationFailed in
           if existsb (fun p => String.eqb (credential_id p.2) cred) (map_to_list (passkeys d))
           then Err AuthDatabase
           else
             let k := mk_passkey u cred bytes name enabled (counter_of bytes) in
             let d := set_passkeys (<[new := k]> (passkeys d)) d in
             Ok (new, if enabled then trusted_change u d else d)).

(** [delete_passkey]: the challenges that refer to the passkey go with it. *)
Definition delete_passkey (now : Z) (actor : Scope) (id : Z) (d : Db) : result unit AuthError * Db :=
  auth_commit d
    (let u := user actor in
     let? d := household (begin u d) in
     let? enabled := household (authorize now u (Some actor) d) in
     let? _ := if enabled then let? _ := household (allow_delete u id d) in Ok tt else Ok tt in
     if negb (is_some_and (passkeys d !! id) (fun k => k_user k =? u)) then Err PasskeyNotFound
     else
       let d := set_passkeys (delete id (passkeys d)) d in
       let d := set_challenges (filter (fun p => c_factor p.2 <> Some id) (challenges d)) d in
       Ok (tt, if enabled then trusted_change u d else d)).

(** ** The triggers of the migration

    What the rest of the program does to accounts and sessions *)
Definition update_user (u : Z) (new : User) (d : Db) : Db :=
  match users d !! u with
  | None => d
  | Some old =>
      let d' := set_users (<[u := new]> (users d)) d in
      let hash := negb (bool_decide (password_hash old = password_hash new)) in
      if hash || negb (Bool.eqb (active old) (active new)) then
        let forget o := mk_owner (enabled o) (revision o + 1) (if hash then None else password_fingerprint o)
                          (failed_attempts o) (locked_until o) in
        set_challenges (of_user c_user u (challenges d'))
          (set_grants (of_user g_user u (grants d')) (set_owners (alter forget u (owners d')) d'))
      else d'
  end.

(** A session goes on with another profile. *)
Definition switch_profile (s p : Z) (required : bool) (d : Db) : Db :=
  match sessions d !! s with
  | None => d
  | Some old =>
      let other := negb (active_profile old =? p) in
      let changed := other || negb (Bool.eqb (selection_required old) required) in
      let new := mk_session (s_user old) p required (context_revision old + if changed then 1 else 0)
                   (credential_version old) (token_hash old) (s_expires old) in
      let d' := set_sessions (<[s := new]> (sessions d)) d in
      if other then set_challenges (of_user c_session s (challenges d')) (set_grants (delete s (grants d')) d')
      else d'
  end.

(** Sessions are created and deleted, the latter with their grants and challenges. *)
Definition create_session (s : Z) (new : Session) (d : Db) : Db :=
  if bool_decide (is_Some (sessions d !! s)) then d else set_sessions (<[s := new]> (sessions d)) d.
Definition delete_session (s : Z) (d : Db) : Db :=
  set_challenges (of_user c_session s (challenges d))
    (set_grants (delete s (grants d)) (set_sessions (delete s (sessions d)) d)).

End Outside.

End HouseholdOwner.
