(* ===== verification/HouseholdOwnerProofs.v ===== *)
(** * Theorems on the protection of household management

    A grant that passes has a proof behind it that is less than five minutes old, six
    refusals in a row take a quarter of an hour, and the last factor stays. *)

From stdpp Require Import gmap strings.
From S2P Require Import Prelude Json HouseholdOwner.
Import HouseholdOwner.

Module HouseholdOwnerProofs.

Section Outside.
Context {O : Outside}.

(** ** Histories

    What happens to the tables; [Revoke] is a transaction of another part that
    invalidates the management of an account (the assignments of live television). *)
Inductive Op :=
| Password (actor : Scope) (pass : string) (handoff : option string) (slot : bool) (token : string)
| Start (actor : Scope) (req : PasskeyStartRequest) (id : Z)
| Finish (actor : Scope) (challenge : Z) (credential : string) (slot : bool) (new : Z) (token : string)
| Lock (actor : Scope)
| Issue (u : Z) (secret : string) (id : Z)
| StartRegistration (actor : Scope)
| AddPasskey (actor : Scope) (w : option WebauthnChallenge) (credential name : string) (new : Z)
| DeletePasskey (actor : Scope) (id : Z)
| Revoke (u : Z)
| Accounts (l : list Z)
| UpdateUser (u : Z) (new : User)
| SwitchProfile (s p : Z) (required : bool)
| CreateSession (s : Z) (new : Session)
| DeleteSession (s : Z).

Definition perform (now : Z) (op : Op) (d : Db) : Db :=
  match op with
  | Password actor pass handoff slot token => (password now actor pass handoff slot token d).2
  | Start actor req id => (start now actor req id d).2
  | Finish actor c credential slot new token => (finish now actor c credential slot new token d).2
  | Lock actor => (lock now actor d).2
  | Issue u secret id => (issue_handoff now u secret id d).2
  | StartRegistration actor => (start_passkey_registration now actor d).2
  | AddPasskey actor w credential name new => (finish_passkey_registration now actor w credential name new d).2
  | DeletePasskey actor id => (delete_passkey now actor id d).2
  | Revoke u => invalidate u d
  | Accounts l => lock_accounts l d
  | UpdateUser u new => update_user u new d
  | SwitchProfile s p required => switch_profile s p required d
  | CreateSession s new => create_session s new d
  | DeleteSession s => delete_session s d
  end.

Fixpoint exec (d : Db) (h : list (Z * Op)) : Db :=
  match h with [] => d | (now, op) :: h => exec (perform now op d) h end.

Lemma exec_app (d : Db) (h k : list (Z * Op)) : exec d (h ++ k) = exec (exec d h) k.
Proof. revert d. induction h as [|[t op] h IH]; intros d; [done|]. apply IH. Qed.

(** ** Grants *)

(** No grant and no challenge is new. *)
Definition fewer (d d' : Db) : Prop :=
  (forall s g, grants d' !! s = Some g -> grants d !! s = Some g) /\
  (forall k c, challenges d' !! k = Some c -> challenges d !! k = Some c).
#[export] Instance fewer_po : PreOrder fewer.
Proof. split; [done|]. intros a b c [H1 H2] [K1 K2]. split; intros k x X; auto. Qed.

Lemma fewer_same (d d' : Db) : grants d' = grants d -> challenges d' = challenges d -> fewer d d'.
Proof. intros E F. split; intros k x; by rewrite ?E, ?F. Qed.

Lemma lookup_of_user {A} (owner : A -> Z) (u : Z) (m : gmap Z A) (k : Z) (x : A) :
  of_user owner u m !! k = Some x <-> m !! k = Some x /\ owner x <> u.
Proof. unfold of_user. by rewrite map_lookup_filter_Some. Qed.

Lemma fewer_invalidate (u : Z) (d : Db) : fewer d (invalidate u d).
Proof. split; intros k x X; by apply lookup_of_user in X as [X _]. Qed.
Lemma fewer_activate (u : Z) (d : Db) : fewer d (activate u d).
Proof. apply fewer_invalidate. Qed.

Lemma begin_ok (u : Z) (d d' : Db) :
  begin u d = Ok d' -> d' = lock_accounts [u] d /\ exists usr, users d !! u = Some usr /\ active usr = true.
Proof.
  unfold begin. destruct (users d !! u) as [usr|]; cbn [is_some_and]; [|done].
  destruct (active usr) eqn:A; [|done]. intros [= <-]. eauto.
Qed.

Lemma consume_ok (now u id : Z) (d d' : Db) :
  consume now u id d = Ok d' ->
  d' = delete_handoff u d /\ exists h, handoffs d !! u = Some h /\ h_id h = id /\ now < h_expires h.
Proof.
  unfold consume. destruct (handoffs d !! u) as [h|] eqn:H; cbn [is_some_and]; [|done].
  destruct (_ && _) eqn:B; [|done]. intros [= <-]. split; [done|]. exists h. dk_bool. done.
Qed.

Lemma delete_handoff_tables (u : Z) (d : Db) :
  grants (delete_handoff u d) = grants d /\ owners (delete_handoff u d) = owners d /\
  sessions (delete_handoff u d) = sessions d /\ users (delete_handoff u d) = users d /\
  passkeys (delete_handoff u d) = passkeys d.
Proof. unfold delete_handoff. by destruct (handoffs d !! u). Qed.

Lemma fewer_delete_handoff (u : Z) (d : Db) : fewer d (delete_handoff u d).
Proof.
  unfold delete_handoff. destruct (handoffs d !! u); [|done].
  split; [done|]. intros k c C. by apply map_lookup_filter_Some in C as [C _].
Qed.

(** What rotating leaves *)
Definition grant_of (now : Z) (actor : Scope) (s : Session) (o : OwnerState) : Grant :=
  mk_grant (version actor + 1) (user actor) (profile actor) (revision o)
    (Z.min (now + 5 * MINUTE) (s_expires s)).

Lemma scope_ok (now : Z) (actor : Scope) (strict : bool) (d : Db) (x : unit) :
  session_scope now actor strict d = Ok x ->
  exists s, sessions d !! session actor = Some s /\ s_user s = user actor /\
    active_profile s = profile actor /\ now < s_expires s /\ credential_version s = version actor.
Proof.
  unfold session_scope. destruct (negb (is_some_and (profiles d !! _) _)); [done|].
  destruct (sessions d !! session actor) as [s|]; cbn [is_some_and]; [|done].
  destruct (_ && _) eqn:B; [|done]. intros _. exists s. dk_bool. done.
Qed.

Lemma rotate_ok (now : Z) (actor : Scope) (token : string) (d d' : Db) (p : Proven) :
  rotate now actor token d = Ok (p, d') ->
  exists s o, sessions d !! session actor = Some s /\ owners d !! user actor = Some o /\
    grants d' = <[session actor := grant_of now actor s o]> (grants d) /\
    owners d' = alter clear_failures (user actor) (owners d) /\ p_expires p = g_expires (grant_of now actor s o).
Proof.
  unfold rotate. destruct (scope now actor d) as [[]|] eqn:Sc; [|done].
  apply scope_ok in Sc as (s & S & _ & _ & _ & V). rewrite S. cbn [ok_or].
  destruct (owners d !! user actor) as [o|] eqn:Ow; [|done]. cbn [ok_or].
  destruct (i64_max <=? credential_version s); [done|].
  destruct (version actor <? i64_max); [|done]. cbn [ok_or].
  destruct (read_context _ _ _) as [c|]; [|done]. intros [= <- <-].
  exists s, o. split; [done|]. split; [done|]. unfold grant_of. cbn. rewrite V. done.
Qed.

(** ** What a proof shows *)

Definition known_handoff (now u : Z) (d : Db) (holds : Handoff -> Prop) : Prop :=
  exists h, handoffs d !! u = Some h /\ now < h_expires h /\ holds h.

Definition made_for (c : Challenge) (actor : Scope) : Prop :=
  c_user c = user actor /\ c_session c = session actor /\ c_profile c = profile actor /\
  c_version c = version actor.

(** A password: that of the account, and trusted or presented with a hand-off of the
    operator.  A passkey: verified in a ceremony of this session, and trusted or in a
    ceremony that began with a hand-off. *)
Definition shown (now : Z) (op : Op) (d : Db) (actor : Scope) : Prop :=
  match op with
  | Password a pass handoff _ _ =>
      a = actor /\ exists usr hash, users d !! user a = Some usr /\ active usr = true /\
        password_hash usr = Some hash /\ verify_password_hash hash pass = true /\
        match handoff with
        | None => exists o, owners d !! user a = Some o /\ password_fingerprint o = Some (fingerprint hash)
        | Some token => known_handoff now (user a) d (fun h => h_hash h = fingerprint token)
        end
  | Finish a challenge credential _ _ _ =>
      a = actor /\ exists c, challenges d !! challenge = Some c /\ made_for c a /\ now < c_expires c /\
        match c_state c with
        | Authentication state bound =>
            exists r id k, finish_authentication credential state = Some r /\ user_verified r = true /\
              passkeys d !! id = Some k /\ k_user k = user a /\ cred_of (public_key k) = Some (cred_id r) /\
              (id, fingerprint (public_key k)) ∈ bound /\
              (owner_trusted k = true \/ known_handoff now (user a) d (fun h => c_handoff c = Some (h_id h)))
        | Registration state =>
            is_Some (finish_registration credential state) /\
            known_handoff now (user a) d (fun h => c_handoff c = Some (h_id h))
        end
  | _ => False
  end.

Lemma lock_accounts_owners (l : list Z) (d : Db) (u : Z) (o : OwnerState) :
  owners (lock_accounts l d) !! u = Some o -> owners d !! u = Some o \/ (o = fresh_owner /\ owners d !! u = None).
Proof.
  unfold lock_accounts. cbn [owners set_owners].
  assert (G : forall m : gmap Z OwnerState, fold_left (fun m v => if bool_decide (is_Some (users d !! v)) && negb (bool_decide (is_Some (m !! v)))
      then <[v := fresh_owner]> m else m) l m !! u = Some o -> m !! u = Some o \/ (o = fresh_owner /\ m !! u = None)).
  { induction l as [|v l IH]; intros m; cbn [fold_left]; [auto|]. intros H. apply IH in H.
    destruct (bool_decide (is_Some (users d !! v)) && negb (bool_decide (is_Some (m !! v)))) eqn:B; [|exact H].
    apply andb_true_iff in B as [_ B]. apply negb_true_iff, bool_decide_eq_false, eq_None_not_Some in B.
    destruct (decide (v = u)) as [->|N].
    - rewrite lookup_insert_eq in H. destruct H as [[= <-]|[_ ?]]; [by right|done].
    - by rewrite lookup_insert_ne in H by done. }
  apply G.
Qed.

Lemma lock_accounts_present (l : list Z) (d : Db) (u : Z) (o : OwnerState) :
  owners d !! u = Some o -> owners (lock_accounts l d) !! u = Some o.
Proof.
  unfold lock_accounts. cbn [owners set_owners]. generalize (owners d).
  induction l as [|v l IH]; intros m H; cbn [fold_left]; [done|]. apply IH.
  destruct (_ && _) eqn:B; [|done]. apply andb_true_iff in B as [_ B].
  apply negb_true_iff, bool_decide_eq_false, eq_None_not_Some in B.
  rewrite lookup_insert_ne; [done|congruence].
Qed.

Lemma validate_ok (now u id : Z) (token : string) (d : Db) :
  validate now u token d = Ok id ->
  known_handoff now u d (fun h => h_hash h = fingerprint token /\ h_id h = id).
Proof.
  unfold validate. destruct (_ || _); [done|]. destruct (handoffs d !! u) as [h|] eqn:H; [|done]. cbn [ok_or].
  destruct (_ && _) eqn:B; [|done]. intros [= <-]. apply andb_true_iff in B as [B1%String.eqb_eq B2].
  exists h. dk_bool. done.
Qed.

Lemma password_available_ok (u : Z) (d : Db) (usr : User) (hash : string) :
  password_available u d = true -> users d !! u = Some usr -> password_hash usr = Some hash ->
  exists o, owners d !! u = Some o /\ password_fingerprint o = Some (fingerprint hash).
Proof.
  unfold password_available. intros H U P. rewrite U, P in H. destruct (owners d !! u) as [o|]; [|done].
  cbn [is_some_and] in H. apply bool_decide_eq_true in H. eauto.
Qed.

(** What counts refusals stays as it is. *)
Definition lockout (o : OwnerState) : Z * option Z := (failed_attempts o, locked_until o).
Definition keeps (u : Z) (d d' : Db) : Prop :=
  forall o, owners d !! u = Some o -> exists o', owners d' !! u = Some o' /\ lockout o' = lockout o.
#[export] Instance keeps_po u : PreOrder (keeps u).
Proof.
  split; [intros d o Ho; by exists o|]. intros a b c H K o Ho. destruct (H o Ho) as (o1 & H1 & E1).
  destruct (K o1 H1) as (o2 & H2 & E2). exists o2. split; [done|congruence].
Qed.

Lemma keeps_same (u : Z) (d d' : Db) : owners d' = owners d -> keeps u d d'.
Proof. intros E o Ho. exists o. by rewrite E. Qed.
Lemma keeps_lock (u : Z) (l : list Z) (d : Db) : keeps u d (lock_accounts l d).
Proof. intros o Ho. exists o. by rewrite (lock_accounts_present _ _ _ _ Ho). Qed.
Lemma keeps_alter (u v : Z) (f : OwnerState -> OwnerState) (d d' : Db) :
  (forall o, lockout (f o) = lockout o) -> owners d' = alter f v (owners d) -> keeps u d d'.
Proof.
  intros F E o Ho. rewrite E. destruct (decide (v = u)) as [->|N].
  - exists (f o). by rewrite lookup_alter_eq, Ho.
  - exists o. by rewrite lookup_alter_ne.
Qed.
Lemma keeps_other (u v : Z) (f : OwnerState -> OwnerState) (d d' : Db) :
  v <> u -> owners d' = alter f v (owners d) -> keeps u d d'.
Proof. intros N E o Ho. exists o. by rewrite E, lookup_alter_ne. Qed.
Lemma keeps_invalidate (u v : Z) (d : Db) : keeps u d (invalidate v d).
Proof. by apply (keeps_alter u v bump). Qed.

Lemma keeps_consumed (u v : Z) (d : Db) : keeps u d (delete_handoff v d).
Proof. apply keeps_same. apply delete_handoff_tables. Qed.
Lemma keeps_activate (u v : Z) (d : Db) : keeps u d (activate v d).
Proof. transitivity (invalidate v d); [apply keeps_invalidate|]. by apply (keeps_alter u v enable). Qed.

(** The tables a proof rotates in: no grant is new there. *)
Definition rotates (now : Z) (actor : Scope) (token : string) (d d' : Db) (p : Proven) : Prop :=
  exists d1, fewer d d1 /\ (forall u, keeps u d d1) /\ rotate now actor token d1 = Ok (p, d').

#[local] Opaque activate rotate consume validate.
Lemma password_body_ok (now : Z) (actor : Scope) (pass : string) (handoff : option string) (slot : bool)
    (token : string) (d d' : Db) (p : Proven) :
  password_body now actor pass handoff slot token d = Ok (p, d') ->
  shown now (Password actor pass handoff slot token) d actor /\ rotates now actor token d d' p.
Proof.
  unfold password_body. destruct (_ || _ || _); [done|].
  destruct (begin (user actor) d) as [d1|] eqn:B; [|done]. cbn [or_fail].
  apply begin_ok in B as [-> (usr & U & A)]. set (d1 := lock_accounts [user actor] d).
  assert (U1 : users d1 !! user actor = Some usr) by done.
  destruct (scope now actor d1); [|done]. cbn [or_fail].
  destruct (available now (user actor) d1); [|done]. cbn [or_fail]. intros H.
  assert (V : forall id, match handoff with
      | Some t => match validate now (user actor) t d1 with
                  | Ok id => Ok (Some id) | Err InvalidProof => Err (Refuse d1) | Err e => Err (Fail e) end
      | None => Ok None end = Ok id ->
      match handoff, id with
      | Some t, Some i => known_handoff now (user actor) d (fun h => h_hash h = fingerprint t)
      | None, None => True
      | _, _ => False
      end).
  { intros id. destruct handoff as [t|]; [|by intros [= <-]].
    destruct (validate now (user actor) t d1) as [i|e] eqn:V; [|by destruct e].
    intros [= <-]. apply validate_ok in V as (h & Hh & Ex & Fp & _). by exists h. }
  destruct (match handoff with Some _ => _ | None => _ end) as [id|] eqn:Hid; [|done].
  specialize (V id eq_refl).
  destruct (negb (is_some_b id) && negb (password_available (user actor) d1)) eqn:Av; [done|].
  rewrite U1 in H. cbn [ok_or] in H. destruct (password_hash usr) as [hash|] eqn:Ph; [|done]. cbn [ok_or] in H.
  destruct slot; [|done]. cbn [negb] in H.
  destruct (verify_password_hash hash pass) eqn:Vp; [|done]. cbn [negb] in H. split.
  - split; [done|]. exists usr, hash. do 4 (split; [done|]).
    destruct handoff as [t|], id as [i|]; try done. cbn [is_some_b negb andb] in Av.
    apply negb_false_iff in Av. destruct (password_available_ok _ _ _ _ Av U1 Ph) as (o & Oo & Fp).
    apply lock_accounts_owners in Oo as [Oo|[-> _]]; [eauto|done].
  - clear Hid V Av. destruct id as [i|].
    + destruct (consume now (user actor) i d1) as [d2|] eqn:Cs; [|done]. cbn [or_fail] in H.
      apply consume_ok in Cs as [-> _].
      destruct (rotate now actor token _) as [[p' d3]|] eqn:R; [|done]. cbn [or_fail] in H.
      injection H as <- <-. eexists. split; [|split; [|exact R]].
      * etransitivity; [|apply fewer_activate]. transitivity d1; [by apply fewer_same|].
        etransitivity; [apply (fewer_delete_handoff (user actor))|by apply fewer_same].
      * intros u. etransitivity; [|apply keeps_activate]. transitivity d1; [apply keeps_lock|].
        etransitivity; [apply (keeps_consumed u (user actor))|].
        by apply (keeps_alter u (user actor) (trust_password hash)).
    + destruct (rotate now actor token d1) as [[p' d3]|] eqn:R; [|done]. cbn [or_fail] in H.
      injection H as <- <-. exists d1. split; [by apply fewer_same|]. split; [intros u; apply keeps_lock|done].
Qed.
#[local] Transparent activate rotate consume validate.

(** Challenges to unlock ask for trusted passkeys. *)
Definition sound (d : Db) : Prop :=
  forall k c, challenges d !! k = Some c -> c_purpose c = "unlock"%string -> c_factor c = None.

Lemma in_keys_of (u id : Z) (k : Passkey) (d : Db) :
  (id, k) ∈ keys_of u d -> passkeys d !! id = Some k /\ k_user k = u.
Proof.
  unfold keys_of. rewrite sorting.merge_sort_Permutation, list_elem_of_filter, elem_of_map_to_list. cbn. tauto.
Qed.

Lemma each_factor_in (rows : list (Z * Passkey)) (l : list (Z * string * string * string))
    (v : Z * string * string * string) :
  each_factor rows = Ok l -> v ∈ l ->
  exists id k, (id, k) ∈ rows /\ v.1.1.1 = id /\ v.1.1.2 = public_key k /\
               cred_of (public_key k) = Some v.1.2 /\ v.2 = fingerprint (public_key k).
Proof.
  revert l. induction rows as [|[id k] rows IH]; intros l; cbn [each_factor].
  - intros [= <-] H. by apply elem_of_nil in H.
  - destruct (cred_of (public_key k)) as [cred|] eqn:C; [|done]. cbn [ok_or].
    destruct (each_factor rows) as [rest|] eqn:Rest; [|done]. intros <-%ok_inj. intros [->|H]%elem_of_cons.
    + exists id, k. split; [left|]. done.
    + destruct (IH _ eq_refl H) as (i & x & I & ?). exists i, x. split; [by right|done].
Qed.

Lemma load_ok (u : Z) (selected : option Z) (d : Db) (l : list (Z * string * string * string))
    (v : Z * string * string * string) :
  load u selected d = Ok l -> v ∈ l ->
  exists k, passkeys d !! v.1.1.1 = Some k /\ k_user k = u /\ v.1.1.2 = public_key k /\
    cred_of (public_key k) = Some v.1.2 /\ v.2 = fingerprint (public_key k) /\
    (selected = None -> owner_trusted k = true).
Proof.
  unfold load. destruct (_ || _); [done|]. intros L V.
  destruct (each_factor_in _ _ _ L V) as (id & k & I & <- & ? & ? & ?).
  unfold candidates in I.
  assert (I' : (v.1.1.1, k) ∈ filter (fun p => Is_true ((Str.len (public_key p.2) <=? 65536)
      && match selected with Some id => p.1 =? id | None => owner_trusted p.2 end)) (keys_of u d)).
  { eapply elem_of_submseteq; [exact I|]. apply sublist_submseteq, sublist_take. }
  apply list_elem_of_filter in I' as [T [P U]%in_keys_of]. cbn [fst snd] in T.
  apply Is_true_true, andb_true_iff in T as [_ T].
  exists k. repeat (split; [done|]). intros ->. exact T.
Qed.

Lemma update_user_ok (u id : Z) (key : string) (r : Verified) (trusted : bool) (d d' : Db) :
  update u id key r trusted d = Ok d' ->
  user_verified r = true /\ grants d' = grants d /\ challenges d' = challenges d /\ owners d' = owners d.
Proof.
  unfold update. destruct (passkeys d !! id) as [k|]; [|done]. cbn [ok_or].
  destruct (negb (k_user k =? u)); [done|]. destruct (_ || _) eqn:B; [done|].
  destruct (update_credential key r); [|done]. cbn [ok_or]. intros <-%ok_inj.
  apply orb_false_iff in B as [B _]. by apply negb_false_iff in B.
Qed.

(** Knowing the hand-off of a challenge *)
Lemma known_ok (now u : Z) (c : Challenge) (d : Db) :
  existsb (fun h => bool_decide (c_handoff c = Some (h_id h)) && (now <? h_expires h))
    (match handoffs d !! u with Some h => [h] | None => [] end) = true ->
  known_handoff now u d (fun h => c_handoff c = Some (h_id h)).
Proof.
  unfold known_handoff. destruct (handoffs d !! u) as [h|]; cbn [existsb]; [|done].
  rewrite orb_false_r. intros [B1%bool_decide_eq_true B2]%andb_true_iff. exists h. dk_bool. done.
Qed.

(** The factor of a ceremony *)
Definition factor_shown (now : Z) (actor : Scope) (c : Challenge) (credential : string) (d : Db) : Prop :=
  match c_state c with
  | Authentication state bound =>
      exists r id k, finish_authentication credential state = Some r /\ user_verified r = true /\
        passkeys d !! id = Some k /\ k_user k = user actor /\ cred_of (public_key k) = Some (cred_id r) /\
        (id, fingerprint (public_key k)) ∈ bound /\
        (owner_trusted k = true \/ known_handoff now (user actor) d (fun h => c_handoff c = Some (h_id h)))
  | Registration state =>
      is_Some (finish_registration credential state) /\
      known_handoff now (user actor) d (fun h => c_handoff c = Some (h_id h))
  end.

Lemma complete_ok (now : Z) (actor : Scope) (c : Challenge) (credential : string) (slot : bool) (new : Z)
    (token : string) (d d' : Db) (p : Proven) :
  (c_purpose c = "unlock"%string -> c_factor c = None) ->
  complete now actor c credential slot new token d = Ok (p, d') ->
  factor_shown now actor c credential d /\ rotates now actor token d d' p.
Proof.
  intros Wf. unfold complete. set (known := existsb _ _).
  destruct (negb (String.eqb (c_purpose c) "unlock") && negb known || _) eqn:B; [done|].
  apply orb_false_iff in B as [B _]. destruct slot; [|done]. cbn [negb]. intros H.
  assert (K : String.eqb (c_purpose c) "unlock" = true \/
              known_handoff now (user actor) d (fun h => c_handoff c = Some (h_id h))).
  { destruct (String.eqb (c_purpose c) "unlock"); [by left|]. cbn in B. apply negb_false_iff in B.
    right. by apply known_ok. }
  clear B. destruct (match c_state c with Authentication _ _ => _ | Registration _ => _ end) as [d1|] eqn:F; [|done].
  assert (X : factor_shown now actor c credential d /\ fewer d d1 /\ owners d1 = owners d).
  { unfold factor_shown. destruct (c_state c) as [state bound|state].
    - destruct (negb (_ || _)); [done|]. destruct (assertion_of credential) as [assertion|]; [|done]. cbn [ok_or] in F.
      destruct (is_some_and _ _); [done|]. destruct (validate_client_context _); [|done].
      destruct (finish_authentication credential state) as [r|] eqn:Fa; [|done]. cbn [ok_or] in F.
      destruct (load (user actor) (c_factor c) d) as [values|] eqn:L; [|done].
      destruct (List.find _ values) as [[[[id key] cr] fp]|] eqn:Fd; [|done]. cbn [ok_or] in F.
      apply find_some in Fd as [In Cr]. apply list_elem_of_In in In. cbn [fst snd] in Cr.
      destruct (negb (existsb _ bound)) eqn:Bd; [done|].
      destruct (load_ok _ _ _ _ _ L In) as (k & P & U & _ & Cd & Fp & Tr). cbn [fst snd] in *.
      apply update_user_ok in F as (Uv & G1 & G2 & G3). split; [|split; [by apply fewer_same|done]].
      apply String.eqb_eq in Cr. apply negb_false_iff, existsb_exists in Bd as ([i f] & Ib & E).
      apply andb_true_iff in E as [E1%Z.eqb_eq E2%String.eqb_eq]. cbn [fst snd] in E1, E2.
      exists r, id, k. subst. repeat (split; [done|]). split; [by apply list_elem_of_In|].
      destruct K as [K|K]; [|by right]. left. apply Tr, Wf. by apply String.eqb_eq.
    - destruct (String.eqb (c_purpose c) "register") eqn:Rg; [|done]. cbn [negb] in F.
      destruct (ensure_enrollment_capacity _ _); [|done].
      destruct (registration_of credential); [|done]. cbn [ok_or] in F.
      destruct (validate_client_context _); [|done].
      destruct (finish_registration credential state) as [[cr bytes]|]; [|done]. cbn [ok_or] in F.
      destruct (c_name c); [|done]. cbn [ok_or] in F.
      destruct (existsb _ (map_to_list (passkeys d))); [done|].
      apply ok_inj in F as <-. split; [|split; [by apply fewer_same|done]]. split; [by eexists|].
      destruct K as [K|K]; [|done]. apply String.eqb_eq in K, Rg. congruence. }
  destruct X as (X & G & Ow). split; [exact X|]. clear F K.
  destruct (c_handoff c) as [id|].
  - destruct (consume now (user actor) id d1) as [d2|] eqn:Cs; [|done].
    apply consume_ok in Cs as [-> _]. eexists. split; [|split; [|exact H]].
    + etransitivity; [|apply fewer_activate]. etransitivity; [exact G|apply fewer_delete_handoff].
    + intros u. etransitivity; [|apply keeps_activate]. transitivity d1; [by apply keeps_same|apply keeps_consumed].
  - exists d1. split; [exact G|]. split; [intros u; by apply keeps_same|exact H].
Qed.

Lemma finish_body_ok (now : Z) (actor : Scope) (challenge : Z) (credential : string) (slot : bool) (new : Z)
    (token : string) (d d' : Db) (p : Proven) :
  sound d -> finish_body now actor challenge credential slot new token d = Ok (p, d') ->
  shown now (Finish actor challenge credential slot new token) d actor /\ rotates now actor token d d' p.
Proof.
  intros Wf. unfold finish_body. destruct (begin (user actor) d) as [d1|] eqn:B; [|done]. cbn [or_fail].
  apply begin_ok in B as [-> _]. set (d1 := lock_accounts [user actor] d).
  destruct (scope now actor d1); [|done]. cbn [or_fail].
  destruct (available now (user actor) d1) as [rev|]; [|done]. cbn [or_fail].
  change (challenges d1) with (challenges d). destruct (challenges d !! challenge) as [c|] eqn:Ch; [|done].
  destruct (negb (_ && _ && _ && _)) eqn:M; [done|].
  destruct (negb (c_revision c =? rev) || negb (now <? c_expires c)) eqn:Ex; [done|].
  set (d2 := set_challenges _ _). intros H.
  destruct (complete now actor c credential slot new token d2) as [[p' d3]|e] eqn:Cm; [|by destruct e].
  injection H as <- <-. apply complete_ok in Cm as [F R]; [|by apply (Wf challenge)]. split.
  - split; [done|]. exists c. split; [done|]. split; [unfold made_for; dk_bool; done|].
    split; [dk_bool; done|]. exact F.
  - destruct R as (d4 & Fw & Kp & R). exists d4. split; [|split; [|done]].
    2: { intros u. etransitivity; [|apply Kp]. apply (keeps_lock u [user actor]). }
    etransitivity; [|exact Fw].
    split; [done|]. intros k x X. unfold d2 in X. cbn [challenges set_challenges] in X.
    by apply lookup_delete_Some in X as [_ X].
Qed.

(** ** Refusals leave the tables alone, apart from the count. *)

(** The tables of a refusal: the account is not locked, and a challenge may be gone. *)
Definition refused (now : Z) (actor : Scope) (d d' : Db) : Prop :=
  grants d' = grants d /\ owners d' = owners (lock_accounts [user actor] d) /\ challenges d' ⊆ challenges d /\
  exists r, available now (user actor) (lock_accounts [user actor] d) = Ok r.

Lemma refused_lock (now : Z) (actor : Scope) (d : Db) (r : Z) :
  available now (user actor) (lock_accounts [user actor] d) = Ok r ->
  refused now actor d (lock_accounts [user actor] d).
Proof. intros A. repeat split; [done|]. by exists r. Qed.

Lemma handoff_refuse (now u : Z) (handoff : option string) (d d' : Db) :
  match handoff with
  | Some t => match validate now u t d with
              | Ok id => Ok (Some id) | Err InvalidProof => Err (Refuse d) | Err e => Err (Fail e) end
  | None => Ok None
  end = Err (Refuse d') -> d' = d.
Proof. destruct handoff as [t|]; [|done]. destruct (validate now u t d) as [|e]; [done|]. destruct e; by intros [=]. Qed.

#[local] Opaque activate rotate consume validate.
Lemma password_refuse (now : Z) (actor : Scope) (pass : string) (handoff : option string) (slot : bool)
    (token : string) (d d' : Db) :
  password_body now actor pass handoff slot token d = Err (Refuse d') -> refused now actor d d'.
Proof.
  unfold password_body. destruct (_ || _ || _); [done|].
  destruct (begin (user actor) d) as [d1|] eqn:B; [|done]. cbn [or_fail]. apply begin_ok in B as [-> (usr & U & _)].
  destruct (scope now actor _); [|done]. cbn [or_fail].
  destruct (available now (user actor) _) as [r|] eqn:A; [|done]. cbn [or_fail]. intros H.
  assert (E : d' = lock_accounts [user actor] d); [|rewrite E; by apply (refused_lock now actor d r)].
  destruct (match handoff with Some _ => _ | None => _ end) as [id|[e|x]] eqn:Hd; [|done|].
  2: { apply handoff_refuse in Hd as ->. by injection H as <-. }
  destruct (negb _ && negb _); [by injection H as <-|].
  destruct (users (lock_accounts _ d) !! _) as [u|]; [|done]. cbn [ok_or] in H.
  destruct (password_hash u) as [hash|]; [|by injection H as <-]. cbn [ok_or] in H.
  destruct slot; [|done]. cbn [negb] in H. destruct (negb (verify_password_hash hash pass)); [by injection H as <-|].
  destruct id as [i|].
  - destruct (consume now (user actor) i _) as [d2|]; [|done]. cbn [or_fail] in H.
    by destruct (rotate _ _ _ _).
  - by destruct (rotate _ _ _ _).
Qed.
#[local] Transparent activate rotate consume validate.

Lemma start_refuse (now : Z) (actor : Scope) (req : PasskeyStartRequest) (id : Z) (d d' : Db) :
  start_body now actor req id d = Err (Refuse d') -> refused now actor d d'.
Proof.
  unfold start_body. destruct (begin (user actor) d) as [d1|] eqn:B; [|done]. cbn [or_fail].
  apply begin_ok in B as [-> _]. destruct (scope now actor _); [|done]. cbn [or_fail].
  destruct (available now (user actor) _) as [r|] eqn:A; [|done]. cbn [or_fail]. intros H.
  assert (E : d' = lock_accounts [user actor] d); [|rewrite E; by apply (refused_lock now actor d r)].
  destruct (match req with Unlock => _ | _ => _ end) as [[[[purpose handoff] selected] name]|e] eqn:Rq.
  2: { injection H as ->. destruct req; try done. by destruct (_ || _). }
  destruct (match handoff with Some _ => _ | None => _ end) as [hid|[e|x]] eqn:Hd; [|done|].
  2: { apply handoff_refuse in Hd as ->. by injection H as <-. }
  destruct (_ || _); [done|]. destruct (String.eqb purpose "register").
  - destruct (ensure_enrollment_capacity _ _); [|done]. cbn [or_fail] in H. by destruct (start_registration _).
  - destruct (load _ _ _); [|done]. cbn [or_fail] in H. by destruct (start_authentication _).
Qed.

Lemma finish_refuse (now : Z) (actor : Scope) (challenge : Z) (credential : string) (slot : bool) (new : Z)
    (token : string) (d d' : Db) :
  finish_body now actor challenge credential slot new token d = Err (Refuse d') -> refused now actor d d'.
Proof.
  unfold finish_body. destruct (begin (user actor) d) as [d1|] eqn:B; [|done]. cbn [or_fail].
  apply begin_ok in B as [-> _]. destruct (scope now actor _); [|done]. cbn [or_fail].
  destruct (available now (user actor) _) as [r|] eqn:A; [|done]. cbn [or_fail].
  assert (G : refused now actor d (lock_accounts [user actor] d)) by (by apply (refused_lock now actor d r)).
  assert (G2 : refused now actor d (set_challenges (delete challenge (challenges (lock_accounts [user actor] d)))
                                      (lock_accounts [user actor] d))).
  { destruct G as (G1 & G2 & _ & G4). repeat split; try done. apply delete_subseteq. }
  destruct (challenges _ !! challenge) as [c|]; [|by intros [= <-]].
  destruct (negb (_ && _ && _ && _)); [by intros [= <-]|].
  destruct (_ || _); [by intros [= <-]|].
  destruct (complete _ _ _ _ _ _ _ _) as [|e]; [done|]. destruct e; by intros [= <-].
Qed.

(** ** Where grants come from *)

(** The event leaves a grant in the session of its actor, at the revision of the
    account. *)
Definition granted (now : Z) (op : Op) (d : Db) (s : Z) (g : Grant) : Prop :=
  exists actor sess o, shown now op d actor /\ session actor = s /\ g = grant_of now actor sess o /\
    owners (perform now op d) !! user actor = Some (clear_failures o).

Lemma rotates_grants (now : Z) (op : Op) (actor : Scope) (token : string) (d d' : Db) (p : Proven)
    (s : Z) (g : Grant) :
  shown now op d actor -> rotates now actor token d d' p -> perform now op d = d' ->
  grants d' !! s = Some g -> grants d !! s = Some g \/ granted now op d s g.
Proof.
  intros Sh (d1 & F & _ & R) P G. apply rotate_ok in R as (sess & o & _ & Ow & Eg & Eo & _).
  rewrite Eg in G. destruct (decide (session actor = s)) as [<-|N].
  - rewrite lookup_insert_eq in G. injection G as <-. right. exists actor, sess, o.
    rewrite P, Eo, lookup_alter_eq, Ow. done.
  - rewrite lookup_insert_ne in G by done. left. by apply F.
Qed.

(** Starting a ceremony adds a challenge that asks for trusted passkeys to unlock. *)
Lemma start_ok (now : Z) (actor : Scope) (req : PasskeyStartRequest) (id id' : Z) (d d' : Db) :
  start_body now actor req id d = Ok (id', d') ->
  owners d' = owners (lock_accounts [user actor] d) /\ grants d' = grants d /\ exists c,
    (c_purpose c = "unlock"%string -> c_factor c = None) /\
    forall k x, challenges d' !! k = Some x -> x = c \/ challenges d !! k = Some x.
Proof.
  unfold start_body. destruct (begin (user actor) d) as [d1|] eqn:Bg; [|done]. apply begin_ok in Bg as [-> _].
  cbn [or_fail]. destruct (scope _ _ _); [|done]. cbn [or_fail]. destruct (available _ _ _); [|done]. cbn [or_fail].
  destruct (match req with Unlock => _ | _ => _ end) as [[[[purpose handoff] selected] name]|e] eqn:Rq; [|done].
  destruct (match handoff with Some _ => _ | None => _ end) as [hid|]; [|done].
  destruct (_ || _); [done|]. destruct (if String.eqb purpose _ then _ else _); [|done]. intros [= _ <-].
  split; [done|]. split; [done|]. eexists. split.
  2: { intros k x X. cbn [challenges set_challenges] in X. apply lookup_insert_Some in X as [[_ <-]|[_ X]]; [by left|].
       right. by apply map_lookup_filter_Some in X as [X _]. }
  cbn [c_purpose c_factor]. intros ->.
  destruct req; [by injection Rq|by injection Rq|destruct (_ || _) in Rq; [done|by injection Rq]].
Qed.

Lemma start_grants (now : Z) (actor : Scope) (req : PasskeyStartRequest) (id : Z) (d : Db) :
  grants (start now actor req id d).2 = grants d.
Proof.
  unfold start. destruct (start_body now actor req id d) as [[p d']|[e|d']] eqn:B; [|done|].
  - by apply start_ok in B as (_ & G & _).
  - by apply start_refuse in B as [B _].
Qed.

Lemma lock_fewer (now : Z) (actor : Scope) (d : Db) : fewer d (lock now actor d).2.
Proof.
  unfold lock, commit. destruct (begin (user actor) d) as [d1|] eqn:B; [|done]. apply begin_ok in B as [-> _].
  destruct (scope _ _ _); [|done]. split; intros k x X; by apply map_lookup_filter_Some in X as [X _].
Qed.

Lemma issue_fewer (now u : Z) (secret : string) (id : Z) (d : Db) : fewer d (issue_handoff now u secret id d).2.
Proof.
  unfold issue_handoff, commit. destruct (begin u d) as [d1|] eqn:B; [|done]. apply begin_ok in B as [-> _].
  transitivity (invalidate u (lock_accounts [u] d)); [apply (fewer_invalidate u (lock_accounts [u] d))|].
  etransitivity; [|by apply fewer_same]. etransitivity; [|apply fewer_delete_handoff]. by apply fewer_same.
Qed.

Lemma start_registration_fewer (now : Z) (actor : Scope) (d : Db) :
  fewer d (start_passkey_registration now actor d).2.
Proof.
  unfold start_passkey_registration, auth_commit.
  destruct (begin _ d) as [d1|] eqn:B; [|done]. apply begin_ok in B as [-> _]. cbn [household].
  destruct (authorize _ _ _ _) as [en|]; [|done]. cbn [household].
  destruct (if en then _ else _); [|done]. destruct (owners _ !! _); [|done]. cbn [ok_or].
  destruct (start_registration _); [by apply fewer_same|done].
Qed.

Lemma add_passkey_fewer (now : Z) (actor : Scope) (w : option WebauthnChallenge) (credential name : string)
    (new : Z) (d : Db) : fewer d (finish_passkey_registration now actor w credential name new d).2.
Proof.
  unfold finish_passkey_registration, auth_commit. destruct w as [w|]; [|done]. cbn [ok_or].
  destruct (registration_state w); [|done]. cbn [ok_or]. destruct (_ <? _); [done|].
  destruct (w_user w) as [u|]; [|done]. cbn [ok_or]. destruct (_ || _); [done|].
  destruct (begin _ d) as [d1|] eqn:B; [|done]. apply begin_ok in B as [-> _]. cbn [household].
  destruct (authorize _ _ _ _) as [en|]; [|done]. cbn [household].
  destruct (if en then household (ensure_enrollment_capacity _ _) else _); [|done].
  destruct (owners _ !! _); [|done]. cbn [ok_or]. destruct (negb _); [done|].
  destruct (registration_of credential); [|done]. cbn [ok_or].
  destruct (if en then household (validate_client_context _) else _); [|done].
  destruct (finish_registration _ _) as [[cr bytes]|]; [|done]. cbn [ok_or].
  destruct (existsb _ _); [done|]. cbn [snd]. destruct en; [|by apply fewer_same].
  split; intros k x X; by apply lookup_of_user in X as [X _].
Qed.

Lemma delete_passkey_fewer (now : Z) (actor : Scope) (id : Z) (d : Db) :
  fewer d (delete_passkey now actor id d).2.
Proof.
  unfold delete_passkey, auth_commit.
  destruct (begin _ d) as [d1|] eqn:B; [|done]. apply begin_ok in B as [-> _]. cbn [household].
  destruct (authorize _ _ _ _) as [en|]; [|done]. cbn [household].
  destruct (if en then _ else Ok tt); [|done]. destruct (negb _); [done|]. cbn [snd].
  set (d1 := set_challenges _ _). assert (F : fewer d d1).
  { split; [done|]. intros k x X. by apply map_lookup_filter_Some in X as [X _]. }
  destruct en; [|exact F]. etransitivity; [exact F|apply (fewer_invalidate (user actor))].
Qed.

Lemma fewer_session (s : Z) (d d' : Db) :
  grants d' = delete s (grants d) -> challenges d' = of_user c_session s (challenges d) -> fewer d d'.
Proof.
  intros E F. split; intros k y Y.
  - rewrite E in Y. by apply lookup_delete_Some in Y as [_ Y].
  - rewrite F in Y. by apply lookup_of_user in Y as [Y _].
Qed.

Lemma triggers_fewer (now : Z) (op : Op) (d : Db) :
  match op with UpdateUser _ _ | SwitchProfile _ _ _ | CreateSession _ _ | DeleteSession _ => True | _ => False end ->
  fewer d (perform now op d).
Proof.
  destruct op as [| | | | | | | | | |u new|s' p required|s' new|s']; try done; intros _; cbn [perform].
  - unfold update_user. destruct (users d !! u) as [old|]; [|done].
    destruct (_ || _); [|by apply fewer_same]. split; intros k x X; by apply lookup_of_user in X as [X _].
  - unfold switch_profile. destruct (sessions d !! s') as [old|]; [|done].
    destruct (negb _); [|by apply fewer_same]. by apply (fewer_session s').
  - unfold create_session. destruct (bool_decide _); [done|by apply fewer_same].
  - by apply (fewer_session s').
Qed.

(** A grant is there already, or the event is a proof. *)
Lemma perform_grants (now : Z) (op : Op) (d : Db) (s : Z) (g : Grant) :
  sound d -> grants (perform now op d) !! s = Some g -> grants d !! s = Some g \/ granted now op d s g.
Proof.
  intros Wf G. destruct op as [actor pass handoff slot token|actor req id|actor c credential slot new token|actor
    |u secret id|actor|actor w credential name new|actor id|u|l|u new|s' p required|s' new|s'].
  - destruct (password_body now actor pass handoff slot token d) as [[p d']|[e|d']] eqn:B.
    + pose proof B as [Sh R]%password_body_ok.
      assert (E : perform now (Password actor pass handoff slot token) d = d')
        by (cbn [perform]; unfold password; by rewrite B).
      rewrite E in G. exact (rotates_grants _ _ _ _ _ _ _ _ _ Sh R E G).
    + left. revert G. cbn [perform]. unfold password. by rewrite B.
    + left. revert G. cbn [perform]. unfold password. rewrite B. apply password_refuse in B as [B _].
      cbn [settle snd failed audit grants set_owners]. by rewrite B.
  - left. revert G. cbn [perform]. by rewrite start_grants.
  - destruct (finish_body now actor c credential slot new token d) as [[p d']|[e|d']] eqn:B.
    + pose proof B as [Sh R]%(finish_body_ok _ _ _ _ _ _ _ _ _ _ Wf).
      assert (E : perform now (Finish actor c credential slot new token) d = d')
        by (cbn [perform]; unfold finish; by rewrite B).
      rewrite E in G. exact (rotates_grants _ _ _ _ _ _ _ _ _ Sh R E G).
    + left. revert G. cbn [perform]. unfold finish. by rewrite B.
    + left. revert G. cbn [perform]. unfold finish. rewrite B. apply finish_refuse in B as [B _].
      cbn [settle snd failed audit grants set_owners]. by rewrite B.
  - left. by apply lock_fewer in G.
  - left. by apply issue_fewer in G.
  - left. by apply start_registration_fewer in G.
  - left. by apply add_passkey_fewer in G.
  - left. by apply delete_passkey_fewer in G.
  - left. by apply (fewer_invalidate u d) in G.
  - left. exact G.
  - left. by apply (triggers_fewer now) in G.
  - left. by apply (triggers_fewer now) in G.
  - left. by apply (triggers_fewer now) in G.
  - left. by apply (triggers_fewer now) in G.
Qed.

(** ** Challenges stay sound *)

Lemma sound_fewer (d d' : Db) : fewer d d' -> sound d -> sound d'.
Proof. intros [_ F] S k c C. by apply (S k), F. Qed.

Lemma rotate_challenges (now : Z) (actor : Scope) (token : string) (d d' : Db) (p : Proven) :
  rotate now actor token d = Ok (p, d') -> challenges d' = of_user c_session (session actor) (challenges d).
Proof.
  unfold rotate. destruct (scope now actor d); [|done]. destruct (sessions d !! _); [|done]. cbn [ok_or].
  destruct (owners d !! _); [|done]. cbn [ok_or]. destruct (_ <=? _); [done|].
  destruct (version actor <? i64_max); [|done]. cbn [ok_or]. destruct (read_context _ _ _); [|done].
  by intros [= _ <-].
Qed.

Lemma rotates_sound (now : Z) (actor : Scope) (token : string) (d d' : Db) (p : Proven) :
  rotates now actor token d d' p -> sound d -> sound d'.
Proof.
  intros (d1 & F & _ & R%rotate_challenges) S k c C. rewrite R in C. apply lookup_of_user in C as [C _].
  by apply (sound_fewer _ _ F S k).
Qed.

Lemma refused_sound (now : Z) (actor : Scope) (d d' : Db) :
  refused now actor d d' -> sound d -> sound (failed now actor d').
Proof. intros (_ & _ & Ch & _) S k c C. apply (S k). by eapply lookup_weaken. Qed.

Lemma perform_sound (now : Z) (op : Op) (d : Db) : sound d -> sound (perform now op d).
Proof.
  intros S. destruct op as [actor pass handoff slot token|actor req id|actor c credential slot new token|actor
    |u secret id|actor|actor w credential name new|actor id|u|l|u new|s' p required|s' new|s']; cbn [perform].
  - unfold password. destruct (password_body now actor pass handoff slot token d) as [[p d']|[e|d']] eqn:B; [|done|].
    + apply password_body_ok in B as [_ R]. by apply (rotates_sound _ _ _ _ _ _ R).
    + apply password_refuse in B. by apply (refused_sound _ _ _ _ B).
  - unfold start. destruct (start_body now actor req id d) as [[p d']|[e|d']] eqn:B; [|done|].
    + apply start_ok in B as (_ & _ & c & Wf & Ch). intros k x X. by destruct (Ch k x X) as [->|Y]; [|apply (S k)].
    + apply start_refuse in B. by apply (refused_sound _ _ _ _ B).
  - unfold finish. destruct (finish_body now actor c credential slot new token d) as [[p d']|[e|d']] eqn:B; [|done|].
    + apply (finish_body_ok _ _ _ _ _ _ _ _ _ _ S) in B as [_ R]. by apply (rotates_sound _ _ _ _ _ _ R).
    + apply finish_refuse in B. by apply (refused_sound _ _ _ _ B).
  - by apply (sound_fewer _ _ (lock_fewer now actor d)).
  - by apply (sound_fewer _ _ (issue_fewer now u secret id d)).
  - by apply (sound_fewer _ _ (start_registration_fewer now actor d)).
  - by apply (sound_fewer _ _ (add_passkey_fewer now actor w credential name new d)).
  - by apply (sound_fewer _ _ (delete_passkey_fewer now actor id d)).
  - by apply (sound_fewer _ _ (fewer_invalidate u d)).
  - done.
  - by apply (sound_fewer _ _ (triggers_fewer now (UpdateUser u new) d I)).
  - by apply (sound_fewer _ _ (triggers_fewer now (SwitchProfile s' p required) d I)).
  - by apply (sound_fewer _ _ (triggers_fewer now (CreateSession s' new) d I)).
  - by apply (sound_fewer _ _ (triggers_fewer now (DeleteSession s') d I)).
Qed.

Lemma exec_sound (h : list (Z * Op)) (d : Db) : sound d -> sound (exec d h).
Proof. revert d. induction h as [|[t op] h IH]; intros d S; [done|]. by apply IH, perform_sound. Qed.

Lemma exec_grants (h : list (Z * Op)) (d : Db) (s : Z) (g : Grant) :
  sound d -> grants (exec d h) !! s = Some g ->
  grants d !! s = Some g \/
  exists h1 t op h2, h = h1 ++ (t, op) :: h2 /\ granted t op (exec d h1) s g.
Proof.
  intros S. induction h as [|[t op] h IH] using rev_ind; [by left|]. rewrite exec_app. cbn [exec]. intros G.
  apply (perform_grants t op _ s g (exec_sound h d S)) in G as [G|G].
  - destruct (IH G) as [?|(h1 & t1 & op1 & h2 & -> & ?)]; [by left|right].
    exists h1, t1, op1, (h2 ++ [(t, op)]). by rewrite <- app_assoc.
  - right. by exists h, t, op, [].
Qed.

(** C25. Management that passes in a session without a grant at first has a proof behind
    it: a password or a passkey that was shown in this session, with this profile and
    the credential before the present one, less than five minutes ago, and at the
    revision of the account that still holds. *)
Theorem management_needs_a_proof (d : Db) (h : list (Z * Op)) (now : Z) (actor : Scope) :
  sound d -> grants d !! session actor = None -> require now actor (exec d h) = Ok tt ->
  exists h1 t op h2 before o o', h = h1 ++ (t, op) :: h2 /\
    shown t op (exec d h1) before /\
    session before = session actor /\ user before = user actor /\ profile before = profile actor /\
    version actor = version before + 1 /\ now < t + 5 * MINUTE /\
    owners (perform t op (exec d h1)) !! user actor = Some o /\
    owners (exec d h) !! user actor = Some o' /\ revision o = revision o' /\ enabled o' = true.
Proof.
  intros S N R. unfold require in R. destruct (grants (exec d h) !! session actor) as [g|] eqn:G; [|done].
  cbn [is_some_and] in R. destruct (owners (exec d h) !! g_user g) as [o'|] eqn:Ow; [|done]. cbn [is_some_and] in R.
  destruct (_ && _) eqn:B in R; [|done]. clear R.
  destruct (exec_grants h d _ _ S G) as [G'|(h1 & t & op & h2 & -> & before & sess & o & Sh & Es & -> & Eo)];
    [congruence|].
  unfold grant_of in *. cbn [g_user g_profile g_revision g_version g_expires] in *. dk_bool.
  exists h1, t, op, h2, before, (clear_failures o), o'.
  assert (user before = user actor) as Eu by done. rewrite Eu in Ow, Eo.
  repeat (split; [done|]). split; [lia|]. by repeat (split; [done|]).
Qed.

(** ** Refusals *)

(** The account whose refusal an event counts, and the one it clears *)
Definition of_body {A} (actor : Scope) (r : result A Exit) : option Z * option Z :=
  match r with
  | Ok _ => (None, Some (user actor))
  | Err (Refuse _) => (Some (user actor), None)
  | Err (Fail _) => (None, None)
  end.
Definition outcome (now : Z) (op : Op) (d : Db) : option Z * option Z :=
  match op with
  | Password actor pass handoff slot token => of_body actor (password_body now actor pass handoff slot token d)
  | Start actor req id => ((of_body actor (start_body now actor req id d)).1, None)
  | Finish actor c credential slot new token => of_body actor (finish_body now actor c credential slot new token d)
  | Issue u secret id => (None, if is_ok (issue_handoff now u secret id d).1 then Some u else None)
  | _ => (None, None)
  end.

(** The times of the refusals of an account, and whether its count is never cleared *)
Fixpoint refusals (u : Z) (d : Db) (h : list (Z * Op)) : list Z :=
  match h with
  | [] => []
  | (t, op) :: h =>
      (if bool_decide ((outcome t op d).1 = Some u) then [t] else []) ++ refusals u (perform t op d) h
  end.
Fixpoint uncleared (u : Z) (d : Db) (h : list (Z * Op)) : Prop :=
  match h with
  | [] => True
  | (t, op) :: h => (outcome t op d).2 <> Some u /\ uncleared u (perform t op d) h
  end.
Fixpoint ordered (from : Z) (h : list (Z * Op)) : Prop :=
  match h with [] => True | (t, _) :: h => from <= t /\ ordered t h end.

Lemma keeps_refused (u now : Z) (actor : Scope) (d d' : Db) :
  user actor <> u -> refused now actor d d' -> keeps u d (failed now actor d').
Proof.
  intros N (_ & Ow & _). transitivity (lock_accounts [user actor] d); [apply keeps_lock|].
  apply (keeps_other u (user actor) (count_failure now)); [done|]. cbn [failed audit owners set_owners]. by rewrite Ow.
Qed.

Lemma keeps_rotate (u now : Z) (actor : Scope) (token : string) (d d' : Db) (p : Proven) :
  user actor <> u -> rotate now actor token d = Ok (p, d') -> keeps u d d'.
Proof. intros N (s & o & _ & _ & _ & E & _)%rotate_ok. by apply (keeps_other u (user actor) clear_failures). Qed.

Lemma keeps_settle {A} (u now : Z) (actor : Scope) (d : Db) (r : result (A * Db) Exit) :
  (of_body actor r).1 <> Some u ->
  (forall d', r = Err (Refuse d') -> refused now actor d d') ->
  (forall x d', r = Ok (x, d') -> keeps u d d') -> keeps u d (settle now actor d r).2.
Proof.
  intros N R K. destruct r as [[x d']|[e|d']]; cbn [settle snd]; [by apply (K x)|done|].
  apply keeps_refused; [|by apply R]. intros E. apply N. cbn. by rewrite E.
Qed.

Lemma keeps_rotates (u now : Z) (actor : Scope) (token : string) (d d' : Db) (p : Proven) :
  user actor <> u -> rotates now actor token d d' p -> keeps u d d'.
Proof. intros N (d1 & _ & K & R). transitivity d1; [apply K|by apply (keeps_rotate u now actor token d1 d' p)]. Qed.

Lemma keeps_issue (u now v : Z) (secret : string) (id : Z) (d : Db) :
  (outcome now (Issue v secret id) d).2 <> Some u -> keeps u d (issue_handoff now v secret id d).2.
Proof.
  cbn [outcome snd]. unfold issue_handoff, commit. destruct (begin v d) as [d1|] eqn:B; [|done].
  apply begin_ok in B as [-> _]. cbn [fst snd is_ok]. intros N. assert (v <> u) by congruence. clear N.
  transitivity (lock_accounts [v] d); [apply keeps_lock|].
  transitivity (invalidate v (lock_accounts [v] d)); [apply keeps_invalidate|].
  etransitivity; [|by apply keeps_same]. etransitivity; [|apply keeps_consumed].
  by apply (keeps_other u v clear_password).
Qed.

Lemma keeps_add_passkey (u now : Z) (actor : Scope) (w : option WebauthnChallenge) (credential name : string)
    (new : Z) (d : Db) : keeps u d (finish_passkey_registration now actor w credential name new d).2.
Proof.
  unfold finish_passkey_registration, auth_commit. destruct w as [w|]; [|done]. cbn [ok_or].
  destruct (registration_state w); [|done]. cbn [ok_or]. destruct (_ <? _); [done|].
  destruct (w_user w) as [v|]; [|done]. cbn [ok_or]. destruct (_ || _); [done|].
  destruct (begin _ d) as [d1|] eqn:B; [|done]. apply begin_ok in B as [-> _]. cbn [household].
  destruct (authorize _ _ _ _) as [en|]; [|done]. cbn [household].
  destruct (if en then household (ensure_enrollment_capacity _ _) else _); [|done].
  destruct (owners _ !! _); [|done]. cbn [ok_or]. destruct (negb _); [done|].
  destruct (registration_of credential); [|done]. cbn [ok_or].
  destruct (if en then household (validate_client_context _) else _); [|done].
  destruct (finish_registration _ _) as [[cr bytes]|]; [|done]. cbn [ok_or].
  destruct (existsb _ _); [done|]. cbn [snd]. transitivity (lock_accounts [v] d); [apply keeps_lock|].
  destruct en; [by apply (keeps_alter u v bump)|by apply keeps_same].
Qed.

Lemma keeps_delete_passkey (u now : Z) (actor : Scope) (id : Z) (d : Db) :
  keeps u d (delete_passkey now actor id d).2.
Proof.
  unfold delete_passkey, auth_commit.
  destruct (begin _ d) as [d1|] eqn:B; [|done]. apply begin_ok in B as [-> _]. cbn [household].
  destruct (authorize _ _ _ _) as [en|]; [|done]. cbn [household].
  destruct (if en then _ else Ok tt); [|done]. destruct (negb _); [done|]. cbn [snd].
  transitivity (lock_accounts [user actor] d); [apply keeps_lock|].
  destruct en; [by apply (keeps_alter u (user actor) bump)|by apply keeps_same].
Qed.

Lemma keeps_start_registration (u now : Z) (actor : Scope) (d : Db) :
  keeps u d (start_passkey_registration now actor d).2.
Proof.
  unfold start_passkey_registration, auth_commit.
  destruct (begin _ d) as [d1|] eqn:B; [|done]. apply begin_ok in B as [-> _]. cbn [household].
  destruct (authorize _ _ _ _) as [en|]; [|done]. cbn [household].
  destruct (if en then _ else _); [|done]. destruct (owners _ !! _); [|done]. cbn [ok_or].
  destruct (start_registration _); [apply keeps_lock|done].
Qed.

Lemma keeps_triggers (u now : Z) (op : Op) (d : Db) :
  match op with UpdateUser _ _ | SwitchProfile _ _ _ | CreateSession _ _ | DeleteSession _ => True | _ => False end ->
  keeps u d (perform now op d).
Proof.
  destruct op as [| | | | | | | | | |v new|s' p required|s' new|s']; try done; intros _; cbn [perform].
  - unfold update_user. destruct (users d !! v) as [old|]; [|done].
    destruct (_ || _); [eapply (keeps_alter u v); [|reflexivity]; done|by apply keeps_same].
  - unfold switch_profile. destruct (sessions d !! s') as [old|]; [|done].
    destruct (negb _); by apply keeps_same.
  - unfold create_session. destruct (bool_decide _); [done|by apply keeps_same].
  - by apply keeps_same.
Qed.

Lemma perform_keeps (u now : Z) (op : Op) (d : Db) :
  sound d -> (outcome now op d).1 <> Some u -> (outcome now op d).2 <> Some u -> keeps u d (perform now op d).
Proof.
  intros S R C. destruct op as [actor pass handoff slot token|actor req id|actor c credential slot new token|actor
    |v secret id|actor|actor w credential name new|actor id|v|l|v new|s' p required|s' new|s'];
    try (by apply keeps_triggers); cbn [perform]; cbn [outcome fst snd] in R, C.
  - apply keeps_settle; [exact R|by apply password_refuse|]. intros p d' E. rewrite E in C.
    apply password_body_ok in E as [_ E]. apply (keeps_rotates u now actor token d d' p); [|exact E]. cbn in C. congruence.
  - apply keeps_settle; [exact R|by apply start_refuse|]. intros p d' (E & _ & _)%start_ok.
    transitivity (lock_accounts [user actor] d); [apply keeps_lock|by apply keeps_same].
  - apply keeps_settle; [exact R|by apply finish_refuse|]. intros p d' E. rewrite E in C.
    apply (finish_body_ok _ _ _ _ _ _ _ _ _ _ S) in E as [_ E].
    apply (keeps_rotates u now actor token d d' p); [|exact E]. cbn in C. congruence.
  - unfold lock, commit. destruct (begin (user actor) d) as [d1|] eqn:B; [|done]. apply begin_ok in B as [-> _].
    destruct (scope _ _ _); [|done]. etransitivity; [apply (keeps_lock u [user actor])|by apply keeps_same].
  - by apply keeps_issue.
  - apply keeps_start_registration.
  - apply keeps_add_passkey.
  - apply keeps_delete_passkey.
  - apply keeps_invalidate.
  - apply keeps_lock.
Qed.

(** A refusal counts, and only while the account is not locked. *)
Definition counted (u now : Z) (d d' : Db) : Prop :=
  exists o, (owners d !! u = Some o \/ (owners d !! u = None /\ o = fresh_owner)) /\ unlocked now o = true /\
    owners d' !! u = Some (count_failure now o).

Lemma refused_counted (now : Z) (actor : Scope) (d d' : Db) :
  refused now actor d d' -> counted (user actor) now d (failed now actor d').
Proof.
  intros (_ & Ow & _ & r & A). unfold available in A.
  destruct (owners (lock_accounts [user actor] d) !! user actor) as [o|] eqn:Eo; [|done]. cbn [ok_or] in A.
  exists o. split; [by destruct (lock_accounts_owners _ _ _ _ Eo) as [?|[-> ?]]; [left|right]|]. split.
  - unfold unlocked. destruct (locked_until o) as [l|]; [|done]. cbn [is_some_and is_none_or] in *.
    destruct (now <? l) eqn:B; [done|]. dk_bool. by apply Z.leb_le.
  - cbn [failed audit owners set_owners]. by rewrite Ow, lookup_alter_eq, Eo.
Qed.

Lemma counted_settle {A} (u now : Z) (actor : Scope) (d : Db) (r : result (A * Db) Exit) :
  (of_body actor r).1 = Some u -> (forall d', r = Err (Refuse d') -> refused now actor d d') ->
  counted u now d (settle now actor d r).2.
Proof.
  intros E R. destruct r as [[x d']|[e|d']]; [done..|]. injection E as <-. by apply refused_counted, R.
Qed.

Lemma perform_counted (u now : Z) (op : Op) (d : Db) :
  (outcome now op d).1 = Some u -> counted u now d (perform now op d).
Proof.
  destruct op; try done; intros E; apply counted_settle; try exact E;
    [by apply password_refuse|by apply start_refuse|by apply finish_refuse].
Qed.

(** [k] refusals since [r1], not locked yet, or locked for long enough *)
Definition charged (u r1 k : Z) (d : Db) : Prop :=
  exists o, owners d !! u = Some o /\
    ((locked_until o = None /\ k <= failed_attempts o < 5) \/
     exists l, locked_until o = Some l /\ r1 + LOCK <= l).

Lemma charged_keeps (u r1 k : Z) (d d' : Db) : keeps u d d' -> charged u r1 k d -> charged u r1 k d'.
Proof.
  intros K (o & Ho & C). destruct (K o Ho) as (o' & Ho' & E). exists o'. split; [done|].
  unfold lockout in E. injection E as E1 E2. by rewrite E1, E2.
Qed.

Lemma charged_after (u r1 t : Z) (o : OwnerState) (d' : Db) :
  0 <= failed_attempts o -> r1 <= t -> owners d' !! u = Some (count_failure t o) ->
  charged u r1 (if is_some_and (locked_until o) (fun l => l <=? t) then 1 else failed_attempts o + 1) d'.
Proof.
  intros P T E. exists (count_failure t o). split; [done|]. unfold count_failure. cbn [locked_until failed_attempts].
  set (n := if is_some_and _ _ then 1 else _). destruct (Z.leb_spec 5 n) as [L|L].
  - right. exists (t + LOCK). split; [done|lia].
  - left. split; [done|]. lia.
Qed.

Lemma charged_count (u r1 k t : Z) (d d' : Db) :
  1 <= k -> r1 <= t -> charged u r1 k d -> counted u t d d' ->
  r1 + LOCK <= t \/ (k < 5 /\ charged u r1 (k + 1) d').
Proof.
  intros K T (o & Ho & C) (o' & Ho' & Un & E).
  destruct Ho' as [Ho'|[? _]]; [|congruence]. assert (o' = o) as -> by congruence.
  destruct C as [[Ln F]|(l & Ll & L)].
  - right. split; [lia|]. destruct (charged_after u r1 t o d' ltac:(lia) T E) as (x & Hx & C).
    rewrite Ln in C. cbn [is_some_and] in C. exists x. split; [done|]. destruct C as [[? ?]|?]; [left|by right].
    split; [done|lia].
  - left. unfold unlocked in Un. rewrite Ll in Un. cbn [is_none_or] in Un. dk_bool. lia.
Qed.

Lemma refusals_from (u from : Z) (d : Db) (h : list (Z * Op)) :
  ordered from h -> Forall (fun t => from <= t) (refusals u d h).
Proof.
  revert from d. induction h as [|[t op] h IH]; intros from d; cbn [ordered refusals]; [constructor|].
  intros [T H]. apply Forall_app. split; [destruct (bool_decide _); repeat constructor; lia|].
  eapply Forall_impl; [by apply IH|]. cbn. lia.
Qed.

Lemma charged_six (u r1 : Z) (h : list (Z * Op)) (d : Db) (from t : Z) (k : nat) :
  (1 <= k <= 5)%nat -> sound d -> charged u r1 (Z.of_nat k) d -> ordered from h -> r1 <= from ->
  uncleared u d h -> refusals u d h !! (5 - k)%nat = Some t -> r1 + LOCK <= t.
Proof.
  revert d from k. induction h as [|[t' op] h IH]; intros d from k K Sd C H R; [done|].
  cbn [ordered uncleared refusals] in *. destruct H as [T H]. intros [N Un].
  pose proof (perform_sound t' op d Sd) as Sd'. case_bool_decide as E.
  - cbn [app]. pose proof (perform_counted _ _ _ _ E) as Ct.
    destruct (charged_count u r1 (Z.of_nat k) t' d _ ltac:(lia) ltac:(lia) C Ct) as [Late|[K5 C']].
    + intros I. pose proof (refusals_from u t' (perform t' op d) h H) as F.
      assert (F' : Forall (fun x => t' <= x) (t' :: refusals u (perform t' op d) h)) by (constructor; [lia|done]).
      rewrite Forall_lookup in F'. specialize (F' _ _ I). lia.
    + replace (5 - k)%nat with (S (5 - S k)) by lia. cbn [lookup list_lookup].
      intros I. apply (IH (perform t' op d) t' (S k)); try done; try lia.
      by replace (Z.of_nat (S k)) with (Z.of_nat k + 1) by lia.
  - cbn [app]. intros I. apply (IH (perform t' op d) t' k); try done; [|lia].
    by apply (charged_keeps u r1 _ d); [apply perform_keeps|].
Qed.

(** C34. Six refusals in a row, without a proof or a hand-off of the operator in between,
    take at least fifteen minutes, whatever else happens to the tables. *)
Theorem six_refusals_take_fifteen_minutes (u from t1 t2 t3 t4 t5 t6 : Z) (rest : list Z) (d : Db)
    (h : list (Z * Op)) (o : OwnerState) :
  sound d -> owners d !! u = Some o -> 0 <= failed_attempts o -> ordered from h -> uncleared u d h ->
  refusals u d h = t1 :: t2 :: t3 :: t4 :: t5 :: t6 :: rest -> t1 + 15 * MINUTE <= t6.
Proof.
  change (15 * MINUTE) with LOCK. revert from d o. induction h as [|[t op] h IH]; intros from d o S Ho P; [done|].
  cbn [ordered uncleared refusals]. intros [T H] [N Un]. pose proof (perform_sound t op d S) as S'.
  case_bool_decide as E; cbn [app].
  - intros [= -> R]. destruct (perform_counted _ _ _ _ E) as (o' & Ho' & _ & Eo).
    destruct Ho' as [Ho'|[? _]]; [|congruence]. assert (o' = o) as -> by congruence.
    destruct (charged_after u t1 t1 o _ P ltac:(lia) Eo) as (x & Hx & C).
    apply (charged_six u t1 h (perform t1 op d) t1 t6 1); try done; try lia.
    + exists x. split; [done|]. destruct C as [[? ?]|?]; [left|by right]. split; [done|].
      destruct (is_some_and _ _); lia.
    + by rewrite R.
  - intros R. destruct (perform_keeps u t op d S E N o Ho) as (o' & Ho' & Eo). unfold lockout in Eo. injection Eo as E1 _.
    apply (IH t (perform t op d) o'); try done. lia.
Qed.

(** ** The last factor *)

(** A factor of the account that can still be shown *)
Definition usable (u : Z) (d : Db) : Prop :=
  password_available u d = true \/
  exists id k, passkeys d !! id = Some k /\ k_user k = u /\ owner_trusted k = true /\
    Str.len (public_key k) <= 65536 /\ is_Some (cred_of (public_key k)).

Lemma password_available_same (u : Z) (d d' : Db) :
  users d' = users d -> (forall o, owners d !! u = Some o -> exists o', owners d' !! u = Some o' /\
    password_fingerprint o' = password_fingerprint o) ->
  password_available u d = true -> password_available u d' = true.
Proof.
  unfold password_available. intros -> K. destruct (users d !! u) as [usr|]; [|done].
  destruct (owners d !! u) as [o|] eqn:Ho; [|done]. destruct (K o eq_refl) as (o' & -> & ->). done.
Qed.

(** Removing a passkey under protection leaves a factor that can be shown. *)
Theorem last_factor_is_kept (now : Z) (actor : Scope) (id : Z) (d d' : Db) (o : OwnerState) :
  owners d !! user actor = Some o -> enabled o = true -> usable (user actor) d ->
  delete_passkey now actor id d = (Ok tt, d') -> usable (user actor) d'.
Proof.
  intros Ho En Us. unfold delete_passkey, auth_commit.
  destruct (begin _ d) as [d1|] eqn:B; [|done]. apply begin_ok in B as [-> _]. cbn [household].
  set (d1 := lock_accounts [user actor] d).
  destruct (authorize now (user actor) (Some actor) d1) as [en|] eqn:Au; [|done]. cbn [household].
  assert (Ho1 : owners d1 !! user actor = Some o) by (by apply lock_accounts_present).
  assert (en = true) as ->.
  { unfold authorize in Au. rewrite Ho1 in Au. cbn [ok_or] in Au. destruct (negb _); [done|].
    destruct (session_scope _ _ _ _); [|done]. destruct (if enabled o then _ else _); [|done].
    apply ok_inj in Au. congruence. }
  destruct (allow_delete (user actor) id d1) as [tr|] eqn:Al; [|done]. cbn [household].
  destruct (negb (is_some_and _ _)) eqn:Own; [done|]. intros [= <-].
  set (d2 := trusted_change _ _).
  assert (Av : password_available (user actor) d1 = true -> password_available (user actor) d2 = true).
  { apply password_available_same; [done|]. intros x Hx. exists (bump x).
    cbn [d2 trusted_change audit invalidate owners set_challenges set_grants set_owners set_passkeys].
    by rewrite lookup_alter_eq, Hx. }
  unfold allow_delete in Al. destruct (passkeys d1 !! id) as [k|] eqn:Pk; [|done]. cbn [ok_or] in Al.
  destruct (negb (k_user k =? user actor)); [done|]. destruct (_ && _ && _) eqn:Last in Al; [done|]. clear Al.
  destruct Us as [Us|(id2 & k2 & P2 & U2 & T2 & L2 & C2)].
  { left. apply Av. revert Us. apply password_available_same; [done|]. intros x Hx. exists x.
    split; [by apply lock_accounts_present|done]. }
  destruct (decide (id2 = id)) as [->|N].
  - assert (k2 = k) as -> by (change (passkeys d1) with (passkeys d) in Pk; congruence). rewrite T2 in Last. cbn [andb] in Last.
    apply andb_false_iff in Last as [Last|Last]; apply negb_false_iff in Last; [left; by apply Av|].
    right. apply existsb_exists in Last as ([i x] & I & Cr). apply list_elem_of_In in I. cbn [snd] in Cr.
    unfold others in I. assert (I' : (i, x) ∈ filter (fun p => Is_true (negb (p.1 =? id)
      && (Str.len (public_key p.2) <=? 65536))) (trusted_keys (user actor) d1)).
    { eapply elem_of_submseteq; [exact I|]. apply sublist_submseteq, sublist_take. }
    apply list_elem_of_filter in I' as [Ok I']. unfold trusted_keys in I'.
    apply list_elem_of_filter in I' as [Tr [Px Ux]%in_keys_of]. cbn [fst snd] in *.
    apply Is_true_true, andb_true_iff in Ok as [Ni Lx]. apply Is_true_true in Tr. dk_bool.
    exists i, x. cbn [d2 trusted_change audit invalidate passkeys set_challenges set_grants set_owners set_passkeys].
    rewrite lookup_delete_ne by done. repeat (split; [done|]). by destruct (cred_of (public_key x)).
  - right. exists id2, k2. cbn [d2 trusted_change audit invalidate passkeys set_challenges set_grants set_owners set_passkeys].
    by rewrite lookup_delete_ne.
Qed.

End Outside.

(** ** One account *)

#[local] Instance sample_outside : Outside :=
  {| sha256 := fun s => s; uuid_bytes := Dec.print; base64_url := fun s => s;
     verify_password_hash := String.eqb; parse_json := fun _ => Some (Json.Object []);
     cred_of := fun s => Some s; assertion_of := fun _ => Some (mk_assertion None "");
     registration_of := fun _ => Some ""%string;
     start_authentication := fun _ => Some ""%string;
     finish_authentication := fun credential _ => Some (mk_verified credential true 0);
     update_credential := fun k _ => Some k; start_registration := fun _ => Some ""%string;
     finish_registration := fun credential _ => Some (credential, credential); counter_of := fun _ => 0 |}.

Definition sample_state : OwnerState := mk_owner true 1 (Some (fingerprint "secret")) 0 None.
Definition sample_key (cred : string) : Passkey := mk_passkey 1 cred cred "key" true 0.
Definition sample_db : Db :=
  mk_db {[1 := mk_user "owner" true (Some "secret"%string)]} {[2 := mk_profile 1 "standard"]}
    {[3 := mk_session 1 2 false 1 7 "" (1000 * MINUTE)]} ∅ {[1 := sample_state]} ∅ ∅ ∅
    {[4 := sample_key "a"; 5 := sample_key "b"]} [].
Definition sample_scope (version : Z) : Scope := mk_scope version 1 3 2 Bearer None.
Definition try (pass : string) : Op := Password (sample_scope 7) pass None true "token".

Lemma sample_sound : sound sample_db.
Proof.
  intros k c C. change (challenges sample_db) with (∅ : gmap Z Challenge) in C.
  by apply lookup_empty_Some in C.
Qed.

Lemma management_needs_a_proof_witness :
  require (2 * MINUTE) (sample_scope 8) (exec sample_db [(MINUTE, try "secret")]) = Ok tt /\
  exists t before, version before = 7 /\ 2 * MINUTE < t + 5 * MINUTE.
Proof.
  assert (N : grants sample_db !! session (sample_scope 8) = None) by (vm_compute; reflexivity).
  assert (R : require (2 * MINUTE) (sample_scope 8) (exec sample_db [(MINUTE, try "secret")]) = Ok tt)
    by (vm_compute; reflexivity).
  destruct (management_needs_a_proof sample_db [(MINUTE, try "secret")] (2 * MINUTE) (sample_scope 8)
              sample_sound N R)
    as (h1 & t & op & h2 & before & o & o' & _ & _ & _ & _ & _ & V & T & _).
  split; [exact R|]. exists t, before. cbn [version sample_scope] in V. split; [lia|exact T].
Defined.

Definition six_tries : list (Z * Op) :=
  map (fun t => (t, try "guess")) [1; 2; 3; 4; 5; 6; 5 + 15 * MINUTE].
Lemma six_refusals_take_fifteen_minutes_witness :
  refusals 1 sample_db six_tries = [1; 2; 3; 4; 5; 5 + 15 * MINUTE] /\ 1 + 15 * MINUTE <= 5 + 15 * MINUTE.
Proof.
  split; [vm_compute; reflexivity|].
  apply (six_refusals_take_fifteen_minutes 1 1 1 2 3 4 5 (5 + 15 * MINUTE) [] sample_db six_tries sample_state).
  - exact sample_sound.
  - vm_compute. reflexivity.
  - vm_compute. discriminate.
  - vm_compute. repeat split; discriminate.
  - vm_compute. repeat split; discriminate.
  - vm_compute. reflexivity.
Defined.

(** One of two trusted passkeys is deleted; the other one alone may not be. *)
Definition unlocked_db : Db := exec sample_db [(MINUTE, try "secret"); (MINUTE, UpdateUser 7 (mk_user "" true None))].
Lemma last_factor_is_kept_example :
  (delete_passkey (2 * MINUTE) (sample_scope 8) 4 unlocked_db).1 = Ok tt /\
  usable 1 (delete_passkey (2 * MINUTE) (sample_scope 8) 4 unlocked_db).2.
Proof.
  split; [vm_compute; reflexivity|].
  apply (last_factor_is_kept (2 * MINUTE) (sample_scope 8) 4 unlocked_db _ sample_state).
  - vm_compute. reflexivity.
  - reflexivity.
  - left. vm_compute. reflexivity.
  - rewrite (surjective_pairing (delete_passkey _ _ _ _)) at 1. f_equal; vm_compute; reflexivity.
Defined.

End HouseholdOwnerProofs.
