(* ===== verification/Ip.v ===== *)
(** * Internet addresses

    [std::net::IpAddr]: its canonical form, its printing and its reading, and that
    an address reads back. *)

From S2P Require Import Prelude CodecBytes.
Import CodecBytes.

Module Ip.

Inductive IpAddr := V4 (n : Z) | V6 (n : Z).

#[export] Instance IpAddr_eq_dec : EqDecision IpAddr.
Proof. solve_decision. Defined.

Definition is_addr (ip : IpAddr) : Prop :=
  match ip with V4 n => 0 <= n < 2 ^ 32 | V6 n => 0 <= n < 2 ^ 128 end.

(** [to_canonical]: an IPv4 address mapped into IPv6 is the IPv4 address. *)
Definition to_canonical (ip : IpAddr) : IpAddr :=
  match ip with
  | V6 n => if n / 2 ^ 32 =? 0xffff then V4 (n mod 2 ^ 32) else V6 n
  | V4 n => V4 n
  end.

(** The [k] digits of a number in base [b], from the left, and their value *)
Fixpoint places (b : Z) (k : nat) (n : Z) : list Z :=
  match k with
  | O => []
  | S k => (n / b ^ Z.of_nat k) mod b :: places b k n
  end.
Definition value (b : Z) (l : list Z) : Z := fold_left (fun n d => n * b + d) l 0.

Definition octets (n : Z) : list Z := places 256 4 n.
Definition segments (n : Z) : list Z := places 65536 8 n.

(** ** Reading

    The parser of [std::net]: what is read, and the rest of the text. *)
Definition to_digit (radix : Z) (c : ascii) : option Z :=
  let n := Z.of_nat (nat_of_ascii c) in
  let d := if Str.is_digit c then n - 48
           else if (65 <=? n) && (n <=? 90) then n - 55
           else if (97 <=? n) && (n <=? 122) then n - 87 else 36 in
  if d <? radix then Some d else None.

Fixpoint digits (radix : Z) (s : string) : list Z * string :=
  match s with
  | String c t =>
      match to_digit radix c with
      | Some d => let '(l, rest) := digits radix t in (d :: l, rest)
      | None => ([], s)
      end
  | EmptyString => ([], s)
  end.

(** [read_number]; a number above [max] is refused. *)
Definition read_number (radix max : Z) (max_digits : nat) (allow_zero_prefix : bool) (s : string)
  : option (Z * string) :=
  let '(l, rest) := digits radix s in
  if (max_digits <? length l)%nat || (length l =? 0)%nat
     || negb allow_zero_prefix && Str.starts_with "0" s && (1 <? length l)%nat
     || (max <? value radix l)
  then None else Some (value radix l, rest).

Definition read_given_char (c : ascii) (s : string) : option string :=
  match s with
  | String d t => if Ascii.eqb c d then Some t else None
  | EmptyString => None
  end.

(** [read_separator] *)
Definition separated {A} (c : ascii) (i : nat) (read : string -> option A) (s : string) : option A :=
  match i with
  | O => read s
  | S _ => let! s := read_given_char c s in read s
  end.

(** The [k] last octets of an IPv4 address *)
Fixpoint read_octets (k i : nat) (s : string) : option (list Z * string) :=
  match k with
  | O => Some ([], s)
  | S k =>
      let! p := separated "." i (read_number 10 255 3 false) s in
      let! q := read_octets k (S i) p.2 in
      Some (p.1 :: q.1, q.2)
  end.
Definition read_ipv4_addr (s : string) : option (Z * string) :=
  let! p := read_octets 4 0 s in Some (value 256 p.1, p.2).

(** [read_groups] into [k] slots: the groups, whether an IPv4 address ended them, and
    the rest *)
Fixpoint read_groups (k i : nat) (s : string) : list Z * bool * string :=
  match k with
  | O => ([], false, s)
  | S k' =>
      match (if (1 <? k)%nat then separated ":" i read_ipv4_addr s else None) with
      | Some (n, rest) => ([n / 65536; n mod 65536], true, rest)
      | None =>
          match separated ":" i (read_number 16 65535 4 true) s with
          | Some (g, rest) => let '(l, v4, rest) := read_groups k' (S i) rest in (g :: l, v4, rest)
          | None => ([], false, s)
          end
      end
  end.

Definition read_ipv6_addr (s : string) : option (Z * string) :=
  let '(head, v4, s) := read_groups 8 0 s in
  if (length head =? 8)%nat then Some (value 65536 head, s)
  else if v4 then None
  else
    let! s := read_given_char ":" s in
    let! s := read_given_char ":" s in
    let '(tail, _, s) := read_groups (7 - length head) 0 s in
    Some (value 65536 (head ++ replicate (8 - length head - length tail) 0 ++ tail), s).

(** [str::parse::<IpAddr>] *)
Definition parse (s : string) : option IpAddr :=
  let! p :=
    match read_ipv4_addr s with
    | Some (n, rest) => Some (V4 n, rest)
    | None => let! q := read_ipv6_addr s in Some (V6 q.1, q.2)
    end in
  if Str.is_empty p.2 then Some p.1 else None.

(** ** Printing *)

(** [{:x}] of a group *)
Definition hex (g : Z) : string := Str.lower (hex_aux 4 g EmptyString).

(** The longest run of zeros, the first one of them: its start and its length *)
Fixpoint runs (l : list Z) (i start len : nat) (best : nat * nat) : nat * nat :=
  match l with
  | [] => best
  | g :: l =>
      if g =? 0 then
        let start := if (len =? 0)%nat then i else start in
        let len := S len in
        runs l (S i) start len (if (best.2 <? len)%nat then (start, len) else best)
      else runs l (S i) 0 0 best
  end.
Definition longest (l : list Z) : nat * nat := runs l 0 0 0 (0, 0)%nat.

Definition show_groups (l : list Z) : string := Str.join ":" (map hex l).
Definition show_v4 (n : Z) : string := Str.join "." (map Dec.print (octets n)).
Definition show_v6 (n : Z) : string :=
  if n / 2 ^ 32 =? 0xffff then "::ffff:" +:+ show_v4 (n mod 2 ^ 32)
  else
    let l := segments n in
    let '(start, len) := longest l in
    if (1 <? len)%nat
    then show_groups (take start l) +:+ "::" +:+ show_groups (drop (start + len) l)
    else show_groups l.

(** [Display] of [IpAddr] *)
Definition show (ip : IpAddr) : string := match ip with V4 n => show_v4 n | V6 n => show_v6 n end.

Example addresses_read :
  parse "2001:db8::8:800:200c:417a" = Some (V6 0x20010db80000000000080800200c417a) /\
  parse "::ffff:127.0.0.1" = Some (V6 0xffff7f000001) /\ parse "::1" = Some (V6 1) /\
  parse "10.0.0.300" = None /\ parse "010.0.0.1" = None /\ parse "1::2::3" = None /\
  parse "fe80::1%1" = None /\ parse " 1.2.3.4" = None /\ parse "1:2:3:4:5:6:7" = None /\
  parse "1.2.3.4" = Some (V4 0x01020304) /\ parse "::" = Some (V6 0) /\
  parse "0:0:0:0:0:0:1.2.3.4" = Some (V6 0x01020304) /\ parse "1:2:3:4:5:6:7::" = Some (V6 0x00010002000300040005000600070000).
Proof. vm_compute. repeat split. Qed.
Example addresses_print :
  show (V6 0x20010db80000000000080800200c417a) = "2001:db8::8:800:200c:417a" /\
  show (V6 0xffff7f000001) = "::ffff:127.0.0.1" /\ show (V6 0) = "::" /\ show (V6 1) = "::1" /\
  show (V6 0x00010000000200000003000000000000) = "1:0:2:0:3::" /\ show (V4 0x7f000001) = "127.0.0.1" /\
  show (V6 0x00010000000200000003000400050006) = "1:0:2:0:3:4:5:6".
Proof. vm_compute. repeat split. Qed.

(** ** What is printed reads back *)

Lemma fold_places (b : Z) (k : nat) (n a : Z) :
  0 < b -> fold_left (fun n d => n * b + d) (places b k n) a = a * b ^ Z.of_nat k + n mod b ^ Z.of_nat k.
Proof.
  intros B. revert a. induction k as [|k IH]; intros a.
  - cbn [places fold_left]. change (b ^ Z.of_nat 0) with 1. rewrite Z.mod_1_r. lia.
  - cbn [places fold_left]. rewrite IH, Nat2Z.inj_succ, Z.pow_succ_r by lia.
    assert (0 < b ^ Z.of_nat k) by (apply Z.pow_pos_nonneg; lia).
    rewrite (Z.mul_comm b), Z.rem_mul_r by lia. lia.
Qed.
Lemma value_places (b : Z) (k : nat) (n : Z) :
  0 < b -> 0 <= n < b ^ Z.of_nat k -> value b (places b k n) = n.
Proof. intros B N. unfold value. rewrite fold_places, Z.mod_small by lia. lia. Qed.
Lemma places_range (b : Z) (k : nat) (n : Z) : 0 < b -> Forall (fun d => 0 <= d < b) (places b k n).
Proof. intros B. induction k; cbn [places]; constructor; [apply Z.mod_pos_bound; lia|done]. Qed.
Lemma length_places (b : Z) (k : nat) (n : Z) : length (places b k n) = k.
Proof. induction k; cbn [places length]; congruence. Qed.

(** A number ends where no digit follows. *)
Definition stops (radix : Z) (rest : string) : Prop :=
  match rest with String c _ => to_digit radix c = None | EmptyString => True end.

Lemma digits_then (radix : Z) (s rest : string) (l : list Z) :
  digits radix s = (l, EmptyString) -> stops radix rest -> digits radix (s +:+ rest) = (l, rest).
Proof.
  intros D St. revert l D. induction s as [|c s IH]; intros l D.
  - injection D as <-. change (EmptyString +:+ rest) with rest. destruct rest as [|c rest]; [done|].
    cbn [digits]. by rewrite St.
  - change (String c s +:+ rest) with (String c (s +:+ rest)). cbn [digits] in *.
    destruct (to_digit radix c); [|done]. destruct (digits radix s) as [l' r'] eqn:E.
    injection D as <- ->. by rewrite (IH l' eq_refl).
Qed.

Lemma read_printed (radix max : Z) (k : nat) (zero : bool) (s rest : string) (n : Z) :
  read_number radix max k zero s = Some (n, EmptyString) -> stops radix rest ->
  read_number radix max k zero (s +:+ rest) = Some (n, rest).
Proof.
  unfold read_number. destruct (digits radix s) as [l r] eqn:D. intros H St.
  destruct (_ || _) eqn:B in H; [done|]. injection H as <- ->.
  rewrite (digits_then _ _ _ _ D St). cbv beta iota.
  replace (Str.starts_with "0" (s +:+ rest)) with (Str.starts_with "0" s); [by rewrite B|].
  destruct s as [|c s]; [|unfold Str.starts_with; cbn [Str.strip_prefix]; change (String c s +:+ rest) with (String c (s +:+ rest)); cbn [Str.strip_prefix]; by destruct (Ascii.eqb "0" c)].
  cbn in D. injection D as <-.
  exfalso. revert B. change (length (@nil Z)) with 0%nat. cbn [Nat.eqb]. by rewrite orb_true_r.
Qed.

Lemma octets_read (n : Z) : 0 <= n < 256 -> read_number 10 255 3 false (Dec.print n) = Some (n, EmptyString).
Proof.
  intros H.
  assert (F : forallb (fun k => bool_decide (read_number 10 255 3 false (Dec.print (Z.of_nat k))
                                             = Some (Z.of_nat k, EmptyString))) (seq 0 256) = true)
    by (vm_compute; reflexivity).
  rewrite forallb_forall in F. specialize (F (Z.to_nat n)). rewrite Z2Nat.id in F by lia.
  apply bool_decide_eq_true in F; [done|]. apply in_seq. lia.
Qed.

Definition hex_ok (g : Z) : bool :=
  bool_decide (read_number 16 65535 4 true (hex g) = Some (g, EmptyString))
  && Str.all (fun c => negb (Ascii.eqb "." c)) (hex g).
Lemma hex_digit_reads (d : Z) :
  0 <= d < 16 -> to_digit 16 (Str.lower_char (hex_digit d)) = Some d /\
                 Ascii.eqb "." (Str.lower_char (hex_digit d)) = false.
Proof.
  intros H.
  assert (F : forallb (fun k => let c := Str.lower_char (hex_digit (Z.of_nat k)) in
      bool_decide (to_digit 16 c = Some (Z.of_nat k)) && negb (Ascii.eqb "." c)) (seq 0 16) = true)
    by (vm_compute; reflexivity).
  rewrite forallb_forall in F. specialize (F (Z.to_nat d)). rewrite Z2Nat.id in F by lia.
  apply andb_true_iff in F as [F N]; [|apply in_seq; lia].
  apply bool_decide_eq_true in F. apply negb_true_iff in N. done.
Qed.

#[local] Arguments hex_digit : simpl never.
#[local] Arguments Str.lower_char : simpl never.
#[local] Arguments to_digit : simpl never.

Lemma groups_read (g : Z) : 0 <= g < 65536 -> hex_ok g = true.
Proof.
  intros H. unfold hex_ok, hex. cbn [hex_aux].
  assert (M : forall n, 0 <= n mod 16 < 16) by (intros; apply Z.mod_pos_bound; lia).
  apply andb_true_iff. rewrite bool_decide_eq_true. unfold read_number.
  destruct (g / 16 =? 0) eqn:E1; [|destruct (g / 16 / 16 =? 0) eqn:E2;
    [|destruct (g / 16 / 16 / 16 =? 0) eqn:E3;
      [|replace (if g / 16 / 16 / 16 / 16 =? 0 then _ else _)
          with (String (hex_digit (g / 16 / 16 / 16 mod 16)) (String (hex_digit (g / 16 / 16 mod 16))
            (String (hex_digit (g / 16 mod 16)) (String (hex_digit (g mod 16)) EmptyString))))
          by (by destruct (g / 16 / 16 / 16 / 16 =? 0))]]];
    cbn [Str.lower digits Str.all];
    rewrite !(fun n => proj1 (hex_digit_reads _ (M n))), !(fun n => proj2 (hex_digit_reads _ (M n)));
    (split; [|reflexivity]);
    cbn [length]; unfold value; cbn [fold_left]; dk_bool;
    rewrite (proj2 (Z.ltb_ge _ _)) by dk_lia; cbn [Nat.ltb Nat.leb Nat.eqb negb andb orb];
    f_equal; f_equal; dk_lia.
Qed.

Lemma read_v4 (n : Z) (rest : string) :
  0 <= n < 2 ^ 32 -> stops 10 rest -> read_ipv4_addr (show_v4 n +:+ rest) = Some (n, rest).
Proof.
  intros N St. pose proof (places_range 256 4 n ltac:(lia)) as F.
  pose proof (value_places 256 4 n ltac:(lia) N) as V.
  unfold show_v4, read_ipv4_addr, octets. revert F V. generalize (places 256 4 n), (length_places 256 4 n).
  intros [|a [|b [|c [|d [|]]]]]; try done. intros _ F V.
  repeat (apply Forall_cons in F as [? F]).
  cbn [map Str.join]. rewrite !str_app_assoc. cbn [read_octets separated].
  assert (R : forall x r, 0 <= x < 256 -> stops 10 r ->
              read_number 10 255 3 false (Dec.print x +:+ r) = Some (x, r))
    by (intros; apply read_printed; [by apply octets_read|done]).
  rewrite R by done. cbn [fst snd]. change (read_given_char "." ("." +:+ ?t)) with (Some t). cbn [fst snd].
  rewrite R by done. cbn [fst snd]. change (read_given_char "." ("." +:+ ?t)) with (Some t).
  cbn [fst snd]. rewrite R by done. cbn [fst snd]. change (read_given_char "." ("." +:+ ?t)) with (Some t).
  cbn [fst snd]. rewrite R by done. cbn [fst snd]. by rewrite V.
Qed.

(** Groups end at the end of the text or at a colon. *)
Definition colon_or_end (s : string) : Prop := s = EmptyString \/ exists t, s = String ":" t.

Lemma colon_stops (radix : Z) (s : string) : radix <= 36 -> colon_or_end s -> stops radix s.
Proof. intros R [->|[t ->]]; [done|].
  change (stops radix (String ":" t)) with ((if 36 <? radix then Some 36 else None) = None).
  by rewrite (proj2 (Z.ltb_ge 36 radix)) by lia.
Qed.

(** Text without a dot behind its digits is not an IPv4 address. *)
Lemma no_v4 (a b : string) :
  Str.all (fun c => negb (Ascii.eqb "." c)) a = true -> colon_or_end b -> read_ipv4_addr (a +:+ b) = None.
Proof.
  intros A B.
  assert (N : read_given_char "." (digits 10 (a +:+ b)).2 = None).
  { induction a as [|c a IH].
    - change (EmptyString +:+ b) with b. destruct B as [->|[t ->]]; reflexivity.
    - change (String c a +:+ b) with (String c (a +:+ b)). cbn [Str.all digits] in *.
      apply andb_true_iff in A as [C A]. apply negb_true_iff in C.
      destruct (to_digit 10 c) eqn:D; [|cbn [snd read_given_char]; by rewrite C].
      specialize (IH A). destruct (digits 10 (a +:+ b)) as [l r]. exact IH. }
  unfold read_ipv4_addr. cbn [read_octets separated]. unfold read_number.
  destruct (digits 10 (a +:+ b)) as [l r]. cbn [snd] in N.
  destruct (_ || _); [done|]. cbn [snd]. by rewrite N.
Qed.

Lemma read_hex (g : Z) (rest : string) :
  0 <= g < 65536 -> colon_or_end rest -> read_number 16 65535 4 true (hex g +:+ rest) = Some (g, rest) /\
                                          read_ipv4_addr (hex g +:+ rest) = None.
Proof.
  intros [H N]%groups_read%andb_true_iff Cl. apply bool_decide_eq_true in H. split.
  - apply read_printed; [done|]. by apply colon_stops.
  - by apply no_v4.
Qed.

(** The groups behind the first one *)
Fixpoint colons (l : list Z) : string :=
  match l with [] => EmptyString | g :: l => ":" +:+ hex g +:+ colons l end.
Lemma show_groups_cons (g : Z) (l : list Z) : show_groups (g :: l) = hex g +:+ colons l.
Proof.
  unfold show_groups. revert g. induction l as [|x l IH]; intros g; cbn [map Str.join colons].
  - by rewrite str_app_nil_r.
  - specialize (IH x). cbn [map Str.join] in IH. by rewrite IH.
Qed.

(** What may follow a list of groups *)
Definition ends (s : string) : Prop := s = EmptyString \/ exists t, s = "::" +:+ t.
Lemma ends_colon (l : list Z) (s : string) : ends s -> colon_or_end (colons l +:+ s).
Proof.
  intros H. destruct l as [|g l].
  - change (colons [] +:+ s) with s. destruct H as [->|[t ->]]; [by left|right; by eexists].
  - right. by eexists.
Qed.

Lemma nothing_more (k i : nat) (s : string) : ends s -> read_groups k i s = ([], false, s).
Proof.
  destruct k as [|k]; [done|]. cbn [read_groups].
  assert (C : forall t, read_ipv4_addr (String ":" t) = None /\ read_number 16 65535 4 true (String ":" t) = None)
    by done.
  assert (D : read_ipv4_addr EmptyString = None /\ read_number 16 65535 4 true EmptyString = None) by done.
  intros [->|[t ->]]; destruct i; cbn [separated];
    try change (read_given_char ":" ("::" +:+ t)) with (Some (String ":" t));
    try change ("::" +:+ t) with (String ":" (String ":" t)); cbn [read_given_char];
    rewrite ?(proj1 (C _)), ?(proj2 (C _)), ?(proj1 D), ?(proj2 D); by destruct (1 <? S k)%nat.
Qed.

Lemma groups_after (k i : nat) (l : list Z) (s : string) :
  Forall (fun g => 0 <= g < 65536) l -> (length l <= k)%nat -> ends s ->
  read_groups k (S i) (colons l +:+ s) = (l, false, s).
Proof.
  intros F. revert k i. induction F as [|g l G F IH]; intros k i L E; [by apply nothing_more|].
  destruct k as [|k]; [cbn in L; lia|]. cbn [read_groups colons separated].
  destruct (read_hex g (colons l +:+ s) G (ends_colon _ _ E)) as [R N].
  rewrite !str_app_assoc. change (read_given_char ":" (":" +:+ ?t)) with (Some t). cbv beta iota.
  rewrite N. replace (if (1 <? S k)%nat then _ else _) with (@None (Z * string)) by (by destruct (1 <? S k)%nat).
  rewrite R, IH; [done|cbn in L; lia|done].
Qed.

Lemma groups_first (k : nat) (l : list Z) (s : string) :
  Forall (fun g => 0 <= g < 65536) l -> (length l <= k)%nat -> ends s ->
  read_groups k 0 (show_groups l +:+ s) = (l, false, s).
Proof.
  intros F L E. destruct F as [|g l G F]; [by apply nothing_more|].
  destruct k as [|k]; [cbn in L; lia|]. rewrite show_groups_cons, str_app_assoc. cbn [read_groups separated].
  destruct (read_hex g (colons l +:+ s) G (ends_colon _ _ E)) as [R N].
  rewrite N. replace (if (1 <? S k)%nat then _ else _) with (@None (Z * string)) by (by destruct (1 <? S k)%nat).
  rewrite R, groups_after; [done|done|cbn in L; lia|done].
Qed.

(** The longest run is one of zeros. *)
Definition zero_run (l : list Z) (r : nat * nat) : Prop :=
  (r.1 + r.2 <= length l)%nat /\ forall j, (r.1 <= j < r.1 + r.2)%nat -> l !! j = Some 0.

Lemma runs_zero (l p : list Z) (start len : nat) (best : nat * nat) :
  zero_run (p ++ l) best -> ((0 < len)%nat -> (start + len)%nat = length p /\ zero_run (p ++ l) (start, len)) ->
  zero_run (p ++ l) (runs l (length p) start len best).
Proof.
  revert p start len best. induction l as [|g l IH]; intros p start len best B Cur; [done|].
  cbn [runs]. replace (p ++ g :: l) with ((p ++ [g]) ++ l) in * by (by rewrite <- app_assoc).
  assert (Lp : S (length p) = length (p ++ [g])) by (rewrite length_app; cbn; lia).
  assert (At : ((p ++ [g]) ++ l) !! length p = Some g)
    by (rewrite <- app_assoc; by apply list_lookup_middle).
  destruct (Z.eqb_spec g 0) as [->|]; rewrite Lp; [|apply IH; [done|lia]].
  set (start' := if (len =? 0)%nat then length p else start).
  assert (N : (start' + S len)%nat = length (p ++ [0]) /\ zero_run ((p ++ [0]) ++ l) (start', S len)).
  { unfold start'. destruct len as [|len]; cbn [Nat.eqb].
    - split; [lia|]. split; cbn [fst snd]; [rewrite !length_app; cbn; lia|].
      intros j J. replace j with (length p) by lia. done.
    - destruct (Cur ltac:(lia)) as [E [Z1 Z2]]. split; [lia|]. split; cbn [fst snd] in *.
      + rewrite !length_app in *. cbn in *. lia.
      + intros j J. destruct (decide (j = length p)) as [->|]; [done|]. apply Z2. lia. }
  apply IH; [|done]. destruct (best.2 <? S len)%nat; [apply N|done].
Qed.
Lemma longest_zero (l : list Z) : zero_run l (longest l).
Proof. apply (runs_zero l [] 0 0 (0, 0)%nat); [split; cbn; [lia|intros; lia]|lia]. Qed.

Lemma zeros_between (l : list Z) (start len : nat) :
  zero_run l (start, len) -> l = take start l ++ replicate len 0 ++ drop (start + len) l.
Proof.
  intros [B Zs]. cbn [fst snd] in *. rewrite <- (take_drop start l) at 1. f_equal.
  rewrite <- drop_drop, <- (take_drop len (drop start l)) at 1. f_equal.
  apply list_eq. intros j. destruct (decide (j < len)%nat) as [J|J].
  - rewrite lookup_take_lt, lookup_drop by done. rewrite Zs by lia.
    symmetry. by apply lookup_replicate_2.
  - rewrite lookup_take_ge by lia. symmetry. apply lookup_ge_None_2. rewrite length_replicate. lia.
Qed.

(** An address in canonical form reads back. *)
Theorem parse_show (ip : IpAddr) :
  is_addr ip -> to_canonical ip = ip -> parse (show ip) = Some ip.
Proof.
  destruct ip as [n|n]; cbn [is_addr show to_canonical]; intros N Can.
  - unfold parse. rewrite <- (str_app_nil_r (show_v4 n)), read_v4 by done. done.
  - unfold show_v6. destruct (n / 2 ^ 32 =? 65535); [done|].
    pose proof (places_range 65536 8 n ltac:(lia)) as F.
    pose proof (value_places 65536 8 n ltac:(lia) ltac:(exact N)) as V.
    pose proof (longest_zero (segments n)) as Z. unfold segments in *.
    revert F V Z. generalize (places 65536 8 n), (length_places 65536 8 n). intros l Len F V Z.
    destruct (longest l) as [start len]. destruct (1 <? len)%nat eqn:L1.
    + pose proof (zeros_between _ _ _ Z) as Eq. destruct Z as [Bound _]. cbn [fst snd] in Bound. apply Nat.ltb_lt in L1.
      assert (Lh : length (take start l) = start) by (rewrite length_take; lia).
      assert (Lt : length (drop (start + len) l) = (8 - start - len)%nat) by (rewrite length_drop; lia).
      assert (Fh : Forall (fun g => 0 <= g < 65536) (take start l)) by (by apply Forall_take).
      assert (Ft : Forall (fun g => 0 <= g < 65536) (drop (start + len) l)) by (by apply Forall_drop).
      unfold parse. set (s := show_groups (take start l) +:+ "::" +:+ show_groups (drop (start + len) l)).
      assert (N4 : read_ipv4_addr s = None).
      { unfold s. destruct (take start l) as [|g h]; [done|]. rewrite show_groups_cons, str_app_assoc.
        apply Forall_cons in Fh as [G _]. apply read_hex; [done|]. apply ends_colon. right. by eexists. }
      rewrite N4. unfold read_ipv6_addr, s. rewrite groups_first; [|done|lia|right; by eexists].
      rewrite Lh. replace (start =? 8)%nat with false by (symmetry; apply Nat.eqb_neq; lia).
      change (read_given_char ":" ("::" +:+ ?t)) with (Some (":" +:+ t)). cbv beta iota.
      change (read_given_char ":" (":" +:+ ?t)) with (Some t). cbv beta iota.
      rewrite <- (str_app_nil_r (show_groups (drop (start + len) l))).
      rewrite groups_first; [|done|lia|by left]. rewrite Lt. cbn [fst snd Str.is_empty].
      replace (8 - start - (8 - start - len))%nat with len by lia. rewrite <- Eq, V. done.
    + unfold parse.
      destruct l as [|g l]; [done|].
      assert (N4 : read_ipv4_addr (show_groups (g :: l)) = None).
      { rewrite show_groups_cons, <- (str_app_nil_r (colons l)). apply Forall_cons in F as [G _].
        apply read_hex; [done|]. apply ends_colon. by left. }
      rewrite N4. unfold read_ipv6_addr. rewrite <- (str_app_nil_r (show_groups (g :: l))).
      rewrite groups_first; [|done|lia|by left]. rewrite Len. cbn [Nat.eqb fst snd Str.is_empty]. by rewrite V.
Qed.

End Ip.
