(* ===== verification/BTree.v ===== *)
(** * Maps with string keys in key order

    [BTreeMap<String, _>] of the standard library, as the list of its entries
    sorted by key: looking up, inserting and going through the entries, and what
    relates them. *)

From S2P Require Import Prelude.

Module BTree.

Definition t (A : Type) : Type := list (string * A).

Section Ops.
Context {A : Type}.
Implicit Types (k : string) (v : A) (m : t A).

(** [get] *)
Fixpoint get k m : option A :=
  match m with
  | [] => None
  | (k', v) :: m' => if String.eqb k k' then Some v else get k m'
  end.

Definition contains_key k m : bool := is_some_b (get k m).

(** [insert]: a present key gets the new value, a new one its place in the order *)
Fixpoint insert k v m : t A :=
  match m with
  | [] => [(k, v)]
  | (k', v') :: m' =>
      if String.eqb k k' then (k, v) :: m'
      else if String.ltb k k' then (k, v) :: (k', v') :: m'
      else (k', v') :: insert k v m'
  end.

(** [entry(k).or_insert(v)] as a map *)
Definition or_insert k v m : t A := if contains_key k m then m else insert k v m.

(** [*get_mut(k)? = v]: the value of a present key is replaced in place. *)
Fixpoint set_mut k v m : t A :=
  match m with
  | [] => []
  | (k', v') :: m' => if String.eqb k k' then (k', v) :: m' else (k', v') :: set_mut k v m'
  end.

(** [values], in key order *)
Definition values m : list A := map snd m.

Lemma get_insert k v k' m :
  get k' (insert k v m) = if String.eqb k' k then Some v else get k' m.
Proof.
  induction m as [|[x w] m IH]; cbn [insert get]; [done|].
  destruct (String.eqb_spec k x) as [<-|N]; cbn [get].
  - destruct (String.eqb_spec k' k); done.
  - destruct (String.ltb k x); cbn [get].
    + done.
    + rewrite IH. destruct (String.eqb_spec k' x) as [->|]; [|done].
      destruct (String.eqb_spec x k); congruence.
Qed.

Lemma get_or_insert k v k' m :
  get k' (or_insert k v m) =
  match get k' m with Some w => Some w | None => if String.eqb k' k then Some v else None end.
Proof.
  unfold or_insert, contains_key. destruct (get k m) as [w|] eqn:E; cbn [is_some_b].
  - destruct (get k' m) eqn:E'; [done|]. destruct (String.eqb_spec k' k); congruence.
  - rewrite get_insert. destruct (String.eqb_spec k' k) as [->|]; [by rewrite E|].
    by destruct (get k' m).
Qed.

(** What holds of all values survives inserting one. *)
Definition each (P : string -> A -> Prop) m : Prop := forall k v, (k, v) ∈ m -> P k v.

Lemma each_nil P : each P [].
Proof. intros k v H. by apply elem_of_nil in H. Qed.

Lemma each_insert P k v m : each P m -> P k v -> each P (insert k v m).
Proof.
  unfold each. intros H V. induction m as [|[x w] m IH]; cbn [insert].
  - intros k' v' [= -> ->]%list_elem_of_singleton. done.
  - assert (T : forall k v, (k, v) ∈ m -> P k v) by (intros; apply H; by right).
    destruct (String.eqb k x); [|destruct (String.ltb k x)];
      intros k' v' [[= -> ->]|M]%elem_of_cons; auto; apply H; by left.
Qed.

Lemma each_or_insert P k v m : each P m -> P k v -> each P (or_insert k v m).
Proof. unfold or_insert. destruct (contains_key k m); [done|]. apply each_insert. Qed.

Lemma elem_of_get k v m : get k m = Some v -> (k, v) ∈ m.
Proof.
  induction m as [|[x w] m IH]; cbn [get]; [done|].
  destruct (String.eqb_spec k x) as [->|]; [intros [= ->]; left|right; auto].
Qed.

(** Keys are not repeated. *)
Definition keys m : list string := map fst m.

Lemma elem_of_keys_insert k v m x : x ∈ keys (insert k v m) <-> x = k \/ x ∈ keys m.
Proof.
  unfold keys. induction m as [|[y w] m IH]; cbn [insert map fst].
  - rewrite list_elem_of_singleton. split; [by left|]. intros [?|H]; [done|]. by apply elem_of_nil in H.
  - destruct (String.eqb_spec k y) as [->|]; [|destruct (String.ltb k y)]; cbn [map fst];
      rewrite !elem_of_cons; [tauto|tauto|]. rewrite IH. tauto.
Qed.

Lemma length_insert k v m : (length (insert k v m) <= S (length m))%nat.
Proof.
  induction m as [|[y w] m IH]; cbn [insert length]; [lia|].
  destruct (String.eqb k y); [|destruct (String.ltb k y)]; cbn [length]; lia.
Qed.

Lemma length_or_insert k v m : (length (or_insert k v m) <= S (length m))%nat.
Proof. unfold or_insert. destruct (contains_key k m); [lia|apply length_insert]. Qed.

(** Writing through [get_mut] keeps the keys. *)
Lemma get_set_mut k v k' m :
  get k' (set_mut k v m) = if String.eqb k' k then ((fun _ => v) <$> get k m) else get k' m.
Proof.
  induction m as [|[x w] m IH]; cbn [set_mut get]; [by destruct (String.eqb k' k)|].
  destruct (String.eqb_spec k x) as [<-|N]; cbn [get].
  - destruct (String.eqb_spec k' k); done.
  - rewrite IH. destruct (String.eqb_spec k' x) as [->|]; [|done].
    destruct (String.eqb_spec x k); [congruence|done].
Qed.

Lemma keys_set_mut k v m : keys (set_mut k v m) = keys m.
Proof.
  unfold keys. induction m as [|[x w] m IH]; cbn [set_mut map fst]; [done|].
  destruct (String.eqb_spec k x) as [->|]; cbn [map fst]; [done|by rewrite IH].
Qed.

Lemma elem_of_set_mut k v k' v' m :
  (k', v') ∈ set_mut k v m -> (k' = k /\ v' = v) \/ (k', v') ∈ m.
Proof.
  induction m as [|[x w] m IH]; cbn [set_mut]; [auto|].
  destruct (String.eqb_spec k x) as [<-|]; intros [[= -> ->]|M]%elem_of_cons; auto.
  - right. by right.
  - right. by left.
  - destruct (IH M) as [?|?]; [by left|right; by right].
Qed.

End Ops.

End BTree.
