(* ===== verification/LiveImport.v ===== *)
(** * Imports of live television: errors, limits and times

    domains/live_tv/feed/imports/{error,limits,time,model}.rs: what the parsers of
    playlists and guides share.  What they take from outside the repository is the
    interface [Env]. *)

From S2P Require Import Prelude Json Ip.
Import Json.

Module LiveImport.

(** [ImportError] *)
Inductive ImportError :=
| Authority | Capacity | Cancelled | Deadline | Network | Format | Limit | Storage
| Indeterminate | Cleanup.

#[export] Instance ImportError_eq_dec : EqDecision ImportError.
Proof. solve_decision. Defined.

Definition category (e : ImportError) : string :=
  match e with
  | Authority => "authority"
  | Capacity => "capacity"
  | Cancelled => "cancelled"
  | Deadline => "deadline"
  | Network => "network"
  | Format => "format"
  | Limit => "limit"
  | Storage => "storage"
  | Indeterminate => "indeterminate"
  | Cleanup => "cleanup"
  end.

Definition MIB : Z := 1024 * 1024.
Definition PLAYLIST : Z := 8 * MIB.
Definition GUIDE : Z := 64 * MIB.
Definition XML : Z := 128 * MIB.
Definition RECORD : Z := 4096.
Definition CHANNELS : Z := 10000.
Definition PROGRAMMES : Z := 250000.
Definition EVENTS : Z := 8000000.

(** What a parsed URL tells its readers (the url crate): [port] is
    [port_or_known_default], [origin] its serialisation in ASCII. *)
Inductive Host := Domain (d : string) | Ipv4 (n : Z) | Ipv6 (n : Z).
Record Url := mk_url {
  scheme : string;
  host : option Host;
  fragment : option string;
  username : string;
  password : option string;
  path : string;
  query : option string;
  port : option Z;
  origin : string;
}.
Definition has_host (url : Url) : bool := is_some_b (host url).

(** The code outside the repository: the cancellation token and the clock, as the
    n-th check finds them; [Uuid::now_v7], the n-th id drawn; the reading of
    UUIDs; [serde_json::to_string]; SHA-256 of ring; the two readings of chrono,
    seconds and nanoseconds since the epoch; the url crate. *)
Class Env := {
  is_cancelled : nat -> bool;
  is_late : nat -> bool;
  now_v7 : nat -> Z;
  parse_uuid : string -> option Z;
  hyphenated : Z -> string;
  uuid_bytes : Z -> string;
  to_string : Value -> option string;
  sha256 : string -> string;
  parse_naive : string -> option (Z * Z);
  parse_zoned : string -> option (Z * Z);
  parse_url : string -> option Url;
}.

(** [Work], with the checks made and the ids drawn so far. *)
Record Work := mk_work {
  checks : nat;
  drawn : nat;
  plaintext : Z;
  ciphertext : Z;
}.

Section Env.
Context {E : Env}.

(** [Work::check] *)
Definition check (w : Work) : result Work ImportError :=
  if is_cancelled (checks w) then Err Cancelled
  else if is_late (checks w) then Err Deadline
  else Ok (mk_work (S (checks w)) (drawn w) (plaintext w) (ciphertext w)).

(** [Work::payload] *)
Definition payload (w : Work) (plain cipher : Z) : result Work ImportError :=
  let? w := check w in
  let? p := ok_or (checked_add64 (plaintext w) plain) Limit in
  let? c := ok_or (checked_add64 (ciphertext w) cipher) Limit in
  if (96 * MIB <? p) || (144 * MIB <? c) then Err Limit
  else Ok (mk_work (checks w) (drawn w) p c).

(** [Uuid::now_v7()] *)
Definition draw (w : Work) : Z * Work :=
  (now_v7 (drawn w), mk_work (checks w) (S (drawn w)) (plaintext w) (ciphertext w)).

(** The characters of a [str] *)
Fixpoint chars (s : string) : list Z :=
  let byte c := Z.of_nat (nat_of_ascii c) in
  match s with
  | EmptyString => []
  | String a t =>
      if byte a <? 128 then byte a :: chars t
      else match t with
      | String b u =>
          if byte a <? 224 then (byte a - 192) * 64 + (byte b - 128) :: chars u
          else match u with
          | String c v =>
              if byte a <? 240 then
                ((byte a - 224) * 64 + (byte b - 128)) * 64 + (byte c - 128) :: chars v
              else match v with
              | String d x =>
                  (((byte a - 240) * 64 + (byte b - 128)) * 64 + (byte c - 128)) * 64
                    + (byte d - 128) :: chars x
              | EmptyString => []
              end
          | EmptyString => []
          end
      | EmptyString => []
      end
  end.

Definition within (ranges : list (Z * Z)) (c : Z) : bool :=
  existsb (fun r => (r.1 <=? c) && (c <=? r.2)) ranges.

Definition legal : Z -> bool :=
  within [(9, 9); (10, 10); (13, 13); (32, 0xd7ff); (0xe000, 0xfffd); (0x10000, 0x10ffff)].

Definition text (value : string) (max : Z) : result unit ImportError :=
  if (max <? Str.len value) || existsb (fun c => negb (legal c)) (chars value) then Err Limit
  else Ok tt.

Definition json (value : Value) : result string ImportError :=
  let? value := ok_or (to_string value) Format in
  if RECORD <? Str.len value then Err Limit else Ok value.

(** time.rs *)
Definition UNCERTAIN : Z := 1.
Definition CONFLICT : Z := 2.
Definition OVERLAP : Z := 4.
Definition CLUMP : Z := 8.

(** [str::split_whitespace]; each word takes a byte of the fuel. *)
Fixpoint words (fuel : nat) (s : string) : list string :=
  match fuel with
  | O => []
  | S f =>
      match Str.first_token s with
      | None => []
      | Some w =>
          w :: words f (String.substring (String.length w) (String.length s) (Str.trim_start s))
      end
  end.
Definition split_whitespace (s : string) : list string := words (S (String.length s)) s.

(** A point in time, in nanoseconds; the filter leaves no leap seconds. *)
Definition nanos (t : Z * Z) : option Z :=
  if t.2 <? 1000000000 then Some (t.1 * 1000000000 + t.2) else None.

Definition is_zone (zone : string) : bool :=
  (Str.len zone =? 5)
  && match zone with
     | String c t => (Ascii.eqb c "+" || Ascii.eqb c "-") && Str.all Str.is_digit t
     | EmptyString => false
     end.

Definition instant (raw : option string) : option Z :=
  let! raw := raw in
  match split_whitespace raw with
  | [] => None
  | date :: rest =>
      if negb (Str.len date =? 14) || negb (Str.all Str.is_digit date) then None
      else match rest with
      | [] => let! t := parse_naive date in nanos t
      | [zone] =>
          if is_zone zone then let! t := parse_zoned (date +:+ " " +:+ zone) in nanos t else None
      | _ => None
      end
  end.

End Env.

(** model.rs *)
Record Channel := mk_channel {
  c_id : Z;
  c_key : string;
  c_guide : option string;
  c_metadata : Value;
  c_stream : string;
  c_logo : option string;
}.
Record Programme := mk_programme {
  p_id : Z;
  start : option Z;
  stop : option Z;
  flags : Z;
  p_metadata : Value;
}.
Record Guide := mk_guide {
  g_id : Z;
  g_metadata : Value;
  programmes : list Programme;
}.
Record SealedRow := mk_row {
  r_id : Z;
  r_guide : option Z;
  r_channel_key : option string;
  r_start : option Z;
  r_stop : option Z;
  r_flags : Z;
  r_metadata : string;
  r_stream : option string;
  r_logo : option string;
}.
Record Candidate := mk_candidate {
  snapshot : Z;
  manifest : string;
  cand_guides : list SealedRow;
  cand_channels : list SealedRow;
  cand_programmes : list SealedRow;
}.

End LiveImport.
