(* ===== verification/LiveGuide.v ===== *)
(** * Programme guides

    domains/live_tv/feed/imports/{xml_fields,xml}.rs: the records of an XMLTV
    guide, what is kept of them, and the loop over the events of the document.  The
    reader of quick-xml is outside the repository: a document is the list of what
    its read_event returns, up to the end or the first error. *)

From S2P Require Import Prelude F64 Json BTree LiveImport.
Import Json LiveImport.

Module LiveGuide.

(** [==] of [Value] *)
Definition number_eqb (a b : Number) : bool :=
  match a, b with
  | PosInt a, PosInt b | NegInt a, NegInt b => a =? b
  | Float a, Float b => F64.eqb a b
  | _, _ => false
  end.
Fixpoint value_eqb (a b : Value) {struct a} : bool :=
  match a, b with
  | Null, Null => true
  | Bool a, Bool b => Bool.eqb a b
  | Num a, Num b => number_eqb a b
  | Str a, Str b => String.eqb a b
  | Array l, Array l' =>
      (fix all l l' := match l, l' with
       | [], [] => true
       | x :: l, y :: l' => value_eqb x y && all l l'
       | _, _ => false
       end) l l'
  | Object m, Object m' =>
      (fix all m m' := match m, m' with
       | [], [] => true
       | (k, x) :: m, (k', y) :: m' => String.eqb k k' && value_eqb x y && all m m'
       | _, _ => false
       end) m m'
  | _, _ => false
  end.
Definition contains (l : list Value) (v : Value) : bool := existsb (value_eqb v) l.

(** [Value[key]], and writing to it *)
Definition index (key : string) (v : Value) : Value := unwrap_or (get key v) Null.
Definition set (key : string) (x : Value) (v : Value) : Value :=
  match v with Object m => Object (BTree.insert key x m) | _ => v end.

(** [json!] of an optional string *)
Definition opt_str (s : option string) : Value := match s with Some s => Str s | None => Null end.

(** ** xml_fields.rs *)

(** [Record] *)
Record Entry := mk_entry { key : string; programme : bool; metadata : Value }.

(** [find] of a present, non-empty attribute *)
Definition nonempty (s : option string) : option string :=
  let! s := s in if Str.is_empty s then None else Some s.

Section Env.
Context {E : Env}.

(** [Record::new] *)
Definition entry_new (name : string) (attrs : BTree.t string) : result Entry ImportError :=
  let programme := String.eqb name "programme" in
  let? key := ok_or (nonempty (BTree.get (if programme then "channel" else "id") attrs)) Format in
  let? _ := text key 512 in
  let metadata :=
    if programme then
      Object [("clumpidx", opt_str (BTree.get "clumpidx" attrs));
              ("start", opt_str (BTree.get "start" attrs));
              ("stop", opt_str (BTree.get "stop" attrs))]
    else Object [] in
  let? _ := json metadata in
  Ok (mk_entry key programme metadata).

(** [Record::field] *)
Definition field (r : Entry) (name : string) (value : Value) (max : Z)
  : result Entry ImportError :=
  let? object := ok_or (as_object (metadata r)) Format in
  let object := BTree.or_insert name (Array []) object in
  let? values := ok_or (match BTree.get name object with Some v => as_array v | None => None end)
                   Format in
  let? values :=
    if contains values value then Ok values
    else if max <=? Z.of_nat (length values) then Err Limit
    else Ok (values ++ [value]) in
  let metadata := Object (BTree.set_mut name (Array values) object) in
  let? _ := json metadata in
  Ok (mk_entry (key r) (programme r) metadata).

Definition flag (f : Z) (p : Programme) : Programme :=
  mk_programme (p_id p) (start p) (stop p) (Z.lor (flags p) f) (p_metadata p).

(** A declaration of the channel of a guide *)
Definition declare (guide : Guide) (declaration : Value) (w : Work)
  : result (Guide * Work) ImportError :=
  let? declarations := ok_or (as_array (index "declarations" (g_metadata guide))) Format in
  let? declarations :=
    if contains declarations declaration then Ok declarations
    else if 8 <=? Z.of_nat (length declarations) then Err Limit
    else Ok (declarations ++ [declaration]) in
  let m := set "declarations" (Array declarations) (g_metadata guide) in
  let m := set "undeclared" (Bool false) m in
  let m := set "ambiguous" (Bool (1 <? Z.of_nat (length declarations))) m in
  let? size := json m in
  let? w := payload w (Str.len size) 0 in
  Ok (mk_guide (g_id guide) m (programmes guide), w).

(** Start, stop and flags of a programme: an order that is not one is dropped. *)
Definition positions (metadata : Value) : option Z * option Z * Z :=
  let start := instant (as_str (index "start" metadata)) in
  let stop := instant (as_str (index "stop" metadata)) in
  let flags := if negb (is_some_b start) || negb (is_some_b stop) then UNCERTAIN else 0 in
  let '(start, stop, flags) :=
    match start, stop with
    | Some a, Some b => if b <=? a then (None, None, Z.lor flags UNCERTAIN) else (start, stop, flags)
    | _, _ => (start, stop, flags)
    end in
  let flags :=
    match index "clumpidx" metadata with Null => flags | _ => Z.lor flags CLUMP end in
  (start, stop, flags).

(** [save] *)
Definition save (r : Entry) (guides : BTree.t Guide) (dedup : BTree.t (list string)) (w : Work)
  : result (BTree.t Guide * BTree.t (list string) * Work) ImportError :=
  match BTree.get (key r) guides with
  | None => Ok (guides, dedup, w)
  | Some guide =>
      if negb (programme r) then
        let? (guide, w) := declare guide (metadata r) w in
        Ok (BTree.set_mut (key r) guide guides, dedup, w)
      else
        let? payload_text := json (metadata r) in
        let hash := sha256 payload_text in
        let seen := unwrap_or (BTree.get (key r) dedup) [] in
        if existsb (String.eqb hash) seen then Ok (guides, dedup, w)
        else
          let dedup := BTree.insert (key r) (hash :: seen) dedup in
          let '(start, stop, flags) := positions (metadata r) in
          let? w := payload w (Str.len payload_text) 0 in
          let '(id, w) := draw w in
          Ok (BTree.set_mut (key r)
                (mk_guide (g_id guide) (g_metadata guide)
                   (programmes guide ++ [mk_programme id start stop flags (metadata r)])) guides,
              dedup, w)
  end.

(** [a <= b] of optional times, and of the pairs the programmes are sorted by *)
Definition time_leb (a b : option Z) : bool :=
  match a, b with
  | None, _ => true
  | Some _, None => false
  | Some a, Some b => a <=? b
  end.
Definition time_eqb (a b : option Z) : bool := time_leb a b && time_leb b a.
Definition before (p q : Programme) : bool :=
  time_leb (start p) (start q)
  && (negb (time_eqb (start p) (start q)) || time_leb (stop p) (stop q)).

(** [sort_by_key], which is stable *)
Fixpoint place (p : Programme) (l : list Programme) : list Programme :=
  match l with
  | [] => [p]
  | q :: l' => if before p q then p :: q :: l' else q :: place p l'
  end.
Definition sort (l : list Programme) : list Programme := fold_right place [] l.

(** The loop of [ambiguity] over the sorted programmes *)
Record Sweep := mk_sweep {
  group : nat;
  max_end : option Z;
  component : nat;
  swept : list Programme;
}.

Definition start_at (l : list Programme) (i : nat) : option Z :=
  match l !! i with Some p => start p | None => None end.

Definition sweep_group (i : nat) (s : Sweep) : nat * list Programme :=
  let l := swept s in
  if (i =? 0)%nat || negb (time_eqb (start_at l i) (start_at l (i - 1))) then (i, l)
  else if is_some_b (start_at l i) then
    (group s, alter (flag CONFLICT) i (alter (flag CONFLICT) (group s) l))
  else (group s, l).

Definition sweep_step (i : nat) (s : Sweep) : Sweep :=
  let '(group, l) := sweep_group i s in
  match l !! i with
  | Some (mk_programme _ (Some start) (Some stop) _ _) =>
      if is_some_and (max_end s) (fun e => start <? e) then
        mk_sweep group (Z.max stop <$> max_end s) (component s)
          (alter (flag OVERLAP) i (alter (flag OVERLAP) (component s) l))
      else mk_sweep group (Some stop) i l
  | _ => mk_sweep group (max_end s) (component s) l
  end.

Fixpoint sweep (n i : nat) (s : Sweep) (w : Work) : result (Sweep * Work) ImportError :=
  match n with
  | O => Ok (s, w)
  | S n =>
      let? w := check w in
      sweep n (S i) (sweep_step i s) w
  end.

(** [ambiguity] *)
Definition ambiguity (guide : Guide) (w : Work) : result (Guide * Work) ImportError :=
  let sorted := sort (programmes guide) in
  let? (s, w) := sweep (length sorted) 0 (mk_sweep 0 None 0 sorted) w in
  Ok (mk_guide (g_id guide) (g_metadata guide) (swept s), w).

(** ** xml.rs *)

(** An attribute of quick-xml: its key, its raw value, its normalised value *)
Record Attr := mk_attr { a_key : string; a_value : string; normalized : option string }.

(** [Event], with what its accessors give *)
Inductive Event :=
| Start (name : string) (attrs : list (option Attr))
| End_ (name : string)
| Text (raw content : string)
| CData (content : string)
| GeneralRef (unescaped : option string)
| Decl (version : option string) (encoding : option (option string))
       (standalone : option (option bool)) (attrs : list (option Attr))
| DocType
| Comment (value : string)
| PI (value target : string)
| Empty_.

(** A call of read_event: the position of the reader before and after it *)
Record Read := mk_read { before_ : Z; event : Event; after : Z }.
(** The call that ends the document: the end of the input, or an error *)
Record Last := mk_last { last_before : Z; eof : bool; last_after : Z }.

Record Frame := mk_frame {
  f_name : string;
  f_attrs : BTree.t string;
  f_text : string;
  retain : bool;
  preserve : bool;
  f_lang : option string;
}.

Definition first : Z -> bool :=
  within [(58, 58); (95, 95); (65, 90); (97, 122); (0xc0, 0xd6); (0xd8, 0xf6); (0xf8, 0x2ff);
          (0x370, 0x37d); (0x37f, 0x1fff); (0x200c, 0x200d); (0x2070, 0x218f);
          (0x2c00, 0x2fef); (0x3001, 0xd7ff); (0xf900, 0xfdcf); (0xfdf0, 0xfffd);
          (0x10000, 0xeffff)].

Definition valid_name (value : string) : bool :=
  match chars value with
  | [] => false
  | c :: rest =>
      first c
      && forallb (fun c => first c || within [(45, 45); (46, 46); (48, 57); (0xb7, 0xb7);
                                              (0x300, 0x36f); (0x203f, 0x2040)] c) rest
  end.

(** [attributes] *)
Fixpoint attributes_go (attrs : list (option Attr)) (values : BTree.t string)
  : result (BTree.t string) ImportError :=
  match attrs with
  | [] => Ok values
  | attr :: rest =>
      let? attr := ok_or attr Format in
      if negb (valid_name (a_key attr)) || Str.contains_char "<" (a_value attr) then Err Format
      else
        let? value := ok_or (normalized attr) Format in
        if existsb (fun c => negb (legal c)) (chars value) then Err Format
        else if BTree.contains_key (a_key attr) values then Err Format
        else
          let values := BTree.insert (a_key attr) value values in
          if 64 <? Z.of_nat (length values) then Err Limit else attributes_go rest values
  end.
Definition attributes (attrs : list (option Attr)) : result (BTree.t string) ImportError :=
  attributes_go attrs [].

(** The white space of XML *)
Definition is_space (c : ascii) : bool :=
  Ascii.eqb c " " || Ascii.eqb c "009" || Ascii.eqb c "013" || Ascii.eqb c "010".
Definition blank (s : string) : bool := Str.all is_space s.

(** [append]; the head of the stack is its last frame. *)
Definition append (stack : list Frame) (value : string) : result (list Frame) ImportError :=
  if existsb (fun c => negb (legal c)) (chars value) then Err Format
  else if (length stack =? 1)%nat && negb (blank value) then Err Format
  else match stack with
  | frame :: rest =>
      if retain frame then
        if RECORD <? Z.min u64_max (Str.len (f_text frame) + Str.len value) then Err Limit
        else Ok (mk_frame (f_name frame) (f_attrs frame) (f_text frame +:+ value) (retain frame)
                   (preserve frame) (f_lang frame) :: rest)
      else Ok stack
  | [] => if negb (blank value) then Err Format else Ok []
  end.

(** The parts of [split([' ', '\t', '\r', '\n'])] *)
Fixpoint split_spaces (s : string) : list string :=
  match s with
  | EmptyString => [EmptyString]
  | String c t =>
      if is_space c then EmptyString :: split_spaces t
      else match split_spaces t with
           | piece :: pieces => String c piece :: pieces
           | [] => [String c EmptyString]
           end
  end.

(** The text of a closed element *)
Definition element_text (frame : Frame) : string :=
  if preserve frame then f_text frame
  else Str.join " " (filter (fun p => Str.is_empty p = false) (split_spaces (f_text frame))).

(** The variables of the loop *)
Record State := mk_state {
  stack : list Frame;
  record : option Entry;
  seen_root : bool;
  closed_root : bool;
  declaration : bool;
  declarations : Z;
  programme_count : Z;
  dedup : BTree.t (list string);
  found : BTree.t Guide;
}.

(** The white space mode and the language of an element *)
Definition preserve_of (attrs : BTree.t string) (parent : option Frame) : result bool ImportError :=
  match BTree.get "xml:space" attrs with
  | Some v =>
      if String.eqb v "preserve" then Ok true
      else if String.eqb v "default" then Ok false
      else Err Format
  | None => Ok (is_some_and parent preserve)
  end.
Definition lang_of (attrs : BTree.t string) (parent : option Frame) : option string :=
  option_or (option_or (BTree.get "lang" attrs) (BTree.get "xml:lang" attrs))
    (let! p := parent in f_lang p).

(** [channel] and [programme] below the root open a record. *)
Definition opens (depth : nat) (name : string) : bool :=
  (depth =? 1)%nat && (String.eqb name "channel" || String.eqb name "programme").
Definition open_record (name : string) (attrs : BTree.t string) (s : State)
  : result State ImportError :=
  if opens (length (stack s)) name then
    let channel := String.eqb name "channel" in
    let declarations := if channel then declarations s + 1 else declarations s in
    let count := if channel then programme_count s else programme_count s + 1 in
    if (20000 <? declarations) || (PROGRAMMES <? count) then Err Limit
    else
      let? entry := entry_new name attrs in
      Ok (mk_state (stack s)
            (if BTree.contains_key (key entry) (found s) then Some entry else record s)
            (seen_root s) (closed_root s) (declaration s) declarations count (dedup s) (found s))
  else Ok s.

(** The elements whose text is kept *)
Definition retained (depth : nat) (name : string) (parent : option Frame) (r : option Entry) : bool :=
  is_some_b r
  && (((depth =? 2)%nat
       && existsb (String.eqb name) ["display-name"; "title"; "sub-title"; "desc"; "category"])
      || ((depth =? 3)%nat && String.eqb name "value"
          && is_some_and parent (fun v => String.eqb (f_name v) "rating"))).

(** [Event::Start] *)
Definition start_event (name : string) (raw : list (option Attr)) (s : State)
  : result State ImportError :=
  let depth := length (stack s) in
  if negb (valid_name name) || closed_root s || (32 <=? depth)%nat then Err Format
  else
    let? attrs := attributes raw in
    if BTree.contains_key "xmlns" attrs then Err Format
    else if (depth =? 0)%nat
              && (seen_root s || negb (String.eqb name "tv") || BTree.contains_key "xmlns" attrs)
    then Err Format
    else
      let parent := head (stack s) in
      let? preserve := preserve_of attrs parent in
      let lang := lang_of attrs parent in
      let? _ := match lang with Some v => text v 64 | None => Ok tt end in
      let? s := open_record name attrs s in
      let keep := retained depth name parent (record s) in
      if is_some_and parent retain then Err Format
      else Ok (mk_state (mk_frame name attrs EmptyString keep preserve lang :: stack s) (record s)
                 (seen_root s || (depth =? 0)%nat) (closed_root s) (declaration s) (declarations s)
                 (programme_count s) (dedup s) (found s)).

(** The text of a closed element becomes a field of the record. *)
Definition retain_text (frame : Frame) (parent : option Frame) (r : option Entry)
  : result (option Entry) ImportError :=
  if retain frame then
    let value := element_text frame in
    match r with
    | None => Ok None
    | Some r =>
        let? r :=
          if String.eqb (f_name frame) "value" then
            let system := let! v := parent in BTree.get "system" (f_attrs v) in
            field r "ratings" (Object [("system", opt_str system); ("value", Str value)]) 8
          else
            field r (f_name frame) (Object [("lang", opt_str (f_lang frame)); ("value", Str value)])
              (if String.eqb (f_name frame) "category" then 8 else 4) in
        Ok (Some r)
    end
  else Ok r.

(** [Event::End] *)
Definition end_event (name : string) (s : State) (w : Work) : result (State * Work) ImportError :=
  match stack s with
  | [] => Err Format
  | frame :: rest =>
      if negb (String.eqb (f_name frame) name) then Err Format
      else
        let? r := retain_text frame (head rest) (record s) in
        let closes := opens (length rest) (f_name frame) in
        let? (found, dedup, w) :=
          match closes, r with
          | true, Some r => save r (found s) (dedup s) w
          | _, _ => Ok (found s, dedup s, w)
          end in
        Ok (mk_state rest (if closes then None else r) (seen_root s)
              (closed_root s || (length rest =? 0)%nat) (declaration s) (declarations s)
              (programme_count s) dedup found, w)
  end.

(** [Event::Decl] *)
Definition decl_event (before : Z) (version : option string) (encoding : option (option string))
    (standalone : option (option bool)) (raw : list (option Attr)) (s : State)
  : result State ImportError :=
  if seen_root s || declaration s || negb (before =? 0) then Err Format
  else
    let? version := ok_or version Format in
    if negb (String.eqb version "1.0") then Err Format
    else
      let? _ :=
        match encoding with
        | Some encoding =>
            let? encoding := ok_or encoding Format in
            if Str.eq_ignore_case encoding "utf-8" then Ok tt else Err Format
        | None => Ok tt
        end in
      let? _ := match standalone with Some None => Err Format | _ => Ok tt end in
      let? attrs := attributes raw in
      if existsb (fun key => negb (existsb (String.eqb key) ["version"; "encoding"; "standalone"]))
           (BTree.keys attrs)
         || is_some_and (BTree.get "standalone" attrs)
              (fun v => negb (existsb (String.eqb v) ["yes"; "no"])) then Err Format
      else Ok (mk_state (stack s) (record s) (seen_root s) (closed_root s) true (declarations s)
                 (programme_count s) (dedup s) (found s)).

Definition with_stack (s : State) (stack : list Frame) : State :=
  mk_state stack (record s) (seen_root s) (closed_root s) (declaration s) (declarations s)
    (programme_count s) (dedup s) (found s).

(** The match of the loop *)
Definition on_event (before : Z) (e : Event) (s : State) (w : Work)
  : result (State * Work) ImportError :=
  match e with
  | Start name attrs => let? s := start_event name attrs s in Ok (s, w)
  | End_ name => end_event name s w
  | Text raw content =>
      if Str.contains "]]>" raw then Err Format
      else let? stack := append (stack s) content in Ok (with_stack s stack, w)
  | CData content =>
      if (length (stack s) =? 0)%nat then Err Format
      else let? stack := append (stack s) content in Ok (with_stack s stack, w)
  | GeneralRef unescaped =>
      if (length (stack s) =? 0)%nat then Err Format
      else
        let? value := ok_or unescaped Format in
        let? stack := append (stack s) value in Ok (with_stack s stack, w)
  | Decl version encoding standalone attrs =>
      let? s := decl_event before version encoding standalone attrs s in Ok (s, w)
  | DocType => Err Format
  | Comment value =>
      let? _ := text value 65536 in
      if Str.ends_with "-" value then Err Format else Ok (s, w)
  | PI value target =>
      let? _ := text value 65536 in
      if negb (valid_name target) || Str.eq_ignore_case target "xml" then Err Format else Ok (s, w)
  | Empty_ => Err Format
  end.

(** The loop: [events] counts the calls made. *)
Fixpoint events_loop (reads : list Read) (last : Last) (events : Z) (s : State) (w : Work)
  : result (State * Work) ImportError :=
  let? w := check w in
  let events := events + 1 in
  if EVENTS <? events then Err Limit
  else match reads with
  | [] =>
      if negb (eof last) then Err Format
      else if 65536 <? sat_sub (last_after last) (last_before last) then Err Limit
      else if negb (seen_root s) || negb (closed_root s) || negb (length (stack s) =? 0)%nat
      then Err Format
      else Ok (s, w)
  | r :: reads =>
      if 65536 <? sat_sub (after r) (before_ r) then Err Limit
      else
        let? (s, w) := on_event (before_ r) (event r) s w in
        events_loop reads last events s w
  end.

(** The guides the channels name *)
Definition blank_guide (id : Z) (key : string) : Guide :=
  mk_guide id
    (Object [("ambiguous", Bool false); ("declarations", Array []); ("key", Str key);
             ("undeclared", Bool true)]) [].
Fixpoint guides_of (channels : list Channel) (guides : BTree.t Guide) (w : Work)
  : BTree.t Guide * Work :=
  match channels with
  | [] => (guides, w)
  | c :: rest =>
      match c_guide c with
      | None => guides_of rest guides w
      | Some key =>
          if BTree.contains_key key guides then guides_of rest guides w
          else
            let '(id, w) := draw w in
            guides_of rest (BTree.insert key (blank_guide id key) guides) w
      end
  end.

Fixpoint ambiguities (guides : BTree.t Guide) (w : Work) : result (BTree.t Guide * Work) ImportError :=
  match guides with
  | [] => Ok ([], w)
  | (key, guide) :: rest =>
      let? (guide, w) := ambiguity guide w in
      let? (rest, w) := ambiguities rest w in
      Ok ((key, guide) :: rest, w)
  end.

Definition initial (guides : BTree.t Guide) : State :=
  mk_state [] None false false false 0 0 [] guides.

(** [parse]; [reader] is what quick-xml reads of a text. *)
Definition parse (reader : string -> list Read * Last) (input : string) (channels : list Channel)
    (w : Work) : result (BTree.t Guide * Work) ImportError :=
  if XML <? Str.len input then Err Limit
  else
    let input := unwrap_or (Str.strip_prefix (Str.bytes [239; 187; 191]%nat) input) input in
    let '(guides, w) := guides_of channels [] w in
    let '(reads, last) := reader input in
    let? (s, w) := events_loop reads last 0 (initial guides) w in
    ambiguities (found s) w.

End Env.

End LiveGuide.
