(* ===== verification/LiveGuideProofs.v ===== *)
(** * Theorems on programme guides

    The sweep over a sorted guide against the comparison of all pairs, and what
    every guide that [parse] returns satisfies. *)

From stdpp Require Import sorting.
From S2P Require Import Prelude F64 Json BTree LiveImport LiveGuide.
Import Json LiveImport LiveGuide.

Module LiveGuideProofs.

(** ** The reference: every programme is compared with every other one *)

(** Two programmes that start at the same time, two that share a moment *)
Definition same_start (p q : Programme) : bool :=
  is_some_b (start p) && time_eqb (start p) (start q).
Definition meet (p q : Programme) : bool :=
  match start p, stop p, start q, stop q with
  | Some a, Some b, Some c, Some d => (a <? d) && (c <? b)
  | _, _, _, _ => false
  end.

(** Some other programme among the first [n] is related to the [i]-th, itself one
    of them. *)
Definition some_other (rel : Programme -> Programme -> bool) (l : list Programme) (n i : nat) : bool :=
  (i <? n)%nat
  && existsb (fun j => negb (j =? i)%nat
                       && match l !! i, l !! j with Some p, Some q => rel p q | _, _ => false end)
       (seq 0 n).

Definition mark (c o : bool) (p : Programme) : Programme :=
  mk_programme (p_id p) (start p) (stop p)
    (Z.lor (flags p) (Z.lor (if c then CONFLICT else 0) (if o then OVERLAP else 0))) (p_metadata p).

(** Conflicts among the first [n], overlaps among the first [m] *)
Definition annotate (l : list Programme) (n m : nat) : list Programme :=
  imap (fun i p => mark (some_other same_start l n i) (some_other meet l m i) p) l.

(** The order of a programme whose position is known *)
Definition ordered (p : Programme) : Prop :=
  match start p, stop p with Some a, Some b => a < b | _, _ => True end.

Lemma mark_none (p : Programme) : mark false false p = p.
Proof. destruct p. unfold mark; cbn. by rewrite Z.lor_0_r. Qed.

Lemma flag_conflict (c o : bool) (p : Programme) : flag CONFLICT (mark c o p) = mark true o p.
Proof.
  unfold flag, mark; cbn. f_equal. apply Z.bits_inj'. intros n _. rewrite !Z.lor_spec.
  destruct c, o; rewrite ?Z.bits_0; destruct (Z.testbit (flags p) n), (Z.testbit CONFLICT n),
    (Z.testbit OVERLAP n); reflexivity.
Qed.

Lemma flag_overlap (c o : bool) (p : Programme) : flag OVERLAP (mark c o p) = mark c true p.
Proof.
  unfold flag, mark; cbn. f_equal. apply Z.bits_inj'. intros n _. rewrite !Z.lor_spec.
  destruct c, o; rewrite ?Z.bits_0; destruct (Z.testbit (flags p) n), (Z.testbit CONFLICT n),
    (Z.testbit OVERLAP n); reflexivity.
Qed.

Lemma lookup_annotate (l : list Programme) (n m i : nat) :
  annotate l n m !! i
  = (fun p => mark (some_other same_start l n i) (some_other meet l m i) p) <$> (l !! i).
Proof. unfold annotate. by rewrite list_lookup_imap. Qed.

Lemma length_annotate (l : list Programme) (n m : nat) : length (annotate l n m) = length l.
Proof. apply length_imap. Qed.

Lemma start_annotate (l : list Programme) (n m i : nat) :
  start_at (annotate l n m) i = start_at l i.
Proof. unfold start_at. rewrite lookup_annotate. by destruct (l !! i). Qed.

Lemma some_other_iff (rel : Programme -> Programme -> bool) (l : list Programme) (n i : nat) :
  some_other rel l n i = true <->
  (i < n)%nat /\ exists j p q, (j < n)%nat /\ j <> i /\ l !! i = Some p /\ l !! j = Some q /\ rel p q = true.
Proof.
  unfold some_other. rewrite andb_true_iff, Nat.ltb_lt, existsb_exists. split.
  - intros [H (j & J & K)]. split; [done|]. apply in_seq in J.
    apply andb_true_iff in K as [N K]. apply negb_true_iff, Nat.eqb_neq in N.
    destruct (l !! i) as [p|]; [|done]. destruct (l !! j) as [q|] eqn:Q; [|done].
    exists j, p, q. repeat split; auto; lia.
  - intros [H (j & p & q & J & N & -> & P & R)]. split; [done|]. exists j.
    rewrite in_seq, P, R. split; [lia|]. by rewrite (proj2 (Nat.eqb_neq _ _) N).
Qed.

Lemma some_other_zero (rel : Programme -> Programme -> bool) (l : list Programme) (i : nat) :
  some_other rel l 0 i = false.
Proof. done. Qed.

Lemma annotate_zero (l : list Programme) : annotate l 0 0 = l.
Proof.
  apply list_eq. intros i. rewrite lookup_annotate, !some_other_zero.
  destruct (l !! i); cbn; [by rewrite mark_none|done].
Qed.

Lemma some_other_more (rel : Programme -> Programme -> bool) (l : list Programme) (n i : nat) :
  some_other rel l n i = true -> some_other rel l (S n) i = true.
Proof.
  rewrite !some_other_iff. intros (H & j & p & q & ? & ?). split; [lia|]. exists j, p, q.
  repeat split; try tauto; lia.
Qed.

Lemma some_other_pair (rel : Programme -> Programme -> bool) (l : list Programme) (n i j : nat) (p q : Programme) :
  (i < n)%nat -> (j < n)%nat -> i <> j -> l !! i = Some p -> l !! j = Some q -> rel p q = true ->
  some_other rel l n i = true.
Proof. intros. apply some_other_iff. split; [done|]. by exists j, p, q. Qed.

(** One programme more: what changes are the relations with it. *)
Section More.
Context (rel : Programme -> Programme -> bool) (sym : forall p q, rel p q = rel q p).
Context (l : list Programme) (n : nat) (q : Programme) (Q : l !! n = Some q).

Lemma some_other_new (i : nat) :
  some_other rel l (S n) i = true -> some_other rel l n i = false ->
  exists j p, (j < n)%nat /\ l !! j = Some p /\ rel p q = true /\ (i = j \/ i = n).
Proof using sym Q.
  rewrite some_other_iff. intros (H & j & p & r & J & D & P & R & T) F.
  destruct (decide (i = n)) as [->|]; [|destruct (decide (j = n)) as [->|]].
  - rewrite Q in P. injection P as <-. exists j, r. rewrite sym. repeat split; auto. lia.
  - rewrite Q in R. injection R as <-. exists i, p. repeat split; auto. lia.
  - assert (some_other rel l n i = true); [|congruence].
    eapply (some_other_pair rel l n i j p r); auto; lia.
Qed.

Lemma some_other_alone (i : nat) :
  (forall j p, (j < n)%nat -> l !! j = Some p -> rel p q = false) ->
  some_other rel l (S n) i = some_other rel l n i.
Proof using sym Q.
  intros A. destruct (some_other rel l n i) eqn:O; [by apply some_other_more|].
  apply not_true_is_false. intros T.
  destruct (some_other_new i T O) as (j & p & J & P & R & _). by rewrite (A j p J P) in R.
Qed.

Lemma some_other_joined (g i : nat) :
  some_other rel l (S n) n = true -> some_other rel l (S n) g = true ->
  (forall j p, (j < n)%nat -> l !! j = Some p -> rel p q = true ->
     j = g \/ some_other rel l n j = true) ->
  some_other rel l (S n) i = ((i =? n)%nat || (i =? g)%nat) || some_other rel l n i.
Proof using sym Q.
  intros N G A. destruct (Nat.eqb_spec i n) as [->|]; [done|].
  destruct (Nat.eqb_spec i g) as [->|]; [done|]. cbn [orb].
  destruct (some_other rel l n i) eqn:O; [by apply some_other_more|].
  apply not_true_is_false. intros T.
  destruct (some_other_new i T O) as (j & p & J & P & R & [->| ->]); [|done].
  destruct (A j p J P R) as [->|K]; [done|congruence].
Qed.
End More.

Lemma same_start_sym (p q : Programme) : same_start p q = same_start q p.
Proof.
  unfold same_start, time_eqb, time_leb. destruct (start p), (start q); cbn; try done.
  by rewrite andb_comm.
Qed.
Lemma meet_sym (p q : Programme) : meet p q = meet q p.
Proof. unfold meet. destruct (start p), (stop p), (start q), (stop q); try done. apply andb_comm. Qed.

(** Raising a flag at two places *)
Lemma annotate_conflict (l : list Programme) (n n' m g k : nat) :
  (forall i, some_other same_start l n' i
             = ((i =? k)%nat || (i =? g)%nat) || some_other same_start l n i) ->
  alter (flag CONFLICT) k (alter (flag CONFLICT) g (annotate l n m)) = annotate l n' m.
Proof.
  intros H. apply list_eq. intros i. rewrite lookup_annotate, H.
  destruct (Nat.eqb_spec i k) as [->|N].
  - rewrite list_lookup_alter_eq. destruct (decide (g = k)) as [->|].
    + rewrite list_lookup_alter_eq, lookup_annotate. destruct (l !! k); cbn; [|done].
      by rewrite !flag_conflict.
    + rewrite list_lookup_alter_ne, lookup_annotate by done. destruct (l !! k); cbn; [|done].
      by rewrite flag_conflict.
  - rewrite list_lookup_alter_ne by done. destruct (Nat.eqb_spec i g) as [->|].
    + rewrite list_lookup_alter_eq, lookup_annotate. destruct (l !! g); cbn; [|done].
      by rewrite flag_conflict.
    + rewrite list_lookup_alter_ne, lookup_annotate by done. done.
Qed.

Lemma annotate_overlap (l : list Programme) (n m m' g k : nat) :
  (forall i, some_other meet l m' i = ((i =? k)%nat || (i =? g)%nat) || some_other meet l m i) ->
  alter (flag OVERLAP) k (alter (flag OVERLAP) g (annotate l n m)) = annotate l n m'.
Proof.
  intros H. apply list_eq. intros i. rewrite lookup_annotate, H.
  destruct (Nat.eqb_spec i k) as [->|N].
  - rewrite list_lookup_alter_eq. destruct (decide (g = k)) as [->|].
    + rewrite list_lookup_alter_eq, lookup_annotate. destruct (l !! k); cbn; [|done].
      by rewrite !flag_overlap.
    + rewrite list_lookup_alter_ne, lookup_annotate by done. destruct (l !! k); cbn; [|done].
      by rewrite flag_overlap.
  - rewrite list_lookup_alter_ne by done. destruct (Nat.eqb_spec i g) as [->|].
    + rewrite list_lookup_alter_eq, lookup_annotate. destruct (l !! g); cbn; [|done].
      by rewrite flag_overlap.
    + rewrite list_lookup_alter_ne, lookup_annotate by done. done.
Qed.

(** ** The sort *)

Lemma time_leb_total (a b : option Z) : time_leb a b = true \/ time_leb b a = true.
Proof. destruct a, b; cbn; rewrite ?Z.leb_le; auto; lia. Qed.
Lemma time_leb_trans (a b c : option Z) :
  time_leb a b = true -> time_leb b c = true -> time_leb a c = true.
Proof. destruct a, b, c; cbn; rewrite ?Z.leb_le; try done; lia. Qed.
Lemma time_eqb_eq (a b : option Z) : time_eqb a b = true <-> a = b.
Proof.
  unfold time_eqb, time_leb. destruct a, b; cbn; rewrite ?andb_true_iff, ?Z.leb_le; split; try done; try lia.
  - intros ?. f_equal. lia.
  - intros [= ->]. lia.
Qed.

Definition le_programme (p q : Programme) : Prop := before p q = true.

Lemma before_total (p q : Programme) : before p q = true \/ before q p = true.
Proof.
  unfold before. destruct (time_eqb (start p) (start q)) eqn:E.
  - apply time_eqb_eq in E as ->. rewrite (proj2 (time_eqb_eq _ _) eq_refl). cbn [negb orb].
    assert (time_leb (start q) (start q) = true) as -> by (by destruct (time_leb_total (start q) (start q))).
    apply time_leb_total.
  - assert (time_eqb (start q) (start p) = false) as ->.
    { unfold time_eqb in *. by rewrite andb_comm. }
    cbn [negb orb]. rewrite !andb_true_r. apply time_leb_total.
Qed.

Lemma before_trans : Transitive le_programme.
Proof.
  unfold le_programme, before. intros p q r.
  rewrite !andb_true_iff, !orb_true_iff, !negb_true_iff.
  intros [A B] [C D]. split; [by eapply time_leb_trans|].
  destruct (time_eqb (start p) (start r)) eqn:E; [right|by left].
  apply time_eqb_eq in E. unfold time_eqb in B, D.
  assert (time_leb (start r) (start q) = true) as X by (by rewrite <- E).
  assert (time_leb (start q) (start p) = true) as Y by (by rewrite E).
  rewrite A, Y in B. rewrite C, X in D. cbn in B, D.
  destruct B as [?|B], D as [?|D]; try done. by eapply time_leb_trans.
Qed.

Lemma place_perm (p : Programme) (l : list Programme) : place p l ≡ₚ p :: l.
Proof.
  induction l as [|q l IH]; cbn [place]; [done|].
  destruct (before p q); [done|]. rewrite IH. apply Permutation_swap.
Qed.

Lemma sort_perm (l : list Programme) : sort l ≡ₚ l.
Proof. unfold sort. induction l as [|p l IH]; cbn [fold_right]; [done|]. by rewrite place_perm, IH. Qed.

Lemma place_sorted (p : Programme) (l : list Programme) :
  StronglySorted le_programme l -> StronglySorted le_programme (place p l).
Proof.
  induction l as [|q l IH]; cbn [place]; intros S; [by repeat constructor|].
  apply StronglySorted_cons in S as [F S]. destruct (before p q) eqn:B.
  - repeat constructor; auto. rewrite Forall_forall in F |- *.
    intros x X. eapply before_trans; eauto.
  - constructor; [auto|]. rewrite place_perm. constructor; [|done].
    destruct (before_total p q) as [?|?]; [congruence|done].
Qed.

Lemma sort_sorted (l : list Programme) : StronglySorted le_programme (sort l).
Proof. unfold sort. induction l; cbn [fold_right]; [constructor|]. by apply place_sorted. Qed.

Definition starts_sorted (l : list Programme) : Prop :=
  forall i j p q, (i < j)%nat -> l !! i = Some p -> l !! j = Some q ->
    time_leb (start p) (start q) = true.

Lemma sorted_starts (l : list Programme) : StronglySorted le_programme l -> starts_sorted l.
Proof.
  intros S i j p q I P Q.
  rewrite <- (take_drop_middle l i p P) in S.
  apply StronglySorted_app_1_r, StronglySorted_cons in S as [F _]. rewrite Forall_forall in F.
  assert (B : le_programme p q).
  { apply F. apply list_elem_of_lookup. exists (j - S i)%nat. rewrite lookup_drop.
    by replace (S i + (j - S i))%nat with j by lia. }
  unfold le_programme, before in B. by apply andb_true_iff in B as [? _].
Qed.

(** ** The sweep *)

Section Sweep.
Context (l : list Programme) (sorted : starts_sorted l) (ok : Forall ordered l).

Lemma starts_le (i j : nat) (p q : Programme) (a c : Z) :
  (i <= j)%nat -> l !! i = Some p -> l !! j = Some q -> start p = Some a -> start q = Some c -> a <= c.
Proof using sorted.
  intros I P Q A C. destruct (decide (i = j)) as [<-|]; [simplify_eq; lia|].
  assert (T : time_leb (start p) (start q) = true) by (apply (sorted i j); auto; lia).
  rewrite A, C in T. cbn in T. lia.
Qed.

Lemma order_of (i : nat) (p : Programme) (a b : Z) :
  l !! i = Some p -> start p = Some a -> stop p = Some b -> a < b.
Proof using ok.
  intros P A B. rewrite Forall_lookup in ok. specialize (ok i p P). unfold ordered in ok.
  by rewrite A, B in ok.
Qed.

(** [group] is a programme that starts with the last one. *)
Definition group_ok (n g : nat) : Prop :=
  (0 < n)%nat -> (g < n)%nat /\ start_at l g = start_at l (n - 1).

Lemma sweep_group_annotates (n m : nat) (s : Sweep) (q : Programme) :
  l !! n = Some q -> swept s = annotate l n m -> group_ok n (group s) ->
  exists g, sweep_group n s = (g, annotate l (S n) m) /\ group_ok (S n) g.
Proof using sorted.
  intros Q W G. unfold sweep_group. rewrite W, !start_annotate.
  assert (Sn : start_at l n = start q) by (unfold start_at; by rewrite Q).
  assert (Hq : forall p, same_start p q = true -> start p = start q /\ is_some_b (start q) = true).
  { unfold same_start. intros p [H1 H2%time_eqb_eq]%andb_true_iff. by rewrite <- H2. }
  assert (A : (forall j p, (j < n)%nat -> l !! j = Some p -> same_start p q = false) ->
              annotate l n m = annotate l (S n) m).
  { intros A. apply list_eq. intros i. rewrite !lookup_annotate.
    by rewrite (some_other_alone same_start same_start_sym l n q Q i A). }
  destruct (Nat.eqb_spec n 0) as [->|N]; cbn [orb].
  { exists O. split; [f_equal; apply A; lia|]. intros _. split; [lia|done]. }
  destruct G as [G1 G2]; [lia|].
  destruct (time_eqb (start_at l n) (start_at l (n - 1))) eqn:T; cbn [negb].
  - apply time_eqb_eq in T. destruct (is_some_b (start_at l n)) eqn:K.
    + exists (group s). split; [f_equal|intros _; split; [lia|]].
      * destruct (lookup_lt_is_Some_2 l (group s)) as [p P].
        { apply lookup_lt_Some in Q. lia. }
        assert (R : same_start p q = true).
        { assert (start p = start q) as X
            by (rewrite <- Sn, T, <- G2; unfold start_at; by rewrite P).
          unfold same_start. rewrite X, <- Sn, K. by apply time_eqb_eq. }
        apply annotate_conflict. intros i.
        apply (some_other_joined same_start same_start_sym l n q Q).
        -- eapply (some_other_pair _ _ _ n (group s) q p); auto; try lia. by rewrite same_start_sym.
        -- eapply (some_other_pair _ _ _ (group s) n p q); auto; lia.
        -- intros j r J Rj Rr. destruct (decide (j = group s)) as [|D]; [by left|right].
           eapply (some_other_pair _ _ _ j (group s) r p); auto.
           apply Hq in Rr as [X Y]. apply Hq in R as [X' _].
           unfold same_start. rewrite X, X', Y. by apply time_eqb_eq.
      * by rewrite G2, <- T, Nat.sub_succ, Nat.sub_0_r.
    + exists (group s). split; [f_equal|intros _; split; [lia|]].
      * apply A. intros j p J P. apply not_true_is_false. intros X%Hq. destruct X as [_ X].
        by rewrite <- Sn, K in X.
      * by rewrite G2, <- T, Nat.sub_succ, Nat.sub_0_r.
  - exists n. split; [f_equal|intros _; split; [lia|by rewrite Nat.sub_succ, Nat.sub_0_r]].
    apply A. intros j p J P. apply not_true_is_false. intros X%Hq. destruct X as [X Y].
    assert (time_eqb (start_at l n) (start_at l (n - 1)) = true); [|congruence].
    destruct (lookup_lt_is_Some_2 l (n - 1)) as [r R].
    { apply lookup_lt_Some in Q. lia. }
    unfold start_at. rewrite Q, R. unfold time_eqb. apply andb_true_iff. split.
    + rewrite <- X. destruct (decide (j = n - 1)%nat) as [->|].
      * rewrite R in P. injection P as <-. destruct (time_leb_total (start r) (start r)); done.
      * apply (sorted j (n - 1)%nat); auto. lia.
    + apply (sorted (n - 1)%nat n); auto. lia.
Qed.

(** [component] is the first of the programmes that overlap one after another, and
    [max_end] the last stop of all: whatever is behind [component] is flagged. *)
Definition component_ok (n c : nat) (m : option Z) : Prop :=
  match m with
  | None => forall i p a b, (i < n)%nat -> l !! i = Some p -> start p = Some a -> stop p = Some b -> False
  | Some e =>
      exists pc a b k pk ak,
        ((c < n)%nat /\ l !! c = Some pc /\ start pc = Some a /\ stop pc = Some b) /\
        ((k < n)%nat /\ l !! k = Some pk /\ start pk = Some ak /\ stop pk = Some e) /\
        (forall i p s t, (i < n)%nat -> l !! i = Some p -> start p = Some s -> stop p = Some t ->
           t <= e /\ ((i < c)%nat -> t <= a) /\ ((c < i)%nat -> some_other meet l n i = true)) /\
        (e = b \/ some_other meet l n c = true)
  end.

Lemma meet_iff (p q : Programme) :
  meet p q = true <->
  exists a b c d, (start p = Some a /\ stop p = Some b /\ start q = Some c /\ stop q = Some d) /\ a < d /\ c < b.
Proof.
  unfold meet. destruct (start p), (stop p), (start q), (stop q); try (split; [done|intros (?&?&?&?&(?&?&?&?)&?); done]).
  rewrite andb_true_iff, !Z.ltb_lt. split.
  - intros [? ?]. eauto 10.
  - intros (?&?&?&?&(?&?&?&?)&?). simplify_eq. done.
Qed.

Lemma component_skip (n c : nat) (m : option Z) (q : Programme) :
  l !! n = Some q -> (start q = None \/ stop q = None) -> component_ok n c m -> component_ok (S n) c m.
Proof.
  intros Q U. unfold component_ok. destruct m as [e|].
  - intros (pc & a & b & k & pk & ak & (?&?&?&?) & (?&?&?&?) & all & F).
    exists pc, a, b, k, pk, ak. split; [split; [lia|done]|]. split; [split; [lia|done]|].
    split; [|destruct F; [by left|right; by apply some_other_more]].
    intros i p s t I P A B. destruct (decide (i = n)) as [->|].
    { rewrite Q in P. injection P as <-. destruct U; congruence. }
    destruct (all i p s t) as (?&?&?); auto; [lia|]. repeat split; auto. intros. apply some_other_more. auto.
  - intros none i p a b I P A B. destruct (decide (i = n)) as [->|].
    { rewrite Q in P. injection P as <-. destruct U; congruence. }
    apply (none i p a b); auto. lia.
Qed.

Lemma component_new (n c : nat) (m : option Z) (q : Programme) (s t : Z) :
  l !! n = Some q -> start q = Some s -> stop q = Some t -> is_some_and m (fun e => s <? e) = false ->
  component_ok n c m ->
  (forall j p, (j < n)%nat -> l !! j = Some p -> meet p q = false) /\ component_ok (S n) n (Some t).
Proof using sorted ok.
  intros Q A B N H.
  assert (K : forall i p a b, (i < n)%nat -> l !! i = Some p -> start p = Some a -> stop p = Some b -> b <= s).
  { intros i p a b I P X Y. destruct m as [e|]; cbn in N, H.
    - destruct H as (?&?&?&?&?&?&_&_&R&_). destruct (R i p a b) as (?&_); auto.
      apply Z.ltb_ge in N. lia.
    - by destruct (H i p a b). }
  split.
  - intros j p J P. apply not_true_is_false. intros (x & y & z & u & (X&Y&Z&U) & ? & ?)%meet_iff.
    specialize (K j p x y J P X Y). simplify_eq. lia.
  - pose proof (order_of n q s t Q A B). exists q, s, t, n, q, s.
    split; [split; [lia|done]|]. split; [split; [lia|done]|]. split; [|by left].
    intros i p x y I P X Y. destruct (decide (i = n)) as [->|].
    { rewrite Q in P. injection P as <-. simplify_eq. split; [lia|]. split; intros; lia. }
    assert (y <= s) by (apply (K i p x y); auto; lia). repeat split; intros; lia.
Qed.

Lemma component_join (n c : nat) (e : Z) (q : Programme) (s t : Z) :
  l !! n = Some q -> start q = Some s -> stop q = Some t -> s < e -> component_ok n c (Some e) ->
  (forall i, some_other meet l (S n) i
             = ((i =? n)%nat || (i =? c)%nat) || some_other meet l n i) /\
  component_ok (S n) c (Some (Z.max t e)).
Proof using sorted ok.
  intros Q A B L (pc & a & b & k & pk & ak & (C&PC&AC&BC) & (K&PK&AK&BK) & H & F).
  pose proof (order_of n q s t Q A B) as O.
  assert (N : some_other meet l (S n) n = true).
  { apply (some_other_pair _ _ _ n k q pk); auto; try lia. apply meet_iff. exists s, t, ak, e.
    assert (ak <= s) by (apply (starts_le k n pk q); auto; lia). repeat split; auto; lia. }
  assert (G : some_other meet l (S n) c = true).
  { destruct F as [->|F]; [|by apply some_other_more].
    apply (some_other_pair _ _ _ c n pc q); auto; try lia. apply meet_iff. exists a, b, s, t.
    assert (a <= s) by (apply (starts_le c n pc q); auto; lia). repeat split; auto; lia. }
  assert (J : forall i, some_other meet l (S n) i
             = ((i =? n)%nat || (i =? c)%nat) || some_other meet l n i).
  { intros i. apply (some_other_joined meet meet_sym l n q Q); auto.
    intros j p J P (x & y & z & u & (X&Y&Z&U) & V & W)%meet_iff.
    destruct (H j p x y J P X Y) as (_ & H1 & H2). simplify_eq.
    destruct (lt_eq_lt_dec j c) as [[D| ->]|D]; [|by left|right; auto].
    specialize (H1 D). assert (a <= s) by (apply (starts_le c n pc q); auto; lia). lia. }
  split; [done|]. cbn. exists pc, a, b.
  assert (X : exists k' pk' ak', (k' < S n)%nat /\ l !! k' = Some pk' /\ start pk' = Some ak'
                                 /\ stop pk' = Some (Z.max t e)).
  { destruct (Z.max_spec t e) as [[? ->]|[? ->]]; [exists k, pk, ak|exists n, q, s]; repeat split; auto; lia. }
  destruct X as (k' & pk' & ak' & X). exists k', pk', ak'.
  split; [repeat split; auto; lia|]. split; [done|]. split; [|by right].
  intros i p x y I P X1 Y1. destruct (decide (i = n)) as [->|].
  - rewrite Q in P. simplify_eq. repeat split; auto; intros; lia.
  - destruct (H i p x y) as (?&?&?); auto; [lia|]. repeat split; auto; [lia|].
    intros. apply some_other_more. auto.
Qed.

Definition sweep_ok (n : nat) (s : Sweep) : Prop :=
  swept s = annotate l n n /\ group_ok n (group s) /\ component_ok n (component s) (max_end s).

Lemma sweep_step_ok (n : nat) (s : Sweep) :
  (n < length l)%nat -> sweep_ok n s -> sweep_ok (S n) (sweep_step n s).
Proof using sorted ok.
  intros [q Q]%lookup_lt_is_Some_2 (W & G & C). unfold sweep_step.
  destruct (sweep_group_annotates n n s q Q W G) as (g & -> & G').
  rewrite lookup_annotate, Q. cbn [fmap option_fmap option_map mark].
  destruct (start q) as [a|] eqn:A; [destruct (stop q) as [b|] eqn:B|].
  - destruct (is_some_and (max_end s) (fun e => a <? e)) eqn:M.
    + destruct (max_end s) as [e|]; [|done]. cbn in M. apply Z.ltb_lt in M.
      destruct (component_join n (component s) e q a b Q A B M C) as [J C'].
      split; [by apply annotate_overlap|done].
    + destruct (component_new n (component s) (max_end s) q a b Q A B M C) as [J C'].
      split; [|done]. cbn. apply list_eq. intros i. rewrite !lookup_annotate.
      by rewrite (some_other_alone meet meet_sym l n q Q i J).
  - split; [|split; [done|]]; cbn; [|eapply component_skip; eauto].
    apply list_eq. intros i. rewrite !lookup_annotate.
    rewrite (some_other_alone meet meet_sym l n q Q i); [done|].
    intros j p _ _. unfold meet. rewrite A, B. by destruct (start p), (stop p).
  - split; [|split; [done|]]; cbn; [|eapply component_skip; eauto].
    apply list_eq. intros i. rewrite !lookup_annotate.
    rewrite (some_other_alone meet meet_sym l n q Q i); [done|].
    intros j p _ _. unfold meet. rewrite A. by destruct (start p), (stop p).
Qed.

Lemma sweep_annotates `{E : Env} (k n : nat) (s s' : Sweep) (w w' : Work) :
  (n + k)%nat = length l -> sweep_ok n s -> sweep k n s w = Ok (s', w') ->
  swept s' = annotate l (length l) (length l).
Proof using sorted ok.
  revert n s w. induction k as [|k IH]; intros n s w L I; cbn [sweep].
  - intros [= <- <-]. destruct I as [-> _]. by replace n with (length l) by lia.
  - destruct (check w) as [w1|]; [|done]. apply IH; [lia|]. apply sweep_step_ok; [lia|done].
Qed.

End Sweep.

Lemma sweep_ok_initial (l : list Programme) : sweep_ok l 0 (mk_sweep 0 None 0 l).
Proof.
  split; [by rewrite annotate_zero|]. split; [intros ?; lia|]. intros i p a b I. lia.
Qed.

(** The result of the sweep is that of comparing all pairs. *)
Lemma ambiguity_annotates `{E : Env} (guide guide' : Guide) (w w' : Work) :
  Forall ordered (programmes guide) -> ambiguity guide w = Ok (guide', w') ->
  g_id guide' = g_id guide /\ g_metadata guide' = g_metadata guide /\
  programmes guide' = annotate (sort (programmes guide)) (length (programmes guide))
                        (length (programmes guide)).
Proof.
  intros O. unfold ambiguity.
  destruct (sweep _ _ _ _) as [[s w1]|] eqn:S; [|done]. intros [= <- <-]. cbn.
  split; [done|]. split; [done|].
  rewrite <- (Permutation_length (sort_perm (programmes guide))).
  apply (sweep_annotates (sort (programmes guide)) (sorted_starts _ (sort_sorted _))) in S; auto.
  - by rewrite sort_perm.
  - apply sweep_ok_initial.
Qed.

(** ** What a guide that was read satisfies *)

(** A programme as [save] makes it, before the sweep *)
Definition base_flags (p : Programme) : Z :=
  Z.lor (if is_some_b (start p) && is_some_b (stop p) then 0 else UNCERTAIN)
        (match index "clumpidx" (p_metadata p) with Null => 0 | _ => CLUMP end).
Definition raw (p : Programme) : Prop := ordered p /\ flags p = base_flags p.

Section Read.
Context {E : Env}.

Lemma positions_raw (id : Z) (metadata : Value) (a b : option Z) (f : Z) :
  positions metadata = (a, b, f) -> raw (mk_programme id a b f metadata).
Proof.
  unfold positions, raw, ordered, base_flags. cbn.
  destruct (instant (as_str (index "start" metadata))) as [s|],
    (instant (as_str (index "stop" metadata))) as [t|]; cbn;
    [destruct (t <=? s) eqn:L; dk_bool|..];
    intros [= <- <- <-]; (split; [done || lia|]);
    destruct (index "clumpidx" metadata); reflexivity.
Qed.

(** The digest that identifies a programme *)
Definition digest (p : Programme) : option string := sha256 <$> to_string (p_metadata p).

(** How a guide may speak of its channel *)
Definition declared (m : Value) : Prop :=
  exists l, index "declarations" m = Array l /\ (length l <= 8)%nat /\
    index "undeclared" m = Bool (length l =? 0)%nat /\
    index "ambiguous" m = Bool (1 <? Z.of_nat (length l)).

Definition guide_ok (dedup : BTree.t (list string)) (key : string) (g : Guide) : Prop :=
  declared (g_metadata g) /\ Forall raw (programmes g) /\
  exists l, map digest (programmes g) = map Some l /\ NoDup l /\
    forall h, h ∈ l -> h ∈ unwrap_or (BTree.get key dedup) [].

Lemma index_set (k k' : string) (v m : Value) (o : list (string * Value)) :
  m = Object o -> index k (set k' v m) = if String.eqb k k' then v else index k m.
Proof.
  intros ->. unfold index, set, Json.get. change Json.lookup with (@BTree.get Value).
  rewrite BTree.get_insert. by destruct (String.eqb k k').
Qed.

Lemma declared_object (m : Value) : declared m -> exists o, m = Object o.
Proof. intros (l & H & _). destruct m; try discriminate H. eauto. Qed.

Lemma declare_ok (g g' : Guide) (v : Value) (w w' : Work) :
  declared (g_metadata g) -> declare g v w = Ok (g', w') ->
  declared (g_metadata g') /\ programmes g' = programmes g.
Proof.
  intros D H. destruct (declared_object _ D) as [o O]. destruct D as (l & L & N & U & A).
  unfold declare in H. rewrite L in H. cbn [ok_or as_array] in H.
  destruct (contains l v) eqn:C;
    [|destruct (8 <=? Z.of_nat (length l)) eqn:B; [discriminate H|]]; cbn -[set] in H;
    (destruct (json _); [|discriminate H]); (destruct (payload _ _ _) as [?|]; [|discriminate H]);
    injection H as <- <-; (split; [|done]).
  - exists l. rewrite O. cbn -[BTree.insert]. unfold index, Json.get.
    change Json.lookup with (@BTree.get Value). rewrite !BTree.get_insert. cbn.
    repeat split; auto. destruct l; [discriminate C|done].
  - exists (l ++ [v]). rewrite O. cbn -[BTree.insert]. unfold index, Json.get.
    change Json.lookup with (@BTree.get Value). rewrite !BTree.get_insert. cbn.
    dk_bool. rewrite !length_app. cbn. repeat split; auto; [lia|].
    by destruct l.
Qed.

Lemma save_ok (r : Entry) (found found' : BTree.t Guide) (dedup dedup' : BTree.t (list string))
    (w w' : Work) :
  BTree.each (guide_ok dedup) found -> save r found dedup w = Ok (found', dedup', w') ->
  BTree.each (guide_ok dedup') found' /\ BTree.keys found' = BTree.keys found.
Proof.
  intros A H. unfold save in H. destruct (BTree.get (key r) found) as [g|] eqn:G; [|by simplify_eq].
  pose proof (A _ _ (BTree.elem_of_get _ _ _ G)) as (D & R & l & L & N & S).
  destruct (negb (programme r)).
  - destruct (declare g (metadata r) w) as [[g' w1]|] eqn:C; [|done]. injection H as <- <- <-.
    apply declare_ok in C as [C P]; [|done]. split; [|apply BTree.keys_set_mut].
    intros k h [[-> ->]|K]%BTree.elem_of_set_mut; [|by apply A].
    split; [done|]. rewrite P. split; [done|]. by exists l.
  - destruct (json (metadata r)) as [t|] eqn:J; [|done].
    destruct (existsb _ _) eqn:X; [by simplify_eq|].
    destruct (positions (metadata r)) as [[a b] f] eqn:P.
    destruct (payload w (Str.len t) 0) as [w1|]; [|done].
    destruct (draw w1) as [id w2]. injection H as <- <- <-.
    split; [|apply BTree.keys_set_mut].
    assert (T : sha256 <$> to_string (metadata r) = Some (sha256 t)).
    { unfold json in J. destruct (to_string (metadata r)) as [x|]; [|done]. cbn in J.
      destruct (RECORD <? Str.len x); [done|]. by injection J as ->. }
    set (seen := unwrap_or (BTree.get (key r) dedup) []) in *.
    assert (Sub : forall k h, h ∈ unwrap_or (BTree.get k dedup) [] ->
              h ∈ unwrap_or (BTree.get k (BTree.insert (key r) (sha256 t :: seen) dedup)) []).
    { intros k h. rewrite BTree.get_insert. destruct (String.eqb_spec k (key r)) as [->|]; [|done].
      by right. }
    intros k g' K. apply BTree.elem_of_set_mut in K as [[-> ->]|K].
    + split; [done|]. split; [apply Forall_app; split; [done|]; constructor; [|done]; by apply positions_raw|].
      exists (l ++ [sha256 t]). cbn. rewrite !map_app, L. cbn. unfold digest at 1. cbn. rewrite T.
      split; [done|]. split.
      * apply NoDup_app. split; [done|]. split; [|apply NoDup_singleton].
        intros h Hl Ht. apply list_elem_of_singleton in Ht as ->. apply S in Hl.
        apply not_true_iff_false in X. apply X. apply existsb_exists. exists (sha256 t).
        split; [by apply list_elem_of_In|apply String.eqb_refl].
      * intros h [Hl|Hl]%elem_of_app; [by apply Sub, S|]. apply list_elem_of_singleton in Hl as ->.
        rewrite BTree.get_insert, String.eqb_refl. cbn. by left.
    + destruct (A _ _ K) as (D' & R' & l' & L' & N' & S').
      split; [done|]. split; [done|]. exists l'. split; [done|]. split; [done|]. auto.
Qed.

(** The other events leave the guides alone. *)
Definition same_found (s s' : State) : Prop := found s' = found s /\ dedup s' = dedup s.

Lemma open_record_found (name : string) (attrs : BTree.t string) (s s' : State) :
  open_record name attrs s = Ok s' -> same_found s s'.
Proof. unfold open_record. intros H. succeed H; subst; split; reflexivity. Qed.

Lemma start_event_found (name : string) (attrs : list (option Attr)) (s s' : State) :
  start_event name attrs s = Ok s' -> same_found s s'.
Proof.
  unfold start_event. intros H. succeed H; subst.
  match goal with X : open_record _ _ _ = _ |- _ => apply open_record_found in X as [F D] end.
  by split.
Qed.

Lemma decl_event_found (before : Z) version encoding standalone attrs (s s' : State) :
  decl_event before version encoding standalone attrs s = Ok s' -> same_found s s'.
Proof. unfold decl_event. intros H. succeed H; subst; split; reflexivity. Qed.

Definition state_ok (keys : list string) (s : State) : Prop :=
  BTree.each (guide_ok (dedup s)) (found s) /\ BTree.keys (found s) = keys.

Lemma state_ok_same (keys : list string) (s s' : State) :
  same_found s s' -> state_ok keys s -> state_ok keys s'.
Proof. intros [F D]. unfold state_ok. by rewrite F, D. Qed.

Lemma on_event_ok (keys : list string) (before : Z) (e : Event) (s s' : State) (w w' : Work) :
  state_ok keys s -> on_event before e s w = Ok (s', w') -> state_ok keys s'.
Proof.
  intros I H. destruct e; cbn in H; succeed H; subst; try done;
    try (eapply state_ok_same; [|exact I]; first
      [by eapply start_event_found|by eapply decl_event_found|split; reflexivity]).
  unfold end_event in H. destruct (stack s) as [|frame rest]; [done|].
  destruct (negb _); [done|]. destruct (retain_text _ _ _) as [r|]; [|done].
  destruct (match opens (length rest) (f_name frame), r with
            | true, Some r => save r (found s) (dedup s) w
            | _, _ => Ok (found s, dedup s, w)
            end) as [[[found' dedup'] w1]|] eqn:X; [|done]. injection H as <- <-.
  destruct I as [I K]. unfold state_ok. cbn.
  destruct (opens _ _), r as [r|]; try (injection X as <- <- <-; done).
  apply save_ok in X as [X Y]; [|done]. split; [done|]. by etransitivity.
Qed.

Lemma events_loop_ok (keys : list string) (reads : list Read) (last : Last) (n : Z) (s s' : State)
    (w w' : Work) :
  state_ok keys s -> events_loop reads last n s w = Ok (s', w') -> state_ok keys s'.
Proof.
  revert n s w. induction reads as [|r reads IH]; intros n s w I H; cbn [events_loop] in H;
    succeed H; subst; [done|].
  eapply IH; [|exact H]. by eapply on_event_ok.
Qed.

(** The programmes of all guides are counted. *)
Definition total (m : BTree.t Guide) : nat :=
  sum_list_with (fun g => length (programmes g)) (BTree.values m).

#[local] Arguments total _ : simpl never.

Definition pending (s : State) : Z :=
  match record s with Some r => if programme r then 1 else 0 | None => 0 end.
Definition count_ok (s : State) : Prop :=
  Z.of_nat (total (found s)) + pending s <= programme_count s <= PROGRAMMES.

Lemma total_set_mut (k : string) (g g' : Guide) (m : BTree.t Guide) :
  BTree.get k m = Some g ->
  (total (BTree.set_mut k g' m) + length (programmes g) = total m + length (programmes g'))%nat.
Proof.
  unfold total, BTree.values. induction m as [|[x y] m IH]; cbn [BTree.get]; [done|].
  cbn [BTree.set_mut]. destruct (String.eqb k x); cbn [map snd sum_list_with].
  - intros [= ->]. lia.
  - intros H. specialize (IH H). lia.
Qed.

Lemma save_total (r : Entry) (found found' : BTree.t Guide) (dedup dedup' : BTree.t (list string))
    (w w' : Work) :
  save r found dedup w = Ok (found', dedup', w') ->
  Z.of_nat (total found') <= Z.of_nat (total found) + (if programme r then 1 else 0).
Proof.
  unfold save. destruct (BTree.get (key r) found) as [g|] eqn:G.
  2: { intros [= <- <- <-]. destruct (programme r); lia. }
  destruct (programme r); cbn [negb].
  - destruct (json (metadata r)) as [t|]; [|done].
    destruct (existsb _ _); [intros [= <- <- <-]; lia|].
    destruct (positions (metadata r)) as [[a b] f].
    destruct (payload w (Str.len t) 0) as [w1|]; [|done]. unfold draw. intros [= <- <- <-].
    match goal with |- context [BTree.set_mut _ ?g' _] => pose proof (total_set_mut (key r) g g' found G) as T end.
    cbn [programmes] in T. rewrite length_app in T. cbn [length] in T. lia.
  - destruct (declare g (metadata r) w) as [[g' w1]|] eqn:D; [|done]. intros [= <- <- <-].
    pose proof (total_set_mut (key r) g g' found G) as T.
    assert (length (programmes g') = length (programmes g)).
    { revert D. unfold declare. intros D. succeed D; subst; done. }
    lia.
Qed.

Lemma entry_new_programme (name : string) (attrs : BTree.t string) (r : Entry) :
  entry_new name attrs = Ok r -> programme r = String.eqb name "programme".
Proof. unfold entry_new. intros H. succeed H; by subst. Qed.

Lemma field_programme (r r' : Entry) (name : string) (v : Value) (max : Z) :
  field r name v max = Ok r' -> programme r' = programme r.
Proof. unfold field. intros H. succeed H; by subst. Qed.

Lemma open_record_count (name : string) (attrs : BTree.t string) (s s' : State) :
  count_ok s -> open_record name attrs s = Ok s' -> count_ok s'.
Proof.
  unfold open_record, count_ok, pending. intros I H.
  destruct (opens _ _) eqn:O; [|by injection H as <-].
  destruct (_ || _) eqn:B; [done|]. destruct (entry_new name attrs) as [r|] eqn:N; [|done].
  apply ok_inj in H as <-. cbn. apply entry_new_programme in N.
  apply andb_true_iff in O as [_ O].
  destruct (String.eqb_spec name "channel") as [->|]; cbn in N, O; dk_bool.
  - destruct (BTree.contains_key _ _); [rewrite N|];
      destruct (record s) as [[? [] ?]|]; cbn in *; lia.
  - rewrite O in N. destruct (BTree.contains_key _ _); [rewrite N|];
      destruct (record s) as [[? [] ?]|]; cbn in *; lia.
Qed.

Lemma start_event_count (name : string) (attrs : list (option Attr)) (s s' : State) :
  count_ok s -> start_event name attrs s = Ok s' -> count_ok s'.
Proof.
  unfold start_event. intros I H. succeed H; subst.
  match goal with X : open_record _ _ _ = _ |- _ => apply open_record_count in X; [|exact I]; exact X end.
Qed.

Lemma decl_event_count (before : Z) version encoding standalone attrs (s s' : State) :
  count_ok s -> decl_event before version encoding standalone attrs s = Ok s' -> count_ok s'.
Proof. unfold decl_event. intros I H. succeed H; subst; exact I. Qed.

Lemma retain_text_programme (frame : Frame) (parent : option Frame) (r r' : option Entry) :
  retain_text frame parent r = Ok r' ->
  match r, r' with
  | Some a, Some b => programme b = programme a
  | None, None => True
  | _, _ => False
  end.
Proof.
  unfold retain_text. intros H.
  destruct (retain frame); [|injection H as <-; by destruct r].
  destruct r as [r|]; [|by injection H as <-].
  destruct (String.eqb _ "value").
  - destruct (field _ _ _ _) eqn:F; [|done]. injection H as <-. by eapply field_programme.
  - destruct (field _ _ _ _) eqn:F; [|done]. injection H as <-. by eapply field_programme.
Qed.

Lemma on_event_count (before : Z) (e : Event) (s s' : State) (w w' : Work) :
  count_ok s -> on_event before e s w = Ok (s', w') -> count_ok s'.
Proof.
  intros I H. destruct e; cbn in H; succeed H; subst; try done;
    try (by eapply start_event_count); try (by eapply decl_event_count).
  unfold end_event in H. destruct (stack s) as [|frame rest]; [done|].
  destruct (negb _); [done|].
  destruct (retain_text _ _ _) as [r|] eqn:R; [|done]. apply retain_text_programme in R.
  destruct (match opens (length rest) (f_name frame), r with
            | true, Some r => save r (found s) (dedup s) w
            | _, _ => Ok (found s, dedup s, w)
            end) as [[[found' dedup'] w1]|] eqn:X; [|done]. apply ok_inj in H as [= <- <-].
  unfold count_ok, pending in *. cbn.
  destruct (opens _ _), r as [r|].
  - apply save_total in X. destruct (record s) as [r0|]; [|done]. rewrite R in X.
    destruct (programme r0); lia.
  - injection X as <- <- <-. destruct (record s); [done|]. lia.
  - injection X as <- <- <-. destruct (record s) as [r0|]; [|done]. by rewrite R.
  - injection X as <- <- <-. by destruct (record s).
Qed.

Lemma events_loop_count (reads : list Read) (last : Last) (n : Z) (s s' : State) (w w' : Work) :
  count_ok s -> events_loop reads last n s w = Ok (s', w') -> count_ok s'.
Proof.
  revert n s w. induction reads as [|r reads IH]; intros n s w I H; cbn [events_loop] in H;
    succeed H; subst; [done|].
  eapply IH; [|exact H]. by eapply on_event_count.
Qed.

(** The guides a list of channels names *)
Lemma guides_of_ok (channels : list Channel) (guides guides' : BTree.t Guide) (w w' : Work)
    (named : string -> Prop) :
  guides_of channels guides w = (guides', w') ->
  BTree.each (guide_ok []) guides -> (forall k, k ∈ BTree.keys guides -> named k) ->
  (forall c k, c ∈ channels -> c_guide c = Some k -> named k) ->
  BTree.each (guide_ok []) guides' /\ (forall k, k ∈ BTree.keys guides' -> named k) /\
  (length guides' <= length guides + length channels)%nat.
Proof.
  revert guides w. induction channels as [|c rest IH]; intros guides w; cbn [guides_of length].
  - intros [= <- <-]. split; [done|]. split; [done|]. lia.
  - intros H G K C.
    assert (C' : forall c k, c ∈ rest -> c_guide c = Some k -> named k)
      by (intros c' k' ?; apply C; by right).
    destruct (c_guide c) as [k|] eqn:B; [destruct (BTree.contains_key k guides) eqn:T|].
    + destruct (IH _ _ H) as (?&?&?); auto. split; [done|]. split; [done|]. lia.
    + unfold draw in H. destruct (IH _ _ H) as (?&?&L); auto.
      * apply BTree.each_insert; [done|]. split; [exists []; repeat split; cbn; lia|]. split; [constructor|].
        exists []. split; [done|]. split; [constructor|]. intros h Hh. by apply elem_of_nil in Hh.
      * intros x [->|X]%BTree.elem_of_keys_insert; [|auto]. apply (C c k); [by left|done].
      * split; [done|]. split; [done|].
        pose proof (BTree.length_insert k (blank_guide (now_v7 (drawn w)) k) guides). lia.
    + destruct (IH _ _ H) as (?&?&?); auto. split; [done|]. split; [done|]. lia.
Qed.

Lemma total_insert_empty (k : string) (g : Guide) (m : BTree.t Guide) :
  programmes g = [] -> (total (BTree.insert k g m) <= total m)%nat.
Proof.
  intros G. unfold total, BTree.values. induction m as [|[x y] m IH]; cbn [BTree.insert].
  - cbn. rewrite G. done.
  - destruct (String.eqb k x); [|destruct (String.ltb k x)]; cbn [map snd sum_list_with];
      rewrite ?G; cbn [length]; lia.
Qed.

Lemma guides_of_empty (channels : list Channel) (guides guides' : BTree.t Guide) (w w' : Work) :
  guides_of channels guides w = (guides', w') -> total guides = 0%nat -> total guides' = 0%nat.
Proof.
  revert guides w. induction channels as [|c rest IH]; intros guides w; cbn [guides_of].
  - by intros [= <- <-].
  - intros H T. destruct (c_guide c) as [k|]; [|by eapply IH].
    destruct (BTree.contains_key k guides); [by eapply IH|].
    unfold draw in H. eapply IH; [exact H|].
    pose proof (total_insert_empty k (blank_guide (now_v7 (drawn w)) k) guides eq_refl). lia.
Qed.

(** The guide with its programmes in order and compared with each other *)
Definition finish (g : Guide) : Guide :=
  mk_guide (g_id g) (g_metadata g)
    (annotate (sort (programmes g)) (length (programmes g)) (length (programmes g))).

Lemma total_finish (m : BTree.t Guide) : total (map (fun p => (p.1, finish p.2)) m) = total m.
Proof.
  unfold total, BTree.values. induction m as [|[x y] m IH]; [done|]. cbn [map snd sum_list_with].
  rewrite IH. unfold finish at 1. cbn [programmes]. rewrite length_annotate.
  by rewrite (Permutation_length (sort_perm (programmes y))).
Qed.

Lemma ambiguities_finish (guides guides' : BTree.t Guide) (w w' : Work) :
  ambiguities guides w = Ok (guides', w') ->
  BTree.each (fun _ g => Forall ordered (programmes g)) guides ->
  guides' = map (fun p => (p.1, finish p.2)) guides.
Proof.
  revert guides' w. induction guides as [|[k g] guides IH]; intros guides' w; cbn [ambiguities map].
  - by intros [= <- <-].
  - intros H O. destruct (ambiguity g w) as [[g1 w1]|] eqn:A; [|done].
    destruct (ambiguities guides w1) as [[rest w2]|] eqn:R; [|done]. injection H as <- <-.
    cbn. f_equal.
    + apply ambiguity_annotates in A as (I & M & P); [|by apply (O k g); left].
      f_equal. destruct g1. cbn in *. by subst.
    + eapply IH; [exact R|]. intros k' g' Hg. apply (O k' g'). by right.
Qed.

End Read.

(** ** The theorem *)

(** Whether two programmes share their start, or some moment of their time *)
Definition conflicting (p q : Programme) : Prop := start p <> None /\ start p = start q.
Definition overlapping (p q : Programme) : Prop :=
  exists a b c d, start p = Some a /\ stop p = Some b /\ start q = Some c /\ stop q = Some d /\
    a < d /\ c < b.

(** The flags of a programme of a guide mean what they say. *)
Definition annotated (l : list Programme) (i : nat) (p : Programme) : Prop :=
  0 <= flags p <= 15 /\ ordered p /\
  (Z.testbit (flags p) 0 = true <-> start p = None \/ stop p = None) /\
  (Z.testbit (flags p) 1 = true <-> exists j q, j <> i /\ l !! j = Some q /\ conflicting p q) /\
  (Z.testbit (flags p) 2 = true <-> exists j q, j <> i /\ l !! j = Some q /\ overlapping p q) /\
  (Z.testbit (flags p) 3 = true <-> index "clumpidx" (p_metadata p) <> Null).

Lemma some_other_annotated (rel : Programme -> Programme -> bool) (R : Programme -> Programme -> Prop)
    (l l' : list Programme) (i : nat) (p : Programme) :
  (forall p q, rel p q = true <-> R p q) ->
  (forall p q a b c d, rel p q = rel (mark a b p) (mark c d q)) ->
  (forall j, exists a b, l' !! j = mark a b <$> (l !! j)) ->
  l' !! i = Some p ->
  some_other rel l (length l) i = true <-> exists j q, j <> i /\ l' !! j = Some q /\ R p q.
Proof.
  intros HR HM HL P. rewrite some_other_iff.
  destruct (HL i) as (a & b & Hi). rewrite P in Hi.
  destruct (l !! i) as [p0|] eqn:P0; [|done]. injection Hi as ->. split.
  - intros [_ (j & x & y & J & N & X & Y & T)]. simplify_eq.
    destruct (HL j) as (c & d & Hj). rewrite Y in Hj. exists j, (mark c d y).
    split; [done|]. split; [done|]. apply HR. by rewrite <- HM.
  - intros (j & q & N & Q & T). split; [by eapply lookup_lt_Some|].
    destruct (HL j) as (c & d & Hj). rewrite Q in Hj. destruct (l !! j) as [q0|] eqn:Q0; [|done].
    injection Hj as ->. exists j, p0, q0. repeat split; auto.
    + by eapply lookup_lt_Some.
    + apply HR in T. by rewrite <- HM in T.
Qed.

Lemma marked_bits (p : Programme) (c o : bool) :
  flags p = base_flags p ->
  0 <= flags (mark c o p) <= 15 /\
  (Z.testbit (flags (mark c o p)) 0 = true <-> start p = None \/ stop p = None) /\
  Z.testbit (flags (mark c o p)) 1 = c /\ Z.testbit (flags (mark c o p)) 2 = o /\
  (Z.testbit (flags (mark c o p)) 3 = true <-> index "clumpidx" (p_metadata p) <> Null).
Proof.
  intros F. unfold mark, base_flags in *. cbn -[Z.testbit]. rewrite F. clear F.
  assert (N : forall v : Value, v <> Null <-> match v with Null => false | _ => true end = true)
    by (intros []; split; congruence).
  rewrite N. clear N.
  destruct (index "clumpidx" (p_metadata p)), (start p), (stop p), c, o; cbn;
    repeat split; try done; try lia; auto; by intros [?|?].
Qed.

Lemma annotate_annotated (l : list Programme) (i : nat) (p : Programme) :
  Forall raw l -> annotate l (length l) (length l) !! i = Some p ->
  annotated (annotate l (length l) (length l)) i p.
Proof.
  intros R P. set (n := length l) in *.
  assert (HL : forall j, exists a b, annotate l n n !! j = mark a b <$> (l !! j)).
  { intros j. rewrite lookup_annotate. eauto. }
  pose proof (some_other_annotated same_start conflicting l (annotate l n n) i p) as C.
  pose proof (some_other_annotated meet overlapping l (annotate l n n) i p) as O.
  fold n in C, O.
  assert (C' : some_other same_start l n i = true <->
               exists j q, j <> i /\ annotate l n n !! j = Some q /\ conflicting p q).
  { apply C; auto. intros x y. unfold same_start, conflicting. rewrite andb_true_iff, time_eqb_eq.
    destruct (start x); cbn; intuition congruence. }
  assert (O' : some_other meet l n i = true <->
               exists j q, j <> i /\ annotate l n n !! j = Some q /\ overlapping p q).
  { apply O; auto. intros x y. rewrite meet_iff. unfold overlapping. split.
    - intros (a & b & c & d & (?&?&?&?) & ?). by exists a, b, c, d.
    - intros (a & b & c & d & ?&?&?&?&?). by exists a, b, c, d. }
  unfold annotated. rewrite <- C', <- O'. clear C O C' O'.
  rewrite lookup_annotate in P. destruct (l !! i) as [p0|] eqn:P0; [|done]. injection P as <-.
  rewrite Forall_lookup in R. destruct (R i p0 P0) as [D F].
  generalize (some_other same_start l n i), (some_other meet l n i). intros c o.
  destruct (marked_bits p0 c o F) as (B & B0 & B1 & B2 & B3).
  split; [exact B|]. split; [exact D|]. split; [exact B0|]. split; [by rewrite B1|].
  split; [by rewrite B2|exact B3].
Qed.

Lemma annotate_sorted (l : list Programme) (n m : nat) :
  StronglySorted le_programme l -> StronglySorted le_programme (annotate l n m).
Proof.
  intros O. unfold annotate.
  assert (G : forall f : nat -> Programme -> Programme,
            (forall i p, start (f i p) = start p /\ stop (f i p) = stop p) ->
            StronglySorted le_programme (imap f l)); [|by apply G].
  induction O as [|p l O IH A]; intros f H; [constructor|]. rewrite imap_cons. constructor.
  - apply IH. intros i q. apply (H (S i) q).
  - apply Forall_lookup. intros i q Q. rewrite list_lookup_imap in Q.
    destruct (l !! i) as [r|] eqn:R; [|done]. injection Q as <-. rewrite Forall_lookup in A.
    specialize (A i r R). unfold le_programme, before in *.
    destruct (H 0%nat p) as [-> ->]. cbn. destruct (H (S i) r) as [E1 E2].
    unfold compose. by rewrite E1, E2.
Qed.

Lemma digest_annotate (E : Env) (l : list Programme) (n m : nat) :
  map digest (annotate l n m) = map digest l.
Proof.
  unfold annotate. change (map digest) with (fmap (M := list) digest).
  rewrite fmap_imap. rewrite <- (imap_const digest l). by apply imap_ext.
Qed.

(** C38. An imported guide is one that a channel names; its programmes are in order,
    pairwise different, in time when their position is known, and flagged exactly
    when their position is not, when another one starts with them, when another
    one overlaps them, and when the document says that they are part of a clump:
    the sweep finds what the comparison of all pairs finds. *)
Theorem imported_guides_are_annotated (E : Env) (reader : string -> list Read * Last)
    (input : string) (channels : list Channel) (guides : BTree.t Guide) (w w' : Work) :
  parse reader input channels w = Ok (guides, w') ->
  (length guides <= length channels)%nat /\ Z.of_nat (total guides) <= PROGRAMMES /\
  forall k g, (k, g) ∈ guides ->
    (exists c, c ∈ channels /\ c_guide c = Some k) /\
    declared (g_metadata g) /\
    StronglySorted le_programme (programmes g) /\
    NoDup (map digest (programmes g)) /\
    forall i p, programmes g !! i = Some p -> annotated (programmes g) i p.
Proof.
  unfold parse. destruct (XML <? Str.len input); [done|].
  destruct (guides_of channels [] w) as [guides0 w0] eqn:G.
  destruct (reader _) as [reads last].
  destruct (events_loop reads last 0 (initial guides0) w0) as [[s w1]|] eqn:L; [|done].
  intros A. set (named k := exists c, c ∈ channels /\ c_guide c = Some k).
  destruct (guides_of_ok channels [] guides0 w w0 named G) as (O & K & N).
  { apply BTree.each_nil. }
  { intros k Hk. by apply elem_of_nil in Hk. }
  { intros c k ? ?. by exists c. }
  pose proof L as Count.
  apply events_loop_count in Count as [B1 B2].
  2: { pose proof (guides_of_empty channels [] guides0 w w0 G eq_refl) as T.
       unfold count_ok. change (found (initial guides0)) with guides0. rewrite T.
       unfold PROGRAMMES. cbn. lia. }
  apply (events_loop_ok (BTree.keys guides0)) in L as [F Keys]; [|by split].
  apply ambiguities_finish in A.
  2: { intros k g Hg. destruct (F k g Hg) as (_ & R & _). cbn.
       apply (Forall_impl raw _ _ R). intros p [Hp _]. exact Hp. }
  subst guides. split.
  { rewrite length_map. assert (T : length (BTree.keys (found s)) = length (BTree.keys guides0)) by (by rewrite Keys).
    unfold BTree.keys in T. rewrite !length_map in T. cbn in N. lia. }
  split.
  { rewrite total_finish. unfold pending in B1. destruct (record s) as [r|]; [destruct (programme r)|]; lia. }
  intros k g [[k0 g0] [E0 Hg]]%list_elem_of_fmap. cbn in E0. injection E0 as -> ->.
  destruct (F k0 g0 Hg) as (D & R & l & Dl & Nd & _).
  assert (Perm : sort (programmes g0) ≡ₚ programmes g0) by apply sort_perm.
  unfold finish. cbn [g_metadata programmes]. rewrite <- (Permutation_length Perm).
  split; [|split; [done|]].
  - apply K. rewrite <- Keys. unfold BTree.keys. apply list_elem_of_fmap. by exists (k0, g0).
  - split; [apply annotate_sorted, sort_sorted|]. split.
    + rewrite digest_annotate. change (map digest) with (fmap (M := list) digest).
      rewrite Perm. change (digest <$> programmes g0) with (map digest (programmes g0)).
      rewrite Dl. change (map Some l) with (Some <$> l). apply (NoDup_fmap_2 Some). exact Nd.
    + intros i p. apply annotate_annotated. by rewrite Perm.
Qed.

(** A guide with one channel *)
Fixpoint show (v : Value) : string :=
  match v with
  | Str s => "s" +:+ s
  | Array l => fold_right (fun x r => show x +:+ r) "." l
  | Object m => fold_right (fun p r => p.1 +:+ show p.2 +:+ r) "." m
  | _ => "-"
  end.
Definition sample_env : Env :=
  {| is_cancelled := fun _ => false; is_late := fun _ => false; now_v7 := Z.of_nat;
     parse_uuid := fun _ => None; hyphenated := Dec.print; uuid_bytes := Dec.print;
     to_string := fun v => Some (show v); sha256 := fun s => s;
     parse_naive := fun s => let! n := Dec.parse_digits u64_max s in Some (n, 0);
     parse_zoned := fun _ => None; parse_url := fun _ => None |}.
Definition sample_attr (k v : string) : option Attr := Some (mk_attr k v (Some v)).
Definition sample_programme (start stop : string) : list Event :=
  [Start "programme" [sample_attr "channel" "one"; sample_attr "start" start; sample_attr "stop" stop];
   Start "title" []; Text "News" "News"; End_ "title"; End_ "programme"].
Definition sample_events : list Event :=
  [Start "tv" []; Start "channel" [sample_attr "id" "one"]; End_ "channel"]
  ++ sample_programme "00000000000030" "00000000000040"
  ++ sample_programme "00000000000010" "00000000000020"
  ++ sample_programme "00000000000010" "00000000000020"
  ++ sample_programme "00000000000015" "00000000000017"
  ++ sample_programme "00000000000030" "soon"
  ++ sample_programme "00000000000050" "00000000000050"
  ++ [End_ "tv"].
Definition sample_reader (_ : string) : list Read * Last :=
  (map (fun e => mk_read 0 e 0) sample_events, mk_last 0 true 0).
Definition sample_channel : Channel := mk_channel 7 "k" (Some "one") Null "http://x" None.
Definition sample_guides : result (BTree.t Guide * Work) ImportError :=
  @parse sample_env sample_reader "" [sample_channel] (mk_work 0 0 0 0).
Definition times_and_flags (r : result (BTree.t Guide * Work) ImportError)
  : list (list (option Z * option Z * Z)) :=
  match r with
  | Ok (guides, _) => map (fun g => map (fun p => (start p, stop p, flags p)) (programmes g)) (BTree.values guides)
  | Err _ => []
  end.

Example sample_times_and_flags :
  times_and_flags sample_guides
  = [[(None, None, UNCERTAIN);
      (Some 10000000000, Some 20000000000, OVERLAP);
      (Some 15000000000, Some 17000000000, OVERLAP);
      (Some 30000000000, None, UNCERTAIN + CONFLICT);
      (Some 30000000000, Some 40000000000, CONFLICT)]].
Proof. vm_compute. reflexivity. Qed.

(** The theorem at that guide: its third programme overlaps another one. *)
Definition sample_result : BTree.t Guide * Work :=
  Eval vm_compute in match sample_guides with Ok r => r | Err _ => ([], mk_work 0 0 0 0) end.
Lemma imported_guides_are_annotated_witness :
  @parse sample_env sample_reader "" [sample_channel] (mk_work 0 0 0 0)
    = Ok (sample_result.1, sample_result.2) /\
  (length sample_result.1 <= 1)%nat.
Proof.
  assert (S : @parse sample_env sample_reader "" [sample_channel] (mk_work 0 0 0 0)
              = Ok (sample_result.1, sample_result.2)) by (vm_compute; reflexivity).
  split; [exact S|].
  exact (proj1 (imported_guides_are_annotated sample_env sample_reader "" [sample_channel]
                  sample_result.1 (mk_work 0 0 0 0) sample_result.2 S)).
Defined.

End LiveGuideProofs.
