(* ===== verification/LivePlaylist.v ===== *)
(** * Channel playlists

    domains/live_tv/feed/imports/{m3u,compression}.rs: the attributes of an
    EXTINF line, the playlist, and the members of a compressed guide. *)

From S2P Require Import Prelude Json BTree LiveImport LiveGuide.
Import Json LiveImport.

Module LivePlaylist.

Definition quote : ascii := ascii_of_nat 34.

(** The first comma outside quotes splits the line. *)
Fixpoint split_comma (quoted : bool) (s : string) : option (string * string) :=
  match s with
  | EmptyString => None
  | String c t =>
      let quoted := if Ascii.eqb c quote then negb quoted else quoted in
      if Ascii.eqb c "," && negb quoted then Some (EmptyString, t)
      else match split_comma quoted t with
           | Some (a, b) => Some (String c a, b)
           | None => None
           end
  end.

(** [&s[n..]] *)
Definition drop (n : nat) (s : string) : string := String.substring n (String.length s) s.

Definition key_char (c : ascii) : bool :=
  let n := nat_of_ascii c in
  Str.is_digit c || ((65 <=? n) && (n <=? 90) || (97 <=? n) && (n <=? 122))%nat
  || Ascii.eqb c "-" || Ascii.eqb c "_".

Definition starts_with_space (s : string) : bool :=
  existsb (fun w => Str.starts_with w s) Str.whitespace.

(** The loop of [attributes]: every round takes a byte at least. *)
Fixpoint attributes_loop (fuel : nat) (rest : string) (attrs : BTree.t string)
  : result (BTree.t string) ImportError :=
  match fuel with
  | O => Ok attrs
  | S fuel =>
      if Str.is_empty rest then Ok attrs
      else
        let? (key, value) := ok_or (Str.split_once "=" rest) Format in
        if Str.is_empty key || negb (Str.all key_char key) then Err Format
        else
          let? value := ok_or (Str.strip_prefix (String quote EmptyString) value) Format in
          let? (value, rest) := ok_or (Str.split_once quote value) Format in
          let? _ := text value RECORD in
          if BTree.contains_key key attrs
             || (32 <? Z.of_nat (length (BTree.insert key value attrs))) then Err Format
          else if negb (Str.is_empty rest) && negb (starts_with_space rest) then Err Format
          else attributes_loop fuel (Str.trim_start rest) (BTree.insert key value attrs)
  end.

Definition attributes (info : string) : result (BTree.t string * string) ImportError :=
  let? (before, after) := ok_or (split_comma false info) Format in
  let name := Str.trim after in
  let? _ := text name RECORD in
  let head := Str.trim before in
  let duration := Str.until_whitespace head in
  let? _ := ok_or (Dec.parse_i64 duration) Format in
  let rest := Str.trim_start (drop (String.length duration) head) in
  let? attrs := attributes_loop (S (String.length rest)) rest [] in
  Ok (attrs, name).

Section Env.
Context {E : Env}.

(** The URL of a channel names the stream of a proxy. *)
Definition stream_url (url : Url) : bool :=
  (String.eqb (scheme url) "http" || String.eqb (scheme url) "https")
  && has_host url
  && negb (is_some_b (fragment url))
  && Str.is_empty (username url)
  && negb (is_some_b (password url)).

(** [path.rsplit('/')] of the path without its last slash *)
Definition path_parts (path : string) : list string :=
  let path := unwrap_or (Str.strip_suffix "/" path) path in
  rev (Str.split "/" path).

Definition upstream_of (url : Url) : result Z ImportError :=
  match path_parts (path url) with
  | raw :: parts =>
      let? upstream := ok_or (parse_uuid raw) Format in
      if String.eqb (hyphenated upstream) raw
         && match parts with
            | a :: b :: c :: _ => String.eqb a "stream" && String.eqb b "ts" && String.eqb c "proxy"
            | _ => false
            end
      then Ok upstream else Err Format
  | [] => Err Format
  end.

(** What the key of a channel is the digest of *)
Definition key_text (assignment upstream : Z) : string :=
  "duskcue-live-channel" +:+ Str.bytes [0; 1]%nat +:+ uuid_bytes assignment +:+ uuid_bytes upstream.

Definition attr (key : string) (attrs : BTree.t string) : option string :=
  LiveGuide.nonempty (BTree.get key attrs).

(** A line that is neither empty nor a directive ends a channel. *)
Definition channel_of (line : string) (attrs : BTree.t string) (name : string) (assignment : Z)
    (seen : list Z) (w : Work) : result (Channel * Z * Work) ImportError :=
  let? _ := text line RECORD in
  let? url := ok_or (parse_url line) Format in
  if negb (stream_url url) then Err Format
  else
    let? upstream := upstream_of url in
    if existsb (Z.eqb upstream) seen then Err Format
    else
      let guide := attr "tvg-id" attrs in
      let? _ := match guide with Some v => text v 512 | None => Ok tt end in
      let logo := attr "tvg-logo" attrs in
      let? _ := match logo with Some v => text v RECORD | None => Ok tt end in
      let metadata :=
        Object [("group", LiveGuide.opt_str (BTree.get "group-title" attrs));
                ("guide_key", LiveGuide.opt_str guide);
                ("name", Str name);
                ("number", LiveGuide.opt_str (BTree.get "tvg-chno" attrs));
                ("tvg_name", LiveGuide.opt_str (BTree.get "tvg-name" attrs));
                ("upstream_uuid", Str (hyphenated upstream))] in
      let? payload_text := json metadata in
      let? w := payload w (Str.len payload_text + Str.len line
                           + match logo with Some v => Str.len v | None => 0 end) 0 in
      let '(id, w) := draw w in
      Ok (mk_channel id (sha256 (key_text assignment upstream)) guide metadata line logo,
          upstream, w).

(** The variables of the loop *)
Record State := mk_state {
  pending : option (BTree.t string * string);
  channels : list Channel;
  seen : list Z;
}.

Definition line_step (line : string) (assignment : Z) (s : State) (w : Work)
  : result (State * Work) ImportError :=
  let? w := check w in
  if 16384 <? Str.len line then Err Limit
  else
    let? _ := text line 16384 in
    let line := Str.trim line in
    if Str.is_empty line then Ok (s, w)
    else match Str.strip_prefix "#EXTINF:" line with
    | Some info =>
        if is_some_b (pending s) then Err Format
        else let? p := attributes info in Ok (mk_state (Some p) (channels s) (seen s), w)
    | None =>
        if Str.starts_with "#" line then
          if Str.starts_with "#EXT-X-" line || Str.starts_with "#EXTM3U" line then Err Format
          else Ok (s, w)
        else
          let? (attrs, name) := ok_or (pending s) Format in
          let? (c, upstream, w) := channel_of line attrs name assignment (seen s) w in
          if CHANNELS <? Z.of_nat (length (channels s ++ [c])) then Err Limit
          else Ok (mk_state None (channels s ++ [c]) (upstream :: seen s), w)
    end.

Fixpoint lines_loop (lines : list string) (assignment : Z) (s : State) (w : Work)
  : result (State * Work) ImportError :=
  match lines with
  | [] => Ok (s, w)
  | line :: lines =>
      let? (s, w) := line_step line assignment s w in
      lines_loop lines assignment s w
  end.

(** [m3u::parse]; [from_utf8] is that of the standard library. *)
Definition parse (from_utf8 : string -> option string) (bytes : string) (assignment : Z) (w : Work)
  : result (list Channel * Work) ImportError :=
  if PLAYLIST <? Str.len bytes then Err Limit
  else
    let? text_ := ok_or (from_utf8 bytes) Format in
    let text_ := unwrap_or (Str.strip_prefix (Str.bytes [239; 187; 191]%nat) text_) text_ in
    match Str.lines text_ with
    | [] => Err Format
    | header :: lines =>
        let? _ := text header 16384 in
        if (16384 <? Str.len header)
           || negb (String.eqb header "#EXTM3U" || Str.starts_with "#EXTM3U " header) then Err Format
        else
          let? (s, w) := lines_loop lines assignment (mk_state None [] []) w in
          if is_some_b (pending s) then Err Format else Ok (channels s, w)
    end.

(** ** compression.rs

    [member] is the decoder of flate2 at the front of its input: the pieces it
    gives, and what is left when it ends without an error. *)
Fixpoint pieces (chunks : list string) (rest : option string) (result_ : string) (w : Work)
  : result (string * string * Work) ImportError :=
  let? w := check w in
  match chunks with
  | [] => let? rest := ok_or rest Format in Ok (result_, rest, w)
  | c :: chunks =>
      if XML <? Z.min u64_max (Str.len result_ + Str.len c) then Err Limit
      else pieces chunks rest (result_ +:+ c) w
  end.

Definition gzip : string := Str.bytes [31; 139]%nat.

Fixpoint members (member : string -> list string * option string) (left_ : nat) (rest result_ : string)
    (w : Work) : result (string * Work) ImportError :=
  if Str.is_empty rest then Ok (result_, w)
  else
    let? w := check w in
    match left_ with
    | O => Err Limit
    | S left_ =>
        if negb (Str.starts_with gzip rest) then Err Format
        else
          let '(chunks, next) := member rest in
          let? (result_, next, w) := pieces chunks next result_ w in
          if Str.len rest <=? Str.len next then Err Format
          else members member left_ next result_ w
    end.

Definition decode (member : string -> list string * option string)
    (from_utf8 : string -> option string) (bytes : string) (w : Work)
  : result (string * Work) ImportError :=
  let? w := check w in
  if GUIDE <? Str.len bytes then Err Limit
  else if Str.starts_with (Str.bytes [31]%nat) bytes && negb (Str.starts_with gzip bytes) then Err Format
  else
    let? (plain, w) :=
      if Str.starts_with gzip bytes then members member 8 bytes EmptyString w else Ok (bytes, w) in
    let? plain := ok_or (from_utf8 plain) Format in
    Ok (plain, w).

End Env.

End LivePlaylist.
