(* ===== verification/LivePlaylistProofs.v ===== *)
(** * Theorems on channel playlists

    The attributes of a line read back as they were written; what the channels of
    an accepted playlist satisfy. *)

From S2P Require Import Prelude Json BTree Trim LiveImport LiveGuide LivePlaylist.
Import Json LiveImport LivePlaylist.

Module LivePlaylistProofs.

(** ** Lines as a server writes them *)

Definition attr_text (p : string * string) : string :=
  " " +:+ p.1 +:+ "=" +:+ String quote EmptyString +:+ p.2 +:+ String quote EmptyString.
Definition attrs_text (l : list (string * string)) : string :=
  fold_right (fun p s => attr_text p +:+ s) EmptyString l.
Definition info_text (duration : Z) (l : list (string * string)) (name : string) : string :=
  Dec.print_int duration +:+ attrs_text l +:+ "," +:+ name.

Definition attrs_of (l : list (string * string)) (m : BTree.t string) : BTree.t string :=
  fold_left (fun m p => BTree.insert p.1 p.2 m) l m.

(** An attribute that can be written *)
Definition writable (p : string * string) : Prop :=
  p.1 <> EmptyString /\ Str.all key_char p.1 = true /\ free_of quote p.2 = true /\
  text p.2 RECORD = Ok tt.

Lemma key_char_no_quote (c : ascii) : key_char c = true -> negb (Ascii.eqb quote c) = true.
Proof. by destruct c as [[] [] [] [] [] [] [] []]. Qed.
Lemma key_char_no_comma (c : ascii) : key_char c = true -> negb (Ascii.eqb c ",") = true.
Proof. by destruct c as [[] [] [] [] [] [] [] []]. Qed.
Lemma key_char_no_equals (c : ascii) : key_char c = true -> negb (Ascii.eqb "=" c) = true.
Proof. by destruct c as [[] [] [] [] [] [] [] []]. Qed.
Lemma key_char_plain (c : ascii) : key_char c = true -> plain_char c = true.
Proof. by destruct c as [[] [] [] [] [] [] [] []]. Qed.

(** Signs and digits are key characters too. *)
Lemma print_int_keys (n : Z) : Str.all key_char (Dec.print_int n) = true.
Proof.
  assert (D : forall n, Str.all key_char (Dec.print n) = true).
  { intros m. apply (all_impl Str.is_digit); [|apply print_digits].
    by intros [[] [] [] [] [] [] [] []]. }
  unfold Dec.print_int. destruct (n <? 0); [|apply D]. cbn [Str.all].
  change (key_char "-") with true. apply D.
Qed.

Lemma print_int_nonempty (n : Z) : Dec.print_int n <> EmptyString.
Proof.
  unfold Dec.print_int. destruct (n <? 0); [done|]. pose proof (print_nonempty n).
  by destruct (Dec.print n).
Qed.

Lemma parse_print_int (n : Z) : i64_min <= n <= i64_max -> Dec.parse_i64 (Dec.print_int n) = Some n.
Proof.
  intros H. unfold Dec.print_int. destruct (n <? 0) eqn:L; dk_bool.
  - cbn [Dec.parse_i64]. rewrite parse_print by (unfold i64_min in *; lia). f_equal. lia.
  - assert (P : Dec.parse_digits i64_max (Dec.print n) = Some n) by (apply parse_print; lia).
    pose proof (print_digits n) as D. revert P D.
    destruct (Dec.print n) as [|[[] [] [] [] [] [] [] []] t]; cbn [Dec.parse_i64 Str.all]; try done.
Qed.

(** ** The first comma outside quotes *)

Lemma split_comma_skip (q : bool) (a b : string) :
  Str.all (fun c => negb (Ascii.eqb quote c) && (q || negb (Ascii.eqb c ","))) a = true ->
  split_comma q (a +:+ b)
  = match split_comma q b with Some (x, y) => Some (a +:+ x, y) | None => None end.
Proof.
  induction a as [|c a IH]; intros H.
  - cbn. by destruct (split_comma q b) as [[]|].
  - cbn [Str.all] in H. apply andb_true_iff in H as [[Q C]%andb_true_iff H].
    change (String c a +:+ b) with (String c (a +:+ b)). cbn [split_comma].
    rewrite Ascii.eqb_sym in Q. apply negb_true_iff in Q. rewrite Q, IH by done.
    assert (Ascii.eqb c "," && negb q = false) as ->.
    { destruct q; [by rewrite andb_false_r|]. cbn in C. apply negb_true_iff in C. by rewrite C. }
    by destruct (split_comma q b) as [[]|].
Qed.

Lemma split_comma_quote (q : bool) (b : string) :
  split_comma q (String quote b)
  = match split_comma (negb q) b with Some (x, y) => Some (String quote x, y) | None => None end.
Proof. done. Qed.

Lemma split_comma_keys (a b : string) :
  Str.all key_char a = true ->
  split_comma false (a +:+ b)
  = match split_comma false b with Some (x, y) => Some (a +:+ x, y) | None => None end.
Proof.
  intros H. apply split_comma_skip. revert H. apply all_impl. intros c K. cbn [orb].
  by rewrite key_char_no_quote, key_char_no_comma.
Qed.

Lemma split_comma_value (a b : string) :
  free_of quote a = true ->
  split_comma true (a +:+ b)
  = match split_comma true b with Some (x, y) => Some (a +:+ x, y) | None => None end.
Proof.
  intros H. apply split_comma_skip. revert H. apply all_impl. intros c ->. done.
Qed.

Definition attr_head (p : string * string) : string := " " +:+ p.1 +:+ "=".

Lemma attrs_text_cons (p : string * string) (l : list (string * string)) (b : string) :
  attrs_text (p :: l) +:+ b
  = attr_head p +:+ String quote (p.2 +:+ String quote (attrs_text l +:+ b)).
Proof. unfold attrs_text, attr_head. cbn [fold_right]. unfold attr_text. by rewrite !str_app_assoc. Qed.

Lemma attrs_text_one (p : string * string) (l : list (string * string)) :
  attrs_text (p :: l) = attr_head p +:+ String quote (p.2 +:+ String quote (attrs_text l)).
Proof. rewrite <- (str_app_nil_r (attrs_text (p :: l))), attrs_text_cons. by rewrite str_app_nil_r. Qed.

Lemma split_comma_attrs (l : list (string * string)) (name : string) :
  Forall writable l ->
  split_comma false (attrs_text l +:+ "," +:+ name) = Some (attrs_text l, name).
Proof.
  induction 1 as [|p l (N & K & Q & T) H IH]; [done|].
  rewrite attrs_text_cons, attrs_text_one.
  rewrite (split_comma_skip false (attr_head p)).
  - rewrite split_comma_quote. cbn [negb]. rewrite split_comma_value by done.
    rewrite split_comma_quote. cbn [negb]. by rewrite IH.
  - unfold attr_head. rewrite !str_all_app. apply andb_true_iff. split; [done|].
    apply andb_true_iff. split; [|done]. revert K. apply all_impl. intros c K. cbn [orb].
    by rewrite key_char_no_quote, key_char_no_comma.
Qed.

(** ** Words and trimming *)

(** The text ends with a printable character. *)
Definition ends_plain (s : string) : Prop :=
  exists t c, s = t +:+ String c EmptyString /\ plain_char c = true.

Lemma ends_plain_app (a b : string) : ends_plain b -> ends_plain (a +:+ b).
Proof. intros (t & c & -> & H). exists (a +:+ t), c. by rewrite str_app_assoc. Qed.

Lemma all_plain_ends (s : string) : s <> EmptyString -> Str.all plain_char s = true -> ends_plain s.
Proof.
  induction s as [|c s IH]; intros N A; [done|]. cbn [Str.all] in A.
  apply andb_true_iff in A as [C A]. destruct s as [|d s].
  - by exists EmptyString, c.
  - apply (ends_plain_app (String c EmptyString)). by apply IH.
Qed.

Lemma attrs_ends_plain (l : list (string * string)) : l <> [] -> ends_plain (attrs_text l).
Proof.
  induction l as [|p l IH]; intros N; [done|]. rewrite attrs_text_one.
  apply ends_plain_app, (ends_plain_app (String quote EmptyString)), ends_plain_app.
  destruct l as [|q l].
  - exists EmptyString, quote. done.
  - apply (ends_plain_app (String quote EmptyString)). by apply IH.
Qed.

Lemma trim_plain (c : ascii) (s : string) :
  plain_char c = true -> ends_plain (String c s) -> Str.trim (String c s) = String c s.
Proof.
  intros C (t & d & E & D). apply trim_clean; [done|]. rewrite E. by apply plain_ends_clean.
Qed.

Lemma until_whitespace_keys (a b : string) :
  Str.all key_char a = true -> (b = EmptyString \/ exists t, b = String " " t) ->
  Str.until_whitespace (a +:+ b) = a.
Proof.
  intros A B. induction a as [|c a IH].
  - destruct B as [->|[t ->]]; done.
  - cbn [Str.all] in A. apply andb_true_iff in A as [C A].
    change (String c a +:+ b) with (String c (a +:+ b)). cbn [Str.until_whitespace].
    assert (existsb (fun w => Str.starts_with w (String c (a +:+ b))) Str.whitespace = false) as ->.
    { pose proof (plain_not_start c (a +:+ b) (key_char_plain c C)) as F.
      apply not_true_is_false. intros (w & W & S)%existsb_exists.
      by rewrite (find_none _ _ F w W) in S. }
    by rewrite IH.
Qed.

Lemma attrs_space (l : list (string * string)) :
  attrs_text l = EmptyString \/ exists t, attrs_text l = String " " t.
Proof.
  destruct l as [|p l]; [by left|right]. rewrite attrs_text_one. unfold attr_head. cbn. eauto.
Qed.

Lemma drop_app (a b : string) : drop (String.length a) (a +:+ b) = b.
Proof.
  assert (G : forall s m, (String.length s <= m)%nat -> String.substring 0 m s = s).
  { induction s as [|c s IH]; intros [|m] H; cbn in *; try done; [lia|]. by rewrite IH by lia. }
  unfold drop. rewrite string_length_app.
  assert (H : (String.length b <= String.length a + String.length b)%nat) by lia.
  revert H. generalize (String.length a + String.length b)%nat. intros m H.
  induction a as [|c a IH]; [by apply G|]. cbn [String.length String.append String.substring].
  exact IH.
Qed.

(** ** The loop *)

Lemma key_no_equals (p : string * string) :
  Str.all key_char p.1 = true -> Str.all (fun c => negb (Ascii.eqb "=" c)) p.1 = true.
Proof. apply all_impl. apply key_char_no_equals. Qed.

Lemma trim_attrs (p : string * string) (l : list (string * string)) :
  writable p ->
  Str.trim_start (attrs_text (p :: l))
  = p.1 +:+ String "=" (String quote (p.2 +:+ String quote (attrs_text l))).
Proof.
  intros (N & K & _). rewrite attrs_text_one. unfold attr_head. rewrite !str_app_assoc.
  destruct (p.1) as [|c k]; [done|]. cbn [Str.all] in K. apply andb_true_iff in K as [C _].
  unfold Str.trim_start. cbn [String.length String.append].
  change (Str.trim_with Str.whitespace (String.length (String c (k +:+ String "=" (String quote (p.2 +:+ String quote (attrs_text l))))))
    (String c (k +:+ String "=" (String quote (p.2 +:+ String quote (attrs_text l))))) = 
    String c (k +:+ String "=" (String quote (p.2 +:+ String quote (attrs_text l))))).
  by apply trim_with_none, plain_not_start, key_char_plain.
Qed.

Lemma starts_with_space_attrs (l : list (string * string)) :
  negb (Str.is_empty (attrs_text l)) && negb (starts_with_space (attrs_text l)) = false.
Proof. by destruct (attrs_space l) as [->|[t ->]]. Qed.

Lemma attributes_loop_text (l : list (string * string)) (m : BTree.t string) (fuel : nat) :
  Forall writable l -> NoDup l.*1 -> (length l + length m <= 32)%nat -> (length l < fuel)%nat ->
  (forall p, p ∈ l -> BTree.contains_key p.1 m = false) ->
  attributes_loop fuel (Str.trim_start (attrs_text l)) m = Ok (attrs_of l m).
Proof.
  revert m fuel. induction l as [|p l IH]; intros m [|fuel] W ND L F C; try (cbn in F; lia); [done|].
  pose proof W as W'. apply Forall_cons in W' as [(N & K & Q & T) Wl].
  rewrite trim_attrs by (by apply Forall_cons in W as [? _]). cbn [attributes_loop].
  assert (Str.is_empty (p.1 +:+ String "=" (String quote (p.2 +:+ String quote (attrs_text l)))) = false) as ->
    by (by destruct (p.1)).
  rewrite (split_once_app "=" p.1 _ (fun c => negb (Ascii.eqb "=" c)));
    [|by apply key_no_equals|done].
  cbn [ok_or]. assert (Str.is_empty p.1 || negb (Str.all key_char p.1) = false) as ->.
  { rewrite K. by destruct (p.1). }
  cbn [Str.strip_prefix ok_or]. rewrite Ascii.eqb_refl. cbn [ok_or].
  rewrite (split_once_app quote p.2 _ (fun c => negb (Ascii.eqb quote c))) by done.
  cbn [ok_or]. rewrite T. rewrite (C p) by (by left). cbn [orb].
  pose proof (BTree.length_insert p.1 p.2 m) as B. cbn [length] in L, F.
  rewrite (proj2 (Z.ltb_ge 32 _)) by lia. rewrite starts_with_space_attrs.
  cbn [fmap list_fmap] in ND. apply NoDup_cons in ND as [Np ND].
  rewrite IH; auto; [lia|lia|].
  intros q Hq. unfold BTree.contains_key in *. rewrite BTree.get_insert.
  destruct (String.eqb_spec q.1 p.1) as [E|_]; [|by apply C; right].
  exfalso. apply Np. apply list_elem_of_fmap. by exists q.
Qed.

(** The attributes and the name of a channel read back as they were written. *)
Theorem attributes_read_back (duration : Z) (l : list (string * string)) (name : string) :
  i64_min <= duration <= i64_max -> Forall writable l -> NoDup l.*1 -> (length l <= 32)%nat ->
  Str.trim name = name -> text name RECORD = Ok tt ->
  attributes (info_text duration l name) = Ok (attrs_of l [], name).
Proof.
  intros D W ND L N T. unfold attributes, info_text.
  rewrite split_comma_keys by apply print_int_keys. rewrite split_comma_attrs by done.
  cbn [ok_or]. rewrite N, T.
  assert (H : Str.trim (Dec.print_int duration +:+ attrs_text l) = Dec.print_int duration +:+ attrs_text l).
  { pose proof (print_int_keys duration) as K. pose proof (print_int_nonempty duration) as Ne.
    assert (P : Str.all plain_char (Dec.print_int duration) = true)
      by (revert K; apply all_impl, key_char_plain).
    assert (X : ends_plain (Dec.print_int duration +:+ attrs_text l)).
    { destruct l as [|p l]; [cbn; rewrite str_app_nil_r; by apply all_plain_ends|].
      by apply ends_plain_app, attrs_ends_plain. }
    destruct (Dec.print_int duration) as [|c s]; [done|]. cbn [Str.all] in P.
    apply andb_true_iff in P as [C _]. by apply trim_plain. }
  rewrite H, until_whitespace_keys by (auto using print_int_keys, attrs_space).
  rewrite parse_print_int by done. cbn [ok_or]. rewrite drop_app.
  rewrite attributes_loop_text; auto; [cbn; lia|].
  clear -W. induction W as [|p l Wp W IH]; [cbn; lia|]. rewrite trim_attrs by done.
  assert (X : (length l <= String.length (attrs_text l))%nat).
  { clear -l. induction l as [|q l IH]; [cbn; lia|]. rewrite attrs_text_one. unfold attr_head.
    repeat (rewrite string_length_app; cbn [String.length]). cbn [length]. lia. }
  repeat (rewrite string_length_app; cbn [String.length]). cbn [length]. lia.
Qed.

Lemma attributes_read_back_example :
  attributes (info_text (-1) [("tvg-id", "one.uk"); ("group-title", "News, weather")] "One, HD")
  = Ok ([("group-title", "News, weather"); ("tvg-id", "one.uk")], "One, HD")%string.
Proof.
  apply (attributes_read_back (-1) [("tvg-id", "one.uk"); ("group-title", "News, weather")] "One, HD").
  - unfold i64_min, i64_max. lia.
  - repeat constructor; try discriminate.
  - apply NoDup_cons. split; [intros H%list_elem_of_singleton; discriminate H|apply NoDup_singleton].
  - cbn. lia.
  - reflexivity.
  - reflexivity.
Defined.

(** ** The channels of an accepted playlist *)

Section Channels.
Context {E : Env}.

Definition channel_ok (c : Channel) : Prop :=
  Str.len (c_stream c) <= RECORD /\ (forall l, c_logo c = Some l -> 0 < Str.len l <= RECORD) /\
  (forall k, c_guide c = Some k -> 0 < Str.len k <= 512) /\
  is_ok (json (c_metadata c)) = true.

(** The keys are the digests for pairwise different streams. *)
Definition channels_ok (assignment : Z) (l : list Channel) (seen : list Z) : Prop :=
  Forall channel_ok l /\ NoDup seen /\
  map c_key l = map (fun u => sha256 (key_text assignment u)) (rev seen).

Lemma text_bound (s : string) (n : Z) : text s n = Ok tt -> Str.len s <= n.
Proof. unfold text. destruct (n <? Str.len s) eqn:L; [done|]. intros _. dk_bool. lia. Qed.

Lemma attr_text_bound (k : string) (attrs : BTree.t string) (v : string) (n : Z) :
  attr k attrs = Some v -> text v n = Ok tt -> 0 < Str.len v <= n.
Proof.
  unfold attr, LiveGuide.nonempty. destruct (BTree.get k attrs) as [s|]; [|done].
  destruct (Str.is_empty s) eqn:Em; [done|]. intros [= ->] T%text_bound. split; [|done].
  destruct v; [done|]. unfold Str.len. cbn [String.length]. lia.
Qed.

Lemma channel_of_ok (line : string) (attrs : BTree.t string) (name : string) (assignment : Z)
    (seen : list Z) (w w' : Work) (c : Channel) (u : Z) :
  channel_of line attrs name assignment seen w = Ok (c, u, w') ->
  channel_ok c /\ (u ∉ seen) /\ c_key c = sha256 (key_text assignment u).
Proof.
  unfold channel_of.
  destruct (text line RECORD) as [[]|] eqn:T; [|done].
  destruct (ok_or _ _) as [url|]; [|done]. destruct (negb _); [done|].
  destruct (upstream_of url) as [v|]; [|done]. destruct (existsb _ _) eqn:X; [done|].
  destruct (match attr "tvg-id" attrs with Some v => text v 512 | None => Ok () end) as [[]|] eqn:G; [|done].
  destruct (match attr "tvg-logo" attrs with Some v => text v RECORD | None => Ok () end) as [[]|] eqn:L; [|done].
  destruct (json _) as [t|] eqn:J; [|done]. destruct (payload _ _ _) as [w1|]; [|done].
  unfold draw. intros [= <- <- <-]. cbn. split; [|split; [|done]].
  - unfold channel_ok. cbn. split; [by apply text_bound|]. split; [|split; [|by rewrite J]].
    + intros l Hl. rewrite Hl in L. by eapply attr_text_bound.
    + intros k Hk. rewrite Hk in G. by eapply attr_text_bound.
  - intros H. apply not_true_iff_false in X. apply X. apply existsb_exists. exists v.
    split; [by apply list_elem_of_In|lia].
Qed.

Definition loop_ok (assignment : Z) (s : State) : Prop :=
  channels_ok assignment (channels s) (seen s) /\ Z.of_nat (length (channels s)) <= CHANNELS.

Lemma line_step_ok (line : string) (assignment : Z) (s s' : State) (w w' : Work) :
  loop_ok assignment s -> line_step line assignment s w = Ok (s', w') -> loop_ok assignment s'.
Proof.
  intros I. unfold line_step. destruct (check w); [|done]. destruct (16384 <? _); [done|].
  destruct (text line 16384); [|done]. destruct (Str.is_empty _); [by intros [= <- <-]|].
  destruct (Str.strip_prefix _ _).
  { destruct (is_some_b _); [done|]. destruct (attributes _); [|done]. by intros [= <- <-]. }
  destruct (Str.starts_with "#" _).
  { destruct (_ || _); [done|]. by intros [= <- <-]. }
  destruct (ok_or _ _) as [[attrs name]|]; [|done].
  destruct (channel_of _ _ _ _ _ _) as [[[c u] w2]|] eqn:C; [|done].
  destruct (CHANNELS <? _) eqn:N; [done|]. intros [= <- <-].
  apply channel_of_ok in C as (C & U & K). destruct I as [(F & ND & M) _].
  split; cbn; [|dk_bool; lia]. split; [|split].
  - apply Forall_app. split; [done|]. constructor; [exact C|constructor].
  - by constructor.
  - rewrite map_app, M. cbn [rev map]. rewrite map_app. cbn [map]. by rewrite K.
Qed.

Lemma lines_loop_ok (lines : list string) (assignment : Z) (s s' : State) (w w' : Work) :
  loop_ok assignment s -> lines_loop lines assignment s w = Ok (s', w') -> loop_ok assignment s'.
Proof.
  revert s w. induction lines as [|line lines IH]; intros s w I; cbn [lines_loop].
  - by intros [= <- <-].
  - destruct (line_step line assignment s w) as [[s1 w1]|] eqn:L; [|done].
    apply IH. by eapply line_step_ok.
Qed.

Lemma parse_ok (from_utf8 : string -> option string) (bytes : string) (assignment : Z)
    (l : list Channel) (w w' : Work) :
  parse from_utf8 bytes assignment w = Ok (l, w') ->
  Z.of_nat (length l) <= CHANNELS /\ exists seen, channels_ok assignment l seen.
Proof.
  unfold parse. destruct (PLAYLIST <? _); [done|]. destruct (ok_or _ _) as [t|]; [|done].
  destruct (Str.lines _) as [|h lines]; [done|]. destruct (text h 16384); [|done].
  destruct (_ || _); [done|].
  destruct (lines_loop _ _ _ _) as [[s w1]|] eqn:L; [|done].
  destruct (is_some_b _); [done|]. intros [= <- <-].
  apply lines_loop_ok in L as [I B]; [by eauto|]. split; [|done].
  split; [constructor|]. split; [constructor|done].
Qed.

End Channels.

End LivePlaylistProofs.
