(* ===== verification/LiveCodec.v ===== *)
(** * Sealed catalogues

    services/encryption/context.rs: values sealed for one field of one record;
    domains/live_tv/feed/imports/{codec,publication}.rs: the rows of an imported
    catalogue, what their fields are sealed for, and the statements that insert
    them. *)

From S2P Require Import Prelude F64 Json BTree LiveImport LiveGuide.
Import Json LiveImport.

Module LiveCodec.

(** Outside the repository: the base64 alphabets, the AEAD of ring under the key of
    the server, the n-th filling of a nonce, UTF-8, the serialisation of a time. *)
Class Crypto := {
  base64 : string -> string;
  unbase64 : string -> option string;
  base64_url : string -> string;
  unbase64_url : string -> option string;
  aead_seal : string -> string -> string -> option string;
  aead_open : string -> string -> string -> option string;
  random : nat -> option string;
  from_utf8 : string -> option string;
  show_time : Z -> string;
}.

(** ** services/encryption/context.rs *)

Inductive EncryptionError :=
| InvalidFormat | RandomGenerationFailed | EncryptionFailed | InvalidBase64
| InvalidCiphertextLength | DecryptionFailed | InvalidUtf8.

Definition RECORD_SECRET_PREFIX : string := "duskcue-secret:v1:".
Definition MAX_RECORD_SECRET_BYTES : Z := 4096.
Definition MAX_RECORD_ENVELOPE_BYTES : Z := 5518.
Definition NONCE_LEN : Z := 12.
Definition TAG_LEN : Z := 16.

Record RecordContext := mk_context {
  namespace : string;
  owner : Z;
  record : Z;
  field_name : string;
}.

Section Env.
Context {E : Env} {C : Crypto}.

Definition sized (value : string) : string := Str.be_bytes 2 (Str.len value) +:+ value.
Definition sizable (value : string) : bool := negb (Str.is_empty value || (128 <? Str.len value)).

(** [associated_data] *)
Definition associated_data (c : RecordContext) : result string EncryptionError :=
  if negb (sizable (namespace c)) || negb (sizable (field_name c)) then Err InvalidFormat
  else Ok ("duskcue-record-secret" +:+ Str.bytes [0; 1]%nat +:+ sized (namespace c)
           +:+ sized (field_name c) +:+ uuid_bytes (owner c) +:+ uuid_bytes (record c)).

(** [seal_record] with the [n]-th nonce *)
Definition seal_record (n : nat) (value : string) (c : RecordContext) : result string EncryptionError :=
  if Str.is_empty value || (MAX_RECORD_SECRET_BYTES <? Str.len value) then Err InvalidFormat
  else
    let? aad := associated_data c in
    let? nonce := ok_or (random n) RandomGenerationFailed in
    let? bytes := ok_or (aead_seal nonce aad value) EncryptionFailed in
    Ok (RECORD_SECRET_PREFIX +:+ base64 (nonce +:+ bytes)).

(** [open_record] *)
Definition open_record (value : string) (c : RecordContext) : result string EncryptionError :=
  if MAX_RECORD_ENVELOPE_BYTES <? Str.len value then Err InvalidFormat
  else
    let? encoded := ok_or (Str.strip_prefix RECORD_SECRET_PREFIX value) InvalidFormat in
    let? bytes := ok_or (unbase64 encoded) InvalidBase64 in
    if (Str.len bytes <=? NONCE_LEN + TAG_LEN)
       || (NONCE_LEN + TAG_LEN + MAX_RECORD_SECRET_BYTES <? Str.len bytes)
    then Err InvalidCiphertextLength
    else
      let nonce := String.substring 0 12 bytes in
      let? aad := associated_data c in
      let? plain := ok_or (aead_open nonce aad (String.substring 12 (String.length bytes) bytes))
                      DecryptionFailed in
      ok_or (from_utf8 plain) InvalidUtf8.

(** ** codec.rs *)

(** [Receipt] without its initiator *)
Record Receipt := mk_receipt {
  user : Z;
  assignment : Z;
  generation : Z;
  attempt : Z;
  sequence : Z;
  receipt_snapshot : Z;
  imported_at : Z;
}.

Definition num (n : Z) : Value := Num (if n <? 0 then NegInt n else PosInt n).
Definition uuid (n : Z) : Value := Str (hyphenated n).

(** [manifest] *)
Definition manifest_of (r : Receipt) (channels guides programmes : Z) : Value :=
  Object [("assignment", uuid (assignment r)); ("attempt", uuid (attempt r));
          ("channels", num channels); ("generation", num (generation r)); ("guides", num guides);
          ("household", uuid (user r)); ("imported_at", Str (show_time (imported_at r)));
          ("programmes", num programmes); ("sequence", num (sequence r));
          ("snapshot", uuid (receipt_snapshot r))].

Definition micros (t : Z) : Z := t / 1000.
Definition opt_micros (t : option Z) : Z := match t with Some t => micros t | None => i64_min end.

(** What the name of a field is the digest of, and the name: [field] *)
Definition field_text (r : Receipt) (kind : string) (row : SealedRow) (purpose : string) : string :=
  "duskcue-catalog-binding" +:+ Str.bytes [0; 1]%nat
  +:+ uuid_bytes (assignment r) +:+ uuid_bytes (receipt_snapshot r)
  +:+ Str.be_bytes 8 (generation r) +:+ uuid_bytes (attempt r) +:+ Str.be_bytes 8 (sequence r)
  +:+ Str.be_bytes 8 (micros (imported_at r)) +:+ kind +:+ purpose
  +:+ uuid_bytes (unwrap_or (r_guide row) 0)
  +:+ unwrap_or (r_channel_key row) EmptyString
  +:+ Str.be_bytes 8 (opt_micros (r_start row)) +:+ Str.be_bytes 8 (opt_micros (r_stop row))
  +:+ Str.be_bytes 4 (r_flags row).
Definition field (r : Receipt) (kind : string) (row : SealedRow) (purpose : string) : string :=
  "v1:" +:+ base64_url (sha256 (field_text r kind row purpose)).

Definition context_of (r : Receipt) (kind : string) (row : SealedRow) (purpose : string)
  : RecordContext :=
  mk_context "live-tv-catalog" (user r) (r_id row) (field r kind row purpose).

(** [seal] and [open] *)
Definition seal (r : Receipt) (kind : string) (row : SealedRow) (purpose value : string) (w : Work)
  : result (string * Work) ImportError :=
  match seal_record (drawn w) value (context_of r kind row purpose) with
  | Ok sealed => Ok (sealed, mk_work (checks w) (S (drawn w)) (plaintext w) (ciphertext w))
  | Err _ => Err Storage
  end.
Definition open (r : Receipt) (kind : string) (row : SealedRow) (purpose value : string)
  : result string ImportError :=
  match open_record value (context_of r kind row purpose) with
  | Ok plain => Ok plain
  | Err _ => Err Storage
  end.

(** [empty] *)
Definition empty (id : Z) : SealedRow := mk_row id None None None None 0 EmptyString None None.

Definition opt_len (s : option string) : Z := match s with Some s => Str.len s | None => 0 end.

Definition seal_channel (r : Receipt) (guides : BTree.t Guide) (c : Channel) (w : Work)
  : result (SealedRow * Work) ImportError :=
  let? w := check w in
  let? metadata := json (c_metadata c) in
  let? w := payload w (Str.len metadata + Str.len (c_stream c) + opt_len (c_logo c)) 0 in
  let guide := let! k := c_guide c in let! g := BTree.get k guides in Some (g_id g) in
  let row m s l := mk_row (c_id c) guide (Some (c_key c)) None None 0 m s l in
  let? (m, w) := seal r "channel" (row EmptyString None None) "metadata" metadata w in
  let? (s, w) := seal r "channel" (row m None None) "stream" (c_stream c) w in
  let? (l, w) :=
    match c_logo c with
    | Some v =>
        let? (l, w) := seal r "channel" (row m (Some s) None) "logo" v w in Ok (Some l, w)
    | None => Ok (None, w)
    end in
  let? w := payload w 0 (Str.len m + Str.len s + opt_len l) in
  Ok (row m (Some s) l, w).

Fixpoint seal_channels (r : Receipt) (guides : BTree.t Guide) (l : list Channel) (w : Work)
  : result (list SealedRow * Work) ImportError :=
  match l with
  | [] => Ok ([], w)
  | c :: l =>
      let? (row, w) := seal_channel r guides c w in
      let? (rows, w) := seal_channels r guides l w in
      Ok (row :: rows, w)
  end.

Definition seal_programme (r : Receipt) (guide : Z) (p : Programme) (w : Work)
  : result (SealedRow * Work) ImportError :=
  let? w := check w in
  let? metadata := json (p_metadata p) in
  let? w := payload w (Str.len metadata) 0 in
  let row m := mk_row (p_id p) (Some guide) None (start p) (stop p) (flags p) m None None in
  let? (m, w) := seal r "programme" (row EmptyString) "metadata" metadata w in
  let? w := payload w 0 (Str.len m) in
  Ok (row m, w).

Fixpoint seal_programmes (r : Receipt) (guide : Z) (l : list Programme) (w : Work)
  : result (list SealedRow * Work) ImportError :=
  match l with
  | [] => Ok ([], w)
  | p :: l =>
      let? (row, w) := seal_programme r guide p w in
      let? (rows, w) := seal_programmes r guide l w in
      Ok (row :: rows, w)
  end.

Definition seal_guide (r : Receipt) (g : Guide) (w : Work) : result (SealedRow * Work) ImportError :=
  let? w := check w in
  let? metadata := json (g_metadata g) in
  let? w := payload w (Str.len metadata) 0 in
  let row m := mk_row (g_id g) None None None None 0 m None None in
  let? (m, w) := seal r "guide" (row EmptyString) "metadata" metadata w in
  let? w := payload w 0 (Str.len m) in
  Ok (row m, w).

Fixpoint seal_guides (r : Receipt) (l : list Guide) (w : Work)
  : result (list SealedRow * list SealedRow * Work) ImportError :=
  match l with
  | [] => Ok ([], [], w)
  | g :: l =>
      let? (row, w) := seal_guide r g w in
      let? (programmes, w) := seal_programmes r (g_id g) (programmes g) w in
      let? (rows, rest, w) := seal_guides r l w in
      Ok (row :: rows, programmes ++ rest, w)
  end.

(** [encode] *)
Definition encode (channels : list Channel) (guides : BTree.t Guide) (r : Receipt) (w : Work)
  : result (Candidate * Work) ImportError :=
  let programme_total := sum_list_with (fun g => length (programmes g)) (BTree.values guides) in
  let w := mk_work (checks w) (drawn w) 0 (ciphertext w) in
  let? manifest :=
    json (manifest_of r (Z.of_nat (length channels)) (Z.of_nat (length guides))
            (Z.of_nat programme_total)) in
  let? w := payload w (Str.len manifest) 0 in
  let? (sealed, w) := seal r "snapshot" (empty (receipt_snapshot r)) "manifest" manifest w in
  let? w := payload w 0 (Str.len sealed) in
  let? (channels, w) := seal_channels r guides channels w in
  let? (guides, programmes, w) := seal_guides r (BTree.values guides) w in
  Ok (mk_candidate (receipt_snapshot r) sealed guides channels programmes, w).

End Env.

(** ** publication.rs: the statements of [insert] *)

Definition cost (row : SealedRow) : Z :=
  1024 + Str.len (r_metadata row) + opt_len (r_stream row) + opt_len (r_logo row).

(** The rows of the next statement: 250 of them at most, a mebibyte at most *)
Fixpoint take_batch (left_ : nat) (bytes : Z) (rows : list SealedRow)
  : list SealedRow * list SealedRow :=
  match left_, rows with
  | S left_, row :: rest =>
      if 1024 * 1024 <? bytes + cost row then ([], rows)
      else
        let '(batch, rest) := take_batch left_ (bytes + cost row) rest in
        (row :: batch, rest)
  | _, _ => ([], rows)
  end.

Section Insert.
(** The token at the n-th statement, and whether the statement succeeds *)
Context (cancelled : nat -> bool) (execute : list SealedRow -> bool).

Fixpoint insert_loop (fuel n : nat) (rows : list SealedRow)
  : result (list (list SealedRow)) ImportError :=
  match fuel, rows with
  | S fuel, _ :: _ =>
      if cancelled n then Err Cancelled
      else
        let '(batch, rest) := take_batch 250 0 rows in
        match batch with
        | [] => Err Limit
        | _ =>
            if execute batch then
              let? batches := insert_loop fuel (S n) rest in Ok (batch :: batches)
            else Err Storage
        end
  | _, _ => Ok []
  end.

Definition insert (rows : list SealedRow) : result (list (list SealedRow)) ImportError :=
  insert_loop (length rows) 0 rows.
End Insert.

End LiveCodec.
