(* ===== verification/LiveCodecProofs.v ===== *)
(** * Theorems on sealed catalogues

    Sealed values open again and have the size their column allows, the name of a
    field determines its place, and an imported catalogue meets the constraints of
    its tables and is inserted as it is. *)

From S2P Require Import Prelude F64 Json BTree Trim LiveImport LiveGuide LiveGuideProofs.
From S2P Require Import LivePlaylist LivePlaylistProofs LiveCodec.
Import Json LiveImport LiveCodec LiveGuideProofs.

Module LiveCodecProofs.

(** ** What is documented of the code outside the repository *)

Definition is_uuid (u : Z) : Prop := 0 <= u < 2 ^ 128.

Class CryptoLaws (E : Env) (C : Crypto) : Prop := {
  base64_inv s : unbase64 (base64 s) = Some s;
  base64_len s : Str.len (base64 s) = 4 * ((Str.len s + 2) / 3);
  base64_url_inv s : unbase64_url (base64_url s) = Some s;
  base64_url_len s : Str.len s = 32 -> Str.len (base64_url s) = 43;
  aead_inv n a v c : aead_seal n a v = Some c -> aead_open n a c = Some v;
  aead_len n a v c : aead_seal n a v = Some c -> Str.len c = Str.len v + 16;
  utf8_same s t : from_utf8 s = Some t -> t = s;
  random_len n s : random n = Some s -> Str.len s = 12;
  uuid_len u : Str.len (uuid_bytes u) = 16;
  uuid_inj u v : is_uuid u -> is_uuid v -> uuid_bytes u = uuid_bytes v -> u = v;
  sha_len s : Str.len (sha256 s) = 32;
}.

(** ** Strings cut at a length *)

Lemma app_inj_len (a b c d : string) :
  Str.len a = Str.len c -> a +:+ b = c +:+ d -> a = c /\ b = d.
Proof.
  revert c. induction a as [|x a IH]; intros [|y c] L H; try (unfold Str.len in L; cbn in L; lia); [done|].
  change (String x (a +:+ b) = String y (c +:+ d)) in H. injection H as -> H.
  destruct (IH c) as [-> ->]; [unfold Str.len in *; cbn in L; lia|done|done].
Qed.

Lemma be_bytes_len (n : nat) (v : Z) : Str.len (Str.be_bytes n v) = Z.of_nat n.
Proof. unfold Str.len. induction n as [|n IH]; cbn [Str.be_bytes String.length]; lia. Qed.

(** The bytes determine the value up to the width. *)
Lemma be_bytes_inj (n : nat) (v w : Z) :
  Str.be_bytes n v = Str.be_bytes n w -> v mod 256 ^ Z.of_nat n = w mod 256 ^ Z.of_nat n.
Proof.
  induction n as [|n IH]; intros H; [by rewrite !Z.mod_1_r|].
  cbn [Str.be_bytes] in H. injection H as H1 H2. apply IH in H2. clear IH.
  set (m := 256 ^ Z.of_nat n) in *.
  assert (M : 0 < m) by (unfold m; lia).
  assert (A : (v / m) mod 256 = (w / m) mod 256).
  { pose proof (Z.mod_pos_bound (v / m) 256). pose proof (Z.mod_pos_bound (w / m) 256).
    apply (f_equal nat_of_ascii) in H1. rewrite !nat_ascii_embedding in H1 by lia. lia. }
  replace (256 ^ Z.of_nat (S n)) with (m * 256) by (unfold m; rewrite Nat2Z.inj_succ, Z.pow_succ_r; lia).
  rewrite !Z.rem_mul_r by lia. congruence.
Qed.

Lemma mod_signed (k v w : Z) : - k <= v < k -> - k <= w < k -> v mod (2 * k) = w mod (2 * k) -> v = w.
Proof.
  intros V W H. destruct (Z_lt_ge_dec v 0), (Z_lt_ge_dec w 0).
  - rewrite <- (Z.mod_unique v (2 * k) (-1) (v + 2 * k)), <- (Z.mod_unique w (2 * k) (-1) (w + 2 * k)) in H; lia.
  - rewrite <- (Z.mod_unique v (2 * k) (-1) (v + 2 * k)), (Z.mod_small w) in H; lia.
  - rewrite (Z.mod_small v), <- (Z.mod_unique w (2 * k) (-1) (w + 2 * k)) in H; lia.
  - rewrite !Z.mod_small in H; lia.
Qed.

Definition is_i64 (v : Z) : Prop := i64_min <= v <= i64_max.

Lemma be_bytes_i64 (v w : Z) : is_i64 v -> is_i64 w -> Str.be_bytes 8 v = Str.be_bytes 8 w -> v = w.
Proof.
  unfold is_i64, i64_min, i64_max. intros V W H%be_bytes_inj.
  apply (mod_signed (2 ^ 63)); [lia..|exact H].
Qed.
Lemma be_bytes_i32 (v w : Z) : is_i32 v -> is_i32 w -> Str.be_bytes 4 v = Str.be_bytes 4 w -> v = w.
Proof.
  unfold is_i32, i32_min, i32_max. intros V W H%be_bytes_inj.
  apply (mod_signed (2 ^ 31)); [lia..|exact H].
Qed.

Section Laws.
Context {E : Env} {C : Crypto} {L : CryptoLaws E C}.

(** ** Contexts *)

Lemma sized_inj (a b s t : string) :
  sizable a = true -> sizable b = true -> sized a +:+ s = sized b +:+ t -> a = b /\ s = t.
Proof using Type.
  unfold sizable, sized. intros A B H. rewrite !str_app_assoc in H.
  apply negb_true_iff, orb_false_iff in A as [_ A], B as [_ B]. dk_bool.
  apply app_inj_len in H as [H1 H2]; [|by rewrite !be_bytes_len].
  apply app_inj_len in H2; [done|]. apply be_bytes_inj in H1.
  unfold Str.len in *. change (256 ^ Z.of_nat 2) with 65536 in H1.
  rewrite !Z.mod_small in H1; lia.
Qed.

(** Different contexts never share their associated data. *)
Lemma associated_data_inj (c d : RecordContext) (a : string) :
  is_uuid (owner c) -> is_uuid (record c) -> is_uuid (owner d) -> is_uuid (record d) ->
  associated_data c = Ok a -> associated_data d = Ok a -> c = d.
Proof using L.
  intros U1 U2 U3 U4. unfold associated_data.
  destruct (sizable (namespace c)) eqn:N1, (sizable (field_name c)) eqn:F1; try done.
  destruct (sizable (namespace d)) eqn:N2, (sizable (field_name d)) eqn:F2; try done.
  cbn [negb orb]. intros X Y. rewrite <- Y in X. apply ok_inj in X as H. clear X Y.
  apply app_inj_len in H as [_ H]; [|done]. apply app_inj_len in H as [_ H]; [|done].
  apply sized_inj in H as [Hn H]; [|done..]. apply sized_inj in H as [Hf H]; [|done..].
  apply app_inj_len in H as [Ho Hr]; [|by rewrite !uuid_len].
  apply uuid_inj in Ho, Hr; try done. destruct c, d; cbn in *. by subst.
Qed.

(** ** Sealed values *)

Definition sealed_size (s : string) : Prop :=
  58 <= Str.len s <= MAX_RECORD_ENVELOPE_BYTES /\ Str.starts_with RECORD_SECRET_PREFIX s = true.

Lemma substring_app (a b : string) :
  String.substring 0 (String.length a) (a +:+ b) = a /\
  String.substring (String.length a) (String.length (a +:+ b)) (a +:+ b) = b.
Proof using Type.
  split; [|apply LivePlaylistProofs.drop_app]. induction a as [|c a IH]; cbn; [by destruct b|]. by rewrite IH.
Qed.

Lemma seal_record_opens (n : nat) (v s : string) (c : RecordContext) :
  seal_record n v c = Ok s ->
  sealed_size s /\ (from_utf8 v = Some v -> open_record s c = Ok v).
Proof using L.
  unfold seal_record. destruct (Str.is_empty v || _) eqn:B; [done|].
  apply orb_false_iff in B as [B1 B2].
  destruct (associated_data c) as [aad|] eqn:A; [|done].
  destruct (random n) as [nonce|] eqn:R; [|done]. cbn [ok_or].
  destruct (aead_seal nonce aad v) as [bytes|] eqn:S; [|done]. cbn [ok_or]. intros <-%ok_inj.
  pose proof (random_len n nonce R) as Ln. pose proof (aead_len _ _ _ _ S) as Lb.
  assert (Lv : 1 <= Str.len v <= 4096).
  { split; [|unfold MAX_RECORD_SECRET_BYTES in B2; dk_bool; lia].
    destruct v; [done|]. unfold Str.len. cbn [String.length]. lia. }
  assert (Ls : 58 <= Str.len (RECORD_SECRET_PREFIX +:+ base64 (nonce +:+ bytes)) <= 5518).
  { rewrite str_len_app, base64_len, str_len_app.
    change (Str.len RECORD_SECRET_PREFIX) with 18. dk_lia. }
  split; [split; [exact Ls|]|].
  - unfold Str.starts_with. by rewrite strip_prefix_app.
  - intros U. unfold open_record. unfold MAX_RECORD_ENVELOPE_BYTES.
    rewrite (proj2 (Z.ltb_ge _ _)) by lia. rewrite strip_prefix_app. cbn [ok_or].
    rewrite base64_inv. cbn [ok_or]. rewrite str_len_app, Ln, Lb.
    unfold NONCE_LEN, TAG_LEN, MAX_RECORD_SECRET_BYTES.
    rewrite (proj2 (Z.leb_gt _ _)), (proj2 (Z.ltb_ge _ _)) by lia. cbn [orb]. rewrite A.
    assert (L12 : String.length nonce = 12%nat) by (unfold Str.len in Ln; lia).
    destruct (substring_app nonce bytes) as [X Y]. rewrite L12 in X, Y. rewrite X, Y.
    rewrite (aead_inv _ _ _ _ S). cbn [ok_or]. by rewrite U.
Qed.

(** A value sealed for one place of the catalogue opens there again, and fits into
    its column. *)
Theorem sealed_value_opens (r : Receipt) (kind purpose value sealed : string) (row : SealedRow)
    (w w' : Work) :
  seal r kind row purpose value w = Ok (sealed, w') -> from_utf8 value = Some value ->
  open r kind row purpose sealed = Ok value /\ sealed_size sealed.
Proof using L.
  unfold seal, open. destruct (seal_record _ _ _) as [s|] eqn:S; [|done]. intros [= <- _] U.
  apply seal_record_opens in S as [Z O]. by rewrite (O U).
Qed.

(** ** The place of a field *)

Definition receipt_ok (r : Receipt) : Prop :=
  is_uuid (user r) /\ is_uuid (assignment r) /\ is_uuid (attempt r) /\ is_uuid (receipt_snapshot r) /\
  is_i64 (generation r) /\ is_i64 (sequence r) /\ is_i64 (micros (imported_at r)).

(** The kinds of rows and their sealed fields *)
Definition purposes : list (string * string) :=
  [("snapshot", "manifest"); ("channel", "metadata"); ("channel", "stream"); ("channel", "logo");
   ("guide", "metadata"); ("programme", "metadata")]%string.

Definition row_ok (kind : string) (row : SealedRow) : Prop :=
  is_uuid (r_id row) /\ (forall g, r_guide row = Some g -> is_uuid g) /\
  (if String.eqb kind "channel" then exists k, r_channel_key row = Some k /\ Str.len k = 32
   else r_channel_key row = None) /\
  is_i64 (opt_micros (r_start row)) /\ is_i64 (opt_micros (r_stop row)) /\ is_i32 (r_flags row).

Record Place := mk_place { p_receipt : Receipt; p_kind : string; p_row : SealedRow; p_purpose : string }.
Definition place_ok (p : Place) : Prop :=
  receipt_ok (p_receipt p) /\ (p_kind p, p_purpose p) ∈ purposes /\ row_ok (p_kind p) (p_row p).
Definition text_of (p : Place) : string :=
  field_text (p_receipt p) (p_kind p) (p_row p) (p_purpose p).

(** Two places that agree in all that is sealed with a value: the import, the field,
    the row and what the row says in clear *)
Definition same_place (p q : Place) : Prop :=
  assignment (p_receipt p) = assignment (p_receipt q) /\
  receipt_snapshot (p_receipt p) = receipt_snapshot (p_receipt q) /\
  generation (p_receipt p) = generation (p_receipt q) /\
  attempt (p_receipt p) = attempt (p_receipt q) /\ sequence (p_receipt p) = sequence (p_receipt q) /\
  micros (imported_at (p_receipt p)) = micros (imported_at (p_receipt q)) /\
  p_kind p = p_kind q /\ p_purpose p = p_purpose q /\
  unwrap_or (r_guide (p_row p)) 0 = unwrap_or (r_guide (p_row q)) 0 /\
  r_channel_key (p_row p) = r_channel_key (p_row q) /\
  opt_micros (r_start (p_row p)) = opt_micros (r_start (p_row q)) /\
  opt_micros (r_stop (p_row p)) = opt_micros (r_stop (p_row q)) /\
  r_flags (p_row p) = r_flags (p_row q).

Definition row_text (row : SealedRow) : string :=
  uuid_bytes (unwrap_or (r_guide row) 0) +:+ unwrap_or (r_channel_key row) EmptyString
  +:+ Str.be_bytes 8 (opt_micros (r_start row)) +:+ Str.be_bytes 8 (opt_micros (r_stop row))
  +:+ Str.be_bytes 4 (r_flags row).

Lemma row_text_len (kind : string) (row : SealedRow) :
  row_ok kind row -> Str.len (row_text row) = if String.eqb kind "channel" then 68 else 36.
Proof using L.
  intros (_ & _ & K & _). unfold row_text. rewrite !str_len_app, uuid_len, !be_bytes_len.
  destruct (String.eqb kind "channel"); [|by rewrite K].
  destruct K as (k & -> & K). cbn [unwrap_or]. by rewrite K.
Qed.

(** The lengths of the kinds, with those of their rows, tell the fields apart. *)
Lemma kinds_apart (k k' u u' : string) (s t : string) :
  (k, u) ∈ purposes -> (k', u') ∈ purposes ->
  Str.len s = (if String.eqb k "channel" then 68 else 36) ->
  Str.len t = (if String.eqb k' "channel" then 68 else 36) ->
  k +:+ u +:+ s = k' +:+ u' +:+ t -> k = k' /\ u = u' /\ s = t.
Proof using Type.
  intros H H' S T X. pose proof (f_equal Str.len X) as Len.
  rewrite !str_len_app, S, T in Len. clear S T.
  unfold purposes in H, H'. rewrite !elem_of_cons in H, H'.
  repeat match goal with H : _ \/ _ |- _ => destruct H as [[= -> ->]|H] end;
    try (by apply elem_of_nil in H); try (by apply elem_of_nil in H');
    repeat match goal with H : _ \/ _ |- _ => destruct H as [[= -> ->]|H] end;
    try (by apply elem_of_nil in H); try (by apply elem_of_nil in H');
    try (vm_compute in Len; discriminate Len);
    (apply app_inj_len in X as [_ X]; [|done]; apply app_inj_len in X as [_ X]; [|done]; done).
Qed.

Lemma zero_is_uuid (row : SealedRow) (kind : string) :
  row_ok kind row -> is_uuid (unwrap_or (r_guide row) 0).
Proof using Type.
  intros (_ & G & _). destruct (r_guide row) as [g|]; cbn; [by apply G|]. unfold is_uuid. lia.
Qed.

Lemma row_text_inj (k : string) (a b : SealedRow) :
  row_ok k a -> row_ok k b -> row_text a = row_text b ->
  unwrap_or (r_guide a) 0 = unwrap_or (r_guide b) 0 /\ r_channel_key a = r_channel_key b /\
  opt_micros (r_start a) = opt_micros (r_start b) /\ opt_micros (r_stop a) = opt_micros (r_stop b) /\
  r_flags a = r_flags b.
Proof using L.
  intros A B X. pose proof (zero_is_uuid a k A) as Ua. pose proof (zero_is_uuid b k B) as Ub.
  destruct A as (_ & _ & Ka & Sa & Pa & Fa), B as (_ & _ & Kb & Sb & Pb & Fb).
  unfold row_text in X. apply app_inj_len in X as [X1 X]; [|by rewrite !uuid_len].
  apply uuid_inj in X1; [|done..].
  assert (K : r_channel_key a = r_channel_key b /\
              Str.be_bytes 8 (opt_micros (r_start a)) +:+ Str.be_bytes 8 (opt_micros (r_stop a))
                +:+ Str.be_bytes 4 (r_flags a)
              = Str.be_bytes 8 (opt_micros (r_start b)) +:+ Str.be_bytes 8 (opt_micros (r_stop b))
                +:+ Str.be_bytes 4 (r_flags b)).
  { destruct (String.eqb k "channel").
    - destruct Ka as (x & Ea & La), Kb as (y & Eb & Lb). rewrite Ea, Eb in X |- *. cbn [unwrap_or] in X.
      apply app_inj_len in X as [-> X]; [done|lia].
    - rewrite Ka, Kb in X |- *. done. }
  destruct K as [K Y]. clear X.
  apply app_inj_len in Y as [Y1 Y]; [|by rewrite !be_bytes_len].
  apply app_inj_len in Y as [Y2 Y3]; [|by rewrite !be_bytes_len].
  apply be_bytes_i64 in Y1, Y2; [|done..]. apply be_bytes_i32 in Y3; [|done..]. done.
Qed.

Lemma text_of_inj (p q : Place) : place_ok p -> place_ok q -> text_of p = text_of q -> same_place p q.
Proof using L.
  intros (Rp & Pp & Op) (Rq & Pq & Oq) X.
  pose proof (row_text_len _ _ Op) as Lp. pose proof (row_text_len _ _ Oq) as Lq.
  destruct Rp as (_ & A1 & A2 & A3 & A4 & A5 & A6), Rq as (_ & B1 & B2 & B3 & B4 & B5 & B6).
  unfold text_of, field_text in X.
  apply app_inj_len in X as [_ X]; [|done]. apply app_inj_len in X as [_ X]; [|done].
  apply app_inj_len in X as [X1 X]; [|by rewrite !uuid_len].
  apply app_inj_len in X as [X2 X]; [|by rewrite !uuid_len].
  apply app_inj_len in X as [X3 X]; [|by rewrite !be_bytes_len].
  apply app_inj_len in X as [X4 X]; [|by rewrite !uuid_len].
  apply app_inj_len in X as [X5 X]; [|by rewrite !be_bytes_len].
  apply app_inj_len in X as [X6 X]; [|by rewrite !be_bytes_len].
  apply uuid_inj in X1, X2, X4; [|done..]. apply be_bytes_i64 in X3, X5, X6; [|done..].
  apply (kinds_apart (p_kind p) (p_kind q) (p_purpose p) (p_purpose q) (row_text (p_row p)) (row_text (p_row q)))
    in X as (K & U & R); [|done..].
  rewrite <- K in Oq. pose proof (row_text_inj _ _ _ Op Oq R) as (?&?&?&?&?).
  unfold same_place. repeat split; done.
Qed.

(** A value sealed for one place is never opened at another one, unless two texts
    with the same digest are known: the associated data of different places differ. *)
Theorem sealed_place_is_unique (p q : Place) (a : string) :
  place_ok p -> place_ok q ->
  associated_data (context_of (p_receipt p) (p_kind p) (p_row p) (p_purpose p)) = Ok a ->
  associated_data (context_of (p_receipt q) (p_kind q) (p_row q) (p_purpose q)) = Ok a ->
  user (p_receipt p) = user (p_receipt q) /\ r_id (p_row p) = r_id (p_row q) /\
  (same_place p q \/ (text_of p <> text_of q /\ sha256 (text_of p) = sha256 (text_of q))).
Proof using L.
  intros P Q A B. pose proof P as ((Up & _) & _ & Ip & _). pose proof Q as ((Uq & _) & _ & Iq & _).
  pose proof (associated_data_inj
    (context_of (p_receipt p) (p_kind p) (p_row p) (p_purpose p))
    (context_of (p_receipt q) (p_kind q) (p_row q) (p_purpose q)) a Up Ip Uq Iq A B) as X. clear A B.
  unfold context_of in X. injection X as A1 A2 A3. split; [done|]. split; [done|].
  apply (f_equal unbase64_url) in A3. rewrite !base64_url_inv in A3. injection A3 as A3.
  destruct (decide (text_of p = text_of q)) as [D|D]; [left; by apply text_of_inj|by right].
Qed.

(** ** The constraints of the tables *)

Definition opt_sealed (s : option string) : Prop := forall t, s = Some t -> sealed_size t.

(** live_tv_catalog_guides, live_tv_catalog_channels, live_tv_catalog_programmes *)
Definition guide_row (row : SealedRow) : Prop := sealed_size (r_metadata row).
Definition channel_row (guides : list Z) (row : SealedRow) : Prop :=
  sealed_size (r_metadata row) /\ (exists s, r_stream row = Some s /\ sealed_size s) /\
  opt_sealed (r_logo row) /\ (exists k, r_channel_key row = Some k /\ Str.len k = 32) /\
  (forall g, r_guide row = Some g -> g ∈ guides).
Definition programme_row (guides : list Z) (row : SealedRow) : Prop :=
  sealed_size (r_metadata row) /\ (exists g, r_guide row = Some g /\ g ∈ guides) /\
  0 <= r_flags row <= 15 /\
  match r_start row, r_stop row with Some a, Some b => a < b | _, _ => True end.

Lemma seal_size (r : Receipt) (kind purpose value s : string) (row : SealedRow) (w w' : Work) :
  seal r kind row purpose value w = Ok (s, w') -> sealed_size s.
Proof using L.
  unfold seal. destruct (seal_record _ _ _) as [t|] eqn:S; [|done]. intros H%ok_inj.
  injection H as -> _. by apply seal_record_opens in S as [Z _].
Qed.

Lemma seal_channel_row (r : Receipt) (guides : BTree.t Guide) (c : Channel) (row : SealedRow)
    (w w' : Work) :
  seal_channel r guides c w = Ok (row, w') -> Str.len (c_key c) = 32 ->
  channel_row (map g_id (BTree.values guides)) row /\ r_channel_key row = Some (c_key c).
Proof using L.
  unfold seal_channel. intros H K. destruct (check w) as [w1|]; [|done].
  destruct (json _) as [m|]; [|done]. destruct (payload _ _ _) as [w2|]; [|done].
  destruct (seal _ _ _ "metadata" _ _) as [[sm w3]|] eqn:M; [|done].
  destruct (seal _ _ _ "stream" _ _) as [[ss w4]|] eqn:S; [|done].
  destruct (match c_logo c with Some _ => _ | None => _ end) as [[sl w5]|] eqn:G; [|done].
  destruct (payload w5 _ _) as [w6|]; [|done]. apply ok_inj in H. injection H as <- _.
  split; [|done]. apply seal_size in M, S. split; [done|]. split; [by exists ss|]. split; [|split].
  - intros t T. cbn in T. destruct (c_logo c) as [v|].
    + destruct (seal _ _ _ "logo" _ _) as [[x w7]|] eqn:X; [|done]. apply ok_inj in G.
      injection G as <- _. injection T as ->. by apply seal_size in X.
    + apply ok_inj in G. injection G as <- _. done.
  - by exists (c_key c).
  - cbn. intros g Hg. destruct (c_guide c) as [k|]; [|done].
    destruct (BTree.get k guides) as [x|] eqn:B; [|done]. injection Hg as <-.
    apply BTree.elem_of_get in B. unfold BTree.values. rewrite map_map.
    apply list_elem_of_fmap. by exists (k, x).
Qed.

Lemma seal_channels_rows (r : Receipt) (guides : BTree.t Guide) (l : list Channel)
    (rows : list SealedRow) (w w' : Work) :
  seal_channels r guides l w = Ok (rows, w') -> Forall (fun c => Str.len (c_key c) = 32) l ->
  Forall (channel_row (map g_id (BTree.values guides))) rows /\
  map r_channel_key rows = map (fun c => Some (c_key c)) l.
Proof using L.
  revert rows w. induction l as [|c l IH]; intros rows w H K; cbn [seal_channels] in H.
  - apply ok_inj in H. injection H as <- _. by split.
  - apply Forall_cons in K as [Kc K].
    destruct (seal_channel r guides c w) as [[row w1]|] eqn:S; [|done].
    destruct (seal_channels r guides l w1) as [[rest w2]|] eqn:R; [|done].
    apply ok_inj in H. injection H as <- <-. apply seal_channel_row in S as [S Sk]; [|done].
    destruct (IH _ _ R K) as [F M]. split; [by constructor|]. cbn [map]. by rewrite Sk, M.
Qed.

Lemma seal_programmes_rows (r : Receipt) (g : Z) (ids : list Z) (l : list Programme)
    (rows : list SealedRow) (w w' : Work) :
  seal_programmes r g l w = Ok (rows, w') -> g ∈ ids ->
  Forall (fun p => 0 <= flags p <= 15 /\ ordered p) l ->
  Forall (programme_row ids) rows /\ length rows = length l.
Proof using L.
  intros H G. revert rows w H. induction l as [|p l IH]; intros rows w H A; cbn [seal_programmes] in H.
  - apply ok_inj in H. injection H as <- _. by split.
  - apply Forall_cons in A as [[Fp Op] A].
    destruct (seal_programme r g p w) as [[row w1]|] eqn:S; [|done].
    destruct (seal_programmes r g l w1) as [[rest w2]|] eqn:R; [|done].
    apply ok_inj in H. injection H as <- <-. destruct (IH _ _ R A) as [F M].
    split; [|cbn [length]; lia]. constructor; [|done].
    unfold seal_programme in S. destruct (check w) as [w3|]; [|done].
    destruct (json _) as [m|]; [|done]. destruct (payload _ _ _) as [w4|]; [|done].
    destruct (seal _ _ _ _ _ _) as [[sm w5]|] eqn:M'; [|done].
    destruct (payload w5 _ _) as [w6|]; [|done]. apply ok_inj in S. injection S as <- _.
    apply seal_size in M'. split; [done|]. split; [by exists g|]. by split.
Qed.

Lemma seal_guides_rows (r : Receipt) (ids : list Z) (l : list Guide)
    (rows programmes_ : list SealedRow) (w w' : Work) :
  seal_guides r l w = Ok (rows, programmes_, w') ->
  Forall (fun g => g_id g ∈ ids /\ Forall (fun p => 0 <= flags p <= 15 /\ ordered p) (programmes g)) l ->
  Forall guide_row rows /\ map r_id rows = map g_id l /\ Forall (programme_row ids) programmes_ /\
  length programmes_ = sum_list_with (fun g => length (programmes g)) l.
Proof using L.
  revert rows programmes_ w. induction l as [|g l IH]; intros rows ps w H A; cbn [seal_guides] in H.
  - apply ok_inj in H. injection H as <- <- _. by repeat split.
  - apply Forall_cons in A as [[Gi Gp] A].
    destruct (seal_guide r g w) as [[row w1]|] eqn:S; [|done].
    destruct (seal_programmes r (g_id g) (programmes g) w1) as [[pr w2]|] eqn:P; [|done].
    destruct (seal_guides r l w2) as [[[rest prest] w3]|] eqn:R; [|done].
    apply ok_inj in H. injection H as <- <- <-.
    destruct (IH _ _ _ R A) as (F & M & Q & N). apply (seal_programmes_rows r _ ids) in P as [P1 P2]; [|done..].
    assert (X : guide_row row /\ r_id row = g_id g).
    { unfold seal_guide in S. destruct (check w) as [w4|]; [|done].
      destruct (json _) as [m|]; [|done]. destruct (payload _ _ _) as [w5|]; [|done].
      destruct (seal _ _ _ _ _ _) as [[sm w6]|] eqn:M'; [|done].
      destruct (payload w6 _ _) as [w7|]; [|done]. apply ok_inj in S. injection S as <- _.
      by apply seal_size in M'. }
    destruct X as [X1 X2]. split; [by constructor|]. split; [cbn [map]; by rewrite X2, M|].
    split; [by apply Forall_app|]. rewrite length_app. cbn [sum_list_with]. lia.
Qed.

(** C39. What playlist and guide give is storable: the numbers of rows, the sizes of
    sealed values, the order and the flags of programmes, the guides the rows refer
    to; two channels have the same key only if their streams have the same digest. *)
Theorem catalogue_is_storable (utf8 : string -> option string) (reader : string -> list LiveGuide.Read * LiveGuide.Last)
    (playlist guide : string) (r : Receipt) (channels : list Channel) (guides : BTree.t Guide)
    (c : Candidate) (w w1 w2 w3 : Work) :
  LivePlaylist.parse utf8 playlist (assignment r) w = Ok (channels, w1) ->
  LiveGuide.parse reader guide channels w1 = Ok (guides, w2) ->
  encode channels guides r w2 = Ok (c, w3) ->
  Z.of_nat (length (cand_channels c)) <= 10000 /\ Z.of_nat (length (cand_guides c)) <= 10000 /\
  Z.of_nat (length (cand_programmes c)) <= 250000 /\ sealed_size (manifest c) /\
  Forall guide_row (cand_guides c) /\
  Forall (channel_row (map r_id (cand_guides c))) (cand_channels c) /\
  Forall (programme_row (map r_id (cand_guides c))) (cand_programmes c) /\
  exists streams, NoDup streams /\
    map r_channel_key (cand_channels c)
    = map (fun u => Some (sha256 (LivePlaylist.key_text (assignment r) u))) streams.
Proof using L.
  intros P G H. apply LivePlaylistProofs.parse_ok in P as (N & seen & Ok1 & ND & Keys).
  apply imported_guides_are_annotated in G as (Ng & Np & A).
  assert (K32 : Forall (fun c => Str.len (c_key c) = 32) channels).
  { apply Forall_forall. intros x Hx. assert (Kx : c_key x ∈ map c_key channels).
    { apply list_elem_of_fmap. by exists x. }
    rewrite Keys in Kx. apply list_elem_of_fmap in Kx as (u & -> & _). apply sha_len. }
  unfold encode in H. destruct (json _) as [m|]; [|done].
  destruct (payload _ (Str.len m) 0) as [w4|]; [|done].
  destruct (seal _ _ _ "manifest" _ _) as [[sealed w5]|] eqn:M; [|done].
  destruct (payload w5 _ _) as [w6|]; [|done].
  destruct (seal_channels r guides channels w6) as [[crows w7]|] eqn:SC; [|done].
  destruct (seal_guides r (BTree.values guides) w7) as [[[grows prows] w8]|] eqn:SG; [|done].
  apply ok_inj in H. injection H as <- _. cbn [cand_channels cand_guides cand_programmes manifest].
  apply seal_channels_rows in SC as [C1 C2]; [|done].
  apply (seal_guides_rows r (map g_id (BTree.values guides))) in SG as (G1 & G2 & G3 & G4).
  2: { apply Forall_forall. intros g Hg. split; [apply list_elem_of_fmap; by exists g|].
       apply list_elem_of_fmap in Hg as ([k x] & -> & Hx). destruct (A k x Hx) as (_ & _ & _ & _ & Q).
       apply Forall_lookup. intros i p Hp. destruct (Q i p Hp) as (? & ? & _). done. }
  rewrite G2. pose proof (f_equal length C2) as Lc. rewrite !length_map in Lc.
  pose proof (f_equal length G2) as Lg. unfold BTree.values in Lg. rewrite !length_map in Lg.
  unfold CHANNELS, PROGRAMMES, total in *.
  split; [lia|]. split; [lia|]. split; [lia|]. split; [by apply seal_size in M|].
  split; [done|]. split; [done|]. split; [done|].
  exists (rev seen). split; [by rewrite <- Permutation_rev|].
  rewrite C2, <- (map_map c_key Some), Keys, map_map. done.
Qed.

End Laws.

(** ** The statements that insert the rows *)

Definition MEBIBYTE : Z := 1024 * 1024.
Definition costs (rows : list SealedRow) : Z := fold_right (fun row n => cost row + n) 0 rows.

Lemma take_batch_spec (n : nat) (b : Z) (rows batch rest : list SealedRow) :
  take_batch n b rows = (batch, rest) ->
  rows = batch ++ rest /\ (length batch <= n)%nat /\ (batch <> [] -> b + costs batch <= MEBIBYTE).
Proof.
  revert b rows batch. induction n as [|n IH]; intros b rows batch; cbn [take_batch].
  - intros [= <- <-]. done.
  - destruct rows as [|row rows]; [by intros [= <- <-]; split; [done|split; [cbn; lia|]]|].
    destruct (1024 * 1024 <? b + cost row) eqn:L.
    + intros [= <- <-]. split; [done|]. split; [cbn; lia|done].
    + destruct (take_batch n (b + cost row) rows) as [x y] eqn:T. intros [= <- <-].
      destruct (IH _ _ _ T) as (-> & Len & Sum). split; [done|]. split; [cbn; lia|]. intros _.
      dk_bool. cbn [costs fold_right]. fold (costs x). unfold MEBIBYTE in *.
      destruct x as [|z x]; [cbn; lia|]. specialize (Sum ltac:(done)). lia.
Qed.

Lemma take_batch_empty (n : nat) (row : SealedRow) (rows rest : list SealedRow) :
  take_batch (S n) 0 (row :: rows) = ([], rest) <-> MEBIBYTE < cost row /\ rest = row :: rows.
Proof.
  cbn [take_batch]. destruct (1024 * 1024 <? 0 + cost row) eqn:L; dk_bool; unfold MEBIBYTE.
  - split; [intros [= <-]; split; [lia|done]|by intros [_ ->]].
  - destruct (take_batch _ _ _) as [x y]. split; [done|]. intros [? _]. lia.
Qed.

Lemma cost_pos (row : SealedRow) : 1024 <= cost row.
Proof.
  unfold cost, opt_len, Str.len. destruct (r_stream row), (r_logo row); lia.
Qed.

(** A statement inserts some rows, not more than 250, and not more than a mebibyte. *)
Definition statement (execute : list SealedRow -> bool) (batch : list SealedRow) : Prop :=
  batch <> [] /\ (length batch <= 250)%nat /\ costs batch <= MEBIBYTE /\ execute batch = true.

Lemma insert_loop_rows (cancelled : nat -> bool) (execute : list SealedRow -> bool) (fuel n : nat)
    (rows : list SealedRow) (batches : list (list SealedRow)) :
  (length rows <= fuel)%nat -> insert_loop cancelled execute fuel n rows = Ok batches ->
  concat batches = rows /\ Forall (statement execute) batches.
Proof.
  revert n rows batches. induction fuel as [|fuel IH]; intros n rows batches F;
    (destruct rows as [|row rows]; [by intros [= <-]|]); [cbn in F; lia|].
  cbn [insert_loop]. destruct (cancelled n); [done|].
  destruct (take_batch 250 0 (row :: rows)) as [batch rest] eqn:T.
  destruct batch as [|b batch]; [done|].
  destruct (execute (b :: batch)) eqn:X; [|done].
  destruct (insert_loop cancelled execute fuel (S n) rest) as [bs|] eqn:R; [|done].
  intros <-%ok_inj. apply take_batch_spec in T as (Eq & Len & Sum).
  specialize (Sum ltac:(done)).
  assert (Lr : (length rest <= fuel)%nat).
  { apply (f_equal length) in Eq. rewrite length_app in Eq. cbn [length] in F, Eq. lia. }
  destruct (IH _ _ _ Lr R) as [C A].
  rewrite Eq. cbn [concat]. rewrite C. split; [done|]. constructor; [|done]. repeat split; auto; lia.
Qed.

Lemma insert_loop_ok (execute : list SealedRow -> bool) (fuel n : nat) (rows : list SealedRow) :
  (forall b, execute b = true) -> (length rows <= fuel)%nat ->
  is_ok (insert_loop (fun _ => false) execute fuel n rows) = true <->
  Forall (fun row => cost row <= MEBIBYTE) rows.
Proof.
  intros X. revert n rows. induction fuel as [|fuel IH]; intros n rows F;
    (destruct rows as [|row rows]; [split; [constructor|done]|]); [cbn in F; lia|].
  cbn [insert_loop]. destruct (take_batch 250 0 (row :: rows)) as [batch rest] eqn:T.
  destruct batch as [|b batch].
  { apply take_batch_empty in T as [T _]. split; [done|]. intros [H _]%Forall_cons. lia. }
  pose proof T as (Eq & Len & Sum)%take_batch_spec. rewrite X.
  specialize (Sum ltac:(done)). cbn [Z.add] in Sum.
  assert (H : is_ok (let? batches := insert_loop (fun _ => false) execute fuel (S n) rest in
                     Ok ((b :: batch) :: batches))
              = is_ok (insert_loop (fun _ => false) execute fuel (S n) rest))
    by (by destruct (insert_loop _ _ _ _ _)).
  assert (Lr : (length rest <= fuel)%nat).
  { apply (f_equal length) in Eq. rewrite length_app in Eq. cbn [length] in F, Eq. lia. }
  rewrite H, (IH _ _ Lr), Eq, Forall_app. split; [|by intros [_ ?]]. intros R. split; [|done].
  clear -Sum. apply Forall_forall. intros x Hx. revert Sum Hx. generalize (b :: batch). intros l.
  induction l as [|y l IH]; [intros _ Hx; by apply elem_of_nil in Hx|].
  cbn [costs fold_right]. fold (costs l). intros Sum [->|Hx]%elem_of_cons.
  - assert (0 <= costs l); [|lia]. clear. induction l as [|z l IH]; cbn; [lia|].
    pose proof (cost_pos z). unfold costs in IH. lia.
  - pose proof (cost_pos y). apply IH; [lia|done].
Qed.

(** Publishing inserts the rows as they are, in their order, in statements of a
    bounded size; undisturbed it refuses them exactly when one of them alone is
    larger than a statement may be. *)
Theorem rows_are_inserted (cancelled : nat -> bool) (execute : list SealedRow -> bool)
    (rows : list SealedRow) :
  (forall batches, insert cancelled execute rows = Ok batches ->
     concat batches = rows /\ Forall (statement execute) batches) /\
  (is_ok (insert (fun _ => false) (fun _ => true) rows) = true <->
   Forall (fun row => cost row <= MEBIBYTE) rows).
Proof.
  split; [intros batches; by apply insert_loop_rows|by apply insert_loop_ok].
Qed.

(** The rows of a catalogue are never too large for a statement. *)
Lemma sealed_rows_fit (row : SealedRow) :
  sealed_size (r_metadata row) -> opt_sealed (r_stream row) -> opt_sealed (r_logo row) ->
  cost row <= MEBIBYTE.
Proof.
  unfold opt_sealed, sealed_size, cost, MEBIBYTE, MAX_RECORD_ENVELOPE_BYTES.
  intros [M _] S G. unfold opt_len.
  destruct (r_stream row) as [s|]; [destruct (S s eq_refl)|];
    (destruct (r_logo row) as [l|]; [destruct (G l eq_refl)|]); lia.
Qed.

(** ** Concrete functions with the documented behaviour *)

Fixpoint repeat_char (n : nat) (c : ascii) : string :=
  match n with O => EmptyString | S n => String c (repeat_char n c) end.

Definition sample_pad (s : string) : nat :=
  Z.to_nat (4 * ((Str.len s + 2) / 3) - Str.len s).
(** The padding is a one and zeros. *)
Definition sample_base64 (s : string) : string :=
  match sample_pad s with
  | O => s
  | S n => s +:+ String "1" (repeat_char n "0")
  end.
Definition sample_unbase64 (s : string) : option string :=
  match Str.trim_start_char "0" (Str.rev s) with
  | EmptyString => Some EmptyString
  | String _ t => Some (Str.rev t)
  end.
Definition zeros (n : nat) : string := repeat_char n "0".

#[local] Instance sealing_env : Env :=
  {| is_cancelled := fun _ => false; is_late := fun _ => false; now_v7 := Z.of_nat;
     parse_uuid := Dec.parse_digits u64_max; hyphenated := Dec.print; uuid_bytes := Str.be_bytes 16;
     to_string := fun v => Some (show v); sha256 := fun _ => zeros 32;
     parse_naive := fun s => let! n := Dec.parse_digits u64_max s in Some (n, 0);
     parse_zoned := fun _ => None;
     parse_url := fun s => let! p := Str.strip_prefix "http://h" s in
                           Some (mk_url "http" (Some (Domain "h")) None "" None p None (Some 80) "http://h") |}.
#[local] Instance sample_crypto : Crypto :=
  {| base64 := sample_base64; unbase64 := sample_unbase64;
     base64_url := fun s => s +:+ zeros 11; unbase64_url := Str.strip_suffix (zeros 11);
     aead_seal := fun _ _ v => Some (v +:+ zeros 16);
     aead_open := fun _ _ c => Some (String.substring 0 (String.length c - 16) c);
     random := fun _ => Some (zeros 12); from_utf8 := Some; show_time := Dec.print_int |}.

Lemma repeat_char_len (n : nat) (c : ascii) : Str.len (repeat_char n c) = Z.of_nat n.
Proof. unfold Str.len. induction n; cbn [repeat_char String.length]; lia. Qed.

Lemma rev_repeat (n : nat) (c : ascii) : Str.rev (repeat_char n c) = repeat_char n c.
Proof.
  assert (G : forall n, repeat_char n c +:+ String c EmptyString = String c (repeat_char n c)).
  { clear n. intros n. induction n as [|n IH]; [done|]. cbn [repeat_char].
    change (String c (repeat_char n c) +:+ String c "") with (String c (repeat_char n c +:+ String c "")).
    by rewrite IH. }
  induction n as [|n IH]; [done|]. cbn [repeat_char]. by rewrite rev_cons, IH, G.
Qed.

Lemma take_front (a b : string) (n : nat) :
  Str.len b = Z.of_nat n -> String.substring 0 (String.length (a +:+ b) - n) (a +:+ b) = a.
Proof.
  intros H. rewrite string_length_app. unfold Str.len in H.
  replace (String.length a + String.length b - n)%nat with (String.length a) by lia.
  by destruct (substring_app a b).
Qed.

Lemma sample_pad_pos (s : string) :
  Str.len s <= 4 * ((Str.len s + 2) / 3) /\
  (0 < Str.len s -> Str.len s < 4 * ((Str.len s + 2) / 3)).
Proof.
  assert (0 <= Str.len s) by (unfold Str.len; lia). revert H. generalize (Str.len s). intros n H. dk_lia.
Qed.

Lemma trim_zeros (n : nat) (s : string) :
  Str.trim_start_char "0" (repeat_char n "0" +:+ String "1" s) = String "1" s.
Proof. induction n as [|n IH]; [done|]. exact IH. Qed.

Lemma sample_unbase64_inv (s : string) : sample_unbase64 (sample_base64 s) = Some s.
Proof.
  unfold sample_unbase64, sample_base64. destruct (sample_pad s) as [|n] eqn:P.
  - destruct s as [|c s]; [done|]. exfalso. pose proof (sample_pad_pos (String c s)) as B.
    unfold sample_pad in P. unfold Str.len in *. cbn [String.length] in *. lia.
  - rewrite rev_app, rev_cons, rev_repeat, str_app_assoc.
    change (String "1" EmptyString +:+ Str.rev s) with (String "1" (Str.rev s)).
    by rewrite trim_zeros, rev_rev.
Qed.

#[local] Instance sample_laws : CryptoLaws sealing_env sample_crypto.
Proof.
  constructor.
  - exact sample_unbase64_inv.
  - intros s. cbn [base64 sample_crypto]. unfold sample_base64. pose proof (sample_pad_pos s) as B.
    destruct (sample_pad s) as [|n] eqn:P; unfold sample_pad in P; [lia|].
    change (String "1" (repeat_char n "0")) with (String "1" EmptyString +:+ repeat_char n "0").
    rewrite !str_len_app, repeat_char_len. change (Str.len (String "1" EmptyString)) with 1. lia.
  - intros s. apply strip_suffix_app.
  - intros s H. cbn [base64_url sample_crypto]. rewrite str_len_app, H. reflexivity.
  - intros n a v c [= <-]. cbn. f_equal. apply take_front. reflexivity.
  - intros n a v c [= <-]. rewrite str_len_app. reflexivity.
  - intros s t [= ->]. reflexivity.
  - intros n s [= <-]. reflexivity.
  - intros u. apply be_bytes_len.
  - intros u v U V H%be_bytes_inj. change (256 ^ Z.of_nat 16) with (2 ^ 128) in H.
    unfold is_uuid in *. rewrite !Z.mod_small in H; lia.
  - intros s. reflexivity.
Qed.

(** The theorems at a playlist of two channels and the guide of one of them *)
Definition sample_receipt : Receipt := mk_receipt 5 6 1 8 1 9 1000.
Definition sample_playlist : string :=
  "#EXTM3U" +:+ Str.bytes [10]%nat
  +:+ "#EXTINF:-1 tvg-id=" +:+ String LivePlaylist.quote ("one" +:+ String LivePlaylist.quote ",One")
  +:+ Str.bytes [10]%nat +:+ "http://h/proxy/ts/stream/11" +:+ Str.bytes [10]%nat
  +:+ "#EXTINF:-1,Two" +:+ Str.bytes [10]%nat +:+ "http://h/proxy/ts/stream/12" +:+ Str.bytes [10]%nat.
Definition first_work : Work := mk_work 0 0 0 0.
Definition sample_channels : list Channel * Work :=
  Eval vm_compute in
    match @LivePlaylist.parse sealing_env Some sample_playlist 6 first_work with
    | Ok r => r | Err _ => ([], first_work) end.
Definition sample_imported : BTree.t Guide * Work :=
  Eval vm_compute in
    match @LiveGuide.parse sealing_env sample_reader "" sample_channels.1 sample_channels.2 with
    | Ok r => r | Err _ => ([], first_work) end.
Definition sample_candidate : Candidate * Work :=
  Eval vm_compute in
    match @encode sealing_env sample_crypto sample_channels.1 sample_imported.1 sample_receipt sample_imported.2 with
    | Ok r => r | Err _ => (mk_candidate 0 "" [] [] [], first_work) end.

Lemma catalogue_is_storable_witness :
  length (cand_channels sample_candidate.1) = 2%nat /\ sealed_size (manifest sample_candidate.1).
Proof.
  split; [reflexivity|].
  eapply (@catalogue_is_storable sealing_env sample_crypto sample_laws Some sample_reader
            sample_playlist "" sample_receipt sample_channels.1 sample_imported.1 sample_candidate.1
            first_work sample_channels.2 sample_imported.2 sample_candidate.2);
    vm_compute; reflexivity.
Defined.

Definition sample_row : SealedRow := mk_row 3 (Some 4) None (Some 1000) (Some 2000) 0 "" None None.
Lemma sealed_value_opens_example :
  exists sealed w',
    @seal sealing_env sample_crypto sample_receipt "programme" sample_row "metadata" "{}" first_work
      = Ok (sealed, w') /\
    @open sealing_env sample_crypto sample_receipt "programme" sample_row "metadata" sealed = Ok "{}"%string.
Proof.
  destruct (@seal sealing_env sample_crypto sample_receipt "programme" sample_row "metadata" "{}" first_work)
    as [[sealed w']|] eqn:S; [|vm_compute in S; discriminate S].
  exists sealed, w'. split; [reflexivity|].
  exact (proj1 (@sealed_value_opens sealing_env sample_crypto sample_laws sample_receipt "programme"
                  "metadata" "{}" sealed sample_row first_work w' S eq_refl)).
Defined.

(** Two programmes of the same row number that differ in their start *)
Definition sample_place (start : Z) : Place :=
  mk_place sample_receipt "programme" (mk_row 3 (Some 4) None (Some start) (Some 9000) 0 "" None None) "metadata".
Lemma sample_place_ok (start : Z) : 0 <= start <= 10000 -> place_ok (sample_place start).
Proof.
  intros H. split; [|split].
  - repeat split; vm_compute; discriminate.
  - unfold purposes. do 5 right. by left.
  - unfold row_ok, is_uuid, is_i64, is_i32, i64_min, i64_max, i32_min, i32_max, opt_micros, micros.
    change (2 ^ 128) with 340282366920938463463374607431768211456. cbn.
    split; [lia|]. split; [intros g [= <-]; lia|]. split; [done|]. dk_lia.
Qed.
Lemma sealed_place_is_unique_example :
  text_of (sample_place 1000) <> text_of (sample_place 2000) /\
  sha256 (text_of (sample_place 1000)) = sha256 (text_of (sample_place 2000)).
Proof.
  assert (P : place_ok (sample_place 1000)) by (apply sample_place_ok; lia).
  assert (Q : place_ok (sample_place 2000)) by (apply sample_place_ok; lia).
  destruct (associated_data (context_of sample_receipt "programme" (p_row (sample_place 1000)) "metadata"))
    as [a|] eqn:A; [|vm_compute in A; discriminate A].
  assert (B : associated_data (context_of sample_receipt "programme" (p_row (sample_place 2000)) "metadata") = Ok a)
    by (rewrite <- A; vm_compute; reflexivity).
  destruct (sealed_place_is_unique (sample_place 1000) (sample_place 2000) a P Q A B) as (_ & _ & [X|X]);
    [|exact X].
  destruct X as (_ & _ & _ & _ & _ & _ & _ & _ & _ & _ & X & _). vm_compute in X. discriminate X.
Defined.

End LiveCodecProofs.
