(* ===== verification/LiveCatalog.v ===== *)
(** * Reading a catalogue

    domains/live_tv/catalog/{error,limits,query,cursor,types,service}.rs and
    feed/imports/reader: the pages of channels and programmes a profile reads, and
    the sealed cursors between them.  The queries are given as functions of the rows
    of a snapshot. *)

From stdpp Require Import sorting.
From S2P Require Import Prelude F64 Json BTree LiveImport LiveGuide LiveCodec.
Import Json LiveImport LiveCodec.

Module LiveCatalog.

Inductive CatalogError := Invalid | Forbidden | NotFound | Changed | Unavailable | Session.

#[export] Instance CatalogError_eq_dec : EqDecision CatalogError.
Proof. solve_decision. Defined.

(** ** limits.rs and query.rs *)

Definition CURSOR : Z := 2048.
Definition CURSOR_PLAIN : Z := 1024.
Definition QUERY : Z := 8192.

Record Budget := mk_budget { b_checks : nat; b_cipher : Z; b_plain : Z }.
Definition budget_new : Budget := mk_budget 0 0 0.

(** [id.get_version_num() == 7] *)
Definition version (id : Z) : Z := (id / 2 ^ 76) mod 16.

Definition limit_of (limit : option Z) : result Z CatalogError :=
  let value := unwrap_or limit 20 in
  if (1 <=? value) && (value <=? 100) then Ok value else Err Invalid.
Definition id_of (id : Z) : result Z CatalogError := if version id =? 7 then Ok id else Err Invalid.
Definition cursor_of (value : option string) : result unit CatalogError :=
  if is_some_and value (fun v => Str.is_empty v || (CURSOR <? Str.len v)) then Err Invalid else Ok tt.

Record Window := mk_window { from : Z; to_ : Z }.

(** The digits at the front of a string *)
Fixpoint digits (s : string) : Z :=
  match s with
  | String c t => if Str.is_digit c then 1 + digits t else 0
  | EmptyString => 0
  end.

(** [window]; [parse_rfc3339] is that of chrono: seconds and nanoseconds. *)
Section Window.
Context (parse_rfc3339 : string -> option (Z * Z)).
Definition instant (value : string) : result Z CatalogError :=
  if (64 <? Str.len value)
     || is_some_and (Str.split_once "." value) (fun p => 6 <? digits p.2) then Err Invalid
  else
    let? t := ok_or (parse_rfc3339 value) Invalid in
    if (1000000000 <=? t.2) || negb (t.2 mod 1000 =? 0) then Err Invalid
    else Ok (t.1 * 1000000000 + t.2).
Definition window (from to : string) : result Window CatalogError :=
  let? from := instant from in
  let? to := instant to in
  if (to <=? from) || (24 * 3600 * 1000000000 <? to - from) then Err Invalid
  else Ok (mk_window from to).
End Window.

(** ** cursor.rs *)

Inductive Position :=
| Channels (key : string)
| Timed (start id : Z)
| Unpositionable (id : Z).

Record Context_ := mk_cursor_context {
  cc_version : Z;
  cc_profile : Z;
  cc_profile_revision : Z;
  cc_credential_version : Z;
  cc_assignment : Z;
  cc_assignment_revision : Z;
  cc_generation : Z;
  cc_snapshot : Z;
  cc_limit : Z;
  cc_channel : option Z;
  cc_window : option Window;
}.

#[export] Instance Window_eq_dec : EqDecision Window.
Proof. solve_decision. Defined.
#[export] Instance Context_eq_dec : EqDecision Context_.
Proof. solve_decision. Defined.

(** [Viewing] with the [Scope] and the [Fence] it holds *)
Record Viewing := mk_viewing {
  v_user : Z;
  v_session : Z;
  v_profile : Z;
  v_version : Z;
  v_profile_revision : Z;
  v_assignment_revision : Z;
  v_assignment : Z;
  v_generation : Z;
}.

Definition context_new (view : Viewing) (snapshot limit : Z) (channel : option Z)
    (window : option Window) : Context_ :=
  mk_cursor_context 1 (v_profile view) (v_profile_revision view) (v_version view) (v_assignment view)
    (v_assignment_revision view) (v_generation view) snapshot limit channel window.

(** The values of the catalogue as they are stored (stored.rs) *)
Record TextMetadata := mk_text { lang : option string; value : string }.
Record RatingMetadata := mk_rating { system : option string; rating : string }.
Record ChannelMetadata := mk_channel_metadata {
  cm_name : string;
  cm_tvg_name : option string;
  cm_group : option string;
  cm_number : option string;
}.
Record GuideMetadata := mk_guide_metadata {
  undeclared : bool;
  ambiguous : bool;
  declarations : list (list TextMetadata);
}.
Record ProgrammeMetadata := mk_programme_metadata {
  pm_start : option string;
  pm_stop : option string;
  clumpidx : option string;
  titles : list TextMetadata;
  subtitles : list TextMetadata;
  descriptions : list TextMetadata;
  categories : list TextMetadata;
  ratings : list RatingMetadata;
}.

(** Outside the repository: the clock of the budget of a request, as its n-th check
    finds it, and what serde reads and writes. *)
Class Clock := budget_late : nat -> bool.
Class Wire := {
  envelope_to : Context_ * Position -> option string;
  envelope_of : string -> option (Context_ * Position);
  value_of : string -> option Value;
  channel_metadata : string -> option ChannelMetadata;
  guide_metadata : string -> option GuideMetadata;
  programme_metadata : string -> option ProgrammeMetadata;
}.

Section Env.
Context {E : Env} {C : Crypto} {W : Wire} {K : Clock}.

(** [Budget::check], [cipher] and [plain] *)
Definition budget_check (b : Budget) : result Budget CatalogError :=
  if budget_late (b_checks b) then Err Unavailable
  else Ok (mk_budget (S (b_checks b)) (b_cipher b) (b_plain b)).
Definition within_ (n : option Z) (max : Z) : option Z :=
  let! n := n in if n <=? max then Some n else None.
Definition cipher (bytes : Z) (b : Budget) : result Budget CatalogError :=
  let? b := budget_check b in
  let? n := ok_or (within_ (checked_add64 (b_cipher b) bytes) (2 * MIB)) Unavailable in
  Ok (mk_budget (b_checks b) n (b_plain b)).
Definition plain (bytes : Z) (b : Budget) : result Budget CatalogError :=
  let? b := budget_check b in
  let? n := ok_or (within_ (checked_add64 (b_plain b) bytes) MIB) Unavailable in
  Ok (mk_budget (b_checks b) (b_cipher b) n).

(** [binding] *)
Definition binding (view : Viewing) : RecordContext :=
  mk_context "live-tv-catalog-cursor" (v_user view) (v_session view) "v1".

(** [valid] *)
Definition valid (position : Position) (c : Context_) : bool :=
  match position with
  | Channels key =>
      (Str.len key =? 32) && negb (is_some_b (cc_channel c)) && negb (is_some_b (cc_window c))
  | Timed start id =>
      (version id =? 7) && (start mod 1000 =? 0) && is_some_b (cc_channel c) && is_some_b (cc_window c)
  | Unpositionable id =>
      (version id =? 7) && is_some_b (cc_channel c) && negb (is_some_b (cc_window c))
  end.

(** [decode] *)
Definition decode (view : Viewing) (c : Context_) (value : option string) (b : Budget)
  : result (option Position * Budget) CatalogError :=
  match value with
  | None => Ok (None, b)
  | Some value =>
      if Str.is_empty value || (CURSOR <? Str.len value) then Err Invalid
      else
        let? encoded := ok_or (unbase64_url value) Invalid in
        if 1536 <? Str.len encoded then Err Invalid
        else
          let? encoded := ok_or (from_utf8 encoded) Invalid in
          let? b := cipher (Str.len encoded) b in
          match open_record encoded (binding view) with
          | Err _ => Err Invalid
          | Ok text =>
              if CURSOR_PLAIN <? Str.len text then Err Invalid
              else
                let? b := plain (Str.len text) b in
                let? (context, position) := ok_or (envelope_of text) Invalid in
                if negb (cc_version context =? 1) || negb (valid position context) then Err Invalid
                else if bool_decide (context = c) then Ok (Some position, b) else Err Changed
          end
  end.

(** [encode] with the [n]-th nonce *)
Definition encode_cursor (n : nat) (view : Viewing) (c : Context_) (position : Position) (b : Budget)
  : result (string * Budget) CatalogError :=
  if negb (valid position c) then Err Unavailable
  else
    let? text := ok_or (envelope_to (c, position)) Unavailable in
    if CURSOR_PLAIN <? Str.len text then Err Unavailable
    else
      let? b := plain (Str.len text) b in
      match seal_record n text (binding view) with
      | Err _ => Err Unavailable
      | Ok envelope =>
          let? b := cipher (Str.len envelope) b in
          let value := base64_url envelope in
          if CURSOR <? Str.len value then Err Unavailable else Ok (value, b)
      end.

(** ** reader.rs and reader/snapshot.rs *)

(** [open] *)
Definition open_row (r : Receipt) (kind : string) (row : SealedRow) (b : Budget)
  : result (string * Budget) CatalogError :=
  let? b := budget_check b in
  match open r kind row "metadata" (r_metadata row) with
  | Err _ => Err Unavailable
  | Ok text =>
      if RECORD <? Str.len text then Err Unavailable
      else let? b := plain (Str.len text) b in Ok (text, b)
  end.

Record SnapshotRow := mk_snapshot_row {
  s_id : Z;
  s_generation : Z;
  s_attempt : Z;
  s_sequence : Z;
  s_imported_at : Z;
  s_manifest : string;
  s_channel_count : Z;
  s_guide_count : Z;
  s_programme_count : Z;
  s_state : string;
  s_category : option string;
}.

Definition between (n min max : Z) : bool := (min <=? n) && (n <=? max).

(** [snapshot]: the receipt of the current snapshot *)
Definition snapshot_of (view : Viewing) (row : option SnapshotRow) (b : Budget)
  : result (Receipt * Budget) CatalogError :=
  let? row := ok_or row Unavailable in
  if negb (s_generation row =? v_generation view) || negb (version (s_id row) =? 7)
     || negb (version (s_attempt row) =? 7) || (s_sequence row <=? 0)
     || negb (between (s_channel_count row) 0 10000) || negb (between (s_guide_count row) 0 10000)
     || negb (between (s_programme_count row) 0 250000) then Err Unavailable
  else
    let? b := cipher (Str.len (s_manifest row)) b in
    let r := mk_receipt (v_user view) (v_assignment view) (v_generation view) (s_attempt row)
               (s_sequence row) (s_id row) (s_imported_at row) in
    match open r "snapshot" (empty (s_id row)) "manifest" (s_manifest row) with
    | Err _ => Err Unavailable
    | Ok text =>
        let? b := plain (Str.len text) b in
        let? v := ok_or (value_of text) Unavailable in
        if negb (LiveGuide.value_eqb v
                   (manifest_of r (s_channel_count row) (s_guide_count row) (s_programme_count row)))
        then Err Unavailable
        else if negb (existsb (String.eqb (s_state row)) ["running"; "succeeded"; "failed"; "indeterminate"])
        then Err Unavailable
        else if is_some_and (s_category row)
                  (fun c => negb (existsb (String.eqb c)
                     ["authority"; "capacity"; "cancelled"; "deadline"; "network"; "format"; "limit";
                      "storage"; "indeterminate"; "cleanup"]))
        then Err Unavailable
        else Ok (r, b)
    end.

(** ** reader/projection.rs *)

Definition text_ok (s : string) (max : Z) : result unit CatalogError :=
  match text s max with Ok _ => Ok tt | Err _ => Err Unavailable end.
Definition optional (s : option string) : result unit CatalogError :=
  match s with Some s => text_ok s 4096 | None => Ok tt end.

Fixpoint each {A} (f : A -> result unit CatalogError) (l : list A) : result unit CatalogError :=
  match l with
  | [] => Ok tt
  | x :: l => let? _ := f x in each f l
  end.

Definition variants (l : list TextMetadata) (max : Z) : result (list TextMetadata) CatalogError :=
  if max <? Z.of_nat (length l) then Err Unavailable
  else
    let? _ := each (fun v =>
      let? _ := text_ok (value v) 4096 in
      match lang v with Some lang => text_ok lang 64 | None => Ok tt end) l in
    Ok l.

Definition project_channel (raw : string) : result ChannelMetadata CatalogError :=
  let? v := ok_or (channel_metadata raw) Unavailable in
  let? _ := text_ok (cm_name v) 4096 in
  let? _ := each optional [cm_tvg_name v; cm_group v; cm_number v] in
  Ok v.

Fixpoint each_variants (l : list (list TextMetadata)) (max : Z)
  : result (list (list TextMetadata)) CatalogError :=
  match l with
  | [] => Ok []
  | x :: l =>
      let? x := variants x max in
      let? l := each_variants l max in
      Ok (x :: l)
  end.

Definition project_guide (raw : string) : result GuideMetadata CatalogError :=
  let? v := ok_or (guide_metadata raw) Unavailable in
  if 8 <? Z.of_nat (length (declarations v)) then Err Unavailable
  else
    let? d := each_variants (declarations v) 4 in
    Ok (mk_guide_metadata (undeclared v) (ambiguous v) d).

Record ProgrammeResponse := mk_programme_response {
  pr_id : Z;
  starts_at : option Z;
  stops_at : option Z;
  pr_metadata : ProgrammeMetadata;
  uncertain : bool;
  conflict : bool;
  overlap : bool;
  clump : bool;
}.

Definition project_programme (row : SealedRow) (raw : string) : result ProgrammeResponse CatalogError :=
  let? v := ok_or (programme_metadata raw) Unavailable in
  if negb (between (r_flags row) 0 15) || (8 <? Z.of_nat (length (ratings v))) then Err Unavailable
  else
    let? _ := each optional [pm_start v; pm_stop v; clumpidx v] in
    let? _ := each (fun r => let? _ := optional (system r) in text_ok (rating r) 4096) (ratings v) in
    let? titles := variants (titles v) 4 in
    let? subtitles := variants (subtitles v) 4 in
    let? descriptions := variants (descriptions v) 4 in
    let? categories := variants (categories v) 8 in
    let bit n := negb (Z.land (r_flags row) n =? 0) in
    Ok (mk_programme_response (r_id row) (r_start row) (r_stop row)
          (mk_programme_metadata (pm_start v) (pm_stop v) (clumpidx v) titles subtitles descriptions
             categories (ratings v))
          (bit 1) (bit 2) (bit 4) (bit 8)).

(** ** reader/channels.rs and reader/programmes.rs

    The rows of a snapshot: what the queries select from. *)
Record Tables := mk_tables {
  t_snapshot : option SnapshotRow;
  t_guides : Z -> list SealedRow;
  t_channels : Z -> list SealedRow;
  t_programmes : Z -> list SealedRow;
}.

(** The orders of the queries *)
Definition channel_key (row : SealedRow) : string := unwrap_or (r_channel_key row) EmptyString.
Definition channel_le (p q : SealedRow) : Prop := String.leb (channel_key p) (channel_key q) = true.
Definition timed_key (row : SealedRow) : Z * Z := (unwrap_or (r_start row) 0, r_id row).
Definition pair_ltb (a b : Z * Z) : bool := (a.1 <? b.1) || ((a.1 =? b.1) && (a.2 <? b.2)).
Definition timed_le (p q : SealedRow) : Prop := pair_ltb (timed_key q) (timed_key p) = false.
Definition id_le (p q : SealedRow) : Prop := r_id p <= r_id q.

#[export] Instance channel_le_dec : RelDecision channel_le.
Proof. intros p q. unfold channel_le. apply _. Defined.
#[export] Instance timed_le_dec : RelDecision timed_le.
Proof. intros p q. unfold timed_le. apply _. Defined.
#[export] Instance id_le_dec : RelDecision id_le.
Proof. intros p q. unfold id_le. apply _. Defined.

(** One row more than the page shows *)
Definition limited (limit : Z) (rows : list SealedRow) : list SealedRow :=
  take (Z.to_nat limit + 1) rows.

Definition select_channels (rows : list SealedRow) (after : string) (limit : Z) : list SealedRow :=
  limited limit (List.filter (fun row => String.ltb after (channel_key row)) (merge_sort channel_le rows)).

(** The rows of a guide whose time meets the window, or is not known *)
Definition in_window (guide : Z) (w : Window) (row : SealedRow) : bool :=
  bool_decide (r_guide row = Some guide)
  && match r_start row, r_stop row with
     | Some start, Some stop => (start <? to_ w) && (from w <? stop)
     | _, _ => false
     end.
Definition without_time (guide : Z) (row : SealedRow) : bool :=
  bool_decide (r_guide row = Some guide)
  && (negb (is_some_b (r_start row)) || negb (is_some_b (r_stop row))).

(** [selection] *)
Definition selection (rows : list SealedRow) (guide : Z) (window : option Window)
    (after : option Position) (limit : Z) : result (list SealedRow) CatalogError :=
  match window with
  | Some w =>
      let sorted := merge_sort timed_le (List.filter (in_window guide w) rows) in
      match after with
      | None => Ok (limited limit sorted)
      | Some (Timed start id) =>
          Ok (limited limit (List.filter (fun row => pair_ltb (start, id) (timed_key row)) sorted))
      | Some _ => Err Changed
      end
  | None =>
      let sorted := merge_sort id_le (List.filter (without_time guide) rows) in
      match after with
      | None => Ok (limited limit sorted)
      | Some (Unpositionable id) =>
          Ok (limited limit (List.filter (fun row => id <? r_id row) sorted))
      | Some _ => Err Changed
      end
  end.

(** The loops over the rows of a page *)
Fixpoint ciphers (rows : list SealedRow) (b : Budget) : result Budget CatalogError :=
  match rows with
  | [] => Ok b
  | row :: rows => let? b := cipher (Str.len (r_metadata row)) b in ciphers rows b
  end.

Record ProgrammeEntry := mk_programme_entry { pe_value : ProgrammeResponse; pe_position : Position }.

Fixpoint programme_entries (r : Receipt) (timed : bool) (rows : list SealedRow) (b : Budget)
  : result (list ProgrammeEntry * Budget) CatalogError :=
  match rows with
  | [] => Ok ([], b)
  | row :: rows =>
      if negb (version (r_id row) =? 7) then Err Unavailable
      else
        let? position :=
          if timed then let? start := ok_or (r_start row) Unavailable in Ok (Timed start (r_id row))
          else Ok (Unpositionable (r_id row)) in
        let? (text, b) := open_row r "programme" row b in
        let? value := project_programme row text in
        let? (rest, b) := programme_entries r timed rows b in
        Ok (mk_programme_entry value position :: rest, b)
  end.

(** [programmes] of the reader *)
Definition read_programmes (t : Tables) (r : Receipt) (guide : option Z) (window : option Window)
    (after : option Position) (limit : Z) (b : Budget)
  : result (list ProgrammeEntry * bool * Budget) CatalogError :=
  if negb (between limit 1 100) then Err Unavailable
  else match guide with
  | None => Ok ([], false, b)
  | Some guide =>
      let? rows := selection (t_programmes t (receipt_snapshot r)) guide window after limit in
      let? b := ciphers rows b in
      let more := limit <? Z.of_nat (length rows) in
      let? (entries, b) := programme_entries r (is_some_b window) rows b in
      Ok (take (Z.to_nat limit) entries, more, b)
  end.

Record ChannelEntry := mk_channel_entry {
  ce_id : Z;
  ce_value : ChannelMetadata;
  ce_guide_value : option GuideMetadata;
  ce_key : string;
  ce_guide : option Z;
}.

Fixpoint guide_entries (r : Receipt) (rows : list SealedRow) (b : Budget)
  : result (list (Z * GuideMetadata) * Budget) CatalogError :=
  match rows with
  | [] => Ok ([], b)
  | row :: rows =>
      let? b := cipher (Str.len (r_metadata row)) b in
      let sealed := mk_row (r_id row) None None None None 0 (r_metadata row) None None in
      let? (text, b) := open_row r "guide" sealed b in
      let? v := project_guide text in
      let? (rest, b) := guide_entries r rows b in
      Ok ((r_id row, v) :: rest, b)
  end.

(** [guides] *)
Definition read_guides (t : Tables) (r : Receipt) (ids : list Z) (b : Budget)
  : result (list (Z * GuideMetadata) * Budget) CatalogError :=
  match ids with
  | [] => Ok ([], b)
  | _ =>
      if 100 <? Z.of_nat (length ids) then Err Unavailable
      else
        let rows := List.filter (fun row => existsb (Z.eqb (r_id row)) ids)
                      (t_guides t (receipt_snapshot r)) in
        if negb (length rows =? length ids)%nat then Err Unavailable else guide_entries r rows b
  end.

Fixpoint assoc {A} (k : Z) (m : list (Z * A)) : option A :=
  match m with
  | [] => None
  | (k', v) :: m => if k =? k' then Some v else assoc k m
  end.

(** What is sealed with the metadata of a channel *)
Definition channel_sealed (row : SealedRow) : SealedRow :=
  mk_row (r_id row) (r_guide row) (r_channel_key row) None None 0 (r_metadata row) None None.

Fixpoint channel_entries (r : Receipt) (guides : list (Z * GuideMetadata)) (rows : list SealedRow)
    (b : Budget) : result (list ChannelEntry * Budget) CatalogError :=
  match rows with
  | [] => Ok ([], b)
  | row :: rows =>
      if negb (version (r_id row) =? 7) || negb (Str.len (channel_key row) =? 32) then Err Unavailable
      else
        let? (text, b) := open_row r "channel" (channel_sealed row) b in
        let? guide :=
          match r_guide row with
          | Some id => let? g := ok_or (assoc id guides) Unavailable in Ok (Some g)
          | None => Ok None
          end in
        let? v := project_channel text in
        let? (rest, b) := channel_entries r guides rows b in
        Ok (mk_channel_entry (r_id row) v guide (channel_key row) (r_guide row) :: rest, b)
  end.

(** The guides of a page, each once and in order *)
Definition guide_ids (rows : list SealedRow) : list Z :=
  merge_sort Z.le (remove_dups (omap r_guide rows)).

(** [project] *)
Definition project_channels (t : Tables) (r : Receipt) (rows : list SealedRow) (b : Budget)
  : result (list ChannelEntry * Budget) CatalogError :=
  let? (guides, b) := read_guides t r (guide_ids rows) b in
  channel_entries r guides rows b.

(** [channels] of the reader *)
Definition read_channels (t : Tables) (r : Receipt) (after : string) (limit : Z) (b : Budget)
  : result (list ChannelEntry * bool * Budget) CatalogError :=
  if negb (between limit 1 100) || (negb (Str.is_empty after) && negb (Str.len after =? 32))
  then Err Unavailable
  else
    let rows := select_channels (t_channels t (receipt_snapshot r)) after limit in
    let? b := ciphers rows b in
    let more := limit <? Z.of_nat (length rows) in
    let? b :=
      if more then
        let? row := ok_or (last rows) Unavailable in
        if negb (version (r_id row) =? 7) || negb (Str.len (channel_key row) =? 32) then Err Unavailable
        else
          let? (text, b) := open_row r "channel" (channel_sealed row) b in
          let? _ := project_channel text in Ok b
      else Ok b in
    let? (entries, b) := project_channels t r (take (Z.to_nat limit) rows) b in
    Ok (entries, more, b).

(** [channel] *)
Definition read_channel (t : Tables) (r : Receipt) (id : Z) (b : Budget)
  : result (ChannelEntry * Budget) CatalogError :=
  let? row := ok_or (List.find (fun row => r_id row =? id) (t_channels t (receipt_snapshot r))) NotFound in
  let? b := cipher (Str.len (r_metadata row)) b in
  let? (entries, b) := project_channels t r [row] b in
  let? entry := ok_or (last entries) Unavailable in
  Ok (entry, b).

(** ** service.rs

    The work inside the transaction of a read; [view] is what authority reads, [b]
    the budget it leaves. *)
Record Page (A : Type) := mk_page { items : list A; next : option string; has_more : bool }.
Arguments mk_page {A}. Arguments items {A}. Arguments next {A}. Arguments has_more {A}.

(** [channels]; [n] numbers the nonce of the cursor. *)
Definition channels_page (t : Tables) (view : Viewing) (b : Budget) (n : nat) (limit : option Z)
    (cursor : option string) : result (Page ChannelEntry * Budget) CatalogError :=
  let? limit := limit_of limit in
  let? _ := cursor_of cursor in
  let? (r, b) := snapshot_of view (t_snapshot t) b in
  let context := context_new view (receipt_snapshot r) limit None None in
  let? (position, b) := decode view context cursor b in
  let? after :=
    match position with
    | None => Ok EmptyString
    | Some (Channels key) => Ok key
    | Some _ => Err Changed
    end in
  let? (entries, more, b) := read_channels t r after limit b in
  let? (next, b) :=
    if more then
      let? entry := ok_or (last entries) Unavailable in
      let? (cursor, b) := encode_cursor n view context (Channels (ce_key entry)) b in
      Ok (Some cursor, b)
    else Ok (None, b) in
  Ok (mk_page entries next more, b).

(** [programmes] of the service *)
Definition programmes_page (t : Tables) (view : Viewing) (b : Budget) (n : nat) (channel snapshot : Z)
    (window : option Window) (limit : option Z) (cursor : option string)
  : result (Page ProgrammeEntry * Budget) CatalogError :=
  let? channel := id_of channel in
  let? snapshot := id_of snapshot in
  let? limit := limit_of limit in
  let? _ := cursor_of cursor in
  let? (r, b) := snapshot_of view (t_snapshot t) b in
  if negb (receipt_snapshot r =? snapshot) then Err Changed
  else
    let context := context_new view (receipt_snapshot r) limit (Some channel) window in
    let? (position, b) := decode view context cursor b in
    let? (entry, b) := read_channel t r channel b in
    let? (entries, more, b) := read_programmes t r (ce_guide entry) window position limit b in
    let? (next, b) :=
      if more then
        let? last := ok_or (last entries) Unavailable in
        let? (cursor, b) := encode_cursor n view context (pe_position last) b in
        Ok (Some cursor, b)
      else Ok (None, b) in
    Ok (mk_page entries next more, b).

(** [Budget::serialize] of the response, written in pieces: at most a mebibyte *)
Fixpoint write_pieces (pieces : list string) (written : string) (b : Budget)
  : result (string * Budget) CatalogError :=
  match pieces with
  | [] => let? b := budget_check b in Ok (written, b)
  | p :: pieces =>
      let? b := budget_check b in
      if is_none_or (checked_add64 (Str.len written) (Str.len p)) (fun n => MIB <? n)
      then Err Unavailable
      else write_pieces pieces (written +:+ p) b
  end.
Definition serialize (pieces : list string) (b : Budget) : result (string * Budget) CatalogError :=
  write_pieces pieces EmptyString b.

End Env.

Arguments mk_page {A}. Arguments items {A}. Arguments next {A}. Arguments has_more {A}.

End LiveCatalog.
