(* ===== verification/LiveCatalogProofs.v ===== *)
(** * Theorems on reading a catalogue

    Cursors read back what they were sealed with, and a reader that follows them
    sees the rows a query selects, once each and in order. *)

From stdpp Require Import sorting.
From S2P Require Import Prelude F64 Json BTree LiveImport LiveGuide LiveGuideProofs LiveCodec.
From S2P Require Import LiveCodecProofs LiveCatalog.
Import Json LiveImport LiveCodec LiveGuideProofs LiveCodecProofs LiveCatalog.

Module LiveCatalogProofs.

(** ** The orders of the queries *)

#[export] Instance channel_le_trans : Transitive channel_le.
Proof.
  intros p q s H K. apply Is_true_true in H, K. apply Is_true_true.
  exact (transitivity (R := String.le) H K).
Qed.
#[export] Instance channel_le_total : Total channel_le.
Proof. intros p q. unfold channel_le. apply String.leb_total. Qed.

#[export] Instance timed_le_trans : Transitive timed_le.
Proof.
  intros p q s. unfold timed_le, pair_ltb, timed_key; cbn [fst snd].
  rewrite !orb_false_iff, !andb_false_iff, !Z.ltb_ge, !Z.eqb_neq. lia.
Qed.
#[export] Instance timed_le_total : Total timed_le.
Proof.
  intros p q. unfold timed_le, pair_ltb, timed_key; cbn [fst snd].
  rewrite !orb_false_iff, !andb_false_iff, !Z.ltb_ge, !Z.eqb_neq. lia.
Qed.
#[export] Instance id_le_trans : Transitive id_le.
Proof. intros p q s. unfold id_le. lia. Qed.
#[export] Instance id_le_total : Total id_le.
Proof. intros p q. unfold id_le. lia. Qed.

(** What comes after the last row shown is what is left of the list. *)
Lemma filter_after {A} (after : A -> A -> bool) (pre rest : list A) (x : A) :
  StronglySorted (fun p q => after p q = true /\ after q p = false) (pre ++ x :: rest) ->
  after x x = false -> List.filter (after x) (pre ++ x :: rest) = rest.
Proof.
  intros S X. induction pre as [|y pre IH].
  - cbn [app List.filter]. rewrite X. apply StronglySorted_inv in S as [_ F]. clear X.
    induction F as [|z rest [H _] _ IH]; [done|]. cbn [List.filter]. rewrite H. by f_equal.
  - apply StronglySorted_inv in S as [S F]. cbn [app List.filter].
    apply Forall_app in F as [_ [F _]%Forall_cons]. destruct F as [_ ->]. by apply IH.
Qed.

(** Sorting rows whose keys differ leaves them in a strict order. *)
Lemma strictly_sorted {A K} (le : A -> A -> Prop) `{!RelDecision le} `{!Transitive le} `{!Total le}
    (after : A -> A -> bool) (key : A -> K) (rows : list A) :
  NoDup (map key rows) ->
  (forall p q, le p q -> key p <> key q -> after p q = true /\ after q p = false) ->
  StronglySorted (fun p q => after p q = true /\ after q p = false) (merge_sort le rows).
Proof.
  intros N H. assert (N' : NoDup (map key (merge_sort le rows))) by (by rewrite merge_sort_Permutation).
  pose proof (StronglySorted_merge_sort le rows) as S. revert S N'.
  induction (merge_sort le rows) as [|x l IH]; intros S N'; [constructor|].
  apply StronglySorted_inv in S as [S F]. cbn [map] in N'. apply NoDup_cons in N' as [X N'].
  constructor; [by apply IH|]. apply Forall_forall. intros y Y. rewrite Forall_forall in F.
  apply H; [by apply F|]. intros Eq. apply X. rewrite Eq. by apply list_elem_of_fmap_2.
Qed.

Lemma nodup_filter {A K} (key : A -> K) (f : A -> bool) (rows : list A) :
  NoDup (map key rows) -> NoDup (map key (List.filter f rows)).
Proof.
  induction rows as [|x l IH]; [done|]. cbn [map List.filter]. intros [X N]%NoDup_cons.
  destruct (f x); [|by apply IH]. cbn [map]. apply NoDup_cons. split; [|by apply IH].
  intros M. apply X. apply list_elem_of_fmap in M as (y & -> & Y). apply list_elem_of_fmap_2.
  apply list_elem_of_In in Y. apply filter_In in Y as [Y _]. by apply list_elem_of_In.
Qed.

(** ** A reader that follows the cursors *)

Section Following.
Context {A : Type}.
(** One request: its clock, what its budget has left, its nonce and the cursor it sends *)
Context (ask : Clock -> Budget -> nat -> option string -> result (Page A) CatalogError).

Inductive follows : option string -> list (list A) -> Prop :=
| last_page clock b n cursor page :
    ask clock b n cursor = Ok page -> next page = None -> follows cursor [items page]
| further_page clock b n cursor page cursor' pages :
    ask clock b n cursor = Ok page -> next page = Some cursor' ->
    follows (Some cursor') pages -> follows cursor (items page :: pages).

(** Every page but the last one is full. *)
Fixpoint paged (limit : nat) (pages : list (list A)) : Prop :=
  match pages with
  | [] => False
  | [p] => (length p <= limit)%nat
  | p :: pages => length p = limit /\ paged limit pages
  end.

Context {R : Type} (shows : R -> A -> Prop) (limit : nat).
(** What a cursor has still to show *)
Context (remains : option string -> list R -> Prop).
Context (step : forall clock b n cursor page rest,
  ask clock b n cursor = Ok page -> remains cursor rest ->
  Forall2 shows (take limit rest) (items page) /\
  match next page with
  | None => (length rest <= limit)%nat
  | Some cursor' => (limit < length rest)%nat /\ remains (Some cursor') (drop limit rest)
  end).

Lemma following_shows (cursor : option string) (rest : list R) (pages : list (list A)) :
  follows cursor pages -> remains cursor rest ->
  Forall2 shows rest (concat pages) /\ paged limit pages.
Proof using step.
  intros F. revert rest. induction F as [clock b n cursor page H N|clock b n cursor page cursor' pages H N F IH];
    intros rest M; destruct (step _ _ _ _ _ _ H M) as [Sh Nx]; rewrite N in Nx.
  - rewrite take_ge in Sh by done. cbn [concat paged]. rewrite app_nil_r.
    split; [done|]. by rewrite <- (Forall2_length _ _ _ Sh).
  - destruct Nx as [Lt M']. destruct (IH _ M') as [Sh' Pg]. split.
    + cbn [concat]. rewrite <- (take_drop limit rest). by apply Forall2_app.
    + assert (L : length (items page) = limit)
        by (rewrite <- (Forall2_length _ _ _ Sh), length_take; lia).
      destruct pages; [by inversion F|]. by split.
Qed.
End Following.

(** ** Cursors *)

(** What is documented of serde_json: it reads what it wrote, and writes UTF-8. *)
Class WireLaws (C : Crypto) (W : Wire) : Prop := {
  envelope_inv e s : envelope_to e = Some s -> envelope_of s = Some e;
  envelope_utf8 e s : envelope_to e = Some s -> from_utf8 s = Some s;
}.

Section Laws.
Context {E : Env} {C : Crypto} {W : Wire} {L : CryptoLaws E C} {LW : WireLaws C W}.

(** A cursor of this view and this page *)
Definition cursor_for (view : Viewing) (c : Context_) (position : Position) (cursor : string) : Prop :=
  exists (clock : Clock) n b b', encode_cursor n view c position b = Ok (cursor, b').

Lemma decode_cursor (clock : Clock) (view : Viewing) (c : Context_) (position : Position) (cursor : string)
    (b : Budget) (x : option Position * Budget) :
  cursor_for view c position cursor -> decode view c (Some cursor) b = Ok x -> x.1 = Some position.
Proof using L LW.
  intros (clock' & n & b1 & b2 & H). unfold encode_cursor in H.
  destruct (valid position c) eqn:V; [|done]. cbn [negb] in H.
  destruct (envelope_to (c, position)) as [text|] eqn:T; [|done]. cbn [ok_or] in H.
  destruct (CURSOR_PLAIN <? Str.len text); [done|]. destruct (plain (Str.len text) b1) as [b3|]; [|done].
  destruct (seal_record n text (binding view)) as [sealed|] eqn:S; [|done].
  destruct (cipher (Str.len sealed) b3) as [b4|]; [|done].
  destruct (CURSOR <? Str.len (base64_url sealed)); [done|]. injection H as <- _.
  apply seal_record_opens in S as [_ O]. specialize (O (envelope_utf8 _ _ T)).
  cbn [decode]. destruct (Str.is_empty _ || _); [done|]. rewrite base64_url_inv. cbn [ok_or].
  destruct (1536 <? Str.len sealed); [done|].
  destruct (from_utf8 sealed) as [s|] eqn:U; [|done]. cbn [ok_or]. apply utf8_same in U as ->.
  destruct (cipher (Str.len sealed) b) as [b5|]; [|done]. rewrite O.
  destruct (CURSOR_PLAIN <? Str.len text); [done|]. destruct (plain (Str.len text) b5) as [b6|]; [|done].
  rewrite (envelope_inv _ _ T). cbn [ok_or]. rewrite V.
  destruct (negb (cc_version c =? 1) || negb true); [done|]. rewrite bool_decide_true by done.
  by intros <-%ok_inj.
Qed.

(** ** Pages of programmes *)

(** The receipt of the snapshot that is read *)
Definition receipt_of (view : Viewing) (row : SnapshotRow) : Receipt :=
  mk_receipt (v_user view) (v_assignment view) (v_generation view) (s_attempt row) (s_sequence row)
    (s_id row) (s_imported_at row).

Lemma snapshot_receipt (clock : Clock) (view : Viewing) (row : option SnapshotRow) (b : Budget)
    (x : Receipt * Budget) :
  snapshot_of view row b = Ok x -> exists s, row = Some s /\ x.1 = receipt_of view s.
Proof using Type.
  unfold snapshot_of. destruct row as [s|]; [|done]. cbn [ok_or]. intros H. exists s. split; [done|].
  succeed H. by subst.
Qed.

(** An entry that shows a row: its metadata opened and projected *)
Definition shows_programme (r : Receipt) (timed : bool) (row : SealedRow) (e : ProgrammeEntry) : Prop :=
  pe_position e = (if timed then Timed (unwrap_or (r_start row) 0) (r_id row) else Unpositionable (r_id row)) /\
  exists text, open r "programme" row "metadata" (r_metadata row) = Ok text /\
               project_programme row text = Ok (pe_value e).

Lemma open_row_text (clock : Clock) (r : Receipt) (kind : string) (row : SealedRow) (b : Budget)
    (x : string * Budget) :
  open_row r kind row b = Ok x -> open r kind row "metadata" (r_metadata row) = Ok x.1.
Proof using Type. unfold open_row. intros H. succeed H. by subst. Qed.

Lemma programme_entries_show (clock : Clock) (r : Receipt) (timed : bool) (rows : list SealedRow)
    (b : Budget) (x : list ProgrammeEntry * Budget) :
  programme_entries r timed rows b = Ok x -> Forall2 (shows_programme r timed) rows x.1.
Proof using Type.
  revert b x. induction rows as [|row rows IH]; intros b x; cbn [programme_entries]; [by intros <-%ok_inj|].
  destruct (negb (version (r_id row) =? 7)); [done|].
  destruct (if timed then _ else _) as [position|] eqn:P; [|done].
  destruct (open_row r "programme" row b) as [[text b1]|] eqn:O; [|done].
  destruct (project_programme row text) as [value|] eqn:V; [|done].
  destruct (programme_entries r timed rows b1) as [[rest b2]|] eqn:Rest; [|done]. intros <-%ok_inj.
  constructor; [|by apply IH in Rest]. apply open_row_text in O. split; [|by exists text].
  destruct timed; [|by apply ok_inj in P as <-]. destruct (r_start row); [|done]. by apply ok_inj in P as <-.
Qed.

(** The rows a page selects from, in their order *)
Definition chosen (rows : list SealedRow) (guide : option Z) (window : option Window) : list SealedRow :=
  match guide with
  | None => []
  | Some guide =>
      match window with
      | Some w => merge_sort timed_le (List.filter (in_window guide w) rows)
      | None => merge_sort id_le (List.filter (without_time guide) rows)
      end
  end.

Definition position_of (window : option Window) (row : SealedRow) : Position :=
  if is_some_b window then Timed (unwrap_or (r_start row) 0) (r_id row) else Unpositionable (r_id row).

Lemma timed_strict (p q : SealedRow) :
  timed_le p q -> r_id p <> r_id q ->
  pair_ltb (timed_key p) (timed_key q) = true /\ pair_ltb (timed_key q) (timed_key p) = false.
Proof using Type.
  unfold timed_le, pair_ltb, timed_key; cbn [fst snd]. intros H N. split; [|exact H]. revert H.
  rewrite !orb_false_iff, !andb_false_iff, !orb_true_iff, !andb_true_iff, !Z.ltb_ge, !Z.ltb_lt,
    !Z.eqb_neq, !Z.eqb_eq. lia.
Qed.

Lemma timed_irreflexive (p : SealedRow) : pair_ltb (timed_key p) (timed_key p) = false.
Proof using Type.
  unfold pair_ltb. by rewrite !Z.ltb_irrefl, andb_false_r.
Qed.

(** After a row the query finds what follows it. *)
Lemma selection_after (rows : list SealedRow) (guide : Z) (window : option Window) (limit : Z)
    (pre rest : list SealedRow) (row : SealedRow) :
  NoDup (map r_id rows) -> chosen rows (Some guide) window = pre ++ row :: rest ->
  selection rows guide window (Some (position_of window row)) limit = Ok (limited limit rest).
Proof using Type.
  intros N. unfold chosen, selection, position_of. destruct window as [w|]; cbn [is_some_b]; intros Eq; rewrite Eq.
  - f_equal. f_equal. apply (filter_after (fun p q => pair_ltb (timed_key p) (timed_key q)) pre);
      [|apply timed_irreflexive]. rewrite <- Eq.
    apply (strictly_sorted timed_le (fun p q => pair_ltb (timed_key p) (timed_key q)) r_id);
      [by apply nodup_filter|by apply timed_strict].
  - f_equal. f_equal. apply (filter_after (fun p q => r_id p <? r_id q) pre); [|apply Z.ltb_irrefl].
    rewrite <- Eq. apply (strictly_sorted id_le (fun p q => r_id p <? r_id q) r_id); [by apply nodup_filter|].
    unfold id_le. intros p q. rewrite Z.ltb_lt, Z.ltb_ge. lia.
Qed.

Lemma selection_first (rows : list SealedRow) (guide : Z) (window : option Window) (limit : Z) :
  selection rows guide window None limit = Ok (limited limit (chosen rows (Some guide) window)).
Proof using Type. by destruct window. Qed.

(** An entry that shows a row of channels, with its guide *)
Definition shows_guide (t : Tables) (r : Receipt) (id : Z) (v : GuideMetadata) : Prop :=
  exists row text, row ∈ t_guides t (receipt_snapshot r) /\ r_id row = id /\
    open r "guide" (mk_row id None None None None 0 (r_metadata row) None None) "metadata" (r_metadata row)
      = Ok text /\ project_guide text = Ok v.

Definition shows_channel (t : Tables) (r : Receipt) (row : SealedRow) (e : ChannelEntry) : Prop :=
  ce_id e = r_id row /\ ce_key e = channel_key row /\ ce_guide e = r_guide row /\
  match r_guide row with
  | None => ce_guide_value e = None
  | Some id => exists v, ce_guide_value e = Some v /\ shows_guide t r id v
  end /\
  exists text, open r "channel" (channel_sealed row) "metadata" (r_metadata row) = Ok text /\
               project_channel text = Ok (ce_value e).

Lemma guide_entries_show (clock : Clock) (t : Tables) (r : Receipt) (rows : list SealedRow) (b : Budget)
    (x : list (Z * GuideMetadata) * Budget) (id : Z) (v : GuideMetadata) :
  (forall row, row ∈ rows -> row ∈ t_guides t (receipt_snapshot r)) ->
  guide_entries r rows b = Ok x -> assoc id x.1 = Some v -> shows_guide t r id v.
Proof using Type.
  revert b x. induction rows as [|row rows IH]; intros b x Sub; cbn [guide_entries]; [by intros <-%ok_inj|].
  destruct (cipher _ b) as [b1|]; [|done].
  destruct (open_row r "guide" _ b1) as [[text b2]|] eqn:O; [|done].
  destruct (project_guide text) as [w|] eqn:V; [|done].
  destruct (guide_entries r rows b2) as [[rest b3]|] eqn:Rest; [|done]. intros <-%ok_inj. cbn [fst assoc].
  destruct (Z.eqb_spec id (r_id row)) as [->|].
  - intros [= <-]. apply open_row_text in O. exists row, text. split; [by apply Sub; left|by split].
  - apply (IH _ _ (fun y Y => Sub y (list_elem_of_further _ _ _ Y)) Rest).
Qed.

Lemma read_guides_show (clock : Clock) (t : Tables) (r : Receipt) (ids : list Z) (b : Budget)
    (x : list (Z * GuideMetadata) * Budget) (id : Z) (v : GuideMetadata) :
  read_guides t r ids b = Ok x -> assoc id x.1 = Some v -> shows_guide t r id v.
Proof using Type.
  unfold read_guides. destruct ids as [|i ids]; [by intros <-%ok_inj|].
  destruct (100 <? _); [done|]. destruct (negb _); [done|]. apply guide_entries_show.
  intros row. rewrite !list_elem_of_In, filter_In. tauto.
Qed.

Lemma channel_entries_show (clock : Clock) (t : Tables) (r : Receipt) (guides : list (Z * GuideMetadata))
    (rows : list SealedRow) (b : Budget) (x : list ChannelEntry * Budget) :
  (forall id v, assoc id guides = Some v -> shows_guide t r id v) ->
  channel_entries r guides rows b = Ok x -> Forall2 (shows_channel t r) rows x.1.
Proof using Type.
  intros G. revert b x. induction rows as [|row rows IH]; intros b x; cbn [channel_entries];
    [by intros <-%ok_inj|].
  destruct (negb _ || _); [done|].
  destruct (open_row r "channel" _ b) as [[text b1]|] eqn:O; [|done].
  destruct (match r_guide row with Some _ => _ | None => _ end) as [guide|] eqn:X; [|done].
  destruct (project_channel text) as [value|] eqn:V; [|done].
  destruct (channel_entries r guides rows b1) as [[rest b2]|] eqn:Rest; [|done]. intros <-%ok_inj.
  constructor; [|by apply IH in Rest]. apply open_row_text in O.
  unfold shows_channel. cbn [ce_id ce_key ce_guide ce_guide_value ce_value].
  do 3 (split; [done|]). split; [|by exists text].
  destruct (r_guide row) as [id|]; [|by apply ok_inj in X].
  destruct (assoc id guides) as [v|] eqn:A; [|done]. apply ok_inj in X as <-. exists v. auto.
Qed.

Lemma project_channels_show (clock : Clock) (t : Tables) (r : Receipt) (rows : list SealedRow) (b : Budget)
    (x : list ChannelEntry * Budget) :
  project_channels t r rows b = Ok x -> Forall2 (shows_channel t r) rows x.1.
Proof using Type.
  unfold project_channels. destruct (read_guides t r (guide_ids rows) b) as [[guides b1]|] eqn:G; [|done].
  apply channel_entries_show. intros id v. by apply (read_guides_show _ _ _ _ _ _ _ _ G).
Qed.

Definition channel_row (t : Tables) (snapshot id : Z) : option SealedRow :=
  List.find (fun row => r_id row =? id) (t_channels t snapshot).

Lemma read_channel_shows (clock : Clock) (t : Tables) (r : Receipt) (id : Z) (b : Budget)
    (x : ChannelEntry * Budget) :
  read_channel t r id b = Ok x ->
  exists row, channel_row t (receipt_snapshot r) id = Some row /\ shows_channel t r row x.1.
Proof using Type.
  unfold read_channel. fold (channel_row t (receipt_snapshot r) id).
  destruct (channel_row t _ id) as [row|]; [|done]. cbn [ok_or]. intros H. exists row. split; [done|].
  destruct (cipher _ b) as [b1|]; [|done].
  destruct (project_channels t r [row] b1) as [[entries b2]|] eqn:P; [|done].
  apply project_channels_show in P. cbn [fst] in P.
  inversion P as [|? e ? l Sh Nil]; subst. inversion Nil; subst. cbn [last ok_or] in H. by apply ok_inj in H as <-.
Qed.

(** ** Following the pages *)

Lemma limited_more (limit : Z) (rest : list SealedRow) :
  0 <= limit -> (limit <? Z.of_nat (length (limited limit rest))) = (limit <? Z.of_nat (length rest)).
Proof using Type.
  unfold limited. rewrite length_take. intros ?. apply eq_true_iff_eq. rewrite !Z.ltb_lt. lia.
Qed.

Lemma limited_take (limit : Z) (rest : list SealedRow) :
  take (Z.to_nat limit) (limited limit rest) = take (Z.to_nat limit) rest.
Proof using Type. unfold limited. rewrite take_take. f_equal. lia. Qed.

(** What a page shows is what is left: the next cursor is for its last row. *)
Lemma split_at_last {A} (shown : nat) (rest : list A) :
  (0 < shown < length rest)%nat ->
  exists pre row, take shown rest = pre ++ [row] /\ rest = pre ++ row :: drop shown rest.
Proof using Type.
  intros H. destruct (take shown rest) as [|row pre _] eqn:T using rev_ind.
  - apply (f_equal length) in T. rewrite length_take in T. cbn in T. lia.
  - exists pre, row. split; [done|]. rewrite <- (take_drop shown rest) at 1. by rewrite T, <- app_assoc.
Qed.

Lemma last_shown {A B} (shows : A -> B -> Prop) (pre : list A) (row : A) (l : list B) :
  Forall2 shows (pre ++ [row]) l -> exists e, last l = Some e /\ shows row e.
Proof using Type.
  intros (l1 & l2 & _ & H & ->)%Forall2_app_inv_l. inversion H as [|? e ? k Sh Nil]; subst.
  inversion Nil; subst. exists e. by rewrite last_snoc.
Qed.

Section Pages.
Context (t : Tables) (view : Viewing) (s : SnapshotRow).
Context (Snap : t_snapshot t = Some s).
Let r := receipt_of view s.

Lemma limit_of_bounds (limit l : Z) : limit_of (Some limit) = Ok l -> l = limit /\ 1 <= limit <= 100.
Proof using Type.
  unfold limit_of. cbn [unwrap_or]. destruct (_ && _) eqn:B; [|done]. intros <-%ok_inj. dk_bool. lia.
Qed.

Section Programmes.
Context (channel : Z) (window : option Window) (limit : Z).
Let guide := let! row := channel_row t (s_id s) channel in r_guide row.
Let rows := t_programmes t (s_id s).
Context (N : NoDup (map r_id rows)).

Definition ask_programmes (clock : Clock) (b : Budget) (n : nat) (cursor : option string)
  : result (Page ProgrammeEntry) CatalogError :=
  let? (page, _) := programmes_page t view b n channel (s_id s) window (Some limit) cursor in Ok page.

(** What a cursor has still to show *)
Definition programmes_left (cursor : option string) (rest : list SealedRow) : Prop :=
  match cursor with
  | None => rest = chosen rows guide window
  | Some cursor =>
      exists pre row, chosen rows guide window = pre ++ row :: rest /\
        cursor_for view (context_new view (s_id s) limit (Some channel) window) (position_of window row) cursor
  end.

Lemma read_programmes_show (clock : Clock) (after : option Position) (b b' : Budget)
    (entries : list ProgrammeEntry) (more : bool) (rest : list SealedRow) :
  (forall g, guide = Some g -> selection rows g window after limit = Ok (limited limit rest)) ->
  (guide = None -> rest = []) ->
  read_programmes t r guide window after limit b = Ok (entries, more, b') ->
  Forall2 (shows_programme r (is_some_b window)) (take (Z.to_nat limit) rest) entries /\
  more = (limit <? Z.of_nat (length rest)).
Proof using Type.
  intros Sel Nil. unfold read_programmes. destruct (negb (between limit 1 100)) eqn:Lim; [done|].
  apply negb_false_iff in Lim. unfold between in Lim.
  assert (0 <= limit) by (apply andb_true_iff in Lim as [?%Z.leb_le _]; lia).
  destruct guide as [g|] eqn:G.
  - change (receipt_snapshot r) with (s_id s). fold rows. rewrite (Sel g eq_refl).
    destruct (ciphers _ b) as [b1|]; [|done].
    destruct (programme_entries r (is_some_b window) (limited limit rest) b1) as [[l b2]|] eqn:P; [|done].
    apply programme_entries_show in P. cbn [fst] in P. intros [= <- <- _]. split.
    + rewrite <- limited_take. by apply Forall2_take.
    + by apply limited_more.
  - rewrite (Nil eq_refl). intros [= <- <- _]. rewrite take_nil. split; [constructor|].
    symmetry. apply Z.ltb_ge. cbn. lia.
Qed.

Lemma programmes_step (clock : Clock) (b : Budget) (n : nat) (cursor : option string) (page : Page ProgrammeEntry)
    (rest : list SealedRow) :
  ask_programmes clock b n cursor = Ok page -> programmes_left cursor rest ->
  Forall2 (shows_programme r (is_some_b window)) (take (Z.to_nat limit) rest) (items page) /\
  match next page with
  | None => (length rest <= Z.to_nat limit)%nat
  | Some cursor' =>
      (Z.to_nat limit < length rest)%nat /\ programmes_left (Some cursor') (drop (Z.to_nat limit) rest)
  end.
Proof using L LW N Snap.
  unfold ask_programmes, programmes_page. intros H Left.
  destruct (id_of channel) as [c|] eqn:Ic; [|done].
  assert (c = channel) as -> by (unfold id_of in Ic; destruct (_ =? _); [by apply ok_inj in Ic|done]).
  destruct (id_of (s_id s)) as [d|] eqn:Id; [|done].
  destruct (limit_of (Some limit)) as [l|] eqn:Il; [|done]. apply limit_of_bounds in Il as [-> Il].
  destruct (cursor_of cursor) as [[]|]; [|done].
  destruct (snapshot_of view (t_snapshot t) b) as [[r' b1]|] eqn:Sn; [|done].
  apply snapshot_receipt in Sn as (s' & Sn & R). rewrite Snap in Sn. injection Sn as <-.
  cbn [fst] in R. fold r in R. subst r'. change (receipt_snapshot r) with (s_id s) in H.
  destruct (negb (s_id s =? d)); [done|].
  destruct (decode view _ cursor b1) as [[position b2]|] eqn:D; [|done].
  destruct (read_channel t r channel b2) as [[entry b3]|] eqn:Rc; [|done].
  apply read_channel_shows in Rc as (crow & Rc & Sh). cbn [fst] in Sh. destruct Sh as (_ & _ & Sg & _).
  assert (G : ce_guide entry = guide).
  { unfold guide. change (s_id s) with (receipt_snapshot r). by rewrite Rc. }
  rewrite G in H. clear Rc Sg.
  destruct (read_programmes t r guide window position limit b3) as [[[entries more] b4]|] eqn:Rp; [|done].
  assert (P : Forall2 (shows_programme r (is_some_b window)) (take (Z.to_nat limit) rest) entries /\
              more = (limit <? Z.of_nat (length rest)) /\
              exists pre, chosen rows guide window = pre ++ rest).
  { unfold programmes_left in Left. destruct cursor as [cursor|].
    - destruct Left as (pre & row & Eq & Cf).
      apply (decode_cursor _ _ _ _ _ _ _ Cf) in D. cbn [fst] in D. subst position.
      apply read_programmes_show with (rest := rest) in Rp as [F M].
      + split; [done|]. split; [done|]. exists (pre ++ [row]). by rewrite <- app_assoc.
      + intros g Eg. rewrite Eg in Eq. by apply (selection_after rows g window limit pre).
      + intros Eg. rewrite Eg in Eq. by destruct pre.
    - cbn [decode] in D. injection D as <- _.
      apply read_programmes_show with (rest := rest) in Rp as [F M].
      + split; [done|]. split; [done|]. by exists [].
      + intros g Eg. rewrite Left, Eg. apply selection_first.
      + intros Eg. by rewrite Left, Eg. }
  clear Rp Left D. destruct P as (F & -> & pre & Eq).
  destruct (Z.ltb_spec limit (Z.of_nat (length rest))) as [More|Few].
  - destruct (split_at_last (Z.to_nat limit) rest ltac:(lia)) as (shown & row & T & Cut).
    rewrite T in F. destruct (last_shown _ _ _ _ F) as (e & La & [Pos _]). rewrite La in H. cbn [ok_or] in H.
    destruct (encode_cursor n view _ (pe_position e) b4) as [[cursor' b5]|] eqn:En; [|done].
    apply ok_inj in H as <-. cbn [items next]. rewrite T. split; [done|]. split; [lia|].
    cbn [programmes_left]. exists (pre ++ shown), row. split.
    + rewrite Eq, <- app_assoc. f_equal. exact Cut.
    + rewrite Pos in En. unfold position_of. by exists clock, n, b4, b5.
  - apply ok_inj in H as <-. cbn [items next]. split; [done|lia].
Qed.

(** C40. A reader that follows the cursors of a list of programmes sees the programmes of
    the channel's guide that meet the window (or whose times are not known), each
    one once, in the order of their starts and as its metadata opens, on full pages
    up to the last one, whatever the clocks, budgets and nonces of the requests. *)
Theorem programmes_are_paged (pages : list (list ProgrammeEntry)) :
  follows ask_programmes None pages ->
  Forall2 (shows_programme r (is_some_b window)) (chosen rows guide window) (concat pages) /\
  paged (Z.to_nat limit) pages.
Proof using L LW N Snap.
  intros F. by apply (following_shows ask_programmes _ _ programmes_left programmes_step None).
Qed.
End Programmes.
Section Channels.
Context (limit : Z).
Let rows := t_channels t (s_id s).
Context (N : NoDup (map channel_key rows)) (Keys : Forall (fun row => Str.len (channel_key row) = 32) rows).

Definition ask_channels (clock : Clock) (b : Budget) (n : nat) (cursor : option string)
  : result (Page ChannelEntry) CatalogError :=
  let? (page, _) := channels_page t view b n (Some limit) cursor in Ok page.

Definition channels_left (cursor : option string) (rest : list SealedRow) : Prop :=
  match cursor with
  | None => rest = merge_sort channel_le rows
  | Some cursor =>
      exists pre row, merge_sort channel_le rows = pre ++ row :: rest /\
        cursor_for view (context_new view (s_id s) limit None None) (Channels (channel_key row)) cursor
  end.

Lemma ltb_irreflexive (k : string) : String.ltb k k = false.
Proof using Type. unfold String.ltb. pose proof (String.compare_antisym k k) as H. by destruct (String.compare k k). Qed.

Lemma channel_strict (p q : SealedRow) :
  channel_le p q -> channel_key p <> channel_key q ->
  String.ltb (channel_key p) (channel_key q) = true /\ String.ltb (channel_key q) (channel_key p) = false.
Proof using Type.
  unfold channel_le, String.leb, String.ltb. rewrite (String.compare_antisym (channel_key q)).
  destruct (String.compare (channel_key p) (channel_key q)) eqn:X; cbn; try done.
  apply String.compare_eq_iff in X. done.
Qed.

(** After a row the query finds what follows it, and without one everything. *)
Lemma select_after (pre rest : list SealedRow) (row : SealedRow) :
  merge_sort channel_le rows = pre ++ row :: rest ->
  select_channels rows (channel_key row) limit = limited limit rest.
Proof using N.
  intros Eq. unfold select_channels. f_equal. rewrite Eq.
  apply (filter_after (fun p q => String.ltb (channel_key p) (channel_key q)) pre); [|apply ltb_irreflexive].
  rewrite <- Eq. by apply (strictly_sorted channel_le _ channel_key rows N channel_strict).
Qed.

Lemma select_first : select_channels rows EmptyString limit = limited limit (merge_sort channel_le rows).
Proof using Keys.
  unfold select_channels. f_equal.
  assert (K : Forall (fun row => Str.len (channel_key row) = 32) (merge_sort channel_le rows))
    by (by rewrite merge_sort_Permutation).
  revert K. generalize (merge_sort channel_le rows). intros l K. induction K as [|row l H _ IH]; [done|].
  cbn [List.filter]. destruct (channel_key row); [done|]. change (String.ltb "" (String a s0)) with true.
  by rewrite IH.
Qed.

Lemma read_channels_show (clock : Clock) (after : string) (b b' : Budget)
    (entries : list ChannelEntry) (more : bool) (rest : list SealedRow) :
  select_channels rows after limit = limited limit rest ->
  read_channels t r after limit b = Ok (entries, more, b') ->
  Forall2 (shows_channel t r) (take (Z.to_nat limit) rest) entries /\
  more = (limit <? Z.of_nat (length rest)).
Proof using Type.
  intros Sel. unfold read_channels. destruct (negb (between limit 1 100)) eqn:Lim; [done|].
  apply negb_false_iff in Lim. unfold between in Lim.
  assert (0 <= limit) by (apply andb_true_iff in Lim as [?%Z.leb_le _]; lia).
  change (receipt_snapshot r) with (s_id s). fold rows. cbn [orb].
  destruct (negb _ && _); [done|]. rewrite Sel, limited_more, limited_take by done.
  destruct (ciphers _ b) as [b1|]; [|done].
  destruct (if limit <? _ then _ else Ok b1) as [b2|]; [|done].
  destruct (project_channels t r _ b2) as [[l b3]|] eqn:P; [|done].
  apply project_channels_show in P. cbn [fst] in P. by intros [= <- <- _].
Qed.

Lemma channels_step (clock : Clock) (b : Budget) (n : nat) (cursor : option string) (page : Page ChannelEntry)
    (rest : list SealedRow) :
  ask_channels clock b n cursor = Ok page -> channels_left cursor rest ->
  Forall2 (shows_channel t r) (take (Z.to_nat limit) rest) (items page) /\
  match next page with
  | None => (length rest <= Z.to_nat limit)%nat
  | Some cursor' =>
      (Z.to_nat limit < length rest)%nat /\ channels_left (Some cursor') (drop (Z.to_nat limit) rest)
  end.
Proof using L LW N Keys Snap.
  unfold ask_channels, channels_page. intros H Left.
  destruct (limit_of (Some limit)) as [l|] eqn:Il; [|done]. apply limit_of_bounds in Il as [-> Il].
  destruct (cursor_of cursor) as [[]|]; [|done].
  destruct (snapshot_of view (t_snapshot t) b) as [[r' b1]|] eqn:Sn; [|done].
  apply snapshot_receipt in Sn as (s' & Sn & R). rewrite Snap in Sn. injection Sn as <-.
  cbn [fst] in R. fold r in R. subst r'. change (receipt_snapshot r) with (s_id s) in H.
  destruct (decode view _ cursor b1) as [[position b2]|] eqn:D; [|done].
  destruct (match position with Some _ => _ | None => _ end) as [after|] eqn:Af; [|done].
  destruct (read_channels t r after limit b2) as [[[entries more] b4]|] eqn:Rc; [|done].
  assert (P : select_channels rows after limit = limited limit rest /\
              exists pre, merge_sort channel_le rows = pre ++ rest).
  { unfold channels_left in Left. destruct cursor as [cursor|].
    - destruct Left as (pre & row & Eq & Cf).
      apply (decode_cursor _ _ _ _ _ _ _ Cf) in D. cbn [fst] in D. subst position.
      apply ok_inj in Af as <-. split; [by apply (select_after pre)|].
      exists (pre ++ [row]). by rewrite <- app_assoc.
    - cbn [decode] in D. injection D as <- _. apply ok_inj in Af as <-. rewrite Left.
      split; [apply select_first|by exists []]. }
  destruct P as (Sel & pre & Eq). apply (read_channels_show _ _ _ _ _ _ _ Sel) in Rc as [F ->].
  clear Left D Sel Af.
  destruct (Z.ltb_spec limit (Z.of_nat (length rest))) as [More|Few].
  - destruct (split_at_last (Z.to_nat limit) rest ltac:(lia)) as (shown & row & T & Cut).
    rewrite T in F. destruct (last_shown _ _ _ _ F) as (e & La & (_ & Pos & _)). rewrite La in H. cbn [ok_or] in H.
    destruct (encode_cursor n view _ (Channels (ce_key e)) b4) as [[cursor' b5]|] eqn:En; [|done].
    apply ok_inj in H as <-. cbn [items next]. rewrite T. split; [done|]. split; [lia|].
    cbn [channels_left]. exists (pre ++ shown), row. split.
    + rewrite Eq, <- app_assoc. f_equal. exact Cut.
    + rewrite Pos in En. by exists clock, n, b4, b5.
  - apply ok_inj in H as <-. cbn [items next]. split; [done|lia].
Qed.

(** A reader that follows the cursors of the list of channels sees every channel of
    the snapshot once, in the order of the keys and with what its metadata and that
    of its guide open to, on full pages up to the last one. *)
Theorem channels_are_paged (pages : list (list ChannelEntry)) :
  follows ask_channels None pages ->
  Forall2 (shows_channel t r) (merge_sort channel_le rows) (concat pages) /\ paged (Z.to_nat limit) pages.
Proof using L LW N Keys Snap.
  intros F. by apply (following_shows ask_channels _ _ channels_left channels_step None).
Qed.
End Channels.
End Pages.

End Laws.

(** ** A catalogue of two channels and two programmes, read one row at a time *)

#[local] Existing Instance sealing_env.
#[local] Existing Instance sample_crypto.
#[local] Existing Instance sample_laws.
#[local] Instance Position_eq_dec : EqDecision Position.
Proof. solve_decision. Defined.

Definition id7 (n : Z) : Z := 7 * 2 ^ 76 + n.
Definition sample_view : Viewing := mk_viewing 5 1 2 3 1 1 6 1.
Definition import : Receipt := mk_receipt 5 6 1 (id7 8) 1 (id7 9) 1000.
Definition sealed_for (kind : string) (row : SealedRow) (purpose value : string) : string :=
  match seal import kind row purpose value first_work with Ok (s, _) => s | Err _ => "" end.
Definition sample_snapshot : SnapshotRow :=
  Eval vm_compute in
    mk_snapshot_row (id7 9) 1 (id7 8) 1 1000
      (sealed_for "snapshot" (empty (id7 9)) "manifest" (show (manifest_of import 2 1 2))) 2 1 2
      "succeeded" None.

Definition with_metadata (row : SealedRow) (m : string) : SealedRow :=
  mk_row (r_id row) (r_guide row) (r_channel_key row) (r_start row) (r_stop row) (r_flags row) m
    (r_stream row) (r_logo row).
Definition key_of (c : ascii) : string := String c (zeros 31).
Definition row_of (kind : string) (row : SealedRow) : SealedRow :=
  with_metadata row (sealed_for kind row "metadata" kind).
Definition paged_channels : list SealedRow :=
  Eval vm_compute in
    [row_of "channel" (mk_row (id7 2) None (Some (key_of "b")) None None 0 "" None None);
     row_of "channel" (mk_row (id7 1) (Some (id7 3)) (Some (key_of "a")) None None 0 "" None None)].
Definition paged_guides : list SealedRow := Eval vm_compute in [row_of "guide" (empty (id7 3))].
Definition paged_programmes : list SealedRow :=
  Eval vm_compute in
    [row_of "programme" (mk_row (id7 5) (Some (id7 3)) None (Some 5000) (Some 9000) 0 "" None None);
     row_of "programme" (mk_row (id7 4) (Some (id7 3)) None (Some 1000) (Some 5000) 0 "" None None)].
Definition paged_tables : Tables :=
  mk_tables (Some sample_snapshot) (fun _ => paged_guides) (fun _ => paged_channels)
    (fun _ => paged_programmes).
Definition paged_window : Window := mk_window 0 10000.

Definition channels_envelope : Context_ * Position :=
  (context_new sample_view (id7 9) 1 None None, Channels (key_of "a")).
Definition programmes_envelope : Context_ * Position :=
  (context_new sample_view (id7 9) 1 (Some (id7 1)) (Some paged_window), Timed 1000 (id7 4)).
Definition no_variants : list TextMetadata := [].
#[local] Instance paged_wire : Wire :=
  {| envelope_to := fun e => if decide (e = channels_envelope) then Some "c"%string
                             else if decide (e = programmes_envelope) then Some "p"%string else None;
     envelope_of := fun s => if String.eqb s "c" then Some channels_envelope
                             else if String.eqb s "p" then Some programmes_envelope else None;
     value_of := fun _ => Some (manifest_of import 2 1 2);
     channel_metadata := fun _ => Some (mk_channel_metadata "One" None None None);
     guide_metadata := fun _ => Some (mk_guide_metadata false false []);
     programme_metadata := fun _ =>
       Some (mk_programme_metadata None None None no_variants no_variants no_variants no_variants []) |}.
#[local] Instance paged_wire_laws : WireLaws sample_crypto paged_wire.
Proof.
  constructor; [|done]. intros e s. cbn [envelope_to paged_wire].
  destruct (decide (e = channels_envelope)) as [->|]; [by intros [= <-]|].
  destruct (decide (e = programmes_envelope)) as [->|]; [by intros [= <-]|done].
Qed.

(** The request of a reader whose clock never runs out *)
Definition unhurried : Clock := fun _ => false.
Definition follow_twice {A} (ask : Clock -> Budget -> nat -> option string -> result (Page A) CatalogError)
    : option (list (list A)) :=
  match ask unhurried budget_new 0%nat None with
  | Ok p =>
      match next p with
      | Some c => match ask unhurried budget_new 1%nat (Some c) with
                  | Ok q => match next q with None => Some [items p; items q] | Some _ => None end
                  | Err _ => None
                  end
      | None => None
      end
  | Err _ => None
  end.

Lemma follow_twice_follows {A} (ask : Clock -> Budget -> nat -> option string -> result (Page A) CatalogError)
    (pages : list (list A)) : follow_twice ask = Some pages -> follows ask None pages.
Proof.
  unfold follow_twice. destruct (ask unhurried budget_new 0%nat None) as [p|] eqn:P; [|done].
  destruct (next p) as [c|] eqn:Nx; [|done]. destruct (ask unhurried budget_new 1%nat (Some c)) as [q|] eqn:Q; [|done].
  destruct (next q) eqn:Nq; [done|]. intros [= <-].
  exact (further_page ask _ _ _ _ _ _ _ P Nx (last_page ask _ _ _ _ _ Q Nq)).
Qed.

Definition channel_pages : list (list ChannelEntry) :=
  Eval vm_compute in unwrap_or (follow_twice (ask_channels paged_tables sample_view 1)) [].
Lemma channels_are_paged_example :
  map (map ce_id) channel_pages = [[id7 1]; [id7 2]] /\
  Forall2 (shows_channel paged_tables import) (merge_sort channel_le paged_channels) (concat channel_pages).
Proof.
  split; [reflexivity|].
  apply (@channels_are_paged sealing_env sample_crypto paged_wire sample_laws paged_wire_laws paged_tables
           sample_view sample_snapshot eq_refl 1).
  - vm_compute. repeat constructor; rewrite ?elem_of_cons, ?elem_of_nil; intros H;
      repeat destruct H as [H|H]; discriminate H || done.
  - repeat constructor.
  - apply follow_twice_follows. vm_compute. reflexivity.
Defined.

Definition programme_pages : list (list ProgrammeEntry) :=
  Eval vm_compute in
    unwrap_or (follow_twice (ask_programmes paged_tables sample_view sample_snapshot (id7 1) (Some paged_window) 1)) [].
Lemma programmes_are_paged_witness :
  map (map pe_position) programme_pages = [[Timed 1000 (id7 4)]; [Timed 5000 (id7 5)]] /\
  Forall2 (shows_programme import true)
    (chosen paged_programmes (Some (id7 3)) (Some paged_window)) (concat programme_pages).
Proof.
  split; [reflexivity|].
  apply (@programmes_are_paged sealing_env sample_crypto paged_wire sample_laws paged_wire_laws paged_tables
           sample_view sample_snapshot eq_refl (id7 1) (Some paged_window) 1).
  - vm_compute. repeat constructor; rewrite ?elem_of_cons, ?elem_of_nil; intros H;
      repeat destruct H as [H|H]; discriminate H || done.
  - apply follow_twice_follows. vm_compute. reflexivity.
Defined.

End LiveCatalogProofs.
