(* ===== verification/LiveDestination.v ===== *)
(** * Destinations of live television

    domains/live_tv/{service,types}.rs: which URLs a feed may have;
    destination.rs, destination/addresses.rs and destination/codec.rs: the addresses
    an administrator approves for the origin of a feed, which of them are allowed,
    and how an approval is stored; assignment/secrets.rs and feed/source.rs: the
    sealed URLs and what an import opens; transport/source.rs: what the transport
    refuses by itself. *)

From S2P Require Import Prelude Json Ip LiveImport LiveCodec.
Import Ip LiveImport LiveCodec.

Module LiveDestination.

(** assignment/error.rs *)
Inductive AssignmentError :=
| Forbidden | NotFound | Stale | ConditionRequired | InvalidRequest | InvalidPolicy | Database | Unavailable.
#[export] Instance AssignmentError_eq_dec : EqDecision AssignmentError.
Proof. solve_decision. Defined.

(** ** types.rs and service.rs *)

Definition MAX_FEED_URL_BYTES : Z := 4096.
Inductive FeedTransport := Http | Https.

(** [char::is_whitespace] and [char::is_control] of a character *)
Definition is_white : Z -> bool :=
  within [(9, 13); (32, 32); (0x85, 0x85); (0xa0, 0xa0); (0x1680, 0x1680); (0x2000, 0x200a);
          (0x2028, 0x2029); (0x202f, 0x202f); (0x205f, 0x205f); (0x3000, 0x3000)].
Definition is_control : Z -> bool := within [(0, 31); (127, 159)].
Definition is_raw (c : Z) : bool := is_white c || is_control c || (c =? 92).

(** [split_once(p)] for a string, and the text before the first of some characters *)
Fixpoint split_once (p s : string) : option (string * string) :=
  match Str.strip_prefix p s with
  | Some rest => Some (EmptyString, rest)
  | None =>
      match s with
      | EmptyString => None
      | String c t => let! q := split_once p t in Some (String c q.1, q.2)
      end
  end.
Fixpoint before (stop : ascii -> bool) (s : string) : string :=
  match s with
  | String c t => if stop c then EmptyString else String c (before stop t)
  | EmptyString => EmptyString
  end.
Definition ends_authority (c : ascii) : bool := Ascii.eqb c "/" || Ascii.eqb c "?" || Ascii.eqb c "#".

Section Env.
Context {E : Env} {C : Crypto}.

(** [validate_feed_url] *)
Definition validate_feed_url (raw : string) : result FeedTransport string :=
  if Str.is_empty raw || (MAX_FEED_URL_BYTES <? Str.len raw)
  then Err "URL must contain between 1 and 4096 UTF-8 bytes"%string
  else if existsb is_raw (chars raw)
  then Err "URL must not contain raw whitespace, controls or backslashes"%string
  else
    let? (scheme, rest) := ok_or (split_once "://" raw) "URL must be an absolute HTTP or HTTPS address"%string in
    let? transport :=
      if Str.eq_ignore_case scheme "http" then Ok Http
      else if Str.eq_ignore_case scheme "https" then Ok Https
      else Err "URL must use HTTP or HTTPS"%string in
    let authority := before ends_authority rest in
    if Str.is_empty authority then Err "URL must include a host"%string
    else if Str.contains_char "@" authority then Err "URL userinfo credentials are not supported"%string
    else
      let? parsed := ok_or (parse_url raw) "URL is invalid"%string in
      if negb (has_host parsed) then Err "URL must include a host"%string
      else if negb (Str.is_empty (username parsed)) || is_some_b (LiveImport.password parsed)
      then Err "URL userinfo credentials are not supported"%string
      else if is_some_b (fragment parsed) then Err "URL fragments are not supported"%string
      else Ok transport.

(** [validate_connection]: the transports, or the refused fields with what is wrong;
    the lengths of the request are those of [validator], in characters. *)
Definition fits (s : string) : bool :=
  let n := Z.of_nat (length (chars s)) in (1 <=? n) && (n <=? 4096).
Definition field_errors (fields : list (string * option string)) : list (string * string) :=
  omap (fun f : string * option string => let! e := f.2 in Some (f.1, e)) fields.
Definition error_of {A X} (r : result A X) : option X := match r with Ok _ => None | Err e => Some e end.
Definition validate_connection (playlist_url guide_url : string)
  : result (FeedTransport * FeedTransport) (list (string * string)) :=
  if negb (fits playlist_url) || negb (fits guide_url) then
    let message (ok : bool) := if ok then None else Some "URL must contain between 1 and 4096 UTF-8 bytes"%string in
    Err (field_errors [("playlist_url"%string, message (fits playlist_url));
                       ("guide_url"%string, message (fits guide_url))])
  else
    match validate_feed_url playlist_url, validate_feed_url guide_url with
    | Ok playlist, Ok guide => Ok (playlist, guide)
    | playlist, guide =>
        Err (field_errors [("playlist_url"%string, error_of playlist); ("guide_url"%string, error_of guide)])
    end.

(** ** destination.rs *)

(** [source] *)
Definition source (raw : string) : result Url AssignmentError :=
  match validate_feed_url raw with
  | Err _ => Err InvalidPolicy
  | Ok _ =>
      let? url := ok_or (parse_url raw) InvalidPolicy in
      if is_none_or (port url) (fun p => p =? 0) then Err InvalidPolicy else Ok url
  end.

(** [origin] *)
Definition origin_of (raw : string) : result string AssignmentError :=
  let? url := source raw in
  if negb (String.eqb (path url) "/") || is_some_b (query url) then Err InvalidPolicy
  else Ok (LiveImport.origin url).

(** addresses.rs: [allowed] *)
Definition in_net (width value : Z) (net : Z * Z) : bool :=
  Z.shiftr value (width - net.2) =? Z.shiftr net.1 (width - net.2).
Definition V4_NETS : list (Z * Z) :=
  [(0x00000000, 8); (0xa9fe0000, 16); (0xe0000000, 4); (0xf0000000, 4); (0xc0000000, 24); (0xc0000200, 24);
   (0xc0586300, 24); (0xc6120000, 15); (0xc6336400, 24); (0xcb007100, 24); (0x646464c8, 32); (0xa83f8110, 32)].
Definition V6_NETS : list (Z * Z) :=
  [(0x20010000000000000000000000000000, 23); (0x20010db8000000000000000000000000, 32);
   (0x20020000000000000000000000000000, 16); (0x3fff0000000000000000000000000000, 20)].
Definition allowed (ip : IpAddr) : bool :=
  match to_canonical ip with
  | V4 value => negb (existsb (in_net 32 value) V4_NETS)
  | V6 value =>
      if value =? 1 then true
      else if value =? 0xfd000ec2000000000000000000000254 then false
      else if Z.shiftr value 121 =? 0x7e then true
      else (Z.shiftr value 125 =? 1) && negb (existsb (in_net 128 value) V6_NETS)
  end.

Record Approval := mk_approval { a_origin : string; addresses : list IpAddr }.

(** The address a host names literally *)
Definition literal_of (url : Url) : option IpAddr :=
  match host url with
  | Some (Ipv4 ip) => Some (V4 ip)
  | Some (Ipv6 ip) => Some (to_canonical (V6 ip))
  | _ => None
  end.

Fixpoint pin_all (literal : option IpAddr) (pins : list string) (seen : list IpAddr)
  : result (list IpAddr) AssignmentError :=
  match pins with
  | [] => Ok seen
  | raw :: pins =>
      let? ip := ok_or (Ip.parse raw) InvalidPolicy in
      let ip := to_canonical ip in
      if negb (allowed ip) || is_some_and literal (fun host => negb (bool_decide (host = ip)))
         || bool_decide (ip ∈ seen)
      then Err InvalidPolicy else pin_all literal pins (seen ++ [ip])
  end.

(** [Approval::new] *)
Definition approval_new (expected : string) (pins : list string) (url : Url)
  : result Approval AssignmentError :=
  let? origin := origin_of expected in
  if negb (String.eqb origin (LiveImport.origin url))
     || negb ((1 <=? length pins)%nat && (length pins <=? 8)%nat) then Err InvalidPolicy
  else
    let? addresses := pin_all (literal_of url) pins [] in
    Ok (mk_approval origin addresses).

End Env.

(** ** destination/codec.rs and assignment/secrets.rs *)

Inductive FeedField := Playlist | Guide.
#[export] Instance FeedField_eq_dec : EqDecision FeedField.
Proof. solve_decision. Defined.
Definition feed_name (f : FeedField) : string := match f with Playlist => "playlist" | Guide => "guide" end.

Record Payload := mk_payload { p_version : Z; p_origin : string; p_addresses : list string }.

(** Outside the repository: serde_json of [Payload] *)
Class Payloads := {
  payload_to : Payload -> option string;
  payload_of : string -> option Payload;
}.

Section Codec.
Context {E : Env} {C : Crypto} {J : Payloads}.

Definition destination_context (owner record : Z) (feed : FeedField) : RecordContext :=
  mk_context "live-tv-destination" owner record (feed_name feed).
Definition secret_context (owner record : Z) (feed : FeedField) : RecordContext :=
  mk_context "live-tv-assignment" owner record (feed_name feed).

(** [Approval::seal] with the [n]-th nonce *)
Definition approval_seal (n : nat) (a : Approval) (owner record : Z) (feed : FeedField)
  : result string AssignmentError :=
  let? value := ok_or (payload_to (mk_payload 1 (a_origin a) (map Ip.show (addresses a)))) Unavailable in
  match seal_record n value (destination_context owner record feed) with
  | Ok sealed => Ok sealed
  | Err _ => Err Unavailable
  end.

(** [Approval::open] *)
Definition approval_open (owner record : Z) (feed : FeedField) (envelope : string) (url : Url)
  : result Approval AssignmentError :=
  match open_record envelope (destination_context owner record feed) with
  | Err _ => Err Unavailable
  | Ok value =>
      let? payload := ok_or (payload_of value) Unavailable in
      if negb (p_version payload =? 1) then Err Unavailable
      else match approval_new (p_origin payload) (p_addresses payload) url with
           | Ok a => Ok a
           | Err _ => Err Unavailable
           end
  end.

(** [secrets::seal] and [secrets::open] *)
Definition secret_seal (n : nat) (owner record : Z) (feed : FeedField) (url : string)
  : result string EncryptionError := seal_record n url (secret_context owner record feed).
Definition secret_open (owner record : Z) (feed : FeedField) (envelope : string)
  : result string EncryptionError := open_record envelope (secret_context owner record feed).

(** ** feed/source.rs *)

Record Fence := mk_fence { f_user : Z; f_assignment : Z; f_generation : Z }.
#[export] Instance Fence_eq_dec : EqDecision Fence.
Proof. solve_decision. Defined.

(** [Source]; its address with the port *)
Record Source := mk_source { s_url : Url; s_address : IpAddr; s_port : Z; s_fence : Fence }.

(** What is selected of an assignment for one of its feeds *)
Record FeedRow := mk_feed_row {
  fr_id : Z;
  fr_generation : Z;
  fr_secret : string;
  fr_destination : option string;
  fr_count : Z;
}.

(** [decode]; every refusal is [FeedError::Authority]. *)
Definition decode (row : FeedRow) (u : Z) (feed : FeedField) (index : nat) : option Source :=
  match secret_open u (fr_id row) feed (fr_secret row) with
  | Err _ => None
  | Ok raw =>
      match source raw with
      | Err _ => None
      | Ok url =>
          let! envelope := fr_destination row in
          match approval_open u (fr_id row) feed envelope url with
          | Err _ => None
          | Ok approval =>
              if negb (Z.of_nat (length (addresses approval)) =? fr_count row) then None
              else
                let! ip := addresses approval !! index in
                let! p := port url in
                Some (mk_source url ip p (mk_fence u (fr_id row) (fr_generation row)))
          end
      end
  end.

End Codec.

(** ** transport/source.rs *)

Definition UNICAST_LINK_LOCAL : Z := 0x3fa.
(** [forbidden] *)
Definition forbidden (ip : IpAddr) : bool :=
  match to_canonical ip with
  | V4 n =>
      (n =? 0) || (Z.shiftr n 28 =? 0xe) || (n =? 0xffffffff) || (Z.shiftr n 16 =? 0xa9fe)
      || (n =? 0x646464c8) || (n =? 0xa83f8110)
  | V6 n =>
      (n =? 0) || (Z.shiftr n 120 =? 0xff) || (Z.shiftr n 118 =? UNICAST_LINK_LOCAL)
      || (n =? 0xfd000ec2000000000000000000000254)
  end.

Section Transport.
Context {E : Env}.

(** [Source::new]; every refusal is [TransportError::Destination]. *)
Definition transport_source (input : string) (approved : IpAddr) (approved_port : Z) : option Url :=
  if (approved_port =? 0)
     || is_some_and (split_once "://" input) (fun p => Str.contains_char "@" (before ends_authority p.2))
     || (4096 <? Str.len input) || existsb is_raw (chars input)
  then None
  else
    let! url := parse_url input in
    let! address := match host url with Some (Ipv4 ip) => Some (V4 ip) | Some (Ipv6 ip) => Some (V6 ip) | _ => None end in
    if negb (String.eqb (scheme url) "http" || String.eqb (scheme url) "https")
       || negb (Str.is_empty (username url)) || is_some_b (LiveImport.password url) || is_some_b (fragment url)
       || negb (bool_decide (to_canonical address = to_canonical approved))
       || negb (bool_decide (port url = Some approved_port)) || forbidden address
    then None else Some url.

End Transport.

End LiveDestination.
