(* ===== verification/LiveDestinationProofs.v ===== *)
(** * Theorems on destinations

    An approval reads back from its storage, and an import connects to an approved,
    allowed address of the origin its feed has. *)

From S2P Require Import Prelude Json Ip LiveImport LiveCodec LiveCodecProofs LiveDestination.
Import Ip LiveImport LiveCodec LiveCodecProofs LiveDestination.

Module LiveDestinationProofs.

(** ** Addresses that are read *)

Lemma digits_range (radix : Z) (s : string) : 0 <= radix -> Forall (fun d => 0 <= d) (digits radix s).1.
Proof.
  intros R. induction s as [|c s IH]; cbn [digits]; [constructor|].
  destruct (to_digit radix c) as [d|] eqn:D; [|constructor].
  destruct (digits radix s) as [l r]. cbn [fst] in *. constructor; [|done].
  unfold to_digit in D. set (n := Z.of_nat (nat_of_ascii c)) in D. assert (0 <= n) by lia.
  destruct (Str.is_digit c) eqn:B.
  - apply andb_true_iff in B as [B _]. apply Nat.leb_le in B. destruct (_ <? _) in D; [|done].
    injection D as <-. lia.
  - destruct ((65 <=? n) && (n <=? 90)) eqn:B2; [|destruct ((97 <=? n) && (n <=? 122)) eqn:B3];
      destruct (_ <? _) in D; try done; injection D as <-; dk_bool; lia.
Qed.

Lemma value_nonneg (radix : Z) (l : list Z) : 0 <= radix -> Forall (fun d => 0 <= d) l -> 0 <= value radix l.
Proof.
  intros R F. unfold value.
  assert (G : forall a, 0 <= a -> 0 <= fold_left (fun n d => n * radix + d) l a); [|by apply G].
  induction F as [|d l D F IH]; intros a A; cbn [fold_left]; [done|]. apply IH. nia.
Qed.

Lemma read_number_range (radix max n : Z) (k : nat) (zero : bool) (s rest : string) :
  0 <= radix -> read_number radix max k zero s = Some (n, rest) -> 0 <= n <= max.
Proof.
  unfold read_number. intros R. pose proof (digits_range radix s R) as F.
  destruct (digits radix s) as [l r]. destruct (_ || _) eqn:B; [done|]. intros [= <- _].
  apply orb_false_iff in B as [_ B]. dk_bool. split; [by apply value_nonneg|lia].
Qed.

Lemma value_bound (b : Z) (l : list Z) :
  0 < b -> Forall (fun d => 0 <= d < b) l -> 0 <= value b l < b ^ Z.of_nat (length l).
Proof.
  intros B. unfold value. induction l as [|d l IH] using rev_ind; intros F; [cbn; lia|].
  apply Forall_app in F as [F [D _]%Forall_cons]. specialize (IH F).
  rewrite fold_left_app, length_app. cbn [fold_left length].
  replace (Z.of_nat (length l + 1)) with (Z.succ (Z.of_nat (length l))) by lia.
  rewrite Z.pow_succ_r by lia. nia.
Qed.

Lemma separated_some {A} (c : ascii) (i : nat) (read : string -> option A) (s : string) (x : A) :
  separated c i read s = Some x -> exists s', read s' = Some x.
Proof. destruct i; cbn [separated]; [eauto|]. destruct (read_given_char c s); [eauto|done]. Qed.

Lemma read_octets_range (k i : nat) (s rest : string) (l : list Z) :
  read_octets k i s = Some (l, rest) -> length l = k /\ Forall (fun d => 0 <= d < 256) l.
Proof.
  revert i s l rest. induction k as [|k IH]; intros i s l rest; cbn [read_octets]; [by intros [= <- _]|].
  destruct (separated "." i _ s) as [[n r]|] eqn:Sep; [|done]. cbn [fst snd].
  destruct (read_octets k (S i) r) as [[l' r']|] eqn:R; cbn [fst snd]; [|by rewrite ?R]. intros [= <- _].
  apply separated_some in Sep as (s' & Sep). apply read_number_range in Sep; [|lia].
  destruct (IH _ _ _ _ R) as [<- F]. split; [done|]. constructor; [cbn; lia|done].
Qed.

Lemma read_v4_range (n : Z) (s rest : string) : read_ipv4_addr s = Some (n, rest) -> 0 <= n < 2 ^ 32.
Proof.
  unfold read_ipv4_addr. destruct (read_octets 4 0 s) as [[l r]|] eqn:R; [|done]. intros [= <- _].
  apply read_octets_range in R as [Len F]. cbn [fst]. pose proof (value_bound 256 l ltac:(lia) F) as B.
  rewrite Len in B. exact B.
Qed.

Lemma read_groups_range (k i : nat) (s rest : string) (l : list Z) (v4 : bool) :
  read_groups k i s = (l, v4, rest) -> (length l <= k)%nat /\ Forall (fun d => 0 <= d < 65536) l.
Proof.
  revert i s l v4 rest. induction k as [|k IH]; intros i s l v4 rest; cbn [read_groups].
  { intros [= <- _ _]. split; [done|constructor]. }
  destruct (if (1 <? S k)%nat then separated ":" i read_ipv4_addr s else None) as [[n r]|] eqn:V.
  - intros [= <- _ _]. destruct (1 <? S k)%nat eqn:K; [|done]. apply Nat.ltb_lt in K.
    apply separated_some in V as (s' & V). apply read_v4_range in V. split; [cbn; lia|].
    repeat constructor; dk_lia.
  - destruct (separated ":" i (read_number 16 65535 4 true) s) as [[g r]|] eqn:Sep.
    + destruct (read_groups k (S i) r) as [[l' v'] r'] eqn:R. intros [= <- _ _].
      apply separated_some in Sep as (s' & Sep). apply read_number_range in Sep; [|lia].
      destruct (IH _ _ _ _ _ R) as [Len F]. split; [cbn; lia|]. constructor; [lia|done].
    + intros [= <- _ _]. split; [cbn; lia|constructor].
Qed.

Lemma parse_range (s : string) (ip : IpAddr) : Ip.parse s = Some ip -> is_addr ip.
Proof.
  unfold Ip.parse. destruct (read_ipv4_addr s) as [[n r]|] eqn:V.
  { destruct (Str.is_empty _); [|done]. intros [= <-]. by apply read_v4_range in V. }
  unfold read_ipv6_addr. destruct (read_groups 8 0 s) as [[h v4] r] eqn:H.
  apply read_groups_range in H as [Lh Fh]. destruct (length h =? 8)%nat eqn:L8.
  { destruct (Str.is_empty _); [|done]. intros [= <-]. apply Nat.eqb_eq in L8. cbn [fst is_addr].
    pose proof (value_bound 65536 h ltac:(lia) Fh) as B. rewrite L8 in B. exact B. }
  apply Nat.eqb_neq in L8. destruct v4; [done|]. destruct (read_given_char ":" r) as [r1|]; [|done].
  destruct (read_given_char ":" r1) as [r2|]; [|done].
  destruct (read_groups (7 - length h) 0 r2) as [[t v'] r3] eqn:T. apply read_groups_range in T as [Lt Ft].
  destruct (Str.is_empty _); [|done]. intros [= <-]. cbn [fst is_addr].
  set (l := h ++ _ ++ t). assert (Ll : length l = 8%nat).
  { unfold l. rewrite !length_app, length_replicate. lia. }
  assert (Fl : Forall (fun d => 0 <= d < 65536) l).
  { unfold l. rewrite !Forall_app. split; [done|]. split; [|done]. apply Forall_replicate. lia. }
  pose proof (value_bound 65536 l ltac:(lia) Fl) as B. rewrite Ll in B. exact B.
Qed.

Lemma canonical_range (ip : IpAddr) : is_addr ip -> is_addr (to_canonical ip).
Proof.
  destruct ip as [n|n]; cbn [is_addr to_canonical]; [done|]. intros H.
  destruct (_ =? _); cbn [is_addr]; [|done]. apply Z.mod_pos_bound. lia.
Qed.
Lemma canonical_twice (ip : IpAddr) : to_canonical (to_canonical ip) = to_canonical ip.
Proof. destruct ip as [n|n]; cbn [to_canonical]; [done|]. destruct (n / 2 ^ 32 =? 65535) eqn:E; cbn; by rewrite ?E. Qed.

(** ** The two policies *)

Lemma in_net_false (width value : Z) (nets : list (Z * Z)) (net : Z * Z) :
  existsb (in_net width value) nets = false -> net ∈ nets ->
  Z.shiftr value (width - net.2) <> Z.shiftr net.1 (width - net.2).
Proof.
  intros H M E. apply list_elem_of_In in M. assert (X : existsb (in_net width value) nets = true); [|congruence].
  apply existsb_exists. exists net. split; [done|]. by apply Z.eqb_eq.
Qed.

Ltac in_nets := unfold V4_NETS; repeat (first [by left | right]).

(** An address that may be approved is one the transport connects to. *)
Lemma allowed_not_forbidden (ip : IpAddr) : is_addr ip -> allowed ip = true -> forbidden ip = false.
Proof.
  intros [R _]%(fun H => conj (canonical_range ip H) I). unfold allowed, forbidden.
  destruct (to_canonical ip) as [n|n]; cbn [is_addr] in R.
  - intros H%negb_true_iff. pose proof (fun net => in_net_false 32 n V4_NETS net H) as N.
    pose proof (N (0x00000000, 8) ltac:(in_nets)) as N1. pose proof (N (0xe0000000, 4) ltac:(in_nets)) as N2.
    pose proof (N (0xf0000000, 4) ltac:(in_nets)) as N3. pose proof (N (0xa9fe0000, 16) ltac:(in_nets)) as N4.
    pose proof (N (0x646464c8, 32) ltac:(in_nets)) as N5. pose proof (N (0xa83f8110, 32) ltac:(in_nets)) as N6.
    clear N H. cbn [fst snd] in *. change (32 - 8) with 24 in *. change (32 - 4) with 28 in *.
    change (32 - 16) with 16 in *. change (32 - 32) with 0 in *. rewrite !Z.shiftr_0_r in *.
    rewrite !orb_false_iff, !Z.eqb_neq. repeat split; try done; intros ->; [by apply N1|by apply N3].
  - destruct (Z.eqb_spec n 1) as [->|]; [done|]. destruct (Z.eqb_spec n 0xfd000ec2000000000000000000000254); [done|].
    destruct (Z.eqb_spec (Z.shiftr n 121) 0x7e) as [E|].
    + intros _. rewrite Z.shiftr_div_pow2 in E by lia.
      rewrite !orb_false_iff, !Z.eqb_neq, !Z.shiftr_div_pow2 by lia. unfold UNICAST_LINK_LOCAL. repeat split; dk_lia.
    + intros [E _]%andb_true_iff. apply Z.eqb_eq in E. rewrite Z.shiftr_div_pow2 in E by lia.
      rewrite !orb_false_iff, !Z.eqb_neq, !Z.shiftr_div_pow2 by lia. unfold UNICAST_LINK_LOCAL. repeat split; dk_lia.
Qed.

(** ** What the code relies on *)

(** The url crate, for URLs of HTTP: the scheme is the text before the first
    separator, in lower case; the serialised origin is the scheme and an authority,
    and parses to a URL of that origin, host and port with nothing else. *)
Definition is_http (u : Url) : Prop := scheme u = "http"%string \/ scheme u = "https"%string.
Definition plain_authority (c : ascii) : bool := negb (ends_authority c) && negb (Ascii.eqb "@" c).
Class UrlLaws (E : Env) : Prop := {
  scheme_lowered raw u s rest (name : string) :
    parse_url raw = Some u -> split_once "://" raw = Some (s, rest) ->
    Str.eq_ignore_case s name = true -> name = "http"%string \/ name = "https"%string -> scheme u = name;
  origin_text raw u :
    parse_url raw = Some u -> has_host u = true -> is_http u ->
    exists h, LiveImport.origin u = scheme u +:+ "://" +:+ h /\ Str.is_empty h = false /\
              Str.all plain_authority h = true /\ existsb is_raw (chars (LiveImport.origin u)) = false;
  origin_url raw u :
    parse_url raw = Some u -> has_host u = true -> is_http u ->
    parse_url (LiveImport.origin u)
    = Some (mk_url (scheme u) (host u) None "" None "/" None (port u) (LiveImport.origin u));
}.

(** serde_json: a payload reads back, from text that is UTF-8 and no shorter than its
    origin. *)
Class PayloadLaws (C : Crypto) (J : Payloads) : Prop := {
  payload_inv p s : payload_to p = Some s -> payload_of s = Some p;
  payload_utf8 p s : payload_to p = Some s -> from_utf8 s = Some s;
  payload_len p s : payload_to p = Some s -> Str.len (p_origin p) <= Str.len s;
}.

Section Laws.
Context {E : Env} {C : Crypto} {J : Payloads} {L : CryptoLaws E C} {U : UrlLaws E} {P : PayloadLaws C J}.

(** ** URLs of feeds *)

Record validated (raw : string) (u : Url) : Prop := {
  v_parsed : parse_url raw = Some u;
  v_len : Str.len raw <= 4096;
  v_raw : existsb is_raw (chars raw) = false;
  v_user : is_some_and (split_once "://" raw) (fun p => Str.contains_char "@" (before ends_authority p.2)) = false;
  v_host : has_host u = true;
  v_http : is_http u;
  v_username : username u = EmptyString;
  v_password : LiveImport.password u = None;
  v_fragment : fragment u = None;
  v_port : exists n, port u = Some n /\ n <> 0;
}.

Lemma source_validated (raw : string) (u : Url) : source raw = Ok u -> validated raw u.
Proof using U.
  unfold source. destruct (validate_feed_url raw) as [t|] eqn:V; [|done].
  destruct (parse_url raw) as [v|] eqn:Pu; [|done]. cbn [ok_or].
  destruct (port v) as [n|] eqn:Po; [|done]. cbn [is_none_or].
  destruct (Z.eqb_spec n 0); [done|]. intros <-%ok_inj.
  unfold validate_feed_url in V. rewrite Pu in V.
  destruct (_ || _) eqn:B1 in V; [done|]. apply orb_false_iff in B1 as [_ B1].
  destruct (existsb _ _) eqn:B2 in V; [done|].
  destruct (split_once "://" raw) as [[s rest]|] eqn:Sp; [|done]. cbn [ok_or] in V.
  assert (H : is_http v).
  { destruct (Str.eq_ignore_case s "http") eqn:E1; [left; by eapply scheme_lowered; eauto|].
    destruct (Str.eq_ignore_case s "https") eqn:E2; [right; by eapply scheme_lowered; eauto|done]. }
  destruct (if Str.eq_ignore_case s "http" then _ else _) as [t'|]; [|done].
  destruct (Str.is_empty _) in V; [done|]. destruct (Str.contains_char _ _) eqn:B3 in V; [done|].
  cbn [ok_or] in V. destruct (has_host v) eqn:B4; [|done]. cbn [negb] in V.
  destruct (_ || _) eqn:B5 in V; [done|]. apply orb_false_iff in B5 as [B5 B6].
  destruct (is_some_b (fragment v)) eqn:B7; [done|].
  split; try done.
  - by apply Z.ltb_ge in B1.
  - by rewrite Sp.
  - apply negb_false_iff in B5. by destruct (username v).
  - by destruct (LiveImport.password v).
  - by destruct (fragment v).
  - by exists n.
Qed.

Lemma before_all (stop : ascii -> bool) (s : string) :
  Str.all (fun c => negb (stop c)) s = true -> before stop s = s.
Proof.
  induction s as [|c s IH]; cbn [Str.all before]; [done|]. intros [C1 C2]%andb_true_iff.
  apply negb_true_iff in C1. by rewrite C1, IH.
Qed.
Lemma all_weaker (p q : ascii -> bool) (s : string) :
  (forall c, p c = true -> q c = true) -> Str.all p s = true -> Str.all q s = true.
Proof.
  intros W. induction s as [|c s IH]; cbn [Str.all]; [done|]. intros [C1 C2]%andb_true_iff.
  apply andb_true_iff. auto.
Qed.
Lemma contains_none (x : ascii) (s : string) :
  Str.all (fun c => negb (Ascii.eqb x c)) s = true -> Str.contains_char x s = false.
Proof.
  induction s as [|c s IH]; [done|]. cbn [Str.all Str.contains_char]. intros [C1 C2]%andb_true_iff.
  apply negb_true_iff in C1. by rewrite C1, IH.
Qed.

(** The origin of a feed is a feed's URL itself, and its own origin. *)
Lemma origin_is_origin (raw : string) (u : Url) :
  validated raw u -> Str.len (LiveImport.origin u) <= 4096 ->
  origin_of (LiveImport.origin u) = Ok (LiveImport.origin u).
Proof using U.
  intros [Pu _ _ _ Ho Ht _ _ _ (n & Po & N)] Len.
  pose proof (origin_url raw u Pu Ho Ht) as Pv. destruct (origin_text raw u Pu Ho Ht) as (h & Or & He & Ha & Hr).
  assert (Ab : before ends_authority h = h).
  { apply before_all. revert Ha. apply all_weaker. by intros c [? _]%andb_true_iff. }
  assert (Ac : Str.contains_char "@" h = false).
  { apply contains_none. revert Ha. apply all_weaker. by intros c [_ ?]%andb_true_iff. }
  unfold origin_of, source, validate_feed_url. rewrite Pv, Hr.
  rewrite (proj2 (Z.ltb_ge _ _)) by exact Len.
  assert (Sp : split_once "://" (LiveImport.origin u) = Some (scheme u, h)
               /\ Str.is_empty (LiveImport.origin u) = false).
  { rewrite Or. destruct Ht as [->| ->]; done. }
  destruct Sp as [Sp Em]. rewrite Sp, Em. cbn [ok_or orb]. rewrite Ab, He, Ac.
  destruct Ht as [->| ->]; cbn [ok_or]; unfold has_host in *; cbn [host username LiveImport.password fragment port path query LiveImport.origin];
    rewrite Ho, Po; cbn; by destruct (Z.eqb_spec n 0).
Qed.

(** ** Approvals *)

Definition pinned (literal : option IpAddr) (ip : IpAddr) : Prop :=
  is_addr ip /\ to_canonical ip = ip /\ allowed ip = true /\ (forall host, literal = Some host -> host = ip).

Lemma pin_all_pinned (literal : option IpAddr) (pins : list string) (seen l : list IpAddr) :
  pin_all literal pins seen = Ok l -> NoDup seen ->
  NoDup l /\ exists new, l = seen ++ new /\ length new = length pins /\ Forall (pinned literal) new.
Proof.
  revert seen. induction pins as [|raw pins IH]; intros seen; cbn [pin_all].
  { intros <-%ok_inj D. split; [done|]. exists []. by rewrite app_nil_r. }
  destruct (Ip.parse raw) as [ip|] eqn:R; [|done]. cbn [ok_or]. apply parse_range in R.
  destruct (_ || _) eqn:B; [done|]. apply orb_false_iff in B as [[B1 B2]%orb_false_iff B3].
  apply negb_false_iff in B1. apply bool_decide_eq_false in B3.
  intros H D. destruct (IH _ H) as (D' & new & -> & Len & F).
  { apply NoDup_app. split; [done|]. split; [|apply NoDup_singleton].
    intros x X ->%list_elem_of_singleton. done. }
  split; [done|]. exists (to_canonical ip :: new). rewrite <- app_assoc. split; [done|].
  split; [cbn; lia|]. constructor; [|done]. split; [by apply canonical_range|]. split; [apply canonical_twice|].
  split; [done|]. intros host ->. cbn [is_some_and] in B2. apply negb_false_iff in B2.
  by apply bool_decide_eq_true in B2.
Qed.

Lemma pin_all_shown (literal : option IpAddr) (new seen : list IpAddr) :
  Forall (pinned literal) new -> NoDup (seen ++ new) -> pin_all literal (map Ip.show new) seen = Ok (seen ++ new).
Proof.
  intros F. revert seen. induction F as [|ip new (R & Can & Al & Li) F IH]; intros seen D; cbn [map pin_all].
  { by rewrite app_nil_r. }
  rewrite parse_show by done. cbn [ok_or]. rewrite Can, Al. cbn [negb orb].
  rewrite bool_decide_eq_false_2.
  - replace (is_some_and literal _) with false; cbn [orb].
    { rewrite IH; [by rewrite <- app_assoc|]. by rewrite <- app_assoc. }
    destruct literal as [host|]; [|done]. cbn [is_some_and]. by rewrite (Li host eq_refl), bool_decide_eq_true_2.
  - apply NoDup_app in D as (_ & D & _). intros X. apply (D ip X). by left.
Qed.

(** What an approval holds *)
Lemma approval_pinned (expected : string) (pins : list string) (u : Url) (a : Approval) :
  approval_new expected pins u = Ok a ->
  a_origin a = LiveImport.origin u /\ NoDup (addresses a) /\ (1 <= length (addresses a) <= 8)%nat /\
  Forall (pinned (literal_of u)) (addresses a) /\ exists raw v, source raw = Ok v /\ a_origin a = LiveImport.origin v.
Proof.
  unfold approval_new. destruct (origin_of expected) as [o|] eqn:O; [|done].
  destruct (_ || _) eqn:B; [done|]. apply orb_false_iff in B as [B1 B2]. apply negb_false_iff in B1, B2.
  apply String.eqb_eq in B1. apply andb_true_iff in B2 as [B2 B3]. apply Nat.leb_le in B2, B3.
  destruct (pin_all _ _ _) as [l|] eqn:Pin; [|done]. intros <-%ok_inj. cbn [a_origin addresses].
  apply pin_all_pinned in Pin as (D & new & -> & Len & F); [|constructor]. cbn [app] in *.
  split; [done|]. split; [done|]. split; [lia|]. split; [done|].
  unfold origin_of in O. destruct (source expected) as [v|] eqn:So; [|done]. destruct (_ || _) in O; [done|].
  injection O as <-. by exists expected, v.
Qed.

(** What an administrator approves for a feed is stored and reads back: the sealed
    approval, opened for any URL of the same origin and host, is the approved origin
    with the same addresses in the same order. *)
Theorem approval_reads_back (expected : string) (pins : list string) (url url' : Url) (a : Approval)
    (n : nat) (owner record : Z) (feed : FeedField) (envelope : string) :
  approval_new expected pins url = Ok a -> approval_seal n a owner record feed = Ok envelope ->
  LiveImport.origin url' = LiveImport.origin url -> host url' = host url ->
  approval_open owner record feed envelope url' = Ok a.
Proof using L U P.
  intros New Seal Same Host. pose proof (approval_pinned _ _ _ _ New) as (Or & D & Len & F & raw & v & So & Ov).
  unfold approval_seal in Seal. destruct (payload_to _) as [value|] eqn:Pt; [|done]. cbn [ok_or] in Seal.
  destruct (seal_record _ _ _) as [s|] eqn:Se; [|done]. injection Seal as <-.
  assert (Fit : Str.len value <= 4096).
  { unfold seal_record in Se. destruct (_ || _) eqn:B in Se; [done|]. unfold MAX_RECORD_SECRET_BYTES in B. dk_bool. lia. }
  apply seal_record_opens in Se as [_ Op]. unfold approval_open. rewrite (Op (payload_utf8 _ _ Pt)).
  rewrite (payload_inv _ _ Pt). cbn [ok_or p_version Z.eqb negb Pos.eqb].
  cbn [p_origin p_addresses]. apply payload_len in Pt. cbn [p_origin] in Pt.
  unfold approval_new. rewrite Ov at 1. rewrite (origin_is_origin raw); [|by apply source_validated|rewrite <- Ov; lia].
  rewrite <- Ov, Or, Same, String.eqb_refl, length_map. cbn [negb orb].
  rewrite (proj2 (Nat.leb_le _ _)), (proj2 (Nat.leb_le _ _)) by lia. cbn [andb negb].
  replace (literal_of url') with (literal_of url) by (unfold literal_of; by rewrite Host).
  rewrite pin_all_shown by (try done; by rewrite app_nil_l). cbn [app]. rewrite <- Or. by destruct a.
Qed.

(** ** What an import connects to *)

(** The address an import connects to was approved for the origin of the feed's
    own URL: it is an allowed address, never one the transport forbids, it is the
    address the URL names when it names one, its port is the URL's and never zero,
    there are at most eight of them, as many as the row counts, and the fence is the row's.  When the URL names its address
    the transport accepts exactly this address and port for it. *)
Theorem decoded_source_is_approved (row : FeedRow) (u : Z) (feed : FeedField) (index : nat) (src : Source) :
  decode row u feed index = Some src ->
  exists raw, secret_open u (fr_id row) feed (fr_secret row) = Ok raw /\ parse_url raw = Some (s_url src) /\
  allowed (s_address src) = true /\ forbidden (s_address src) = false /\
  port (s_url src) = Some (s_port src) /\ s_port src <> 0 /\
  Z.of_nat index < fr_count row <= 8 /\
  s_fence src = mk_fence u (fr_id row) (fr_generation row) /\
  (forall ip, literal_of (s_url src) = Some ip ->
     ip = s_address src /\ transport_source raw (s_address src) (s_port src) = Some (s_url src)).
Proof using U.
  unfold decode. destruct (secret_open _ _ _ _) as [raw|] eqn:So; [|done].
  destruct (source raw) as [url|] eqn:Sr; [|done]. destruct (fr_destination row) as [envelope|]; [|done].
  destruct (approval_open _ _ _ _ _) as [a|] eqn:Op; [|done]. destruct (negb _) eqn:Cnt; [done|].
  apply negb_false_iff, Z.eqb_eq in Cnt. destruct (addresses a !! index) as [ip|] eqn:At; [|done].
  destruct (port url) as [p|] eqn:Po; [|done]. intros [= <-]. cbn [s_url s_address s_port s_fence].
  assert (New : exists expected pins, approval_new expected pins url = Ok a).
  { unfold approval_open in Op. destruct (open_record _ _); [|done]. destruct (payload_of _) as [pl|]; [|done].
    cbn [ok_or] in Op. destruct (negb _) in Op; [done|].
    destruct (approval_new _ _ _) as [a'|] eqn:Na in Op; [|done]. injection Op as ->. eauto. }
  destruct New as (expected & pins & New). apply approval_pinned in New as (_ & _ & Len & F & _).
  pose proof (lookup_lt_Some _ _ _ At) as Lt.
  rewrite Forall_forall in F. destruct (F ip) as (Ra & Can & Al & Li); [by eapply list_elem_of_lookup_2|].
  pose proof (allowed_not_forbidden ip Ra Al) as Fo.
  destruct (source_validated _ _ Sr) as [Pu Lr Hr Hu Ho Ht Hn Hp Hf (p' & Po' & N)].
  rewrite Po in Po'. injection Po' as <-.
  exists raw. repeat (split; [solve [done|lia]|]). intros lit Lit. pose proof (Li _ Lit) as ->. split; [done|].
  unfold transport_source. rewrite (proj2 (Z.eqb_neq p 0)), Hu, (proj2 (Z.ltb_ge _ _)), Hr, Pu by done.
  cbn [orb]. unfold literal_of in Lit.
  assert (Addr : exists ad, match host url with Some (Ipv4 ip) => Some (V4 ip) | Some (Ipv6 ip) => Some (V6 ip) | _ => None end
                 = Some ad /\ to_canonical ad = ip /\ forbidden ad = false).
  { destruct (host url) as [[d|n|n]|]; try done; apply (inj Some) in Lit; rewrite <- Lit in *;
      eexists; (split; [reflexivity|]); (split; [done|]); unfold forbidden in *; by rewrite <- Can. }
  destruct Addr as (ad & -> & E1 & E2). rewrite E1, Can, E2, Po, Hn, Hp, Hf, !bool_decide_eq_true_2 by done.
  cbn. by destruct Ht as [->| ->].
Qed.

End Laws.

(** ** The theorems at a feed of one origin *)

Definition sample_origin : string := "http://10.0.0.5".
Definition sample_url (p : string) : Url :=
  mk_url "http" (Some (Ipv4 0x0a000005)) None "" None (if Str.is_empty p then "/" else p) None (Some 80) sample_origin.
#[local] Instance feed_env : Env :=
  {| is_cancelled := @is_cancelled sealing_env; is_late := @is_late sealing_env; now_v7 := fun n => 7 * 2 ^ 76 + Z.of_nat n; parse_uuid := @parse_uuid sealing_env;
     hyphenated := @hyphenated sealing_env; uuid_bytes := @uuid_bytes sealing_env; to_string := @to_string sealing_env; sha256 := @sha256 sealing_env;
     parse_naive := @parse_naive sealing_env; parse_zoned := @parse_zoned sealing_env;
     parse_url := fun s => let! p := Str.strip_prefix sample_origin s in Some (sample_url p) |}.
#[local] Existing Instance sample_crypto.
#[local] Instance sample_payloads : Payloads :=
  {| payload_to := fun p => match p_addresses p with
                            | [a] => if (p_version p =? 1) && String.eqb a "10.0.0.5" then Some (p_origin p) else None
                            | _ => None
                            end;
     payload_of := fun s => Some (mk_payload 1 s ["10.0.0.5"%string]) |}.

#[local] Instance feed_laws : CryptoLaws feed_env sample_crypto.
Proof. destruct sample_laws. by constructor. Qed.
#[local] Instance sample_url_laws : UrlLaws feed_env.
Proof.
  constructor; cbn [parse_url feed_env].
  - intros raw u s rest name Pu Sp Eq Name. destruct (Str.strip_prefix _ raw) as [p|] eqn:St; [|done].
    apply strip_prefix_eq in St as ->. injection Pu as <-. change (Some ("http"%string, "10.0.0.5" +:+ p) = Some (s, rest)) in Sp.
    injection Sp as <- <-. by destruct Name as [->| ->].
  - intros raw u Pu _ _. destruct (Str.strip_prefix _ raw); [|done]. injection Pu as <-.
    by exists "10.0.0.5"%string.
  - intros raw u Pu _ _. destruct (Str.strip_prefix _ raw); [|done]. by injection Pu as <-.
Qed.
#[local] Instance sample_payload_laws : PayloadLaws sample_crypto sample_payloads.
Proof.
  assert (G : forall p s, payload_to p = Some s -> p = mk_payload 1 s ["10.0.0.5"%string]).
  { intros [v o l] s. cbn. destruct l as [|a [|]]; try done. destruct (_ && _) eqn:B; [|done].
    apply andb_true_iff in B as [->%Z.eqb_eq ->%String.eqb_eq]. by intros [= <-]. }
  constructor; intros p s ->%G; [done|done|cbn; lia].
Qed.

Lemma approval_reads_back_example :
  let a := mk_approval sample_origin [V4 0x0a000005] in
  exists envelope,
    approval_new (sample_origin +:+ "/") ["::ffff:10.0.0.5"%string] (sample_url "/playlist") = Ok a /\
    approval_seal 0 a 5 6 Guide = Ok envelope /\
    approval_open 5 6 Guide envelope (sample_url "/guide") = Ok a.
Proof.
  intros a. assert (New : approval_new (sample_origin +:+ "/") ["::ffff:10.0.0.5"%string] (sample_url "/playlist") = Ok a)
    by (vm_compute; reflexivity).
  destruct (approval_seal 0 a 5 6 Guide) as [envelope|] eqn:Seal; [|vm_compute in Seal; discriminate Seal].
  exists envelope. split; [exact New|]. split; [reflexivity|].
  exact (approval_reads_back _ _ _ (sample_url "/guide") a 0 5 6 Guide envelope New Seal eq_refl eq_refl).
Defined.

Lemma decoded_source_is_approved_example :
  exists secret envelope src,
    decode (mk_feed_row 6 3 secret (Some envelope) 1) 5 Guide 0 = Some src /\
    transport_source (sample_origin +:+ "/guide") (s_address src) 80 = Some (s_url src).
Proof.
  destruct (secret_seal 0 5 6 Guide (sample_origin +:+ "/guide")) as [secret|] eqn:S1; [|vm_compute in S1; discriminate S1].
  destruct (approval_seal 0 (mk_approval sample_origin [V4 0x0a000005]) 5 6 Guide) as [envelope|] eqn:S2;
    [|vm_compute in S2; discriminate S2].
  exists secret, envelope, (mk_source (sample_url "/guide") (V4 0x0a000005) 80 (mk_fence 5 6 3)).
  vm_compute in S1, S2. injection S1 as <-. injection S2 as <-.
  match goal with |- decode ?r _ _ _ = Some ?s /\ _ =>
    assert (D : decode r 5 Guide 0 = Some s) by (vm_compute; reflexivity) end.
  split; [exact D|].
  pose proof (decoded_source_is_approved _ _ _ _ _ D) as (raw & So & _ & _ & _ & _ & _ & _ & _ & Tr).
  vm_compute in So. injection So as <-. exact (proj2 (Tr _ eq_refl)).
Defined.

End LiveDestinationProofs.
