(* ===== verification/LiveAssignments.v ===== *)
(** * Assignments of live television

    domains/live_tv/assignment: the feeds an administrator gives to a household, their
    policy and approved destinations.  Every operation is a transaction on the table
    and on those of household protection; a refused one leaves them as they were.
    The row of a household is found by the household, whose key is unique. *)

From stdpp Require Import gmap strings sorting.
From S2P Require Import Prelude Json HouseholdOwner LiveImport LiveCodec LiveDestination.
Import LiveImport LiveCodec LiveDestination.

Module LiveAssignments.

(** What a request is answered with when it is refused *)
Inductive Refusal :=
| Assign (e : AssignmentError) | Owner (e : HouseholdOwner.OwnerError) | Validation (fields : list (string * string)).
Definition assign {A} (r : result A AssignmentError) : result A Refusal :=
  match r with Ok x => Ok x | Err e => Err (Assign e) end.
Definition owner {A} (r : result A HouseholdOwner.OwnerError) : result A Refusal :=
  match r with Ok x => Ok x | Err e => Err (Owner e) end.

(** ** The table

    The columns of each feed and those of the policy are records of their own. *)
Record AdminPolicy := mk_policy {
  enabled : bool;
  max_live_streams : option Z;
  allow_owner_profile_access : bool;
  allow_owner_live_limit : bool;
}.
Record Feed := mk_feed {
  secret : string;
  feed_transport : FeedTransport;
  destination : option string;
  address_count : Z;
}.
Record Assignment := mk_assignment {
  a_id : Z;
  revision : Z;
  generation : Z;
  playlist : Feed;
  guide : Feed;
  policy : AdminPolicy;
  owner_max_live_streams : option Z;
}.

(** The constraints of the migrations, and the range of a [BIGINT] *)
Definition secret_valid (s : string) : bool :=
  (58 <=? Str.len s) && (Str.len s <=? 5518) && Str.starts_with RECORD_SECRET_PREFIX s.
Definition feed_valid (f : Feed) : bool :=
  secret_valid (secret f)
  && match destination f with
     | None => address_count f =? 0
     | Some d => (1 <=? address_count f) && (address_count f <=? 8) && secret_valid d
     end.
Definition positive (n : option Z) : bool := is_none_or n (fun n => 0 <? n).
Definition counter (n : Z) : bool := (0 <? n) && (n <=? i64_max).
Definition row_valid (a : Assignment) : bool :=
  counter (revision a) && counter (generation a) && feed_valid (playlist a) && feed_valid (guide a)
  && positive (max_live_streams (policy a)) && positive (owner_max_live_streams a).

(** The tables, [deleted] those accounts that have a time of deletion; the access of
    profiles is kept per assignment. *)
Record World := mk_world {
  household : HouseholdOwner.Db;
  deleted : gset Z;
  rows : gmap Z Assignment;
  access : gmap (Z * Z) bool;
  events : list (Z * Z * Z * string);
}.
Definition set_household (d : HouseholdOwner.Db) (w : World) : World :=
  mk_world d (deleted w) (rows w) (access w) (events w).
Definition set_rows (m : gmap Z Assignment) (w : World) : World :=
  mk_world (household w) (deleted w) m (access w) (events w).
Definition set_access (m : gmap (Z * Z) bool) (w : World) : World :=
  mk_world (household w) (deleted w) (rows w) m (events w).

(** A statement on the row of an id; it fails when the new row breaks a constraint. *)
Definition update_row (id : Z) (f : Assignment -> Assignment) (w : World) : result World Refusal :=
  if bool_decide (map_Forall (fun _ a => a_id a = id -> Is_true (row_valid (f a))) (rows w))
  then Ok (set_rows ((fun a => if a_id a =? id then f a else a) <$> rows w) w)
  else Err (Assign Database).

(** [revision=revision+1], and with [source_generation=source_generation+1] *)
Definition revised (a : Assignment) : Assignment :=
  mk_assignment (a_id a) (revision a + 1) (generation a) (playlist a) (guide a) (policy a)
    (owner_max_live_streams a).
Definition advanced (playlist guide : Feed) (p : AdminPolicy) (a : Assignment) : Assignment :=
  mk_assignment (a_id a) (revision a + 1) (generation a + 1) playlist guide p (owner_max_live_streams a).

(** ** types.rs and policy.rs *)

Inductive View := Administrator | HouseholdOwner_.
Record AssignmentResponse := mk_response {
  r_assignment : Z;
  r_household : Z;
  r_revision : Z;
  r_generation : Z;
  r_playlist_approved : bool;
  r_guide_approved : bool;
  r_playlist_count : Z;
  r_guide_count : Z;
  r_configured : bool;
  r_playlist_transport : FeedTransport;
  r_guide_transport : FeedTransport;
  r_enabled : bool;
  r_max : option Z;
  r_owner_max : option Z;
  r_cap : option Z;
  r_profile_access : bool;
  r_live_limit : bool;
  r_network_checked : bool;
  r_playback_available : bool;
  r_view : View;
}.

(** Outside the repository: [serde_json::to_vec] of a response *)
Class Responses := response_json : AssignmentResponse -> option string.

(** [response] *)
Definition response (u : Z) (a : Assignment) (view : View) : AssignmentResponse :=
  let p := policy a in
  let cap :=
    match max_live_streams p, owner_max_live_streams a with
    | Some x, Some y => Some (Z.min x y)
    | x, y => match x with Some _ => x | None => y end
    end in
  mk_response (a_id a) u (revision a) (generation a) (0 <? address_count (playlist a))
    (0 <? address_count (guide a)) (address_count (playlist a)) (address_count (guide a)) true
    (feed_transport (playlist a)) (feed_transport (guide a)) (enabled p) (max_live_streams p)
    (owner_max_live_streams a) cap (allow_owner_profile_access p) (allow_owner_live_limit p) false false view.

Inductive AdminPatch :=
| Configure (p : AdminPolicy)
| RotateCredentials (playlist_url guide_url : string)
| ReplaceAssignment (playlist_url guide_url : string)
| ApproveDestination (feed : FeedField) (expected_origin : string) (addresses : list string)
| RevokeDestination (feed : FeedField).
Inductive OwnerPatch :=
| SetProfileAccess (profile : Z) (enabled : bool)
| SetLiveLimit (max_live_streams : option Z).
Record CreateRequest := mk_create { playlist_url : string; guide_url : string; c_policy : AdminPolicy }.

Definition limit_valid (p : AdminPatch) : bool :=
  match p with Configure p => positive (max_live_streams p) | _ => true end.

(** ** preconditions.rs *)

Inductive Condition := Create | Match (tags : list string).

Definition is_ascii_whitespace (c : ascii) : bool :=
  let n := nat_of_ascii c in
  ((n =? 32) || (n =? 9) || (n =? 10) || (n =? 12) || (n =? 13))%nat.
Fixpoint trim_ascii_start (s : string) : string :=
  match s with
  | String c t => if is_ascii_whitespace c then trim_ascii_start t else s
  | EmptyString => EmptyString
  end.
Definition trim_ascii (s : string) : string := Str.rev (trim_ascii_start (Str.rev (trim_ascii_start s))).

(** The values of a header joined by commas, at most 1024 bytes of them *)
Fixpoint gather (bytes : string) (values : list string) : option string :=
  match values with
  | [] => Some bytes
  | v :: values =>
      let comma := negb (Str.is_empty bytes) in
      if 1024 <? Str.len bytes + Str.len v + (if comma then 1 else 0) then None
      else gather (bytes +:+ (if comma then "," else "") +:+ v) values
  end.

Definition dquote : ascii := "034"%char.
Definition tag_char (c : ascii) : bool := let n := nat_of_ascii c in negb ((n <? 33) || (n =? 127))%nat.

(** The loop over the tags; every round takes at least a byte. *)
Fixpoint read_tags (fuel : nat) (rest : string) (strong : list string) (parsed : bool)
  : result (list string * bool) AssignmentError :=
  match rest, fuel with
  | EmptyString, _ => Ok (strong, parsed)
  | _, O => Err InvalidRequest
  | _, S fuel =>
      let rest := trim_ascii_start rest in
      match Str.strip_prefix "," rest with
      | Some rest => read_tags fuel rest strong parsed
      | None =>
          let weak := Str.strip_prefix "W/" rest in
          let rest := unwrap_or weak rest in
          match rest with
          | String c t =>
              if negb (Ascii.eqb c dquote) then Err InvalidRequest
              else
                let? (tag, rest) := ok_or (Str.split_once dquote t) InvalidRequest in
                if negb (Str.all tag_char tag) then Err InvalidRequest
                else
                  let strong :=
                    if is_some_b weak then strong
                    else strong ++ [String dquote (tag +:+ String dquote EmptyString)] in
                  let rest := trim_ascii_start rest in
                  match rest with
                  | EmptyString => read_tags fuel EmptyString strong true
                  | String c t =>
                      if Ascii.eqb c "," then read_tags fuel t strong true else Err InvalidRequest
                  end
          | EmptyString => Err InvalidRequest
          end
      end
  end.

(** [condition], with the values of [If-None-Match] and of [If-Match] *)
Definition condition (if_none_match if_match : list string) (create : bool)
  : result Condition AssignmentError :=
  let '(required, other) := if create then (if_none_match, if_match) else (if_match, if_none_match) in
  match other with
  | _ :: _ => Err InvalidRequest
  | [] =>
      let? bytes := ok_or (gather "" required) InvalidRequest in
      if Str.is_empty bytes then Err ConditionRequired
      else
        let bytes := trim_ascii bytes in
        if create then (if String.eqb bytes "*" then Ok Create else Err InvalidRequest)
        else if String.eqb bytes "*" then Err ConditionRequired
        else
          let? (strong, parsed) := read_tags (String.length bytes) bytes [] false in
          if parsed then Ok (Match strong) else Err InvalidRequest
  end.

(** [Condition::check] *)
Definition check (c : Condition) (current : option string) : result unit AssignmentError :=
  match c, current with
  | Create, None => Ok tt
  | Match tags, Some current => if existsb (String.eqb current) tags then Ok tt else Err Stale
  | _, _ => Err Stale
  end.

Section Outside.
Context {E : Env} {C : Crypto} {J : Payloads} {O : HouseholdOwner.Outside} {R : Responses}.

(** [etag] with [sha256_etag] *)
Definition etag (r : AssignmentResponse) : result string AssignmentError :=
  let? bytes := ok_or (response_json r) Unavailable in
  Ok (String dquote (HouseholdOwner.hex (sha256 bytes) +:+ String dquote EmptyString)).

(** ** authority.rs *)

Definition administrator (now : Z) (actor : HouseholdOwner.Scope) (target : Z) (write : bool) (w : World)
  : result World Refusal :=
  let d := HouseholdOwner.lock_accounts [HouseholdOwner.user actor; target] (household w) in
  let? may := owner (HouseholdOwner.allowed now actor "can_manage_users" d) in
  if negb may then Err (Assign Forbidden)
  else
    let? _ := if write then owner (HouseholdOwner.require now actor d) else Ok tt in
    if is_some_b (HouseholdOwner.users d !! target) && negb (bool_decide (target ∈ deleted w))
    then Ok (set_household d w) else Err (Assign NotFound).

(** [authority::owner] *)
Definition household_owner (now : Z) (actor : HouseholdOwner.Scope) (w : World) : result World Refusal :=
  let? d := owner (HouseholdOwner.begin (HouseholdOwner.user actor) (household w)) in
  let? _ := owner (HouseholdOwner.scope now actor d) in
  let? _ := owner (HouseholdOwner.require now actor d) in
  Ok (set_household d w).

Definition audit (actor : HouseholdOwner.Scope) (assignment u : Z) (event : string) (w : World) : World :=
  mk_world (household w) (deleted w) (rows w) (access w)
    ((assignment, HouseholdOwner.user actor, u, event) :: events w).

(** ** storage.rs *)

Record Credentials := mk_credentials {
  c_playlist : string;
  c_guide : string;
  c_playlist_transport : FeedTransport;
  c_guide_transport : FeedTransport;
  c_playlist_origin : string;
  c_guide_origin : string;
}.

(** [credentials], with the [n]-th nonce and the one behind it *)
Definition credentials (n : nat) (u id : Z) (playlist guide : string) : result Credentials Refusal :=
  match validate_connection playlist guide with
  | Err fields => Err (Validation fields)
  | Ok (pt, gt) =>
      let? p := ok_or (parse_url playlist) (Assign InvalidPolicy) in
      let? g := ok_or (parse_url guide) (Assign InvalidPolicy) in
      match secret_seal n u id Playlist playlist, secret_seal (S n) u id Guide guide with
      | Ok ps, Ok gs => Ok (mk_credentials ps gs pt gt (LiveImport.origin p) (LiveImport.origin g))
      | _, _ => Err (Assign Unavailable)
      end
  end.

(** [load] and [current] *)
Definition load (u : Z) (w : World) : option Assignment := rows w !! u.
Definition current (u : Z) (view : View) (w : World) : result AssignmentResponse Refusal :=
  let? a := ok_or (load u w) (Assign NotFound) in Ok (response u a view).

Definition insert (u id : Z) (p : AdminPolicy) (c : Credentials) (w : World) : result World Refusal :=
  let a := mk_assignment id 1 1 (mk_feed (c_playlist c) (c_playlist_transport c) None 0)
             (mk_feed (c_guide c) (c_guide_transport c) None 0) p None in
  if is_some_b (rows w !! u) || negb (bool_decide (map_Forall (fun _ b => a_id b <> id) (rows w)))
     || negb (row_valid a) then Err (Assign Database)
  else Ok (set_rows (<[u := a]> (rows w)) w).

Definition configure (id : Z) (p : AdminPolicy) : World -> result World Refusal :=
  update_row id (fun a => advanced (playlist a) (guide a) p a).

(** destinations.rs: [retain] *)
Definition retained (u id : Z) (field : FeedField) (f : Feed) (expected : string) : bool :=
  match secret_open u id field (secret f), destination f with
  | Ok raw, Some envelope =>
      match source raw with
      | Ok url =>
          String.eqb (LiveImport.origin url) expected
          && match approval_open u id field envelope url with Ok _ => true | Err _ => false end
      | Err _ => false
      end
  | _, _ => false
  end.

Definition rotated (u id : Z) (field : FeedField) (f : Feed) (secret origin : string) (t : FeedTransport) : Feed :=
  if retained u id field f origin then mk_feed secret t (destination f) (address_count f)
  else mk_feed secret t None 0.
Definition rotate (u id : Z) (c : Credentials) (w : World) : result World Refusal :=
  let? a := ok_or (load u w) (Assign Database) in
  if negb (a_id a =? id) then Err (Assign Database)
  else
    let playlist := rotated u id Playlist (playlist a) (c_playlist c) (c_playlist_origin c) (c_playlist_transport c) in
    let guide := rotated u id Guide (guide a) (c_guide c) (c_guide_origin c) (c_guide_transport c) in
    update_row id (fun a => advanced playlist guide (policy a) a) w.

(** Deleting an assignment deletes the access of its profiles. *)
Definition remove_row (id : Z) (w : World) : World :=
  set_access (filter (fun p => p.1.1 <> id) (access w))
    (set_rows (filter (fun p => a_id p.2 <> id) (rows w)) w).

(** ** destinations.rs *)

Definition feed_of (field : FeedField) (a : Assignment) : Feed :=
  match field with Playlist => playlist a | Guide => guide a end.

(** [save] *)
Definition saved (field : FeedField) (envelope : option string) (count : Z) (a : Assignment) : Assignment :=
  let set f := mk_feed (secret f) (feed_transport f) envelope count in
  match field with
  | Playlist => advanced (set (playlist a)) (guide a) (policy a) a
  | Guide => advanced (playlist a) (set (guide a)) (policy a) a
  end.
Definition save (id : Z) (field : FeedField) (envelope : option string) (count : Z)
  : World -> result World Refusal := update_row id (saved field envelope count).

(** [approve] *)
Definition approve (n : nat) (u id : Z) (field : FeedField) (expected : string) (pins : list string) (w : World)
  : result World Refusal :=
  let? a := ok_or (load u w) (Assign Database) in
  if negb (a_id a =? id) then Err (Assign Database)
  else
    match secret_open u id field (secret (feed_of field a)) with
    | Err _ => Err (Assign Unavailable)
    | Ok raw =>
        let? url := assign (source raw) in
        let? approval := assign (approval_new expected pins url) in
        let? sealed := assign (approval_seal n approval u id field) in
        save id field (Some sealed) (Z.of_nat (length (addresses approval))) w
    end.

(** ** service.rs

    [id] is the id that is drawn, [n] the number of the next nonce. *)

Definition revoke_management (u : Z) (w : World) : World :=
  set_household (HouseholdOwner.invalidate u (household w)) w.
(** The end of a change by an administrator *)
Definition changed (actor : HouseholdOwner.Scope) (u id : Z) (event : string) (w : World)
  : result (AssignmentResponse * World) Refusal :=
  let w := audit actor id u event (revoke_management u w) in
  let? r := current u Administrator w in
  Ok (r, w).
Definition commit {A} (w : World) (r : result (A * World) Refusal) : result A Refusal * World :=
  match r with Ok (x, w') => (Ok x, w') | Err e => (Err e, w) end.

Definition read (now : Z) (actor : HouseholdOwner.Scope) (target : option Z) (w : World)
  : result AssignmentResponse Refusal * World :=
  commit w
    (match target with
     | Some u =>
         let? w := administrator now actor u false w in
         let? r := current u Administrator w in Ok (r, w)
     | None =>
         let? w := household_owner now actor w in
         let? r := current (HouseholdOwner.user actor) HouseholdOwner_ w in Ok (r, w)
     end).

Definition create (now : Z) (actor : HouseholdOwner.Scope) (u : Z) (c : Condition) (req : CreateRequest)
    (id : Z) (n : nat) (w : World) : result AssignmentResponse Refusal * World :=
  commit w
    (let? w := administrator now actor u true w in
     let? _ := assign (check c (match load u w with Some _ => Some "existing"%string | None => None end)) in
     if negb (positive (max_live_streams (c_policy req))) then Err (Assign InvalidPolicy)
     else
       let? creds := credentials n u id (playlist_url req) (guide_url req) in
       let? w := insert u id (c_policy req) creds w in
       changed actor u id "assignment_created" w).

Definition apply_patch (u : Z) (row : Assignment) (p : AdminPatch) (id : Z) (n : nat) (w : World)
  : result (Z * string * World) Refusal :=
  match p with
  | Configure p =>
      let? w := configure (a_id row) p w in Ok (a_id row, "assignment_policy_changed"%string, w)
  | RotateCredentials playlist guide =>
      let? creds := credentials n u (a_id row) playlist guide in
      let? w := rotate u (a_id row) creds w in
      Ok (a_id row, "assignment_credentials_rotated"%string, w)
  | ReplaceAssignment playlist guide =>
      let? creds := credentials n u id playlist guide in
      let w := remove_row (a_id row) w in
      let? w := insert u id (policy row) creds w in
      Ok (id, "assignment_replaced"%string, w)
  | ApproveDestination field expected pins =>
      let? w := approve n u (a_id row) field expected pins w in
      Ok (a_id row, "destination_approved"%string, w)
  | RevokeDestination field =>
      let? w := save (a_id row) field None 0 w in
      Ok (a_id row, "destination_revoked"%string, w)
  end.

Definition admin_patch (now : Z) (actor : HouseholdOwner.Scope) (u : Z) (c : Condition) (p : AdminPatch)
    (id : Z) (n : nat) (w : World) : result AssignmentResponse Refusal * World :=
  commit w
    (let? w := administrator now actor u true w in
     let? row := ok_or (load u w) (Assign NotFound) in
     let? tag := assign (etag (response u row Administrator)) in
     let? _ := assign (check c (Some tag)) in
     if negb (limit_valid p) then Err (Assign InvalidPolicy)
     else
       let? (id, event, w) := apply_patch u row p id n w in
       changed actor u id event w).

Definition remove (now : Z) (actor : HouseholdOwner.Scope) (u : Z) (c : Condition) (w : World)
  : result unit Refusal * World :=
  commit w
    (let? w := administrator now actor u true w in
     let? r := current u Administrator w in
     let? tag := assign (etag r) in
     let? _ := assign (check c (Some tag)) in
     let w := revoke_management u (remove_row (r_assignment r) w) in
     Ok (tt, audit actor (r_assignment r) u "assignment_deleted" w)).

Definition set_owner_limit (limit : option Z) (a : Assignment) : Assignment :=
  mk_assignment (a_id a) (revision a) (generation a) (playlist a) (guide a) (policy a) limit.

Definition owner_patch (now : Z) (actor : HouseholdOwner.Scope) (c : Condition) (p : OwnerPatch) (w : World)
  : result AssignmentResponse Refusal * World :=
  commit w
    (let u := HouseholdOwner.user actor in
     let? w := household_owner now actor w in
     let? r := current u HouseholdOwner_ w in
     let? tag := assign (etag r) in
     let? _ := assign (check c (Some tag)) in
     if negb (r_enabled r) then Err (Assign Forbidden)
     else
       let? (event, w) :=
         match p with
         | SetLiveLimit limit =>
             if negb (positive limit) then Err (Assign InvalidPolicy)
             else if negb (r_live_limit r) then Err (Assign Forbidden)
             else if match limit, r_max r with Some owner, Some admin => admin <? owner | _, _ => false end
             then Err (Assign InvalidPolicy)
             else
               let? w := update_row (r_assignment r) (set_owner_limit limit) w in
               Ok ("owner_limit_changed"%string, w)
         | SetProfileAccess profile on =>
             if negb (r_profile_access r) then Err (Assign Forbidden)
             else
               match HouseholdOwner.profiles (household w) !! profile with
               | Some q =>
                   if negb (HouseholdOwner.owner_user_id q =? u) then Err (Assign NotFound)
                   else if negb (String.eqb (HouseholdOwner.profile_type q) "standard") then Err (Assign InvalidPolicy)
                   else Ok ("owner_profile_access_changed"%string,
                            set_access (<[(r_assignment r, profile) := on]> (access w)) w)
               | None => Err (Assign NotFound)
               end
         end in
       let? w := update_row (r_assignment r) revised w in
       let w := audit actor (r_assignment r) u event w in
       let? r := current u HouseholdOwner_ w in
       Ok (r, w)).

(** ** The triggers of an account

    [other] says that the status or the time of deletion changed in another way than
    by what becomes active or deleted; any change of them fires both triggers. *)
Definition source_changed (u : Z) (w : World) : result World Refusal :=
  if is_none_or (rows w !! u) (fun a => row_valid (advanced (playlist a) (guide a) (policy a) a))
  then Ok (set_rows (alter (fun a => advanced (playlist a) (guide a) (policy a) a) u (rows w)) w)
  else Err (Assign Database).
Definition update_account (u : Z) (new : HouseholdOwner.User) (gone other : bool) (w : World) : World :=
  match HouseholdOwner.users (household w) !! u with
  | None => w
  | Some old =>
      let activity := negb (Bool.eqb (HouseholdOwner.active old) (HouseholdOwner.active new)) in
      let hash := negb (bool_decide (HouseholdOwner.password_hash old = HouseholdOwner.password_hash new)) in
      let fires := other || activity || negb (Bool.eqb gone (bool_decide (u ∈ deleted w))) in
      let d := HouseholdOwner.update_user u new (household w) in
      let d := if fires && negb (hash || activity) then HouseholdOwner.invalidate u d else d in
      let w' := mk_world d (if gone then {[u]} ∪ deleted w else deleted w ∖ {[u]}) (rows w) (access w) (events w) in
      if fires then match source_changed u w' with Ok w' => w' | Err _ => w end else w'
  end.

End Outside.

End LiveAssignments.
