(* ===== verification/LiveAssignmentsProofs.v ===== *)
(** * Theorems on assignments of live television

    The fence of an import pins its feeds, and what a household watches changes only
    by an administrator who has just proven to be there. *)

From stdpp Require Import gmap strings.
From S2P Require Import Prelude Json HouseholdOwner HouseholdOwnerProofs LiveImport LiveCodec.
From S2P Require Import LiveCodecProofs LiveDestination LiveDestinationProofs LiveAssignments.
Import LiveImport LiveCodec LiveDestination LiveAssignments.

Module LiveAssignmentsProofs.

Section Outside.
Context {E : Env} {C : Crypto} {J : Payloads} {O : HouseholdOwner.Outside} {R : Responses}.

(** ** Histories *)

Inductive Op :=
| Household (op : HouseholdOwnerProofs.Op)
| Account (u : Z) (new : HouseholdOwner.User) (gone other : bool)
| Read (actor : HouseholdOwner.Scope) (target : option Z)
| New (actor : HouseholdOwner.Scope) (u : Z) (c : Condition) (req : CreateRequest) (id : Z) (n : nat)
| Patch (actor : HouseholdOwner.Scope) (u : Z) (c : Condition) (p : AdminPatch) (id : Z) (n : nat)
| Remove (actor : HouseholdOwner.Scope) (u : Z) (c : Condition)
| ByOwner (actor : HouseholdOwner.Scope) (c : Condition) (p : OwnerPatch).

(** Accounts change through the trigger. *)
Definition perform (now : Z) (op : Op) (w : World) : World :=
  match op with
  | Household (HouseholdOwnerProofs.UpdateUser u new) => update_account u new (bool_decide (u ∈ deleted w)) false w
  | Household op => set_household (HouseholdOwnerProofs.perform now op (household w)) w
  | Account u new gone other => update_account u new gone other w
  | Read actor target => (read now actor target w).2
  | New actor u c req id n => (create now actor u c req id n w).2
  | Patch actor u c p id n => (admin_patch now actor u c p id n w).2
  | Remove actor u c => (remove now actor u c w).2
  | ByOwner actor c p => (owner_patch now actor c p w).2
  end.
Fixpoint run (w : World) (h : list (Z * Op)) : World :=
  match h with [] => w | (now, op) :: h => run (perform now op w) h end.
Lemma run_app (w : World) (h k : list (Z * Op)) : run w (h ++ k) = run (run w h) k.
Proof. revert w. induction h as [|[t op] h IH]; intros w; [done|]. apply IH. Qed.

(** The ids that a history draws *)
Definition drawn_by (op : Op) : list Z :=
  match op with New _ _ _ _ id _ | Patch _ _ _ _ id _ => [id] | _ => [] end.
Definition drawn (h : list (Z * Op)) : list Z := flat_map (fun e => drawn_by e.2) h.

(** ** Rows *)

Definition same_source (a b : Assignment) : Prop :=
  playlist b = playlist a /\ guide b = guide a /\ policy b = policy a.
Definition later (a b : Assignment) : Prop :=
  a_id b = a_id a /\ (generation a < generation b \/ (generation b = generation a /\ same_source a b)).
#[export] Instance later_po : PreOrder later.
Proof.
  split; [by intros a; split; [|right]|]. intros a b c [I1 G1] [I2 G2]. split; [congruence|].
  destruct G1 as [G1|(G1 & P1 & Q1 & R1)], G2 as [G2|(G2 & P2 & Q2 & R2)]; [left; lia..|right].
  split; [lia|]. split; [congruence|]. split; congruence.
Qed.

(** Every row is a later state of the row before, or has one of some ids. *)
Definition evolves (ids : list Z) (w w' : World) : Prop :=
  forall v b, rows w' !! v = Some b -> a_id b ∈ ids \/ exists a, rows w !! v = Some a /\ later a b.

Lemma grows_trans (i j : list Z) (a b c : World) : evolves i a b -> evolves j b c -> evolves (i ++ j) a c.
Proof.
  intros H K v z Z. destruct (K v z Z) as [I|(y & Y & L)]; [left; apply elem_of_app; by right|].
  destruct (H v y Y) as [I|(x & X & L')].
  - left. apply elem_of_app. left. by rewrite (proj1 L).
  - right. exists x. split; [done|by transitivity y].
Qed.
Lemma evolves_sub (ids : list Z) (w w' : World) : rows w' ⊆ rows w -> evolves ids w w'.
Proof. intros H v b B. right. exists b. split; [by eapply lookup_weaken|done]. Qed.
Lemma evolves_same (ids : list Z) (w w' : World) : rows w' = rows w -> evolves ids w w'.
Proof. intros H. apply evolves_sub. by rewrite H. Qed.

(** What a change of a row may be *)
Definition forward (f : Assignment -> Assignment) : Prop := forall a, later a (f a).
Lemma revised_forward : forward revised.
Proof. intros a. split; [done|by right]. Qed.
Lemma advanced_forward (p g : Assignment -> Feed) (q : Assignment -> AdminPolicy) :
  forward (fun a => advanced (p a) (g a) (q a) a).
Proof. intros a. split; [done|]. left. cbn. lia. Qed.
Lemma saved_forward (field : FeedField) (envelope : option string) (count : Z) : forward (saved field envelope count).
Proof. intros a. split; [by destruct field|left]. destruct field; cbn; lia. Qed.
Lemma limit_forward (limit : option Z) : forward (set_owner_limit limit).
Proof. intros a. split; [done|by right]. Qed.

(** The households of the ids; an id belongs to one. *)
Definition ids_of (w : World) : gmap Z Z := a_id <$> rows w.
Definition distinct (w : World) : Prop :=
  forall v v' i, ids_of w !! v = Some i -> ids_of w !! v' = Some i -> v = v'.
Lemma ids_row (w : World) (v : Z) (a : Assignment) : rows w !! v = Some a -> ids_of w !! v = Some (a_id a).
Proof. intros H. unfold ids_of. by rewrite lookup_fmap, H. Qed.
Lemma distinct_sub (w w' : World) : ids_of w' ⊆ ids_of w -> distinct w -> distinct w'.
Proof. intros H D v v' i V V'. apply (D v v' i); by eapply lookup_weaken. Qed.

(** The source of a household: what its imports read and whether they may *)
Definition source_of (v : Z) (w : World) : option (Z * Feed * Feed * AdminPolicy) :=
  (fun a => (a_id a, playlist a, guide a, policy a)) <$> rows w !! v.

(** What an operation on the rows of [u] leaves: the rows go forward, with no
    new ids but those drawn, and other households have the sources they had. *)
Record change (ids : list Z) (u : Z) (w w' : World) : Prop := {
  ch_evolves : evolves ids w w';
  ch_distinct : distinct w -> distinct w';
  ch_others : distinct w -> forall v, v <> u -> source_of v w' = source_of v w;
  ch_household : household w' = household w;
}.

Lemma change_update (ids : list Z) (id u : Z) (f : Assignment -> Assignment) (a : Assignment) (w w' : World) :
  forward f -> rows w !! u = Some a -> a_id a = id -> update_row id f w = Ok w' -> change ids u w w'.
Proof.
  intros F A I. unfold update_row. destruct (bool_decide _); [|done]. intros <-%ok_inj. split.
  - intros v b. cbn [rows set_rows]. rewrite lookup_fmap. destruct (rows w !! v) as [x|]; [|done].
    intros [= <-]. right. exists x. split; [done|]. by destruct (a_id x =? id).
  - apply distinct_sub. unfold ids_of. cbn [rows set_rows]. rewrite <- map_fmap_compose.
    apply reflexive_eq, map_fmap_ext. intros v x _. cbn. destruct (a_id x =? id); [|done]. apply (F x).
  - intros D v N. unfold source_of. cbn [rows set_rows]. rewrite lookup_fmap.
    destruct (rows w !! v) as [x|] eqn:X; [|done]. cbn. destruct (Z.eqb_spec (a_id x) id) as [Q|]; [|done].
    exfalso. apply N, (D v u id); [rewrite <- Q|rewrite <- I]; by apply ids_row.
  - done.
Qed.

Lemma change_insert (id u : Z) (p : AdminPolicy) (c : Credentials) (w w' : World) :
  insert u id p c w = Ok w' -> change [id] u w w' /\ rows w !! u = None.
Proof.
  unfold insert. destruct (_ || _ || _) eqn:B; [done|]. apply orb_false_iff in B as [[B1 B2]%orb_false_iff _].
  apply negb_false_iff, bool_decide_eq_true in B2. destruct (rows w !! u) eqn:U; [done|]. intros <-%ok_inj.
  split; [|done]. split.
  - intros v b. cbn [rows set_rows]. destruct (decide (u = v)) as [<-|N].
    + rewrite lookup_insert_eq. intros [= <-]. left. by left.
    + rewrite lookup_insert_ne by done. intros B. right. by exists b.
  - intros D v v' i. unfold ids_of. cbn [rows set_rows]. rewrite fmap_insert. cbn [a_id].
    assert (G : forall v, (a_id <$> rows w) !! v = Some id -> False).
    { intros x. rewrite lookup_fmap. destruct (rows w !! x) as [y|] eqn:X; [|done]. intros [= Q]. by apply (B2 x y). }
    destruct (decide (u = v)) as [<-|N], (decide (u = v')) as [<-|N']; try done;
      rewrite ?lookup_insert_eq, ?lookup_insert_ne by done.
    + intros [= <-] K. by apply G in K.
    + intros K [= <-]. by apply G in K.
    + apply D.
  - intros D v N. unfold source_of. cbn [rows set_rows]. by rewrite lookup_insert_ne.
  - done.
Qed.

Lemma change_remove (ids : list Z) (id u : Z) (a : Assignment) (w : World) :
  rows w !! u = Some a -> a_id a = id -> change ids u w (remove_row id w).
Proof.
  intros A I. split.
  - apply evolves_sub. cbn [rows set_rows set_access remove_row]. apply map_filter_subseteq.
  - apply distinct_sub, map_fmap_mono. apply map_filter_subseteq.
  - intros D v N. unfold source_of. cbn [rows set_rows set_access remove_row].
    destruct (rows w !! v) as [x|] eqn:X.
    + rewrite (map_lookup_filter_Some_2 _ _ v x); [done|done|]. cbn. intros Q.
      apply N, (D v u id); [rewrite <- Q|rewrite <- I]; by apply ids_row.
    + by rewrite map_lookup_filter_None_2 by (by left).
  - done.
Qed.

Lemma change_trans (ids : list Z) (u : Z) (a b c : World) : change ids u a b -> change ids u b c -> change ids u a c.
Proof.
  intros [E1 D1 O1 H1] [E2 D2 O2 H2]. split; [|auto|intros; rewrite O2 by auto; auto|congruence].
  intros v z Z. destruct (grows_trans _ _ _ _ _ E1 E2 v z Z) as [I|I]; [left|by right].
  by apply elem_of_app in I as [I|I].
Qed.

(** ** Operations *)

Abbreviation db := HouseholdOwner.Db.
Abbreviation fewer := HouseholdOwnerProofs.fewer.
#[local] Existing Instance HouseholdOwnerProofs.fewer_po.

(** Authority of an administrator, who has proven to be there *)
Definition authorized (now : Z) (actor : HouseholdOwner.Scope) (w : World) : Prop :=
  HouseholdOwner.allowed now actor "can_manage_users" (household w) = Ok true /\
  exists l, HouseholdOwner.require now actor (HouseholdOwner.lock_accounts l (household w)) = Ok tt.

Lemma administrator_ok (now : Z) (actor : HouseholdOwner.Scope) (u : Z) (write : bool) (w w' : World) :
  administrator now actor u write w = Ok w' ->
  (write = true -> authorized now actor w) /\ rows w' = rows w /\
  household w' = HouseholdOwner.lock_accounts [HouseholdOwner.user actor; u] (household w).
Proof.
  unfold administrator. set (l := [HouseholdOwner.user actor; u]).
  destruct (HouseholdOwner.allowed _ _ _ _) as [may|] eqn:Al; [|done]. cbn [owner].
  destruct may; [|done]. cbn [negb]. destruct write.
  - destruct (HouseholdOwner.require _ _ _) as [[]|] eqn:Re; [|done]. cbn [owner].
    destruct (_ && _); [|done]. intros <-%ok_inj. split; [|done]. intros _. split; [exact Al|by exists l].
  - destruct (_ && _); [|done]. by intros <-%ok_inj.
Qed.

Lemma household_owner_ok (now : Z) (actor : HouseholdOwner.Scope) (w w' : World) :
  household_owner now actor w = Ok w' -> rows w' = rows w /\ fewer (household w) (household w').
Proof.
  unfold household_owner. destruct (HouseholdOwner.begin _ _) as [d|] eqn:B; [|done]. cbn [owner].
  apply HouseholdOwnerProofs.begin_ok in B as [-> _].
  destruct (HouseholdOwner.scope _ _ _); [|done]. cbn [owner].
  destruct (HouseholdOwner.require _ _ _); [|done]. cbn [owner]. intros <-%ok_inj. split; [done|].
  by apply HouseholdOwnerProofs.fewer_same.
Qed.

(** The end of a change: the household's grants are gone. *)
Definition revoked (u : Z) (d : db) : Prop :=
  forall s g, HouseholdOwner.grants d !! s = Some g -> HouseholdOwner.g_user g <> u.
Lemma invalidate_revokes (u : Z) (d : db) : revoked u (HouseholdOwner.invalidate u d).
Proof. intros s g G. by apply HouseholdOwnerProofs.lookup_of_user in G as [_ G]. Qed.
Lemma revoked_requires (u t : Z) (actor : HouseholdOwner.Scope) (d : db) :
  revoked u d -> HouseholdOwner.user actor = u -> HouseholdOwner.require t actor d = Err HouseholdOwner.Required.
Proof.
  intros H U. unfold HouseholdOwner.require.
  destruct (HouseholdOwner.grants d !! _) as [g|] eqn:G; cbn [is_some_and]; [|done].
  destruct (HouseholdOwner.owners d !! _); cbn [is_some_and]; [|done].
  replace (HouseholdOwner.g_user g =? HouseholdOwner.user actor) with false; [done|].
  symmetry. apply Z.eqb_neq. rewrite U. by eapply H.
Qed.

Lemma changed_ok (actor : HouseholdOwner.Scope) (u id : Z) (event : string) (w w' : World) (r : AssignmentResponse) :
  changed actor u id event w = Ok (r, w') ->
  rows w' = rows w /\ household w' = HouseholdOwner.invalidate u (household w).
Proof. unfold changed. destruct (current _ _ _); [|done]. by intros [= _ <-]. Qed.

Lemma apply_patch_ok (u : Z) (row : Assignment) (p : AdminPatch) (id id' : Z) (n : nat) (event : string) (w w' : World) :
  rows w !! u = Some row -> apply_patch u row p id n w = Ok (id', event, w') -> change [id] u w w'.
Proof.
  intros Row. destruct p as [p|pl gd|pl gd|field expected pins|field]; cbn [apply_patch].
  - destruct (configure _ _ _) as [x|] eqn:H; [|done]. intros [= _ _ <-].
    eapply change_update; [|exact Row|done|exact H]. apply (advanced_forward playlist guide (fun _ => p)).
  - destruct (credentials _ _ _ _ _) as [c|]; [|done]. destruct (rotate _ _ _ _) as [x|] eqn:H; [|done].
    intros [= _ _ <-]. unfold rotate, load in H. rewrite Row in H. cbn [ok_or] in H.
    destruct (negb _) in H; [done|]. eapply change_update; [|exact Row|done|exact H].
    apply (advanced_forward (fun _ => _) (fun _ => _) policy).
  - destruct (credentials _ _ _ _ _) as [c|]; [|done]. destruct (insert _ _ _ _ _) as [x|] eqn:H; [|done].
    intros [= _ _ <-]. apply change_insert in H as [H _]. eapply change_trans; [|exact H]. by eapply change_remove.
  - destruct (approve _ _ _ _ _ _ _) as [x|] eqn:H; [|done]. intros [= _ _ <-].
    unfold approve, load in H. rewrite Row in H. cbn [ok_or] in H. destruct (negb _) in H; [done|].
    destruct (secret_open _ _ _ _); [|done]. destruct (source _); [|done]. cbn [assign] in H.
    destruct (approval_new _ _ _); [|done]. cbn [assign] in H. destruct (approval_seal _ _ _ _ _); [|done].
    eapply change_update; [|exact Row|done|exact H]. apply saved_forward.
  - destruct (save _ _ _ _ _) as [x|] eqn:H; [|done]. intros [= _ _ <-].
    eapply change_update; [|exact Row|done|exact H]. apply saved_forward.
Qed.

(** The precondition of a change: it names the state that it changes. *)
Definition named (op : Op) (w : World) : Prop :=
  match op with
  | New _ u _ _ _ _ => rows w !! u = None
  | Patch _ u c _ _ _ | Remove _ u c =>
      exists a tag tags, rows w !! u = Some a /\ etag (response u a Administrator) = Ok tag /\
                         c = Match tags /\ tag ∈ tags
  | _ => True
  end.
Definition admin_of (op : Op) : option (HouseholdOwner.Scope * Z) :=
  match op with New a u _ _ _ _ | Patch a u _ _ _ _ | Remove a u _ => Some (a, u) | _ => None end.

Lemma check_match (c : Condition) (tag : string) (x : unit) :
  check c (Some tag) = Ok x -> exists tags, c = Match tags /\ tag ∈ tags.
Proof.
  destruct c as [|tags]; [done|]. cbn [check]. destruct (existsb _ _) eqn:B; [|done]. intros _.
  exists tags. split; [done|]. apply existsb_exists in B as (y & Y & ->%String.eqb_eq). by apply list_elem_of_In.
Qed.

(** A change by an administrator leaves everything, or is one of the rows of its
    household, authorized, and named by its precondition. *)
Record admin_change (now : Z) (op : Op) (actor : HouseholdOwner.Scope) (u : Z) (w w' : World) : Prop := {
  ac_change : change (drawn_by op) u (set_household (household w') w) w';
  ac_authorized : authorized now actor w;
  ac_named : named op w;
  ac_fewer : fewer (household w) (household w');
  ac_revoked : revoked u (household w');
}.

Lemma administered (now : Z) (op : Op) (actor : HouseholdOwner.Scope) (u : Z) (w w1 w2 w' : World) :
  administrator now actor u true w = Ok w1 -> named op w -> change (drawn_by op) u w1 w2 -> rows w' = rows w2 ->
  household w' = HouseholdOwner.invalidate u (household w2) -> admin_change now op actor u w w'.
Proof.
  intros A N [Ev Di Ot Ho] Rw Hw. apply administrator_ok in A as (Au & R1 & H1). split.
  - split; [| | |done].
    + intros v b. rewrite Rw. intros B. destruct (Ev v b B) as [I|(a & X & L)]; [by left|right]. rewrite R1 in X. eauto.
    + unfold distinct, ids_of in *. cbn [rows set_household]. rewrite Rw. rewrite R1 in Di. exact Di.
    + unfold distinct, ids_of, source_of in *. cbn [rows set_household]. rewrite Rw. rewrite R1 in Ot. exact Ot.
  - by apply Au.
  - done.
  - rewrite Hw, Ho, H1. etransitivity; [|apply HouseholdOwnerProofs.fewer_invalidate].
    by apply HouseholdOwnerProofs.fewer_same.
  - rewrite Hw. apply invalidate_revokes.
Qed.

Lemma admin_performs (now : Z) (op : Op) (actor : HouseholdOwner.Scope) (u : Z) (w : World) :
  admin_of op = Some (actor, u) -> perform now op w = w \/ admin_change now op actor u w (perform now op w).
Proof.
  destruct op as [| | |a v c req id n|a v c p id n|a v c|]; try done; intros [= -> ->]; cbn [perform].
  - unfold create. destruct (administrator now actor u true w) as [w1|] eqn:A; [|by left].
    pose proof (administrator_ok _ _ _ _ _ _ A) as (_ & R1 & _).
    destruct (assign _) eqn:Ck; [|by left]. destruct (negb _); [by left|].
    destruct (credentials _ _ _ _ _) as [creds|]; [|by left].
    destruct (insert _ _ _ _ _) as [w2|] eqn:I; [|by left]. apply change_insert in I as [I Fr].
    destruct (changed _ _ _ _ _) as [[r w3]|] eqn:Chd; [|by left]. apply changed_ok in Chd as [R3 H3]. right.
    apply (administered now _ actor u w w1 w2 w3 A); [|done|done|done]. cbn [named]. by rewrite <- R1.
  - unfold admin_patch. destruct (administrator now actor u true w) as [w1|] eqn:A; [|by left].
    pose proof (administrator_ok _ _ _ _ _ _ A) as (_ & R1 & _).
    unfold load. destruct (rows w1 !! u) as [row|] eqn:Row; [|by left]. cbn [ok_or].
    destruct (etag _) as [tag|] eqn:Tag; [|by left]. cbn [assign].
    destruct (check c (Some tag)) eqn:Ck; [|by left]. cbn [assign]. apply check_match in Ck as (tags & -> & In).
    destruct (negb _); [by left|].
    destruct (apply_patch _ _ _ _ _ _) as [[[id' event] w2]|] eqn:Ap; [|by left].
    apply apply_patch_ok in Ap; [|done].
    destruct (changed _ _ _ _ _) as [[r w3]|] eqn:Chd; [|by left]. apply changed_ok in Chd as [R3 H3]. right.
    apply (administered now _ actor u w w1 w2 w3 A); [|done|done|done]. cbn [named]. rewrite <- R1. by exists row, tag, tags.
  - unfold remove. destruct (administrator now actor u true w) as [w1|] eqn:A; [|by left].
    pose proof (administrator_ok _ _ _ _ _ _ A) as (_ & R1 & _). unfold current, load.
    destruct (rows w1 !! u) as [row|] eqn:Row; [|by left]. cbn [ok_or].
    destruct (etag _) as [tag|] eqn:Tag; [|by left]. cbn [assign].
    destruct (check c (Some tag)) eqn:Ck; [|by left]. cbn [assign]. apply check_match in Ck as (tags & -> & In).
    right. apply (administered now _ actor u w w1 (remove_row (a_id row) w1) _ A); [|by eapply change_remove|done|done].
    cbn [named]. rewrite <- R1. by exists row, tag, tags.
Qed.

(** Every other event leaves the sources as they are, and gives no grants unless it is
    one of household protection. *)
Record quiet (w w' : World) : Prop := {
  q_evolves : evolves [] w w';
  q_distinct : distinct w -> distinct w';
  q_source : distinct w -> forall v, source_of v w' = source_of v w;
}.
Lemma quiet_same (w w' : World) : rows w' = rows w -> quiet w w'.
Proof. intros H. split; unfold distinct, ids_of, source_of; [by apply evolves_same|by rewrite H|by rewrite H]. Qed.
Lemma quiet_trans (a b c : World) : quiet a b -> quiet b c -> quiet a c.
Proof.
  intros [E1 D1 S1] [E2 D2 S2]. split; [by apply (grows_trans [] [] a b c)|auto|].
  intros D v. by rewrite S2, S1 by auto.
Qed.

Lemma quiet_fmap (f : Assignment -> Assignment) (p : Z -> Assignment -> bool) (w w' : World) :
  (forall a, later a (f a) /\ same_source a (f a)) ->
  rows w' = map_imap (fun v a => Some (if p v a then f a else a)) (rows w) -> quiet w w'.
Proof.
  intros F H. split.
  - intros v b. rewrite H, map_lookup_imap. destruct (rows w !! v) as [a|]; [|done]. intros [= <-].
    right. exists a. split; [done|]. destruct (p v a); [apply F|done].
  - unfold distinct. assert (I : ids_of w' = ids_of w); [|by rewrite I].
    apply map_eq. intros v. unfold ids_of. rewrite H, !lookup_fmap, map_lookup_imap.
    destruct (rows w !! v) as [a|]; [|done]. cbn. destruct (p v a); [|done]. by destruct (F a) as [[-> _] _].
  - intros _ v. unfold source_of. rewrite H, map_lookup_imap. destruct (rows w !! v) as [a|]; [|done]. cbn.
    destruct (p v a); [|done]. by destruct (F a) as [[-> _] (-> & -> & ->)].
Qed.

Lemma revised_same (a : Assignment) : later a (revised a) /\ same_source a (revised a).
Proof. split; [apply revised_forward|done]. Qed.
Lemma limit_same (limit : option Z) (a : Assignment) :
  later a (set_owner_limit limit a) /\ same_source a (set_owner_limit limit a).
Proof. split; [apply limit_forward|done]. Qed.
Lemma quiet_update (id : Z) (f : Assignment -> Assignment) (w w' : World) :
  (forall a, later a (f a) /\ same_source a (f a)) -> update_row id f w = Ok w' ->
  quiet w w' /\ household w' = household w.
Proof.
  intros F. unfold update_row. destruct (bool_decide _); [|done]. intros <-%ok_inj. split; [|done].
  apply (quiet_fmap f (fun _ a => a_id a =? id)); [done|]. apply map_eq. intros v.
  cbn [rows set_rows]. rewrite lookup_fmap, map_lookup_imap. by destruct (rows w !! v).
Qed.

Lemma quiet_account (u : Z) (new : HouseholdOwner.User) (gone other : bool) (w : World) :
  quiet w (update_account u new gone other w) /\ fewer (household w) (household (update_account u new gone other w)).
Proof.
  unfold update_account. destruct (HouseholdOwner.users (household w) !! u) as [old|] eqn:U; [|by split; [apply quiet_same|]].
  set (d := if _ && _ then _ else _). set (w1 := mk_world d _ _ _ _).
  assert (Fw : fewer (household w) (household w1)).
  { pose proof (HouseholdOwnerProofs.triggers_fewer 0 (HouseholdOwnerProofs.UpdateUser u new) (household w) I) as F.
    cbn [household w1]. unfold d. destruct (_ && _); [|exact F]. etransitivity; [exact F|].
    apply HouseholdOwnerProofs.fewer_invalidate. }
  destruct (_ || _ || _); [|split; [by apply quiet_same|exact Fw]].
  unfold source_changed. destruct (is_none_or _ _); [|by split; [apply quiet_same|]].
  split; [|exact Fw].
  apply (quiet_fmap (fun a => advanced (playlist a) (guide a) (policy a) a) (fun v _ => v =? u)).
  - intros a. split; [|done]. apply (advanced_forward playlist guide policy).
  - apply map_eq. intros v. cbn [rows set_rows]. rewrite map_lookup_imap.
    destruct (decide (v = u)) as [->|N].
    + rewrite lookup_alter_eq. cbn [rows w1]. destruct (rows w !! u); [|done]. cbn. by rewrite Z.eqb_refl.
    + rewrite lookup_alter_ne by done. cbn [rows w1]. destruct (rows w !! v); [|done]. cbn.
      by rewrite (proj2 (Z.eqb_neq v u)).
Qed.

Lemma owner_change_ok (u : Z) (r : AssignmentResponse) (p : OwnerPatch) (event : string) (w w' : World) :
  match p with
  | SetLiveLimit limit =>
      if negb (positive limit) then Err (Assign InvalidPolicy)
      else if negb (r_live_limit r) then Err (Assign Forbidden)
      else if match limit, r_max r with Some owner, Some admin => admin <? owner | _, _ => false end
      then Err (Assign InvalidPolicy)
      else let? w := update_row (r_assignment r) (set_owner_limit limit) w in
           Ok ("owner_limit_changed"%string, w)
  | SetProfileAccess profile on =>
      if negb (r_profile_access r) then Err (Assign Forbidden)
      else match HouseholdOwner.profiles (household w) !! profile with
           | Some q =>
               if negb (HouseholdOwner.owner_user_id q =? u) then Err (Assign NotFound)
               else if negb (String.eqb (HouseholdOwner.profile_type q) "standard") then Err (Assign InvalidPolicy)
               else Ok ("owner_profile_access_changed"%string,
                        set_access (<[(r_assignment r, profile) := on]> (access w)) w)
           | None => Err (Assign NotFound)
           end
  end = Ok (event, w') -> quiet w w' /\ household w' = household w.
Proof.
  destruct p as [profile on|limit].
  - destruct (negb _); [done|]. destruct (_ !! profile) as [q|]; [|done]. destruct (negb _); [done|].
    destruct (negb _); [done|]. intros [= _ <-]. split; [by apply quiet_same|done].
  - destruct (negb _); [done|]. destruct (negb _); [done|].
    destruct (match limit with Some _ => _ | None => _ end); [done|].
    destruct (update_row _ _ _) as [x|] eqn:U; [|done]. intros [= _ <-].
    apply quiet_update in U; [done|apply limit_same].
Qed.

Lemma quiet_performs (now : Z) (op : Op) (w : World) :
  admin_of op = None ->
  quiet w (perform now op w) /\
  (fewer (household w) (household (perform now op w)) \/
   exists hop, op = Household hop /\ household (perform now op w) = HouseholdOwnerProofs.perform now hop (household w)).
Proof.
  destruct op as [hop|u new gone other|actor target| | | |actor c p]; try done; intros _; cbn [perform].
  - destruct hop; try (split; [by apply quiet_same|right; by eexists]).
    split; [apply quiet_account|left; apply quiet_account].
  - split; [apply quiet_account|left; apply quiet_account].
  - unfold read. destruct target as [u|].
    + destruct (administrator now actor u false w) as [w1|] eqn:A; [|by split; [apply quiet_same|left]].
      apply administrator_ok in A as (_ & R1 & H1).
      destruct (current _ _ _); [|by split; [apply quiet_same|left]]. split; [by apply quiet_same|left].
      cbn [commit snd]. rewrite H1. by apply HouseholdOwnerProofs.fewer_same.
    + destruct (household_owner now actor w) as [w1|] eqn:A; [|by split; [apply quiet_same|left]].
      apply household_owner_ok in A as [R1 H1].
      destruct (current _ _ _); [|by split; [apply quiet_same|left]]. split; [by apply quiet_same|by left].
  - unfold owner_patch. destruct (household_owner now actor w) as [w1|] eqn:A; [|by split; [apply quiet_same|left]].
    apply household_owner_ok in A as [R1 H1].
    destruct (current _ HouseholdOwner_ w1) as [r|]; [|by split; [apply quiet_same|left]].
    destruct (assign (etag r)) as [tag|]; [|by split; [apply quiet_same|left]].
    destruct (assign (check c _)); [|by split; [apply quiet_same|left]].
    destruct (negb (r_enabled r)); [by split; [apply quiet_same|left]|].
    destruct (match p with SetProfileAccess _ _ => _ | SetLiveLimit _ => _ end) as [[event w2]|] eqn:P;
      [|by split; [apply quiet_same|left]].
    apply owner_change_ok in P as [Q2 H2].
    destruct (update_row (r_assignment r) revised w2) as [w3|] eqn:U; [|by split; [apply quiet_same|left]].
    apply quiet_update in U as [Q3 H3]; [|apply revised_same].
    destruct (current _ _ _); [|by split; [apply quiet_same|left]]. cbn [commit snd]. split.
    + apply (quiet_trans w w1); [by apply quiet_same|]. apply (quiet_trans w1 w2 _ Q2).
      apply (quiet_trans w2 w3 _ Q3). by apply quiet_same.
    + left. unfold audit. cbn [household]. by rewrite H3, H2.
Qed.

(** ** Histories of the tables *)

Lemma perform_evolves (now : Z) (op : Op) (w : World) : evolves (drawn_by op) w (perform now op w).
Proof.
  destruct (admin_of op) as [[actor u]|] eqn:A.
  - destruct (admin_performs now op actor u w A) as [->|[[Ev _ _ _] _ _ _ _]]; [by apply evolves_same|exact Ev].
  - destruct (quiet_performs now op w A) as [[Ev _ _] _]. intros v b B.
    destruct (Ev v b B) as [I|?]; [by apply elem_of_nil in I|by right].
Qed.
Lemma run_evolves (h : list (Z * Op)) (w : World) : evolves (drawn h) w (run w h).
Proof.
  revert w. induction h as [|[t op] h IH]; intros w; [by apply evolves_same|].
  exact (grows_trans _ _ _ _ _ (perform_evolves t op w) (IH _)).
Qed.

Lemma perform_distinct (now : Z) (op : Op) (w : World) : distinct w -> distinct (perform now op w).
Proof.
  intros D. destruct (admin_of op) as [[actor u]|] eqn:A.
  - destruct (admin_performs now op actor u w A) as [->|[[_ Di _ _] _ _ _ _]]; [done|by apply Di].
  - destruct (quiet_performs now op w A) as [[_ Di _] _]. by apply Di.
Qed.
Lemma run_distinct (h : list (Z * Op)) (w : World) : distinct w -> distinct (run w h).
Proof. revert w. induction h as [|[t op] h IH]; intros w D; [done|]. by apply IH, perform_distinct. Qed.

Lemma perform_household (now : Z) (op : Op) (w : World) :
  fewer (household w) (household (perform now op w)) \/
  exists hop, op = Household hop /\ household (perform now op w) = HouseholdOwnerProofs.perform now hop (household w).
Proof.
  destruct (admin_of op) as [[actor u]|] eqn:A; [|by apply quiet_performs].
  destruct (admin_performs now op actor u w A) as [->|[]]; by left.
Qed.
Lemma run_sound (h : list (Z * Op)) (w : World) :
  HouseholdOwnerProofs.sound (household w) -> HouseholdOwnerProofs.sound (household (run w h)).
Proof.
  revert w. induction h as [|[t op] h IH]; intros w S; [done|]. apply IH.
  destruct (perform_household t op w) as [F|(hop & _ & ->)].
  - exact (HouseholdOwnerProofs.sound_fewer _ _ F S).
  - by apply HouseholdOwnerProofs.perform_sound.
Qed.

(** A grant is there at first, or a proof in the history gave it. *)
Lemma run_grants (h : list (Z * Op)) (w : World) (s : Z) (g : HouseholdOwner.Grant) :
  HouseholdOwnerProofs.sound (household w) -> HouseholdOwner.grants (household (run w h)) !! s = Some g ->
  HouseholdOwner.grants (household w) !! s = Some g \/
  exists h1 t hop h2, h = h1 ++ (t, Household hop) :: h2 /\
    HouseholdOwnerProofs.granted t hop (household (run w h1)) s g.
Proof.
  intros S. induction h as [|[t op] h IH] using rev_ind; [by left|]. rewrite run_app. cbn [run]. intros G.
  assert (G' : HouseholdOwner.grants (household (run w h)) !! s = Some g \/
               exists hop, op = Household hop /\ HouseholdOwnerProofs.granted t hop (household (run w h)) s g).
  { destruct (perform_household t op (run w h)) as [F|(hop & -> & Eq)]; [left; by apply F|].
    rewrite Eq in G. apply HouseholdOwnerProofs.perform_grants in G as [G|G]; [by left|right; by exists hop|].
    by apply run_sound. }
  destruct G' as [G'|(hop & -> & G')].
  - destruct (IH G') as [?|(h1 & t1 & op1 & h2 & -> & ?)]; [by left|right].
    exists h1, t1, op1, (h2 ++ [(t, op)]). by rewrite <- app_assoc.
  - right. by exists h, t, hop, [].
Qed.

(** An import reads the feeds of the household whose row has its fence.  As long as
    the fence is current, at the end of any history, the source is the very one it
    read, and was so at every moment between: the URLs, the approved destinations with
    their addresses, and the policy.  Ids drawn in the meantime are other ids. *)
Theorem fence_pins_sources (w : World) (h h1 h2 : list (Z * Op)) (u : Z) (a b : Assignment) :
  rows w !! u = Some a -> a_id a ∉ drawn h -> h = h1 ++ h2 ->
  rows (run w h) !! u = Some b -> a_id b = a_id a -> generation b = generation a ->
  exists c, rows (run w h1) !! u = Some c /\ a_id c = a_id a /\ generation c = generation a /\
            same_source a c /\ same_source c b.
Proof.
  intros A N -> B I G. unfold drawn in N. rewrite flat_map_app, not_elem_of_app in N. destruct N as [N1 N2].
  rewrite run_app in B. destruct (run_evolves h2 (run w h1) u b B) as [X|(c & X & [Ic Lc])].
  { exfalso. apply N2. by rewrite <- I. }
  destruct (run_evolves h1 w u c X) as [Y|(a' & Y & [Ia La])].
  { exfalso. apply N1. by rewrite <- I, Ic. }
  rewrite A in Y. injection Y as <-. exists c. split; [done|]. split; [congruence|].
  destruct La as [La|[Ga Sa]], Lc as [Lc|[Gc Sc]]; [lia..|]. split; [lia|]. done.
Qed.

(** C4. What a household watches - the id of its assignment, its URLs and destinations
    and its policy - changes only by a successful request of an administrator that
    names the state it changes; the administrator may manage users and has proven to
    be there, with a password or a passkey in the same session less than five minutes
    ago.  The household's own proofs are void afterwards. *)
Theorem source_changes_need_a_proof (w : World) (h : list (Z * Op)) (now v : Z) (op : Op) :
  distinct w -> HouseholdOwnerProofs.sound (household w) -> HouseholdOwner.grants (household w) = ∅ ->
  source_of v (perform now op (run w h)) <> source_of v (run w h) ->
  exists actor, admin_of op = Some (actor, v) /\ named op (run w h) /\
    HouseholdOwner.allowed now actor "can_manage_users" (household (run w h)) = Ok true /\
    (exists h1 t hop h2 before, h = h1 ++ (t, Household hop) :: h2 /\
       HouseholdOwnerProofs.shown t hop (household (run w h1)) before /\
       HouseholdOwner.session before = HouseholdOwner.session actor /\
       HouseholdOwner.user before = HouseholdOwner.user actor /\
       HouseholdOwner.profile before = HouseholdOwner.profile actor /\
       HouseholdOwner.version actor = HouseholdOwner.version before + 1 /\
       now < t + 5 * HouseholdOwner.MINUTE) /\
    (forall t s, HouseholdOwner.user s = v ->
       HouseholdOwner.require t s (household (perform now op (run w h))) = Err HouseholdOwner.Required).
Proof.
  intros D S N Ch. pose proof (run_distinct h w D) as D'.
  destruct (admin_of op) as [[actor u]|] eqn:A;
    [|destruct (quiet_performs now op (run w h) A) as [[_ _ Q] _]; by rewrite Q in Ch].
  destruct (admin_performs now op actor u (run w h) A) as [Eq|[[_ _ Ot _] [Al (l & Re)] Na _ Rv]]; [by rewrite Eq in Ch|].
  destruct (decide (v = u)) as [->|V]; [|exfalso; by apply Ch, Ot].
  exists actor. split; [done|]. split; [done|]. split; [exact Al|]. split; [|intros t s; by apply revoked_requires].
  unfold HouseholdOwner.require in Re.
  change (HouseholdOwner.grants (HouseholdOwner.lock_accounts l ?d)) with (HouseholdOwner.grants d) in Re.
  destruct (HouseholdOwner.grants _ !! HouseholdOwner.session actor) as [g|] eqn:G; [|done]. cbn [is_some_and] in Re.
  destruct (HouseholdOwner.owners _ !! _) as [o|]; [|done]. cbn [is_some_and] in Re.
  destruct (_ && _) eqn:B in Re; [|done]. clear Re.
  apply (run_grants h w _ _ S) in G as [G|(h1 & t & hop & h2 & -> & before & sess & o' & Sh & Es & -> & _)];
    [by rewrite N, lookup_empty in G|].
  unfold HouseholdOwnerProofs.grant_of in B.
  cbn [HouseholdOwner.g_user HouseholdOwner.g_profile HouseholdOwner.g_revision HouseholdOwner.g_version
       HouseholdOwner.g_expires] in B. dk_bool.
  exists h1, t, hop, h2, before. repeat (split; [done|]). lia.
Qed.

End Outside.

(** ** The theorems at an assignment that is created and read *)

#[local] Existing Instance LiveDestinationProofs.feed_env.
#[local] Existing Instance LiveCodecProofs.sample_crypto.
#[local] Existing Instance LiveDestinationProofs.sample_payloads.
#[local] Existing Instance HouseholdOwnerProofs.sample_outside.
#[local] Instance sample_responses : Responses := fun r => Some (Dec.print (r_revision r)).

Definition minutes (n : Z) : Z := n * HouseholdOwner.MINUTE.
Definition two_households : HouseholdOwner.Db :=
  HouseholdOwner.set_users (<[7 := HouseholdOwner.mk_user "user" true None]> (HouseholdOwner.users HouseholdOwnerProofs.sample_db))
    HouseholdOwnerProofs.sample_db.
Definition no_assignments : World := mk_world two_households ∅ ∅ ∅ [].
Definition proof : Z * Op := (minutes 1, Household (HouseholdOwnerProofs.try "secret")).
Definition feed_url (p : string) : string := LiveDestinationProofs.sample_origin +:+ p.
Definition create_one : Op :=
  New (HouseholdOwnerProofs.sample_scope 8) 7 Create
    (mk_create (feed_url "/playlist") (feed_url "/guide") (mk_policy true (Some 2) false false)) 70 0.
Definition created : World := run no_assignments [proof; (minutes 2, create_one)].
Definition read_it : Z * Op := (minutes 3, Read (HouseholdOwnerProofs.sample_scope 8) (Some 7)).
Definition revoke_it : Z * Op := (minutes 4, Household (HouseholdOwnerProofs.Revoke 7)).

Lemma no_assignments_distinct : distinct no_assignments.
Proof. intros v v' i V. unfold ids_of in V. cbn [rows no_assignments] in V. by rewrite fmap_empty in V. Qed.

Lemma fence_pins_sources_example :
  exists a c, rows created !! 7 = Some a /\ rows (run created [read_it]) !! 7 = Some c /\ same_source a c.
Proof.
  destruct (rows created !! 7) as [a|] eqn:A; [|vm_compute in A; discriminate A].
  assert (B : rows (run created [read_it; revoke_it]) !! 7 = Some a).
  { rewrite <- A. vm_compute. reflexivity. }
  destruct (fence_pins_sources created [read_it; revoke_it] [read_it] [revoke_it] 7 a a A
              ltac:(intros X; by apply elem_of_nil in X) eq_refl B eq_refl eq_refl) as (c & Cr & _ & _ & Sa & _).
  exists a, c. split; [reflexivity|]. split; [exact Cr|exact Sa].
Defined.

Lemma source_changes_need_a_proof_witness :
  source_of 7 (perform (minutes 2) create_one (run no_assignments [proof])) <> None /\
  exists t, minutes 2 < t + 5 * HouseholdOwner.MINUTE.
Proof.
  assert (Ch : source_of 7 (perform (minutes 2) create_one (run no_assignments [proof]))
               <> source_of 7 (run no_assignments [proof])) by (vm_compute; discriminate).
  split; [exact Ch|].
  destruct (source_changes_need_a_proof no_assignments [proof] (minutes 2) 7 create_one
              no_assignments_distinct HouseholdOwnerProofs.sample_sound eq_refl Ch)
    as (actor & _ & _ & _ & (h1 & t & hop & h2 & before & _ & _ & _ & _ & _ & _ & T) & _).
  exists t. exact T.
Defined.

End LiveAssignmentsProofs.
