(* ===== verification/LiveRefresh.v ===== *)
(** * Refreshing the catalogue of a household

    domains/live_tv/refresh and domains/live_tv/feed/imports/{receipt,storage,
    publication,operation,status}.rs: the claim of an import, its publication, what is
    recorded of it, and the manager of a process.  Every step is one transaction; the
    rows of the account and of the assignment are locked by it, so that transactions
    on one household do not overlap.  A transaction may end in any of the ways that
    storage.rs tells apart: [Weather]. *)

From stdpp Require Import gmap strings.
From S2P Require Import Prelude Json BTree HouseholdOwner LiveImport LiveGuide LivePlaylist LiveCodec.
From S2P Require Import LiveDestination LiveAssignments.
Import LiveImport LiveCodec LiveDestination LiveAssignments.

Module LiveRefresh.

(** refresh/error.rs, and the other refusals of a request *)
Inductive RefreshError := RInvalid | RForbidden | RNotFound | RUnavailable | RUncertain | RCleanup.
Inductive AppError := Refresh (e : RefreshError) | Other (e : Refusal).
Definition app {A} (r : result A Refusal) : result A AppError :=
  match r with Ok x => Ok x | Err e => Err (Other e) end.

(** ** The tables *)

Record Control := mk_control { c_id : Z; c_revision : Z; c_enabled : bool }.
Inductive ImportPhase := Running | Succeeded | Failed | Uncertain.
#[export] Instance ImportPhase_eq_dec : EqDecision ImportPhase.
Proof. solve_decision. Defined.
Record ImportState := mk_import {
  i_attempt : Z;
  i_sequence : Z;
  i_state : ImportPhase;
  i_category : option string;
  attempted_at : Z;
  finished_at : option Z;
  current_snapshot : option Z;
}.
Record Snapshot := mk_snapshot {
  sn_user : Z;
  sn_assignment : Z;
  sn_generation : Z;
  sn_attempt : Z;
  sn_sequence : Z;
  sn_imported_at : Z;
  sn_candidate : Candidate;
}.

(** Import states are kept per assignment, snapshots by their ids; the rows of a
    catalogue are those of its snapshot. *)
Record Tables := mk_tables {
  world : World;
  control : option Control;
  imports : gmap Z ImportState;
  snapshots : gmap Z Snapshot;
}.
Definition set_world (w : World) (t : Tables) : Tables := mk_tables w (control t) (imports t) (snapshots t).
Definition set_control (c : option Control) (t : Tables) : Tables :=
  mk_tables (world t) c (imports t) (snapshots t).
Definition set_imports (m : gmap Z ImportState) (t : Tables) : Tables :=
  mk_tables (world t) (control t) m (snapshots t).
Definition set_snapshots (m : gmap Z Snapshot) (t : Tables) : Tables :=
  mk_tables (world t) (control t) (imports t) m.

(** Deleting an assignment deletes its state and its snapshots. *)
Definition has_assignment (w : World) (id : Z) : Prop := map_Exists (fun _ a => a_id a = id) (rows w).
#[export] Instance has_assignment_dec w id : Decision (has_assignment w id).
Proof. unfold has_assignment. apply _. Defined.
Definition cascade (t : Tables) : Tables :=
  set_snapshots (filter (fun p => has_assignment (world t) (sn_assignment p.2)) (snapshots t))
    (set_imports (filter (fun p => has_assignment (world t) p.1) (imports t)) t).

(** refresh/types.rs *)
Record ResourceResponse := mk_resource {
  q_assignment : Z;
  q_revision : Z;
  q_generation : Z;
  q_enabled : bool;
  q_playlist_count : Z;
  q_guide_count : Z;
  q_control : Control;
  q_latest : option (Z * Z);
}.
Record StartRequest := mk_start { playlist_pin : Z; guide_pin : Z }.
(** [StartRequest::validate]; the pins are bytes. *)
Definition pins_valid (p : StartRequest) : result unit RefreshError :=
  if (7 <? playlist_pin p) || (7 <? guide_pin p) then Err RInvalid else Ok tt.

(** Outside the repository: [serde_json::to_vec] of these responses; UTF-8, the
    decoder of flate2 and the reader of quick-xml. *)
Class Feeds := {
  resource_json : ResourceResponse -> option string;
  control_json : Control -> option string;
  read_utf8 : string -> option string;
  gz_member : string -> list string * option string;
  xml_reader : string -> list LiveGuide.Read * LiveGuide.Last;
}.

(** ** storage.rs *)

Inductive Acquire := Acquired | TimedOut | Refused.
Inductive CommitEnd := Acknowledged | Lost (applied : bool).
Record Weather := mk_weather {
  acquire : Acquire;
  begun : bool;
  in_time : bool;
  committed : CommitEnd;
  rolled_back : bool;
  closed_well : bool;
}.
Definition fair : Weather := mk_weather Acquired true true Acknowledged true true.

(** [write_until] *)
Definition write {A} (x : Weather) (work : Tables -> result (A * Tables) ImportError) (t : Tables)
  : result A ImportError * Tables :=
  match acquire x with
  | TimedOut => (Err Deadline, t)
  | Refused => (Err Storage, t)
  | Acquired =>
      let '(r, t') :=
        match (if negb (begun x) then Err Storage else if in_time x then work t else Err Deadline) with
        | Ok (v, t') =>
            match committed x with
            | Acknowledged => (Ok v, t')
            | Lost applied => (Err Indeterminate, if applied then t' else t)
            end
        | Err e => (Err (if rolled_back x then e else Cleanup), t)
        end in
      (match r with
       | Err Indeterminate => r
       | _ => if closed_well x then r else Err Cleanup
       end, t')
  end.

(** refresh/database.rs: a refusal of the work is given back once it is rolled back. *)
Definition refuse {A} (r : result (A * Tables) AppError) : result (A * Tables) ImportError :=
  match r with Ok v => Ok v | Err _ => Err Authority end.
Definition app_write {A} (x : Weather) (work : Tables -> result (A * Tables) AppError) (t : Tables)
  : result A AppError * Tables :=
  let '(r, t') := write x (fun t => refuse (work t)) t in
  (match r with
   | Ok v => Ok v
   | Err Authority => match work t with Err e => Err e | Ok _ => Err (Refresh RUnavailable) end
   | Err Indeterminate => Err (Refresh RUncertain)
   | Err Cleanup => Err (Refresh RCleanup)
   | Err _ => Err (Refresh RUnavailable)
   end, t').

Section Outside.
Context {E : Env} {C : Crypto} {J : Payloads} {O : HouseholdOwner.Outside} {R : Responses} {F : Feeds}.

Definition lock_rows (l : list Z) (t : Tables) : Tables :=
  set_world (set_household (HouseholdOwner.lock_accounts l (household (world t))) (world t)) t.
Definition note (actor : HouseholdOwner.Scope) (id u : Z) (event : string) (t : Tables) : Tables :=
  set_world (LiveAssignments.audit actor id u event (world t)) t.

(** ** refresh/authority.rs *)

Definition authorize (now : Z) (actor : HouseholdOwner.Scope) (target : Z) (server fresh : bool) (t : Tables)
  : result Tables AppError :=
  let t := lock_rows [HouseholdOwner.user actor; target] t in
  let d := household (world t) in
  let capability := if server then "can_manage_server"%string else "can_manage_users"%string in
  let? may := app (LiveAssignments.owner (HouseholdOwner.allowed now actor capability d)) in
  if negb may then Err (Refresh RForbidden)
  else
    let? _ := if fresh then app (LiveAssignments.owner (HouseholdOwner.require now actor d)) else Ok tt in
    Ok t.

(** [control] *)
Definition read_control (t : Tables) : result Control AppError := ok_or (control t) (Refresh RUnavailable).

Record Initiator := mk_initiator { actor : HouseholdOwner.Scope; owner_revision : Z; policy_revision : Z }.

(** The policy and the owner's state as they were when the import was claimed *)
Definition same_policy (i : Initiator) (c : Control) : bool :=
  c_enabled c && (c_revision c =? policy_revision i).
Definition same_owner (now : Z) (i : Initiator) (d : HouseholdOwner.Db) : bool :=
  is_some_and (HouseholdOwner.owners d !! HouseholdOwner.user (actor i)) (fun o =>
    HouseholdOwner.enabled o && (HouseholdOwner.revision o =? owner_revision i) && HouseholdOwner.unlocked now o).

(** [Initiator::locked] *)
Definition initiator_locked (now : Z) (i : Initiator) (target : Z) (t : Tables) : result Tables ImportError :=
  match authorize now (actor i) target false false t with
  | Err _ => Err Authority
  | Ok t =>
      match read_control t with
      | Err _ => Err Authority
      | Ok policy =>
          if same_policy i policy && same_owner now i (household (world t)) then Ok t else Err Authority
      end
  end.

(** [Initiator::current] *)
Definition initiator_current (now : Z) (i : Initiator) (t : Tables) : result unit ImportError :=
  let d := household (world t) in
  let a := actor i in
  let u := HouseholdOwner.user a in
  let valid :=
    is_some_and (HouseholdOwner.users d !! u) (fun usr =>
      is_some_and (HouseholdOwner.sessions d !! HouseholdOwner.session a) (fun s =>
        is_some_and (HouseholdOwner.profiles d !! HouseholdOwner.profile a) (fun p =>
          is_some_and (control t) (fun c =>
            HouseholdOwner.active usr && (HouseholdOwner.s_user s =? u)
            && (HouseholdOwner.active_profile s =? HouseholdOwner.profile a)
            && (HouseholdOwner.owner_user_id p =? u)
            && (HouseholdOwner.credential_version s =? HouseholdOwner.version a)
            && (now <? HouseholdOwner.s_expires s) && negb (HouseholdOwner.selection_required s)
            && String.eqb (HouseholdOwner.profile_type p) "standard"
            && same_owner now i d && same_policy i c
            && (String.eqb (HouseholdOwner.role usr) "owner"
                || bool_decide (HouseholdOwner.capabilities d !! (u, "can_manage_users"%string) = Some true)
                || String.eqb (HouseholdOwner.role usr) "admin"
                   && negb (bool_decide (HouseholdOwner.capabilities d !! (u, "can_manage_users"%string) = Some false))))))) in
  if valid then Ok tt else Err Authority.

(** ** receipt.rs *)

(** A [Receipt] with its initiator; the fence is in the receipt of the codec. *)
Record Claim := mk_claim { receipt : Receipt; initiator : option Initiator }.

(** The row of a fence, while its source is what it was *)
Definition fenced (r : Receipt) (w : World) : bool :=
  is_some_and (rows w !! LiveCodec.user r) (fun a =>
    is_some_and (HouseholdOwner.users (household w) !! LiveCodec.user r) (fun usr =>
      (a_id a =? assignment r) && (LiveAssignments.generation a =? LiveCodec.generation r)
      && enabled (policy a) && HouseholdOwner.active usr)).
Definition lock_source (r : Receipt) (t : Tables) : result Tables ImportError :=
  if fenced r (world t) then Ok t else Err Authority.
Definition lock (r : Receipt) (t : Tables) : result Tables ImportError :=
  lock_source r (lock_rows [LiveCodec.user r] t).

(** The attempt is the latest one of its assignment. *)
Definition latest (r : Receipt) (t : Tables) : bool :=
  is_some_and (imports t !! assignment r) (fun i =>
    (i_attempt i =? attempt r) && (i_sequence i =? sequence r)).

(** [Receipt::locked] and [Receipt::current] *)
Definition locked (now : Z) (c : Claim) (t : Tables) : result Tables ImportError :=
  let? t :=
    match initiator c with
    | Some i =>
        let? t := initiator_locked now i (LiveCodec.user (receipt c)) t in lock_source (receipt c) t
    | None => lock (receipt c) t
    end in
  if latest (receipt c) t then Ok t else Err Authority.
Definition is_current (now : Z) (c : Claim) (t : Tables) : result unit ImportError :=
  if negb (fenced (receipt c) (world t) && latest (receipt c) t) then Err Authority
  else match initiator c with Some i => initiator_current now i t | None => Ok tt end.

(** ** publication.rs *)

Definition i32_count {A} (l : list A) : result Z ImportError :=
  let n := Z.of_nat (length l) in if n <=? i32_max then Ok n else Err Limit.
(** The constraints of a snapshot *)
Definition snapshot_valid (s : Snapshot) : bool :=
  let c := sn_candidate s in
  let count {A} (l : list A) max := Z.of_nat (length l) <=? max in
  (0 <? sn_generation s) && (0 <? sn_sequence s) && count (cand_channels c) 10000
  && count (cand_guides c) 10000 && count (cand_programmes c) 250000 && secret_valid (manifest c).

(** [publish] up to its commit; [cancelled] is the token as the checks of each stage find it,
    [execute] says which statements succeed. *)
Definition publish_work (now : Z) (c : Claim) (candidate : Candidate) (cancelled : string -> nat -> bool)
    (execute : string -> list SealedRow -> bool) (t : Tables) : result (Z * Tables) ImportError :=
  let r := receipt c in
  let? t := locked now c t in
  if cancelled "begin"%string 0%nat then Err Cancelled
  else
    let? channels := i32_count (cand_channels candidate) in
    let? guides := i32_count (cand_guides candidate) in
    let? programmes := i32_count (cand_programmes candidate) in
    let s := mk_snapshot (LiveCodec.user r) (assignment r) (LiveCodec.generation r) (attempt r) (sequence r)
               (imported_at r) candidate in
    if is_some_b (snapshots t !! snapshot candidate) || negb (snapshot_valid s) then Err Storage
    else
      let? _ := LiveCodec.insert (cancelled "guide"%string) (execute "guide"%string) (cand_guides candidate) in
      let? _ := LiveCodec.insert (cancelled "channel"%string) (execute "channel"%string) (cand_channels candidate) in
      let? _ := LiveCodec.insert (cancelled "programme"%string) (execute "programme"%string) (cand_programmes candidate) in
      let finish i := mk_import (i_attempt i) (i_sequence i) Succeeded None (attempted_at i) (Some now)
                        (Some (snapshot candidate)) in
      let t := set_imports (alter finish (assignment r) (imports t)) t in
      let t := set_snapshots
        (filter (fun p => sn_assignment p.2 <> assignment r \/ p.1 = snapshot candidate)
           (<[snapshot candidate := s]> (snapshots t))) t in
      if cancelled "end"%string 0%nat then Err Cancelled else Ok (snapshot candidate, t).

(** What follows an uncertain commit *)
Definition reconcile_work (r : Receipt) (t : Tables) : result (bool * Tables) ImportError :=
  let? t := lock r t in
  Ok (is_some_and (snapshots t !! receipt_snapshot r) (fun s =>
        (sn_assignment s =? assignment r) && (sn_attempt s =? attempt r) && (sn_sequence s =? sequence r)), t).
Definition reconciled (r : Receipt) (found : result bool ImportError) : result Z ImportError :=
  match found with
  | Ok true => Ok (receipt_snapshot r)
  | Err Authority => Err Authority
  | _ => Err Indeterminate
  end.

(** [failed]; a success is never overwritten. *)
Definition failed_work (now : Z) (r : Receipt) (e : ImportError) (t : Tables)
  : result (unit * Tables) ImportError :=
  let t := lock_rows [LiveCodec.user r] t in
  let record i :=
    if (i_attempt i =? attempt r) && (i_sequence i =? sequence r) && negb (bool_decide (i_state i = Succeeded))
    then mk_import (i_attempt i) (i_sequence i)
           (if String.eqb (category e) "indeterminate" then Uncertain else Failed)
           (Some (category e)) (attempted_at i) (Some now) (current_snapshot i)
    else i in
  Ok (tt, set_imports (alter record (assignment r) (imports t)) t).

(** ** operation.rs *)

(** The work of [parse] on what was fetched *)
Definition parse_feeds (playlist guide : string) (r : Receipt) (w : Work) : result Candidate ImportError :=
  let? (channels, w) := LivePlaylist.parse read_utf8 playlist (assignment r) w in
  let? (xml, w) := LivePlaylist.decode gz_member read_utf8 guide w in
  let? (guides, w) := LiveGuide.parse xml_reader xml channels w in
  let? (candidate, _) := encode channels guides r w in
  Ok candidate.

(** What the fetches and the monitor leave of an import: the feeds that were read and
    the work of the parser, or the error that stopped it; and how the monitor ended. *)
Inductive Fetched := Read_ (playlist guide : string) (w : Work) | Stopped (e : ImportError).
Definition prepare (r : Receipt) (f : Fetched) (monitor : result unit ImportError)
  : result Candidate ImportError :=
  let result_ := match f with Read_ playlist guide w => parse_feeds playlist guide r w | Stopped e => Err e end in
  match result_, monitor with
  | _, Err Cleanup => Err Cleanup
  | Err e, _ => Err e
  | Ok _, Err e => Err e
  | Ok c, Ok tt => Ok c
  end.

(** The end of [execute] after [failed] *)
Definition settled (e : ImportError) (noted : result unit ImportError) : ImportError :=
  match noted with
  | Err _ => if bool_decide (e = Indeterminate) then e else Cleanup
  | Ok _ => e
  end.

(** ** refresh/representation.rs *)

Definition json_etag (json : option string) : result string AppError :=
  let? bytes := ok_or json (Refresh RUnavailable) in
  Ok (String dquote (HouseholdOwner.hex (sha256 bytes) +:+ String dquote EmptyString)).
Definition resource (u : Z) (t : Tables) : result ResourceResponse AppError :=
  let? control := read_control t in
  let? a := ok_or (rows (world t) !! u) (Refresh RNotFound) in
  Ok (mk_resource (a_id a) (revision a) (LiveAssignments.generation a) (enabled (policy a))
        (address_count (playlist a)) (address_count (guide a)) control
        (let! i := imports t !! a_id a in Some (i_attempt i, i_sequence i))).

(** ** refresh/admission.rs *)

Record Admitted_ := mk_admitted { claim : Claim; from_playlist : Source; from_guide : Source }.
Record Request := mk_request {
  by_actor : HouseholdOwner.Scope;
  target : Z;
  condition_ : Condition;
  pins : StartRequest;
}.

Definition feed_row (field : FeedField) (a : Assignment) : FeedRow :=
  let f := feed_of field a in
  mk_feed_row (a_id a) (LiveAssignments.generation a) (secret f) (destination f) (address_count f).
(** [load] *)
Definition load_source (u : Z) (field : FeedField) (index : Z) (t : Tables) : result Source AppError :=
  let? a := ok_or (rows (world t) !! u) (Refresh RUnavailable) in
  ok_or (decode (feed_row field a) u field (Z.to_nat index)) (Refresh RUnavailable).

(** [INSERT ... ON CONFLICT DO UPDATE] *)
Definition next_attempt (now id : Z) (old : option ImportState) : option ImportState :=
  match old with
  | None => Some (mk_import id 1 Running None now None None)
  | Some i =>
      if i64_max <=? i_sequence i then None
      else Some (mk_import id (i_sequence i + 1) Running None now None (current_snapshot i))
  end.
Definition fence_of (r : Receipt) : Fence := mk_fence (LiveCodec.user r) (assignment r) (LiveCodec.generation r).

(** [claim] up to its commit; [stopped] are the tokens at its two checks. *)
Definition claim_work (now : Z) (req : Request) (id new imported : Z) (stopped : bool * bool) (t : Tables)
  : result (Admitted_ * Tables) AppError :=
  let u := target req in
  let? t := authorize now (by_actor req) u false true t in
  let? q := resource u t in
  let? tag := json_etag (resource_json q) in
  let? _ := app (assign (check (condition_ req) (Some tag))) in
  if negb (c_enabled (q_control q)) || negb (q_enabled q) || stopped.1 then Err (Refresh RUnavailable)
  else if (q_playlist_count q <=? playlist_pin (pins req)) || (q_guide_count q <=? guide_pin (pins req))
  then Err (Refresh RInvalid)
  else
    let? playlist := load_source u Playlist (playlist_pin (pins req)) t in
    let? guide := load_source u Guide (guide_pin (pins req)) t in
    let f := s_fence playlist in
    let? t := match lock_source (mk_receipt (f_user f) (f_assignment f) (f_generation f) id 0 new imported) t with
              | Ok t => Ok t | Err _ => Err (Refresh RUnavailable) end in
    let? o := ok_or (HouseholdOwner.owners (household (world t)) !! HouseholdOwner.user (by_actor req))
                (Refresh RUnavailable) in
    let? i := ok_or (next_attempt now id (imports t !! q_assignment q)) (Refresh RUnavailable) in
    let t := set_imports (<[q_assignment q := i]> (imports t)) t in
    let r := mk_receipt u (q_assignment q) (q_generation q) id (i_sequence i) new imported in
    if negb (bool_decide (s_fence playlist = fence_of r)) || negb (bool_decide (s_fence guide = fence_of r))
    then Err (Refresh RUnavailable)
    else if stopped.2 then Err (Refresh RUnavailable)
    else
      let who := mk_initiator (by_actor req) (HouseholdOwner.revision o) (c_revision (q_control q)) in
      Ok (mk_admitted (mk_claim r (Some who)) playlist guide,
          note (by_actor req) (q_assignment q) u "accepted" t).

(** What follows an uncertain claim: whether the attempt is the latest *)
Definition verify_work (r : Receipt) (t : Tables) : result (bool * Tables) ImportError :=
  let? t := lock r t in Ok (latest r t, t).
Definition verified (a : Admitted_) (found : result bool ImportError) : result Admitted_ AppError :=
  match found with
  | Ok true => Ok a
  | Ok false | Err Authority => Err (Refresh RUncertain)
  | Err _ => Err (Refresh RCleanup)
  end.

(** ** refresh/service.rs *)

Definition configure_work (now : Z) (who : HouseholdOwner.Scope) (c : Condition) (on : bool) (t : Tables)
  : result (Control * Tables) AppError :=
  let u := HouseholdOwner.user who in
  let? t := authorize now who u true true t in
  let? current := read_control t in
  let? tag := json_etag (control_json current) in
  let? _ := app (assign (check c (Some tag))) in
  if Bool.eqb (c_enabled current) on then Ok (current, t)
  else if i64_max <=? c_revision current then Err (Refresh RUnavailable)
  else
    let new := mk_control (c_id current) (c_revision current + 1) on in
    Ok (new, note who (c_id new) u "configured" (set_control (Some new) t)).
Definition configure (now : Z) (x : Weather) (who : HouseholdOwner.Scope) (c : Condition) (on : bool)
  : Tables -> result Control AppError * Tables := app_write x (configure_work now who c on).

Definition control_of (now : Z) (x : Weather) (who : HouseholdOwner.Scope)
  : Tables -> result Control AppError * Tables :=
  app_write x (fun t =>
    let? t := authorize now who (HouseholdOwner.user who) true false t in
    let? c := read_control t in Ok (c, t)).
Definition resource_of (now : Z) (x : Weather) (who : HouseholdOwner.Scope) (u : Z)
  : Tables -> result ResourceResponse AppError * Tables :=
  app_write x (fun t =>
    let? t := authorize now who u false false t in
    let? q := resource u t in Ok (q, t)).

(** ** refresh/manager.rs

    The manager of a process, and what the task of its import does next.  The token
    of the import is cancelled on its own, or with the whole manager. *)
Inductive Phase :=
| Claiming (req : Request)
| Verifying (a : Admitted_)
| Preparing (a : Admitted_)
| Publishing (a : Admitted_) (c : Candidate)
| Reconciling (a : Admitted_) (c : Candidate)
| Failing (a : Admitted_) (e : ImportError).
Record Manager := mk_manager {
  closed : bool;
  quarantined : bool;
  owned_attempt : option Z;
  active : option bool;
  free : bool;
  task : option Phase;
}.
Definition attach : Manager := mk_manager false false None None true None.

(** [start] *)
Definition start (req : Request) (m : Manager) : result unit RefreshError * Manager :=
  if closed m || quarantined m || negb (free m) then (Err RUnavailable, m)
  else (Ok tt, mk_manager (closed m) (quarantined m) (owned_attempt m) (Some false) false (Some (Claiming req))).

(** [Lease::finish], and the lease of a task that is lost *)
Definition finish (cleanup_failed : bool) (m : Manager) : Manager :=
  mk_manager (closed m) (quarantined m || cleanup_failed) None None (negb cleanup_failed) None.
Definition lost (m : Manager) : Manager :=
  mk_manager (closed m) true (owned_attempt m) (option_map (fun _ => true) (active m)) false None.

Definition owns (attempt : Z) (m : Manager) : bool := bool_decide (owned_attempt m = Some attempt).
Definition available (m : Manager) : bool := negb (closed m) && negb (quarantined m).
Definition idle (m : Manager) : bool := negb (is_some_b (task m)) && free m.
Definition cancel_active (m : Manager) : Manager :=
  mk_manager (closed m) (quarantined m) (owned_attempt m) (option_map (fun _ => true) (active m)) (free m) (task m).
Definition close (m : Manager) : Manager :=
  mk_manager true (quarantined m) (owned_attempt m) (option_map (fun _ => true) (active m)) (free m) (task m).
(** [drain], once no task is left *)
Definition drain (m : Manager) : option (result unit ImportError) :=
  if is_some_b (task m) then None
  else Some (if idle m && negb (quarantined m) && negb (is_some_b (active m)) && negb (is_some_b (owned_attempt m))
             then Ok tt else Err Cleanup).

Definition proceed (p : Phase) (m : Manager) : Manager :=
  mk_manager (closed m) (quarantined m) (owned_attempt m) (active m) (free m) (Some p).
Definition admitted (a : Admitted_) (m : Manager) : Manager :=
  mk_manager (closed m) (quarantined m) (Some (attempt (receipt (claim a)))) (active m) (free m) (Some (Preparing a)).
(** The end of a claim that was refused *)
Definition refused (e : AppError) (m : Manager) : Manager :=
  finish (match e with Refresh RCleanup => true | _ => false end) m.
Definition ended (r : result Z ImportError) (m : Manager) : Manager :=
  finish (match r with Err Cleanup => true | _ => false end) m.

(** What happens outside to the next step of a task *)
Record Turn := mk_turn {
  now : Z;
  weather : Weather;
  ids : Z * Z;
  imported : Z;
  stopped : bool * bool;
  fetched : Fetched;
  monitor : result unit ImportError;
  cancelled : string -> nat -> bool;
  execute : string -> list SealedRow -> bool;
}.

(** The next step of the task of a manager: what it has to report, if it ends. *)
Inductive Report := Rejected (e : AppError) | Finished (a : Admitted_) (r : result Z ImportError).
Definition advance (x : Turn) (m : Manager) (t : Tables) : Manager * Tables * option Report :=
  match task m with
  | None => (m, t, None)
  | Some (Claiming req) =>
      let work := claim_work (now x) req (ids x).1 (ids x).2 (imported x) (stopped x) in
      match app_write (weather x) work t, work t with
      | (Ok a, t'), _ => (admitted a m, t', None)
      | (Err (Refresh RUncertain), t'), Ok (a, _) => (proceed (Verifying a) m, t', None)
      | (Err e, t'), _ => (refused e m, t', Some (Rejected e))
      end
  | Some (Verifying a) =>
      let '(r, t') := write (weather x) (verify_work (receipt (claim a))) t in
      match verified a r with
      | Ok a => (admitted a m, t', None)
      | Err e => (refused e m, t', Some (Rejected e))
      end
  | Some (Preparing a) =>
      match prepare (receipt (claim a)) (fetched x) (monitor x) with
      | Ok c => (proceed (Publishing a c) m, t, None)
      | Err e => (proceed (Failing a e) m, t, None)
      end
  | Some (Publishing a c) =>
      let '(r, t') := write (weather x) (publish_work (now x) (claim a) c (cancelled x) (execute x)) t in
      match r with
      | Ok i => (ended (Ok i) m, t', Some (Finished a (Ok i)))
      | Err Indeterminate => (proceed (Reconciling a c) m, t', None)
      | Err e => (proceed (Failing a e) m, t', None)
      end
  | Some (Reconciling a c) =>
      let '(r, t') := write (weather x) (reconcile_work (receipt (claim a))) t in
      match reconciled (receipt (claim a)) r with
      | Ok i => (ended (Ok i) m, t', Some (Finished a (Ok i)))
      | Err e => (proceed (Failing a e) m, t', None)
      end
  | Some (Failing a e) =>
      let '(r, t') := write (weather x) (failed_work (now x) (receipt (claim a)) e) t in
      let e := settled e r in
      (ended (Err e) m, t', Some (Finished a (Err e)))
  end.

(** ** status.rs *)

Record ImportStatus := mk_status {
  t_assignment : Z;
  t_import : ImportState;
  t_snapshot : option (Z * Snapshot);
  current_source : bool;
}.
(** [load]; [parse_json] is serde_json. *)
Definition load_status (parse_json : string -> option Json.Value) (u : Z) (t : Tables)
  : result (option ImportStatus) ImportError :=
  match rows (world t) !! u with
  | None => Ok None
  | Some a =>
      match imports t !! a_id a, HouseholdOwner.users (household (world t)) !! u with
      | Some i, Some usr =>
          let available := enabled (policy a) && is_some_b (destination (playlist a))
                           && is_some_b (destination (guide a)) && HouseholdOwner.active usr in
          let found := let! n := current_snapshot i in let! s := snapshots t !! n in Some (n, s) in
          match found with
          | None => Ok (Some (mk_status (a_id a) i None false))
          | Some (n, s) =>
              let c := sn_candidate s in
              let r := mk_receipt u (a_id a) (sn_generation s) (sn_attempt s) (sn_sequence s) n (sn_imported_at s) in
              let count {A} (l : list A) := Z.of_nat (length l) in
              let? plain := open r "snapshot" (empty n) "manifest" (manifest c) in
              let? value := ok_or (parse_json plain) Storage in
              if negb (LiveGuide.value_eqb value
                         (manifest_of r (count (cand_channels c)) (count (cand_guides c)) (count (cand_programmes c))))
              then Err Storage
              else Ok (Some (mk_status (a_id a) i (Some (n, s))
                               (available && (sn_generation s =? LiveAssignments.generation a))))
          end
      | _, _ => Ok None
      end
  end.

(** [status] of the service: how the observation relates to what was asked for *)
Inductive Observation := NotCurrent | UnfinishedUncertain | Current | NeverImported.
Definition observe (status : option ImportStatus) (asked : option Z) (m : option Manager) : Observation :=
  match status with
  | None => NeverImported
  | Some s =>
      let i := t_import s in
      let local := is_some_and m (owns (i_attempt i)) in
      if is_some_and asked (fun id => negb (id =? i_attempt i)) then NotCurrent
      else if bool_decide (i_state i = Running) && negb local then UnfinishedUncertain
      else Current
  end.

End Outside.

End LiveRefresh.
