(* ===== verification/LiveRefreshProofs.v ===== *)
(** * Theorems on refreshing catalogues

    Several processes import the catalogues of households while administrators change
    assignments: what is published is the newest attempt's, of feeds that are approved
    at that moment, and what is reported is what happened. *)

From stdpp Require Import gmap strings.
From S2P Require Import Prelude Json HouseholdOwner HouseholdOwnerProofs LiveImport LiveCodec LiveCodecProofs.
From S2P Require Import LiveGuide LiveGuideProofs LivePlaylist LiveDestination LiveDestinationProofs LiveAssignments LiveAssignmentsProofs.
From S2P Require Import LiveRefresh.
Import LiveImport LiveCodec LiveDestination LiveAssignments LiveAssignmentsProofs LiveRefresh.

Module LiveRefreshProofs.

Section Outside.
Context {E : Env} {C : Crypto} {J : Payloads} {O : HouseholdOwner.Outside} {R : Responses} {F : Feeds}.

(** ** What the transactions do *)

Record same_tables (t t' : Tables) : Prop := {
  st_rows : rows (world t') = rows (world t);
  st_control : control t' = control t;
  st_imports : imports t' = imports t;
  st_snapshots : snapshots t' = snapshots t;
}.
#[local] Instance same_tables_po : PreOrder same_tables.
Proof. split; [done|]. intros a b c [] []. split; congruence. Qed.

Lemma lock_rows_same (l : list Z) (t : Tables) : same_tables t (lock_rows l t).
Proof. done. Qed.

Lemma authorize_ok (now : Z) (who : HouseholdOwner.Scope) (u : Z) (server fresh : bool) (t t' : Tables) :
  authorize now who u server fresh t = Ok t' ->
  t' = lock_rows [HouseholdOwner.user who; u] t /\
  HouseholdOwner.allowed now who (if server then "can_manage_server"%string else "can_manage_users"%string)
    (household (world t')) = Ok true.
Proof.
  unfold authorize. set (t1 := lock_rows _ t). destruct (HouseholdOwner.allowed _ _ _ _) as [may|] eqn:A; [|done].
  cbn [LiveAssignments.owner app]. destruct may; [|done]. cbn [negb].
  destruct fresh; [|by intros <-%ok_inj]. destruct (HouseholdOwner.require _ _ _); [|done]. by intros <-%ok_inj.
Qed.

Lemma initiator_locked_ok (now : Z) (i : Initiator) (u : Z) (t t' : Tables) :
  initiator_locked now i u t = Ok t' ->
  same_tables t t' /\ HouseholdOwner.allowed now (actor i) "can_manage_users" (household (world t')) = Ok true /\
  (exists c, control t = Some c /\ same_policy i c = true) /\ same_owner now i (household (world t')) = true /\
  t' = lock_rows [HouseholdOwner.user (actor i); u] t.
Proof.
  unfold initiator_locked. destruct (authorize _ _ _ _ _ _) as [t1|] eqn:A; [|done].
  apply authorize_ok in A as [-> A]. unfold read_control. cbn [control lock_rows set_world].
  destruct (control t) as [c|] eqn:Co; [|done]. cbn [ok_or]. destruct (_ && _) eqn:B; [|done].
  apply andb_true_iff in B as [B1 B2]. intros <-%ok_inj. repeat (split; [done || by exists c|]). done.
Qed.

(** An attempt may publish: its source is current, it is the latest, and whoever
    started it still may. *)
Record authority (now : Z) (c : Claim) (t : Tables) : Prop := {
  au_fenced : fenced (receipt c) (world t) = true;
  au_latest : latest (receipt c) t = true;
  au_policy i : initiator c = Some i -> exists p, control t = Some p /\ same_policy i p = true;
  au_owner i : initiator c = Some i -> same_owner now i (household (world t)) = true /\
               HouseholdOwner.allowed now (actor i) "can_manage_users" (household (world t)) = Ok true;
}.

Lemma locked_ok (now : Z) (c : Claim) (t t' : Tables) :
  locked now c t = Ok t' -> same_tables t t' /\ authority now c t'.
Proof.
  unfold locked. destruct (initiator c) as [i|] eqn:I.
  - destruct (initiator_locked _ _ _ _) as [t1|] eqn:L; [|done].
    apply initiator_locked_ok in L as (S & Al & Co & So & ->). unfold lock_source.
    destruct (fenced _ _) eqn:Fe; [|done]. destruct (latest _ _) eqn:La; [|done]. intros <-%ok_inj.
    split; [done|]. split; [done|done| |]; intros j; rewrite I; intros [= <-]; [|done]. exact Co.
  - unfold lock, lock_source. destruct (fenced _ _) eqn:Fe; [|done]. destruct (latest _ _) eqn:La; [|done].
    intros <-%ok_inj. split; [done|]. split; [done|done| |]; intros j; by rewrite I.
Qed.

Lemma lock_ok (r : Receipt) (t t' : Tables) : lock r t = Ok t' -> same_tables t t'.
Proof. unfold lock, lock_source. destruct (fenced _ _); [|done]. by intros <-%ok_inj. Qed.

(** What publishing leaves *)
Definition stored (c : Claim) (k : Candidate) : Snapshot :=
  let r := receipt c in
  mk_snapshot (LiveCodec.user r) (assignment r) (LiveCodec.generation r) (attempt r) (sequence r) (imported_at r) k.
Record publication (now : Z) (c : Claim) (k : Candidate) (t t' : Tables) : Prop := {
  pu_rows : rows (world t') = rows (world t);
  pu_control : control t' = control t;
  pu_new : snapshots t !! snapshot k = None;
  pu_imports : exists i, imports t !! assignment (receipt c) = Some i /\
    i_attempt i = attempt (receipt c) /\ i_sequence i = sequence (receipt c) /\
    imports t' = <[assignment (receipt c) := mk_import (i_attempt i) (i_sequence i) Succeeded None
                     (attempted_at i) (Some now) (Some (snapshot k))]> (imports t);
  pu_snapshots : snapshots t' =
    filter (fun p => sn_assignment p.2 <> assignment (receipt c) \/ p.1 = snapshot k)
      (<[snapshot k := stored c k]> (snapshots t));
  pu_authority : authority now c t';
}.

Lemma latest_ok (r : Receipt) (t : Tables) :
  latest r t = true ->
  exists i, imports t !! assignment r = Some i /\ i_attempt i = attempt r /\ i_sequence i = sequence r.
Proof.
  unfold latest. destruct (imports t !! assignment r) as [i|]; [|done]. cbn [is_some_and]. intros H. dk_bool. by exists i.
Qed.

Lemma publish_ok (now : Z) (c : Claim) (k : Candidate) (cancelled : string -> nat -> bool)
    (execute : string -> list SealedRow -> bool) (t t' : Tables) (i : Z) :
  publish_work now c k cancelled execute t = Ok (i, t') -> i = snapshot k /\ publication now c k t t'.
Proof.
  unfold publish_work. destruct (locked now c t) as [t1|] eqn:L; [|done]. apply locked_ok in L as [[Rw Co Im Sn] Au].
  destruct (cancelled "begin"%string 0%nat); [done|]. destruct (i32_count (cand_channels k)); [|done].
  destruct (i32_count (cand_guides k)); [|done]. destruct (i32_count (cand_programmes k)); [|done].
  rewrite Sn. destruct (snapshots t !! snapshot k) eqn:N; [done|]. cbn [is_some_b orb].
  destruct (negb _); [done|]. destruct (LiveCodec.insert _ _ _); [|done]. destruct (LiveCodec.insert _ _ _); [|done].
  destruct (LiveCodec.insert _ _ _); [|done]. destruct (cancelled "end"%string 0%nat); [done|].
  intros [= <- <-]. split; [done|]. destruct (latest_ok _ _ (au_latest _ _ _ Au)) as (j & J1 & J2 & J3).
  split; try done.
  - exists j. rewrite Im in J1. split; [done|]. split; [done|]. split; [done|]. cbn [imports set_snapshots set_imports].
    rewrite Im. apply map_eq. intros x. destruct (decide (x = assignment (receipt c))) as [->|Ne].
    + by rewrite lookup_alter_eq, lookup_insert_eq, J1.
    + by rewrite lookup_alter_ne, lookup_insert_ne.
  - cbn [snapshots set_snapshots set_imports]. by rewrite Sn.
  - destruct Au as [A1 A2 A3 A4]. split; try done. unfold latest. cbn [imports set_snapshots set_imports].
    rewrite lookup_alter_eq, J1. cbn. rewrite J2, J3, !Z.eqb_refl. done.
Qed.

(** ** The outcome of a transaction *)

Definition uncertain (e : ImportError) : bool :=
  match e with Indeterminate | Cleanup => true | _ => false end.
Definition definite (e : ImportError) : bool :=
  match e with Authority => false | e => negb (uncertain e) end.

(** What was written is what the work wrote, unless the error says that it is not known. *)
Lemma write_effect {A} (x : Weather) (work : Tables -> result (A * Tables) ImportError) (t t' : Tables)
    (r : result A ImportError) :
  write x work t = (r, t') ->
  (exists v, work t = Ok (v, t') /\ (r = Ok v \/ exists e, r = Err e /\ uncertain e = true)) \/
  (t' = t /\ exists e, r = Err e).
Proof.
  unfold write. destruct (acquire x); [|intros [= <- <-]; right; by eauto..].
  destruct (if negb (begun x) then _ else _) as [[v u]|e] eqn:W.
  - assert (Wk : work t = Ok (v, u)) by (destruct (negb _), (in_time x); done).
    destruct (committed x) as [|[]].
    + destruct (closed_well x); intros [= <- <-]; left; exists v; by eauto 6.
    + intros [= <- <-]. left. exists v. by eauto 6.
    + intros [= <- <-]. right. by eauto.
  - destruct (rolled_back x), e, (closed_well x); intros [= <- <-]; right; by eauto.
Qed.
Lemma write_definite {A} (x : Weather) (work : Tables -> result (A * Tables) ImportError) (t t' : Tables) (e : ImportError) :
  write x work t = (Err e, t') -> uncertain e = false -> t' = t.
Proof. intros W D. apply write_effect in W as [(v & _ & [?|(e' & [= <-] & U)])|[]]; congruence. Qed.
Lemma write_done {A} (x : Weather) (work : Tables -> result (A * Tables) ImportError) (t t' : Tables) (v : A) :
  write x work t = (Ok v, t') -> work t = Ok (v, t').
Proof. intros W. apply write_effect in W as [(v' & Wk & [[= ->]|(e & ? & _)])|(_ & e & ?)]; by try congruence. Qed.

Lemma app_write_effect {A} (x : Weather) (work : Tables -> result (A * Tables) AppError) (t t' : Tables)
    (r : result A AppError) :
  app_write x work t = (r, t') ->
  (exists v, work t = Ok (v, t') /\ (r = Ok v \/ exists e, r = Err e)) \/ (t' = t /\ exists e, r = Err e).
Proof.
  unfold app_write. destruct (write _ _ t) as [r' u] eqn:W. apply write_effect in W. intros [= <- <-].
  destruct W as [(v & Wk & H)|(-> & e & ->)].
  - left. exists v. unfold refuse in Wk. destruct (work t) as [v'|] eqn:E'; [|done]. injection Wk as ->. split; [done|].
    destruct H as [->|(e & -> & _)]; [by left|right; destruct e; by eauto].
  - right. split; [done|]. destruct e; try by eauto. destruct (work t); by eauto.
Qed.

(** ** What is known of a task *)

Definition holder (p : Phase) : option Admitted_ :=
  match p with
  | Claiming _ => None
  | Verifying a | Preparing a | Publishing a _ | Reconciling a _ | Failing a _ => Some a
  end.
Definition receipt_of (a : Admitted_) : Receipt := receipt (claim a).

(** The feeds that were claimed are those of the row, as long as it has the fence. *)
Definition reads (a : Admitted_) (b : Assignment) : Prop :=
  let u := LiveCodec.user (receipt_of a) in
  (exists i, decode (feed_row Playlist b) u Playlist i = Some (from_playlist a)) /\
  (exists i, decode (feed_row Guide b) u Guide i = Some (from_guide a)).
Definition coherent (a : Admitted_) (t : Tables) : Prop :=
  let r := receipt_of a in
  forall b, rows (world t) !! LiveCodec.user r = Some b -> a_id b = assignment r ->
    LiveCodec.generation r <= LiveAssignments.generation b /\
    (LiveAssignments.generation b = LiveCodec.generation r -> reads a b).

(** The state of the import that has the attempt, if there is one *)
Definition registered (r : Receipt) (t : Tables) : Prop :=
  forall A i, imports t !! A = Some i -> i_attempt i = attempt r -> A = assignment r /\ i_sequence i = sequence r.
Definition unpublished (r : Receipt) (t : Tables) : Prop :=
  (forall n s, snapshots t !! n = Some s -> sn_attempt s <> attempt r) /\
  (forall A i, imports t !! A = Some i -> i_attempt i = attempt r -> i_state i <> Succeeded).
Definition pending (p : Phase) : Prop :=
  match p with
  | Claiming _ | Reconciling _ _ => False
  | Failing _ e => definite e = true
  | _ => True
  end.
Definition parsed (p : Phase) : Prop :=
  match p with
  | Publishing a k => exists playlist guide w, parse_feeds playlist guide (receipt_of a) w = Ok k
  | _ => True
  end.
Record task_ok (t : Tables) (p : Phase) : Prop := {
  to_coherent a : holder p = Some a -> coherent a t;
  to_registered a : holder p = Some a -> registered (receipt_of a) t;
  to_pending a : holder p = Some a -> pending p -> unpublished (receipt_of a) t;
  to_parsed : parsed p;
}.

(** A snapshot is the current one of its assignment, not behind its import, and not
    ahead of its row. *)
Record catalogued (t : Tables) : Prop := {
  ca_distinct : distinct (world t);
  ca_current n s : snapshots t !! n = Some s ->
    exists i, imports t !! sn_assignment s = Some i /\ current_snapshot i = Some n /\
              sn_sequence s <= i_sequence i /\ (sn_sequence s = i_sequence i -> sn_attempt s = i_attempt i);
  ca_row n s v b : snapshots t !! n = Some s -> rows (world t) !! v = Some b -> a_id b = sn_assignment s ->
    sn_generation s <= LiveAssignments.generation b;
}.

(** What a step does to the rows, with the ids it draws, and to the imports, for the
    attempt [att]; [claimed] if it begins it. *)
Record moves (claimed : Prop) (att : Z) (ids : list Z) (t t' : Tables) : Prop := {
  mv_rows : evolves ids (world t) (world t');
  mv_snapshots n s : snapshots t' !! n = Some s -> snapshots t !! n = Some s \/ sn_attempt s = att;
  mv_imports A i : imports t' !! A = Some i ->
    (exists i', imports t !! A = Some i' /\ i_attempt i' = i_attempt i /\ i_sequence i' = i_sequence i /\
                (i_state i = Succeeded -> i_state i' = Succeeded \/ i_attempt i = att)) \/
    (claimed /\ i_attempt i = att);
}.

Lemma moves_same (claimed : Prop) (att : Z) (ids : list Z) (t t' : Tables) :
  same_tables t t' -> moves claimed att ids t t'.
Proof.
  intros [Rw _ Im Sn]. split; [by apply evolves_same| |].
  - intros n s. rewrite Sn. by left.
  - intros A i. rewrite Im. intros H. left. exists i. by auto.
Qed.

Lemma coherent_moves (a : Admitted_) (ids : list Z) (t t' : Tables) :
  evolves ids (world t) (world t') -> assignment (receipt_of a) ∉ ids -> coherent a t -> coherent a t'.
Proof.
  intros Ev N Co b B I. destruct (Ev _ _ B) as [X|(c & Hc & [Ic Lc])]; [by rewrite I in X|].
  destruct (Co c Hc ltac:(congruence)) as [Le Rd]. destruct Lc as [Lc|(Gc & Pl & Gu & _)].
  - split; [lia|]. intros Gb. lia.
  - split; [lia|]. intros Gb. assert (Fr : forall f, feed_row f b = feed_row f c).
    { intros f. unfold feed_row. rewrite Ic, Gc. destruct f; cbn [feed_of]; by rewrite ?Pl, ?Gu. }
    unfold reads. rewrite !Fr. apply Rd. congruence.
Qed.

(** Other tasks stay as they are. *)
Lemma task_ok_moves (claimed : Prop) (att : Z) (ids : list Z) (t t' : Tables) (p : Phase) :
  moves claimed att ids t t' ->
  (forall a, holder p = Some a -> attempt (receipt_of a) <> att /\ assignment (receipt_of a) ∉ ids) ->
  task_ok t p -> task_ok t' p.
Proof.
  intros [Ev Sn Im] Ot [Co Re Un Pa]. split; [| | |done]; intros a Ha; destruct (Ot a Ha) as [Ne Ni].
  - by eapply coherent_moves; [| |apply Co].
  - intros A i Ai At. destruct (Im A i Ai) as [(i' & Hi & A1 & S1 & _)|[_ ?]]; [|congruence].
    destruct (Re a Ha A i' Hi ltac:(congruence)). split; congruence.
  - intros Pe. destruct (Un a Ha Pe) as [U1 U2]. split.
    + intros n s Hs. destruct (Sn n s Hs) as [|Eq]; [by eapply U1|]. congruence.
    + intros A i Ai At Su. destruct (Im A i Ai) as [(i' & Hi & A1 & S1 & S2)|[_ ?]]; [|congruence].
      destruct (S2 Su); [|congruence]. by eapply (U2 A i'); [|congruence|].
Qed.
(** So does what its own step leaves to a task. *)
Lemma registered_moves (att : Z) (ids : list Z) (t t' : Tables) (r : Receipt) :
  moves False att ids t t' -> registered r t -> registered r t'.
Proof.
  intros [_ _ Im] Re A i Ai At. destruct (Im A i Ai) as [(i' & Hi & A1 & S1 & _)|[[] _]].
  destruct (Re A i' Hi ltac:(congruence)). split; congruence.
Qed.

(** ** The transactions of an import *)

Lemma resource_ok (u : Z) (t : Tables) (q : ResourceResponse) :
  resource u t = Ok q ->
  exists a, rows (world t) !! u = Some a /\ q_assignment q = a_id a /\ control t = Some (q_control q).
Proof.
  unfold resource, read_control. destruct (control t) as [c|]; [|done]. cbn [ok_or].
  destruct (rows (world t) !! u) as [a|]; [|done]. cbn [ok_or]. intros <-%ok_inj. by exists a.
Qed.

Lemma load_source_ok (u : Z) (field : FeedField) (index : Z) (t : Tables) (src : Source) (a : Assignment) :
  rows (world t) !! u = Some a -> load_source u field index t = Ok src ->
  decode (feed_row field a) u field (Z.to_nat index) = Some src.
Proof. unfold load_source. intros ->. cbn [ok_or]. by destruct (decode _ _ _ _); [intros <-%ok_inj|]. Qed.

Lemma decode_fence (row : FeedRow) (u : Z) (feed : FeedField) (index : nat) (src : Source) :
  decode row u feed index = Some src -> s_fence src = mk_fence u (fr_id row) (fr_generation row).
Proof.
  unfold decode. destruct (secret_open _ _ _ _) as [raw|]; [|done]. destruct (source raw) as [url|]; [|done].
  destruct (fr_destination row); [|done]. cbn. destruct (approval_open _ _ _ _ _); [|done]. destruct (negb _); [done|].
  destruct (_ !! _); [|done]. cbn. destruct (port url); [|done]. by intros [= <-].
Qed.

(** What a claim leaves *)
Record claimed_by (now id : Z) (a : Admitted_) (t t' : Tables) : Prop := {
  cl_rows : rows (world t') = rows (world t);
  cl_snapshots : snapshots t' = snapshots t;
  cl_attempt : attempt (receipt_of a) = id;
  cl_imports : exists i, next_attempt now id (imports t !! assignment (receipt_of a)) = Some i /\
    sequence (receipt_of a) = i_sequence i /\ imports t' = <[assignment (receipt_of a) := i]> (imports t);
  cl_coherent : coherent a t;
}.

Lemma claim_ok (now : Z) (req : Request) (id new imported : Z) (stopped : bool * bool) (t t' : Tables) (a : Admitted_) :
  claim_work now req id new imported stopped t = Ok (a, t') -> claimed_by now id a t t'.
Proof.
  unfold claim_work. set (u := target req). destruct (authorize _ _ _ _ _ _) as [t1|] eqn:A; [|done].
  apply authorize_ok in A as [-> _]. set (t1 := lock_rows _ t).
  destruct (resource u t1) as [q|] eqn:Q; [|done]. apply resource_ok in Q as (row & Row & Qa & _).
  destruct (json_etag _); [|done]. destruct (app _); [|done]. destruct (_ || _ || _); [done|]. destruct (_ || _); [done|].
  destruct (load_source u Playlist _ t1) as [pl|] eqn:Pl; [|done].
  destruct (load_source u Guide _ t1) as [gu|] eqn:Gu; [|done].
  apply (load_source_ok _ _ _ _ _ row Row) in Pl, Gu. unfold lock_source at 1. destruct (fenced _ _); [|done].
  destruct (ok_or _ _) as [o|]; [|done]. destruct (next_attempt _ _ _) as [i|] eqn:Ne; [|done]. cbn [ok_or].
  destruct (_ || _) eqn:Fe; [done|]. destruct (snd stopped); [done|]. intros [= <- <-].
  apply orb_false_iff in Fe as [Fp%negb_false_iff%bool_decide_eq_true Fg%negb_false_iff%bool_decide_eq_true].
  split; [done..| |].
  - exists i. done.
  - intros b B I. cbn [receipt_of claim receipt LiveCodec.user assignment LiveCodec.generation] in *.
    change (rows (world t1)) with (rows (world t)) in Row. rewrite Row in B. injection B as <-.
    pose proof (decode_fence _ _ _ _ _ Pl) as Ep. rewrite Fp in Ep. injection Ep as _ Eg.
    split; [rewrite Eg; cbn; lia|]. intros _. split; eauto.
Qed.

(** What is recorded of a failure *)
Lemma failed_ok (now : Z) (r : Receipt) (e : ImportError) (t t' : Tables) :
  failed_work now r e t = Ok (tt, t') ->
  rows (world t') = rows (world t) /\ snapshots t' = snapshots t /\
  forall A i, imports t' !! A = Some i -> exists i', imports t !! A = Some i' /\
    i_attempt i' = i_attempt i /\ i_sequence i' = i_sequence i /\ current_snapshot i' = current_snapshot i /\
    (i_state i = Succeeded -> i_state i' = Succeeded) /\
    (A = assignment r -> i_attempt i = attempt r -> i_sequence i = sequence r -> i_state i' <> Succeeded ->
     uncertain e = false -> i_state i = Failed /\ i_category i = Some (category e)).
Proof.
  unfold failed_work. intros [= <-]. split; [done|]. split; [done|]. intros A i. cbn [imports set_imports lock_rows set_world].
  destruct (decide (A = assignment r)) as [->|N].
  - rewrite lookup_alter_eq. destruct (imports t !! _) as [j|] eqn:Hj; [|done]. cbn [fmap option_fmap option_map].
    intros [= <-]. exists j. split; [done|].
    destruct (_ && _) eqn:B.
    + repeat (split; [done|]). split; [cbn; by destruct (String.eqb _ _)|]. intros _ _ _ _ U. cbn. by destruct e.
    + repeat (split; [done|]). intros _ At Se St _. exfalso.
      rewrite At, Se, !Z.eqb_refl, bool_decide_eq_false_2 in B; done.
  - rewrite lookup_alter_ne by done. intros H. exists i. repeat (split; [done|]). done.
Qed.

(** ** Each keeps the catalogues in order *)

Lemma catalogued_imports (t t' : Tables) :
  rows (world t') = rows (world t) -> snapshots t' = snapshots t ->
  (forall A i s n, imports t !! A = Some i -> snapshots t !! n = Some s -> sn_assignment s = A ->
     exists i', imports t' !! A = Some i' /\ current_snapshot i' = current_snapshot i /\
       ((i_attempt i' = i_attempt i /\ i_sequence i' = i_sequence i) \/ i_sequence i < i_sequence i')) ->
  catalogued t -> catalogued t'.
Proof.
  intros Rw Sn Im [Di Cu Ro]. split.
  - unfold distinct, ids_of. by rewrite Rw.
  - intros n s. rewrite Sn. intros Hs. destruct (Cu n s Hs) as (i & Hi & C1 & C2 & C3).
    destruct (Im _ i s n Hi Hs eq_refl) as (i' & Hi' & Cs & [[A1 S1]|Lt]).
    + exists i'. rewrite Cs, A1, S1. done.
    + exists i'. rewrite Cs. repeat (split; [done|]). split; [lia|]. intros. lia.
  - intros n s v b. rewrite Sn, Rw. apply Ro.
Qed.
Lemma catalogued_same (t t' : Tables) : same_tables t t' -> catalogued t -> catalogued t'.
Proof.
  intros [Rw _ Im Sn]. apply catalogued_imports; [done..|]. intros A i s n Hi _ _. exists i. rewrite Im. by auto.
Qed.
Lemma catalogued_claim (now id : Z) (a : Admitted_) (t t' : Tables) :
  claimed_by now id a t t' -> catalogued t -> catalogued t'.
Proof.
  intros [Rw Sn _ (i & Ne & _ & Im) _]. apply catalogued_imports; [done..|]. intros A j s n Hj _ _. rewrite Im.
  destruct (decide (A = assignment (receipt_of a))) as [->|N].
  - rewrite lookup_insert_eq. rewrite Hj in Ne. unfold next_attempt in Ne. destruct (_ <=? _); [done|].
    injection Ne as <-. eexists. split; [done|]. split; [done|]. right. cbn. lia.
  - rewrite lookup_insert_ne by done. exists j. by auto.
Qed.
Lemma catalogued_failed (now : Z) (r : Receipt) (e : ImportError) (t t' : Tables) :
  failed_work now r e t = Ok (tt, t') -> catalogued t -> catalogued t'.
Proof.
  intros H. pose proof (failed_ok _ _ _ _ _ H) as (Rw & Sn & Im). apply catalogued_imports; [done..|].
  intros A i s n Hi _ _. assert (Ex : is_Some (imports t' !! A)).
  { unfold failed_work in H. injection H as <-. cbn [imports set_imports lock_rows set_world].
    destruct (decide (A = assignment r)) as [->|]; [rewrite lookup_alter_eq|rewrite lookup_alter_ne by done];
      rewrite Hi; by eexists. }
  destruct Ex as [i' Hi']. destruct (Im A i' Hi') as (j & Hj & A1 & S1 & C1 & _). rewrite Hi in Hj. injection Hj as <-.
  exists i'. split; [done|]. split; [congruence|]. left. split; congruence.
Qed.

Lemma fenced_ok (r : Receipt) (w : World) :
  fenced r w = true ->
  exists b, rows w !! LiveCodec.user r = Some b /\ a_id b = assignment r /\
            LiveAssignments.generation b = LiveCodec.generation r.
Proof.
  unfold fenced. destruct (rows w !! _) as [b|]; [|done]. cbn [is_some_and].
  destruct (HouseholdOwner.users _ !! _); [|done]. cbn [is_some_and]. intros B. dk_bool. by exists b.
Qed.

Lemma published_lookup (now : Z) (c : Claim) (k : Candidate) (t t' : Tables) (n : Z) (s : Snapshot) :
  publication now c k t t' -> snapshots t' !! n = Some s ->
  (n = snapshot k /\ s = stored c k) \/
  (n <> snapshot k /\ snapshots t !! n = Some s /\ sn_assignment s <> assignment (receipt c)).
Proof.
  intros P. rewrite (pu_snapshots _ _ _ _ _ P), map_lookup_filter_Some. intros [H Cond].
  destruct (decide (n = snapshot k)) as [->|N].
  - rewrite lookup_insert_eq in H. left. split; [done|congruence].
  - rewrite lookup_insert_ne in H by done. right. split; [done|]. split; [done|]. by destruct Cond.
Qed.

Lemma catalogued_published (now : Z) (c : Claim) (k : Candidate) (t t' : Tables) :
  publication now c k t t' -> catalogued t -> catalogued t'.
Proof.
  intros P [Di Cu Ro]. pose proof P as [Rw _ _ (i & Hi & A1 & S1 & Im) _ Au]. split.
  - unfold distinct, ids_of. by rewrite Rw.
  - intros n s Hs. destruct (published_lookup _ _ _ _ _ _ _ P Hs) as [[-> ->]|(N & H & Ne)].
    + rewrite Im. cbn [stored sn_assignment]. rewrite lookup_insert_eq. eexists. split; [done|].
      cbn. rewrite S1, A1. repeat (split; [done|]); done.
    + rewrite Im, lookup_insert_ne by done. by apply Cu.
  - intros n s v b Hs Hb Id. destruct (published_lookup _ _ _ _ _ _ _ P Hs) as [[-> ->]|(N & H & Ne)].
    + destruct (fenced_ok _ _ (au_fenced _ _ _ Au)) as (b' & Hb' & Id' & Ge). rewrite Rw in Hb, Hb'.
      cbn [stored sn_assignment sn_generation] in Id |- *.
      assert (v = LiveCodec.user (receipt c)) as ->.
      { apply (Di v _ (a_id b)); [by apply ids_row|]. rewrite Id, <- Id'. by apply ids_row. }
      assert (b = b') as -> by congruence. lia.
    + rewrite Rw in Hb. by eapply Ro.
Qed.

(** ** One step of a task *)

Definition unused (id : Z) (t : Tables) : Prop :=
  (forall A i, imports t !! A = Some i -> i_attempt i <> id) /\
  (forall n s, snapshots t !! n = Some s -> sn_attempt s <> id).
Definition attempt_of (x : Turn) (p : Phase) : Z :=
  match holder p with Some a => attempt (receipt_of a) | None => (ids x).1 end.

(** What a step leaves: to the tables, and to its own task if that goes on *)
Record stepped (x : Turn) (p : Phase) (t : Tables) (m' : Manager) (t' : Tables) : Prop := {
  sd_moves : moves (holder p = None) (attempt_of x p) [] t t';
  sd_catalogued : catalogued t';
  sd_task p' : task m' = Some p' -> task_ok t' p' /\ forall a, holder p' = Some a -> attempt (receipt_of a) = attempt_of x p;
}.

Lemma claimed_moves (now id : Z) (a : Admitted_) (t t' : Tables) (claimed : Prop) :
  claimed -> claimed_by now id a t t' -> moves claimed id [] t t'.
Proof.
  intros Cl [Rw Sn At (i & Ne & _ & Im) _]. split; [by apply evolves_same|intros n s; rewrite Sn; by left|].
  intros A j. rewrite Im. destruct (decide (A = assignment (receipt_of a))) as [->|N].
  - rewrite lookup_insert_eq. intros [= <-]. right. split; [done|]. unfold next_attempt in Ne.
    destruct (imports t !! _); [destruct (_ <=? _); [done|]|]; by injection Ne as <-.
  - rewrite lookup_insert_ne by done. intros Hj. left. exists j. by auto.
Qed.

Lemma claimed_task (now id : Z) (a : Admitted_) (t t1 t' : Tables) (p : Phase) :
  unused id t -> claimed_by now id a t t1 -> t' = t \/ t' = t1 -> holder p = Some a -> parsed p -> task_ok t' p.
Proof.
  intros [U1 U2] Cl W Hp Pa. pose proof Cl as [Rw Sn At (i & Ne & Se & Im) Co].
  assert (Rw' : rows (world t') = rows (world t)) by (destruct W as [->| ->]; done).
  assert (Sn' : snapshots t' = snapshots t) by (destruct W as [->| ->]; done).
  assert (Im' : forall A j, imports t' !! A = Some j -> i_attempt j = id ->
            A = assignment (receipt_of a) /\ i_sequence j = sequence (receipt_of a) /\ i_state j = Running).
  { intros A j Hj Aj. destruct W as [->| ->]; [by apply U1 in Hj|]. rewrite Im in Hj.
    destruct (decide (A = assignment (receipt_of a))) as [->|N];
      [|rewrite lookup_insert_ne in Hj by done; by apply U1 in Hj].
    rewrite lookup_insert_eq in Hj. injection Hj as <-. repeat (split; [done|]). unfold next_attempt in Ne.
    destruct (imports t !! _); [destruct (_ <=? _); [done|]|]; by injection Ne as <-. }
  split; [| | |done]; intros b Hb; rewrite Hp in Hb; injection Hb as <-.
  - intros b. rewrite Rw'. apply Co.
  - intros A j Hj. rewrite At. intros Aj. by destruct (Im' A j Hj Aj) as (? & ? & _).
  - intros _. split; rewrite At.
    + intros n s. rewrite Sn'. apply U2.
    + intros A j Hj Aj. destruct (Im' A j Hj Aj) as (_ & _ & ->). done.
Qed.

Lemma stepped_same (x : Turn) (p : Phase) (t : Tables) (m' : Manager) (t' : Tables) :
  same_tables t t' -> catalogued t ->
  (forall p', task m' = Some p' -> task_ok t' p' /\ forall a, holder p' = Some a -> attempt (receipt_of a) = attempt_of x p) ->
  stepped x p t m' t'.
Proof. intros Sa Ca Ta. split; [by apply moves_same|by eapply catalogued_same|done]. Qed.
Lemma claiming_steps (x : Turn) (m : Manager) (t : Tables) (req : Request) (m' : Manager) (t' : Tables) (r : option Report) :
  task m = Some (Claiming req) -> catalogued t -> unused (ids x).1 t -> advance x m t = (m', t', r) ->
  stepped x (Claiming req) t m' t'.
Proof.
  intros Ta Ca Un. unfold advance. rewrite Ta. set (work := claim_work _ _ _ _ _ _).
  destruct (app_write (weather x) work t) as [res t1] eqn:W. apply app_write_effect in W.
  assert (Both : forall a, (exists t2, work t = Ok (a, t2)) ->
            (t1 = t \/ work t = Ok (a, t1)) -> forall p', holder p' = Some a -> parsed p' ->
            forall m1, task m1 = Some p' -> stepped x (Claiming req) t m1 t1).
  { intros a [t2 Wk] Or p' Ho Pa m1 Tm. assert (Cl := claim_ok _ _ _ _ _ _ _ _ _ Wk).
    assert (T1 : t1 = t \/ t1 = t2) by (destruct Or as [?|Wk']; [by left|right; congruence]).
    split.
    - destruct T1 as [->| ->]; [by apply moves_same|by eapply claimed_moves].
    - destruct T1 as [->| ->]; [done|by eapply catalogued_claim].
    - intros q. rewrite Tm. intros [= <-]. split; [by eapply claimed_task|]. intros b Hb. rewrite Ho in Hb.
      injection Hb as <-. apply Cl. }
  assert (Gone : forall m1, task m1 = None -> (t1 = t \/ exists a, work t = Ok (a, t1)) -> stepped x (Claiming req) t m1 t1).
  { intros m1 Tm [->|[a Wk]]; [by apply stepped_same; [..|rewrite Tm]|]. assert (Cl := claim_ok _ _ _ _ _ _ _ _ _ Wk).
    split; [by eapply claimed_moves|by eapply catalogued_claim|by rewrite Tm]. }
  assert (Or : t1 = t \/ exists a, work t = Ok (a, t1)) by (destruct W as [(v & ? & _)|[? _]]; by eauto).
  destruct res as [a|e].
  - intros [= <- <- _]. destruct W as [(v & Wk & [[= ->]|(e & ?)])|(_ & e & ?)]; try congruence.
    apply (Both v) with (p' := Preparing v); [by eexists|by right|done..].
  - destruct e as [[]|e]; try (intros [= <- <- _]; by apply Gone).
    destruct (work t) as [[a t2]|e] eqn:Wk; [|intros [= <- <- _]; by apply Gone].
    intros [= <- <- _]. apply (Both a) with (p' := Verifying a); [by eexists| |done..]. destruct Or as [?|[b Eq]]; [by left|right]. congruence.
Qed.

(** A task that has its claim goes on. *)
Lemma own_step (x : Turn) (p : Phase) (a : Admitted_) (t : Tables) (m' : Manager) (t' : Tables) :
  holder p = Some a -> task_ok t p -> moves (holder p = None) (attempt (receipt_of a)) [] t t' -> catalogued t' ->
  (forall p', task m' = Some p' -> holder p' = Some a /\ parsed p' /\ (pending p' -> unpublished (receipt_of a) t')) ->
  stepped x p t m' t'.
Proof.
  intros Hp [Co Re _ _] Mv Ca Ta. assert (At : attempt_of x p = attempt (receipt_of a)) by (unfold attempt_of; by rewrite Hp).
  split; [by rewrite At|done|]. intros p' Tp. destruct (Ta p' Tp) as (Hp' & Pa & Pe). rewrite At.
  split; [|intros b; rewrite Hp'; by intros [= <-]].
  split; [| | |done]; intros b; rewrite Hp'; intros [= <-].
  - eapply coherent_moves; [apply Mv|apply not_elem_of_nil|by apply Co].
  - eapply registered_moves; [|by apply Re]. split; [apply Mv..|]. intros A i Hi.
    destruct (mv_imports _ _ _ _ _ Mv A i Hi) as [?|[N _]]; [by left|congruence].
  - done.
Qed.
Lemma unpublished_same (t t' : Tables) (r : Receipt) : same_tables t t' -> unpublished r t -> unpublished r t'.
Proof. intros [_ _ Im Sn]. unfold unpublished. by rewrite Im, Sn. Qed.
Lemma own_same (x : Turn) (p : Phase) (a : Admitted_) (t : Tables) (m' : Manager) (t' : Tables) :
  holder p = Some a -> task_ok t p -> same_tables t t' -> catalogued t ->
  (forall p', task m' = Some p' -> holder p' = Some a /\ parsed p' /\ (pending p' -> pending p)) ->
  stepped x p t m' t'.
Proof.
  intros Hp To Sa Ca Ta. apply (own_step x p a); [done..|by apply moves_same|by eapply catalogued_same|].
  intros p' Tp. destruct (Ta p' Tp) as (Hp' & Pa & Pe). repeat (split; [done|]). intros P.
  eapply unpublished_same; [done|]. eapply to_pending; eauto.
Qed.

Lemma write_same {A} (x : Weather) (work : Tables -> result (A * Tables) ImportError) (t t' : Tables) (r : result A ImportError) :
  (forall v u, work t = Ok (v, u) -> same_tables t u) -> write x work t = (r, t') -> same_tables t t'.
Proof. intros Sa W. apply write_effect in W as [(v & Wk & _)|[-> _]]; [by eapply Sa|done]. Qed.
Lemma verify_same (r : Receipt) (t t' : Tables) (b : bool) : verify_work r t = Ok (b, t') -> same_tables t t'.
Proof. unfold verify_work. destruct (lock r t) eqn:L; [|done]. intros [= _ <-]. by eapply lock_ok. Qed.
Lemma reconcile_same (r : Receipt) (t t' : Tables) (b : bool) : reconcile_work r t = Ok (b, t') -> same_tables t t'.
Proof. unfold reconcile_work. destruct (lock r t) eqn:L; [|done]. intros [= _ <-]. by eapply lock_ok. Qed.

Lemma verifying_steps (x : Turn) (m : Manager) (t : Tables) (a : Admitted_) (m' : Manager) (t' : Tables) (r : option Report) :
  task m = Some (Verifying a) -> task_ok t (Verifying a) -> catalogued t -> advance x m t = (m', t', r) ->
  stepped x (Verifying a) t m' t'.
Proof.
  intros Ta To Ca. unfold advance. rewrite Ta. destruct (write _ _ t) as [res t1] eqn:W.
  apply write_same in W; [|intros v u; apply verify_same].
  assert (V : verified a res = Ok a \/ exists e, verified a res = Err e)
    by (destruct res as [[]|[]]; cbn; eauto).
  destruct V as [->|[e ->]]; intros [= <- <- _]; eapply own_same; try done. intros p'. cbn. by intros [= <-].
Qed.

Lemma preparing_steps (x : Turn) (m : Manager) (t : Tables) (a : Admitted_) (m' : Manager) (t' : Tables) (r : option Report) :
  task m = Some (Preparing a) -> task_ok t (Preparing a) -> catalogued t -> advance x m t = (m', t', r) ->
  stepped x (Preparing a) t m' t'.
Proof.
  intros Ta To Ca. unfold advance. rewrite Ta. destruct (prepare _ _ _) as [k|e] eqn:P; intros [= <- <- _];
    eapply own_same; try done; intros p' [= <-]; (split; [done|]); [|done].
  split; [|done]. unfold prepare in P. cbn [parsed]. destruct (fetched x) as [playlist guide w|e].
  - exists playlist, guide, w. destruct (parse_feeds _ _ _ _) as [k'|e], (monitor x) as [[]|[]]; by try injection P as ->.
  - by destruct (monitor x) as [[]|[]].
Qed.

Lemma published_moves (now : Z) (c : Claim) (k : Candidate) (t t' : Tables) (claimed : Prop) :
  publication now c k t t' -> moves claimed (attempt (receipt c)) [] t t'.
Proof.
  intros P. split.
  - apply evolves_same. by apply (pu_rows _ _ _ _ _ P).
  - intros n s Hs. destruct (published_lookup _ _ _ _ _ _ _ P Hs) as [[-> ->]|(_ & H & _)]; [by right|by left].
  - intros A j. destruct (pu_imports _ _ _ _ _ P) as (i & Hi & A1 & S1 & ->).
    destruct (decide (A = assignment (receipt c))) as [->|N].
    + rewrite lookup_insert_eq. intros [= <-]. left. exists i. repeat (split; [done|]). intros _. right. done.
    + rewrite lookup_insert_ne by done. intros Hj. left. exists j. by auto.
Qed.

Lemma publishing_steps (x : Turn) (m : Manager) (t : Tables) (a : Admitted_) (k : Candidate) (m' : Manager) (t' : Tables)
    (r : option Report) :
  task m = Some (Publishing a k) -> task_ok t (Publishing a k) -> catalogued t -> advance x m t = (m', t', r) ->
  stepped x (Publishing a k) t m' t'.
Proof.
  intros Ta To Ca. unfold advance. rewrite Ta. destruct (write _ _ t) as [res t1] eqn:W.
  assert (W' := W). apply write_effect in W.
  assert (Mv : moves (holder (Publishing a k) = None) (attempt (receipt_of a)) [] t t1 /\ catalogued t1).
  { destruct W as [(v & Wk & _)|[-> _]]; [|split; [by apply moves_same|done]].
    apply publish_ok in Wk as [_ P]. split; [by eapply published_moves|by eapply catalogued_published]. }
  destruct Mv as [Mv Ca']. destruct res as [i|e]; [intros [= <- <- _]; by eapply own_step|].
  destruct (decide (e = Indeterminate)) as [->|N].
  { intros [= <- <- _]. eapply own_step; try done. intros p' [= <-]. split; [done|]. done. }
  intros Adv. assert (Adv' : (proceed (Failing a e) m, t1, @None Report) = (m', t', r)) by (by destruct e).
  injection Adv' as <- <- _. eapply own_step; try done. intros p' [= <-]. split; [done|]. split; [done|].
  cbn [pending]. intros D. rewrite (write_definite _ _ _ _ _ W') by (by destruct e). by apply (to_pending _ _ To).
Qed.

Lemma reconciling_steps (x : Turn) (m : Manager) (t : Tables) (a : Admitted_) (k : Candidate) (m' : Manager) (t' : Tables)
    (r : option Report) :
  task m = Some (Reconciling a k) -> task_ok t (Reconciling a k) -> catalogued t -> advance x m t = (m', t', r) ->
  stepped x (Reconciling a k) t m' t'.
Proof.
  intros Ta To Ca. unfold advance. rewrite Ta. destruct (write _ _ t) as [res t1] eqn:W.
  apply write_same in W; [|intros v u; apply reconcile_same].
  assert (V : (exists i, reconciled (receipt (claim a)) res = Ok i) \/
              exists e, reconciled (receipt (claim a)) res = Err e /\ definite e = false)
    by (destruct res as [[]|[]]; cbn; eauto).
  destruct V as [[i ->]|(e & -> & De)]; intros [= <- <- _]; eapply own_same; try done; intros p' [= <-].
  split; [done|]. split; [done|]. cbn. by rewrite De.
Qed.

Lemma failing_steps (x : Turn) (m : Manager) (t : Tables) (a : Admitted_) (e : ImportError) (m' : Manager) (t' : Tables)
    (r : option Report) :
  task m = Some (Failing a e) -> task_ok t (Failing a e) -> catalogued t -> advance x m t = (m', t', r) ->
  stepped x (Failing a e) t m' t'.
Proof.
  intros Ta To Ca. unfold advance. rewrite Ta. destruct (write _ _ t) as [res t1] eqn:W. intros [= <- <- _].
  apply write_effect in W as [([] & Wk & _)|[-> _]]; [|by eapply own_same].
  eapply own_step; try done; [|by eapply catalogued_failed].
  apply failed_ok in Wk as (Rw & Sn & Im). split; [by apply evolves_same|intros n s; rewrite Sn; by left|].
  intros A i Hi. destruct (Im A i Hi) as (i' & Hi' & A1 & S1 & _ & S2 & _). left. exists i'. by auto 6.
Qed.

Lemma advance_steps (x : Turn) (m : Manager) (t : Tables) (p : Phase) (m' : Manager) (t' : Tables) (r : option Report) :
  task m = Some p -> task_ok t p -> catalogued t -> unused (ids x).1 t -> advance x m t = (m', t', r) ->
  stepped x p t m' t'.
Proof.
  destruct p; intros; [by eapply claiming_steps|by eapply verifying_steps|by eapply preparing_steps
    |by eapply publishing_steps|by eapply reconciling_steps|by eapply failing_steps].
Qed.

(** ** Processes over one database *)

Record System := mk_system { tables : Tables; managers : gmap Z Manager }.
Inductive Event :=
| Attach (p : Z)
| Serve (now : Z) (op : Op)
| Switch (p now : Z) (x : Weather) (who : HouseholdOwner.Scope) (c : Condition) (on : bool)
| Begin (p : Z) (req : Request)
| Step (p : Z) (x : Turn)
| Stop (p : Z)
| Shut (p : Z)
| Lose (p : Z).

Definition manage (p : Z) (f : Manager -> Manager) (s : System) : System :=
  mk_system (tables s) (alter f p (managers s)).
Definition happen (e : Event) (s : System) : System * option (Z * Report) :=
  match e with
  | Attach p => (mk_system (tables s) (partial_alter (fun m => Some (unwrap_or m attach)) p (managers s)), None)
  | Serve now op => (mk_system (cascade (set_world (perform now op (world (tables s))) (tables s))) (managers s), None)
  | Switch p now x who c on =>
      let '(r, t) := LiveRefresh.configure now x who c on (tables s) in
      let s := mk_system t (managers s) in
      (match r with Ok k => if c_enabled k then s else manage p cancel_active s | Err _ => s end, None)
  | Begin p req => (manage p (fun m => (start req m).2) s, None)
  | Step p x =>
      match managers s !! p with
      | None => (s, None)
      | Some m =>
          let '(m', t, r) := advance x m (tables s) in
          (mk_system t (<[p := m']> (managers s)), option_map (pair p) r)
      end
  | Stop p => (manage p cancel_active s, None)
  | Shut p => (manage p close s, None)
  | Lose p => (manage p lost s, None)
  end.

Definition works (s : System) (p : Z) (q : Phase) : Prop :=
  exists m, managers s !! p = Some m /\ task m = Some q.
Definition holds (s : System) (p : Z) (a : Admitted_) : Prop := exists q, works s p q /\ holder q = Some a.

(** Ids that are drawn are in use nowhere. *)
Definition fresh (e : Event) (s : System) : Prop :=
  match e with
  | Serve _ op =>
      forall id, id ∈ drawn_by op ->
        (forall n sn, snapshots (tables s) !! n = Some sn -> sn_assignment sn <> id) /\
        (forall p a, holds s p a -> assignment (receipt_of a) <> id)
  | Step _ x => unused (ids x).1 (tables s) /\ (forall p a, holds s p a -> attempt (receipt_of a) <> (ids x).1)
  | _ => True
  end.

Inductive reachable : System -> Prop :=
| At_first w c : distinct w -> reachable (mk_system (mk_tables w c ∅ ∅) ∅)
| Then_ e s : reachable s -> fresh e s -> reachable (happen e s).1.

Record sound (s : System) : Prop := {
  so_tables : catalogued (tables s);
  so_tasks p q : works s p q -> task_ok (tables s) q;
  so_apart p p' a b : holds s p a -> holds s p' b -> attempt (receipt_of a) = attempt (receipt_of b) -> p = p';
}.

(** Events that publish nothing *)
Definition calm (ids : list Z) (t t' : Tables) : Prop := forall att, moves False att ids t t'.
Lemma calm_same (ids : list Z) (t t' : Tables) : same_tables t t' -> calm ids t t'.
Proof. intros H att. by apply moves_same. Qed.

Lemma sound_calm (ids : list Z) (s s' : System) :
  sound s -> calm ids (tables s) (tables s') -> catalogued (tables s') ->
  (forall p a, holds s p a -> assignment (receipt_of a) ∉ ids) ->
  (forall p q, works s' p q -> works s p q \/ exists req, q = Claiming req) -> sound s'.
Proof.
  intros [_ Ta Ap] Mv Ca Ni Wo. split; [done| |].
  - intros p q Wq. destruct (Wo p q Wq) as [W|[req ->]]; [|by split].
    destruct (holder q) as [a|] eqn:Hq.
    + eapply (task_ok_moves False (attempt (receipt_of a) + 1)); [apply Mv| |by apply (Ta p)].
      intros b. rewrite Hq. intros [= <-]. split; [lia|]. eapply Ni. by exists q.
    + eapply (task_ok_moves False 0); [apply Mv| |by apply (Ta p)]. intros b. by rewrite Hq.
  - assert (Ho : forall p a, holds s' p a -> holds s p a).
    { intros p a (q & Wq & Hq). destruct (Wo p q Wq) as [W|[req ->]]; [by exists q|done]. }
    intros p p' a b Ha Hb. apply Ap; by apply Ho.
Qed.

Lemma works_manage (p : Z) (f : Manager -> Manager) (s : System) :
  (forall m, task (f m) = task m \/ task (f m) = None \/ exists req, task (f m) = Some (Claiming req)) ->
  forall p' q, works (manage p f s) p' q -> works s p' q \/ exists req, q = Claiming req.
Proof.
  intros Hf p' q (m' & Hm & Tm). cbn [managers manage] in Hm. destruct (decide (p' = p)) as [->|N].
  - rewrite lookup_alter_eq in Hm. destruct (managers s !! p) as [m|] eqn:M; [|done]. injection Hm as <-.
    destruct (Hf m) as [Eq|[Eq|[req Eq]]]; rewrite Tm in Eq; [|done|right; exists req; congruence].
    left. by exists m.
  - rewrite lookup_alter_ne in Hm by done. left. by exists m'.
Qed.
Lemma sound_manage (p : Z) (f : Manager -> Manager) (s : System) :
  (forall m, task (f m) = task m \/ task (f m) = None \/ exists req, task (f m) = Some (Claiming req)) ->
  sound s -> sound (manage p f s).
Proof.
  intros Hf So. apply (sound_calm [] s); [done|by apply calm_same|apply So|..].
  - intros. by apply not_elem_of_nil.
  - by apply works_manage.
Qed.

Lemma serve_calm (now : Z) (op : Op) (t : Tables) :
  calm (drawn_by op) t (cascade (set_world (perform now op (world t)) t)).
Proof.
  intros att. split.
  - apply perform_evolves.
  - intros n s. cbn [snapshots cascade set_snapshots set_imports set_world]. rewrite map_lookup_filter_Some.
    intros [H _]. by left.
  - intros A i. cbn [imports cascade set_snapshots set_imports set_world]. rewrite map_lookup_filter_Some.
    intros [H _]. left. exists i. by auto.
Qed.
Lemma serve_catalogued (now : Z) (op : Op) (t : Tables) :
  (forall id n sn, id ∈ drawn_by op -> snapshots t !! n = Some sn -> sn_assignment sn <> id) ->
  catalogued t -> catalogued (cascade (set_world (perform now op (world t)) t)).
Proof.
  intros Fr [Di Cu Ro]. set (w := perform now op (world t)).
  assert (L : forall n s, snapshots (cascade (set_world w t)) !! n = Some s ->
            snapshots t !! n = Some s /\ has_assignment w (sn_assignment s)).
  { intros n s. cbn [snapshots cascade set_snapshots set_imports set_world]. by rewrite map_lookup_filter_Some. }
  split.
  - by apply perform_distinct.
  - intros n s Hs. destruct (L n s Hs) as [H Has]. destruct (Cu n s H) as (i & Hi & Rest). exists i. split; [|done].
    cbn [imports cascade set_snapshots set_imports set_world]. by rewrite map_lookup_filter_Some.
  - intros n s v b Hs Hb Id. destruct (L n s Hs) as [H _].
    destruct (perform_evolves now op (world t) v b Hb) as [X|(a & Ha & [Ia La])]; [by destruct (Fr _ n s X H)|].
    pose proof (Ro n s v a H Ha ltac:(congruence)). destruct La as [?|[? _]]; lia.
Qed.

Lemma configure_same (now : Z) (x : Weather) (who : HouseholdOwner.Scope) (c : Condition) (on : bool) (t t' : Tables)
    (r : result Control AppError) :
  LiveRefresh.configure now x who c on t = (r, t') ->
  rows (world t') = rows (world t) /\ imports t' = imports t /\ snapshots t' = snapshots t.
Proof.
  intros W. apply app_write_effect in W as [(k & Wk & _)|[-> _]]; [|done]. unfold configure_work in Wk.
  destruct (authorize _ _ _ _ _ _) as [t1|] eqn:A; [|done]. apply authorize_ok in A as [-> _].
  destruct (read_control _) as [cur|]; [|done]. destruct (json_etag _); [|done]. destruct (app _); [|done].
  destruct (Bool.eqb _ _); [by injection Wk as _ <-|]. destruct (_ <=? _); [done|]. by injection Wk as _ <-.
Qed.
Lemma configure_calm (now : Z) (x : Weather) (who : HouseholdOwner.Scope) (c : Condition) (on : bool) (t t' : Tables)
    (r : result Control AppError) :
  LiveRefresh.configure now x who c on t = (r, t') -> catalogued t -> calm [] t t' /\ catalogued t'.
Proof.
  intros W Ca. apply configure_same in W as (Rw & Im & Sn). split.
  - intros att. split; [by apply evolves_same|intros n s; rewrite Sn; by left|]. intros A i. rewrite Im. left. exists i. by auto.
  - eapply catalogued_imports; [done..| |done]. intros A i s n Hi _ _. exists i. rewrite Im. by auto.
Qed.

Lemma turn_sound (s : System) (p : Z) (x : Turn) (m m' : Manager) (q : Phase) (t' : Tables) (r : option Report) :
  sound s -> fresh (Step p x) s -> managers s !! p = Some m -> task m = Some q ->
  advance x m (tables s) = (m', t', r) ->
  stepped x q (tables s) m' t' /\ sound (mk_system t' (<[p := m']> (managers s))).
Proof.
  intros [Ca Ta Ap] [Un Fr] Hm Tm Ad. assert (W : works s p q) by (by exists m).
  assert (St : stepped x q (tables s) m' t') by (eapply advance_steps; eauto). split; [done|].
  destruct St as [Mv Ca' Tk].
  assert (Own : forall p' q', works (mk_system t' (<[p := m']> (managers s))) p' q' ->
            (p' = p /\ task m' = Some q') \/ (p' <> p /\ works s p' q')).
  { intros p' q' (m1 & Hm1 & Tm1). cbn [managers] in Hm1. destruct (decide (p' = p)) as [->|N].
    - rewrite lookup_insert_eq in Hm1. left. split; [done|]. congruence.
    - rewrite lookup_insert_ne in Hm1 by done. right. split; [done|]. by exists m1. }
  assert (Other : forall p' a, p' <> p -> holds s p' a -> attempt (receipt_of a) <> attempt_of x q).
  { intros p' a N Ha. unfold attempt_of. destruct (holder q) as [b|] eqn:Hq; [|by eapply Fr].
    intros Eq. apply N. eapply Ap; [exact Ha| |exact Eq]. by exists q. }
  split; [done| |].
  - intros p' q' Wq. destruct (Own p' q' Wq) as [[-> Tq]|[N Wq']]; [by apply Tk|].
    eapply task_ok_moves; [exact Mv| |by apply (Ta p')]. intros a Ha. split; [|apply not_elem_of_nil].
    apply (Other p'); [done|]. by exists q'.
  - intros p1 p2 a b (q1 & W1 & H1) (q2 & W2 & H2) Eq.
    destruct (Own p1 q1 W1) as [[-> T1]|[N1 W1']], (Own p2 q2 W2) as [[-> T2]|[N2 W2']]; [done| | |].
    + exfalso. apply (Other p2 b N2); [by exists q2|]. rewrite <- Eq. by apply (Tk q1).
    + exfalso. apply (Other p1 a N1); [by exists q1|]. rewrite Eq. by apply (Tk q2).
    + apply (Ap p1 p2 a b); [by exists q1|by exists q2|done].
Qed.

Lemma happen_sound (e : Event) (s : System) : sound s -> fresh e s -> sound (happen e s).1.
Proof.
  intros So Fr. destruct e as [p|now op|p now x who c on|p req|p x|p|p|p]; cbn [happen].
  - apply (sound_calm [] s); [done|by apply calm_same|apply So|intros; by apply not_elem_of_nil|].
    intros p' q (m & Hm & Tm). cbn [fst managers] in Hm. left. destruct (decide (p' = p)) as [->|N].
    + rewrite lookup_partial_alter_eq in Hm. destruct (managers s !! p) as [m0|] eqn:M; injection Hm as <-; [by exists m0|done].
    + rewrite lookup_partial_alter_ne in Hm by done. by exists m.
  - apply (sound_calm (drawn_by op) s); [done|apply serve_calm| | |intros p q W; by left].
    + apply serve_catalogued; [|apply So]. intros id n sn D. by apply Fr.
    + intros p a Ha D. by apply (proj2 (Fr _ D) p a Ha).
  - destruct (LiveRefresh.configure _ _ _ _ _ _) as [r t] eqn:Cf. apply configure_calm in Cf as [Cm Ca]; [|apply So].
    assert (S1 : sound (mk_system t (managers s))).
    { apply (sound_calm [] s); [done..|intros; by apply not_elem_of_nil|intros p' q W; by left]. }
    cbn [fst]. destruct r as [k|]; [|done]. destruct (c_enabled k); [done|]. apply sound_manage; [|done]. intros m. by left.
  - apply sound_manage; [|done]. intros m. unfold start. destruct (_ || _ || _); [by left|right; right]. by exists req.
  - destruct (managers s !! p) as [m|] eqn:M; [|done]. destruct (advance x m (tables s)) as [[m' t'] r] eqn:Ad.
    cbn [fst]. destruct (task m) as [q|] eqn:Tm; [by eapply turn_sound|].
    unfold advance in Ad. rewrite Tm in Ad. injection Ad as <- <- <-.
    apply (sound_calm [] s); [done|by apply calm_same|apply So|intros; by apply not_elem_of_nil|].
    intros p' q (m1 & Hm1 & Tm1). cbn [managers] in Hm1. rewrite insert_id in Hm1 by done. left. by exists m1.
  - apply sound_manage; [|done]. intros m. by left.
  - apply sound_manage; [|done]. intros m. by left.
  - apply sound_manage; [|done]. intros m. right. by left.
Qed.

Lemma reachable_sound (s : System) : reachable s -> sound s.
Proof.
  induction 1 as [w c D|e s _ So Fr]; [|by apply happen_sound]. split.
  - split; [done|intros n sn; cbn; by rewrite lookup_empty|intros n sn v b; cbn; by rewrite lookup_empty].
  - intros p q (m & Hm & _). cbn in Hm. by rewrite lookup_empty in Hm.
  - intros p p' a b (q & (m & Hm & _) & _). cbn in Hm. by rewrite lookup_empty in Hm.
Qed.

(** ** What may appear *)

(** A snapshot that is new was published by the step of a task. *)
Lemma advance_snapshots (x : Turn) (m m' : Manager) (t t' : Tables) (r : option Report) :
  advance x m t = (m', t', r) ->
  snapshots t' = snapshots t \/
  exists a k, task m = Some (Publishing a k) /\ publication (now x) (claim a) k t t'.
Proof.
  unfold advance. destruct (task m) as [[req|a|a|a k|a k|a e]|]; [| | | | | |by intros [= <- <- <-]; left].
  - destruct (app_write _ _ t) as [res t1] eqn:W. apply app_write_effect in W.
    assert (Sn : snapshots t1 = snapshots t).
    { destruct W as [(v & Wk & _)|[-> _]]; [|done]. exact (cl_snapshots _ _ _ _ _ (claim_ok _ _ _ _ _ _ _ _ _ Wk)). }
    destruct res as [v|[[]|]]; try (by intros [= <- <- <-]; left). destruct (claim_work _ _ _ _ _ _ _) as [[]|];
      by intros [= <- <- <-]; left.
  - destruct (write _ _ t) as [res t1] eqn:W. apply write_same in W; [|intros v u; apply verify_same].
    destruct (verified _ _); intros [= <- <- <-]; left; apply W.
  - destruct (prepare _ _ _); intros [= <- <- <-]; by left.
  - destruct (write _ _ t) as [res t1] eqn:W. apply write_effect in W. intros Ad.
    assert (t1 = t') as -> by (destruct res as [|[]]; congruence).
    destruct W as [(v & Wk & _)|[-> _]]; [|by left]. apply publish_ok in Wk as [_ P]. right. by exists a, k.
  - destruct (write _ _ t) as [res t1] eqn:W. apply write_same in W; [|intros v u; apply reconcile_same].
    destruct (reconciled _ _); intros [= <- <- <-]; left; apply W.
  - destruct (write _ _ t) as [res t1] eqn:W. apply write_effect in W. intros [= <- <- <-].
    destruct W as [([] & Wk & _)|[-> _]]; [|by left]. left. by apply failed_ok in Wk as (_ & ? & _).
Qed.
Lemma happen_snapshots (e : Event) (s : System) (n : Z) (sn : Snapshot) :
  snapshots (tables (happen e s).1) !! n = Some sn ->
  snapshots (tables s) !! n = Some sn \/
  exists p x m a k, e = Step p x /\ managers s !! p = Some m /\ task m = Some (Publishing a k) /\
    publication (now x) (claim a) k (tables s) (tables (happen e s).1) /\ n = snapshot k /\ sn = stored (claim a) k.
Proof.
  destruct e as [p|now op|p now x who c on|p req|p x|p|p|p]; cbn [happen]; try (by left).
  - cbn [fst tables snapshots cascade set_snapshots set_imports set_world]. rewrite map_lookup_filter_Some. intros [? _]. by left.
  - destruct (LiveRefresh.configure _ _ _ _ _ _) as [r t] eqn:Cf. apply configure_same in Cf as (_ & _ & Sn).
    cbn [fst]. destruct r as [k|]; [destruct (c_enabled k)|]; cbn [tables manage]; rewrite Sn; by left.
  - destruct (managers s !! p) as [m|] eqn:M; [|by left]. destruct (advance x m (tables s)) as [[m' t'] r] eqn:Ad.
    cbn [fst tables]. intros H. destruct (advance_snapshots _ _ _ _ _ _ Ad) as [Eq|(a & k & Tm & P)]; [left; by rewrite <- Eq|].
    destruct (published_lookup _ _ _ _ _ _ _ P H) as [[-> ->]|(_ & ? & _)]; [|by left]. right.
    exists p, x, m, a, k. done.
Qed.


(** What a task reports at its end *)
Lemma reported_by (x : Turn) (m m' : Manager) (t t' : Tables) (ph : Phase) (a : Admitted_) (r : result Z ImportError) :
  task m = Some ph -> task_ok t ph -> catalogued t' -> advance x m t = (m', t', Some (Finished a r)) ->
  (forall n, r = Ok n -> exists sn i, snapshots t' !! n = Some sn /\ sn_assignment sn = assignment (receipt_of a) /\
     sn_attempt sn = attempt (receipt_of a) /\ sn_sequence sn = sequence (receipt_of a) /\
     imports t' !! assignment (receipt_of a) = Some i /\ current_snapshot i = Some n) /\
  (forall e, r = Err e -> definite e = true ->
     (forall n sn, snapshots t' !! n = Some sn -> sn_attempt sn <> attempt (receipt_of a)) /\
     (forall i, imports t' !! assignment (receipt_of a) = Some i -> i_attempt i = attempt (receipt_of a) ->
        i_state i = Failed /\ i_category i = Some (category e))).
Proof.
  intros Tm To Ca. unfold advance. rewrite Tm.
  assert (Cur : forall n sn, snapshots t' !! n = Some sn -> sn_assignment sn = assignment (receipt_of a) ->
    sn_attempt sn = attempt (receipt_of a) -> sn_sequence sn = sequence (receipt_of a) ->
    exists sn i, snapshots t' !! n = Some sn /\ sn_assignment sn = assignment (receipt_of a) /\
     sn_attempt sn = attempt (receipt_of a) /\ sn_sequence sn = sequence (receipt_of a) /\
     imports t' !! assignment (receipt_of a) = Some i /\ current_snapshot i = Some n).
  { intros n sn H A1 A2 A3. destruct (ca_current _ Ca n sn H) as (i & Hi & Cs & _). exists sn, i.
    rewrite <- A1. done. }
  destruct ph as [req|b|b|b k|b k|b e].
  - destruct (app_write _ _ t) as [[v|[[]|]] t1]; try done. by destruct (claim_work _ _ _ _ _ _ _) as [[]|].
  - destruct (write _ _ t) as [res t1]. by destruct (verified _ _).
  - by destruct (prepare _ _ _).
  - destruct (write _ _ t) as [[n|[]] t1] eqn:W; try done. intros [= <- <- <- <-]. split; [|done].
    intros ? [= <-]. apply write_done, publish_ok in W as [-> P].
    apply (Cur _ (stored (claim b) k)); [|done..]. rewrite (pu_snapshots _ _ _ _ _ P), map_lookup_filter_Some.
    rewrite lookup_insert_eq. split; [done|by right].
  - destruct (write _ _ t) as [res t1] eqn:W. destruct (reconciled _ res) as [n|] eqn:Rc; [|done].
    intros [= <- <- <- <-]. split; [|done]. intros ? [= <-].
    destruct res as [[]|[]]; try done. injection Rc as <-. apply write_done in W. unfold reconcile_work in W.
    destruct (lock _ _) as [t2|]; [|done]. injection W as Some_ <-. destruct (snapshots t2 !! _) as [sn|] eqn:Sn; [|done].
    cbn [is_some_and] in Some_. dk_bool. rewrite <- Sn. by apply (Cur _ sn Sn).
  - destruct (write _ _ t) as [res t1] eqn:W. intros [= <- <- <- <-]. split; [done|]. intros e' [= <-] De.
    destruct res as [[]|e1]; cbn [settled] in *; [|by destruct (bool_decide _) eqn:B; [apply bool_decide_eq_true in B as ->|]].
    apply write_done, failed_ok in W as (_ & Sn & Im).
    destruct (to_pending _ _ To b eq_refl De) as [U1 U2]. split.
    + intros n sn. rewrite Sn. apply U1.
    + intros i Hi At. destruct (Im _ i Hi) as (i' & Hi' & A1 & S1 & _ & _ & Fa).
      destruct (to_registered _ _ To b eq_refl _ i' Hi' ltac:(congruence)) as [_ Se].
      apply Fa; [done|done|by rewrite <- S1| |by destruct e]. eapply U2; [exact Hi'|congruence].
Qed.

(** ** The theorems *)

(** C22. However many processes import, and whatever is asked of them meanwhile, an
    assignment has one catalogue at most, the one its import state names.  A catalogue
    only gives way to one of a later attempt, read from the same or a later state of
    its assignment, and does so in the step that publishes that one. *)
Theorem catalogues_advance (s : System) (e : Event) (n : Z) (sn : Snapshot) :
  reachable s -> fresh e s -> snapshots (tables (happen e s).1) !! n = Some sn ->
  (exists i, imports (tables (happen e s).1) !! sn_assignment sn = Some i /\ current_snapshot i = Some n) /\
  (forall n' sn', snapshots (tables (happen e s).1) !! n' = Some sn' -> sn_assignment sn' = sn_assignment sn -> n' = n) /\
  (snapshots (tables s) !! n = Some sn \/
   forall n0 s0, snapshots (tables s) !! n0 = Some s0 -> sn_assignment s0 = sn_assignment sn ->
     snapshots (tables (happen e s).1) !! n0 = None /\ sn_sequence s0 < sn_sequence sn /\
     sn_generation s0 <= sn_generation sn).
Proof.
  intros Re Fr Hn. pose proof (reachable_sound s Re) as So.
  pose proof (so_tables _ (happen_sound e s So Fr)) as Ca'. pose proof (ca_current _ Ca' n sn Hn) as (i & Hi & Cur & _).
  split; [by exists i|]. split.
  { intros n' sn' Hn' Eq. destruct (ca_current _ Ca' n' sn' Hn') as (i' & Hi' & Cur' & _). congruence. }
  destruct (happen_snapshots e s n sn Hn) as [?|(p & x & m & a & k & -> & Hm & Tm & P & -> & ->)]; [by left|right].
  intros n0 s0 H0 Eq. cbn [stored sn_assignment sn_sequence sn_generation] in *. split; [|split].
  - apply eq_None_not_Some. intros [s1 H1].
    destruct (published_lookup _ _ _ _ _ _ _ P H1) as [[-> _]|(_ & H2 & Ne)].
    + pose proof (pu_new _ _ _ _ _ P). congruence.
    + rewrite H0 in H2. injection H2 as <-. done.
  - destruct (ca_current _ (so_tables _ So) n0 s0 H0) as (j & Hj & _ & Le & Same).
    destruct (pu_imports _ _ _ _ _ P) as (j' & Hj' & A1 & S1 & _). rewrite Eq, Hj' in Hj. injection Hj as <-.
    destruct (decide (sn_sequence s0 = i_sequence j')) as [E'|]; [exfalso|unfold receipt_of in *; lia].
    destruct (to_pending _ _ (so_tasks _ So p _ (ex_intro _ m (conj Hm Tm))) a eq_refl I) as [Un _].
    apply (Un n0 s0 H0). unfold receipt_of. rewrite (Same E'). done.
  - destruct (fenced_ok _ _ (au_fenced _ _ _ (pu_authority _ _ _ _ _ P))) as (b & Hb & Id & <-).
    rewrite (pu_rows _ _ _ _ _ P) in Hb. apply (ca_row _ (so_tables _ So) n0 s0 _ b H0 Hb). congruence.
Qed.


(** C23. What an import reports is so.  If it reports a catalogue, that is stored as
    the current one of its assignment and is this attempt's.  If it reports a failure
    of which it is sure, nothing of the attempt was published, and the import state,
    unless it is another attempt's by then, has failed with just that category. *)
Theorem reported_outcomes_are_recorded (s : System) (e : Event) (p : Z) (a : Admitted_) (r : result Z ImportError) :
  reachable s -> fresh e s -> (happen e s).2 = Some (p, Finished a r) ->
  let t := tables (happen e s).1 in
  match r with
  | Ok n => exists sn i, snapshots t !! n = Some sn /\ sn_assignment sn = assignment (receipt_of a) /\
      sn_attempt sn = attempt (receipt_of a) /\ sn_sequence sn = sequence (receipt_of a) /\
      imports t !! assignment (receipt_of a) = Some i /\ current_snapshot i = Some n
  | Err e => definite e = true ->
      (forall n sn, snapshots t !! n = Some sn -> sn_attempt sn <> attempt (receipt_of a)) /\
      (forall i, imports t !! assignment (receipt_of a) = Some i -> i_attempt i = attempt (receipt_of a) ->
         i_state i = Failed /\ i_category i = Some (category e))
  end.
Proof.
  intros Re Fr Out t. pose proof (reachable_sound s Re) as So. pose proof (so_tables _ (happen_sound e s So Fr)) as Ca.
  destruct e as [q|now op|q now x who c on|q req|q x|q|q|q]; try done.
  { cbn [happen] in Out. destruct (LiveRefresh.configure _ _ _ _ _ _). done. }
  subst t. cbn [happen] in Out, Ca |- *. destruct (managers s !! q) as [m|] eqn:M; [|done].
  destruct (advance x m (tables s)) as [[m' t] rep] eqn:Ad. cbn [fst snd tables] in Out, Ca |- *.
  destruct rep as [rep|]; [|done]. injection Out as -> ->.
  destruct (task m) as [ph|] eqn:Tm; [|unfold advance in Ad; by rewrite Tm in Ad].
  pose proof (so_tasks _ So p ph (ex_intro _ m (conj M Tm))) as To.
  destruct (reported_by x m m' (tables s) t ph a r Tm To Ca Ad) as [Hok Herr]. destruct r; eauto.
Qed.

End Outside.

(** ** The theorems at two imports of one household *)

#[local] Existing Instance LiveDestinationProofs.feed_env.
#[local] Existing Instance LiveCodecProofs.sample_crypto.
#[local] Existing Instance LiveDestinationProofs.sample_payloads.
#[local] Existing Instance HouseholdOwnerProofs.sample_outside.
#[local] Existing Instance LiveAssignmentsProofs.sample_responses.
#[local] Instance sample_feeds : Feeds :=
  {| resource_json := fun q => Some (Dec.print (q_generation q)); control_json := fun c => Some (Dec.print (c_revision c));
     read_utf8 := Some; gz_member := fun _ => ([], None); xml_reader := LiveGuideProofs.sample_reader |}.

Definition tagged (tag : result string AssignmentError) : Condition := Match (match tag with Ok t => [t] | Err _ => [] end).
Definition tag_at (w : World) : Condition :=
  tagged (match rows w !! 7 with Some a => etag (response 7 a Administrator) | None => Err Unavailable end).
Definition approve_at (t : Z) (field : FeedField) (w : World) : World :=
  perform (minutes t) (Patch (HouseholdOwnerProofs.sample_scope 8) 7 (tag_at w)
    (ApproveDestination field (LiveDestinationProofs.sample_origin +:+ "/") ["::ffff:10.0.0.5"%string]) 0 (Z.to_nat t)) w.
Definition approved : World := approve_at 4 Guide (approve_at 3 Playlist created).
Definition sample_start : System := mk_system (mk_tables approved (Some (mk_control 1 1 true)) ∅ ∅) ∅.

Definition one_channel : string :=
  "#EXTM3U" +:+ Str.bytes [10]%nat +:+ "#EXTINF:-1,One" +:+ Str.bytes [10]%nat
  +:+ feed_url "/proxy/ts/stream/11" +:+ Str.bytes [10]%nat.
Definition sample_turn (n : Z) : Turn :=
  mk_turn (minutes 5) fair (n, n + 10) 1000 (false, false)
    (Read_ one_channel "" LiveCodecProofs.first_work) (Ok tt) (fun _ _ => false) (fun _ _ => true).
Definition sample_request : Request :=
  mk_request (HouseholdOwnerProofs.sample_scope 8) 7
    (match resource 7 (tables sample_start) with
     | Ok q => match json_etag (resource_json q) with Ok t => Match [t] | Err _ => Create end | Err _ => Create end)
    (mk_start 0 0).
Definition import_with (n : Z) : list Event := [Begin 1 sample_request; Step 1 (sample_turn n); Step 1 (sample_turn (n + 1))].
Definition publish_it : Event := Step 1 (sample_turn 85).
Definition play (h : list Event) (s : System) : System := fold_left (fun s e => (happen e s).1) h s.
Definition before_first : System := play (Attach 1 :: import_with 80) sample_start.
Definition before_second : System := play (publish_it :: import_with 82) before_first.

(** No id of a step is in use. *)
Definition unused_b (n : Z) (s : System) : bool :=
  bool_decide (map_Forall (fun _ i => i_attempt i <> n) (imports (tables s))) &&
  bool_decide (map_Forall (fun _ sn => sn_attempt sn <> n) (snapshots (tables s))) &&
  bool_decide (map_Forall (fun _ m => (let! q := task m in let! a := holder q in Some (attempt (receipt_of a))) <> Some n)
                 (managers s)).

Definition fresh_b (e : Event) (s : System) : bool :=
  match e with
  | Serve _ op => bool_decide (drawn_by op = [])
  | Step _ x => unused_b (ids x).1 s
  | _ => true
  end.
Fixpoint fresh_all (h : list Event) (s : System) : bool :=
  match h with [] => true | e :: h => fresh_b e s && fresh_all h (happen e s).1 end.
Lemma fresh_checked (e : Event) (s : System) : fresh_b e s = true -> fresh e s.
Proof.
  destruct e as [|now op| | |p x| | |]; try done; cbn [fresh_b fresh].
  - intros D%bool_decide_eq_true id. rewrite D. intros H. by apply elem_of_nil in H.
  - unfold unused_b. intros H. apply andb_true_iff in H as [H M%bool_decide_eq_true].
    apply andb_true_iff in H as [I%bool_decide_eq_true S%bool_decide_eq_true]. split; [by split|].
    intros p' a (q & (m & Hm & Tm) & Hq) Eq. apply (M p' m Hm). rewrite Tm. cbn. rewrite Hq. cbn. by rewrite Eq.
Qed.
Lemma play_reachable (h : list Event) (s : System) : reachable s -> fresh_all h s = true -> reachable (play h s).
Proof.
  revert s. induction h as [|e h IH]; intros s Re; [done|]. cbn [fresh_all]. intros H. apply andb_true_iff in H as [H1 H2].
  apply IH; [|done]. by apply Then_; [|apply fresh_checked].
Qed.
Lemma approved_distinct : distinct approved.
Proof. apply perform_distinct, perform_distinct, run_distinct, no_assignments_distinct. Qed.
Lemma before_first_reachable : reachable before_first.
Proof. apply play_reachable; [apply At_first, approved_distinct|vm_compute; reflexivity]. Qed.
Lemma before_second_reachable : reachable before_second.
Proof. apply play_reachable; [apply before_first_reachable|vm_compute; reflexivity]. Qed.

Lemma catalogues_advance_witness :
  exists s0 s1, snapshots (tables before_second) !! 90 = Some s0 /\
    snapshots (tables (happen publish_it before_second).1) !! 92 = Some s1 /\
    snapshots (tables (happen publish_it before_second).1) !! 90 = None /\ sn_sequence s0 < sn_sequence s1.
Proof.
  destruct (snapshots (tables before_second) !! 90) as [s0|] eqn:S0; [|vm_compute in S0; discriminate S0].
  destruct (snapshots (tables (happen publish_it before_second).1) !! 92) as [s1|] eqn:S1; [|vm_compute in S1; discriminate S1].
  assert (Fr : fresh publish_it before_second) by (apply fresh_checked; vm_compute; reflexivity).
  destruct (catalogues_advance before_second publish_it 92 s1 before_second_reachable Fr S1) as (_ & _ & [Old|New]).
  { exfalso. vm_compute in Old. discriminate Old. }
  assert (Eq : sn_assignment s0 = sn_assignment s1).
  { vm_compute in S0. injection S0 as <-. vm_compute in S1. injection S1 as <-. reflexivity. }
  destruct (New 90 s0 S0 Eq) as (Gone & Lt & _). exists s0, s1. split; [reflexivity|]. split; [reflexivity|]. split; [exact Gone|exact Lt].
Defined.


Lemma reported_outcomes_are_recorded_witness :
  exists a i, (happen publish_it before_first).2 = Some (1, Finished a (Ok 90)) /\
    imports (tables (happen publish_it before_first).1) !! assignment (receipt_of a) = Some i /\
    current_snapshot i = Some 90.
Proof.
  destruct (happen publish_it before_first).2 as [[p [e|a r]]|] eqn:Out; [vm_compute in Out; discriminate Out| |vm_compute in Out; discriminate Out].
  assert (Fr : fresh publish_it before_first) by (apply fresh_checked; vm_compute; reflexivity).
  assert (R : p = 1 /\ r = Ok 90) by (vm_compute in Out; injection Out as <- <- <-; split; reflexivity).
  destruct R as [-> ->].
  destruct (reported_outcomes_are_recorded before_first publish_it 1 a (Ok 90) before_first_reachable Fr Out)
    as (sn & i & _ & _ & _ & _ & Im & Cur).
  exists a, i. split; [reflexivity|]. split; [exact Im|exact Cur].
Defined.

End LiveRefreshProofs.
