(* ===== verification/LiveViewing.v ===== *)
(** * What a profile is shown

    domains/live_tv/catalog/{admission,authority,database,service}.rs with the
    capabilities of domains/auth/service.rs: who may read the catalogue of a
    household, and a read over the tables that imports publish to.  A read is one
    transaction that holds the rows it looks at and is rolled back; how it ends is an
    input. *)

From stdpp Require Import gmap strings.
From S2P Require Import Prelude Json HouseholdOwner LiveImport LiveCodec LiveCatalog.
From S2P Require Import LiveDestination LiveAssignments LiveRefresh.
Import LiveImport LiveCodec LiveAssignments LiveRefresh.

Module LiveViewing.
#[local] Existing Instance LiveDestination.Fence_eq_dec.

Abbreviation Scope := HouseholdOwner.Scope.
Abbreviation CatalogError := LiveCatalog.CatalogError.
Abbreviation Budget := LiveCatalog.Budget.
Abbreviation Viewing := LiveCatalog.Viewing.

(** ** auth/service.rs: capabilities *)

Definition ALL_CAPABILITIES : list string :=
  ["play_media"; "can_transcode"; "can_download"; "can_delete_media"; "can_manage_libraries";
   "can_manage_users"; "can_view_analytics"; "can_manage_server"; "can_manage_scheduled_tasks";
   "can_use_live_tv"; "can_share_content"; "can_remote_control"]%string.
Definition role_default_capabilities (role : string) : list string :=
  if String.eqb role "admin" then
    ["play_media"; "can_transcode"; "can_download"; "can_delete_media"; "can_manage_libraries";
     "can_manage_users"; "can_view_analytics"; "can_manage_server"; "can_manage_scheduled_tasks";
     "can_share_content"; "can_remote_control"]%string
  else if String.eqb role "member" then ["play_media"; "can_download"; "can_share_content"]%string
  else if String.eqb role "guest" then ["play_media"%string]
  else [].

(** One row of user_capabilities *)
Definition apply_capability (capabilities : list string) (row : string * bool) : list string :=
  let '(capability, granted) := row in
  if granted && negb (existsb (String.eqb capability) capabilities) then capabilities ++ [capability]
  else if negb granted then List.filter (fun current => negb (String.eqb current capability)) capabilities
  else capabilities.
(** [resolve_capabilities_on_connection]; an account has one row for a capability. *)
Definition resolve_capabilities (u : Z) (role : string) (d : HouseholdOwner.Db) : list string :=
  if String.eqb role "owner" then ALL_CAPABILITIES
  else
    let rows := omap (fun p => if p.1.1 =? u then Some (p.1.2, p.2) else None)
                  (map_to_list (HouseholdOwner.capabilities d)) in
    match rows with
    | [] => role_default_capabilities role
    | _ => fold_left apply_capability rows (role_default_capabilities role)
    end.

(** ** catalog/admission.rs: the semaphore of the reads *)

Record CatalogReads := mk_reads { slots : nat; reads_closed : bool }.
Definition reads_default : CatalogReads := mk_reads 4 false.
Definition close_reads (r : CatalogReads) : CatalogReads := mk_reads (slots r) true.
Definition admit_read (r : CatalogReads) : result CatalogReads CatalogError :=
  if reads_closed r then Err LiveCatalog.Unavailable
  else match slots r with S n => Ok (mk_reads n false) | O => Err LiveCatalog.Unavailable end.

Section Outside.
Context {E : Env} {C : Crypto} {J : LiveDestination.Payloads} {W : LiveCatalog.Wire} {K : LiveCatalog.Clock}.

(** ** catalog/authority.rs *)

Definition HOUR : Z := 60 * HouseholdOwner.MINUTE.
(** [num_hours] drops the fraction. *)
Definition idle_over (now last hours : Z) : bool := (0 <? hours) && (hours <=? Z.quot (now - last) HOUR).

(** [session]; [last_active] is the column of that name. *)
Definition session (now : Z) (idle : option Z) (last_active : Z -> Z) (actor : Scope) (expected : option Z)
    (d : HouseholdOwner.Db) : result Z CatalogError :=
  let? row := ok_or (HouseholdOwner.sessions d !! HouseholdOwner.session actor) LiveCatalog.Session in
  if negb (HouseholdOwner.s_user row =? HouseholdOwner.user actor) then Err LiveCatalog.Session
  else if negb (HouseholdOwner.credential_version row =? HouseholdOwner.version actor)
          || (HouseholdOwner.s_expires row <=? now)
          || is_some_and idle (idle_over now (last_active (HouseholdOwner.session actor)))
  then Err LiveCatalog.Session
  else if HouseholdOwner.selection_required row then Err LiveCatalog.Forbidden
  else if negb (HouseholdOwner.active_profile row =? HouseholdOwner.profile actor)
          || is_some_and expected (fun revision => negb (revision =? HouseholdOwner.context_revision row))
  then Err LiveCatalog.Changed
  else if HouseholdOwner.context_revision row <=? 0 then Err LiveCatalog.Unavailable
  else Ok (HouseholdOwner.context_revision row).

(** One round of the loop over the feeds: its first address still decodes. *)
Definition feed_approved (u : Z) (a : Assignment) (field : LiveDestination.FeedField) (b : Budget)
  : result Budget CatalogError :=
  let f := feed_of field a in
  let? b := LiveCatalog.cipher (Str.len (secret f) + opt_len (destination f)) b in
  let? b := LiveCatalog.plain 8192 b in
  let? src := ok_or (LiveDestination.decode (feed_row field a) u field 0) LiveCatalog.Unavailable in
  if negb (bool_decide (LiveDestination.s_fence src =
             LiveDestination.mk_fence u (a_id a) (LiveAssignments.generation a)))
  then Err LiveCatalog.Unavailable else Ok b.

(** [viewing] *)
Definition viewing (now : Z) (idle : option Z) (last_active : Z -> Z) (actor : Scope) (b : Budget) (w : World)
  : result (Viewing * Budget) CatalogError :=
  let d := household w in
  let u := HouseholdOwner.user actor in
  let? usr := ok_or (HouseholdOwner.users d !! u) LiveCatalog.Session in
  if negb (HouseholdOwner.active usr) then Err LiveCatalog.Forbidden
  else if negb (is_some_and (HouseholdOwner.profiles d !! HouseholdOwner.profile actor) (fun p =>
            (HouseholdOwner.owner_user_id p =? u) && String.eqb (HouseholdOwner.profile_type p) "standard"))
  then Err LiveCatalog.Forbidden
  else
    let? profile_revision := session now idle last_active actor None d in
    if negb (existsb (fun capability => String.eqb capability "can_use_live_tv")
               (resolve_capabilities u (HouseholdOwner.role usr) d))
    then Err LiveCatalog.Forbidden
    else
      let? a := ok_or (rows w !! u) LiveCatalog.Forbidden in
      if negb (enabled (policy a)) || negb (is_some_b (destination (playlist a)) && is_some_b (destination (guide a)))
         || negb (unwrap_or (access w !! (a_id a, HouseholdOwner.profile actor)) false)
      then Err LiveCatalog.Forbidden
      else
        let? b := feed_approved u a LiveDestination.Playlist b in
        let? b := feed_approved u a LiveDestination.Guide b in
        Ok (LiveCatalog.mk_viewing u (HouseholdOwner.session actor) (HouseholdOwner.profile actor)
              (HouseholdOwner.version actor) profile_revision (revision a) (a_id a)
              (LiveAssignments.generation a), b).

(** ** What the queries of the reader find in the tables of the imports *)

Definition state_text (s : ImportPhase) : string :=
  match s with
  | Running => "running"
  | Succeeded => "succeeded"
  | Failed => "failed"
  | Uncertain => "indeterminate"
  end.
Definition catalogue (u id : Z) (t : Tables) : LiveCatalog.Tables :=
  let row :=
    let! i := imports t !! id in
    let! n := current_snapshot i in
    let! s := snapshots t !! n in
    let c := sn_candidate s in
    let count {A} (l : list A) := Z.of_nat (length l) in
    if (sn_assignment s =? id) && (sn_user s =? u)
    then Some (LiveCatalog.mk_snapshot_row n (sn_generation s) (sn_attempt s) (sn_sequence s) (sn_imported_at s)
                 (manifest c) (count (cand_channels c)) (count (cand_guides c)) (count (cand_programmes c))
                 (state_text (i_state i)) (i_category i))
    else None in
  let rows_of (f : Candidate -> list SealedRow) n :=
    match snapshots t !! n with Some s => f (sn_candidate s) | None => [] end in
  LiveCatalog.mk_tables row (rows_of cand_guides) (rows_of cand_channels) (rows_of cand_programmes).

(** ** catalog/database.rs and [read] of service.rs *)

(** A lease is acquired, its transaction begun, the deadline met, the lease released. *)
Record Lease := mk_lease { acquired : bool; opened : bool; met : bool; released : bool }.

(** The reads in use, and the clock at the beginning and at the end *)
Record Reading := mk_reading {
  reads_now : CatalogReads;
  lease : Lease;
  began : Z;
  ended_at : Z;
  idle_hours : option Z;
  last_active_at : Z -> Z;
}.

Definition read {A} (x : Reading) (actor : Scope) (work : Viewing -> Budget -> result (A * Budget) CatalogError)
    (t : Tables) : result A CatalogError :=
  let? _ := admit_read (reads_now x) in
  if negb (acquired (lease x)) then Err LiveCatalog.Unavailable
  else
    let outcome :=
      if negb (opened (lease x)) || negb (met (lease x)) then Err LiveCatalog.Unavailable
      else
        let? (view, b) :=
          viewing (began x) (idle_hours x) (last_active_at x) actor LiveCatalog.budget_new (world t) in
        let? (bytes, b) := work view b in
        let? _ := session (ended_at x) (idle_hours x) (last_active_at x) actor
                    (Some (LiveCatalog.v_profile_revision view)) (household (world t)) in
        let? _ := LiveCatalog.budget_check b in
        Ok bytes in
    if released (lease x) then outcome else Err LiveCatalog.Unavailable.

(** [channels] and [programmes]; [text] are the pieces in which serde_json writes the
    response. *)
Definition channels (x : Reading) (actor : Scope) (n : nat) (limit : option Z) (cursor : option string)
    (text : LiveCatalog.Page LiveCatalog.ChannelEntry -> list string) (t : Tables)
  : result (LiveCatalog.Page LiveCatalog.ChannelEntry) CatalogError :=
  let? _ := LiveCatalog.limit_of limit in
  let? _ := LiveCatalog.cursor_of cursor in
  read x actor (fun view b =>
    let tables := catalogue (LiveCatalog.v_user view) (LiveCatalog.v_assignment view) t in
    let? (page, b) := LiveCatalog.channels_page tables view b n limit cursor in
    let? (_, b) := LiveCatalog.serialize (text page) b in
    Ok (page, b)) t.

Record ProgrammeRead := mk_programme_read {
  channel : Z;
  asked_snapshot : Z;
  window : option LiveCatalog.Window;
  limit : option Z;
  cursor : option string;
}.
Definition programmes (x : Reading) (actor : Scope) (n : nat) (request : ProgrammeRead)
    (text : LiveCatalog.Page LiveCatalog.ProgrammeEntry -> list string) (t : Tables)
  : result (LiveCatalog.Page LiveCatalog.ProgrammeEntry) CatalogError :=
  let? _ := LiveCatalog.id_of (channel request) in
  let? _ := LiveCatalog.id_of (asked_snapshot request) in
  let? _ := LiveCatalog.limit_of (limit request) in
  let? _ := LiveCatalog.cursor_of (cursor request) in
  read x actor (fun view b =>
    let tables := catalogue (LiveCatalog.v_user view) (LiveCatalog.v_assignment view) t in
    let? (page, b) := LiveCatalog.programmes_page tables view b n (channel request) (asked_snapshot request)
                        (window request) (limit request) (cursor request) in
    let? (_, b) := LiveCatalog.serialize (text page) b in
    Ok (page, b)) t.

End Outside.

End LiveViewing.
