(* ===== verification/LiveViewingProofs.v ===== *)
(** * Theorems on what profiles are shown

    The end of the pipeline: a profile that may watch reads rows that were parsed from
    the feeds its household has at that moment, with the addresses that are approved
    at that moment. *)

From stdpp Require Import gmap strings sorting.
From S2P Require Import Prelude Json HouseholdOwner HouseholdOwnerProofs LiveImport LiveGuide LiveGuideProofs.
From S2P Require Import LiveCodec LiveCodecProofs LiveCatalog LiveCatalogProofs LiveDestination.
From S2P Require Import LiveDestinationProofs LiveAssignments LiveAssignmentsProofs LiveRefresh.
From S2P Require Import LiveRefreshProofs LiveViewing.
Import LiveImport LiveCodec LiveAssignments LiveAssignmentsProofs LiveRefresh LiveRefreshProofs LiveViewing.

Module LiveViewingProofs.

(** ** What the reader returns *)

Section Reader.
Context {E : Env} {C : Crypto} {W : LiveCatalog.Wire}.




End Reader.

Section Outside.
Context {E : Env} {C : Crypto} {J : LiveDestination.Payloads} {O : HouseholdOwner.Outside} {R : Responses} {F : Feeds}.

(** ** Where a catalogue is from *)





(** ** Who may read *)

Context {W : LiveCatalog.Wire}.







(** ** The theorem *)


End Outside.

(** ** The theorem at a profile of the household whose feeds were imported *)

#[local] Existing Instance LiveDestinationProofs.feed_env.
#[local] Existing Instance LiveCodecProofs.sample_crypto.
#[local] Existing Instance LiveDestinationProofs.sample_payloads.
#[local] Existing Instance HouseholdOwnerProofs.sample_outside.
#[local] Existing Instance LiveAssignmentsProofs.sample_responses.
#[local] Existing Instance LiveRefreshProofs.sample_feeds.


Definition imported_receipt : Receipt :=
  mk_receipt 7 70 3 (LiveCatalogProofs.id7 80) 1 (LiveCatalogProofs.id7 90) 1000.
#[local] Instance watching_wire : LiveCatalog.Wire :=
  {| LiveCatalog.envelope_to := fun _ => None; LiveCatalog.envelope_of := fun _ => None;
     LiveCatalog.value_of := fun _ => Some (manifest_of imported_receipt 1 0 0);
     LiveCatalog.channel_metadata := fun _ => Some (LiveCatalog.mk_channel_metadata "One" None None None);
     LiveCatalog.guide_metadata := fun _ => None; LiveCatalog.programme_metadata := fun _ => None |}.




End LiveViewingProofs.
