(* ===== verification/LiveTransport.v ===== *)
(** * The transport of a live channel

    domains/live_tv/transport/{error,source,playlist,cache,pump,arguments,worker,
    owner}.rs: one session at a time reads a stream of an approved address, passes
    it to FFmpeg and offers the segments FFmpeg writes to a directory of its own.

    What another party does enters as what is found of it: the answer of the
    server, the entries of the directory, how far a write to the process came,
    whether the process could be ended and the directory removed.  The tasks of
    the process-wide owner, the calls of their sessions and the readers of their
    output are interleaved between two [await]s; the first ready branch of a
    [biased] selection is the one taken, so nothing but the cancellation follows
    once a token is cancelled.  The code for Linux is modelled. *)

From S2P Require Import Prelude F64 BitReader CodecBytes Readiness SubtitlesProofs Ip.
Import BitReader CodecBytes Ip.

Module LiveTransport.

Inductive TransportError :=
| Destination | Connection | Response | Ended | Input | Deadline | Cancelled | Capacity | Worker | Cache
| Unavailable | Cleanup.
#[export] Instance TransportError_eq_dec : EqDecision TransportError.
Proof. solve_decision. Defined.

Definition Outcome : Type := result unit TransportError.
#[export] Instance Outcome_eq_dec : EqDecision Outcome.
Proof. intros a b. refine (match a, b with
  | Ok tt, Ok tt => left eq_refl
  | Err e, Err f => cast_if (decide (e = f))
  | _, _ => right _ end); congruence. Defined.

(** ** source.rs: [Source::open] *)

(** What is read of an answer *)
Record Reply := mk_reply {
  peer : option (IpAddr * Z);
  status_code : Z;
  content_type : option string;
  content_encoding : option string }.

(** How sending the request ends *)
Inductive Sent := Build_failed | Sent_cancelled | Sent_late | Sent_failed | Replied (r : Reply).

Definition media_type (r : Reply) : string :=
  match content_type r with
  | Some v => Str.trim (match Str.split ";" v with kind :: _ => kind | [] => EmptyString end)
  | None => EmptyString
  end.

Definition same_peer (destination p : IpAddr * Z) : bool :=
  bool_decide (to_canonical p.1 = to_canonical destination.1) && (p.2 =? destination.2).

Definition open (destination : IpAddr * Z) (s : Sent) : Outcome :=
  match s with
  | Build_failed => Err Connection
  | Sent_cancelled => Err Cancelled
  | Sent_late => Err Deadline
  | Sent_failed => Err Connection
  | Replied r =>
      let? p := ok_or (peer r) Connection in
      if negb (same_peer destination p) || negb (status_code r =? 200) then Err Response
      else if negb (Str.eq_ignore_case (media_type r) "video/mp2t"
                    || Str.eq_ignore_case (media_type r) "application/octet-stream")
              || is_some_and (content_encoding r) (fun v => negb (String.eqb v "identity"))
      then Err Response else Ok tt
  end.

(** ** playlist.rs *)

Record Playlist := mk_playlist { sequence : Z; segments : list string }.

Definition segment (name : string) : bool :=
  is_some_and (match Str.strip_prefix "seg_" name with
               | Some s => Str.strip_suffix ".m4s" s
               | None => None
               end)
    (fun s => (Str.len s =? 8) && Str.all Str.is_digit s).

(** The variables of the loop *)
Record Reading := mk_reading {
  r_sequence : option Z; r_target : bool; r_map : bool; r_independent : bool; r_pending : bool;
  r_segments : list string }.

Definition MAP_LINE : string := "#EXT-X-MAP:URI=" +:+ Readiness.quote +:+ "init.mp4" +:+ Readiness.quote.

Definition duration_ok (value : string) : bool :=
  is_some_and (match Str.strip_suffix "," value with Some s => F64.parse s | None => None end)
    (fun d => F64.is_finite d && F64.ltb F64.zero d && F64.leb d (F64.of_Z 4)).

Definition read_line (line : string) (p : Reading) : result Reading TransportError :=
  if 256 <? Str.len line then Err Cache
  else match Str.strip_prefix "#EXT-X-MEDIA-SEQUENCE:" line with
  | Some value =>
      if is_some_b (r_sequence p) then Err Cache
      else
        let? n := ok_or (Dec.parse_unsigned u64_max value) Cache in
        Ok (mk_reading (Some n) (r_target p) (r_map p) (r_independent p) (r_pending p) (r_segments p))
  | None =>
  match Str.strip_prefix "#EXT-X-TARGETDURATION:" line with
  | Some value =>
      if r_target p || negb (is_some_and (Dec.parse_unsigned u32_max value) (fun n => (1 <=? n) && (n <=? 4)))
      then Err Cache
      else Ok (mk_reading (r_sequence p) true (r_map p) (r_independent p) (r_pending p) (r_segments p))
  | None =>
  if String.eqb line MAP_LINE then
    if r_map p then Err Cache
    else Ok (mk_reading (r_sequence p) (r_target p) true (r_independent p) (r_pending p) (r_segments p))
  else if String.eqb line "#EXT-X-INDEPENDENT-SEGMENTS" then
    Ok (mk_reading (r_sequence p) (r_target p) (r_map p) true (r_pending p) (r_segments p))
  else
  match Str.strip_prefix "#EXTINF:" line with
  | Some value =>
      if r_pending p || negb (duration_ok value) then Err Cache
      else Ok (mk_reading (r_sequence p) (r_target p) (r_map p) (r_independent p) true (r_segments p))
  | None =>
  if Str.starts_with "#EXT-X-VERSION:" line || Str.is_empty line then Ok p
  else if segment line && r_pending p && negb (existsb (fun s => String.eqb s line) (r_segments p)) then
    Ok (mk_reading (r_sequence p) (r_target p) (r_map p) (r_independent p) false (r_segments p ++ [line]))
  else Err Cache
  end end end.

Fixpoint read_lines (lines : list string) (p : Reading) : result Reading TransportError :=
  match lines with
  | [] => Ok p
  | line :: lines => let? p := read_line line p in read_lines lines p
  end.

Definition nothing_read : Reading := mk_reading None false false false false [].

(** What follows the loop *)
Definition read_end (p : Reading) : result (option Playlist) TransportError :=
  if 15 <? Z.of_nat (length (r_segments p)) then Err Cache
  else if r_pending p || negb (r_target p) || negb (r_map p) || negb (r_independent p)
          || (Z.of_nat (length (r_segments p)) <? 2)
  then Ok None
  else let? n := ok_or (r_sequence p) Cache in Ok (Some (mk_playlist n (r_segments p))).

Definition parse (text : string) : result (option Playlist) TransportError :=
  if negb (Str.ends_with (String Str.lf EmptyString) text) then Ok None
  else match Str.lines text with
  | first :: lines =>
      if negb (String.eqb first "#EXTM3U") then Err Cache
      else let? p := read_lines lines nothing_read in read_end p
  | [] => Err Cache
  end.

(** ** cache.rs *)

Definition CACHE_BYTES : Z := 32 * 1024 * 1024.
Definition CACHE_FILES : Z := 24.
Definition FILE_BYTES : Z := 4 * 1024 * 1024.

(** What [symlink_metadata] finds of an entry *)
Inductive Looked := Found (file symlink : bool) (size : Z) | Vanished | Look_failed.

(** A directory as it is read: [None] when it cannot be opened; an entry is [None]
    when reading stops with an error, and its name is when it is not UTF-8. *)
Definition Listing : Type := option (list (option (option string * Looked))).

Definition plain (name : string) : string := unwrap_or (Str.strip_suffix ".tmp" name) name.
Definition known (name : string) : bool :=
  String.eqb (plain name) "init.mp4" || String.eqb (plain name) "manifest.m3u8" || segment (plain name).

Fixpoint account_loop (entries : list (option (option string * Looked))) (bytes files : Z)
  : result (Z * Z) TransportError :=
  match entries with
  | [] => Ok (bytes, files)
  | None :: _ => Err Cache
  | Some (None, _) :: _ => Err Cache
  | Some (Some name, looked) :: entries =>
      if negb (known name) then Err Cache
      else match looked with
      | Vanished => account_loop entries bytes files
      | Look_failed => Err Cache
      | Found file symlink size =>
          if negb file || symlink || (FILE_BYTES <? size) then Err Cache
          else
            let? bytes := ok_or (checked_add64 bytes size) Cache in
            if (CACHE_FILES <? files + 1) || (CACHE_BYTES <? bytes) then Err Cache
            else account_loop entries bytes (files + 1)
      end
  end.

Definition account (l : Listing) : result (Z * Z) TransportError :=
  let? entries := ok_or l Cache in account_loop entries 0 0.

(** How opening a name ends: an opened file is regular or not, and has a content
    or cannot be read. *)
Inductive Opened := Open_failed | Stat_failed | Opened_as (file : bool) (content : option Bytes).

Definition read_limit (name : string) : option Z :=
  if String.eqb name "manifest.m3u8" then Some 32768
  else if String.eqb name "init.mp4" || segment name then Some FILE_BYTES else None.

Definition read_file (name : string) (o : Opened) : result Bytes TransportError :=
  let? limit := ok_or (read_limit name) Unavailable in
  match o with
  | Open_failed => Err Unavailable
  | Stat_failed => Err Cache
  | Opened_as file content =>
      if negb file then Err Cache
      else
        let? bytes := ok_or content Cache in
        let bytes := take (Z.to_nat (limit + 1)) bytes in
        if limit <? blen bytes then Err Cache else Ok bytes
  end.

Record Snapshot := mk_snapshot { s_sequence : Z; s_segments : list string; s_bytes : Z; s_files : Z }.

(** What one inspection finds; the files of the segments as in [Readiness]. *)
Record Look := mk_look { listing : Listing; manifest : Opened; assets : Readiness.Cache }.

Fixpoint all_complete (c : Readiness.Cache) (l : list (string * Readiness.Asset)) : result bool TransportError :=
  match l with
  | [] => Ok true
  | (name, asset) :: l =>
      match Readiness.asset_complete c name asset with
      | Err _ => Err Cache
      | Ok false => Ok false
      | Ok true => all_complete c l
      end
  end.

Section Decoding.
(** [str::from_utf8] *)
Context (from_utf8 : Bytes -> option string).

Definition inspect (x : Look) : result (option Snapshot) TransportError :=
  let? (bytes, files) := account (listing x) in
  match read_file "manifest.m3u8" (manifest x) with
  | Err Unavailable => Ok None
  | Err e => Err e
  | Ok content =>
      let? text := ok_or (from_utf8 content) Cache in
      let? parsed := parse text in
      match parsed with
      | None => Ok None
      | Some p =>
          let n := length (segments p) in
          let? complete := all_complete (assets x)
            [("init.mp4"%string, Readiness.Initialization);
             (nth (n - 2) (segments p) EmptyString, Readiness.Fragment);
             (nth (n - 1) (segments p) EmptyString, Readiness.Fragment)] in
          Ok (if complete then Some (mk_snapshot (sequence p) (segments p) bytes files) else None)
      end
  end.

(** [Output::snapshot] and [Output::read], with what [active] is at each look *)
Definition snapshot (active : bool) (x : Look) : result Snapshot TransportError :=
  if negb active then Err Unavailable
  else let? found := inspect x in ok_or found Unavailable.

End Decoding.

Definition read (before : bool) (name : string) (o : Opened) (after : bool) : result Bytes TransportError :=
  if negb before then Err Unavailable
  else
    let? bytes := read_file name o in
    if negb after then Err Unavailable else Ok bytes.

(** ** pump.rs *)

Definition PREFIX : nat := 564.
Definition CHUNK_BYTES : Z := 1024 * 1024.

Inductive Arrival := Arrival_cancelled | Arrival_failed | Arrival_end | Chunk (b : Bytes).

(** How a write to the process ends: all of it, or a part when it is cancelled,
    takes more than five seconds or fails. *)
Inductive Write := Whole | Cut (part : nat) (e : TransportError).
Definition cut_by (e : TransportError) : bool :=
  match e with Cancelled | Deadline | Worker => true | _ => false end.

(** [written]: what the process was given so far *)
Record Pump := mk_pump { prefix : Bytes; validated : bool; written : Bytes }.
Definition new_pump : Pump := mk_pump [] false [].

Definition write (p : Pump) (b : Bytes) (w : Write) : Pump * Outcome :=
  match w with
  | Whole => (mk_pump (prefix p) (validated p) (written p ++ b), Ok tt)
  | Cut part e => (mk_pump (prefix p) (validated p) (written p ++ take part b), Err e)
  end.

Definition SYNC_PLACES : list nat := [0; 188; 376]%nat.
Definition synced (b : Bytes) : bool := forallb (fun i => nth i b 0 =? 0x47) SYNC_PLACES.

(** A chunk after the check of its size: [w1] and [w2] are the ends of the write of
    the prefix and of the rest. *)
Definition feed (p : Pump) (chunk : Bytes) (w1 w2 : Write) : Pump * Outcome :=
  if validated p then write p chunk w2
  else
    let n := Nat.min (PREFIX - length (prefix p)) (length chunk) in
    let p := mk_pump (prefix p ++ take n chunk) false (written p) in
    if negb (length (prefix p) =? PREFIX)%nat then (p, Ok tt)
    else if negb (synced (prefix p)) then (p, Err Input)
    else match write p (prefix p) w1 with
         | (p, Ok _) => write (mk_pump (prefix p) true (written p)) (drop n chunk) w2
         | (p, Err e) => (p, Err e)
         end.

(** One turn of the loop *)
Definition turn (p : Pump) (a : Arrival) (w1 w2 : Write) : Pump * Outcome :=
  match a with
  | Arrival_cancelled => (p, Err Cancelled)
  | Arrival_failed => (p, Err Connection)
  | Arrival_end => (p, Err Ended)
  | Chunk b => if CHUNK_BYTES <? blen b then (p, Err Input) else feed p b w1 w2
  end.

(** [run]: the turns until one fails *)
Fixpoint run (p : Pump) (events : list (Arrival * Write * Write)) : Pump * option TransportError :=
  match events with
  | [] => (p, None)
  | (a, w1, w2) :: events =>
      match turn p a w1 w2 with
      | (p, Ok _) => run p events
      | (p, Err e) => (p, Some e)
      end
  end.

Definition arrived (events : list (Arrival * Write * Write)) : Bytes :=
  concat (map (fun e => match e.1.1 with Chunk b => b | _ => [] end) events).

(** ** arguments.rs *)

(** [Path::join] of a directory and a name, both UTF-8 *)
Definition join (directory name : string) : string :=
  if Str.is_empty directory || Str.ends_with "/" directory then directory +:+ name
  else directory +:+ "/" +:+ name.

Definition FIXED_ARGUMENTS : list string :=
  ["-nostdin"; "-hide_banner"; "-loglevel"; "error"; "-nostats"; "-y"; "-threads"; "2"; "-filter_threads"; "1";
   "-filter_complex_threads"; "1"; "-protocol_whitelist"; "pipe"; "-format_whitelist"; "mpegts"; "-f"; "mpegts";
   "-i"; "pipe:0"; "-map"; "0:v:0"; "-map"; "0:a:0"; "-sn"; "-dn"; "-map_metadata"; "-1"; "-c:v"; "libx264";
   "-preset"; "ultrafast"; "-pix_fmt"; "yuv420p"; "-threads:v"; "2"; "-vf";
   "scale=640:360:force_original_aspect_ratio=decrease:force_divisible_by=2,setsar=1,fps=30";
   "-b:v"; "1500k"; "-maxrate"; "1800k"; "-bufsize"; "3600k"; "-g"; "60"; "-keyint_min"; "60";
   "-sc_threshold"; "0"; "-flags"; "+cgop"; "-c:a"; "aac"; "-b:a"; "128k"; "-ac"; "2"; "-ar"; "48000";
   "-f"; "hls"; "-hls_time"; "2"; "-hls_list_size"; "15"; "-hls_delete_threshold"; "2";
   "-hls_segment_type"; "fmp4"; "-hls_fmp4_init_filename"; "init.mp4"; "-hls_flags";
   "delete_segments+temp_file+independent_segments+omit_endlist"; "-hls_segment_filename"]%string.

Definition build (directory : string) : list string :=
  FIXED_ARGUMENTS ++ [join directory "seg_%08d.m4s"; join directory "manifest.m3u8"].

(** ** worker.rs: the loop that watches the output, in milliseconds *)

Record Watch := mk_watch { startup : Z; pid : Z; ready : bool; progress : Z; last_segment : option string }.

(** What is done with an inspection made at [t1], up to the checks at [t2] *)
Definition poll (found : result (option Snapshot) TransportError) (t1 t2 : Z) (w : Watch) : Watch * Outcome :=
  match found with
  | Err e => (w, Err e)
  | Ok found =>
      let w := match found with
               | None => w
               | Some s =>
                   let newest := last (s_segments s) in
                   if bool_decide (last_segment w = newest)
                   then mk_watch (startup w) (pid w) true (progress w) (last_segment w)
                   else mk_watch (startup w) (pid w) true t1 newest
               end in
      (w, if (negb (ready w) && (startup w <=? t2)) || (ready w && (5000 <? t2 - progress w))
          then Err Deadline else Ok tt)
  end.

(** [run] and [start] turn a cancellation into success. *)
Definition settle (r : Outcome) : Outcome := match r with Err Cancelled => Ok tt | _ => r end.

(** ** owner.rs: the task of a session *)

Inductive Status := Starting | Ready (pid : Z) | Finished (r : Outcome).

Inductive Phase :=
| Creating
| Opening (startup : Z)
| Readying (startup pid : Z)
| Watching (w : Watch)
| Inspecting (w : Watch)
| Terminating (r : Outcome)
| Joining (r : Outcome)
| Removing (r : Outcome)
| Retrying (r : Outcome)
| Releasing (r : Outcome)
| Reporting (r : Outcome)
| Ending
| Done
| Lost.

(** The task of the pump, as the worker holds it *)
Inductive Pumps := No_pump | Pumping (p : Pump) | Pumped (e : TransportError) | Pump_lost.

(** [alive], [cache], [permit]: the process runs, the directory is there, the permit
    is held; [active]: the flag of the output; [status], [version]: the channel. *)
Record Task := mk_task {
  phase : Phase; destination : IpAddr * Z; alive : bool; pump : Pumps; cache : bool; active : bool;
  cancelled : bool; permit : bool; status : Status; version : nat }.

Definition with_phase (p : Phase) (t : Task) : Task :=
  mk_task p (destination t) (alive t) (pump t) (cache t) (active t) (cancelled t) (permit t) (status t) (version t).
Definition with_alive (b : bool) (t : Task) : Task :=
  mk_task (phase t) (destination t) b (pump t) (cache t) (active t) (cancelled t) (permit t) (status t) (version t).
Definition with_pump (p : Pumps) (t : Task) : Task :=
  mk_task (phase t) (destination t) (alive t) p (cache t) (active t) (cancelled t) (permit t) (status t) (version t).
Definition with_cache (b : bool) (t : Task) : Task :=
  mk_task (phase t) (destination t) (alive t) (pump t) b (active t) (cancelled t) (permit t) (status t) (version t).
Definition with_active (b : bool) (t : Task) : Task :=
  mk_task (phase t) (destination t) (alive t) (pump t) (cache t) b (cancelled t) (permit t) (status t) (version t).
Definition cancel (t : Task) : Task :=
  mk_task (phase t) (destination t) (alive t) (pump t) (cache t) (active t) true (permit t) (status t) (version t).
Definition drop_permit (t : Task) : Task :=
  mk_task (phase t) (destination t) (alive t) (pump t) (cache t) (active t) (cancelled t) false (status t) (version t).
(** [send_replace] *)
Definition send (s : Status) (t : Task) : Task :=
  mk_task (phase t) (destination t) (alive t) (pump t) (cache t) (active t) (cancelled t) (permit t) s (S (version t)).

(** The task that [start] spawns; a child of a cancelled token is cancelled. *)
Definition spawned (destination : IpAddr * Z) (cancelled : bool) : Task :=
  mk_task Creating destination false No_pump false false cancelled true Starting 0.

(** The process, when it is spawned, with or without an open standard input *)
Inductive Spawn := Not_spawned | No_pid | Spawned (pid : Z) (stdin : bool).

(** What follows the loop up to the termination of the process *)
Definition leave (r : Outcome) (t : Task) : Task := with_phase (Terminating r) (cancel (with_active false t)).

Definition spawn (startup : Z) (s : Spawn) (t : Task) : Task :=
  match s with
  | Not_spawned | No_pid => with_phase (Removing (Err Worker)) t
  | Spawned _ false => leave (Err Worker) (with_alive true t)
  | Spawned pid true => with_phase (Readying startup pid) (with_pump (Pumping new_pump) (with_alive true t))
  end.

(** How the wait for the sandbox ends *)
Inductive Waited := Wait_late | Wait_failed | Wait_ready (now : Z).

Definition waited (startup pid : Z) (x : Waited) (t : Task) : Task :=
  match x with
  | Wait_late => leave (Err Deadline) t
  | Wait_failed => leave (Err Worker) t
  | Wait_ready now => with_phase (Watching (mk_watch startup pid false now None)) t
  end.

Definition announce (w : Watch) (t : Task) : Task := send (Ready (pid w)) (with_active true t).

Definition polled (w : Watch) (next : Watch * Outcome) (t : Task) : Task :=
  let t := if ready next.1 && negb (ready w) then announce next.1 t else t in
  match next.2 with
  | Ok _ => with_phase (Watching next.1) t
  | Err e => leave (Err e) t
  end.

Definition terminated (r : Outcome) (t : Task) : Task :=
  with_phase (match pump t with No_pump => Removing (settle r) | _ => Joining r end) (with_alive false t).

(** [remove] and what follows it *)
Definition removed (r : Outcome) (t : Task) : Task :=
  with_phase (Releasing (settle r)) (with_cache false (with_active false t)).

Definition awaits (p : Phase) : bool :=
  match p with Releasing _ | Reporting _ | Ending | Done | Lost => false | _ => true end.

Section Steps.
Context (from_utf8 : Bytes -> option string).

Inductive work (t : Task) : Task -> Prop :=
| w_created now :
    phase t = Creating -> work t (with_phase (Opening (now + 15000)) (with_cache true t))
| w_not_created : phase t = Creating -> work t (with_phase (Releasing (Err Cache)) t)
| w_refused startup s e :
    phase t = Opening startup -> open (destination t) s = Err e ->
    (cancelled t = true -> s = Sent_cancelled \/ s = Build_failed) -> (s = Sent_cancelled -> cancelled t = true) ->
    work t (with_phase (Removing (Err e)) t)
| w_opened startup s x :
    phase t = Opening startup -> open (destination t) s = Ok tt -> cancelled t = false ->
    work t (spawn startup x t)
| w_waiting_cancelled startup pid :
    phase t = Readying startup pid -> cancelled t = true -> work t (leave (Err Cancelled) t)
| w_waited startup pid x :
    phase t = Readying startup pid -> cancelled t = false -> work t (waited startup pid x t)
| w_cancelled w : phase t = Watching w -> cancelled t = true -> work t (leave (Err Cancelled) t)
| w_input_ended w e :
    phase t = Watching w -> cancelled t = false -> pump t = Pumped e ->
    work t (leave (Err e) (with_pump No_pump t))
| w_input_lost w :
    phase t = Watching w -> cancelled t = false -> pump t = Pump_lost ->
    work t (leave (Err Worker) (with_pump No_pump t))
| w_exited w : phase t = Watching w -> cancelled t = false -> work t (leave (Err Worker) t)
| w_slept w : phase t = Watching w -> cancelled t = false -> work t (with_phase (Inspecting w) t)
| w_inspected w x t1 t2 :
    phase t = Inspecting w -> t1 <= t2 -> work t (polled w (poll (inspect from_utf8 x) t1 t2 w) t)
| w_terminated r (ok : bool) :
    phase t = Terminating r -> work t (if ok then terminated r t else t)
| w_joined r e :
    phase t = Joining r -> pump t = Pumped e -> work t (with_phase (Removing (settle r)) (with_pump No_pump t))
| w_join_lost r :
    phase t = Joining r -> pump t = Pump_lost ->
    work t (with_phase (Removing (Err Worker)) (with_pump No_pump t))
| w_removed r (ok : bool) :
    phase t = Removing r ->
    work t (if ok then removed r t
            else with_phase (Retrying r) (send (Finished (Err Cleanup)) (with_active false t)))
| w_retried r (ok : bool) : phase t = Retrying r -> work t (if ok then removed r t else t)
| w_released r : phase t = Releasing r -> work t (with_phase (Reporting r) (drop_permit t))
| w_reported r : phase t = Reporting r -> work t (with_phase Ending (send (Finished r) t))
| w_ended : phase t = Ending -> work t (with_phase Done t)
| w_lost : awaits (phase t) = true -> work t (with_phase Lost (drop_permit t)).

(** The task of the pump *)
Inductive pumps (t : Task) : Task -> Prop :=
| p_turn p p' a w1 w2 :
    pump t = Pumping p -> turn p a w1 w2 = (p', Ok tt) -> cancelled t = false ->
    pumps t (with_pump (Pumping p') t)
| p_end p p' a w1 w2 e :
    pump t = Pumping p -> turn p a w1 w2 = (p', Err e) -> (e = Cancelled -> cancelled t = true) ->
    (forall part d, w1 = Cut part d -> cut_by d = true) -> (forall part d, w2 = Cut part d -> cut_by d = true) ->
    pumps t (with_pump (Pumped e) t)
| p_lost p : pump t = Pumping p -> pumps t (with_pump Pump_lost t).

(** ** owner.rs: sessions *)

(** Where a call that looks at the channel is *)
Inductive Wait := Looking | Parked | Joining_task (r : Outcome).
Inductive Call :=
| Idle | Getting_ready (w : Wait) | Finishing (stopping : bool) (w : Wait)
| Was_ready (r : result Z TransportError) | Was_finished (r : Outcome).

(** [seen]: the version of the channel its receiver has seen; [task]: the handle *)
Record Session := mk_session { call : Call; seen : nat; task : bool }.
Definition new_session : Session := mk_session Idle 0 true.
Definition with_call (c : Call) (s : Session) : Session := mk_session c (seen s) (task s).

Definition ended (t : Task) : bool := match phase t with Done | Lost => true | _ => false end.

(** [changed] *)
Definition changed (t : Task) (s : Session) : option bool :=
  if negb (version t =? seen s)%nat then Some true else if ended t then Some false else None.

Definition ready_of (st : Status) : option (result Z TransportError) :=
  match st with
  | Ready pid => Some (Ok pid)
  | Finished (Ok _) => Some (Err Unavailable)
  | Finished (Err e) => Some (Err e)
  | Starting => None
  end.

(** What a call does between two points where others may run *)
Definition advance (t : Task) (s : Session) : Session :=
  match call s with
  | Getting_ready Looking =>
      mk_session (match ready_of (status t) with Some r => Was_ready r | None => Getting_ready Parked end)
        (version t) (task s)
  | Getting_ready Parked =>
      match changed t s with
      | Some true => with_call (Getting_ready Looking) s
      | Some false => with_call (Was_ready (Err Cleanup)) s
      | None => s
      end
  | Finishing stopping Looking =>
      mk_session
        (match status t with
         | Finished r =>
             if negb (bool_decide (r = Err Cleanup)) && task s then Finishing stopping (Joining_task r)
             else Was_finished r
         | _ => Finishing stopping Parked
         end) (version t) (task s)
  | Finishing stopping Parked =>
      match changed t s with
      | Some true => with_call (Finishing stopping Looking) s
      | Some false => with_call (Was_finished (Err Cleanup)) s
      | None => s
      end
  | Finishing stopping (Joining_task r) =>
      match phase t with
      | Done => mk_session (Was_finished r) (seen s) false
      | Lost => with_call (Was_finished (Err Cleanup)) s
      | _ => s
      end
  | _ => s
  end.

Definition quiet (s : Session) : bool :=
  match call s with Idle | Was_ready _ | Was_finished _ => true | _ => false end.

(** ** owner.rs: the owner *)

(** A reader of the output of a task *)
Inductive Reader :=
| Reading_active (i : nat) (name : string)
| Reading_file (i : nat) (name : string)
| Reading_again (i : nat) (b : Bytes)
| Read (i : nat) (r : result Bytes TransportError).

(** A call of [shutdown] *)
Inductive Shutdown := Closing | Waiting | Was_shut (r : Outcome).

Record Owner := mk_owner {
  closed : bool; root_cancelled : bool; tasks : list Task; sessions : list Session;
  readers : list Reader; shutdowns : list Shutdown }.

Definition with_tasks (l : list Task) (o : Owner) : Owner :=
  mk_owner (closed o) (root_cancelled o) l (sessions o) (readers o) (shutdowns o).
Definition with_sessions (l : list Session) (o : Owner) : Owner :=
  mk_owner (closed o) (root_cancelled o) (tasks o) l (readers o) (shutdowns o).
Definition with_readers (l : list Reader) (o : Owner) : Owner :=
  mk_owner (closed o) (root_cancelled o) (tasks o) (sessions o) l (shutdowns o).
Definition with_shutdowns (l : list Shutdown) (o : Owner) : Owner :=
  mk_owner (closed o) (root_cancelled o) (tasks o) (sessions o) (readers o) l.

(** [TransportOwner::new], with what is found of its directory *)
Definition new_owner (multi_thread : bool) (metadata : option (bool * bool)) (canonical : option (option string))
  : result (string * Owner) TransportError :=
  if negb multi_thread then Err Worker
  else
    let? (directory, symlink) := ok_or metadata Cache in
    if negb directory || symlink then Err Cache
    else
      let? root := ok_or canonical Cache in
      let? root := ok_or root Cache in
      Ok (root, mk_owner false false [] [] [] []).

(** The permits that are not held, of one *)
Definition available (o : Owner) : nat := 1 - length (filter (fun t => permit t = true) (tasks o)).

(** [start] *)
Definition start (multi_thread : bool) (destination : IpAddr * Z) (o : Owner) : result Owner TransportError :=
  if negb multi_thread then Err Worker
  else if closed o then Err Cancelled
  else if (available o =? 0)%nat then Err Capacity
  else Ok (mk_owner (closed o) (root_cancelled o) (tasks o ++ [spawned destination (root_cancelled o)])
             (sessions o ++ [new_session]) (readers o) (shutdowns o)).

Definition tracked (o : Owner) : list Task := filter (fun t => ended t = false) (tasks o).

(** [idle] *)
Definition idle (o : Owner) : bool := (length (tracked o) =? 0)%nat && (available o =? 1)%nat.

Definition cancel_all (o : Owner) : Owner :=
  mk_owner (closed o) true (map cancel (tasks o)) (sessions o) (readers o) (shutdowns o).
Definition close (o : Owner) : Owner :=
  mk_owner true (root_cancelled o) (tasks o) (sessions o) (readers o) (shutdowns o).

(** The steps of [Output::read] *)
Inductive reads (o : Owner) : Reader -> Reader -> Prop :=
| r_active i name t :
    tasks o !! i = Some t ->
    reads o (Reading_active i name) (if active t then Reading_file i name else Read i (Err Unavailable))
| r_file i name t x :
    tasks o !! i = Some t -> (cache t = false -> x = Open_failed) ->
    reads o (Reading_file i name)
      (match read_file name x with Ok b => Reading_again i b | Err e => Read i (Err e) end)
| r_again i b t :
    tasks o !! i = Some t -> reads o (Reading_again i b) (Read i (if active t then Ok b else Err Unavailable)).

(** [t_late]: the limits of 15 and of 10 seconds on [ready], [stop] and [shutdown];
    [t_drop]: a session, or the owner, which then takes no call, is dropped. *)
Inductive step (o : Owner) : Owner -> Prop :=
| t_start d o' : start true d o = Ok o' -> step o o'
| t_work i t t' : tasks o !! i = Some t -> work t t' -> step o (with_tasks (<[i := t']> (tasks o)) o)
| t_pump i t t' : tasks o !! i = Some t -> pumps t t' -> step o (with_tasks (<[i := t']> (tasks o)) o)
| t_exit i t : tasks o !! i = Some t -> step o (with_tasks (<[i := with_alive false t]> (tasks o)) o)
| t_drop i t : tasks o !! i = Some t -> step o (with_tasks (<[i := cancel t]> (tasks o)) o)
| t_ready i s :
    sessions o !! i = Some s -> quiet s = true ->
    step o (with_sessions (<[i := with_call (Getting_ready Looking) s]> (sessions o)) o)
| t_finished i s :
    sessions o !! i = Some s -> quiet s = true ->
    step o (with_sessions (<[i := with_call (Finishing false Looking) s]> (sessions o)) o)
| t_stop i s t :
    sessions o !! i = Some s -> tasks o !! i = Some t -> quiet s = true ->
    step o (with_sessions (<[i := with_call (Finishing true Looking) s]> (sessions o))
              (with_tasks (<[i := cancel t]> (tasks o)) o))
| t_call i s t :
    sessions o !! i = Some s -> tasks o !! i = Some t ->
    step o (with_sessions (<[i := advance t s]> (sessions o)) o)
| t_ready_late i s w :
    sessions o !! i = Some s -> call s = Getting_ready w ->
    step o (with_sessions (<[i := with_call (Was_ready (Err Deadline)) s]> (sessions o)) o)
| t_stop_late i s w :
    sessions o !! i = Some s -> call s = Finishing true w ->
    step o (with_sessions (<[i := with_call (Was_finished (Err Cleanup)) s]> (sessions o)) o)
| t_give_up i s : sessions o !! i = Some s -> step o (with_sessions (<[i := with_call Idle s]> (sessions o)) o)
| t_read i name : step o (with_readers (readers o ++ [Reading_active i name]) o)
| t_reader k r r' : readers o !! k = Some r -> reads o r r' -> step o (with_readers (<[k := r']> (readers o)) o)
| t_shutdown : step o (with_shutdowns (shutdowns o ++ [Closing]) (close o))
| t_cancel_all k :
    shutdowns o !! k = Some Closing -> step o (with_shutdowns (<[k := Waiting]> (shutdowns o)) (cancel_all o))
| t_shut k :
    shutdowns o !! k = Some Waiting -> tracked o = [] ->
    step o (with_shutdowns (<[k := Was_shut (Ok tt)]> (shutdowns o)) o)
| t_shut_late k :
    shutdowns o !! k = Some Waiting ->
    step o (with_shutdowns (<[k := Was_shut (Err Cleanup)]> (shutdowns o)) o)
| t_drop_owner : step o (cancel_all (close o)).

Inductive reachable : Owner -> Prop :=
| reach_new : reachable (mk_owner false false [] [] [] [])
| reach_step o o' : reachable o -> step o o' -> reachable o'.

End Steps.

End LiveTransport.
