(* ===== verification/LiveTransportProofs.v ===== *)
(** * The transport of a live channel: theorems

    What a playlist read from the directory is, and that it is read back; what an
    inspection offers; that FFmpeg is given what the server sent and nothing else;
    and over every interleaving of tasks, sessions, readers and shutdowns: what is
    left when a session has finished, that there is one process at most, and that
    a cancelled session ends. *)

From stdpp Require Import list relations.
From S2P Require Import Prelude F64 BitReader CodecBytes Readiness Subtitles SubtitlesProofs Ip LiveImport LiveDestination LiveTransport.
Import BitReader CodecBytes Ip SubtitlesProofs LiveTransport.

Module LiveTransportProofs.

(** ** Playlists *)

Record reading_ok (p : Reading) : Prop := {
  ro_names : Forall (fun s => segment s = true) (r_segments p);
  ro_distinct : NoDup (r_segments p);
  ro_sequence : forall n, r_sequence p = Some n -> 0 <= n <= u64_max }.

Lemma existsb_name (l : list string) (s : string) :
  existsb (fun x => String.eqb x s) l = false -> s ∉ l.
Proof.
  intros H E. apply list_elem_of_In in E. assert (X : existsb (fun x => String.eqb x s) l = true); [|congruence].
  apply existsb_exists. exists s. by rewrite String.eqb_refl.
Qed.

Lemma parse_unsigned_range (max : Z) (s : string) (n : Z) :
  Dec.parse_unsigned max s = Some n -> 0 <= n <= max.
Proof.
  unfold Dec.parse_unsigned. destruct s as [|[[] [] [] [] [] [] [] []] s]; apply parse_digits_bound.
Qed.

Lemma line_read_ok (line : string) (p q : Reading) : read_line line p = Ok q -> reading_ok p -> reading_ok q.
Proof.
  unfold read_line. intros H I. repeat first
    [ match type of H with (if segment line && _ && _ then _ else _) = _ => destruct (segment line && _ && _) eqn:S end
    | match type of H with (let? _ := ok_or ?o _ in _) = _ => destruct o eqn:N; cbn [ok_or] in H end
    | match type of H with (if ?b then _ else _) = _ => destruct b end
    | match type of H with match ?o with Some _ => _ | None => _ end = _ => destruct o end ];
    try discriminate H; injection H as <-; try done; destruct I as [A B C]; split; cbn; try done.
  - intros m [= <-]. by eapply parse_unsigned_range.
  - dk_bool. apply Forall_app_2; [done|]. by constructor.
  - dk_bool. apply NoDup_app. split; [done|]. split; [|apply NoDup_singleton].
    intros x Hx E. apply list_elem_of_singleton in E as ->. by eapply existsb_name.
Qed.

Lemma lines_read_ok (lines : list string) (p q : Reading) : read_lines lines p = Ok q -> reading_ok p -> reading_ok q.
Proof.
  revert p. induction lines as [|l lines IH]; cbn; intros p H I; [by injection H as <-|].
  destruct (read_line l p) as [r|] eqn:E; [|done]. eapply IH; [done|]. by eapply line_read_ok.
Qed.

Lemma nothing_ok : reading_ok nothing_read.
Proof. split; cbn; [done|apply NoDup_nil_2|done]. Qed.

Record playlist_ok (p : Playlist) : Prop := {
  po_names : Forall (fun s => segment s = true) (segments p);
  po_distinct : NoDup (segments p);
  po_count : (2 <= length (segments p) <= 15)%nat;
  po_sequence : 0 <= sequence p <= u64_max }.

Lemma playlist_parsed (text : string) (p : Playlist) : parse text = Ok (Some p) -> playlist_ok p.
Proof.
  unfold parse. destruct (negb _); [done|]. destruct (Str.lines text) as [|l ls]; [done|].
  destruct (negb _); [done|]. destruct (read_lines ls nothing_read) as [r|] eqn:E; [|done].
  destruct (lines_read_ok _ _ _ E nothing_ok) as [A B C]. unfold read_end.
  destruct (_ <? Z.of_nat _) eqn:L; [done|].
  destruct (r_pending r || _ || _ || _ || _) eqn:M; [done|].
  destruct (r_sequence r) as [n|] eqn:N; [|done]. intros [= <-]. dk_bool.
  split; cbn; [done|done|lia|by apply C].
Qed.

(** *** What FFmpeg writes *)

Definition segment_lines (name : string) : list string := ["#EXTINF:2.000000,"%string; name].
Definition playlist_lines (p : Playlist) : list string :=
  ["#EXTM3U"; "#EXT-X-VERSION:7"; "#EXT-X-TARGETDURATION:2"; "#EXT-X-MEDIA-SEQUENCE:" +:+ Dec.print (sequence p);
   "#EXT-X-INDEPENDENT-SEGMENTS"; MAP_LINE]%string ++ concat (map segment_lines (segments p)).
Definition render (p : Playlist) : string := lines_text (playlist_lines p).

Lemma segment_form (name : string) :
  segment name = true -> exists d, name = "seg_" +:+ d +:+ ".m4s" /\ Str.len d = 8 /\ Str.all Str.is_digit d = true.
Proof.
  unfold segment. destruct (Str.strip_prefix _ name) as [s|] eqn:E; [|done].
  apply strip_prefix_eq in E as ->. destruct (Str.strip_suffix _ s) as [d|] eqn:E; [|done].
  apply strip_suffix_eq in E as ->. cbn [is_some_and]. intros H. dk_bool. eauto.
Qed.

Lemma strip_cr_free (s : string) : free_of Str.cr s = true -> Str.strip_cr s = s.
Proof.
  intros H. unfold Str.strip_cr. destruct (Str.strip_suffix _ s) as [t|] eqn:E; [|done].
  apply strip_suffix_eq in E as ->. rewrite free_of_app in H. dk_bool. done.
Qed.

Definition one_line (s : string) : bool := free_of Str.lf s && free_of Str.cr s.

Lemma one_line_readable (s : string) : one_line s = true -> readable s.
Proof. unfold one_line. intros H. dk_bool. split; [done|]. by apply strip_cr_free. Qed.

Lemma one_line_app (a b : string) : one_line a = true -> one_line b = true -> one_line (a +:+ b) = true.
Proof. unfold one_line. intros A B. dk_bool. by rewrite !free_of_app, H, H0, H1, H2. Qed.

Lemma one_line_digits (s : string) : Str.all Str.is_digit s = true -> one_line s = true.
Proof. intros H. unfold one_line. by rewrite !digits_free. Qed.

Lemma playlist_lines_readable (p : Playlist) :
  Forall (fun s => segment s = true) (segments p) -> Forall readable (playlist_lines p).
Proof.
  intros H. assert (R : forall s, one_line s = true -> readable s) by apply one_line_readable.
  unfold playlist_lines. apply Forall_app. split.
  - repeat (apply Forall_cons_2; [apply R; try reflexivity|]); [|by apply Forall_nil_2].
    apply one_line_app; [reflexivity|]. apply one_line_digits. auto with dk.
  - induction H as [|s l Hs H IH]; cbn; [done|]. constructor; [by apply R|]. constructor; [|done].
    destruct (segment_form _ Hs) as (d & -> & _ & D). apply R. apply one_line_app; [done|].
    apply one_line_app; [by apply one_line_digits|done].
Qed.

Lemma read_duration (p : Reading) :
  r_pending p = false ->
  read_line "#EXTINF:2.000000," p =
  Ok (mk_reading (r_sequence p) (r_target p) (r_map p) (r_independent p) true (r_segments p)).
Proof.
  intros H. unfold read_line. change (256 <? _) with false.
  change (Str.strip_prefix "#EXTINF:" "#EXTINF:2.000000,") with (Some "2.000000,"%string).
  change (duration_ok "2.000000,") with true. rewrite H. reflexivity.
Qed.

Lemma existsb_fresh (l : list string) (s : string) :
  s ∉ l -> existsb (fun x => String.eqb x s) l = false.
Proof.
  intros N. apply not_true_iff_false. intros E. apply existsb_exists in E as (x & X & Y).
  apply String.eqb_eq in Y as ->. by apply N, list_elem_of_In.
Qed.

Lemma read_name (name : string) (p : Reading) :
  segment name = true -> r_pending p = true -> name ∉ r_segments p ->
  read_line name p =
  Ok (mk_reading (r_sequence p) (r_target p) (r_map p) (r_independent p) false (r_segments p ++ [name])).
Proof.
  intros S P N. unfold read_line. rewrite S, P, existsb_fresh by done.
  destruct (segment_form _ S) as (d & -> & L & _).
  replace (256 <? _) with false; [reflexivity|]. symmetry. apply Z.ltb_ge. rewrite !str_len_app, L. done.
Qed.

Lemma read_names (l : list string) (p : Reading) :
  Forall (fun s => segment s = true) l -> NoDup (r_segments p ++ l) -> r_pending p = false ->
  read_lines (concat (map segment_lines l)) p =
  Ok (mk_reading (r_sequence p) (r_target p) (r_map p) (r_independent p) false (r_segments p ++ l)).
Proof.
  intros H. revert p. induction H as [|s l Hs H IH]; intros p N P.
  - rewrite app_nil_r. destruct p. cbn in P. by rewrite P.
  - cbn [map concat segment_lines app read_lines]. rewrite read_duration by done.
    assert (F : s ∉ r_segments p).
    { apply NoDup_app in N as (_ & N & _). intros E. eapply N; [done|]. by left. }
    rewrite read_name by done. cbn. rewrite IH; cbn; rewrite <- ?app_assoc; done.
Qed.

Lemma read_sequence (n : Z) (p : Reading) :
  0 <= n <= u64_max -> r_sequence p = None ->
  read_line ("#EXT-X-MEDIA-SEQUENCE:" +:+ Dec.print n) p =
  Ok (mk_reading (Some n) (r_target p) (r_map p) (r_independent p) (r_pending p) (r_segments p)).
Proof.
  intros N S. unfold read_line. replace (256 <? _) with false.
  - rewrite strip_prefix_app, S. cbn [is_some_b]. rewrite parse_unsigned_digits by (auto with dk).
    by rewrite parse_print.
  - symmetry. apply Z.ltb_ge. rewrite str_len_app. pose proof (print_u64_length n N).
    change (Str.len "#EXT-X-MEDIA-SEQUENCE:") with 22. lia.
Qed.

(** A playlist in the form FFmpeg writes reads back. *)
Theorem playlist_reads_back (p : Playlist) : playlist_ok p -> parse (render p) = Ok (Some p).
Proof.
  intros [A B C D]. unfold parse, render.
  assert (E : Str.ends_with (String Str.lf EmptyString) (lines_text (playlist_lines p)) = true).
  { change (playlist_lines p) with ("#EXTM3U"%string :: tail (playlist_lines p)). rewrite <- join_lines_text. unfold Str.ends_with.
    change (String Str.lf EmptyString) with Subtitles.newline. by rewrite strip_suffix_app. }
  rewrite E. cbn [negb]. rewrite lines_lines_text by (by apply playlist_lines_readable).
  unfold playlist_lines. cbn [app]. change (negb (String.eqb "#EXTM3U" "#EXTM3U")) with false. cbv iota.
  cbn [read_lines].
  change (read_line "#EXT-X-VERSION:7" nothing_read) with (@Ok Reading TransportError nothing_read). cbv iota.
  change (read_line "#EXT-X-TARGETDURATION:2" nothing_read) with
    (@Ok Reading TransportError (mk_reading None true false false false [])). cbv iota.
  rewrite read_sequence by done. cbn [r_target r_map r_independent r_pending r_segments].
  set (q := mk_reading _ _ _ _ _ _).
  change (read_line "#EXT-X-INDEPENDENT-SEGMENTS" q) with
    (@Ok Reading TransportError (mk_reading (Some (sequence p)) true false true false [])). cbv iota.
  set (q' := mk_reading _ _ _ _ _ _).
  change (read_line MAP_LINE q') with
    (@Ok Reading TransportError (mk_reading (Some (sequence p)) true true true false [])). cbv iota.
  rewrite read_names by done. unfold read_end. cbn [r_segments r_pending r_target r_map r_independent app orb negb].
  destruct (15 <? _) eqn:F; dk_bool; [lia|]. destruct (_ <? 2) eqn:G; dk_bool; [lia|]. by destruct p.
Qed.

(** ** Inspections *)

Lemma account_loop_bounds (entries : list (option (option string * Looked))) (b f b' f' : Z) :
  account_loop entries b f = Ok (b', f') -> b <= CACHE_BYTES -> f <= CACHE_FILES ->
  b' <= CACHE_BYTES /\ f' <= CACHE_FILES.
Proof.
  revert b f. induction entries as [|[[[name|] l]|] entries IH]; cbn; intros b f; try done.
  { by intros [= -> ->]. }
  destruct (negb (known name)); [done|]. destruct l as [file link size| |]; [|by apply IH|done].
  destruct (negb file || link || _); [done|]. destruct (checked_add64 b size) as [n|]; [|done]. cbn [ok_or].
  destruct (_ || _) eqn:L; [done|]. dk_bool. intros G _ _. by eapply IH.
Qed.

Lemma account_bounds (l : Listing) (b f : Z) : account l = Ok (b, f) -> b <= CACHE_BYTES /\ f <= CACHE_FILES.
Proof.
  unfold account. destruct l as [l|]; [|done]. cbn [ok_or]. intros H.
  by eapply account_loop_bounds in H.
Qed.

Lemma read_file_bounds (name : string) (o : Opened) (b : Bytes) :
  read_file name o = Ok b -> exists limit, read_limit name = Some limit /\ blen b <= limit.
Proof.
  unfold read_file. destruct (read_limit name) as [limit|]; [|done]. cbn [ok_or].
  destruct o as [| |[] [c|]]; cbn; try done. destruct (_ <? _) eqn:L; [done|]. intros [= <-]. dk_bool. eauto.
Qed.

Lemma read_file_errors (name : string) (o : Opened) (e : TransportError) :
  read_file name o = Err e -> e = Unavailable \/ e = Cache.
Proof.
  unfold read_file. destruct (read_limit name); cbn [ok_or]; [|intros [= <-]; auto].
  destruct o as [| |[] [c|]]; cbn; try (intros [= <-]; auto).
  destruct (_ <? _); [intros [= <-]; auto|done].
Qed.

Lemma all_complete_announced (c : Readiness.Cache) (l : list (string * Readiness.Asset)) :
  Readiness.cache_ok c -> all_complete c l = Ok true ->
  Forall (fun x => Readiness.announced c x.2 x.1) l.
Proof.
  intros K. induction l as [|[name asset] l IH]; cbn; [done|].
  destruct (Readiness.asset_complete c name asset) as [[]|] eqn:E; try done. intros H.
  constructor; [by apply Readiness.asset_announced|auto].
Qed.

Lemma last_two (l : list string) :
  (2 <= length l)%nat ->
  exists older, l = older ++ [nth (length l - 2) l EmptyString; nth (length l - 1) l EmptyString].
Proof.
  intros H. exists (take (length l - 2) l).
  rewrite <- (take_drop (length l - 2) l) at 1. f_equal.
  pose proof (length_drop l (length l - 2)) as L.
  assert (A : forall i, (i < 2)%nat -> nth i (drop (length l - 2) l) EmptyString = nth (length l - 2 + i) l EmptyString).
  { intros i _. rewrite !nth_lookup, lookup_drop. done. }
  destruct (drop (length l - 2) l) as [|x [|y [|]]]; cbn [length] in L; try lia.
  pose proof (A 0%nat ltac:(lia)) as A0. pose proof (A 1%nat ltac:(lia)) as A1. cbn in A0, A1.
  rewrite A0, A1. repeat f_equal; lia.
Qed.

(** Every refusal of a directory is the same error. *)
Lemma read_line_errors (line : string) (p : Reading) (e : TransportError) : read_line line p = Err e -> e = Cache.
Proof.
  unfold read_line. intros H. repeat first
    [ match type of H with (let? _ := ok_or ?o _ in _) = _ => destruct o; cbn [ok_or] in H end
    | match type of H with (if ?b then _ else _) = _ => destruct b end
    | match type of H with match ?o with Some _ => _ | None => _ end = _ => destruct o end ]; congruence.
Qed.

Lemma read_lines_errors (lines : list string) (p : Reading) (e : TransportError) :
  read_lines lines p = Err e -> e = Cache.
Proof.
  revert p. induction lines as [|l lines IH]; cbn; intros p; [done|].
  destruct (read_line l p) eqn:E; [apply IH|]. intros [= <-]. by eapply read_line_errors.
Qed.

Lemma parse_errors (text : string) (e : TransportError) : parse text = Err e -> e = Cache.
Proof.
  unfold parse. destruct (negb _); [done|]. destruct (Str.lines text) as [|l ls]; [by intros [= <-]|].
  destruct (negb _); [by intros [= <-]|].
  destruct (read_lines ls nothing_read) as [r|] eqn:E; [|intros [= <-]; by eapply read_lines_errors].
  unfold read_end. destruct (15 <? _); [by intros [= <-]|]. destruct (r_pending r || _ || _ || _ || _); [done|].
  destruct (r_sequence r); cbn; congruence.
Qed.

Lemma account_errors (l : Listing) (e : TransportError) : account l = Err e -> e = Cache.
Proof.
  unfold account. destruct l as [l|]; cbn [ok_or]; [|congruence]. generalize 0 at 1. generalize 0.
  induction l as [|[[[name|] k]|] l IH]; cbn; intros f b H; try congruence.
  destruct (negb (known name)); [congruence|]. destruct k as [file link size| |]; [|by eapply IH|congruence].
  destruct (negb file || link || _); [congruence|].
  destruct (checked_add64 b size); cbn [ok_or] in H; [|congruence].
  destruct (_ || _); [congruence|by eapply IH].
Qed.

Lemma all_complete_errors (c : Readiness.Cache) (l : list (string * Readiness.Asset)) (e : TransportError) :
  all_complete c l = Err e -> e = Cache.
Proof.
  induction l as [|[name a] l IH]; cbn; [done|].
  destruct (Readiness.asset_complete _ _ _) as [[]|]; [done|done|congruence].
Qed.

Section Decoding.
Context (from_utf8 : Bytes -> option string).

Lemma inspect_errors (x : Look) (e : TransportError) : inspect from_utf8 x = Err e -> e = Cache.
Proof.
  unfold inspect. destruct (account (listing x)) as [[b f]|] eqn:A; [|intros [= <-]; by eapply account_errors].
  destruct (read_file _ _) as [c|[]] eqn:R; try done;
    try (apply read_file_errors in R as [|]; done); try (by intros [= <-]).
  destruct (from_utf8 c) as [text|]; cbn [ok_or]; [|by intros [= <-]].
  destruct (parse text) as [[p|]|] eqn:P; [|done|intros [= <-]; by eapply parse_errors].
  destruct (all_complete _ _) eqn:C; [done|]. intros [= <-]. by eapply all_complete_errors.
Qed.

(** C21. What a live session offers is bounded and playable: at most 24 files and 32
    MiB lie in its directory, the playlist has between two and fifteen segments of
    different names of the form FFmpeg gives them, and the initialization section
    and the two newest segments are regular files of the directory itself, unchanged
    while they were read, in the box structure a player needs. *)
Theorem offered_output_is_playable (x : Look) (s : Snapshot) :
  Readiness.cache_ok (assets x) -> inspect from_utf8 x = Ok (Some s) ->
  s_bytes s <= 32 * 1024 * 1024 /\ s_files s <= 24 /\
  Forall (fun name => segment name = true) (s_segments s) /\ NoDup (s_segments s) /\
  (length (s_segments s) <= 15)%nat /\
  Readiness.announced (assets x) Readiness.Initialization "init.mp4" /\
  (exists older a b, s_segments s = older ++ [a; b] /\
    Readiness.announced (assets x) Readiness.Fragment a /\ Readiness.announced (assets x) Readiness.Fragment b) /\
  exists content text, read_file "manifest.m3u8" (manifest x) = Ok content /\ blen content <= 32768 /\
    from_utf8 content = Some text /\ parse text = Ok (Some (mk_playlist (s_sequence s) (s_segments s))).
Proof.
  intros K. unfold inspect. destruct (account (listing x)) as [[b f]|] eqn:A; [|done].
  destruct (account_bounds _ _ _ A) as [B F].
  destruct (read_file _ (manifest x)) as [c|[]] eqn:R; try done.
  destruct (read_file_bounds _ _ _ R) as (limit & [= <-] & L).
  destruct (from_utf8 c) as [text|] eqn:U; [|done]. cbn [ok_or].
  destruct (parse text) as [[p|]|] eqn:P; [|done..]. destruct (playlist_parsed _ _ P) as [P1 P2 P3 _].
  destruct (all_complete _ _) as [[]|] eqn:C; [|done..]. intros [= <-]. cbn.
  apply (all_complete_announced _ _ K) in C. apply Forall_cons in C as [C1 C]. apply Forall_cons in C as [C2 C].
  apply Forall_cons in C as [C3 _]. cbn [fst snd] in C1, C2, C3.
  do 4 (split; [done|]). split; [lia|]. split; [done|]. split.
  - destruct (last_two (segments p) ltac:(lia)) as [older E]. exists older. eexists _, _. by split; [exact E|].
  - exists c, text. destruct p. done.
Qed.

End Decoding.

(** ** The source *)

(** A stream that is read comes from the host and the port its URL names, at the
    address that was approved, and not from a forbidden one. *)
Theorem stream_is_from_the_approved_address {E : LiveImport.Env} (input : string) (approved : IpAddr) (p : Z) (url : LiveImport.Url)
    (r : Reply) :
  LiveDestination.transport_source input approved p = Some url -> open (approved, p) (Replied r) = Ok tt ->
  exists q, peer r = Some q /\ LiveDestination.literal_of url = Some (to_canonical q.1) /\
    LiveImport.port url = Some q.2 /\ LiveDestination.forbidden q.1 = false /\ status_code r = 200.
Proof.
  unfold LiveDestination.transport_source, LiveDestination.literal_of. destruct (_ || existsb _ _); [done|].
  destruct (LiveImport.parse_url input) as [u|]; [|done].
  destruct (match LiveImport.host u with Some (LiveImport.Ipv4 ip) => _ | _ => _ end) as [a|] eqn:A; [|done].
  destruct (_ || LiveDestination.forbidden a) eqn:B; [done|]. intros [= <-].
  apply orb_false_iff in B as [B F]. apply orb_false_iff in B as [B P]. apply orb_false_iff in B as [_ C].
  apply negb_false_iff, bool_decide_eq_true in P, C.
  unfold open. destruct (peer r) as [q|]; [|done]. cbn [ok_or].
  destruct (negb (same_peer _ q) || _) eqn:S; [done|]. intros _. exists q. split; [done|].
  apply orb_false_iff in S as [S T]. dk_bool. unfold same_peer in S. apply andb_true_iff in S as [S Q].
  apply bool_decide_eq_true in S. dk_bool. cbn [fst snd] in S, Q.
  assert (X : to_canonical q.1 = to_canonical a) by congruence.
  split.
  { destruct (LiveImport.host u) as [[]|]; try done; injection A as <-; rewrite X; done. }
  split; [congruence|]. split; [|done]. unfold LiveDestination.forbidden in *. by rewrite X.
Qed.

(** ** The input of FFmpeg *)

(** After the bytes [seen] have arrived *)
Definition pump_ok (p : Pump) (seen : Bytes) : Prop :=
  prefix p = take PREFIX seen /\
  if validated p then (PREFIX <= length seen)%nat /\ synced (take PREFIX seen) = true /\ written p = seen
  else (length seen < PREFIX)%nat /\ written p = [].

(** What was written when the loop ends *)
Definition stopped_ok (p : Pump) (seen : Bytes) : Prop :=
  (length (prefix p) <= PREFIX)%nat /\ written p `prefix_of` seen /\
  (written p = [] \/ (PREFIX <= length seen)%nat /\ synced (take PREFIX seen) = true).

Lemma pump_stops (p : Pump) (seen b : Bytes) : pump_ok p seen -> stopped_ok p (seen ++ b).
Proof.
  unfold pump_ok, stopped_ok. intros [P V]. rewrite P, length_take. split; [lia|].
  destruct (validated p).
  - destruct V as (L & S & ->). split; [by apply prefix_app_r|]. right. rewrite length_app, take_app_le by lia.
    split; [lia|done].
  - destruct V as [_ ->]. split; [apply prefix_nil|by left].
Qed.

Lemma write_ok (p : Pump) (seen b : Bytes) (w : Write) (p' : Pump) (r : Outcome) :
  pump_ok p seen -> validated p = true -> write p b w = (p', r) ->
  if is_ok r then pump_ok p' (seen ++ b) else stopped_ok p' (seen ++ b).
Proof.
  unfold pump_ok, stopped_ok. intros [P V] E. rewrite E in V. destruct V as (L & S & W).
  unfold write. destruct w as [|n e]; intros [= <- <-]; cbn [is_ok prefix validated written];
    rewrite ?E, P, W, ?length_app, ?length_take, (take_app_le seen b) by lia.
  - repeat split; [lia|done].
  - split; [lia|]. split; [apply prefix_app, prefix_take|]. right. split; [lia|done].
Qed.

Lemma feed_ok (p : Pump) (seen b : Bytes) (w1 w2 : Write) (p' : Pump) (r : Outcome) :
  pump_ok p seen -> feed p b w1 w2 = (p', r) ->
  if is_ok r then pump_ok p' (seen ++ b) else stopped_ok p' (seen ++ b).
Proof.
  intros I. unfold feed. destruct (validated p) eqn:V; [by apply write_ok|].
  destruct I as [P I]. rewrite V in I. destruct I as [L W]. rewrite P, take_ge by lia. rewrite W.
  set (n := Nat.min _ _). assert (T : seen ++ take n b = take PREFIX (seen ++ b)).
  { rewrite take_app_ge by lia. f_equal. unfold n. destruct (Nat.min_spec (PREFIX - length seen) (length b))
      as [[? ->]|[? ->]]; [done|]. rewrite !take_ge by lia. done. }
  cbn [prefix]. destruct (negb _) eqn:F.
  { intros [= <- <-]. apply negb_true_iff, Nat.eqb_neq in F. rewrite length_app, length_take in F.
    unfold pump_ok. cbn [is_ok prefix validated written]. split; [done|]. rewrite length_app. split; [lia|done]. }
  apply negb_false_iff, Nat.eqb_eq in F. rewrite T. rewrite T, length_take, length_app in F.
  destruct (synced _) eqn:S; cbn [negb].
  2:{ intros [= <- <-]. unfold stopped_ok. cbn [is_ok prefix written]. rewrite length_take. split; [lia|]. split; [apply prefix_nil|by left]. }
  destruct (write _ _ w1) as [q [[]|e]] eqn:E.
  - destruct w1; [|done]. injection E as <-. cbn [prefix written app]. intros H.
    replace (seen ++ b) with (take PREFIX (seen ++ b) ++ drop n b).
    2:{ rewrite <- T, <- app_assoc, take_drop. done. }
    eapply write_ok; [| |exact H]; [|done]. unfold pump_ok. cbn [prefix validated written].
    rewrite take_take, Nat.min_id, length_take, length_app. repeat split; [lia|done].
  - destruct w1 as [|k e1]; [done|]. injection E as <- <-. intros [= <- <-]. unfold stopped_ok.
    cbn [is_ok prefix written app]. rewrite length_take, length_app. split; [lia|]. split; [|right; split; [lia|done]].
    etrans; apply prefix_take.
Qed.

Lemma turn_ok (p : Pump) (seen : Bytes) (a : Arrival) (w1 w2 : Write) (p' : Pump) (r : Outcome) :
  pump_ok p seen -> turn p a w1 w2 = (p', r) ->
  let seen' := seen ++ match a with Chunk b => b | _ => [] end in
  if is_ok r then pump_ok p' seen' else stopped_ok p' seen'.
Proof.
  intros I. unfold turn. destruct a as [| | |b]; try (intros [= <- <-]; by apply pump_stops).
  destruct (_ <? _); [intros [= <- <-]; by apply pump_stops|]. by apply feed_ok.
Qed.

Lemma new_pump_ok : pump_ok new_pump [].
Proof. unfold pump_ok. cbn. repeat split. unfold PREFIX. lia. Qed.

Lemma run_ok (events : list (Arrival * Write * Write)) (p p' : Pump) (seen : Bytes) (r : option TransportError) :
  pump_ok p seen -> run p events = (p', r) ->
  if r is Some _ then stopped_ok p' (seen ++ arrived events) else pump_ok p' (seen ++ arrived events).
Proof.
  revert p seen. induction events as [|[[a w1] w2] events IH]; intros p seen I.
  - intros [= <- <-]. unfold arrived. cbn. by rewrite app_nil_r.
  - cbn [run]. destruct (turn p a w1 w2) as [q [[]|e]] eqn:T.
    + pose proof (turn_ok _ _ _ _ _ _ _ I T) as J. cbn in J. intros H. specialize (IH _ _ J H).
      unfold arrived in *. cbn [map concat fst]. by rewrite app_assoc.
    + pose proof (turn_ok _ _ _ _ _ _ _ I T) as J. cbn in J. intros [= <- <-].
      unfold arrived. cbn [map concat fst]. rewrite app_assoc. destruct J as (A & B & C).
      split; [done|]. split; [by apply prefix_app_r|]. destruct C as [C|[C D]]; [by left|right].
      rewrite length_app, take_app_le by lia. split; [lia|done].
Qed.

Lemma synced_at (seen : Bytes) (i : nat) :
  synced (take PREFIX seen) = true -> i ∈ SYNC_PLACES -> seen !! i = Some 0x47.
Proof.
  unfold synced. rewrite forallb_forall. intros H I. specialize (H i ltac:(by apply list_elem_of_In)). dk_bool.
  rewrite nth_lookup in H. assert (L : (i < PREFIX)%nat).
  { apply list_elem_of_In in I. unfold PREFIX. cbn in I. lia. }
  rewrite lookup_take_lt in H by done. destruct (seen !! i); cbn in H; [by subst|done].
Qed.

(** C20. FFmpeg is given what the server sent, in order, and nothing else: what was
    written to it is a prefix of what arrived, whatever the sizes of the chunks and
    wherever a write was cut short; nothing is written before 564 bytes have arrived
    with the sync byte of a transport stream at the first three packets; from then
    on, as long as the loop runs, all that has arrived is written; and what is held
    back is never more than those 564 bytes. *)
Theorem given_input_is_what_arrived (events : list (Arrival * Write * Write)) (p : Pump)
    (r : option TransportError) :
  run new_pump events = (p, r) ->
  written p `prefix_of` arrived events /\ (length (prefix p) <= 564)%nat /\
  (written p <> [] -> (564 <= length (arrived events))%nat /\
     forall i, i ∈ SYNC_PLACES -> arrived events !! i = Some 0x47) /\
  (r = None ->
     (564 <= length (arrived events))%nat /\ written p = arrived events \/
     (length (arrived events) < 564)%nat /\ written p = [] /\ prefix p = arrived events).
Proof.
  intros H. pose proof (run_ok _ _ _ _ _ new_pump_ok H) as I. cbn [app] in I.
  assert (S : stopped_ok p (arrived events)).
  { destruct r; [done|]. rewrite <- (app_nil_r (arrived events)). by apply pump_stops. }
  destruct S as (S1 & S2 & S3). split; [done|]. split; [done|]. split.
  - intros N. destruct S3 as [|[L Y]]; [done|]. split; [done|]. intros i. by apply synced_at.
  - intros ->. destruct I as [P I]. destruct (validated p).
    + left. by destruct I as (L & _ & W).
    + right. destruct I as [L W]. rewrite P. rewrite take_ge by lia. done.
Qed.

(** ** Sessions *)

Definition settled (r : Outcome) : Prop := r <> Err Cleanup /\ r <> Err Cancelled.
Definition unfinished (st : Status) : Prop := match st with Finished r => r = Err Cleanup | _ => True end.

(** What is there of a task in each phase *)
Definition phase_ok (t : Task) : Prop :=
  match phase t with
  | Creating | Opening _ =>
      alive t = false /\ pump t = No_pump /\ (phase t = Creating -> cache t = false) /\ active t = false /\
      permit t = true /\ status t = Starting
  | Readying _ _ => active t = false /\ permit t = true /\ status t = Starting
  | Watching w | Inspecting w =>
      active t = ready w /\ permit t = true /\ status t = (if ready w then Ready (pid w) else Starting)
  | Terminating r => r <> Err Cleanup /\ active t = false /\ permit t = true /\ unfinished (status t)
  | Joining r =>
      r <> Err Cleanup /\ alive t = false /\ pump t <> No_pump /\ active t = false /\ permit t = true /\ unfinished (status t)
  | Removing r | Retrying r =>
      r <> Err Cleanup /\ alive t = false /\ pump t = No_pump /\ active t = false /\ permit t = true /\
      unfinished (status t)
  | Releasing r | Reporting r =>
      settled r /\ alive t = false /\ pump t = No_pump /\ cache t = false /\ active t = false /\
      permit t = (if phase t is Releasing _ then true else false) /\ unfinished (status t)
  | Ending | Done =>
      (exists r, status t = Finished r /\ settled r) /\ alive t = false /\ pump t = No_pump /\ cache t = false /\
      active t = false /\ permit t = false
  | Lost => permit t = false /\ unfinished (status t)
  end.

Record task_ok (t : Task) : Prop := {
  to_phase : phase_ok t;
  to_pump : forall e, pump t = Pumped e -> e <> Cleanup }.

(** What one step leaves of a task that has ended *)
Definition later (t t' : Task) : Prop :=
  (phase t = Done -> phase t' = Done) /\ (phase t = Lost -> phase t' = Lost) /\
  (forall r, status t = Finished r -> settled r -> status t' = Finished r) /\
  (cancelled t = true -> cancelled t' = true).

Lemma later_refl (t : Task) : later t t.
Proof. done. Qed.

Lemma spawned_ok (d : IpAddr * Z) (c : bool) : task_ok (spawned d c).
Proof. done. Qed.

Lemma settle_settled (r : Outcome) : r <> Err Cleanup -> settled (settle r).
Proof. unfold settled. by destruct r as [|[]]. Qed.

Lemma settle_not_cleanup (r : Outcome) : r <> Err Cleanup -> settle r <> Err Cleanup.
Proof. intros H. by apply settle_settled. Qed.

Lemma turn_not_cleanup (p p' : Pump) (a : Arrival) (w1 w2 : Write) (e : TransportError) :
  turn p a w1 w2 = (p', Err e) ->
  (forall part d, w1 = Cut part d -> cut_by d = true) -> (forall part d, w2 = Cut part d -> cut_by d = true) ->
  e <> Cleanup.
Proof.
  intros H C1 C2 ->. unfold turn, feed, write in H.
  assert (G : forall w n d, w = Cut n d -> (forall part d, w = Cut part d -> cut_by d = true) -> d <> Cleanup).
  { intros w n d -> X ->. specialize (X _ _ eq_refl). done. }
  destruct a as [| | |b]; try done. destruct (_ <? _); [done|]. destruct (validated p).
  { destruct w2; [done|]. injection H as _ H. by eapply G. }
  destruct (negb (_ =? _)%nat); [done|]. destruct (negb _); [done|].
  destruct w1; [|injection H as _ H; by eapply G]. destruct w2; [done|]. injection H as _ H. by eapply G.
Qed.

Lemma open_not_cleanup (d : IpAddr * Z) (s : Sent) (e : TransportError) : open d s = Err e -> e <> Cleanup.
Proof.
  unfold open. destruct s as [| | | |r]; try (by intros [= <-]). destruct (peer r); cbn [ok_or]; [|by intros [= <-]].
  destruct (negb (same_peer _ _) || _); [by intros [= <-]|]. destruct (_ || _); by intros [= <-].
Qed.

Lemma poll_not_cleanup (from_utf8 : Bytes -> option string) (x : Look) (t1 t2 : Z) (w w' : Watch) (e : TransportError) :
  poll (inspect from_utf8 x) t1 t2 w = (w', Err e) -> e <> Cleanup.
Proof.
  unfold poll. destruct (inspect _ x) as [f|] eqn:I.
  - destruct (_ || _); by intros [= _ <-].
  - intros [= _ <-]. by apply inspect_errors in I as ->.
Qed.

(** An inspection makes the output ready once and for all. *)
Lemma poll_ready (found : result (option Snapshot) TransportError) (t1 t2 : Z) (w : Watch) :
  ready w = true -> ready (poll found t1 t2 w).1 = true /\ pid (poll found t1 t2 w).1 = pid w.
Proof. intros R. unfold poll. destruct found as [[s|]|]; cbn; [by destruct (bool_decide _)|done..]. Qed.

Section Steps.
Context (from_utf8 : Bytes -> option string).

Lemma leave_ok (r : Outcome) (t : Task) :
  r <> Err Cleanup -> permit t = true -> unfinished (status t) -> (forall e, pump t = Pumped e -> e <> Cleanup) ->
  task_ok (leave r t).
Proof. by split. Qed.

Lemma polled_ok (w w' : Watch) (r : Outcome) (t : Task) :
  phase t = Inspecting w -> task_ok t -> r <> Err Cleanup -> (ready w = true -> ready w' = true /\ pid w' = pid w) ->
  task_ok (polled w (w', r) t).
Proof.
  intros P [I J] N R. unfold phase_ok in I. rewrite P in I. destruct I as (A & B & C). unfold polled. cbn [fst snd].
  destruct (ready w) eqn:W.
  - destruct (R eq_refl) as [R1 R2]. rewrite R1. cbn [negb andb].
    destruct r as [[]|e]; [|apply leave_ok; rewrite ?C; done].
    split; [|done]. unfold phase_ok. cbn. by rewrite R1, R2.
  - destruct (ready w') eqn:W'; cbn [negb andb]; (destruct r as [[]|e]; [|apply leave_ok; cbn; rewrite ?C; done]).
    + split; [|done]. unfold phase_ok. cbn. by rewrite W'.
    + split; [|done]. unfold phase_ok. cbn. by rewrite W'.
Qed.

(** Split what is known in a phase, and what is to be shown. *)
Ltac use_phase I H :=
  let J := fresh "J" in
  destruct I as [I J]; unfold phase_ok in I; rewrite H in I; cbn in I; destruct_and?;
  split; [unfold phase_ok; cbn|cbn; try done].

Lemma removed_ok (r : Outcome) (t : Task) :
  phase t = Removing r \/ phase t = Retrying r -> task_ok t -> task_ok (removed r t).
Proof.
  intros H I. destruct H as [H|H]; use_phase I H;
    (split; [by apply settle_settled|]); repeat (split; [done|]); done.
Qed.

Ltac fin :=
  repeat match goal with |- _ /\ _ => split end;
  try first [ done | congruence | by eauto | match goal with S : status _ = _ |- _ => rewrite S; by repeat case_match end
    | by apply settle_not_cleanup
    | match goal with J : forall e, pump _ = Pumped e -> _, P : pump _ = Pumped ?e |- _ => specialize (J e P); congruence end ].

Lemma work_ok (t t' : Task) : work from_utf8 t t' -> task_ok t -> task_ok t'.
Proof.
  intros W I. destruct W as
    [n H|H|st s e H O _ _|st s x H O _|st p H _|st p x H _|w H _|w e H _ P|w H _ P|w H _|w H _|w x t1 t2 H L
    |r ok H|r e H P|r H P|r ok H|r ok H|r H|r H|H|H].
  - use_phase I H. fin.
  - use_phase I H. fin.
  - use_phase I H. apply open_not_cleanup in O. fin.
  - destruct x as [| |q []]; use_phase I H; fin.
  - use_phase I H; fin.
  - destruct x; use_phase I H; fin.
  - use_phase I H; fin.
  - use_phase I H; fin.
  - use_phase I H; fin.
  - use_phase I H; fin.
  - use_phase I H; fin.
  - destruct (poll _ t1 t2 w) as [w' r] eqn:P. eapply polled_ok; [done..| |].
    + intros ->. by eapply poll_not_cleanup in P.
    + intros R. destruct (poll_ready (inspect from_utf8 x) t1 t2 w R) as [A B]. by rewrite P in A, B.
  - destruct ok; [|done]. unfold terminated. destruct (pump t) eqn:Q; use_phase I H; fin.
  - use_phase I H; fin.
  - use_phase I H; fin.
  - destruct ok; [apply removed_ok; [by left|done]|]. use_phase I H; fin.
  - destruct ok; [apply removed_ok; [by right|done]|done].
  - use_phase I H; fin.
  - use_phase I H; fin.
  - use_phase I H; fin.
  - destruct (phase t) eqn:E; try done; use_phase I E; fin.
Qed.

Lemma pumps_ok (t t' : Task) : pumps t t' -> task_ok t -> task_ok t'.
Proof.
  intros W [I J]. destruct W as [p p' a w1 w2 P T C|p p' a w1 w2 e P T C C1 C2|p P].
  all: split; [|cbn; try done].
  all: try (unfold phase_ok in *; cbn; destruct (phase t); destruct_and?; fin).
  all: intros d [= <-]; by eapply turn_not_cleanup.
Qed.

Lemma exit_ok (t : Task) : task_ok t -> task_ok (with_alive false t).
Proof. intros [I J]. split; [|done]. unfold phase_ok in *. cbn. destruct (phase t); destruct_and?; fin. Qed.

Lemma cancel_ok (t : Task) : task_ok t -> task_ok (cancel t).
Proof. intros [I J]. split; [|done]. unfold phase_ok in *. cbn. destruct (phase t); destruct_and?; fin. Qed.

(** A status that is final is only replaced by none. *)
Lemma not_settled (t : Task) (r : Outcome) :
  task_ok t -> status t = Finished r -> settled r -> phase t = Ending \/ phase t = Done.
Proof.
  intros [I _] S [N _]. unfold phase_ok in I.
  destruct (phase t) eqn:P; auto; destruct_and?; exfalso; try congruence;
    try (rewrite S in *; cbn in *; congruence); by destruct (ready w); congruence.
Qed.

Lemma work_later (t t' : Task) : work from_utf8 t t' -> task_ok t -> later t t'.
Proof.
  intros W I.
  assert (N : forall r, status t = Finished r -> settled r -> phase t = Ending \/ phase t = Done)
    by (intros r; by apply not_settled).
  assert (A : phase t <> Done /\ phase t <> Lost).
  { split; intros E; destruct W as [? H|H|? ? ? H|? ? ? H|? ? H|? ? ? H|? H|? ? H|? H|? H|? H|? ? ? ? H
      |? ? H|? ? H|? H|? ? H|? ? H|? H|? H|H|H]; rewrite E in H; done. }
  destruct A as [A B]. split; [done|]. split; [done|]. split.
  - intros r S T. destruct (N r S T) as [E|E]; [|done].
    destruct W; try congruence; done.
  - intros C. destruct W; try done; unfold polled, announce, terminated, removed;
      repeat case_match; cbn; congruence.
Qed.

Lemma pumps_later (t t' : Task) : pumps t t' -> later t t'.
Proof. by intros []. Qed.

Lemma work_permit (t t' : Task) : work from_utf8 t t' -> permit t' = true -> permit t = true.
Proof.
  intros W. destruct W; cbn; try done; unfold spawn, waited, polled, announce, terminated, removed;
    repeat case_match; done.
Qed.

(** *** The owner *)

Definition session_ok (t : Task) (s : Session) : Prop :=
  (task s = false -> phase t = Done) /\
  match call s with
  | Finishing _ (Joining_task r) => status t = Finished r /\ settled r
  | Was_finished r => r = Err Cleanup \/ phase t = Done /\ status t = Finished r /\ settled r
  | _ => True
  end.

Definition reader_ok (r : Reader) : Prop :=
  match r with Reading_again _ b | Read _ (Ok b) => blen b <= FILE_BYTES | _ => True end.

Definition shutdown_ok (o : Owner) (x : Shutdown) : Prop :=
  closed o = true /\ (x = Was_shut (Ok tt) -> Forall (fun t => ended t = true) (tasks o)).

Record owner_ok (o : Owner) : Prop := {
  oo_tasks : Forall task_ok (tasks o);
  oo_permit : forall i j t u, tasks o !! i = Some t -> tasks o !! j = Some u ->
    permit t = true -> permit u = true -> i = j;
  oo_sessions : Forall2 session_ok (tasks o) (sessions o);
  oo_readers : Forall reader_ok (readers o);
  oo_shutdowns : Forall (shutdown_ok o) (shutdowns o);
  oo_root : root_cancelled o = true -> Forall (fun t => cancelled t = true) (tasks o) }.

Lemma later_ended (t t' : Task) : later t t' -> ended t = true -> ended t' = true.
Proof. intros (A & B & _). unfold ended. destruct (phase t); try done; intros _; [by rewrite A|by rewrite B]. Qed.

Lemma later_session (t t' : Task) (s : Session) : later t t' -> session_ok t s -> session_ok t' s.
Proof.
  intros (A & _ & C & _) [F G]. split; [auto|]. destruct (call s) as [| |b [| |r]| |r]; try done.
  - destruct G as [G1 G2]. split; [by apply C|done].
  - destruct G as [G|(G1 & G2 & G3)]; [by left|right]. split; [auto|]. split; [by apply C|done].
Qed.

(** A task goes on. *)
Lemma task_goes_on (o : Owner) (i : nat) (t t' : Task) :
  owner_ok o -> tasks o !! i = Some t -> task_ok t' -> later t t' -> (permit t' = true -> permit t = true) ->
  owner_ok (with_tasks (<[i := t']> (tasks o)) o).
Proof.
  intros [T P S R D C] E K L M.
  assert (G : forall j u, <[i := t']> (tasks o) !! j = Some u -> permit u = true ->
              exists v, tasks o !! j = Some v /\ permit v = true).
  { intros j u H U. apply list_lookup_insert_Some in H as [(-> & <- & _)|[_ H]]; eauto. }
  split; cbn; try done.
  - by apply Forall_insert.
  - intros j k u v Hu Hv Pu Pv. destruct (G _ _ Hu Pu) as (u' & Eu & Pu'). destruct (G _ _ Hv Pv) as (v' & Ev & Pv').
    by eapply P.
  - destruct (Forall2_lookup_l _ _ _ _ _ S E) as (s & Es & O).
    rewrite <- (list_insert_id (sessions o) i s Es). apply Forall2_insert; [done|]. by eapply later_session.
  - eapply Forall_impl; [exact D|]. intros x [D1 D2]. split; [done|]. intros ->. apply Forall_insert; [by apply D2|].
    eapply later_ended; [done|]. by eapply (Forall_lookup_1 _ _ _ _ (D2 eq_refl)).
  - intros Q. apply Forall_insert; [by apply C|]. apply L. by eapply (Forall_lookup_1 _ _ _ _ (C Q)).
Qed.

Lemma session_update_ok (o : Owner) (i : nat) (t : Task) (s : Session) :
  owner_ok o -> tasks o !! i = Some t -> session_ok t s -> owner_ok (with_sessions (<[i := s]> (sessions o)) o).
Proof.
  intros [T P S R D C] E K. split; cbn; try done.
  rewrite <- (list_insert_id (tasks o) i t E). by apply Forall2_insert.
Qed.

Lemma advance_ok (t : Task) (s : Session) : task_ok t -> session_ok t s -> session_ok t (advance t s).
Proof.
  intros T [F G]. unfold advance. destruct (call s) as [|[| |]|b [| |r]| |] eqn:E.
  all: unfold session_ok; rewrite ?E; cbn; try done.
  - split; [done|]. by destruct (ready_of _).
  - destruct (changed t s) as [[]|]; cbn; [done..|]. by rewrite E.
  - split; [done|]. destruct (status t) as [| |r] eqn:S; try done. case_bool_decide as N; cbn [negb andb].
    { by left. }
    assert (K : settled r).
    { destruct T as [T _]. unfold phase_ok in T. rewrite S in T.
      destruct (phase t); destruct_and?; try done; try (destruct (ready w); congruence).
      all: destruct H as (q & [= ->] & Q); done. }
    destruct (task s) eqn:H; [done|]. right. split; [by apply F|done].
  - destruct (changed t s) as [[]|]; cbn; [done|by split; [|left]|]. by rewrite E.
  - destruct (phase t) eqn:P; cbn; rewrite ?E; try done; [|by split; [|left]].
    split; [done|]. by right.
Qed.

Lemma unheld (o : Owner) (t : Task) (i : nat) :
  available o <> 0%nat -> tasks o !! i = Some t -> permit t = false.
Proof.
  unfold available. intros A E. destruct (permit t) eqn:P; [|done]. exfalso.
  assert (I : t ∈ filter (fun t => permit t = true) (tasks o)).
  { apply list_elem_of_filter. split; [done|]. by eapply list_elem_of_lookup_2. }
  destruct (filter _ _); [by apply not_elem_of_nil in I|]. cbn in A. lia.
Qed.

Lemma start_owner_ok (b : bool) (d : IpAddr * Z) (o o' : Owner) : start b d o = Ok o' -> owner_ok o -> owner_ok o'.
Proof.
  unfold start. destruct (negb b); [done|]. destruct (closed o) eqn:C; [done|].
  destruct (available o =? 0)%nat eqn:A; [done|]. apply Nat.eqb_neq in A. intros [= <-] [T P S R D Q].
  assert (U := fun t i => unheld o t i A). split; cbn; try done.
  - apply Forall_app_2; [done|]. constructor; [apply spawned_ok|done].
  - intros i j t u Hi Hj Pt Pu. apply lookup_app_Some in Hi as [Hi|[Li Hi]], Hj as [Hj|[Lj Hj]].
    + by rewrite (U _ _ Hi) in Pt.
    + by rewrite (U _ _ Hi) in Pt.
    + by rewrite (U _ _ Hj) in Pu.
    + apply list_lookup_singleton_Some in Hi as [Hi _], Hj as [Hj _]. lia.
  - apply Forall2_app; [done|]. by repeat constructor.
  - eapply Forall_impl; [exact D|]. intros x [X _]. congruence.
  - intros E. apply Forall_app_2; [by apply Q|]. by repeat constructor.
Qed.

Lemma cancel_all_ok (o : Owner) : owner_ok o -> owner_ok (cancel_all o).
Proof.
  intros [T P S R D Q]. split; cbn; try done.
  - apply Forall_map. eapply Forall_impl; [exact T|]. apply cancel_ok.
  - intros i j t u Hi Hj. rewrite list_lookup_fmap in Hi, Hj.
    destruct (tasks o !! i) as [t0|] eqn:Ei; [|done]. destruct (tasks o !! j) as [u0|] eqn:Ej; [|done].
    injection Hi as <-. injection Hj as <-. cbn. by eapply P.
  - apply Forall2_fmap_l. eapply Forall2_impl; [exact S|]. done.
  - eapply Forall_impl; [exact D|]. intros x [X Y]. split; [done|]. intros E. apply Forall_map. by apply Y.
  - intros _. apply Forall_map. by apply Forall_true.
Qed.

Lemma close_ok (o : Owner) : owner_ok o -> owner_ok (close o).
Proof. intros [T P S R D Q]. split; try done. eapply Forall_impl; [exact D|]. by intros x [_ Y]. Qed.

Lemma shutdowns_ok (l : list Shutdown) (o : Owner) :
  owner_ok o -> Forall (shutdown_ok o) l -> owner_ok (with_shutdowns l o).
Proof. by intros []. Qed.

Lemma read_limit_max (name : string) (n : Z) : read_limit name = Some n -> n <= FILE_BYTES.
Proof.
  unfold read_limit, FILE_BYTES. destruct (String.eqb _ _); [intros [= <-]; lia|].
  destruct (_ || _); [intros [= <-]; lia|done].
Qed.

Lemma reads_ok (o : Owner) (r r' : Reader) : reads o r r' -> reader_ok r -> reader_ok r'.
Proof.
  intros H K. destruct H as [i name t E|i name t x E C|i b t E]; cbn; [by destruct (active t)| |by destruct (active t)].
  destruct (read_file name x) as [b|] eqn:F; [|done]. apply read_file_bounds in F as (n & N & L).
  apply read_limit_max in N. cbn. lia.
Qed.

Lemma readers_ok (l : list Reader) (o : Owner) : owner_ok o -> Forall reader_ok l -> owner_ok (with_readers l o).
Proof. by intros []. Qed.

(** The session of a task, and back *)
Lemma paired (o : Owner) (i : nat) (s : Session) :
  owner_ok o -> sessions o !! i = Some s -> exists t, tasks o !! i = Some t /\ session_ok t s.
Proof. intros [_ _ S _ _ _] E. by eapply Forall2_lookup_r in S. Qed.

Lemma task_at (o : Owner) (i : nat) (t : Task) : owner_ok o -> tasks o !! i = Some t -> task_ok t.
Proof. intros [T _ _ _ _ _] E. by eapply Forall_lookup_1 in T. Qed.

(** A call that begins, or is given up *)
Lemma quiet_call (t : Task) (s : Session) (c : Call) :
  session_ok t s -> (forall b r, c <> Finishing b (Joining_task r)) -> (forall r, c = Was_finished r -> r = Err Cleanup) ->
  session_ok t (with_call c s).
Proof.
  intros [F _] A B. split; [done|]. cbn. destruct c as [| |b [| |r]| |r]; try done; [by edestruct A|].
  left. by apply B.
Qed.

Lemma owner_step_ok (o o' : Owner) : step from_utf8 o o' -> owner_ok o -> owner_ok o'.
Proof.
  intros H I. destruct H as [d o' E|i t t' E W|i t t' E W|i t E|i t E|i s E Q|i s E Q|i s t E F Q|i s t E F
    |i s w E C|i s w E C|i s E|i name|k r r' E W| |k E|k E T|k E|].
  - by eapply start_owner_ok.
  - pose proof (task_at _ _ _ I E). eapply task_goes_on; [done..|by eapply work_ok|by eapply work_later|by apply work_permit].
  - pose proof (task_at _ _ _ I E). eapply task_goes_on; [done..|by eapply pumps_ok|by eapply pumps_later|by destruct W].
  - eapply task_goes_on; [done..|by eapply exit_ok, task_at| |]; done.
  - eapply task_goes_on; [done..|by eapply cancel_ok, task_at| |]; done.
  - destruct (paired _ _ _ I E) as (t & T & K). eapply session_update_ok; [done..|]. by apply quiet_call.
  - destruct (paired _ _ _ I E) as (t & T & K). eapply session_update_ok; [done..|]. by apply quiet_call.
  - destruct (paired _ _ _ I E) as (t0 & T & K). rewrite F in T. injection T as <-.
    apply (session_update_ok (with_tasks (<[i := cancel t]> (tasks o)) o) i (cancel t)); [|by cbn; apply list_lookup_insert_eq; eapply lookup_lt_Some|by apply quiet_call].
    eapply task_goes_on; [done..|by eapply cancel_ok, task_at| |]; done.
  - destruct (paired _ _ _ I E) as (t0 & T & K). rewrite F in T. injection T as <-.
    eapply session_update_ok; [done..|]. apply advance_ok; [by eapply task_at|done].
  - destruct (paired _ _ _ I E) as (t & T & K). eapply session_update_ok; [done..|]. by apply quiet_call.
  - destruct (paired _ _ _ I E) as (t & T & K). eapply session_update_ok; [done..|].
    apply quiet_call; [done..|]. by intros r [= <-].
  - destruct (paired _ _ _ I E) as (t & T & K). eapply session_update_ok; [done..|]. by apply quiet_call.
  - apply readers_ok; [done|]. apply Forall_app_2; [apply I|]. by repeat constructor.
  - apply readers_ok; [done|]. apply Forall_insert; [apply I|]. eapply reads_ok; [done|].
    by eapply Forall_lookup_1; [apply I|].
  - apply shutdowns_ok; [by apply close_ok|]. apply Forall_app_2; [by apply close_ok in I; apply I|].
    by repeat constructor.
  - apply cancel_all_ok in I as J. apply shutdowns_ok; [done|]. apply Forall_insert; [apply J|].
    split; [|done]. by eapply (Forall_lookup_1 _ _ _ _ (oo_shutdowns _ I)) in E as [].
  - apply shutdowns_ok; [done|]. apply Forall_insert; [apply I|].
    eapply (Forall_lookup_1 _ _ _ _ (oo_shutdowns _ I)) in E as [C _]. split; [done|]. intros _.
    apply Forall_lookup. intros i t Ht. destruct (ended t) eqn:N; [done|].
    assert (X : t ∈ tracked o) by (apply list_elem_of_filter; split; [done|by eapply list_elem_of_lookup_2]).
    rewrite T in X. by apply not_elem_of_nil in X.
  - apply shutdowns_ok; [done|]. apply Forall_insert; [apply I|].
    eapply (Forall_lookup_1 _ _ _ _ (oo_shutdowns _ I)) in E as [C _]. by split.
  - by apply cancel_all_ok, close_ok.
Qed.

Lemma reachable_ok (o : Owner) : reachable from_utf8 o -> owner_ok o.
Proof.
  induction 1 as [|o o' _ IH H]; [|by eapply owner_step_ok].
  by split.
Qed.

(** *** What is left *)

Definition gone (t : Task) : Prop :=
  phase t = Done /\ alive t = false /\ pump t = No_pump /\ cache t = false /\ active t = false /\ permit t = false.

Lemma done_gone (t : Task) : task_ok t -> phase t = Done -> gone t.
Proof. intros [I _] P. unfold phase_ok in I. rewrite P in I. unfold gone. by destruct_and?. Qed.

Lemma insert_later (o : Owner) (i j : nat) (t t' u : Task) :
  tasks o !! i = Some t -> later t t' -> tasks o !! j = Some u ->
  exists u', <[i := t']> (tasks o) !! j = Some u' /\ later u u'.
Proof.
  intros E L F. destruct (decide (i = j)) as [->|N].
  - exists t'. rewrite list_lookup_insert_eq by by eapply lookup_lt_Some. split; [done|]. congruence.
  - exists u. by rewrite list_lookup_insert_ne.
Qed.

Lemma step_later (o o' : Owner) (i : nat) (t : Task) :
  step from_utf8 o o' -> owner_ok o -> tasks o !! i = Some t -> exists t', tasks o' !! i = Some t' /\ later t t'.
Proof.
  intros H I E. destruct H; cbn; eauto using later_refl.
  - unfold start in H. repeat case_match; try done. injection H as <-. cbn. exists t.
    split; [by apply lookup_app_l_Some|done].
  - eapply insert_later; [done| |done]. eapply work_later; [done|]. by eapply task_at.
  - eapply insert_later; [done| |done]. by eapply pumps_later.
  - by eapply insert_later.
  - by eapply insert_later.
  - by eapply insert_later.
  - exists (cancel t). rewrite list_lookup_fmap, E. done.
  - exists (cancel t). rewrite list_lookup_fmap, E. done.
Qed.

Lemma later_trans (t u v : Task) : later t u -> later u v -> later t v.
Proof. intros (A & B & C & D) (A' & B' & C' & D'). repeat split; auto. Qed.

Lemma steps_later (o o' : Owner) (i : nat) (t : Task) :
  rtc (step from_utf8) o o' -> owner_ok o -> tasks o !! i = Some t ->
  owner_ok o' /\ exists t', tasks o' !! i = Some t' /\ later t t'.
Proof.
  intros H. revert t. induction H as [o|o o1 o' S _ IH]; intros t I E; [eauto using later_refl|].
  destruct (step_later _ _ _ _ S I E) as (t1 & E1 & L1).
  destruct (IH t1 (owner_step_ok _ _ S I) E1) as (J & t2 & E2 & L2). eauto using later_trans.
Qed.

(** C17. When a session is told that its transport has finished, with any result but
    the one for an unconfirmed cleanup, then from that moment on, whatever is
    interleaved: its process has been ended, the task that feeds it is joined, its
    directory is removed, its output cannot be read, its permit is back, and the
    result stays the same; and a cancellation is never reported as a failure. *)
Theorem finished_sessions_leave_nothing (o o' : Owner) (i : nat) (s : Session) (r : Outcome) :
  reachable from_utf8 o -> sessions o !! i = Some s -> call s = Was_finished r -> r <> Err Cleanup ->
  rtc (step from_utf8) o o' ->
  r <> Err Cancelled /\ exists t, tasks o' !! i = Some t /\ gone t /\ status t = Finished r.
Proof.
  intros H E C N S. apply reachable_ok in H. destruct (paired _ _ _ H E) as (t & T & _ & K). rewrite C in K.
  destruct K as [|(P & F & Z)]; [done|]. split; [apply Z|].
  destruct (steps_later _ _ _ _ S H T) as (J & t' & T' & A & _ & B & _). exists t'. split; [done|].
  split; [apply done_gone; [by eapply task_at|by apply A]|by apply B].
Qed.

(** What a transport uses; a task that was lost with its runtime apart *)
Definition uses (t : Task) : Prop :=
  phase t <> Lost /\ (alive t = true \/ pump t <> No_pump \/ cache t = true \/ active t = true).

Lemma uses_permit (t : Task) : task_ok t -> uses t -> permit t = true.
Proof.
  intros [I _] [N U]. unfold phase_ok in I. destruct (phase t); destruct_and?; try done.
  all: exfalso; destruct U as [U|[U|[U|U]]]; try congruence.
Qed.

Lemma ended_unused (t : Task) : task_ok t -> ended t = true -> ~ uses t.
Proof.
  intros K E U. apply uses_permit in U as P; [|done]. destruct K as [I _], U as [U _]. unfold ended in E.
  unfold phase_ok in I. destruct (phase t); try done; destruct_and?; congruence.
Qed.

Lemma closed_step (o o' : Owner) :
  step from_utf8 o o' -> closed o = true -> closed o' = true /\ length (tasks o') = length (tasks o).
Proof.
  intros H C. destruct H; cbn; rewrite ?length_insert, ?length_fmap; try done.
  unfold start in H. rewrite C in H. done.
Qed.

Lemma closed_steps (o o' : Owner) :
  rtc (step from_utf8) o o' -> closed o = true -> length (tasks o') = length (tasks o).
Proof.
  induction 1 as [|o o1 o' S _ IH]; [done|]. intros C. destruct (closed_step _ _ S C) as [C1 L]. rewrite <- L. auto.
Qed.

Lemma all_ended_idle (o : Owner) :
  owner_ok o -> Forall (fun t => ended t = true) (tasks o) ->
  idle o = true /\ forall i t, tasks o !! i = Some t -> ~ uses t.
Proof.
  intros I E. assert (U : forall t, t ∈ tasks o -> ended t = true /\ permit t = false).
  { intros t X. apply list_elem_of_lookup in X as [i X]. pose proof (Forall_lookup_1 _ _ _ _ E X) as Y. split; [done|].
    destruct (task_at _ _ _ I X) as [K _]. unfold phase_ok in K. unfold ended in Y.
    destruct (phase t); try done; by destruct_and?. }
  split.
  - unfold idle, available, tracked.
    assert (F : filter (fun t => ended t = false) (tasks o) = []).
    { destruct (filter _ _) as [|t l] eqn:F; [done|].
      assert (X : t ∈ filter (fun t => ended t = false) (tasks o)) by (rewrite F; by left).
      apply list_elem_of_filter in X as [X Y]. destruct (U t Y). congruence. }
    assert (G : filter (fun t => permit t = true) (tasks o) = []).
    { destruct (filter (fun t => permit t = true) _) as [|t l] eqn:G; [done|].
      assert (X : t ∈ filter (fun t => permit t = true) (tasks o)) by (rewrite G; by left).
      apply list_elem_of_filter in X as [X Y]. destruct (U t Y). congruence. }
    by rewrite F, G.
  - intros i t X. apply ended_unused; [by eapply task_at|]. apply U. by eapply list_elem_of_lookup_2.
Qed.

(** C19. There is one transport at most: two tasks never use a process, a directory,
    an input or a readable output at the same time; an owner that says it is idle
    uses none; and after a shutdown that was confirmed none is used again. *)
Theorem one_transport_at_most (o : Owner) :
  reachable from_utf8 o ->
  (forall i j t u, tasks o !! i = Some t -> tasks o !! j = Some u -> uses t -> uses u -> i = j) /\
  (idle o = true -> forall i t, tasks o !! i = Some t -> ~ uses t) /\
  (Was_shut (Ok tt) ∈ shutdowns o -> forall o', rtc (step from_utf8) o o' ->
     idle o' = true /\ length (tasks o') = length (tasks o) /\ forall i t, tasks o' !! i = Some t -> ~ uses t).
Proof.
  intros R. apply reachable_ok in R. split; [|split].
  - intros i j t u E F U V. eapply (oo_permit _ R); [done..| |]; eapply uses_permit; try done; by eapply task_at.
  - unfold idle. intros I i t E. apply andb_true_iff in I as [I _]. apply Nat.eqb_eq, nil_length_inv in I.
    apply ended_unused; [by eapply task_at|]. destruct (ended t) eqn:N; [done|].
    assert (X : t ∈ tracked o) by (apply list_elem_of_filter; split; [done|by eapply list_elem_of_lookup_2]).
    rewrite I in X. by apply not_elem_of_nil in X.
  - intros X o' S. apply list_elem_of_lookup in X as [k X].
    destruct (Forall_lookup_1 _ _ _ _ (oo_shutdowns _ R) X) as [C D]. specialize (D eq_refl).
    pose proof (closed_steps _ _ S C) as L.
    assert (J : owner_ok o') by (clear - S R; induction S; eauto using owner_step_ok).
    assert (F : Forall (fun t => ended t = true) (tasks o')).
    { apply Forall_lookup. intros i t Ht. apply lookup_lt_Some in Ht as Hl. rewrite L in Hl.
      apply lookup_lt_is_Some in Hl as [u Hu]. destruct (steps_later _ _ _ _ S R Hu) as (_ & t' & E & G).
      rewrite Ht in E. injection E as <-. eapply later_ended; [done|]. by eapply (Forall_lookup_1 _ _ _ _ D). }
    destruct (all_ended_idle _ J F). done.
Qed.

(** A session reads as long as its output is watched, and no longer: who reads
    a file through an output gets at most 4 MiB of it, and only if at the last look
    the task of that session was watching a running transport whose first segments
    an inspection had found complete, with the same process announced to the session. *)
Theorem output_is_read_while_watched (o : Owner) (k i : nat) (r : Reader) (b : Bytes) :
  reachable from_utf8 o -> readers o !! k = Some r -> reads o r (Read i (Ok b)) ->
  blen b <= 4 * 1024 * 1024 /\
  exists t, tasks o !! i = Some t /\ active t = true /\
    (phase t = Lost \/
     exists w, (phase t = Watching w \/ phase t = Inspecting w) /\ ready w = true /\ permit t = true /\
       status t = Ready (pid w)).
Proof.
  intros H E R. apply reachable_ok in H. pose proof (Forall_lookup_1 _ _ _ _ (oo_readers _ H) E) as K.
  pose proof (reads_ok _ _ _ R K) as B. split; [exact B|]. remember (Read i (Ok b)) as q eqn:Q.
  destruct R as [j name t F|j name t x F C|j c t F]; [by destruct (active t)|by destruct (read_file name x)|].
  destruct (active t) eqn:A; [|done]. injection Q as <- <-. exists t. split; [done|]. split; [done|].
  destruct (task_at _ _ _ H F) as [I _]. unfold phase_ok in I. rewrite A in I.
  destruct (phase t); destruct_and?; try done; [right..|by left].
  - exists w. rewrite <- H0 in H3. auto.
  - exists w. rewrite <- H0 in H3. auto.
Qed.

(** *** Cancellation *)

(** How many rules a cancelled task has left *)
Definition rank (p : Phase) : nat :=
  match p with
  | Creating => 13 | Opening _ => 12 | Readying _ _ => 11 | Inspecting _ => 11 | Watching _ => 10
  | Terminating _ => 9 | Joining _ => 8 | Removing _ => 7 | Retrying _ => 6 | Releasing _ => 5 | Reporting _ => 4
  | Ending => 3 | Done => 0 | Lost => 0
  end.
Definition measure (t : Task) : nat := rank (phase t) + match pump t with Pumping _ => 1 | _ => 0 end.

Lemma work_measure (t t' : Task) :
  work from_utf8 t t' -> cancelled t = true -> t' = t \/ (measure t' < measure t)%nat.
Proof.
  intros W C. unfold measure. destruct W as
    [n H|H|st s e H O _ _|st s x H O X|st p H _|st p x H X|w H _|w e H X P|w H X P|w H X|w H X|w x t1 t2 H L
    |r ok H|r e H P|r H P|r ok H|r ok H|r H|r H|H|H]; try congruence.
  all: try (right; rewrite H; cbn; destruct (pump t); lia).
  - right. rewrite H. destruct (poll _ _ _ _) as [w' [[]|e]]; unfold polled; cbn [fst snd];
      destruct (ready w' && _); cbn; destruct (pump t); lia.
  - destruct ok; [right|by left]. rewrite H. unfold terminated. destruct (pump t) eqn:Q; cbn; rewrite Q; lia.
  - right. rewrite H. destruct ok; cbn; destruct (pump t); lia.
  - destruct ok; [right|by left]. rewrite H. cbn. destruct (pump t); lia.
  - right. cbn. destruct (phase t) eqn:P; try done; cbn; destruct (pump t); lia.
Qed.

Lemma pumps_measure (t t' : Task) :
  pumps t t' -> cancelled t = true -> (measure t' < measure t)%nat.
Proof. intros W C. unfold measure. destruct W; try congruence; cbn; rewrite H; lia. Qed.

(** Runs in which the task of a session or its pump makes [n] steps that change it;
    an attempt to end the process or to remove the directory that is refused is
    none. *)
Inductive runs (i : nat) : nat -> Owner -> Owner -> Prop :=
| runs_end o : runs i 0 o o
| runs_task n o t t' o' :
    tasks o !! i = Some t -> work from_utf8 t t' \/ pumps t t' -> t' <> t ->
    runs i n (with_tasks (<[i := t']> (tasks o)) o) o' -> runs i (S n) o o'
| runs_other n o o1 o' : step from_utf8 o o1 -> runs i n o1 o' -> runs i n o o'.

Lemma insert_measure (o : Owner) (i j : nat) (t t' u : Task) :
  tasks o !! i = Some t -> (measure t' <= measure t)%nat -> tasks o !! j = Some u ->
  exists u', <[i := t']> (tasks o) !! j = Some u' /\ (measure u' <= measure u)%nat.
Proof.
  intros E L F. destruct (decide (i = j)) as [->|N].
  - exists t'. rewrite list_lookup_insert_eq by by eapply lookup_lt_Some. split; [done|]. congruence.
  - exists u. by rewrite list_lookup_insert_ne.
Qed.

Lemma cancelled_at (o : Owner) (i : nat) (t t' : Task) (u : Task) :
  tasks o !! i = Some t -> tasks o !! i = Some u -> cancelled t = true -> cancelled u = true.
Proof. congruence. Qed.

Lemma step_measure (o o' : Owner) (i : nat) (t : Task) :
  step from_utf8 o o' -> tasks o !! i = Some t -> cancelled t = true ->
  exists t', tasks o' !! i = Some t' /\ (measure t' <= measure t)%nat.
Proof.
  intros H E C. assert (R : exists t', tasks o !! i = Some t' /\ (measure t' <= measure t)%nat) by eauto.
  destruct H; cbn; try exact R.
  - unfold start in H. repeat case_match; try done. injection H as <-. cbn. exists t.
    split; [by apply lookup_app_l_Some|done].
  - destruct (decide (i0 = i)) as [->|N]; [|exists t; by rewrite list_lookup_insert_ne].
    rewrite E in H. injection H as <-. eapply insert_measure; [done| |done].
    destruct (work_measure _ _ H0 C) as [->|]; lia.
  - destruct (decide (i0 = i)) as [->|N]; [|exists t; by rewrite list_lookup_insert_ne].
    rewrite E in H. injection H as <-. eapply insert_measure; [done| |done].
    pose proof (pumps_measure _ _ H0 C). lia.
  - by eapply insert_measure.
  - by eapply insert_measure.
  - by eapply insert_measure.
  - exists (cancel t). rewrite list_lookup_fmap, E. done.
  - exists (cancel t). rewrite list_lookup_fmap, E. done.
Qed.

Lemma runs_ended (i n : nat) (o o' : Owner) (t : Task) :
  runs i n o o' -> owner_ok o -> tasks o !! i = Some t -> cancelled t = true ->
  ended t = true \/ (measure t < n)%nat -> exists t', tasks o' !! i = Some t' /\ ended t' = true.
Proof.
  intros R. revert t. induction R as [o|n o t0 t' o' T W N _ IH|n o o1 o' S _ IH]; intros t I E C D.
  - destruct D as [D|D]; [eauto|lia].
  - rewrite E in T. injection T as <-.
    assert (S : step from_utf8 o (with_tasks (<[i := t']> (tasks o)) o))
      by (destruct W; [by eapply t_work|by eapply t_pump]).
    assert (L : later t t')
      by (destruct W; [eapply work_later; [done|by eapply task_at]|by eapply pumps_later]).
    apply (IH t'); [by eapply owner_step_ok|cbn; apply list_lookup_insert_eq; by eapply lookup_lt_Some|by apply L|].
    destruct D as [D|D]; [left; by eapply later_ended|]. right. destruct W as [W|W].
    + destruct (work_measure _ _ W C); [done|lia].
    + pose proof (pumps_measure _ _ W C). lia.
  - destruct (step_later _ _ _ _ S I E) as (t1 & E1 & L). destruct (step_measure _ _ _ _ S E C) as (t2 & E2 & M).
    rewrite E1 in E2. injection E2 as <-.
    apply (IH t1); [by eapply owner_step_ok|done|by apply L|].
    destruct D as [D|D]; [left; by eapply later_ended|right; lia].
Qed.

(** A cancelled task can go on. *)
Lemma cancelled_progress (t : Task) :
  task_ok t -> cancelled t = true -> ended t = false ->
  exists t', (work from_utf8 t t' \/ pumps t t') /\ t' <> t /\ phase t' <> Lost.
Proof.
  intros [I _] C E. unfold ended in E.
  assert (D : forall t', phase t' <> phase t -> t' <> t) by (intros t' N ->; done).
  unfold phase_ok in I. destruct (phase t) eqn:P; try done.
  - eexists. split; [left; by apply w_not_created|]. split; [apply D; cbn; congruence|done].
  - eexists. split; [left; eapply (w_refused _ _ _ Sent_cancelled); [done|done|by left|done]|].
    split; [apply D; cbn; congruence|done].
  - eexists. split; [left; by eapply w_waiting_cancelled|]. split; [apply D; cbn; congruence|done].
  - eexists. split; [left; by eapply w_cancelled|]. split; [apply D; cbn; congruence|done].
  - eexists. split; [left; by apply (w_inspected _ _ w (mk_look None Open_failed (fun _ => Ok None)) 0 0)|].
    unfold polled. cbn. rewrite andb_negb_r. cbn. split; [apply D; cbn; congruence|done].
  - eexists. split; [left; by apply (w_terminated _ _ r true)|].
    unfold terminated. split; [apply D|]; destruct (pump t); cbn; congruence.
  - destruct_and?. destruct (pump t) as [|p|e|] eqn:Q; [done|..].
    + exists (with_pump (Pumped Cancelled) t). split; [right; by apply (p_end _ p p Arrival_cancelled Whole Whole)|].
      split; [|cbn; congruence]. intros F. apply (f_equal pump) in F. cbn in F. congruence.
    + eexists. split; [left; by eapply w_joined|]. split; [apply D; cbn; congruence|done].
    + eexists. split; [left; by eapply w_join_lost|]. split; [apply D; cbn; congruence|done].
  - eexists. split; [left; by apply (w_removed _ _ r true)|]. split; [apply D; cbn; congruence|done].
  - eexists. split; [left; by apply (w_retried _ _ r true)|]. split; [apply D; cbn; congruence|done].
  - eexists. split; [left; by eapply w_released|]. split; [apply D; cbn; congruence|done].
  - eexists. split; [left; by eapply w_reported|]. split; [apply D; cbn; congruence|done].
  - eexists. split; [left; by eapply w_ended|]. split; [apply D; cbn; congruence|done].
Qed.

(** A call that runs alone *)
Fixpoint turns (n : nat) (t : Task) (s : Session) : Session :=
  match n with O => s | S n => turns n t (advance t s) end.

Lemma ended_answers (t : Task) (s : Session) (b : bool) (w : Wait) :
  task_ok t -> session_ok t s -> ended t = true -> call s = Finishing b w ->
  exists r, call (turns 3 t s) = Was_finished r.
Proof.
  intros [I _] K E C. destruct s as [c n h]. cbn in C. subst c.
  assert (T : forall k r n h, turns k t (mk_session (Was_finished r) n h) = mk_session (Was_finished r) n h)
    by (induction k; cbn; auto).
  assert (J : forall k r n h, exists q, call (turns (S k) t (mk_session (Finishing b (Joining_task r)) n h)) = Was_finished q).
  { intros k r n' h'. unfold ended in E. cbn. destruct (phase t); try done; cbn; unfold with_call; cbn; rewrite T; cbn; eauto. }
  assert (L : forall k n h, exists q, call (turns (S (S k)) t (mk_session (Finishing b Looking) n h)) = Was_finished q).
  { intros k n' h'. change (turns (S (S k)) t ?s) with (turns (S k) t (advance t s)). unfold advance. cbn [call seen task].
    assert (P : exists q, call (turns (S k) t (mk_session (Finishing b Parked) (version t) h')) = Was_finished q).
    { cbn. unfold changed. cbn [seen]. rewrite Nat.eqb_refl, E. cbn. unfold with_call. cbn. rewrite T. cbn. eauto. }
    destruct (status t) as [| |r]; [exact P|exact P|]. destruct (negb _ && h'); [apply J|]. rewrite T. cbn. eauto. }
  destruct w as [| |r]; [apply L| |apply J].
  change (turns 3 t ?s) with (turns 2 t (advance t s)). unfold advance. cbn [call].
  unfold changed. cbn [seen]. destruct (negb _); [apply L|]. rewrite E. unfold with_call. rewrite T. cbn. eauto.
Qed.

(** C18. A cancelled session comes to its end: until it has, its task or the one that
    feeds FFmpeg can go on (when the process can be ended and the directory be
    removed); whatever is interleaved, after fourteen of its steps it has ended,
    wherever it was when the cancellation came; and then a call that waits for the
    end, as [stop] does, returns within three looks. *)
Theorem cancelled_sessions_end (o : Owner) (i : nat) (t : Task) :
  reachable from_utf8 o -> tasks o !! i = Some t -> cancelled t = true ->
  (ended t = false -> exists t', (work from_utf8 t t' \/ pumps t t') /\ t' <> t /\ phase t' <> Lost) /\
  (forall n o', runs i n o o' -> (14 <= n)%nat -> exists t', tasks o' !! i = Some t' /\ ended t' = true) /\
  (forall s b w, ended t = true -> sessions o !! i = Some s -> call s = Finishing b w ->
     exists r, call (turns 3 t s) = Was_finished r).
Proof.
  intros R E C. apply reachable_ok in R. pose proof (task_at _ _ _ R E) as K. split; [by apply cancelled_progress|].
  split.
  - intros n o' S L. eapply runs_ended; [done..|]. right. destruct K as [I _].
    assert (measure t < 14)%nat; [|lia]. unfold measure, phase_ok in *.
    destruct (phase t); destruct_and?; cbn; repeat case_match; try lia; congruence.
  - intros s b w D F G. destruct (paired _ _ _ R F) as (u & U & S). rewrite E in U. injection U as <-.
    by eapply ended_answers.
Qed.

End Steps.

(** ** A session from its start to its end *)

Definition of_text (s : string) : Bytes := map (fun c => Z.of_nat (nat_of_ascii c)) (list_ascii_of_string s).
Definition sample_playlist : Playlist := mk_playlist 7 ["seg_00000007.m4s"; "seg_00000008.m4s"]%string.
Definition sample_manifest : Bytes := of_text (render sample_playlist).
Definition sample_listing : Listing :=
  Some [Some (Some "manifest.m3u8.tmp"%string, Vanished); Some (Some "init.mp4"%string, Found true false 33);
        Some (Some "manifest.m3u8"%string, Found true false 260); Some (Some "seg_00000007.m4s"%string, Found true false 19);
        Some (Some "seg_00000008.m4s"%string, Found true false 19)].
Definition sample_assets : Readiness.Cache := fun name =>
  let regular b := Ok (Some (Readiness.mk_entry true false true (Some (Readiness.mk_file b (blen b) true)))) in
  if String.eqb name "init.mp4" then regular Readiness.sample_init else regular Readiness.sample_segment.
Definition sample_look : Look := mk_look sample_listing (Opened_as true (Some sample_manifest)) sample_assets.
Definition sample_snapshot : Snapshot := mk_snapshot 7 ["seg_00000007.m4s"; "seg_00000008.m4s"]%string 331 4.
Definition utf8 : Bytes -> option string := Readiness.string_of_bytes.

Lemma sample_assets_ok : Readiness.cache_ok sample_assets.
Proof.
  intros name m f. unfold sample_assets.
  destruct (String.eqb _ _); intros [= <-] [= <-]; (split; [by apply Readiness.bytes_okb_ok|done]).
Qed.

Lemma sample_inspected : inspect utf8 sample_look = Ok (Some sample_snapshot).
Proof. vm_compute. reflexivity. Qed.

Lemma offered_output_is_playable_witness :
  inspect utf8 sample_look = Ok (Some sample_snapshot) /\
  s_bytes sample_snapshot <= 32 * 1024 * 1024 /\ s_files sample_snapshot <= 24 /\
  Forall (fun name => segment name = true) (s_segments sample_snapshot) /\ NoDup (s_segments sample_snapshot) /\
  (length (s_segments sample_snapshot) <= 15)%nat /\
  Readiness.announced (assets sample_look) Readiness.Initialization "init.mp4" /\
  (exists older a b, s_segments sample_snapshot = older ++ [a; b] /\
    Readiness.announced (assets sample_look) Readiness.Fragment a /\
    Readiness.announced (assets sample_look) Readiness.Fragment b) /\
  exists content text, read_file "manifest.m3u8" (manifest sample_look) = Ok content /\ blen content <= 32768 /\
    utf8 content = Some text /\
    parse text = Ok (Some (mk_playlist (s_sequence sample_snapshot) (s_segments sample_snapshot))).
Proof.
  split; [exact sample_inspected|].
  exact (offered_output_is_playable utf8 sample_look sample_snapshot sample_assets_ok sample_inspected).
Defined.

Example playlist_reads_back_example : parse (render sample_playlist) = Ok (Some sample_playlist).
Proof.
  apply playlist_reads_back. split; [by repeat constructor| |cbn; lia|cbn; unfold u64_max; lia].
  apply (bool_decide_unpack _). by vm_compute.
Defined.

(** Chunks that do not fall together with the packets *)
Definition packets : Bytes := concat (replicate 4 (0x47 :: replicate 187 0)).
Definition sample_events : list (Arrival * Write * Write) :=
  [(Chunk (take 300 packets), Whole, Whole); (Chunk (drop 300 packets), Whole, Whole)].

Lemma given_input_is_what_arrived_witness :
  run new_pump sample_events = (mk_pump (take 564 packets) true packets, None) /\
  packets `prefix_of` arrived sample_events /\ (length (take 564 packets) <= 564)%nat /\
  (packets <> [] -> (564 <= length (arrived sample_events))%nat /\
     forall i, i ∈ SYNC_PLACES -> arrived sample_events !! i = Some 0x47) /\
  (@None TransportError = None ->
     (564 <= length (arrived sample_events))%nat /\ packets = arrived sample_events \/
     (length (arrived sample_events) < 564)%nat /\ packets = [] /\ take 564 packets = arrived sample_events).
Proof.
  assert (E : run new_pump sample_events = (mk_pump (take 564 packets) true packets, None))
    by (vm_compute; reflexivity).
  split; [exact E|]. exact (given_input_is_what_arrived sample_events _ _ E).
Defined.

Definition sample_destination : IpAddr * Z := (V4 3232235777, 8080).
Definition sample_reply : Reply :=
  mk_reply (Some sample_destination) 200 (Some "Video/MP2T; charset=binary"%string) None.
Definition watch_0 : Watch := mk_watch 15000 77 false 100 None.
Definition task_0 : Task := spawned sample_destination false.
Definition task_1 : Task := with_phase (Opening (0 + 15000)) (with_cache true task_0).
Definition task_2 : Task := spawn 15000 (Spawned 77 true) task_1.
Definition task_3 : Task := waited 15000 77 (Wait_ready 100) task_2.
Definition task_4 : Task := with_phase (Inspecting watch_0) task_3.
Definition task_5 : Task := polled watch_0 (poll (inspect utf8 sample_look) 200 200 watch_0) task_4.
Definition task_6 : Task := cancel task_5.
Definition task_7 : Task := leave (Err Cancelled) task_6.
Definition task_8 : Task := terminated (Err Cancelled) task_7.
Definition task_9 : Task := with_pump (Pumped Cancelled) task_8.
Definition task_10 : Task := with_phase (Removing (settle (Err Cancelled))) (with_pump No_pump task_9).
Definition task_11 : Task := removed (Ok tt) task_10.
Definition task_12 : Task := with_phase (Reporting (settle (Ok tt))) (drop_permit task_11).
Definition task_13 : Task := with_phase Ending (send (Finished (settle (Ok tt))) task_12).
Definition task_14 : Task := with_phase Done task_13.

Definition alone (t : Task) (s : Session) (l : list Reader) : Owner := mk_owner false false [t] [s] l [].

Lemma alone_work (t t' : Task) (s : Session) (l : list Reader) :
  work utf8 t t' -> rtc (step utf8) (alone t s l) (alone t' s l).
Proof. intros W. apply rtc_once. exact (t_work utf8 (alone t s l) 0 t t' eq_refl W). Qed.

Lemma alone_call (t : Task) (s : Session) (l : list Reader) :
  rtc (step utf8) (alone t s l) (alone t (advance t s) l).
Proof. apply rtc_once. exact (t_call utf8 (alone t s l) 0 s t eq_refl eq_refl). Qed.

Lemma reach_steps (o o' : Owner) : rtc (step utf8) o o' -> reachable utf8 o -> reachable utf8 o'.
Proof. induction 1; eauto using reach_step. Qed.

Lemma task_5_watches : exists w, phase task_5 = Watching w /\ cancelled task_5 = false.
Proof. eexists. by vm_compute. Qed.

(** The session is started and watched. *)
Definition watched : Owner := alone task_5 new_session [].
Lemma watched_reachable : reachable utf8 watched.
Proof.
  eapply (reach_steps (alone task_0 new_session [])).
  - etrans; [by apply alone_work, (w_created _ _ 0)|].
    etrans; [by apply alone_work, (w_opened _ _ (0 + 15000) (Replied sample_reply) (Spawned 77 true))|].
    etrans; [by apply alone_work, (w_waited _ _ 15000 77 (Wait_ready 100))|].
    etrans; [by apply alone_work, (w_slept _ _ watch_0)|].
    by apply alone_work, (w_inspected utf8 task_4 watch_0 sample_look 200 200).
  - eapply reach_step; [apply reach_new|]. by eapply (t_start _ _ sample_destination).
Qed.

(** It is stopped, and ends. *)
Definition stopping : Owner := alone task_6 (with_call (Finishing true Looking) new_session) [].
Lemma stopping_reachable : reachable utf8 stopping.
Proof.
  eapply reach_step; [apply watched_reachable|]. exact (t_stop utf8 watched 0 new_session task_5 eq_refl eq_refl eq_refl).
Qed.

Lemma stopping_ends : rtc (step utf8) stopping (alone task_14 (with_call (Finishing true Looking) new_session) []).
Proof.
  destruct task_5_watches as (w & P & C). etrans; [by apply alone_work, (w_cancelled _ _ w)|].
  etrans; [by apply alone_work, (w_terminated _ task_7 (Err Cancelled) true)|].
  etrans.
  { apply rtc_once. refine (t_pump utf8 (alone task_8 _ []) 0 task_8 task_9 eq_refl _).
    by apply (p_end task_8 new_pump new_pump Arrival_cancelled Whole Whole Cancelled). }
  etrans; [by apply alone_work, (w_joined _ task_9 (Err Cancelled) Cancelled)|].
  etrans; [by apply alone_work, (w_removed _ task_10 (Ok tt) true)|].
  etrans; [by apply alone_work, (w_released _ task_11 (settle (Ok tt)))|].
  etrans; [by apply alone_work, (w_reported _ task_12 (settle (Ok tt)))|].
  by apply alone_work, (w_ended _ task_13).
Qed.

Definition stopped_session : Session :=
  advance task_14 (advance task_14 (with_call (Finishing true Looking) new_session)).
Definition stopped : Owner := alone task_14 stopped_session [].

Lemma stopped_reachable : reachable utf8 stopped.
Proof.
  eapply reach_steps; [|apply stopping_reachable].
  etrans; [apply stopping_ends|]. etrans; apply alone_call.
Qed.

Lemma finished_sessions_leave_nothing_witness :
  call stopped_session = Was_finished (Ok tt) /\
  @Ok unit TransportError tt <> Err Cancelled /\
  exists t, tasks stopped !! 0%nat = Some t /\ gone t /\ status t = Finished (Ok tt).
Proof.
  split; [reflexivity|].
  exact (finished_sessions_leave_nothing utf8 stopped stopped 0 stopped_session (Ok tt) stopped_reachable
    eq_refl eq_refl ltac:(discriminate) (rtc_refl _ _)).
Defined.

Lemma one_transport_at_most_witness :
  uses task_5 /\
  (forall i j t u, tasks watched !! i = Some t -> tasks watched !! j = Some u -> uses t -> uses u -> i = j) /\
  (idle watched = true -> forall i t, tasks watched !! i = Some t -> ~ uses t) /\
  (Was_shut (Ok tt) ∈ shutdowns watched -> forall o', rtc (step utf8) watched o' ->
     idle o' = true /\ length (tasks o') = length (tasks watched) /\
     forall i t, tasks o' !! i = Some t -> ~ uses t).
Proof.
  split; [split; [by vm_compute|left; by vm_compute]|]. exact (one_transport_at_most utf8 watched watched_reachable).
Defined.

Lemma cancelled_sessions_end_witness :
  ended task_6 = false /\
  (ended task_6 = false ->
     exists t', (work utf8 task_6 t' \/ pumps task_6 t') /\ t' <> task_6 /\ phase t' <> Lost) /\
  (forall n o', runs utf8 0 n stopping o' -> (14 <= n)%nat ->
     exists t', tasks o' !! 0%nat = Some t' /\ ended t' = true) /\
  (forall s b w, ended task_6 = true -> sessions stopping !! 0%nat = Some s -> call s = Finishing b w ->
     exists r, call (turns 3 task_6 s) = Was_finished r).
Proof.
  split; [by vm_compute|]. exact (cancelled_sessions_end utf8 stopping 0 task_6 stopping_reachable eq_refl eq_refl).
Defined.

Definition reading : Owner := alone task_5 new_session [Reading_again 0 sample_manifest].

Lemma sample_read_step :
  match read_file "manifest.m3u8" (Opened_as true (Some sample_manifest)) with
  | Ok b => Reading_again 0 b
  | Err e => Read 0 (Err e)
  end = Reading_again 0 sample_manifest.
Proof. vm_compute. reflexivity. Qed.

Lemma reading_reachable : reachable utf8 reading.
Proof.
  eapply reach_steps; [|apply watched_reachable].
  etrans; [apply rtc_once, (t_read utf8 watched 0 "manifest.m3u8")|].
  etrans.
  { apply rtc_once. eapply (t_reader utf8 (alone task_5 new_session [Reading_active 0 "manifest.m3u8"]) 0); [done|].
    by apply (r_active _ 0 _ task_5). }
  apply rtc_once.
  eapply (t_reader utf8 (alone task_5 new_session [Reading_file 0 "manifest.m3u8"]) 0 _ (Reading_again 0 sample_manifest));
    [done|].
  rewrite <- sample_read_step. apply (r_file _ 0 "manifest.m3u8" task_5); [reflexivity|].
  assert (C : cache task_5 = true) by (vm_compute; reflexivity). rewrite C. discriminate.
Qed.

Lemma output_is_read_while_watched_example :
  reads reading (Reading_again 0 sample_manifest) (Read 0 (Ok sample_manifest)) /\
  blen sample_manifest <= 4 * 1024 * 1024 /\
  exists t, tasks reading !! 0%nat = Some t /\ active t = true /\
    (phase t = Lost \/
     exists w, (phase t = Watching w \/ phase t = Inspecting w) /\ ready w = true /\ permit t = true /\
       status t = Ready (pid w)).
Proof.
  assert (R : reads reading (Reading_again 0 sample_manifest) (Read 0 (Ok sample_manifest)))
    by exact (r_again reading 0 sample_manifest task_5 eq_refl).
  split; [exact R|].
  exact (output_is_read_while_watched utf8 reading 0 0 _ sample_manifest reading_reachable eq_refl R).
Defined.

End LiveTransportProofs.
