(* ===== verification/Revisions.v ===== *)
(** * Revisions of a viewer

    services/playback_admission/vod/revisions.rs, the transactions of
    domains/playback/commands/{control/{database,service,checkpoint},publication,
    output,execution,database}.rs on the tables playback_vod_controls, _outputs and
    _operations of one viewer (one reservation of Admission), and the triggers and
    constraints of migrations/20261027180000_vod_reconfiguration.sql that guard them.

    A transaction is a function from the tables to its result and the tables after
    its commit; an error rolls back.  Triggers that are deferred, and references,
    are checked at the commit for the rows that were written ([touched]).  What is
    read elsewhere - the reservation, the policy of the household, the retention of
    operations, the media file, the play session - is an input ([Around]).  Times
    are microseconds as in Admission; JSON values are their texts. *)

From stdpp Require Import gmap.
From S2P Require Import Prelude F64 Ladder Transcode Recovery Admission.

Module Revisions.

Abbreviation Uuid := Admission.Uuid.
Abbreviation Hash := Admission.Hash.
Abbreviation AdmissionError := Admission.AdmissionError.
Abbreviation Binding := Admission.Binding.
Abbreviation Policy := Admission.Policy.
Abbreviation Budget := Recovery.RecoveryBudget.

(** ** Rows *)

Inductive ControlState := C_preparing | C_ready | C_unavailable | C_changing | C_uncertain | C_retiring.
#[export] Instance ControlState_eq_dec : EqDecision ControlState.
Proof. solve_decision. Defined.
Inductive OperationState :=
| P_accepted | P_retiring | P_preparing | P_completed | P_failed | P_cancelled | P_uncertain.
#[export] Instance OperationState_eq_dec : EqDecision OperationState.
Proof. solve_decision. Defined.
Inductive OutputState := O_preparing | O_ready | O_retiring | O_complete.
#[export] Instance OutputState_eq_dec : EqDecision OutputState.
Proof. solve_decision. Defined.
Inductive ActionKind := Seek | Reconfigure | Recover.
#[export] Instance ActionKind_eq_dec : EqDecision ActionKind.
Proof. solve_decision. Defined.
Inductive PlaybackState := Playing | Paused | Buffering.
#[export] Instance PlaybackState_eq_dec : EqDecision PlaybackState.
Proof. solve_decision. Defined.
#[export] Instance Budget_eq_dec : EqDecision Budget.
Proof. solve_decision. Defined.
#[export] Instance AdmissionError_eq_dec : EqDecision AdmissionError.
Proof. solve_decision. Defined.

(** playback_vod_controls *)
Record Control := mk_control {
  revision : Z; c_state : ControlState; current_output : option Uuid; pending_operation : option Uuid;
  claim_encodes : bool; recovery_budget : Budget; checkpoint_output : option Uuid; checkpoint_sequence : Z;
  checkpoint_position : option Z; playback_state : PlaybackState; retained_operations : Z }.

(** playback_vod_outputs *)
Record OutputRow := mk_output {
  o_operation : option Uuid; o_generation : option Uuid; o_source : Hash; o_policy : Hash; o_mode : Admission.Mode;
  o_encodes : bool; o_4k : bool; o_configuration : string; o_state : OutputState; o_result : option string;
  o_failure : option string; published_at : option Z; resources_completed : bool; cleanup_uncertain : bool;
  completed_at : option Z }.

(** playback_vod_operations *)
Record OperationRow := mk_operation {
  p_hash : Hash; p_condition : string; p_action : ActionKind; expected_output : Uuid; candidate_output : Uuid;
  p_evidence : string; p_state : OperationState; p_result : option string; created_at : Z;
  terminal_at : option Z; cleanup_at : option Z; prune_after : option Z }.

(** The row of playback_vod_commands, as far as it is read and written here *)
Inductive RootState := R_preparing | R_ready | R_stopping | R_failed.
#[export] Instance RootState_eq_dec : EqDecision RootState.
Proof. solve_decision. Defined.
Record Root := mk_root {
  r_state : RootState; r_source : Hash; r_4k : bool; r_history : option (Uuid * Z); r_result : option string;
  r_completed : bool; r_uncertain : bool }.

Record Tables := mk_tables {
  root : Root; control : option Control; outputs : gmap Uuid OutputRow; operations : gmap Uuid OperationRow }.

(** What a transaction reads elsewhere: [held], [released]: the state of the
    reservation; [policy]: playback_vod_policy of the household; [others]: its other
    viewers that claim an encoder; [cutoff], [total], [household_total]: the
    retention of operations. *)
Record Around := mk_around {
  now : Z; held : bool; released : bool; policy : option Policy; others : Z; cutoff : Z; total : Z;
  household_total : Z }.

(** ** Statements *)

Inductive Touch := T_control | T_output (id : Uuid) | T_operation (id : Uuid).
#[export] Instance Touch_eq_dec : EqDecision Touch.
Proof. solve_decision. Defined.
Record Tx := mk_tx { tables : Tables; touched : list Touch }.

Definition conflict {A} : result A AdmissionError := Err Admission.Conflict.
Definition storage {A} : result A AdmissionError := Err Admission.Storage.
Definition check {A} (b : bool) (r : result A AdmissionError) : result A AdmissionError := if b then storage else r.
(** A trigger that raises the error of a conflict *)
Definition refuse {A} (b : bool) (r : result A AdmissionError) : result A AdmissionError := if b then conflict else r.

Definition put_root (r : Root) (tx : Tx) : Tx :=
  mk_tx (mk_tables r (control (tables tx)) (outputs (tables tx)) (operations (tables tx))) (touched tx).
Definition put_control (c : Control) (tx : Tx) : Tx :=
  mk_tx (mk_tables (root (tables tx)) (Some c) (outputs (tables tx)) (operations (tables tx)))
    (T_control :: touched tx).
Definition put_output (id : Uuid) (o : OutputRow) (tx : Tx) : Tx :=
  mk_tx (mk_tables (root (tables tx)) (control (tables tx)) (<[id := o]> (outputs (tables tx)))
           (operations (tables tx))) (T_output id :: touched tx).
Definition put_operation (id : Uuid) (p : OperationRow) (tx : Tx) : Tx :=
  mk_tx (mk_tables (root (tables tx)) (control (tables tx)) (outputs (tables tx))
           (<[id := p]> (operations (tables tx)))) (T_operation id :: touched tx).

(** *** Constraints of a row *)

Definition budget_valid (b : Budget) : bool := (0 <=? Recovery.attempts b) && (Recovery.attempts b <=? 2).
Definition SEQUENCE_MAX : Z := 9007199254740991.

Definition control_valid (c : Control) : bool :=
  (0 <? revision c) && budget_valid (recovery_budget c) &&
  (0 <=? checkpoint_sequence c) && (checkpoint_sequence c <=? SEQUENCE_MAX) &&
  is_none_or (checkpoint_position c) (fun p => 0 <=? p) &&
  (0 <=? retained_operations c) && (retained_operations c <=? 256) &&
  Bool.eqb (checkpoint_sequence c =? 0) (negb (is_some_b (checkpoint_position c))) &&
  Bool.eqb (checkpoint_sequence c =? 0) (negb (is_some_b (checkpoint_output c))) &&
  (negb (bool_decide (c_state c = C_changing)) || is_some_b (pending_operation c)) &&
  (bool_decide (c_state c = C_retiring) || is_some_b (current_output c)).

Definition is_direct (o : OutputRow) : bool := bool_decide (o_mode o = Admission.DirectPlay).

Definition output_valid (id : Uuid) (o : OutputRow) : bool :=
  (Admission.get_version_num id =? 7) &&
  Bool.eqb (is_some_b (published_at o)) (is_some_b (o_result o)) &&
  (negb (bool_decide (o_state o = O_ready)) || is_some_b (published_at o)) &&
  (negb (bool_decide (o_state o = O_ready)) || is_direct o || is_some_b (o_generation o)) &&
  Bool.eqb (resources_completed o) (is_some_b (completed_at o)) &&
  Bool.eqb (bool_decide (o_state o = O_complete)) (resources_completed o) &&
  (negb (is_direct o) || (negb (o_encodes o) && negb (is_some_b (o_generation o)))).

Definition is_terminal (s : OperationState) : bool :=
  match s with P_completed | P_failed | P_cancelled => true | _ => false end.

Definition operation_valid (id : Uuid) (p : OperationRow) : bool :=
  (Admission.get_version_num id =? 7) &&
  (1 <=? Str.len (p_condition p)) && (Str.len (p_condition p) <=? 128) &&
  Bool.eqb (is_terminal (p_state p)) (is_some_b (terminal_at p)) &&
  Bool.eqb (is_some_b (terminal_at p) && is_some_b (cleanup_at p)) (is_some_b (prune_after p)).

(** *** playback_vod_control_guard *)

Definition encoding_open (t : Tables) : bool :=
  existsb (fun o : Uuid * OutputRow => o_encodes o.2 && negb (resources_completed o.2)) (map_to_list (outputs t)).
Definition output_at (t : Tables) (id : option Uuid) : option OutputRow := let! i := id in outputs t !! i.
Definition serves (o : OutputRow) : bool := bool_decide (o_state o = O_ready) && negb (resources_completed o).

Definition budget_shrinks (old new : Budget) : bool :=
  (Recovery.attempts new <? Recovery.attempts old) ||
  (Recovery.exhausted old && negb (Recovery.exhausted new)) ||
  (Recovery.restarted_stall old && negb (Recovery.restarted_stall new)) ||
  (Recovery.skipped_decode old && negb (Recovery.skipped_decode new)).

(** [nested]: the statement is that of another trigger. *)
Definition regresses (nested : bool) (old new : Control) : bool :=
  (revision new <? revision old) ||
  (negb (retained_operations new =? retained_operations old)
     && (negb nested || negb (Z.abs (retained_operations new - retained_operations old) =? 1))) ||
  (bool_decide (c_state old = C_retiring) && negb (bool_decide (c_state new = C_retiring))) ||
  (bool_decide (c_state old = C_uncertain)
     && negb (bool_decide (c_state new = C_uncertain) || bool_decide (c_state new = C_retiring))) ||
  budget_shrinks (recovery_budget old) (recovery_budget new).

(** The checks of an insertion and of an update alike *)
Definition control_attributed (t : Tables) (new : Control) : bool :=
  is_some_b (current_output new) && negb (is_some_b (output_at t (current_output new))) ||
  negb (claim_encodes new) &&
    (encoding_open t || negb (bool_decide (c_state new = C_retiring)) && is_some_and (output_at t (current_output new)) o_encodes) ||
  bool_decide (c_state new = C_ready) &&
    (is_some_b (pending_operation new)
     || negb (is_some_and (output_at t (current_output new)) (fun o => serves o && is_some_b (published_at o)))).

Definition checkpoint_moves (old new : Control) : bool :=
  negb (checkpoint_sequence new =? checkpoint_sequence old)
  || negb (bool_decide (checkpoint_output new = checkpoint_output old))
  || negb (bool_decide (checkpoint_position new = checkpoint_position old)).

(** A new current output must serve, a checkpoint must be newer and of the current
    output. *)
Definition stale (t : Tables) (old new : Control) : bool :=
  let moved := negb (bool_decide (current_output new = current_output old)) in
  moved && is_some_b (current_output new) && negb (is_some_and (output_at t (current_output new)) serves) ||
  checkpoint_moves old new &&
    (if moved then negb (checkpoint_sequence new =? 0)
     else (checkpoint_sequence new <=? checkpoint_sequence old)
          || negb (bool_decide (checkpoint_output new = current_output new))
          || is_some_b (pending_operation new)
          || negb (bool_decide (c_state new = C_ready) || bool_decide (c_state new = C_unavailable))).

Definition with_revision (n : Z) (c : Control) : Control :=
  mk_control n (c_state c) (current_output c) (pending_operation c) (claim_encodes c) (recovery_budget c)
    (checkpoint_output c) (checkpoint_sequence c) (checkpoint_position c) (playback_state c) (retained_operations c).

(** The columns whose change is a new revision *)
Definition same_configuration (old new : Control) : bool :=
  bool_decide (c_state new = c_state old) && bool_decide (current_output new = current_output old)
  && bool_decide (pending_operation new = pending_operation old)
  && bool_decide (recovery_budget new = recovery_budget old)
  && bool_decide (playback_state new = playback_state old).
Definition bumped (old new : Control) : Control :=
  if same_configuration old new then new else with_revision (revision old + 1) new.

(** The claim of an encoder *)
Definition encoder_free (x : Around) : result unit AdmissionError :=
  match policy x with
  | Some p =>
      if Admission.valid p && Admission.supported p && Admission.allow_transcode p then
        if is_some_and (Admission.transcode p) (fun cap => cap <=? others x) then Err Admission.ReceiptCapacity else Ok tt
      else conflict
  | None => conflict
  end.

Definition control_guard (x : Around) (nested : bool) (t : Tables) (old new : Control) : result Control AdmissionError :=
  refuse (regresses nested old new) (refuse (control_attributed t new) (refuse (stale t old new)
    (let new := bumped old new in
     let? _ := (if claim_encodes new && negb (claim_encodes old) then encoder_free x else Ok tt) in
     Ok new))).

(** [UPDATE playback_vod_controls SET ... WHERE reservation_id=$1] *)
Definition update_control (x : Around) (nested : bool) (f : Control -> Control) (tx : Tx) : result Tx AdmissionError :=
  match control (tables tx) with
  | None => Ok tx
  | Some old =>
      let? new := control_guard x nested (tables tx) old (f old) in
      check (negb (control_valid new)) (Ok (put_control new tx))
  end.

Definition first_budget : Budget := Recovery.mk_budget 0 false false false.
Definition insert_control (x : Around) (current : Uuid) (claim : bool) (tx : Tx) : result Tx AdmissionError :=
  let new := mk_control 1 C_preparing (Some current) None claim first_budget None 0 None Playing 0 in
  refuse (control_attributed (tables tx) new)
    (let? _ := (if claim then encoder_free x else Ok tt) in
     check (is_some_b (control (tables tx)) || negb (control_valid new)) (Ok (put_control new tx))).

(** *** playback_vod_output_guard *)

Definition output_regresses (old new : OutputRow) : bool :=
  negb (bool_decide ((o_operation new, o_generation new, o_source new, o_policy new, o_mode new, o_encodes new,
                      o_4k new, o_configuration new)
                     = (o_operation old, o_generation old, o_source old, o_policy old, o_mode old, o_encodes old,
                        o_4k old, o_configuration old)))
  || is_some_b (o_result old) && negb (bool_decide ((o_result new, published_at new) = (o_result old, published_at old)))
  || resources_completed old && negb (resources_completed new)
  || cleanup_uncertain old && negb (cleanup_uncertain new)
  || is_some_b (o_failure old) && negb (bool_decide (o_failure new = o_failure old))
  || match o_state old with
     | O_retiring | O_complete => match o_state new with O_retiring | O_complete => false | _ => true end
     | O_ready => bool_decide (o_state new = O_preparing)
     | O_preparing => false
     end
  || is_some_b (completed_at old) && negb (bool_decide (completed_at new = completed_at old)).

(** The times the trigger sets *)
Definition output_times (n : Z) (old new : OutputRow) : OutputRow :=
  mk_output (o_operation new) (o_generation new) (o_source new) (o_policy new) (o_mode new) (o_encodes new) (o_4k new)
    (o_configuration new) (o_state new) (o_result new) (o_failure new)
    (if is_some_b (o_result new) && negb (is_some_b (o_result old)) then Some n else published_at new)
    (resources_completed new) (cleanup_uncertain new)
    (if resources_completed new && negb (resources_completed old) then Some n else completed_at new).

(** [UPDATE playback_vod_outputs SET ... WHERE id=$1 AND ...], with the number of rows *)
Definition update_output (x : Around) (id : Uuid) (where_ : OutputRow -> bool) (f : OutputRow -> OutputRow) (tx : Tx)
  : result (Tx * bool) AdmissionError :=
  match outputs (tables tx) !! id with
  | Some old =>
      if where_ old then
        let new := f old in
        refuse (output_regresses old new)
          (let new := output_times (now x) old new in
           check (negb (output_valid id new)) (Ok (put_output id new tx, true)))
      else Ok (tx, false)
  | None => Ok (tx, false)
  end.

Definition new_row (operation generation : option Uuid) (b : Binding) (configuration : string) : OutputRow :=
  mk_output operation generation (Admission.source b) (Admission.policy_hash b) (Admission.mode b) (Admission.encodes b)
    (Admission.source_4k b) configuration O_preparing None None None false false None.

Definition taken (t : Tables) (operation generation : option Uuid) : bool :=
  existsb (fun o : Uuid * OutputRow =>
    bool_decide (o_operation o.2 = operation)
    || is_some_b generation && bool_decide (o_generation o.2 = generation)) (map_to_list (outputs t)).

(** [revisions::insert_output]; the unique indexes let one output have no operation. *)
Definition insert_output (x : Around) (id : Uuid) (o : OutputRow) (tx : Tx) : result Tx AdmissionError :=
  refuse (negb (held x) || negb (Admission.time_error id (now x) (cutoff x) =? 0))
    (check (negb (output_valid id o) || is_some_b (outputs (tables tx) !! id)
            || taken (tables tx) (o_operation o) (o_generation o))
       (Ok (put_output id o tx))).

(** *** playback_vod_operation_guard and playback_vod_operation_account *)

Definition with_retained (n : Z) (c : Control) : Control :=
  mk_control (revision c) (c_state c) (current_output c) (pending_operation c) (claim_encodes c) (recovery_budget c)
    (checkpoint_output c) (checkpoint_sequence c) (checkpoint_position c) (playback_state c) n.

Definition is_pending (s : OperationState) : bool := negb (is_terminal s).
Definition open_to_change (s : ControlState) : bool := bool_decide (s = C_ready) || bool_decide (s = C_unavailable).

Definition new_operation (n : Z) (hash : Hash) (condition : string) (action : ActionKind) (expected candidate : Uuid)
    (evidence : string) : OperationRow :=
  mk_operation hash condition action expected candidate evidence P_accepted None n None None None.

Definition insert_operation (x : Around) (id : Uuid) (p : OperationRow) (tx : Tx) : result Tx AdmissionError :=
  let t := tables tx in
  refuse (negb (held x) || negb (is_some_b (r_history (root t)))) (
  let? c := ok_or (control t) Admission.Storage in
  refuse (negb (bool_decide (current_output c = Some (expected_output p))) || is_some_b (pending_operation c)
          || negb (open_to_change (c_state c))) (
  let e := Admission.time_error id (now x) (cutoff x) in
  if e =? 1 then Err Admission.Expired
  else if e =? 2 then Err Admission.RequestTime
  else refuse (negb (e =? 0)) (
  if (256 <=? retained_operations c) || (8192 <=? household_total x) || (131072 <=? total x)
  then Err Admission.ReceiptCapacity
  else check (negb (operation_valid id p) || is_some_b (operations t !! id)
              || existsb (fun q : Uuid * OperationRow => is_pending (p_state q.2)) (map_to_list (operations t)))
         (update_control x true (fun c => with_retained (retained_operations c + 1) c) (put_operation id p tx))))).

Definition operation_regresses (old new : OperationRow) : bool :=
  negb (bool_decide ((p_hash new, p_condition new, p_action new, expected_output new, candidate_output new,
                      created_at new, p_evidence new)
                     = (p_hash old, p_condition old, p_action old, expected_output old, candidate_output old,
                        created_at old, p_evidence old)))
  || is_some_b (terminal_at old)
       && negb (bool_decide ((p_state new, terminal_at new, p_result new) = (p_state old, terminal_at old, p_result old)))
  || is_some_b (cleanup_at old) && negb (bool_decide (cleanup_at new = cleanup_at old))
  || bool_decide (p_state old = P_uncertain)
       && negb (bool_decide (p_state new = P_uncertain) || bool_decide (p_state new = P_cancelled))
  || (bool_decide (p_state old = P_retiring) || bool_decide (p_state old = P_preparing))
       && bool_decide (p_state new = P_accepted)
  || bool_decide (p_state old = P_preparing) && bool_decide (p_state new = P_retiring).

Definition operation_times (n : Z) (old new : OperationRow) : OperationRow :=
  let terminal := if is_terminal (p_state new) && negb (is_some_b (terminal_at old)) then Some n else terminal_at new in
  let cleanup := if is_some_b (cleanup_at new) && negb (is_some_b (cleanup_at old)) then Some n else cleanup_at new in
  mk_operation (p_hash new) (p_condition new) (p_action new) (expected_output new) (candidate_output new)
    (p_evidence new) (p_state new) (p_result new) (created_at new) terminal cleanup
    (match terminal, cleanup with Some a, Some b => Some (Z.max a b + Admission.hours 24) | _, _ => None end).

Definition output_open (t : Tables) (operation : Uuid) : bool :=
  existsb (fun o : Uuid * OutputRow =>
    bool_decide (o_operation o.2 = Some operation) && negb (resources_completed o.2)) (map_to_list (outputs t)).

Definition update_operation (x : Around) (id : Uuid) (where_ : OperationRow -> bool)
    (f : OperationRow -> OperationRow) (tx : Tx) : result Tx AdmissionError :=
  match operations (tables tx) !! id with
  | Some old =>
      if where_ old then
        let new := f old in
        refuse (operation_regresses old new)
          (refuse (is_some_b (cleanup_at new) && output_open (tables tx) id)
             (let new := operation_times (now x) old new in
              check (negb (operation_valid id new)) (Ok (put_operation id new tx))))
      else Ok tx
  | None => Ok tx
  end.

(** *** The commit: playback_vod_graph_guard and the references *)

Definition graph_broken (x : Around) (t : Tables) (u : Touch) : bool :=
  match control t with
  | None => true
  | Some v =>
      match u with
      | T_output id =>
          is_some_and (outputs t !! id) (fun o =>
            negb (bool_decide (o_source o = r_source (root t))) || negb (Bool.eqb (o_4k o) (r_4k (root t)))
            || o_encodes o && negb (resources_completed o) && negb (claim_encodes v)
            || is_some_and (o_operation o) (fun i =>
                 negb (is_some_and (operations t !! i) (fun p => bool_decide (candidate_output p = id)))))
      | T_operation id =>
          is_some_and (operations t !! id) (fun p =>
            match outputs t !! candidate_output p with
            | None => true
            | Some o =>
                negb (bool_decide (o_operation o = Some id))
                || negb (is_some_b (terminal_at p))
                     && (negb (bool_decide (pending_operation v = Some id))
                         || negb (bool_decide (c_state v = C_changing) || bool_decide (c_state v = C_uncertain)
                                  || bool_decide (c_state v = C_retiring)))
                || is_some_b (terminal_at p) && bool_decide (pending_operation v = Some id)
                || bool_decide (p_state p = P_completed)
                     && (negb (is_some_b (published_at o)) || negb (bool_decide (p_result p = o_result o)))
            end)
      | T_control =>
          negb (is_some_b (current_output v)) && negb (released x)
          || is_some_and (pending_operation v) (fun i =>
               negb (is_some_and (operations t !! i) (fun p => negb (is_some_b (terminal_at p)))))
          || negb (claim_encodes v) && encoding_open t
          || is_some_and (current_output v) (fun i => negb (is_some_b (outputs t !! i)))
      end
  end.

Definition commit (x : Around) (tx : Tx) : result Tables AdmissionError :=
  if existsb (graph_broken x (tables tx)) (touched tx) then Err Admission.Indeterminate else Ok (tables tx).

Definition begin (t : Tables) : Tx := mk_tx t [].

(** ** revisions.rs *)

(** [control], [output]: the rows, locked *)
Definition read_control (t : Tables) : result Control AdmissionError := ok_or (control t) Admission.Indeterminate.
Definition read_output (t : Tables) (id : Uuid) : result OutputRow AdmissionError := ok_or (outputs t !! id) Admission.Conflict.

(** [missing] *)
Definition missing (x : Around) (id : Uuid) : result unit AdmissionError :=
  let e := Admission.time_error id (now x) (cutoff x) in
  if e =? 0 then Ok tt else if e =? 1 then Err Admission.Expired else if e =? 2 then Err Admission.RequestTime
  else Err Admission.Conflict.

(** ** Changes of single columns *)

Definition set_output_state (s : OutputState) (o : OutputRow) : OutputRow :=
  mk_output (o_operation o) (o_generation o) (o_source o) (o_policy o) (o_mode o) (o_encodes o) (o_4k o)
    (o_configuration o) s (o_result o) (o_failure o) (published_at o) (resources_completed o) (cleanup_uncertain o)
    (completed_at o).
Definition set_complete (failure : option string) (o : OutputRow) : OutputRow :=
  mk_output (o_operation o) (o_generation o) (o_source o) (o_policy o) (o_mode o) (o_encodes o) (o_4k o)
    (o_configuration o) O_complete (o_result o) (option_or (o_failure o) failure) (published_at o) true
    (cleanup_uncertain o) (completed_at o).
Definition set_uncertain (o : OutputRow) : OutputRow :=
  mk_output (o_operation o) (o_generation o) (o_source o) (o_policy o) (o_mode o) (o_encodes o) (o_4k o)
    (o_configuration o) (o_state o) (o_result o) (o_failure o) (published_at o) (resources_completed o) true
    (completed_at o).
Definition set_ready (result : string) (o : OutputRow) : OutputRow :=
  mk_output (o_operation o) (o_generation o) (o_source o) (o_policy o) (o_mode o) (o_encodes o) (o_4k o)
    (o_configuration o) O_ready (Some result) (o_failure o) (published_at o) (resources_completed o)
    (cleanup_uncertain o) (completed_at o).
Definition set_operation (s : OperationState) (result : option string) (p : OperationRow) : OperationRow :=
  mk_operation (p_hash p) (p_condition p) (p_action p) (expected_output p) (candidate_output p) (p_evidence p) s
    (option_or result (p_result p)) (created_at p) (terminal_at p) (cleanup_at p) (prune_after p).
Definition set_cleanup (n : Z) (p : OperationRow) : OperationRow :=
  mk_operation (p_hash p) (p_condition p) (p_action p) (expected_output p) (candidate_output p) (p_evidence p)
    (p_state p) (p_result p) (created_at p) (terminal_at p) (option_or (cleanup_at p) (Some n)) (prune_after p).
Definition in_state (s : OperationState) (p : OperationRow) : bool := bool_decide (p_state p = s).
Definition unfinished (o : OutputRow) : bool := negb (resources_completed o).
Definition any {A} (_ : A) : bool := true.

(** ** The transactions *)

(** An output of the process, as its object describes it *)
Record Output := mk_local {
  out_id : Uuid; out_operation : option Uuid; out_generation : option Uuid; out_binding : Binding;
  out_configuration : string }.

(** execution.rs: the first transaction of [run] *)
Definition setup (x : Around) (o : Output) (t : Tables) : result Tables AdmissionError :=
  let? tx := insert_output x (out_id o)
               (new_row (out_operation o) (out_generation o) (out_binding o) (out_configuration o)) (begin t) in
  let? tx := insert_control x (out_id o) (Admission.encodes (out_binding o)) tx in
  commit x tx.

(** database.rs: [failed] *)
Definition set_root_state (s : RootState) (r : Root) : Root :=
  mk_root s (r_source r) (r_4k r) (r_history r) (r_result r) (r_completed r) (r_uncertain r).
Definition root_open (r : Root) : bool := bool_decide (r_state r = R_preparing) || bool_decide (r_state r = R_ready).
Definition failed (t : Tables) : Tables :=
  if root_open (root t) then mk_tables (set_root_state R_failed (root t)) (control t) (outputs t) (operations t) else t.

(** What publication.rs finds: whether the file and the group of the viewer are as
    they were, what [preparation::validate] says, a new play session, and whether
    the session was there to be updated. *)
Record Found := mk_found {
  matches_file : bool; group_active : bool; validated : result unit AdmissionError; new_session : Uuid * Z;
  session_updated : bool; result_text : string }.

Definition published_control (o : Output) (c : Control) : Control :=
  mk_control (revision c) C_ready (Some (out_id o)) None (Admission.encodes (out_binding o)) (recovery_budget c) None 0
    None (playback_state c) (retained_operations c).

(** The checks of [prepare_output] *)
Definition publishable (x : Around) (f : Found) (o : Output) (c : Control) (t : Tables) : result unit AdmissionError :=
  match out_operation o with
  | Some id =>
      let? p := ok_or (operations t !! id) Admission.Storage in
      if negb (bool_decide (pending_operation c = Some id)) || negb (bool_decide (candidate_output p = out_id o))
         || negb (in_state P_preparing p)
      then Err Admission.Retired
      else if bool_decide (p_action p = Reconfigure) then validated f else Ok tt
  | None =>
      if negb (bool_decide (c_state c = C_preparing)) || is_some_b (r_history (root t)) then Err Admission.Retired else Ok tt
  end.

Definition publish_rest (x : Around) (f : Found) (o : Output) (history : Uuid * Z) (tx : Tx) : result Tables AdmissionError :=
  let? (tx, one) := update_output x (out_id o) (fun r => bool_decide (o_state r = O_preparing) && unfinished r)
                      (set_ready (result_text f)) tx in
  if negb one then Err Admission.Retired
  else
    let? tx := match out_operation o with
               | Some id => update_operation x id (in_state P_preparing) (set_operation P_completed (Some (result_text f))) tx
               | None =>
                   let r := root (tables tx) in
                   Ok (if bool_decide (r_state r = R_preparing)
                       then put_root (mk_root R_ready (r_source r) (r_4k r) (Some history) (Some (result_text f))
                                        (r_completed r) (r_uncertain r)) tx
                       else tx)
               end in
    let? tx := update_control x false (published_control o) tx in
    commit x tx.

Definition publish (x : Around) (f : Found) (o : Output) (t : Tables) : result Tables AdmissionError :=
  let? c := read_control t in
  if negb (matches_file f) || negb (group_active f) then Err Admission.Retired
  else
    let? _ := publishable x f o c t in
    let? history := match r_history (root t), out_operation o with
                    | Some h, _ => Ok h
                    | None, None => Ok (new_session f)
                    | None, Some _ => storage
                    end in
    if negb (session_updated f) then storage else publish_rest x f o history (begin t).

(** [Acceptance], with the intended output *)
Record Acceptance := mk_acceptance {
  a_operation : Uuid; a_expected : Uuid; a_hash : Hash; a_condition : string; a_action : ActionKind;
  a_checkpoint : option (Z * Z); a_budget : option Budget; a_evidence : string; a_target : Output }.

Definition accepted_control (a : Acceptance) (c : Control) : Control :=
  mk_control (revision c) C_changing (current_output c) (Some (a_operation a))
    (claim_encodes c || Admission.encodes (out_binding (a_target a))) (unwrap_or (a_budget a) (recovery_budget c))
    (checkpoint_output c) (checkpoint_sequence c) (checkpoint_position c) (playback_state c) (retained_operations c).

(** *** control/projection.rs: the configuration a client sees, and its tag *)

Record RecoveryOffer := mk_offer { f_output : Uuid; f_kind : string; f_descriptor : string; f_fingerprint : string }.
Record ConfigurationResponse := mk_configuration {
  g_protocol : string; g_request : Uuid; g_revision : string; g_state : ControlState; g_output : Uuid;
  g_pending : option Uuid; g_configuration : string; g_playback : PlaybackState; g_budget : Budget;
  g_offer : option RecoveryOffer; g_worker : bool }.

(** What [configuration] finds in the object of the output and in the transcode
    manager: whether the output can be used, what [offer] gives, and whether
    [recovery::prepare] has an answer for the failure of the worker. *)
Record LocalView := mk_view {
  v_id : Uuid; v_usable : bool; v_offer : result (option RecoveryOffer) unit; v_recovers : Budget -> Z -> bool }.

Definition PROTOCOL : string := "duskcue-vod-command/2".
Definition quote : string := String (Ascii.ascii_of_nat 34) EmptyString.

(** What [accept] finds: the object of the current output; whether the group of the
    viewer is active; the policy and the file. *)
Record Context_ := mk_context {
  viewer : Uuid; local : LocalView; viewer_active : bool; policy_allows : result unit AdmissionError;
  same_file : result unit AdmissionError }.

Section Digest.
(** intent.rs: [digest], the SHA-256 of the JSON text in hexadecimal; an error when the text is too long. *)
Variable digest : ConfigurationResponse -> result string unit.

Definition configuration (viewer : Uuid) (c : Control) (id : Uuid) (row : OutputRow) (l : LocalView)
  : result (ConfigurationResponse * string) unit :=
  if negb (bool_decide (current_output c = Some id)) || negb (id =? v_id l) then Err tt
  else
    let phase := if bool_decide (c_state c = C_ready) && negb (v_usable l) then C_unavailable else c_state c in
    let? offer := v_offer l in
    let value := mk_configuration PROTOCOL viewer (Dec.print_int (revision c)) phase id (pending_operation c)
                   (o_configuration row) (playback_state c) (recovery_budget c) offer
                   ((0 <? checkpoint_sequence c) && bool_decide (checkpoint_output c = Some (v_id l))
                    && is_some_and (checkpoint_position c) (v_recovers l (recovery_budget c))) in
    let? tag := digest value in
    Ok (value, (quote ++ "vod-config-" ++ tag ++ quote)%string).

Definition accept_new (x : Around) (k : Context_) (a : Acceptance) (c : Control) (t : Tables) : result Tables AdmissionError :=
  let? _ := missing x (a_operation a) in
  if is_some_b (pending_operation c) then Err Admission.Pending
  else
    let? id := ok_or (current_output c) Admission.Indeterminate in
    let? current := read_output t id in
    let? tag := match configuration (viewer k) c id current (local k) with
                | Ok (_, tag) => Ok tag | Err _ => Err Admission.Indeterminate
                end in
    if negb (String.eqb (a_condition a) tag) then Err Admission.Precondition
    else if negb (bool_decide (current_output c = Some (a_expected a))) || negb (viewer_active k)
            || negb (open_to_change (c_state c))
    then Err Admission.Conflict
    else if is_some_and (a_checkpoint a) (fun p =>
              negb (checkpoint_sequence c =? p.1) || negb (bool_decide (checkpoint_output c = Some (a_expected a)))
              || negb (bool_decide (checkpoint_position c = Some p.2)))
    then Err Admission.Conflict
    else
      let? _ := policy_allows k in
      let? _ := same_file k in
      let o := a_target a in
      let? tx := insert_operation x (a_operation a)
                   (new_operation (now x) (a_hash a) (a_condition a) (a_action a) (a_expected a) (out_id o) (a_evidence a))
                   (begin t) in
      let? tx := insert_output x (out_id o)
                   (new_row (out_operation o) (out_generation o) (out_binding o) (out_configuration o)) tx in
      let? tx := update_control x false (accepted_control a) tx in
      commit x tx.

(** [accept]: the answer says whether the operation is new. *)
Definition accept (x : Around) (k : Context_) (a : Acceptance) (t : Tables) : result (bool * Tables) AdmissionError :=
  let? c := read_control t in
  match operations t !! a_operation a with
  | Some p =>
      if negb (bool_decide (p_hash p = a_hash a)) || negb (String.eqb (p_condition p) (a_condition a))
      then Err Admission.Conflict else Ok (false, t)
  | None => let? t := accept_new x k a c t in Ok (true, t)
  end.

End Digest.

(** [replay]: the operation of an earlier request *)
Definition replay (x : Around) (id : Uuid) (hash : Hash) (condition : string) (t : Tables)
  : result (option OperationRow) AdmissionError :=
  match operations t !! id with
  | Some p =>
      if negb (bool_decide (p_hash p = hash)) || negb (String.eqb (p_condition p) condition) then Err Admission.Conflict
      else Ok (Some p)
  | None => let? _ := missing x id in Ok None
  end.

(** service.rs: the transactions of [execute] *)
Definition retire (x : Around) (operation previous : Uuid) (t : Tables) : result Tables AdmissionError :=
  let? c := read_control t in
  if negb (bool_decide (pending_operation c = Some operation)) then Err Admission.Retired
  else
    let? tx := update_operation x operation (in_state P_accepted) (set_operation P_retiring None) (begin t) in
    let? (tx, _) := update_output x previous unfinished (set_output_state O_retiring) tx in
    commit x tx.

Definition prepare (x : Around) (operation : Uuid) (t : Tables) : result Tables AdmissionError :=
  let? tx := update_operation x operation (in_state P_retiring) (set_operation P_preparing None) (begin t) in
  commit x tx.

Definition unavailable_control (claim : bool) (c : Control) : Control :=
  mk_control (revision c) C_unavailable (current_output c) None claim (recovery_budget c) (checkpoint_output c)
    (checkpoint_sequence c) (checkpoint_position c) (playback_state c) (retained_operations c).

Definition fail (x : Around) (operation previous : Uuid) (reason : string) (t : Tables) : result Tables AdmissionError :=
  let? c := read_control t in
  if negb (bool_decide (pending_operation c = Some operation)) then Err Admission.Retired
  else
    let? tx := update_operation x operation (in_state P_preparing) (set_operation P_failed (Some reason)) (begin t) in
    let? prior := read_output (tables tx) previous in
    let? tx := update_control x false (unavailable_control (o_encodes prior)) tx in
    commit x tx.

(** execution.rs: the output of the process is gone. *)
Definition set_control_state (s : ControlState) (c : Control) : Control :=
  mk_control (revision c) s (current_output c) (pending_operation c) (claim_encodes c) (recovery_budget c)
    (checkpoint_output c) (checkpoint_sequence c) (checkpoint_position c) (playback_state c) (retained_operations c).

Definition unavailable (x : Around) (id : Uuid) (t : Tables) : result (bool * Tables) AdmissionError :=
  let? c := read_control t in
  if is_some_b (pending_operation c) then Ok (false, t)
  else if negb (bool_decide (current_output c = Some id)) then Err Admission.Conflict
  else
    let? tx := update_control x false (set_control_state C_unavailable) (begin t) in
    let? t := commit x tx in
    Ok (true, t).

(** output.rs: the transactions of [clean] *)
Definition complete_output (x : Around) (o : Output) (failure : option string) (t : Tables) : result Tables AdmissionError :=
  let? (tx, _) := update_output x (out_id o) any (set_complete failure) (begin t) in
  let? tx := match out_operation o with
             | Some id => update_operation x id any (set_cleanup (now x)) tx
             | None => Ok tx
             end in
  commit x tx.
Definition uncertain_output (x : Around) (o : Output) (t : Tables) : result Tables AdmissionError :=
  let? (tx, _) := update_output x (out_id o) any set_uncertain (begin t) in
  commit x tx.

(** playback_vod_complete_outputs *)
Fixpoint over {A} (f : A -> Tx -> result Tx AdmissionError) (l : list A) (tx : Tx) : result Tx AdmissionError :=
  match l with [] => Ok tx | a :: l => let? tx := f a tx in over f l tx end.

Definition cancelled_operation (n : Z) (p : OperationRow) : OperationRow :=
  set_cleanup n (if is_some_b (terminal_at p) then p else set_operation P_cancelled None p).
Definition retired_control (c : Control) : Control :=
  mk_control (revision c) C_retiring (current_output c) None false (recovery_budget c) (checkpoint_output c)
    (checkpoint_sequence c) (checkpoint_position c) (playback_state c) (retained_operations c).

Definition complete_outputs (x : Around) (tx : Tx) : result Tx AdmissionError :=
  let? tx := over (fun id tx => let? (tx, _) := update_output x id unfinished (set_complete None) tx in Ok tx)
               (map_to_list (outputs (tables tx))).*1 tx in
  let? tx := over (fun id tx => update_operation x id any (cancelled_operation (now x)) tx)
               (map_to_list (operations (tables tx))).*1 tx in
  update_control x false retired_control tx.

(** execution.rs: the last transaction of [cleanup] *)
Definition completed_root (r : Root) : Root :=
  mk_root (if root_open r then R_stopping else r_state r) (r_source r) (r_4k r) (r_history r) (r_result r) true
    (r_uncertain r).
Definition cleanup (x : Around) (t : Tables) : result Tables AdmissionError :=
  let? tx := complete_outputs x (begin t) in
  commit x (put_root (completed_root (root (tables tx))) tx).

(** checkpoint.rs: [report]; [open_session] is the update of the play session. *)
Record Checkpoint := mk_checkpoint { k_output : Uuid; k_sequence : Z; k_position : Z; k_state : PlaybackState }.

Definition reported_control (k : Checkpoint) (c : Control) : Control :=
  mk_control (revision c) (c_state c) (current_output c) (pending_operation c) (claim_encodes c) (recovery_budget c)
    (Some (k_output k)) (k_sequence k) (Some (k_position k)) (k_state k) (retained_operations c).

Definition repeated (k : Checkpoint) (c : Control) : bool :=
  (k_sequence k =? checkpoint_sequence c) && bool_decide (checkpoint_output c = Some (k_output k))
  && bool_decide (checkpoint_position c = Some (k_position k)) && bool_decide (playback_state c = k_state k).

(** The checks of the body, before the transaction *)
Definition reportable (duration : Z) (k : Checkpoint) : bool :=
  (Admission.get_version_num (k_output k) =? 7) && (1 <=? k_sequence k) && (k_sequence k <=? SEQUENCE_MAX)
  && (0 <=? k_position k) && (k_position k <=? duration).

Definition report (x : Around) (active open_session : bool) (k : Checkpoint) (t : Tables) : result Tables AdmissionError :=
  let? c := read_control t in
  if negb (bool_decide (current_output c = Some (k_output k))) || is_some_b (pending_operation c)
     || negb (open_to_change (c_state c)) || negb active
  then Err Admission.Conflict
  else if repeated k c then Ok t
  else if k_sequence k <=? checkpoint_sequence c then Err Admission.Conflict
  else
    let? _ := ok_or (r_history (root t)) Admission.Retired in
    let? o := ok_or (outputs t !! k_output k) Admission.Storage in
    if negb (is_some_b (published_at o)) then Err Admission.Conflict
    else if negb open_session then Err Admission.Retired
    else
      let? tx := update_control x false (reported_control k) (begin t) in
      commit x tx.

(** service.rs: [stop]; execution.rs: the note that a cleanup failed *)
Definition stop_root (t : Tables) : Tables :=
  if root_open (root t) then mk_tables (set_root_state R_stopping (root t)) (control t) (outputs t) (operations t) else t.
Definition uncertain_root (t : Tables) : Tables :=
  let r := root t in
  if r_completed r then t
  else mk_tables (mk_root (r_state r) (r_source r) (r_4k r) (r_history r) (r_result r) false true)
         (control t) (outputs t) (operations t).

(** *** revisions/retention.rs: the deletion of one operation in [prune] *)

Definition output_kept (x : Around) (t : Tables) (id : Uuid) (o : OutputRow) : bool :=
  negb (is_some_b (o_operation o)) || negb (resources_completed o)
  || negb (is_some_and (let! i := o_operation o in operations t !! i) (fun p =>
             is_some_and (prune_after p) (fun at_ => at_ <=? now x)))
  || is_some_and (control t) (fun c =>
       bool_decide (current_output c = Some id) || bool_decide (pending_operation c = o_operation o)).
Definition delete_outputs (x : Around) (operation : Uuid) (tx : Tx) : result Tx AdmissionError :=
  let t := tables tx in
  let mine (o : Uuid * OutputRow) := o_operation o.2 = Some operation in
  refuse (existsb (fun o : Uuid * OutputRow => bool_decide (mine o) && output_kept x t o.1 o.2) (map_to_list (outputs t)))
    (Ok (mk_tx (mk_tables (root t) (control t) (filter (fun o => ~ mine o) (outputs t)) (operations t)) (touched tx))).

Definition operation_kept (x : Around) (t : Tables) (id : Uuid) (p : OperationRow) : bool :=
  negb (is_some_and (prune_after p) (fun at_ => at_ <=? now x))
  || existsb (fun o : Uuid * OutputRow => bool_decide (o_operation o.2 = Some id)) (map_to_list (outputs t))
  || is_some_and (control t) (fun c => bool_decide (pending_operation c = Some id))
  || (cutoff x <=? Admission.uuid_extract_timestamp id).
Definition delete_operation (x : Around) (id : Uuid) (p : OperationRow) (tx : Tx) : result Tx AdmissionError :=
  let t := tables tx in
  refuse (operation_kept x t id p)
    (update_control x true (fun c => with_retained (retained_operations c - 1) c)
       (mk_tx (mk_tables (root t) (control t) (outputs t) (delete id (operations t))) (touched tx))).

Definition discarded_control (c : Control) : Control :=
  mk_control (revision c) (c_state c) None (pending_operation c) (claim_encodes c) (recovery_budget c) None 0 None
    (playback_state c) (retained_operations c).
Definition discard_current (x : Around) (output : Uuid) (tx : Tx) : result Tx AdmissionError :=
  if is_some_and (control (tables tx)) (fun c =>
       bool_decide (c_state c = C_retiring) && bool_decide (current_output c = Some output))
  then update_control x false discarded_control tx else Ok tx.

Definition prune (x : Around) (id : Uuid) (t : Tables) : result Tables AdmissionError :=
  match operations t !! id with
  | None => Ok t
  | Some p =>
      let? c := read_control t in
      if bool_decide (pending_operation c = Some id)
         || bool_decide (current_output c = Some (candidate_output p)) && negb (released x)
      then Ok t
      else
        let? tx := if released x then discard_current x (candidate_output p) (begin t) else Ok (begin t) in
        let? tx := delete_outputs x id tx in
        let? tx := delete_operation x id p tx in
        commit x tx
  end.

(** playback_vod_release_guard: the reservation of the viewer cannot be released. *)
Definition obligations_remain (t : Tables) : bool :=
  existsb (fun o : Uuid * OutputRow => unfinished o.2) (map_to_list (outputs t))
  || existsb (fun p : Uuid * OperationRow => is_pending (p_state p.2)) (map_to_list (operations t)).

End Revisions.
