(* ===== verification/RevisionsProofs.v ===== *)
(** * Revisions of a viewer: the rows stay consistent

    The triggers check at a commit only the rows that were written.  Here: what a
    transaction may change ([stage], [evolves]), and that with it every row of the
    three tables keeps satisfying what is checked ([sound]). *)

From stdpp Require Import gmap.
From S2P Require Import Prelude F64 Ladder Transcode Recovery Admission Revisions.

Module RevisionsProofs.
Import Revisions.

(** ** What the constraints and the triggers say of each row *)

Definition output_fits (t : Tables) (v : Control) (id : Uuid) (o : OutputRow) : Prop :=
  o_source o = r_source (root t) /\ o_4k o = r_4k (root t) /\
  (o_encodes o = true -> resources_completed o = false -> claim_encodes v = true) /\
  (forall i, o_operation o = Some i -> exists p, operations t !! i = Some p /\ candidate_output p = id).

Definition under_change (s : ControlState) : Prop := s = C_changing \/ s = C_uncertain \/ s = C_retiring.

Definition operation_fits (t : Tables) (v : Control) (id : Uuid) (p : OperationRow) : Prop :=
  exists o, outputs t !! candidate_output p = Some o /\ o_operation o = Some id /\
    (terminal_at p = None -> pending_operation v = Some id /\ under_change (c_state v)) /\
    (terminal_at p <> None -> pending_operation v <> Some id) /\
    (p_state p = P_completed -> published_at o <> None /\ p_result p = o_result o).

Definition control_fits (t : Tables) (v : Control) : Prop :=
  (exists i, current_output v = Some i /\ is_Some (outputs t !! i)) /\
  (forall i, pending_operation v = Some i -> exists p, operations t !! i = Some p /\ terminal_at p = None) /\
  (claim_encodes v = false -> forall i o, outputs t !! i = Some o -> o_encodes o = true -> resources_completed o = true).

Record rows_valid (t : Tables) : Prop := {
  rv_control : forall c, control t = Some c -> control_valid c = true;
  rv_output : forall i o, outputs t !! i = Some o -> output_valid i o = true;
  rv_operation : forall i p, operations t !! i = Some p -> operation_valid i p = true;
  rv_cleaned : forall i p, operations t !! i = Some p -> cleanup_at p <> None -> output_open t i = false }.

Record sound (t : Tables) : Prop := {
  so_rows : rows_valid t;
  so_none : control t = None -> outputs t = ∅ /\ operations t = ∅;
  so_control : forall v, control t = Some v -> control_fits t v;
  so_output : forall v i o, control t = Some v -> outputs t !! i = Some o -> output_fits t v i o;
  so_operation : forall v i p, control t = Some v -> operations t !! i = Some p -> operation_fits t v i p }.

(** *** Booleans and rows *)

Lemma existsb_false {A} (f : A -> bool) (l : list A) : existsb f l = false <-> forall a, a ∈ l -> f a = false.
Proof.
  split.
  - intros H a Ha. destruct (f a) eqn:E; [|done]. rewrite <- H. symmetry. apply existsb_exists. exists a.
    by rewrite <- list_elem_of_In.
  - intros H. apply not_true_iff_false. intros (a & Ha & E)%existsb_exists. apply list_elem_of_In in Ha.
    by rewrite (H a Ha) in E.
Qed.

Lemma map_existsb_false {B} (f : Uuid * B -> bool) (m : gmap Uuid B) :
  existsb f (map_to_list m) = false <-> forall i b, m !! i = Some b -> f (i, b) = false.
Proof.
  rewrite existsb_false. split.
  - intros H i b L. by apply H, elem_of_map_to_list.
  - intros H [i b] L%elem_of_map_to_list. by apply H.
Qed.

Lemma encoding_open_false (t : Tables) :
  encoding_open t = false <->
  forall i o, outputs t !! i = Some o -> o_encodes o = true -> resources_completed o = true.
Proof.
  unfold encoding_open. rewrite map_existsb_false. cbn. split; intros H i o L.
  - intros E. specialize (H i o L). rewrite E in H. by apply negb_false_iff in H.
  - specialize (H i o L). destruct (o_encodes o); [|done]. by rewrite H.
Qed.

Lemma output_open_false (t : Tables) (j : Uuid) :
  output_open t j = false <->
  forall i o, outputs t !! i = Some o -> o_operation o = Some j -> resources_completed o = true.
Proof.
  unfold output_open. rewrite map_existsb_false. cbn. split; intros H i o L.
  - intros E. specialize (H i o L). rewrite bool_decide_true in H by done. by apply negb_false_iff in H.
  - specialize (H i o L). case_bool_decide; [|done]. by rewrite H.
Qed.

(** The deferred triggers, row by row *)
Lemma graph_output (x : Around) (t : Tables) (v : Control) (i : Uuid) (o : OutputRow) :
  control t = Some v -> outputs t !! i = Some o ->
  graph_broken x t (T_output i) = false <-> output_fits t v i o.
Proof.
  intros C L. unfold graph_broken, output_fits. rewrite C, L. cbn. rewrite !orb_false_iff, !negb_false_iff.
  rewrite bool_decide_eq_true, Bool.eqb_true_iff, !andb_false_iff, !negb_false_iff.
  split.
  - intros (((A & B) & D) & E). split; [done|]. split; [done|]. split; [intros X Y; destruct D as [[D|D]|D]; congruence|].
    intros j J. rewrite J in E. cbn in E. apply negb_false_iff in E. destruct (operations t !! j) as [p|]; [|done].
    exists p. cbn in E. by apply bool_decide_eq_true in E.
  - intros (A & B & D & E). split; [split; [done|]|].
    + destruct (o_encodes o), (resources_completed o), (claim_encodes v); naive_solver.
    + destruct (o_operation o) as [j|]; [|done]. cbn. destruct (E j eq_refl) as (p & -> & P). cbn.
      by rewrite bool_decide_true.
Qed.

Lemma graph_operation (x : Around) (t : Tables) (v : Control) (i : Uuid) (p : OperationRow) :
  control t = Some v -> operations t !! i = Some p ->
  graph_broken x t (T_operation i) = false <-> operation_fits t v i p.
Proof.
  intros C L. unfold graph_broken, operation_fits. rewrite C, L. cbn.
  destruct (outputs t !! candidate_output p) as [o|]; [|split; [done|by intros (? & ? & _)]].
  rewrite !orb_false_iff, !andb_false_iff, !orb_false_iff, !negb_false_iff, !bool_decide_eq_true, !bool_decide_eq_false,
    !orb_true_iff, !bool_decide_eq_true. unfold under_change.
  split.
  - intros (((A & B) & D) & E). exists o. split; [done|]. split; [done|].
    destruct (terminal_at p), (published_at o); cbn in *; intuition congruence.
  - intros (o' & [= <-] & A & B & D & E).
    split; [split; [split; [done|]|]|]; destruct (terminal_at p), (published_at o); cbn in *;
      destruct (decide (p_state p = P_completed)); intuition congruence.
Qed.

Lemma graph_control (x : Around) (t : Tables) (v : Control) :
  released x = false -> control t = Some v ->
  graph_broken x t T_control = false <-> control_fits t v.
Proof.
  intros R C. unfold graph_broken, control_fits. rewrite C, R. cbn.
  rewrite !orb_false_iff, !andb_false_iff. rewrite negb_false_iff, encoding_open_false.
  split.
  - intros (((A & B) & D) & E). split.
    { destruct (current_output v) as [i|]; [|naive_solver]. exists i. split; [done|]. cbn in E.
      apply negb_false_iff in E. by destruct (outputs t !! i). }
    split.
    { intros i I. rewrite I in B. cbn in B. apply negb_false_iff in B. destruct (operations t !! i) as [p|]; [|done].
      cbn in B. exists p. by destruct (terminal_at p). }
    intros Q. destruct D as [D|D]; [by rewrite Q in D|done].
  - intros ((i & I & O) & B & D). rewrite I. cbn. destruct O as [o ->]. cbn.
    split; [split; [split; [by left|]|]|done].
    + destruct (pending_operation v) as [j|]; [|done]. cbn. destruct (B j eq_refl) as (p & -> & P). cbn. by rewrite P.
    + destruct (claim_encodes v); [by left|right; by apply D].
Qed.

(** ** What the statements of a transaction may change *)

Definition output_keeps (o o' : OutputRow) : Prop :=
  (o_operation o', o_source o', o_4k o', o_encodes o') = (o_operation o, o_source o, o_4k o, o_encodes o) /\
  (o_result o <> None -> o_result o' = o_result o /\ published_at o' = published_at o) /\
  (resources_completed o = true -> resources_completed o' = true).
Definition operation_keeps (p p' : OperationRow) : Prop :=
  (p_hash p', p_condition p', candidate_output p') = (p_hash p, p_condition p, candidate_output p) /\
  (terminal_at p <> None -> (p_state p', terminal_at p', p_result p') = (p_state p, terminal_at p, p_result p)).

#[export] Instance output_keeps_preorder : PreOrder output_keeps.
Proof.
  split; [by intros o|]. intros a b c (A & B & D) (A' & B' & D'). unfold output_keeps.
  split; [congruence|]. split; [|auto]. intros N. destruct (B N) as [E F]. rewrite <- E, <- F. apply B'. congruence.
Qed.
#[export] Instance operation_keeps_preorder : PreOrder operation_keeps.
Proof.
  split; [by intros p|]. intros a b c (A & B) (A' & B'). unfold operation_keeps. split; [congruence|].
  intros N. specialize (B N). rewrite <- B. apply B'. congruence.
Qed.

(** [X]: the outputs that may be completed. *)
Record stage (X : Uuid -> Prop) (t : Tables) (tx : Tx) : Prop := {
  st_rows : rows_valid (tables tx);
  st_root : r_source (root (tables tx)) = r_source (root t) /\ r_4k (root (tables tx)) = r_4k (root t);
  st_control : T_control ∈ touched tx \/ control (tables tx) = control t;
  st_later : forall c, control t = Some c -> exists c', control (tables tx) = Some c' /\ revision c <= revision c';
  st_output : forall i, T_output i ∈ touched tx \/ outputs (tables tx) !! i = outputs t !! i;
  st_outputs : forall i o, outputs t !! i = Some o -> exists o', outputs (tables tx) !! i = Some o' /\
    output_keeps o o' /\ (X i \/ resources_completed o' = resources_completed o);
  st_operation : forall i, T_operation i ∈ touched tx \/ operations (tables tx) !! i = operations t !! i;
  st_operations : forall i p, operations t !! i = Some p -> exists p', operations (tables tx) !! i = Some p' /\
    operation_keeps p p' }.

Lemma stage_begin (X : Uuid -> Prop) (t : Tables) : rows_valid t -> stage X t (begin t).
Proof.
  intros R. split; cbn; auto.
  - intros c E. exists c. split; [done|lia].
  - intros i o L. exists o. repeat split; auto.
  - intros i p L. exists p. by split.
Qed.

(** The triggers of the rows *)
Lemma refuse_ok {A} (b : bool) (r : result A AdmissionError) (a : A) : refuse b r = Ok a -> b = false /\ r = Ok a.
Proof. by destruct b. Qed.
Lemma check_ok {A} (b : bool) (r : result A AdmissionError) (a : A) : check b r = Ok a -> b = false /\ r = Ok a.
Proof. by destruct b. Qed.

Ltac refused :=
  repeat match goal with
         | H : refuse _ _ = Ok _ |- _ => apply refuse_ok in H; destruct H as [? H]
         | H : check _ _ = Ok _ |- _ => apply check_ok in H; destruct H as [? H]
         | H : Ok _ = Ok _ |- _ => injection H as H
         end.

Lemma bumped_revision (old new : Control) : revision old <= revision new -> revision old <= revision (bumped old new).
Proof. unfold bumped. destruct (same_configuration old new); cbn; lia. Qed.

Lemma control_guard_ok (x : Around) (nested : bool) (t : Tables) (old new c : Control) :
  control_guard x nested t old new = Ok c ->
  regresses nested old new = false /\ control_attributed t new = false /\ stale t old new = false /\ c = bumped old new.
Proof.
  unfold control_guard. intros H. refused. cbn zeta in H.
  destruct (if _ && _ then encoder_free x else Ok tt); [|done]. cbn in H. by injection H as <-.
Qed.

Lemma update_control_some (x : Around) (nested : bool) (f : Control -> Control) (tx tx' : Tx) (old : Control) :
  control (tables tx) = Some old -> update_control x nested f tx = Ok tx' ->
  control_guard x nested (tables tx) old (f old) = Ok (bumped old (f old)) /\
  control_valid (bumped old (f old)) = true /\ tx' = put_control (bumped old (f old)) tx.
Proof.
  unfold update_control. intros ->. cbn. intros H.
  destruct (control_guard x nested (tables tx) old (f old)) as [c|] eqn:G; [|done]. cbn in H. refused.
  pose proof (control_guard_ok _ _ _ _ _ _ G) as (_ & _ & _ & ->). split; [done|]. split; [by apply negb_false_iff|done].
Qed.

Lemma rows_put_control (c : Control) (tx : Tx) :
  rows_valid (tables tx) -> control_valid c = true -> rows_valid (tables (put_control c tx)).
Proof. intros [A B D E] V. split; cbn; auto. by intros ? [= <-]. Qed.

Lemma stage_put_control (X : Uuid -> Prop) (t : Tables) (c : Control) (tx : Tx) :
  stage X t tx -> control_valid c = true ->
  (forall old, control (tables tx) = Some old -> revision old <= revision c) -> stage X t (put_control c tx).
Proof.
  intros [A B C D E F G H] V R. split; [by apply rows_put_control|..]; cbn; auto.
  - left. apply list_elem_of_here.
  - intros c0 L. destruct (D c0 L) as (c1 & L1 & R1). exists c. split; [done|]. specialize (R c1 L1). lia.
  - intros i. destruct (E i); [left; by apply list_elem_of_further|by right].
  - intros i. destruct (G i); [left; by apply list_elem_of_further|by right].
Qed.

Lemma stage_update_control (X : Uuid -> Prop) (t : Tables) (x : Around) (nested : bool) (f : Control -> Control)
    (tx tx' : Tx) :
  update_control x nested f tx = Ok tx' -> stage X t tx -> stage X t tx'.
Proof.
  intros H S. destruct (control (tables tx)) as [old|] eqn:C.
  - destruct (update_control_some _ _ _ _ _ _ C H) as (G & V & ->).
    apply stage_put_control; [done|done|]. intros o E. rewrite C in E. injection E as <-. apply bumped_revision.
    apply control_guard_ok in G as (G & _). unfold regresses in G. rewrite !orb_false_iff in G.
    destruct G as ((((G & _) & _) & _) & _). apply Z.ltb_ge in G. lia.
  - unfold update_control in H. rewrite C in H. by refused; subst.
Qed.

Lemma stage_insert_control (X : Uuid -> Prop) (t : Tables) (x : Around) (i : Uuid) (claim : bool) (tx tx' : Tx) :
  insert_control x i claim tx = Ok tx' -> stage X t tx -> stage X t tx'.
Proof.
  unfold insert_control. intros H S. refused. destruct (if claim then encoder_free x else Ok tt); [|done].
  cbn in H. refused. subst. rewrite orb_false_iff, negb_false_iff in *. destruct_and?.
  apply stage_put_control; [done|done|]. intros old L. rewrite L in *. done.
Qed.

(** *** Outputs *)

Lemma output_guard_keeps (n : Z) (old new : OutputRow) :
  output_regresses old new = false -> output_keeps old (output_times n old new).
Proof.
  unfold output_regresses. rewrite !orb_false_iff. intros ((((((A & B) & D) & E) & F) & G) & H).
  apply negb_false_iff, bool_decide_eq_true in A. injection A as A1 A2 A3 A4 A5 A6 A7 A8.
  unfold output_keeps, output_times. cbn. split; [congruence|]. split.
  - intros N. destruct (o_result old); [|done]. cbn in B. apply negb_false_iff, bool_decide_eq_true in B.
    injection B as B1 B2. rewrite B1, B2. by split.
  - intros Q. rewrite Q in D. cbn in D. by apply negb_false_iff in D.
Qed.

Lemma stage_put_output (X : Uuid -> Prop) (t : Tables) (tx : Tx) (i : Uuid) (o : OutputRow) :
  stage X t tx -> output_valid i o = true ->
  match outputs (tables tx) !! i with
  | Some old => output_keeps old o /\ (X i \/ resources_completed o = resources_completed old)
  | None => forall j p, o_operation o = Some j -> operations (tables tx) !! j = Some p -> cleanup_at p = None
  end -> stage X t (put_output i o tx).
Proof.
  intros [[R1 R2 R3 R4] B C D E F G H] V K. split; cbn; auto.
  - split; cbn; auto.
    + intros k r [[<- <-]|[_ L]]%lookup_insert_Some; eauto.
    + intros j p L Q. specialize (R4 j p L Q). rewrite output_open_false in *. cbn. intros k r.
      intros [[<- <-]|[_ M]]%lookup_insert_Some O; [|by eapply R4].
      destruct (outputs (tables tx) !! i) as [old|] eqn:I; [|by rewrite (K j p O L) in Q].
      destruct K as [(K1 & _ & K3) _]. apply K3, (R4 i old I). congruence.
  - destruct C as [C|C]; [left; by apply list_elem_of_further|by right].
  - intros k. destruct (decide (k = i)) as [->|N]; [left; apply list_elem_of_here|].
    rewrite lookup_insert_ne by done. destruct (E k); [left; by apply list_elem_of_further|by right].
  - intros k r L. destruct (F k r L) as (r' & L' & K' & X'). destruct (decide (k = i)) as [->|N].
    + rewrite L' in K. exists o. rewrite lookup_insert_eq. split; [done|]. destruct K as [K Y].
      split; [by etrans|]. destruct X' as [X'|X']; [by left|]. destruct Y as [Y|Y]; [by left|right; congruence].
    + exists r'. rewrite lookup_insert_ne by done. done.
  - intros k. destruct (G k); [left; by apply list_elem_of_further|by right].
Qed.

Lemma update_output_ok (x : Around) (i : Uuid) (w : OutputRow -> bool) (f : OutputRow -> OutputRow) (tx tx' : Tx) (b : bool) :
  update_output x i w f tx = Ok (tx', b) ->
  (b = false /\ tx' = tx /\ forall o, outputs (tables tx) !! i = Some o -> w o = false) \/
  exists o, outputs (tables tx) !! i = Some o /\ w o = true /\ b = true /\
    output_keeps o (output_times (now x) o (f o)) /\ output_valid i (output_times (now x) o (f o)) = true /\
    tx' = put_output i (output_times (now x) o (f o)) tx.
Proof.
  unfold update_output. destruct (outputs (tables tx) !! i) as [o|] eqn:L.
  2:{ intros [= -> ->]. left. by repeat split. }
  destruct (w o) eqn:W; intros H.
  - refused. right. exists o. split; [done|]. split; [done|]. split; [done|].
    split; [by apply output_guard_keeps|]. rewrite negb_false_iff in *. done.
  - injection H as <- <-. left. repeat split. by intros ? [= <-].
Qed.

Lemma stage_update_output (X : Uuid -> Prop) (t : Tables) (x : Around) (i : Uuid) (w : OutputRow -> bool)
    (f : OutputRow -> OutputRow) (tx tx' : Tx) (b : bool) :
  update_output x i w f tx = Ok (tx', b) ->
  X i \/ (forall o, resources_completed (f o) = resources_completed o) -> stage X t tx -> stage X t tx'.
Proof.
  intros H C S. destruct (update_output_ok _ _ _ _ _ _ _ H) as [(-> & -> & _)|(o & L & _ & -> & K & V & ->)]; [done|].
  apply stage_put_output; [done..|]. rewrite L. split; [done|]. destruct C as [C|C]; [by left|right].
  unfold output_times. cbn. apply C.
Qed.

Lemma stage_insert_output (X : Uuid -> Prop) (t : Tables) (x : Around) (i : Uuid) (o : OutputRow) (tx tx' : Tx) :
  insert_output x i o tx = Ok tx' ->
  (forall j p, o_operation o = Some j -> operations (tables tx) !! j = Some p -> cleanup_at p = None) ->
  stage X t tx -> stage X t tx'.
Proof.
  unfold insert_output. intros H K S. refused. subst. rewrite !orb_false_iff, negb_false_iff in *. destruct_and?.
  apply stage_put_output; [done..|]. destruct (outputs (tables tx) !! i); [done|exact K].
Qed.

(** *** Operations *)

Lemma operation_guard_keeps (n : Z) (old new : OperationRow) :
  operation_regresses old new = false -> operation_keeps old (operation_times n old new).
Proof.
  unfold operation_regresses. rewrite !orb_false_iff. intros (((((A & B) & _) & _) & _) & _).
  apply negb_false_iff, bool_decide_eq_true in A. injection A as A1 A2 A3 A4 A5 A6 A7.
  unfold operation_keeps, operation_times. cbn. split; [congruence|]. intros N.
  destruct (terminal_at old); [|done]. cbn in B. apply negb_false_iff, bool_decide_eq_true in B.
  injection B as B1 B2 B3. cbn. rewrite andb_false_r. congruence.
Qed.

Lemma stage_put_operation (X : Uuid -> Prop) (t : Tables) (tx : Tx) (i : Uuid) (p : OperationRow) :
  stage X t tx -> operation_valid i p = true ->
  (forall old, operations (tables tx) !! i = Some old -> operation_keeps old p) ->
  (cleanup_at p <> None -> output_open (tables tx) i = false) -> stage X t (put_operation i p tx).
Proof.
  intros [[R1 R2 R3 R4] B C D E F G H] V K Q. split; cbn; auto.
  - split; cbn; auto.
    + intros k r [[<- <-]|[_ L]]%lookup_insert_Some; eauto.
    + intros j r [[<- <-]|[_ L]]%lookup_insert_Some N; [by apply Q|by eapply R4].
  - destruct C as [C|C]; [left; by apply list_elem_of_further|by right].
  - intros k. destruct (E k); [left; by apply list_elem_of_further|by right].
  - intros k. destruct (decide (k = i)) as [->|N]; [left; apply list_elem_of_here|].
    rewrite lookup_insert_ne by done. destruct (G k); [left; by apply list_elem_of_further|by right].
  - intros k r L. destruct (H k r L) as (r' & L' & K'). destruct (decide (k = i)) as [->|N].
    + exists p. rewrite lookup_insert_eq. split; [done|]. etrans; [exact K'|by apply K].
    + exists r'. by rewrite lookup_insert_ne.
Qed.

Lemma update_operation_ok (x : Around) (i : Uuid) (w : OperationRow -> bool) (f : OperationRow -> OperationRow) (tx tx' : Tx) :
  update_operation x i w f tx = Ok tx' ->
  (tx' = tx /\ forall p, operations (tables tx) !! i = Some p -> w p = false) \/
  exists p, operations (tables tx) !! i = Some p /\ w p = true /\ operation_regresses p (f p) = false /\
    (cleanup_at (f p) <> None -> output_open (tables tx) i = false) /\
    operation_valid i (operation_times (now x) p (f p)) = true /\ tx' = put_operation i (operation_times (now x) p (f p)) tx.
Proof.
  unfold update_operation. destruct (operations (tables tx) !! i) as [p|] eqn:L.
  2:{ intros [= ->]. by left. }
  destruct (w p) eqn:W; intros H.
  - refused. right. exists p. split; [done|]. split; [done|]. split; [done|]. rewrite negb_false_iff in *.
    split; [|done]. intros N. destruct (cleanup_at (f p)); [done|done].
  - injection H as <-. left. split; [done|]. by intros ? [= <-].
Qed.

Lemma cleanup_times (n : Z) (old new : OperationRow) : cleanup_at (operation_times n old new) <> None -> cleanup_at new <> None.
Proof. unfold operation_times. cbn. by destruct (cleanup_at new). Qed.

Lemma stage_update_operation (X : Uuid -> Prop) (t : Tables) (x : Around) (i : Uuid) (w : OperationRow -> bool)
    (f : OperationRow -> OperationRow) (tx tx' : Tx) :
  update_operation x i w f tx = Ok tx' -> stage X t tx -> stage X t tx'.
Proof.
  intros H S. destruct (update_operation_ok _ _ _ _ _ _ H) as [[-> _]|(p & L & _ & G & Q & V & ->)]; [done|].
  apply stage_put_operation; [done..| |].
  - rewrite L. intros old [= <-]. by apply operation_guard_keeps.
  - intros N. by apply Q, (cleanup_times (now x) p).
Qed.

Lemma insert_operation_ok (x : Around) (i : Uuid) (p : OperationRow) (tx tx' : Tx) :
  insert_operation x i p tx = Ok tx' ->
  operations (tables tx) !! i = None /\ operation_valid i p = true /\
  (forall j q, operations (tables tx) !! j = Some q -> is_pending (p_state q) = false) /\
  update_control x true (fun c => with_retained (retained_operations c + 1) c) (put_operation i p tx) = Ok tx'.
Proof.
  unfold insert_operation. intros H. refused. destruct (control (tables tx)) as [c|]; [|done]. cbn in H. refused.
  cbn zeta in H. destruct (_ =? 1); [done|]. destruct (_ =? 2); [done|]. refused.
  destruct (_ || (8192 <=? _) || _); [done|]. apply check_ok in H as [V H]. rewrite !orb_false_iff in V.
  destruct V as [[V L] P]. apply negb_false_iff in V. rewrite map_existsb_false in P.
  destruct (operations (tables tx) !! i); [done|]. by repeat split.
Qed.

Lemma stage_insert_operation (X : Uuid -> Prop) (t : Tables) (x : Around) (i : Uuid) (p : OperationRow) (tx tx' : Tx) :
  insert_operation x i p tx = Ok tx' -> cleanup_at p = None -> stage X t tx -> stage X t tx'.
Proof.
  intros H N S. destruct (insert_operation_ok _ _ _ _ _ H) as (L & V & _ & U).
  eapply stage_update_control; [exact U|]. apply stage_put_operation; [done..| |done].
  rewrite L. done.
Qed.

Lemma stage_put_root (X : Uuid -> Prop) (t : Tables) (r : Root) (tx : Tx) :
  stage X t tx -> r_source r = r_source (root (tables tx)) -> r_4k r = r_4k (root (tables tx)) ->
  stage X t (put_root r tx).
Proof.
  intros [[R1 R2 R3 R4] [B B'] C D E F G H] U V. split; cbn; auto; [|split; congruence].
  by split; cbn.
Qed.

(** ** The commit *)

(** The transaction writes every operation that is not at its end, or leaves the
    row of the viewer. *)
Definition settled (t : Tables) (tx : Tx) : Prop :=
  forall i p, operations t !! i = Some p -> terminal_at p = None ->
    T_operation i ∈ touched tx \/ control (tables tx) = control t.

Lemma commit_ok (x : Around) (tx : Tx) (t' : Tables) :
  commit x tx = Ok t' -> t' = tables tx /\ forall u, u ∈ touched tx -> graph_broken x (tables tx) u = false.
Proof.
  unfold commit. destruct (existsb _ _) eqn:E; [done|]. intros [= <-]. split; [done|]. by apply existsb_false.
Qed.

Section Commit.
Context (x : Around) (X : Uuid -> Prop) (t : Tables) (tx : Tx).
Hypothesis R : released x = false.
Hypothesis B : sound t.
Hypothesis S : stage X t tx.
Hypothesis U : settled t tx.
Hypothesis G : forall u, u ∈ touched tx -> graph_broken x (tables tx) u = false.

Lemma commit_before (v : Control) :
  control (tables tx) = Some v -> control t = Some v \/ control_fits (tables tx) v.
Proof.
  intros C. destruct (st_control _ _ _ S) as [T|T]; [right|left; congruence].
  by apply (graph_control x), G.
Qed.

Lemma commit_control (v : Control) : control (tables tx) = Some v -> control_fits (tables tx) v.
Proof.
  intros C. destruct (commit_before v C) as [C0|]; [|done].
  destruct (so_control _ B v C0) as ((i & I & o & O) & P & Q). split; [|split].
  - exists i. split; [done|]. destruct (st_outputs _ _ _ S i o O) as (o' & O' & _). by eexists.
  - intros j J. destruct (P j J) as (p & L & N). destruct (st_operation _ _ _ S j) as [T|T].
    + destruct (st_operations _ _ _ S j p L) as (p' & L' & _). exists p'. split; [done|].
      destruct (proj1 (graph_operation x _ v j p' C L') (G _ T)) as (_ & _ & _ & _ & D & _).
      destruct (terminal_at p'); [|done]. by destruct (D ltac:(done)).
    + exists p. by rewrite T.
  - intros E i0 o0 L K. destruct (st_output _ _ _ S i0) as [T|T].
    + destruct (proj1 (graph_output x _ v i0 o0 C L) (G _ T)) as (_ & _ & D & _).
      destruct (resources_completed o0); [done|]. rewrite D in E; done.
    + rewrite T in L. by eapply Q.
Qed.

Lemma commit_output (v : Control) (i : Uuid) (o : OutputRow) :
  control (tables tx) = Some v -> outputs (tables tx) !! i = Some o -> output_fits (tables tx) v i o.
Proof.
  intros C L. destruct (st_output _ _ _ S i) as [T|T]; [by apply (graph_output x), G|].
  rewrite T in L. destruct (control t) as [v0|] eqn:C0.
  2:{ destruct (so_none _ B C0) as [E _]. by rewrite E in L. }
  destruct (so_output _ B v0 i o C0 L) as (A1 & A2 & A3 & A4). destruct (st_root _ _ _ S) as [Q1 Q2].
  split; [congruence|]. split; [congruence|]. split.
  - intros E O. destruct (commit_before v C) as [C1|(_ & _ & D)]; [apply A3 in O; [congruence|done]|].
    destruct (claim_encodes v); [done|]. rewrite (D eq_refl i o) in O; [done|by rewrite T|done].
  - intros j J. destruct (A4 j J) as (p & P & K). destruct (st_operations _ _ _ S j p P) as (p' & P' & [K' _]).
    exists p'. split; [done|]. congruence.
Qed.

Lemma commit_operation (v : Control) (i : Uuid) (p : OperationRow) :
  control (tables tx) = Some v -> operations (tables tx) !! i = Some p -> operation_fits (tables tx) v i p.
Proof.
  intros C L. destruct (decide (T_operation i ∈ touched tx)) as [T|N]; [by apply (graph_operation x), G|].
  destruct (st_operation _ _ _ S i) as [T|T]; [done|].
  rewrite T in L. destruct (control t) as [v0|] eqn:C0.
  2:{ destruct (so_none _ B C0) as [_ E]. by rewrite E in L. }
  destruct (so_operation _ B v0 i p C0 L) as (o & O & A1 & A2 & A3 & A4).
  destruct (st_outputs _ _ _ S _ o O) as (o' & O' & (K1 & K2 & _) & _). exists o'. split; [done|].
  split; [congruence|]. split; [|split].
  - intros E. destruct (U i p L E) as [|Z]; [done|]. rewrite C, C0 in Z. injection Z as ->. by apply A2.
  - intros E. destruct (commit_before v C) as [C1|(_ & D & _)].
    + rewrite C0 in C1. injection C1 as ->. by apply A3.
    + intros P. destruct (D i P) as (p' & P' & E'). rewrite T, L in P'. by injection P' as <-.
  - intros E. destruct (A4 E) as [P Q]. pose proof (rv_output _ (so_rows _ B) _ o O) as V.
    unfold output_valid in V. rewrite !andb_true_iff in V. destruct V as [[[[[[_ V] _] _] _] _] _].
    destruct (o_result o) eqn:Y; [|by destruct (published_at o)]. destruct (K2 ltac:(done)) as [Z1 Z2].
    split; congruence.
Qed.

Lemma committed_sound : sound (tables tx).
Proof.
  split; [exact (st_rows _ _ _ S)| |exact commit_control|exact commit_output|exact commit_operation].
  intros N. destruct (control t) as [v|] eqn:C0.
  { destruct (st_later _ _ _ S v C0) as (c & E & _). congruence. }
  assert (Q : forall u, u ∉ touched tx).
  { intros u T. specialize (G u T). unfold graph_broken in G. by rewrite N in G. }
  destruct (so_none _ B C0) as [E1 E2]. split; apply map_eq; intros i; rewrite lookup_empty.
  - destruct (st_output _ _ _ S i) as [T|T]; [by apply Q in T|]. by rewrite T, E1.
  - destruct (st_operation _ _ _ S i) as [T|T]; [by apply Q in T|]. by rewrite T, E2.
Qed.
End Commit.

Lemma commit_sound (x : Around) (X : Uuid -> Prop) (t t' : Tables) (tx : Tx) :
  released x = false -> sound t -> stage X t tx -> settled t tx -> commit x tx = Ok t' -> sound t'.
Proof. intros R B S U [-> G]%commit_ok. by eapply committed_sound. Qed.

(** ** The transactions *)

(** From one commit to another: [X]: the outputs that may be completed. *)
Record grows (X : Uuid -> Prop) (t t' : Tables) : Prop := {
  gr_later : forall c, control t = Some c -> exists c', control t' = Some c' /\ revision c <= revision c';
  gr_open : forall i o, outputs t !! i = Some o -> resources_completed o = false ->
    exists o', outputs t' !! i = Some o' /\ (o_operation o', o_encodes o') = (o_operation o, o_encodes o) /\
      (X i \/ resources_completed o' = false) }.

#[export] Instance grows_reflexive (X : Uuid -> Prop) : Reflexive (grows X).
Proof. intros t. split; [intros c C; exists c; split; [done|lia]|]. intros i o L C. exists o. auto. Qed.

Lemma stage_grows (X : Uuid -> Prop) (t : Tables) (tx : Tx) : stage X t tx -> grows X t (tables tx).
Proof.
  intros S. split; [exact (st_later _ _ _ S)|]. intros i o L C.
  destruct (st_outputs _ _ _ S i o L) as (o' & L' & (K & _) & Y). exists o'. split; [done|].
  split; [congruence|]. destruct Y as [Y|Y]; [by left|right; congruence].
Qed.

(** No transaction completes an output, or only the one it is about. *)
Definition none (_ : Uuid) : Prop := False.
Definition only (i : Uuid) (j : Uuid) : Prop := j = i.
Definition all (_ : Uuid) : Prop := True.

Definition kept (X : Uuid -> Prop) (t t' : Tables) : Prop := sound t' /\ grows X t t'.

Lemma commit_kept (x : Around) (X : Uuid -> Prop) (t t' : Tables) (tx : Tx) :
  released x = false -> sound t -> stage X t tx -> settled t tx -> commit x tx = Ok t' -> kept X t t'.
Proof.
  intros R B S U H. split; [by eapply commit_sound|]. apply commit_ok in H as [-> _]. by apply stage_grows.
Qed.

(** An operation that is not at its end is the pending one. *)
Lemma unfinished_pending (t : Tables) (c : Control) (i : Uuid) (p : OperationRow) :
  sound t -> control t = Some c -> operations t !! i = Some p -> terminal_at p = None ->
  pending_operation c = Some i /\ under_change (c_state c).
Proof. intros B C L N. destruct (so_operation _ B c i p C L) as (o & _ & _ & H & _). by apply H. Qed.

Lemma settled_idle (t : Tables) (tx : Tx) (c : Control) :
  sound t -> control t = Some c -> pending_operation c = None \/ ~ under_change (c_state c) -> settled t tx.
Proof.
  intros B C I i p L N. destruct (unfinished_pending t c i p B C L N) as [P Q]. destruct I as [I|I]; [congruence|done].
Qed.

Lemma settled_same (t : Tables) (tx : Tx) : control (tables tx) = control t -> settled t tx.
Proof. intros E i p _ _. by right. Qed.

Lemma settled_touched (t : Tables) (tx : Tx) (c : Control) (i : Uuid) :
  sound t -> control t = Some c -> pending_operation c = Some i -> T_operation i ∈ touched tx -> settled t tx.
Proof.
  intros B C P T j p L N. left. destruct (unfinished_pending t c j p B C L N) as [Q _]. congruence.
Qed.

(** *** What a statement leaves alone *)

Lemma read_control_ok (t : Tables) (c : Control) : read_control t = Ok c -> control t = Some c.
Proof. unfold read_control. by destruct (control t); intros [= ->]. Qed.

Lemma update_output_frame (x : Around) (i : Uuid) (w : OutputRow -> bool) (f : OutputRow -> OutputRow) (tx tx' : Tx) (b : bool) :
  update_output x i w f tx = Ok (tx', b) ->
  control (tables tx') = control (tables tx) /\ operations (tables tx') = operations (tables tx) /\
  root (tables tx') = root (tables tx) /\ (forall u, u ∈ touched tx -> u ∈ touched tx').
Proof.
  intros H. destruct (update_output_ok _ _ _ _ _ _ _ H) as [(_ & -> & _)|(o & _ & _ & _ & _ & _ & ->)]; [done|].
  repeat split. intros u U. by apply list_elem_of_further.
Qed.

Lemma insert_output_frame (x : Around) (i : Uuid) (o : OutputRow) (tx tx' : Tx) :
  insert_output x i o tx = Ok tx' -> tx' = put_output i o tx /\ outputs (tables tx) !! i = None.
Proof.
  unfold insert_output. intros H. refused. subst. dk_bool. split; [done|].
  by destruct (outputs (tables tx) !! i).
Qed.

Lemma update_operation_frame (x : Around) (i : Uuid) (w : OperationRow -> bool) (f : OperationRow -> OperationRow) (tx tx' : Tx) :
  update_operation x i w f tx = Ok tx' ->
  control (tables tx') = control (tables tx) /\ outputs (tables tx') = outputs (tables tx) /\
  root (tables tx') = root (tables tx) /\ (forall u, u ∈ touched tx -> u ∈ touched tx').
Proof.
  intros H. destruct (update_operation_ok _ _ _ _ _ _ H) as [[-> _]|(p & _ & _ & _ & _ & _ & ->)]; [done|].
  repeat split. intros u U. by apply list_elem_of_further.
Qed.

(** The operation was written, when the condition held. *)
Lemma update_operation_touched (x : Around) (i : Uuid) (w : OperationRow -> bool) (f : OperationRow -> OperationRow)
    (tx tx' : Tx) (p : OperationRow) :
  update_operation x i w f tx = Ok tx' -> operations (tables tx) !! i = Some p -> w p = true ->
  T_operation i ∈ touched tx' /\ operations (tables tx') !! i = Some (operation_times (now x) p (f p)).
Proof.
  intros H L W. destruct (update_operation_ok _ _ _ _ _ _ H) as [[_ N]|(q & Q & _ & _ & _ & _ & ->)].
  - rewrite N in W by done. done.
  - rewrite L in Q. injection Q as <-. split; [apply list_elem_of_here|]. cbn. by rewrite lookup_insert_eq.
Qed.

Lemma update_control_frame (x : Around) (nested : bool) (f : Control -> Control) (tx tx' : Tx) :
  update_control x nested f tx = Ok tx' ->
  outputs (tables tx') = outputs (tables tx) /\ operations (tables tx') = operations (tables tx) /\
  root (tables tx') = root (tables tx) /\ (forall u, u ∈ touched tx -> u ∈ touched tx').
Proof.
  intros H. destruct (control (tables tx)) as [old|] eqn:C.
  - destruct (update_control_some _ _ _ _ _ _ C H) as (_ & _ & ->). repeat split.
    intros u U. by apply list_elem_of_further.
  - unfold update_control in H. rewrite C in H. refused. by subst.
Qed.

#[local] Hint Resolve stage_begin so_rows : core.

Lemma setup_kept (x : Around) (o : Output) (t t' : Tables) :
  released x = false -> sound t -> setup x o t = Ok t' -> kept none t t'.
Proof.
  unfold setup. intros R B H. succeed H. rename X into E1, X0 into E2.
  assert (C : control t = None).
  { destruct (insert_output_frame _ _ _ _ _ E1) as [-> _]. unfold insert_control in E2. refused.
    destruct (if Admission.encodes _ then encoder_free x else Ok tt); [|done]. refused. dk_bool. cbn in *.
    by destruct (control t). }
  destruct (so_none _ B C) as [_ P].
  eapply commit_kept; [done|done| |by intros i p L; rewrite P in L|exact H].
  eapply stage_insert_control; [exact E2|]. eapply stage_insert_output; [exact E1| |auto].
  intros j p _ L. cbn in L. by rewrite P in L.
Qed.

(** What the checks of [publish] leave *)
Lemma publishable_ok (x : Around) (f : Found) (o : Output) (c : Control) (t : Tables) :
  publishable x f o c t = Ok tt ->
  match out_operation o with
  | Some id => exists p, operations t !! id = Some p /\ pending_operation c = Some id /\ p_state p = P_preparing
  | None => c_state c = C_preparing
  end.
Proof.
  unfold publishable. destruct (out_operation o) as [id|].
  - destruct (operations t !! id) as [p|]; [|done]. cbn. destruct (_ || _) eqn:E; [done|]. intros _. dk_bool.
    exists p. split; [done|]. split; by eapply bool_decide_eq_true.
  - destruct (_ || _) eqn:E; [done|]. intros _. dk_bool. by eapply bool_decide_eq_true.
Qed.

Lemma publish_rest_stage (x : Around) (f : Found) (o : Output) (h : Uuid * Z) (t t' : Tables) :
  rows_valid t -> publish_rest x f o h (begin t) = Ok t' ->
  exists tx, commit x tx = Ok t' /\ stage none t tx /\
    match out_operation o with
    | Some id => forall p, operations t !! id = Some p -> p_state p = P_preparing -> T_operation id ∈ touched tx
    | None => True
    end.
Proof.
  unfold publish_rest. intros B H. destruct (update_output _ _ _ _ _) as [[tx1 b]|] eqn:E1; [|done].
  destruct b; cbn [negb] in H; [|done].
  assert (S1 : stage none t tx1) by (eapply stage_update_output; [exact E1|by right|auto]).
  destruct (update_output_frame _ _ _ _ _ _ _ E1) as (_ & P1 & _ & _).
  match type of H with match ?m with _ => _ end = _ => destruct m as [tx2|] eqn:E2; [|done] end.
  destruct (update_control _ _ _ _) as [tx3|] eqn:E3; [|done]. exists tx3. split; [done|].
  destruct (update_control_frame _ _ _ _ _ E3) as (_ & _ & _ & T3).
  destruct (out_operation o) as [id|].
  - split; [eapply stage_update_control, stage_update_operation; eauto|]. intros p L Q. apply T3.
    eapply update_operation_touched; [exact E2|by rewrite P1|]. unfold in_state. by rewrite Q, bool_decide_true.
  - split; [|done]. eapply stage_update_control; [exact E3|]. injection E2 as <-. case_bool_decide; [|done].
    by apply stage_put_root.
Qed.

Lemma publish_kept (x : Around) (f : Found) (o : Output) (t t' : Tables) :
  released x = false -> sound t -> publish x f o t = Ok t' -> kept none t t'.
Proof.
  unfold publish. intros R B H. destruct (read_control t) as [c|] eqn:C; [|done]. apply read_control_ok in C.
  destruct (_ || _); [done|]. destruct (publishable _ _ _ _ _) as [[]|] eqn:P; [|done].
  match type of H with match ?m with _ => _ end = _ => destruct m as [h|]; [|done] end.
  destruct (negb (session_updated f)); [done|].
  apply publish_rest_stage in H as (tx & H & S & T); [|auto]. eapply commit_kept; [done|done|exact S| |exact H].
  apply publishable_ok in P. destruct (out_operation o) as [id|].
  - destruct P as (p & L & P & Q). eapply settled_touched; eauto.
  - eapply settled_idle; eauto. right. unfold under_change. rewrite P. naive_solver.
Qed.

(** The transactions of a change *)

Definition expects (a : Acceptance) : Prop := out_operation (a_target a) = Some (a_operation a).

Lemma insert_operation_frame (x : Around) (i : Uuid) (p : OperationRow) (tx tx' : Tx) :
  insert_operation x i p tx = Ok tx' ->
  operations (tables tx') = <[i := p]> (operations (tables tx)) /\ T_operation i ∈ touched tx'.
Proof.
  intros (_ & _ & _ & U)%insert_operation_ok. destruct (update_control_frame _ _ _ _ _ U) as (_ & -> & _ & T).
  split; [done|]. apply T, list_elem_of_here.
Qed.

Section Digest.
Context (digest : ConfigurationResponse -> result string unit).

Lemma accept_new_ok (x : Around) (k : Context_) (a : Acceptance) (c : Control) (t t' : Tables) :
  accept_new digest x k a c t = Ok t' ->
  exists id row value tx1 tx2 tx3, pending_operation c = None /\ current_output c = Some id /\
    outputs t !! id = Some row /\ configuration digest (viewer k) c id row (local k) = Ok (value, a_condition a) /\
    open_to_change (c_state c) = true /\
    insert_operation x (a_operation a) (new_operation (now x) (a_hash a) (a_condition a) (a_action a) (a_expected a)
      (out_id (a_target a)) (a_evidence a)) (begin t) = Ok tx1 /\
    insert_output x (out_id (a_target a)) (new_row (out_operation (a_target a)) (out_generation (a_target a))
      (out_binding (a_target a)) (out_configuration (a_target a))) tx1 = Ok tx2 /\
    update_control x false (accepted_control a) tx2 = Ok tx3 /\ commit x tx3 = Ok t'.
Proof.
  unfold accept_new. intros H. destruct (missing _ _); [|done].
  destruct (pending_operation c) eqn:P; [done|]. cbn [is_some_b] in H.
  destruct (current_output c) as [id|] eqn:I; [|done]. cbn [ok_or] in H.
  unfold read_output in H. destruct (outputs t !! id) as [row|] eqn:O; [|done]. cbn [ok_or] in H.
  destruct (configuration _ _ _ _ _ _) as [[value tag]|] eqn:V; [|done].
  destruct (String.eqb_spec (a_condition a) tag) as [E|]; [|done]. cbn [negb] in H.
  match type of H with (if ?b then _ else _) = _ => destruct b eqn:W; [done|] end. dk_bool.
  match type of H with (if ?b then _ else _) = _ => destruct b; [done|] end.
  destruct (policy_allows k); [|done]. destruct (same_file k); [|done].
  destruct (insert_operation _ _ _ _) as [tx1|] eqn:E1; [|done].
  destruct (insert_output _ _ _ _) as [tx2|] eqn:E2; [|done].
  destruct (update_control _ _ _ _) as [tx3|] eqn:E3; [|done].
  exists id, row, value, tx1, tx2, tx3. subst tag. by repeat (split; [done|]).
Qed.

Lemma accept_new_kept (x : Around) (k : Context_) (a : Acceptance) (c : Control) (t t' : Tables) :
  released x = false -> expects a -> sound t -> control t = Some c -> accept_new digest x k a c t = Ok t' ->
  kept none t t' /\ operations t !! a_operation a = None.
Proof.
  intros R X B C (id & row & value & tx1 & tx2 & tx3 & P & _ & _ & _ & _ & E1 & E2 & E3 & H)%accept_new_ok.
  destruct (insert_operation_frame _ _ _ _ _ E1) as [F1 _]. destruct (insert_operation_ok _ _ _ _ _ E1) as (L & _).
  split; [|exact L]. eapply commit_kept; [done|done| | |eassumption]; [|eapply settled_idle; eauto].
  eapply stage_update_control; [exact E3|]. eapply stage_insert_output; [exact E2| |].
  - cbn. unfold expects in X. rewrite X, F1. intros j p [= <-]. rewrite lookup_insert_eq. by intros [= <-].
  - eapply stage_insert_operation; [exact E1|done|auto].
Qed.

Lemma accept_kept (x : Around) (k : Context_) (a : Acceptance) (b : bool) (t t' : Tables) :
  released x = false -> expects a -> sound t -> accept digest x k a t = Ok (b, t') -> kept none t t'.
Proof.
  unfold accept. intros R X B H. destruct (read_control t) as [c|] eqn:C; [|done]. apply read_control_ok in C.
  destruct (operations t !! a_operation a).
  - destruct (_ || _); [done|]. injection H as _ <-. by split.
  - destruct (accept_new _ _ _ _ _ _) as [t1|] eqn:E; [|done]. injection H as _ <-. by eapply accept_new_kept.
Qed.

End Digest.

Lemma retire_kept (x : Around) (i previous : Uuid) (t t' : Tables) :
  released x = false -> sound t -> retire x i previous t = Ok t' -> kept none t t'.
Proof.
  unfold retire. intros R B H. destruct (read_control t) as [c|] eqn:C; [|done]. apply read_control_ok in C.
  destruct (negb _); [done|]. destruct (update_operation _ _ _ _ _) as [tx1|] eqn:E1; [|done].
  destruct (update_output _ _ _ _ _) as [[tx2 b]|] eqn:E2; [|done].
  destruct (update_operation_frame _ _ _ _ _ _ E1) as (F1 & _).
  destruct (update_output_frame _ _ _ _ _ _ _ E2) as (F2 & _).
  eapply commit_kept; [done|done| | |eassumption]; [|apply settled_same; cbn in F1; congruence].
  eapply stage_update_output; [exact E2|by right|]. eapply stage_update_operation; eauto.
Qed.

Lemma prepare_kept (x : Around) (i : Uuid) (t t' : Tables) :
  released x = false -> sound t -> prepare x i t = Ok t' -> kept none t t'.
Proof.
  unfold prepare. intros R B H. destruct (update_operation _ _ _ _ _) as [tx1|] eqn:E1; [|done].
  destruct (update_operation_frame _ _ _ _ _ _ E1) as (F1 & _).
  eapply commit_kept; [done|done| | |eassumption]; [|apply settled_same; cbn in F1; congruence]. eapply stage_update_operation; eauto.
Qed.

(** The state of an operation, as long as it is pending *)
Definition at_state (st : OperationState) (i : Uuid) (t : Tables) : Prop :=
  forall c, control t = Some c -> pending_operation c = Some i ->
  exists p, operations t !! i = Some p /\ p_state p = st.

Lemma fail_kept (x : Around) (i previous : Uuid) (reason : string) (t t' : Tables) :
  released x = false -> sound t -> at_state P_preparing i t -> fail x i previous reason t = Ok t' -> kept none t t'.
Proof.
  unfold fail. intros R B A H. destruct (read_control t) as [c|] eqn:C; [|done]. apply read_control_ok in C.
  destruct (bool_decide (pending_operation c = Some i)) eqn:P; [|done]. apply bool_decide_eq_true in P.
  destruct (A c C P) as (p & L & Q). cbn [negb] in H.
  destruct (update_operation _ _ _ _ _) as [tx1|] eqn:E1; [|done].
  destruct (read_output _ _) as [prior|]; [|done].
  destruct (update_control _ _ _ _) as [tx2|] eqn:E2; [|done].
  eapply commit_kept; [done|done| | |eassumption].
  - eapply stage_update_control; [exact E2|]. eapply stage_update_operation; eauto.
  - eapply settled_touched; eauto. apply (update_control_frame _ _ _ _ _ E2).
    eapply update_operation_touched; [exact E1|exact L|]. unfold in_state. by rewrite Q.
Qed.

Lemma unavailable_kept (x : Around) (i : Uuid) (b : bool) (t t' : Tables) :
  released x = false -> sound t -> unavailable x i t = Ok (b, t') -> kept none t t'.
Proof.
  unfold unavailable. intros R B H. destruct (read_control t) as [c|] eqn:C; [|done]. apply read_control_ok in C.
  destruct (pending_operation c) eqn:P; cbn [is_some_b] in H; [by injection H as _ <-|].
  destruct (negb _); [done|]. destruct (update_control _ _ _ _) as [tx1|] eqn:E1; [|done].
  destruct (commit x tx1) as [t1|] eqn:E2; [|done]. injection H as _ <-.
  eapply commit_kept; [done|done| | |eassumption]; [|eapply settled_idle; eauto]. eapply stage_update_control; eauto.
Qed.

Lemma complete_output_kept (x : Around) (o : Output) (failure : option string) (t t' : Tables) :
  released x = false -> sound t -> complete_output x o failure t = Ok t' -> kept (only (out_id o)) t t'.
Proof.
  unfold complete_output. intros R B H. destruct (update_output _ _ _ _ _) as [[tx1 b]|] eqn:E1; [|done].
  destruct (update_output_frame _ _ _ _ _ _ _ E1) as (F1 & _).
  assert (S1 : stage (only (out_id o)) t tx1) by (eapply stage_update_output; [exact E1|by left|auto]).
  match type of H with match ?m with _ => _ end = _ => destruct m as [tx2|] eqn:E2; [|done] end.
  destruct (out_operation o) as [i|]; [|injection E2 as <-; eapply commit_kept; [done|done|exact S1| |exact H]; by apply settled_same].
  destruct (update_operation_frame _ _ _ _ _ _ E2) as (F2 & _).
  eapply commit_kept; [done|done| | |eassumption]; [|apply settled_same; cbn in F1; congruence]. eapply stage_update_operation; eauto.
Qed.

Lemma uncertain_output_kept (x : Around) (o : Output) (t t' : Tables) :
  released x = false -> sound t -> uncertain_output x o t = Ok t' -> kept none t t'.
Proof.
  unfold uncertain_output. intros R B H. destruct (update_output _ _ _ _ _) as [[tx1 b]|] eqn:E1; [|done].
  destruct (update_output_frame _ _ _ _ _ _ _ E1) as (F1 & _).
  eapply commit_kept; [done|done| | |eassumption]; [|by apply settled_same]. eapply stage_update_output; [exact E1|by right|auto].
Qed.

Lemma report_kept (x : Around) (active open_session : bool) (k : Checkpoint) (t t' : Tables) :
  released x = false -> sound t -> report x active open_session k t = Ok t' -> kept none t t'.
Proof.
  unfold report. intros R B H. destruct (read_control t) as [c|] eqn:C; [|done]. apply read_control_ok in C.
  destruct (_ || _) eqn:E; [done|]. dk_bool. destruct (repeated k c); [by injection H as <-|].
  destruct (_ <=? _); [done|]. destruct (ok_or (r_history _) _); [|done]. destruct (ok_or (outputs t !! _) _); [|done].
  destruct (negb _); [done|]. destruct (negb _); [done|].
  destruct (update_control _ _ _ _) as [tx1|] eqn:E1; [|done].
  eapply commit_kept; [done|done| | |eassumption].
  - eapply stage_update_control; eauto.
  - eapply settled_idle; eauto. left. by destruct (pending_operation c).
Qed.

(** *** The end of a viewer: nothing refuses it *)

Lemma over_ok {A} (f : A -> Tx -> result Tx AdmissionError) (I : Tx -> Prop) (D : A -> Tx -> Prop) (l : list A) (tx : Tx) :
  (forall a tx, I tx -> exists tx', f a tx = Ok tx' /\ I tx' /\ D a tx' /\ forall b, D b tx -> D b tx') ->
  I tx -> exists tx', over f l tx = Ok tx' /\ I tx' /\ (forall a, a ∈ l -> D a tx') /\ forall b, D b tx -> D b tx'.
Proof.
  intros H. revert tx. induction l as [|a l IH]; intros tx Q; cbn.
  { exists tx. repeat split; auto. by intros a ?%elem_of_nil. }
  destruct (H a tx Q) as (tx1 & -> & Q1 & D1 & K1). destruct (IH tx1 Q1) as (tx2 & -> & Q2 & D2 & K2).
  exists tx2. repeat split; auto. intros b [->|B]%elem_of_cons; auto.
Qed.

Lemma completion_accepted (n : Z) (i : Uuid) (failure : option string) (o : OutputRow) :
  output_valid i o = true ->
  output_regresses o (set_complete failure o) = false /\
  output_valid i (output_times n o (set_complete failure o)) = true.
Proof.
  unfold output_valid, output_regresses, output_times, set_complete, is_direct.
  destruct o as [op gen src pol mode enc k4 conf st res fai pub com unc at_]. cbn [o_operation o_generation o_source
    o_policy o_mode o_encodes o_4k o_configuration o_state o_result o_failure published_at resources_completed
    cleanup_uncertain completed_at].
  rewrite !andb_true_iff. intros ((((((A & B) & C) & D) & E) & F) & G).
  rewrite (bool_decide_eq_true_2 (_ = (op, _, _, _, _, _, _, _))) by done.
  destruct com, at_; try done; destruct st; try done; destruct res, pub; try done; destruct fai, unc.
  all: cbn [negb option_or is_some_b andb orb]; rewrite ?A, ?G, ?(bool_decide_eq_true_2 (_ = _)) by done; try done.
Qed.

Lemma cancellation_accepted (n : Z) (i : Uuid) (p p' : OperationRow) :
  operation_valid i p = true -> p' = set_cleanup n p \/ p' = cancelled_operation n p ->
  operation_regresses p p' = false /\ operation_valid i (operation_times n p p') = true.
Proof.
  unfold operation_valid, operation_regresses, operation_times, cancelled_operation, set_operation, set_cleanup.
  destruct p as [h c a e d ev st res cr te cl pr]. cbn [p_hash p_condition p_action expected_output candidate_output
    p_evidence p_state p_result created_at terminal_at cleanup_at prune_after].
  rewrite !andb_true_iff. intros ((((A & B) & C) & D) & E) [-> | ->].
  all: destruct te; cbn [is_some_b p_hash p_condition p_action expected_output candidate_output
    p_evidence p_state p_result created_at terminal_at cleanup_at prune_after option_or].
  all: rewrite (bool_decide_eq_true_2 (_ = (h, _, _, _, _, _, _))) by done.
  all: destruct cl, st; try done; cbn [negb option_or is_some_b is_terminal andb orb]; rewrite ?A, ?B, ?C.
  all: rewrite ?(bool_decide_eq_true_2 (_ = _)) by done; try done.
Qed.

Record ended (t : Tables) : Prop := {
  en_outputs : forall i o, outputs t !! i = Some o -> resources_completed o = true;
  en_operations : forall i p, operations t !! i = Some p -> terminal_at p <> None /\ cleanup_at p <> None;
  en_control : forall c, control t = Some c ->
    c_state c = C_retiring /\ claim_encodes c = false /\ pending_operation c = None }.

(** An update that no trigger refuses *)
Lemma update_output_accepted (x : Around) (i : Uuid) (w : OutputRow -> bool) (f : OutputRow -> OutputRow) (tx : Tx) :
  (forall o, outputs (tables tx) !! i = Some o -> w o = true ->
    output_regresses o (f o) = false /\ output_valid i (output_times (now x) o (f o)) = true) ->
  exists tx' b, update_output x i w f tx = Ok (tx', b).
Proof.
  intros H. unfold update_output. destruct (outputs (tables tx) !! i) as [o|]; [|by eexists _, _].
  destruct (w o) eqn:W; [|by eexists _, _]. destruct (H o eq_refl W) as [H1 H2]. cbn zeta. rewrite H1, H2. by eexists _, _.
Qed.

Lemma update_operation_accepted (x : Around) (i : Uuid) (w : OperationRow -> bool) (f : OperationRow -> OperationRow) (tx : Tx) :
  (forall p, operations (tables tx) !! i = Some p -> w p = true ->
    operation_regresses p (f p) = false /\ operation_valid i (operation_times (now x) p (f p)) = true /\
    output_open (tables tx) i = false) ->
  exists tx', update_operation x i w f tx = Ok tx'.
Proof.
  intros H. unfold update_operation. destruct (operations (tables tx) !! i) as [p|]; [|by eexists].
  destruct (w p) eqn:W; [|by eexists]. destruct (H p eq_refl W) as (H1 & H2 & H3). cbn zeta. rewrite H1, H2, H3.
  rewrite andb_false_r. by eexists.
Qed.

Section Ending.
Context (x : Around) (t : Tables).
Hypothesis B : sound t.

(** Every output is completed. *)
Definition closing (tx : Tx) : Prop :=
  stage all t tx /\ control (tables tx) = control t /\ operations (tables tx) = operations t /\
  root (tables tx) = root t /\ dom (outputs (tables tx)) = dom (outputs t).

Definition closed (i : Uuid) (tx : Tx) : Prop :=
  forall o, outputs (tables tx) !! i = Some o -> resources_completed o = true.

Lemma close_step (i : Uuid) (tx : Tx) : closing tx ->
  exists tx', (let? (tx', _) := update_output x i unfinished (set_complete None) tx in Ok tx') = Ok tx' /\
    closing tx' /\ closed i tx' /\ forall j, closed j tx -> closed j tx'.
Proof.
  intros (S & C & P & R & D).
  destruct (update_output_accepted x i unfinished (set_complete None) tx) as (tx' & b & E).
  { intros o L _. by apply completion_accepted, (rv_output _ (st_rows _ _ _ S)). }
  exists tx'. rewrite E. split; [done|]. destruct (update_output_frame _ _ _ _ _ _ _ E) as (F1 & F2 & F3 & _).
  assert (S' : stage all t tx') by (by eapply stage_update_output; [exact E|left|]).
  destruct (update_output_ok _ _ _ _ _ _ _ E) as [(_ & -> & W)|(o & L & _ & _ & K & _ & ->)].
  - split; [done|]. split; [|done]. intros o L. specialize (W o L). unfold unfinished in W. by apply negb_false_iff.
  - split; [|split].
    + split; [done|]. repeat (split; [congruence|]). cbn. rewrite dom_insert_L, <- D.
      apply subseteq_union_1_L, singleton_subseteq_l, elem_of_dom. by eexists.
    + intros o'. cbn. rewrite lookup_insert_eq. by intros [= <-].
    + intros j J o'. cbn. intros [[<- <-]|[_ M]]%lookup_insert_Some; [done|by eapply J].
Qed.

(** Every operation is at its end. *)
Definition cancelling (tx : Tx) : Prop :=
  stage all t tx /\ control (tables tx) = control t /\ dom (outputs (tables tx)) = dom (outputs t) /\
  (forall i, closed i tx) /\
  forall i p', operations (tables tx) !! i = Some p' -> exists p, operations t !! i = Some p /\
    (p_state p' = P_completed -> p_state p = P_completed /\ p_result p' = p_result p).

Definition cancelled (i : Uuid) (tx : Tx) : Prop :=
  (is_Some (operations t !! i) -> T_operation i ∈ touched tx) /\
  forall p, operations (tables tx) !! i = Some p -> terminal_at p <> None /\ cleanup_at p <> None.

Lemma cancelled_ends (n : Z) (p : OperationRow) :
  let p' := operation_times n p (cancelled_operation n p) in terminal_at p' <> None /\ cleanup_at p' <> None.
Proof.
  unfold operation_times, cancelled_operation, set_cleanup, set_operation. cbn.
  destruct (terminal_at p) eqn:E, (cleanup_at p) eqn:F; cbn; rewrite ?andb_false_r, ?E, ?F; cbn; try done.
Qed.

Lemma cancelled_completed (n : Z) (i : Uuid) (p : OperationRow) :
  operation_valid i p = true -> let p' := operation_times n p (cancelled_operation n p) in
  p_state p' = P_completed -> p_state p = P_completed /\ p_result p' = p_result p.
Proof.
  unfold operation_times, cancelled_operation, set_cleanup, set_operation. cbn. by destruct (terminal_at p).
Qed.

Lemma cancel_step (i : Uuid) (tx : Tx) : cancelling tx ->
  exists tx', update_operation x i any (cancelled_operation (now x)) tx = Ok tx' /\
    cancelling tx' /\ cancelled i tx' /\ forall j, cancelled j tx -> cancelled j tx'.
Proof.
  intros (S & C & R & D & J).
  destruct (update_operation_accepted x i any (cancelled_operation (now x)) tx) as (tx' & E).
  { intros p L _. destruct (cancellation_accepted (now x) i p (cancelled_operation (now x) p)) as [H1 H2];
      [by apply (rv_operation _ (st_rows _ _ _ S))|by right|].
    split; [done|]. split; [done|]. apply output_open_false. intros j o O _. by eapply D. }
  exists tx'. split; [done|]. destruct (update_operation_frame _ _ _ _ _ _ E) as (F1 & F2 & F3 & _).
  assert (S' : stage all t tx') by (eapply stage_update_operation; eauto).
  destruct (update_operation_ok _ _ _ _ _ _ E) as [[-> W]|(p & L & _ & _ & _ & _ & ->)].
  - split; [done|]. split; [|done]. split.
    + intros [p L]. destruct (st_operations _ _ _ S i p L) as (p' & L' & _). by discriminate (W p' L').
    + intros p L. by discriminate (W p L).
  - split; [|split].
    + split; [done|]. split; [congruence|]. split; [congruence|]. split; [exact D|]. cbn.
      intros j p' [[<- <-]|[_ M]]%lookup_insert_Some; [|by apply J].
      destruct (J i p L) as (p0 & L0 & K). exists p0. split; [done|]. intros Q.
      destruct (cancelled_completed (now x) i p (rv_operation _ (st_rows _ _ _ S) i p L) Q) as [Q1 Q2].
      destruct (K Q1) as [K1 K2]. split; [done|]. congruence.
    + split; [intros _; apply list_elem_of_here|]. cbn. intros p'. rewrite lookup_insert_eq. intros [= <-].
      apply cancelled_ends.
    + intros j [J1 J2]. split; [intros Q; by apply list_elem_of_further, J1|]. cbn.
      intros p' [[<- <-]|[_ M]]%lookup_insert_Some; [apply cancelled_ends|by apply J2].
Qed.

Lemma retirement_accepted (v : Control) (tx : Tx) :
  cancelling tx -> control t = Some v ->
  update_control x false retired_control tx = Ok (put_control (bumped v (retired_control v)) tx).
Proof.
  intros (S & C & _ & D & _) V. unfold update_control. rewrite C, V.
  assert (G : control_guard x false (tables tx) v (retired_control v) = Ok (bumped v (retired_control v))).
  { unfold control_guard.
    assert (regresses false v (retired_control v) = false) as ->.
    { unfold regresses, budget_shrinks. cbn. rewrite !Z.ltb_irrefl, Z.eqb_refl, !andb_negb_r.
      rewrite (bool_decide_eq_true_2 (C_retiring = C_retiring)) by done. cbn. by rewrite orb_true_r, !andb_false_r. }
    assert (control_attributed (tables tx) (retired_control v) = false) as ->.
    { destruct (so_control _ B v V) as ((i & I & o & O) & _).
      destruct (st_outputs _ _ _ S i o O) as (o' & O' & _).
      assert (encoding_open (tables tx) = false) as E.
      { apply encoding_open_false. intros j r L _. by eapply D. }
      unfold control_attributed. cbn. rewrite I, E. cbn. rewrite O'. cbn.
      by rewrite !(bool_decide_eq_true_2 (C_retiring = C_retiring)) by done. }
    assert (stale (tables tx) v (retired_control v) = false) as ->.
    { unfold stale, checkpoint_moves. cbn. rewrite Z.eqb_refl, !bool_decide_eq_true_2 by done. done. }
    cbn [refuse]. unfold bumped. destruct (same_configuration _ _); done. }
  rewrite G. cbn iota.
  assert (control_valid (bumped v (retired_control v)) = true) as ->; [|done].
  pose proof (rv_control _ (so_rows _ B) v V) as K. unfold control_valid in *.
  rewrite !andb_true_iff in K. destruct K as ((((((((((K1 & K2) & K3) & K4) & K5) & K6) & K7) & K8) & K9) & _) & _).
  apply Z.ltb_lt in K1.
  unfold bumped. destruct (same_configuration _ _); cbn; rewrite K2, K3, K4, K5, K6, K7, K8, K9; cbn;
    rewrite (bool_decide_eq_true_2 (C_retiring = C_retiring)) by done; rewrite ?andb_true_r; apply Z.ltb_lt; lia.
Qed.

Lemma ending_graph (v c : Control) (tx : Tx) (u : Touch) :
  cancelling tx -> (forall i, cancelled i tx) -> control t = Some v -> control (tables tx) = control t ->
  pending_operation c = None -> current_output c = current_output v -> released x = false ->
  graph_broken x (tables (put_control c tx)) u = false.
Proof.
  intros (S & _ & R & D & J) K V C P I Q. set (t' := tables (put_control c tx)).
  assert (C' : control t' = Some c) by done. destruct u as [|i|i].
  - apply (graph_control _ _ _ Q C'). destruct (so_control _ B v V) as ((i & I' & o & O) & _).
    split; [|split].
    + exists i. split; [congruence|]. destruct (st_outputs _ _ _ S i o O) as (o' & O' & _). by exists o'.
    + congruence.
    + intros _ j o' L _. by eapply D.
  - destruct (outputs t' !! i) as [o'|] eqn:L; [|by unfold graph_broken; rewrite C', L].
    apply (graph_output _ _ _ _ _ C' L).
    assert (is_Some (outputs t !! i)) as [o O] by (apply elem_of_dom; rewrite <- R; apply elem_of_dom; by exists o').
    destruct (st_outputs _ _ _ S i o O) as (o2 & L2 & (K1 & _) & _).
    assert (o2 = o') as -> by (cbn in L; congruence).
    destruct (so_output _ B v i o V O) as (F1 & F2 & _ & F4). destruct (st_root _ _ _ S) as [Q1 Q2].
    split; [cbn; congruence|]. split; [cbn; congruence|]. split.
    + intros _ N. by rewrite (D i o' L) in N.
    + intros j M. destruct (F4 j) as (p & P' & E); [congruence|].
      destruct (st_operations _ _ _ S j p P') as (p' & P2 & [E2 _]). exists p'. split; [done|congruence].
  - destruct (operations t' !! i) as [p'|] eqn:L; [|by unfold graph_broken; rewrite C', L].
    apply (graph_operation _ _ _ _ _ C' L). destruct (J i p' L) as (p & L0 & M).
    destruct (st_operations _ _ _ S i p L0) as (p2 & L2 & (E & _)).
    assert (p2 = p') as -> by (cbn in L; congruence).
    destruct (so_operation _ B v i p V L0) as (o & O & F1 & _ & _ & F4).
    destruct (st_outputs _ _ _ S _ o O) as (o' & O' & (K1 & K2 & _) & _).
    exists o'. split; [cbn; congruence|]. split; [congruence|]. split; [|split].
    + intros N. by destruct (proj2 (K i) p' L).
    + congruence.
    + intros [M1 M2]%M. destruct (F4 M1) as [N1 N2].
      destruct (o_result o) eqn:Y; [destruct (K2 ltac:(done)) as [Z1 Z2]; split; congruence|].
      pose proof (rv_output _ (so_rows _ B) _ o O) as W. unfold output_valid in W. rewrite !andb_true_iff in W.
      destruct W as [[[[[[_ W] _] _] _] _] _]. rewrite Y in W. by destruct (published_at o).
Qed.

Lemma complete_outputs_empty : control t = None -> complete_outputs x (begin t) = Ok (begin t).
Proof.
  intros C. destruct (so_none _ B C) as [O P]. unfold complete_outputs, update_control. cbn [tables begin].
  rewrite O, map_to_list_empty. cbn. rewrite P, map_to_list_empty. cbn. by rewrite C.
Qed.

Lemma closing_accepted :
  exists tx, over (fun id tx => let? (tx, _) := update_output x id unfinished (set_complete None) tx in Ok tx)
    (map_to_list (outputs t)).*1 (begin t) = Ok tx /\ closing tx /\ forall i, closed i tx.
Proof.
  destruct (over_ok (fun id tx => let? (tx, _) := update_output x id unfinished (set_complete None) tx in Ok tx)
              closing closed (map_to_list (outputs t)).*1 (begin t)) as (tx1 & E1 & I1 & D1 & _).
  { apply close_step. } { split; [|done]. by apply stage_begin, so_rows. }
  exists tx1. split; [exact E1|]. split; [exact I1|]. intros i o L. destruct I1 as (_ & _ & _ & _ & M1).
  assert (is_Some (outputs t !! i)) as [o0 O0] by (apply elem_of_dom; rewrite <- M1; apply elem_of_dom; by exists o).
  apply (D1 i); [|done]. apply list_elem_of_fmap. exists (i, o0). split; [done|]. by apply elem_of_map_to_list.
Qed.

Lemma cancelling_accepted (tx1 : Tx) : closing tx1 -> (forall i, closed i tx1) ->
  exists tx, over (fun id tx => update_operation x id any (cancelled_operation (now x)) tx)
    (map_to_list (operations (tables tx1))).*1 tx1 = Ok tx /\ cancelling tx /\ forall i, cancelled i tx.
Proof.
  intros (S1 & C1 & P1 & R1 & M1) D1.
  destruct (over_ok (fun id tx => update_operation x id any (cancelled_operation (now x)) tx)
              cancelling cancelled (map_to_list (operations (tables tx1))).*1 tx1) as (tx2 & E2 & I2 & D2 & _).
  { apply cancel_step. }
  { split; [done|]. split; [done|]. split; [done|]. rewrite P1. split; [done|]. eauto. }
  exists tx2. split; [exact E2|]. split; [exact I2|]. intros i. destruct I2 as (_ & _ & _ & _ & J2).
  destruct (operations t !! i) as [p|] eqn:L.
  - apply D2, list_elem_of_fmap. exists (i, p). split; [done|]. apply elem_of_map_to_list. by rewrite P1.
  - split; [by rewrite L; intros [? ?]|]. intros p' L'. destruct (J2 i p' L') as (p & L0 & _). congruence.
Qed.

(** From any rows that are sound, [complete_outputs] succeeds. *)
Lemma complete_outputs_accepted (v : Control) : control t = Some v -> released x = false ->
  exists tx, complete_outputs x (begin t) = Ok tx /\ stage all t tx /\
    (forall u, graph_broken x (tables tx) u = false) /\ ended (tables tx) /\
    (forall i, is_Some (operations t !! i) -> T_operation i ∈ touched tx).
Proof.
  intros V R. destruct closing_accepted as (tx1 & E1 & I1 & D1).
  destruct (cancelling_accepted tx1 I1 D1) as (tx2 & E2 & I2 & K).
  pose proof (retirement_accepted v tx2 I2 V) as U. set (c := bumped v (retired_control v)) in U.
  assert (F : c_state c = C_retiring /\ claim_encodes c = false /\ pending_operation c = None /\
              current_output c = current_output v).
  { unfold c, bumped. by destruct (same_configuration _ _). }
  destruct F as (F1 & F2 & F3 & F4). exists (put_control c tx2).
  unfold complete_outputs. cbn [tables begin] in *. rewrite E1, E2, U. split; [done|].
  destruct (I2) as (S2 & C2 & M2 & Z2 & J2). split; [by eapply stage_update_control|]. split; [|split].
  - intros u. by eapply ending_graph.
  - split; [exact Z2|intros i p L; by apply (K i)|]. cbn. by intros ? [= <-].
  - intros i L. by apply list_elem_of_further, K.
Qed.
End Ending.

Lemma completed_root_same (r : Root) : r_source (completed_root r) = r_source r /\ r_4k (completed_root r) = r_4k r.
Proof. done. Qed.

Lemma graph_put_root (x : Around) (r : Root) (tx : Tx) (u : Touch) :
  r_source r = r_source (root (tables tx)) -> r_4k r = r_4k (root (tables tx)) ->
  graph_broken x (tables (put_root r tx)) u = graph_broken x (tables tx) u.
Proof. intros E F. unfold graph_broken. cbn. by rewrite E, F. Qed.

Lemma cleanup_accepted (x : Around) (t : Tables) :
  released x = false -> sound t ->
  exists t', cleanup x t = Ok t' /\ kept all t t' /\ ended t' /\ r_completed (root t') = true.
Proof.
  intros R B. unfold cleanup. destruct (control t) as [v|] eqn:V.
  - destruct (complete_outputs_accepted x t B v V R) as (tx & -> & S & G & E & T).
    set (tx' := put_root (completed_root (root (tables tx))) tx).
    assert (C : commit x tx' = Ok (tables tx')).
    { unfold commit. rewrite (proj2 (existsb_false _ _)); [done|]. intros u _. unfold tx'. by rewrite graph_put_root. }
    exists (tables tx'). split; [exact C|]. split; [|split; [|done]].
    + apply (commit_kept x all t _ tx' R B); [by apply stage_put_root| |exact C]. intros i p L _. left.
      apply T. by exists p.
    + destruct E as [E1 E2 E3]. by split.
  - rewrite complete_outputs_empty by done. eexists. split; [done|]. destruct (so_none _ B V) as [O P].
    split; [|split; [|done]].
    + apply (commit_kept x all t _ (put_root (completed_root (root t)) (begin t)) R B); [|by apply settled_same|done].
      apply stage_put_root; auto.
    + split; cbn; [by rewrite O|by rewrite P|by rewrite V].
Qed.

(** *** The deletion of old operations *)

Lemma same_retained (n : Z) (c : Control) : bumped c (with_retained n c) = with_retained n c.
Proof. unfold bumped, same_configuration. cbn. by rewrite !bool_decide_eq_true_2 by done. Qed.

Lemma update_retained (x : Around) (g : Z -> Z) (tx tx' : Tx) (c : Control) :
  control (tables tx) = Some c ->
  update_control x true (fun c => with_retained (g (retained_operations c)) c) tx = Ok tx' ->
  tx' = put_control (with_retained (g (retained_operations c)) c) tx /\
  control_valid (with_retained (g (retained_operations c)) c) = true.
Proof. intros C H. destruct (update_control_some _ _ _ _ _ _ C H) as (_ & V & ->). by rewrite same_retained in *. Qed.

(** What is left when the operation [i] is deleted *)
Definition without (i : Uuid) (c : Control) (t : Tables) : Tables :=
  mk_tables (root t) (Some c) (filter (fun o : Uuid * OutputRow => ~ o_operation o.2 = Some i) (outputs t))
    (delete i (operations t)).

Lemma prune_ok (x : Around) (i : Uuid) (t t' : Tables) :
  released x = false -> prune x i t = Ok t' ->
  t' = t \/ exists c, control t = Some c /\ pending_operation c <> Some i /\
    let c' := with_retained (retained_operations c - 1) c in
    t' = without i c' t /\ control_valid c' = true /\ graph_broken x t' T_control = false /\
    forall k o, outputs t !! k = Some o -> o_operation o = Some i -> resources_completed o = true.
Proof.
  unfold prune. intros R H. destruct (operations t !! i) as [p|]; [|injection H as <-; by left].
  destruct (read_control t) as [c|] eqn:C; [|done]. apply read_control_ok in C.
  destruct (_ || _) eqn:N; [injection H as <-; by left|]. dk_bool. rewrite R in H. cbn iota in H.
  destruct (delete_outputs _ _ _) as [tx1|] eqn:E1; [|done]. destruct (delete_operation _ _ _ _) as [tx2|] eqn:E2; [|done].
  right. exists c. split; [done|]. split; [by eapply bool_decide_eq_false|]. unfold delete_outputs in E1. refused. subst tx1.
  unfold delete_operation in E2. refused. apply (update_retained x (fun n => n - 1) _ _ c) in E2 as [-> V]; [|done].
  apply commit_ok in H as [-> G]. split; [done|]. split; [done|]. split; [apply G, list_elem_of_here|].
  intros k o L O. match goal with Q : existsb _ (map_to_list (outputs _)) = false |- _ =>
    rewrite map_existsb_false in Q; specialize (Q k o L); rename Q into F end.
  cbn [fst snd] in F. rewrite bool_decide_true in F by done. unfold output_kept in F. cbn [andb] in F. by dk_bool.
Qed.

Lemma prune_kept (x : Around) (i : Uuid) (t t' : Tables) :
  released x = false -> sound t -> prune x i t = Ok t' -> kept none t t'.
Proof.
  intros R B [->|(c & C & P & -> & V & G & O)]%prune_ok; [by split| |done].
  set (c' := with_retained (retained_operations c - 1) c) in *. set (t' := without i c' t) in *.
  assert (OL : forall k o, outputs t' !! k = Some o -> outputs t !! k = Some o /\ o_operation o <> Some i).
  { intros k o Q. by apply (map_lookup_filter_Some (fun o : Uuid * OutputRow => ~ o_operation o.2 = Some i)) in Q. }
  assert (PL : forall k p, operations t' !! k = Some p -> operations t !! k = Some p /\ k <> i).
  { intros k p Q. apply (lookup_delete_Some (operations t) i k p) in Q as [N L]. done. }
  split.
  - split.
    + split; [by intros ? [= <-]| | |].
      * intros k o [L _]%OL. by apply (rv_output _ (so_rows _ B)).
      * intros k p [L _]%PL. by apply (rv_operation _ (so_rows _ B)).
      * intros k p [L _]%PL N. apply output_open_false. intros j o [Q _]%OL.
        pose proof (rv_cleaned _ (so_rows _ B) k p L N) as W. rewrite output_open_false in W. by eapply W.
    + done.
    + intros v [= <-]. by apply (graph_control x).
    + intros v k o [= <-] [L N]%OL. destruct (so_output _ B c k o C L) as (F1 & F2 & F3 & F4).
      do 3 (split; [done|]). intros j J. destruct (F4 j J) as (p & Q & E). exists p. split; [|done].
      apply lookup_delete_Some. split; [congruence|done].
    + intros v k p [= <-] [L N]%PL. destruct (so_operation _ B c k p C L) as (o & Q & F1 & F2 & F3 & F4).
      exists o. split; [|done]. apply map_lookup_filter_Some. split; [done|]. cbn. congruence.
  - split.
    + intros v L. rewrite C in L. injection L as <-. exists c'. split; [done|cbn; lia].
    + intros k o L N. exists o. split; [|auto]. apply map_lookup_filter_Some. split; [done|]. cbn. intros E.
      by rewrite (O k o L E) in N.
Qed.

(** *** Revisions *)

(** *** The pending operation

    Only the transactions of a change move its operation. *)

Definition steady (i : Uuid) (t t' : Tables) : Prop := forall st, at_state st i t -> at_state st i t'.

Lemma steady_of (i : Uuid) (t t' : Tables) :
  (forall c', control t' = Some c' -> pending_operation c' = Some i ->
    (exists c, control t = Some c /\ pending_operation c = Some i) /\
    forall p, operations t !! i = Some p -> exists p', operations t' !! i = Some p' /\ p_state p' = p_state p) ->
  steady i t t'.
Proof.
  intros H st A c' C P. destruct (H c' C P) as [(c & C0 & P0) O]. destruct (A c C0 P0) as (p & L & E).
  destruct (O p L) as (p' & L' & E'). exists p'. split; [done|congruence].
Qed.

Lemma steady_same (i : Uuid) (t t' : Tables) : control t' = control t -> operations t' = operations t -> steady i t t'.
Proof. intros E F st A c C. rewrite E in C. rewrite F. by apply A. Qed.

Lemma steady_none (i : Uuid) (t t' : Tables) :
  (forall c, control t' = Some c -> pending_operation c = None) -> steady i t t'.
Proof. intros H st _ c C P. rewrite (H c C) in P. done. Qed.

Lemma bumped_pending (old new : Control) : pending_operation (bumped old new) = pending_operation new.
Proof. unfold bumped. by destruct (same_configuration old new). Qed.

Lemma report_steady (x : Around) (a o : bool) (k : Checkpoint) (t t' : Tables) (i : Uuid) :
  report x a o k t = Ok t' -> steady i t t'.
Proof.
  unfold report. intros H. destruct (read_control t) as [c|] eqn:C; [|done]. apply read_control_ok in C.
  destruct (_ || _); [done|]. destruct (repeated k c); [injection H as <-; by apply steady_same|].
  destruct (_ <=? _); [done|]. destruct (ok_or (r_history _) _); [|done]. destruct (ok_or (outputs t !! _) _); [|done].
  destruct (negb _); [done|]. destruct (negb _); [done|].
  destruct (update_control _ _ _ _) as [tx1|] eqn:E1; [|done].
  apply (update_control_some _ _ _ _ _ c) in E1 as (_ & _ & ->); [|done]. apply commit_ok in H as [-> _].
  apply steady_of. cbn. intros c' [= <-]. rewrite bumped_pending. cbn. intros P. split; eauto.
Qed.

Lemma unavailable_steady (x : Around) (id : Uuid) (b : bool) (t t' : Tables) (i : Uuid) :
  unavailable x id t = Ok (b, t') -> steady i t t'.
Proof.
  unfold unavailable. intros H. destruct (read_control t) as [c|] eqn:C; [|done]. apply read_control_ok in C.
  destruct (pending_operation c) eqn:P; cbn [is_some_b] in H; [injection H as _ <-; by apply steady_same|].
  destruct (negb _); [done|]. destruct (update_control _ _ _ _) as [tx1|] eqn:E1; [|done].
  destruct (commit x tx1) as [t1|] eqn:E2; [|done]. injection H as _ <-.
  apply (update_control_some _ _ _ _ _ c) in E1 as (_ & _ & ->); [|done]. apply commit_ok in E2 as [-> _].
  apply steady_none. cbn. intros c' [= <-]. by rewrite bumped_pending.
Qed.

Lemma prune_keeps_steady (x : Around) (id : Uuid) (t t' : Tables) (i : Uuid) :
  released x = false -> prune x id t = Ok t' -> steady i t t'.
Proof.
  intros R [->|(c & C & P & -> & _)]%prune_ok; [by apply steady_same| |done].
  apply steady_of. cbn. intros c' [= <-]. cbn. intros Q. split; [eauto|]. intros p L. exists p.
  rewrite lookup_delete_ne by congruence. done.
Qed.

Lemma uncertain_output_steady (x : Around) (o : Output) (t t' : Tables) (i : Uuid) :
  uncertain_output x o t = Ok t' -> steady i t t'.
Proof.
  unfold uncertain_output. intros H. destruct (update_output _ _ _ _ _) as [[tx1 b]|] eqn:E1; [|done].
  destruct (update_output_frame _ _ _ _ _ _ _ E1) as (F1 & F2 & _). apply commit_ok in H as [-> _].
  by apply steady_same; [rewrite F1|rewrite F2].
Qed.

Lemma complete_output_steady (x : Around) (o : Output) (failure : option string) (t t' : Tables) (i : Uuid) :
  complete_output x o failure t = Ok t' -> steady i t t'.
Proof.
  unfold complete_output. intros H. destruct (update_output _ _ _ _ _) as [[tx1 b]|] eqn:E1; [|done].
  destruct (update_output_frame _ _ _ _ _ _ _ E1) as (F1 & F2 & _). cbn in F1, F2.
  match type of H with match ?m with _ => _ end = _ => destruct m as [tx2|] eqn:E2; [|done] end.
  apply commit_ok in H as [-> _]. destruct (out_operation o) as [j|]; [|injection E2 as <-; by apply steady_same].
  destruct (update_operation_ok _ _ _ _ _ _ E2) as [[-> _]|(p & L & _ & _ & _ & _ & ->)]; [by apply steady_same|].
  apply steady_of. cbn. rewrite F1. intros c' C P. split; [eauto|]. intros p' L'. rewrite F2 in L |- *.
  destruct (decide (i = j)) as [->|N]; [|rewrite lookup_insert_ne by done; eauto].
  rewrite lookup_insert_eq. eexists. split; [done|]. cbn. congruence.
Qed.

Lemma cleanup_ended (x : Around) (t t' : Tables) :
  released x = false -> sound t -> cleanup x t = Ok t' -> kept all t t' /\ ended t' /\ r_completed (root t') = true.
Proof.
  intros R B H. destruct (cleanup_accepted x t R B) as (t2 & H2 & A & E & F). by assert (t2 = t') as <- by congruence.
Qed.

Lemma cleanup_steady (x : Around) (t t' : Tables) (i : Uuid) :
  released x = false -> sound t -> cleanup x t = Ok t' -> steady i t t'.
Proof.
  intros R B H. destruct (cleanup_ended x t t' R B H) as (_ & [_ _ E] & _). apply steady_none. intros c C. by apply E.
Qed.

Lemma publish_done (x : Around) (f : Found) (o : Output) (t t' : Tables) :
  publish x f o t = Ok t' -> forall c, control t' = Some c -> pending_operation c = None.
Proof.
  unfold publish. intros H. destruct (read_control t) as [c|] eqn:C; [|done]. apply read_control_ok in C.
  destruct (_ || _); [done|]. destruct (publishable _ _ _ _ _) as [[]|] eqn:P; [|done].
  match type of H with match ?m with _ => _ end = _ => destruct m as [h|]; [|done] end.
  destruct (negb (session_updated f)); [done|]. unfold publish_rest in H.
  destruct (update_output _ _ _ _ _) as [[tx1 b]|] eqn:E1; [|done]. destruct b; cbn [negb] in H; [|done].
  match type of H with match ?m with _ => _ end = _ => destruct m as [tx2|] eqn:E2; [|done] end.
  destruct (update_control _ _ _ _) as [tx3|] eqn:E3; [|done]. apply commit_ok in H as [-> _].
  destruct (control (tables tx2)) as [c2|] eqn:C2.
  - destruct (update_control_some _ _ _ _ _ c2 C2 E3) as (_ & _ & E4). subst tx3. cbn. intros c' [= <-].
    by rewrite bumped_pending.
  - unfold update_control in E3. rewrite C2 in E3. injection E3 as <-. congruence.
Qed.

Lemma setup_control (x : Around) (o : Output) (t t' : Tables) :
  setup x o t = Ok t' -> (forall c, control t' = Some c -> pending_operation c = None) /\
  exists r, outputs t' !! out_id o = Some r /\ resources_completed r = false /\ o_encodes r = Admission.encodes (out_binding o).
Proof.
  unfold setup. intros H. destruct (insert_output _ _ _ _) as [tx1|] eqn:E1; [|done].
  destruct (insert_control _ _ _ _) as [tx2|] eqn:E2; [|done]. apply commit_ok in H as [-> _].
  apply insert_output_frame in E1 as [-> _]. unfold insert_control in E2. refused.
  destruct (if Admission.encodes (out_binding o) then encoder_free x else Ok tt); [|done]. refused. subst tx2.
  split; [by intros c [= <-]|]. eexists. cbn. by rewrite lookup_insert_eq.
Qed.

(** The transactions of a change move it on. *)
Lemma retire_state (x : Around) (i previous : Uuid) (t t' : Tables) :
  at_state P_accepted i t -> retire x i previous t = Ok t' -> at_state P_retiring i t'.
Proof.
  unfold retire. intros A H. destruct (read_control t) as [c|] eqn:C; [|done]. apply read_control_ok in C.
  destruct (bool_decide (pending_operation c = Some i)) eqn:P; [|done]. apply bool_decide_eq_true in P. cbn [negb] in H.
  destruct (A c C P) as (p & L & E). destruct (update_operation _ _ _ _ _) as [tx1|] eqn:E1; [|done].
  destruct (update_output _ _ _ _ _) as [[tx2 b]|] eqn:E2; [|done].
  destruct (update_output_frame _ _ _ _ _ _ _ E2) as (_ & F2 & _). apply commit_ok in H as [-> _].
  destruct (update_operation_touched _ _ _ _ _ _ p E1 L) as [_ T]; [unfold in_state; by rewrite E|].
  intros c' _ _. rewrite F2, T. by eexists.
Qed.

Lemma prepare_state (x : Around) (i : Uuid) (t t' : Tables) :
  at_state P_retiring i t -> prepare x i t = Ok t' -> at_state P_preparing i t'.
Proof.
  unfold prepare. intros A H. destruct (update_operation _ _ _ _ _) as [tx1|] eqn:E1; [|done].
  destruct (update_operation_frame _ _ _ _ _ _ E1) as (F1 & _). apply commit_ok in H as [-> _].
  intros c' C P. cbn in F1. rewrite F1 in C. destruct (A c' C P) as (p & L & E).
  destruct (update_operation_touched _ _ _ _ _ _ p E1 L) as [_ T]; [unfold in_state; by rewrite E|].
  rewrite T. by eexists.
Qed.

Section Accept.
Context (digest : ConfigurationResponse -> result string unit).

(** A change that is accepted is a new revision, made against the one its tag
    describes. *)
Lemma accept_new_control (x : Around) (k : Context_) (a : Acceptance) (c : Control) (t t' : Tables) :
  control t = Some c -> accept_new digest x k a c t = Ok t' ->
  control t' = Some (with_revision (revision c + 1) (accepted_control a (with_retained (retained_operations c + 1) c))) /\
  operations t' = <[a_operation a := new_operation (now x) (a_hash a) (a_condition a) (a_action a) (a_expected a)
                                       (out_id (a_target a)) (a_evidence a)]> (operations t) /\
  outputs t' = <[out_id (a_target a) := new_row (out_operation (a_target a)) (out_generation (a_target a))
                                        (out_binding (a_target a)) (out_configuration (a_target a))]> (outputs t) /\
  outputs t !! out_id (a_target a) = None /\ operations t !! a_operation a = None.
Proof.
  intros C (id & row & value & tx1 & tx2 & tx3 & P & _ & _ & _ & W & E1 & E2 & E3 & H)%accept_new_ok.
  destruct (insert_operation_ok _ _ _ _ _ E1) as (L & _ & _ & U).
  apply (update_retained x (fun n => n + 1) _ _ c) in U as [-> _]; [|done].
  apply insert_output_frame in E2 as [-> N].
  apply (update_control_some _ _ _ _ _ (with_retained (retained_operations c + 1) c)) in E3 as (_ & _ & ->); [|done].
  apply commit_ok in H as [-> _]. cbn. split; [|done]. f_equal. unfold bumped, same_configuration. cbn.
  rewrite (bool_decide_eq_false_2 (C_changing = c_state c)); [done|]. intros Q. rewrite <- Q in W. by vm_compute in W.
Qed.

Lemma accept_true (x : Around) (k : Context_) (a : Acceptance) (t t' : Tables) :
  accept digest x k a t = Ok (true, t') ->
  exists c, control t = Some c /\ accept_new digest x k a c t = Ok t'.
Proof.
  unfold accept. intros H. destruct (read_control t) as [c|] eqn:C; [|done]. apply read_control_ok in C.
  exists c. split; [done|]. destruct (operations t !! a_operation a); [by destruct (_ || _)|].
  destruct (accept_new _ _ _ _ _ _); [|done]. congruence.
Qed.
End Accept.

End RevisionsProofs.
