(* ===== verification/Viewers.v ===== *)
(** * Viewers that are reconfigured

    domains/playback/commands/{ownership,output,publication,execution}.rs and
    control/service.rs ([execute], [change_owned]) for one viewer: its objects
    (the slot, its outputs and their processes), the task that runs it, the requests
    that change it, report checkpoints or read an output, and its rows (Revisions),
    as one step relation.  Between two awaits a task runs alone here, unless it
    touches only its own objects.

    The group of the viewer and of each output are those of VodOwner: they are
    active until they are retired; [drain] waits for the tasks they track.  What the
    transcode manager does with the process of an output is an outcome of its calls:
    [start_session_bound] may start it, [stop_session] has ended it when it succeeds
    (Workers).  The locks are not poisoned. *)

From stdpp Require Import gmap relations.
From S2P Require Import Prelude Ladder Transcode Recovery Admission Revisions.

Module Viewers.
Import Revisions.

(** ** State *)

Record Work := mk_work { w_operation : Uuid; w_previous : Uuid; w_target : Uuid }.

(** An [Output]: [o_shown]: it has been published; [o_running]: its process runs;
    [o_readers]: the tasks its group tracks. *)
Record Object := mk_object {
  output_ : Output; o_published : bool; o_shown : bool; o_active : bool; o_cleaned : bool; o_running : bool;
  o_readers : nat }.

(** Output.clean: the two branches of the join, with their results, and the transaction *)
Inductive Clean := Joining (process : option bool) (readers : option bool) | Recording | Completing.
(** What goes on after it *)
Inductive After := A_prepare (w : Work) | A_failed (w : Work) | A_lost | A_end (rest : list Uuid).
(** Output.prepare_output, for the first output or for that of a change *)
Inductive For := First (i : Uuid) | Change_ (w : Work).
Inductive Stage := G_check | G_start | G_identity | G_publish | G_promote.

(** Viewer.run *)
Inductive Task :=
| Setting_up | Preparing (k : For) (g : Stage) | Failing_first | Looping | Waiting
| Retiring (w : Work) | Cleaning (i : Uuid) (a : After) (c : Clean) | Prepared (w : Work) | Failing (w : Work)
| Finishing (r : result unit AdmissionError) | Losing
| Draining | Ending (rest : list Uuid) | Completing_all | Noting | Resting | Returned | Dead.

(** A request that changes the viewer: it holds the [ChangeGuard]; it is tracked by
    the group, with the output it found; its operation is accepted. *)
Inductive Change := Begun | Inspected (previous : Uuid) | Accepted (w : Work).

Record State := mk_state {
  db : Tables; objects : gmap Uuid Object; current : Uuid; slot : gset Uuid; busy : bool; queued : option Work;
  changes : list Change; reports : nat; active : bool; group_failed : bool; cancelled : bool; uncertain : bool;
  task : Task }.

(** Updates of single fields *)
Definition with_db (d : Tables) (s : State) : State :=
  mk_state d (objects s) (current s) (slot s) (busy s) (queued s) (changes s) (reports s) (active s) (group_failed s)
    (cancelled s) (uncertain s) (task s).
Definition with_objects (m : gmap Uuid Object) (s : State) : State :=
  mk_state (db s) m (current s) (slot s) (busy s) (queued s) (changes s) (reports s) (active s) (group_failed s)
    (cancelled s) (uncertain s) (task s).
Definition with_slot (c : Uuid) (o : gset Uuid) (b : bool) (q : option Work) (s : State) : State :=
  mk_state (db s) (objects s) c o b q (changes s) (reports s) (active s) (group_failed s) (cancelled s) (uncertain s)
    (task s).
Definition with_changes (l : list Change) (s : State) : State :=
  mk_state (db s) (objects s) (current s) (slot s) (busy s) (queued s) l (reports s) (active s) (group_failed s)
    (cancelled s) (uncertain s) (task s).
Definition with_reports (n : nat) (s : State) : State :=
  mk_state (db s) (objects s) (current s) (slot s) (busy s) (queued s) (changes s) n (active s) (group_failed s)
    (cancelled s) (uncertain s) (task s).
Definition with_group (a f : bool) (s : State) : State :=
  mk_state (db s) (objects s) (current s) (slot s) (busy s) (queued s) (changes s) (reports s) a f
    (cancelled s) (uncertain s) (task s).
Definition with_flags (c u : bool) (s : State) : State :=
  mk_state (db s) (objects s) (current s) (slot s) (busy s) (queued s) (changes s) (reports s) (active s) (group_failed s)
    c u (task s).
Definition with_task (t : Task) (s : State) : State :=
  mk_state (db s) (objects s) (current s) (slot s) (busy s) (queued s) (changes s) (reports s) (active s) (group_failed s)
    (cancelled s) (uncertain s) t.

Definition cancel (s : State) : State := with_flags true (uncertain s) s.
Definition note_uncertain (s : State) : State := with_flags (cancelled s) true s.

(** *** Objects *)

Definition new_object (o : Output) : Object := mk_object o false false true false false 0.
Definition retire_object (o : Object) : Object :=
  mk_object (output_ o) false (o_shown o) false (o_cleaned o) (o_running o) (o_readers o).
Definition publish_object (o : Object) : Object :=
  mk_object (output_ o) true true (o_active o) (o_cleaned o) (o_running o) (o_readers o).
Definition run_object (b : bool) (o : Object) : Object :=
  mk_object (output_ o) (o_published o) (o_shown o) (o_active o) (o_cleaned o) b (o_readers o).
Definition clean_object (o : Object) : Object :=
  mk_object (output_ o) (o_published o) (o_shown o) (o_active o) true false (o_readers o).
Definition read_object (n : nat) (o : Object) : Object :=
  mk_object (output_ o) (o_published o) (o_shown o) (o_active o) (o_cleaned o) (o_running o) n.
Definition change_object (i : Uuid) (f : Object -> Object) (s : State) : State :=
  with_objects (alter f i (objects s)) s.

(** ** ownership.rs *)

Definition begin_ (s : State) : result State AdmissionError :=
  if negb (active s) || uncertain s then Err Admission.Retired
  else if busy s then Err Admission.Pending
  else Ok (with_slot (current s) (slot s) true (queued s) s).

Definition queue (w : Work) (s : State) : result State AdmissionError :=
  if negb (busy s) || is_some_b (queued s) || (2 <=? Z.of_nat (size (slot s))) then Err Admission.Pending
  else Ok (with_slot (current s) ({[w_target w]} ∪ slot s) (busy s) (Some w) s).

Definition keeps (s : State) (i : Uuid) : Prop :=
  i = current s \/ match objects s !! i with Some o => o_cleaned o = false | None => True end.
#[export] Instance keeps_dec (s : State) (i : Uuid) : Decision (keeps s i).
Proof. unfold keeps. destruct (objects s !! i); apply _. Defined.
Definition finish (s : State) : State :=
  with_slot (current s) (filter (keeps s) (slot s)) false (queued s) s.

Definition promote (i : Uuid) (s : State) : result State AdmissionError :=
  if active s then Ok (change_object i publish_object (with_slot i (slot s) (busy s) (queued s) s))
  else Err Admission.Retired.

(** The group of the viewer *)
Definition fail_group (s : State) : State := with_group false true s.

(** ** Transactions *)

(** [owner.sql], [owner.active_sql]: the transaction, or an error before its
    commit, or a commit whose outcome is lost *)
Inductive ran {A} (f : Tables -> result (A * Tables) AdmissionError) (t : Tables) : result A AdmissionError -> Tables -> Prop :=
| ran_done a t' : f t = Ok (a, t') -> ran f t (Ok a) t'
| ran_failed e : ran f t (Err e) t
| ran_lost a t' e : f t = Ok (a, t') -> e = Admission.Indeterminate \/ e = Admission.Storage -> ran f t (Err e) t'.

Definition unit_of (f : Tables -> result Tables AdmissionError) (t : Tables) : result (unit * Tables) AdmissionError :=
  let? t' := f t in Ok (tt, t').
Definition pure_of (f : Tables -> Tables) (t : Tables) : result (unit * Tables) AdmissionError := Ok (tt, f t).

(** ** The task *)

(** [clean] begins. *)
Definition start_clean (i : Uuid) (a : After) (s : State) : State :=
  with_task (Cleaning i a (Joining None None)) (change_object i retire_object s).

Definition after_clean (a : After) (r : result unit AdmissionError) (s : State) : State :=
  match a, r with
  | A_prepare w, Ok _ => with_task (Prepared w) s
  | A_failed w, Ok _ => with_task (Failing w) s
  | A_prepare _, Err e | A_failed _, Err e => with_task (Finishing (Err e)) s
  | A_lost, Ok _ => with_task Looping s
  | A_lost, Err _ => with_task Looping (with_flags true true s)
  | A_end rest, Ok _ => with_task (Ending rest) s
  | A_end _, Err _ => with_task Noting s
  end.

Definition target (k : For) : Uuid := match k with First i => i | Change_ w => w_target w end.

(** [prepare_output] has failed, or succeeded. *)
Definition unprepared (k : For) (e : AdmissionError) (s : State) : State :=
  match k with
  | First _ => with_task Failing_first s
  | Change_ w =>
      if bool_decide (e = Admission.Indeterminate) then with_task (Finishing (Err e)) s
      else start_clean (w_target w) (A_failed w) s
  end.
Definition prepared (k : For) (s : State) : State :=
  match k with First _ => with_task Looping s | Change_ _ => with_task (Finishing (Ok tt)) s end.

Definition lasting (e : AdmissionError) : bool := bool_decide (e = Admission.Cleanup \/ e = Admission.Indeterminate).
(** The result of [execute] *)
Definition executed (r : result unit AdmissionError) (s : State) : State :=
  let s := match r with
           | Ok _ => s
           | Err e => with_flags true (uncertain s || lasting e) s
           end in
  with_task Looping (finish s).

(** After the loop: the viewer and its outputs are retired. *)
Definition stop_all (s : State) : State :=
  with_task Draining (with_group false (group_failed s)
    (cancel (with_objects (map_imap (fun i o => Some (if decide (i ∈ slot s) then retire_object o else o)) (objects s)) s))).

Definition tracked (c : Change) : bool := match c with Begun => false | _ => true end.
Definition idle (s : State) : bool := negb (active s) && forallb (fun c => negb (tracked c)) (changes s) && (reports s =? 0)%nat.

(** ** Steps *)

Section Steps.
Context (digest : ConfigurationResponse -> result string unit).

(** The reservation is released only when the rows are completed (Admission and
    [obligations_remain]): the steps are those until then. *)
Definition in_life (x : Around) : Prop := released x = false.

(** Steps of the task *)
Inductive run : State -> State -> Prop :=
| r_setup s x o r t : task s = Setting_up -> in_life x -> objects s !! current s = Some o ->
    ran (unit_of (setup x (output_ o))) (db s) r t ->
    run s (with_task (if is_ok r then Preparing (First (current s)) G_check else Failing_first) (with_db t s))
| r_failed_first s r t : task s = Failing_first -> ran (pure_of failed) (db s) r t ->
    run s (with_task Looping (cancel (with_db t s)))
| r_stopped s k : task s = Preparing k G_check -> cancelled s || negb (active s) = true ->
    run s (unprepared k Admission.Retired s)
| r_checked s k : task s = Preparing k G_check -> cancelled s || negb (active s) = false ->
    run s (with_task (Preparing k G_start) s)
| r_direct s k o : task s = Preparing k G_start -> objects s !! target k = Some o -> out_generation (output_ o) = None ->
    run s (with_task (Preparing k G_identity) s)
| r_started s k o : task s = Preparing k G_start -> objects s !! target k = Some o -> is_Some (out_generation (output_ o)) ->
    run s (with_task (Preparing k G_identity) (change_object (target k) (run_object true) s))
| r_unstarted s k o b e : task s = Preparing k G_start -> objects s !! target k = Some o -> is_Some (out_generation (output_ o)) ->
    e = Admission.Authority \/ e = Admission.Conflict \/ e = Admission.Cleanup ->
    run s (unprepared k e (change_object (target k) (run_object b) s))
| r_identified s k : task s = Preparing k G_identity -> cancelled s || negb (active s) = false ->
    run s (with_task (Preparing k G_publish) s)
| r_unidentified s k e : task s = Preparing k G_identity -> e = Admission.Authority \/ e = Admission.Retired ->
    run s (unprepared k e s)
| r_published s k o x f t : task s = Preparing k G_publish -> in_life x -> objects s !! target k = Some o ->
    ran (unit_of (publish x f (output_ o))) (db s) (Ok tt) t ->
    run s (with_task (Preparing k G_promote) (with_db t s))
| r_unpublished s k o x f e t : task s = Preparing k G_publish -> in_life x -> objects s !! target k = Some o ->
    ran (unit_of (publish x f (output_ o))) (db s) (Err e) t ->
    run s (unprepared k e (with_db t s))
| r_promoted s s' k : task s = Preparing k G_promote -> promote (target k) s = Ok s' -> run s (prepared k s')
| r_unpromoted s e k : task s = Preparing k G_promote -> promote (target k) s = Err e -> run s (unprepared k e s)
| r_break s : task s = Looping -> cancelled s || negb (active s) = true -> run s (stop_all s)
| r_take s w : task s = Looping -> cancelled s || negb (active s) = false -> queued s = Some w ->
    run s (with_task (Retiring w) (change_object (w_previous w) retire_object
             (with_slot (current s) (slot s) (busy s) None s)))
| r_wait s : task s = Looping -> cancelled s || negb (active s) = false -> queued s = None -> run s (with_task Waiting s)
| r_notified s : task s = Waiting -> run s (with_task Looping s)
| r_lost s o : task s = Waiting -> objects s !! current s = Some o -> o_published o = true ->
    is_Some (out_generation (output_ o)) -> run s (with_task Losing s)
| r_unavailable s x t : task s = Losing -> in_life x -> ran (unavailable x (current s)) (db s) (Ok true) t ->
    run s (start_clean (current s) A_lost (with_db t s))
| r_available s x t : task s = Losing -> in_life x -> ran (unavailable x (current s)) (db s) (Ok false) t ->
    run s (with_task Looping (with_db t s))
| r_unknown s x e t : task s = Losing -> in_life x -> ran (unavailable x (current s)) (db s) (Err e) t ->
    run s (with_task Looping (cancel (with_db t s)))
| r_retired s w x t : task s = Retiring w -> in_life x ->
    ran (unit_of (retire x (w_operation w) (w_previous w))) (db s) (Ok tt) t ->
    run s (start_clean (w_previous w) (A_prepare w) (with_db t s))
| r_unretired s w x e t : task s = Retiring w -> in_life x ->
    ran (unit_of (retire x (w_operation w) (w_previous w))) (db s) (Err e) t ->
    run s (with_task (Finishing (Err e)) (with_db t s))
| r_cleaned s i a d o : task s = Cleaning i a (Joining None d) -> objects s !! i = Some o ->
    run s (with_task (Cleaning i a (Joining (Some true) d)) (change_object i clean_object s))
| r_uncleaned s i a d o b : task s = Cleaning i a (Joining None d) -> objects s !! i = Some o ->
    o_cleaned o = false -> is_Some (out_generation (output_ o)) ->
    run s (with_task (Cleaning i a (Joining (Some false) d)) (change_object i (run_object (b && o_running o)) s))
| r_drained s i a p o b : task s = Cleaning i a (Joining p None) -> objects s !! i = Some o -> o_readers o = 0%nat ->
    run s (with_task (Cleaning i a (Joining p (Some b))) s)
| r_joined s i a p d : task s = Cleaning i a (Joining (Some p) (Some d)) ->
    run s (with_task (Cleaning i a (if p && d then Completing else Recording)) s)
| r_recorded s i a o x r t : task s = Cleaning i a Recording -> in_life x -> objects s !! i = Some o ->
    ran (unit_of (uncertain_output x (output_ o))) (db s) r t ->
    run s (after_clean a (Err Admission.Cleanup) (with_db t s))
| r_closed s i a o x failure r t : task s = Cleaning i a Completing -> in_life x -> objects s !! i = Some o ->
    ran (unit_of (complete_output x (output_ o) failure)) (db s) r t -> run s (after_clean a r (with_db t s))
| r_too_late s w : task s = Prepared w -> cancelled s || negb (active s) = true ->
    run s (with_task (Finishing (Err Admission.Retired)) s)
| r_prepared s w x t : task s = Prepared w -> cancelled s || negb (active s) = false -> in_life x ->
    ran (unit_of (prepare x (w_operation w))) (db s) (Ok tt) t -> run s (with_task (Preparing (Change_ w) G_check) (with_db t s))
| r_unprepared s w x e t : task s = Prepared w -> cancelled s || negb (active s) = false -> in_life x ->
    ran (unit_of (prepare x (w_operation w))) (db s) (Err e) t -> run s (with_task (Finishing (Err e)) (with_db t s))
| r_failed s w x reason r t : task s = Failing w -> in_life x ->
    ran (unit_of (fail x (w_operation w) (w_previous w) reason)) (db s) r t -> run s (with_task (Finishing r) (with_db t s))
| r_finished s r : task s = Finishing r -> run s (executed r s)
| r_idle s l : task s = Draining -> idle s = true -> l ≡ₚ elements (slot s) ->
    run s (with_task (if group_failed s then Dead else Ending l) s)
| r_next s i rest : task s = Ending (i :: rest) -> is_Some (objects s !! i) -> run s (start_clean i (A_end rest) s)
| r_all_clean s : task s = Ending [] -> run s (with_task Completing_all s)
| r_returned s x t : task s = Completing_all -> in_life x -> ran (unit_of (cleanup x)) (db s) (Ok tt) t ->
    run s (with_task Returned (with_db t s))
| r_unfinished s x e t : task s = Completing_all -> in_life x -> ran (unit_of (cleanup x)) (db s) (Err e) t ->
    run s (with_task Noting (with_db t s))
| r_noted s r t : task s = Noting -> ran (pure_of uncertain_root) (db s) r t ->
    run s (with_task Resting (note_uncertain (with_db t s)))
| r_retry s l : task s = Resting -> l ≡ₚ elements (slot s) -> run s (with_task (Ending l) s).

(** Steps of the requests and of everything else; the label is a change that was
    accepted. *)
Definition drop_change (n : nat) (s : State) : State := finish (with_changes (delete n (changes s)) s).

Inductive other : State -> option Acceptance -> State -> Prop :=
| o_begin s s' : begin_ s = Ok s' -> other s None (with_changes (changes s ++ [Begun]) s')
| o_inspect s n : changes s !! n = Some Begun -> active s = true ->
    other s None (with_changes (<[n := Inspected (current s)]> (changes s)) s)
| o_drop s n c : changes s !! n = Some c -> (forall w, c <> Accepted w) -> other s None (drop_change n s)
| o_panic s n c : changes s !! n = Some c -> c <> Begun -> other s None (fail_group (drop_change n s))
| o_accept s n previous x k a t : changes s !! n = Some (Inspected previous) -> in_life x ->
    a_expected a = previous -> out_operation (a_target a) = Some (a_operation a) ->
    objects s !! out_id (a_target a) = None -> v_id (local k) = current s ->
    ran (accept digest x k a) (db s) (Ok true) t ->
    other s (Some a)
      (with_changes (<[n := Accepted (mk_work (a_operation a) previous (out_id (a_target a)))]> (changes s))
         (with_objects (<[out_id (a_target a) := new_object (a_target a)]> (objects s)) (with_db t s)))
| o_replay s n previous x k a t : changes s !! n = Some (Inspected previous) -> in_life x ->
    out_operation (a_target a) = Some (a_operation a) ->
    ran (accept digest x k a) (db s) (Ok false) t -> other s None (drop_change n (with_db t s))
| o_accept_lost s n previous x k a b t : changes s !! n = Some (Inspected previous) -> in_life x ->
    a_expected a = previous -> out_operation (a_target a) = Some (a_operation a) ->
    v_id (local k) = current s -> accept digest x k a (db s) = Ok (b, t) ->
    other s (if b then Some a else None) (drop_change n (with_db t s))
| o_queue s s' n w : changes s !! n = Some (Accepted w) -> queue w s = Ok s' ->
    other s None (with_changes (delete n (changes s)) s')
| o_unqueued s n w e : changes s !! n = Some (Accepted w) -> queue w s = Err e -> other s None (cancel (drop_change n s))
| o_report_begin s : active s = true -> other s None (with_reports (S (reports s)) s)
| o_report s n x a o duration k r t : reports s = S n -> in_life x -> reportable duration k = true ->
    ran (unit_of (report x a o k)) (db s) r t -> other s None (with_reports n (with_db t s))
| o_report_refused s n : reports s = S n -> other s None (with_reports n s)
| o_read s i o : objects s !! i = Some o -> o_shown o = true -> o_active o = true ->
    other s None (change_object i (read_object (S (o_readers o))) s)
| o_read_end s i o n : objects s !! i = Some o -> o_readers o = S n -> other s None (change_object i (read_object n) s)
| o_process_ends s i : other s None (change_object i (run_object false) s)
| o_cancel s : other s None (cancel s)
| o_stop s : other s None (with_db (stop_root (db s)) s)
| o_prune s x i t : in_life x -> prune x i (db s) = Ok t -> other s None (with_db t s).

Inductive step (s : State) : option Acceptance -> State -> Prop :=
| step_run s' : run s s' -> step s None s'
| step_other a s' : other s a s' -> step s a s'.

(** The viewer is registered with its first output; the rows of the admission are there. *)
Definition start (r : Root) (o : Output) : State :=
  mk_state (mk_tables r None ∅ ∅) {[out_id o := new_object o]} (out_id o) {[out_id o]} false None [] 0 true false false false
    Setting_up.

Definition moves (s s' : State) : Prop := exists a, step s a s'.
Definition reachable (s : State) : Prop :=
  exists r o, out_operation o = None /\ rtc moves (start r o) s.

End Steps.
End Viewers.
