(* ===== verification/ViewersProofs.v ===== *)
(** * Viewers that are reconfigured: what always holds

    The invariant of Viewers in two layers: the objects and the task, and the rows;
    and its consequences: one process at a time, every encoder counted, nothing left
    at the end. *)

From stdpp Require Import gmap relations.
From S2P Require Import Prelude Ladder Transcode Recovery Admission Revisions RevisionsProofs Viewers.

Module ViewersProofs.
Import Revisions RevisionsProofs Viewers.

(** ** Objects and the task *)

(** What the invariant says of an object *)
Record Look := mk_look { k_output : Output; k_runs : bool; k_clean : bool }.
Definition look (o : Object) : Look := mk_look (output_ o) (o_running o) (o_cleaned o).
Definition looks (s : State) : gmap Uuid Look := look <$> objects s.

Definition executing (t : Task) : option Work :=
  match t with
  | Preparing (Change_ w) _ | Retiring w | Cleaning _ (A_prepare w) _ | Cleaning _ (A_failed w) _ | Prepared w | Failing w => Some w
  | _ => None
  end.
Definition executes (t : Task) : bool := is_some_b (executing t) || match t with Finishing _ => true | _ => false end.

(** The work whose output has not failed *)
Definition undertaken (t : Task) : option Work :=
  match t with
  | Preparing (Change_ w) _ | Retiring w | Cleaning _ (A_prepare w) _ | Prepared w => Some w
  | _ => None
  end.

Definition ending (t : Task) : bool :=
  match t with
  | Draining | Ending _ | Cleaning _ (A_end _) _ | Completing_all | Noting | Resting | Returned | Dead => true
  | _ => false
  end.
Definition drained (t : Task) : bool :=
  match t with
  | Ending _ | Cleaning _ (A_end _) _ | Completing_all | Noting | Resting | Returned => true
  | _ => false
  end.

Definition one (b : bool) : nat := if b then 1%nat else 0%nat.

Definition I_holders (b : bool) (q : option Work) (l : list Change) (t : Task) : Prop :=
  (length l + one (is_some_b q) + one (executes t) = one b)%nat.

Definition I_slot (c : Uuid) (sl : gset Uuid) (m : gmap Uuid Look) : Prop := c ∈ sl /\ sl ⊆ dom m.

Definition I_looks (sl : gset Uuid) (m : gmap Uuid Look) : Prop :=
  forall i k, m !! i = Some k -> out_id (k_output k) = i /\ (k_clean k = true -> k_runs k = false) /\
    (i ∉ sl -> k_runs k = false).

Inductive fresh (q : option Work) (l : list Change) (t : Task) (w : Work) : Prop :=
| fresh_change : Accepted w ∈ l -> fresh q l t w
| fresh_queued : q = Some w -> fresh q l t w
| fresh_task : undertaken t = Some w -> fresh q l t w.

Definition I_fresh (c : Uuid) (sl : gset Uuid) (m : gmap Uuid Look) (q : option Work) (l : list Change) (t : Task) : Prop :=
  (forall w, fresh q l t w -> w_previous w = c /\ w_target w <> c /\
    exists k, m !! w_target w = Some k /\ out_operation (k_output k) = Some (w_operation w) /\
      (ending t = false -> k_clean k = false)) /\
  (forall w, q = Some w \/ undertaken t = Some w -> w_target w ∈ sl) /\
  (forall p, Inspected p ∈ l -> p = c).

Definition clean_at (m : gmap Uuid Look) (i : Uuid) : Prop := exists k, m !! i = Some k /\ k_clean k = true.
Definition unclean_at (m : gmap Uuid Look) (i : Uuid) : Prop := exists k, m !! i = Some k /\ k_clean k = false.

Definition I_task (c : Uuid) (m : gmap Uuid Look) (t : Task) : Prop :=
  match t with
  | Setting_up => unclean_at m c
  | Preparing (First i) _ => i = c /\ unclean_at m c
  | Cleaning i a st =>
      is_Some (m !! i) /\
      match a with A_prepare w => i = w_previous w | A_failed w => i = w_target w /\ i <> c | A_lost => i = c | A_end _ => True end /\
      match st with Joining (Some true) _ | Completing => clean_at m i | _ => True end
  | _ => True
  end.

Definition only_runs (m : gmap Uuid Look) (i : Uuid) : Prop := forall j k, m !! j = Some k -> k_runs k = true -> j = i.
Definition none_runs (m : gmap Uuid Look) : Prop := forall j k, m !! j = Some k -> k_runs k = false.

Definition I_runs (c : Uuid) (m : gmap Uuid Look) (cancelled : bool) (t : Task) : Prop :=
  (exists i, only_runs m i) /\
  match t with
  | Setting_up | Failing_first | Preparing (First _) _ | Waiting | Losing | Retiring _
  | Cleaning _ A_lost _ | Cleaning _ (A_prepare _) _ | Finishing (Ok _) => only_runs m c
  | Looping => cancelled = true \/ only_runs m c
  | Prepared _ | Preparing (Change_ _) G_check | Preparing (Change_ _) G_start | Failing _ => none_runs m
  | Preparing (Change_ w) _ | Cleaning _ (A_failed w) _ => only_runs m (w_target w)
  | _ => True
  end.

(** At the end: no request is left that could add an output; those that run are
    still to be cleaned. *)
Definition I_end (sl : gset Uuid) (m : gmap Uuid Look) (l : list Change) (n : nat) (a : bool) (t : Task) : Prop :=
  (ending t = true -> a = false) /\
  (drained t = true -> n = 0%nat /\ forall ch, ch ∈ l -> ch = Begun) /\
  match t with
  | Ending rest => forall i k, m !! i = Some k -> k_runs k = true -> i ∈ rest
  | Cleaning j (A_end rest) _ => forall i k, m !! i = Some k -> k_runs k = true -> i = j \/ i ∈ rest
  | Completing_all | Returned => none_runs m
  | _ => True
  end.

Record inv (s : State) : Prop := {
  i_holders : I_holders (busy s) (queued s) (changes s) (task s);
  i_slot : I_slot (current s) (slot s) (looks s);
  i_looks : I_looks (slot s) (looks s);
  i_fresh : I_fresh (current s) (slot s) (looks s) (queued s) (changes s) (task s);
  i_task : I_task (current s) (looks s) (task s);
  i_runs : I_runs (current s) (looks s) (cancelled s) (task s);
  i_end : I_end (slot s) (looks s) (changes s) (reports s) (active s) (task s) }.

(** *** Updates of objects *)

Lemma looks_change (i : Uuid) (f : Object -> Object) (s : State) :
  (forall o, look (f o) = look o) -> looks (change_object i f s) = looks s.
Proof.
  intros H. unfold looks, change_object. cbn. apply map_eq. intros j. rewrite !lookup_fmap.
  destruct (decide (j = i)) as [->|N].
  - rewrite lookup_alter_eq. destruct (objects s !! i); [|done]. cbn. by rewrite H.
  - by rewrite lookup_alter_ne.
Qed.

Lemma looks_alter (i : Uuid) (f : Object -> Object) (g : Look -> Look) (s : State) :
  (forall o, look (f o) = g (look o)) -> looks (change_object i f s) = alter g i (looks s).
Proof.
  intros H. unfold looks, change_object. cbn. apply map_eq. intros j. rewrite lookup_fmap.
  destruct (decide (j = i)) as [->|N].
  - rewrite !lookup_alter_eq, lookup_fmap. destruct (objects s !! i); [|done]. cbn. by rewrite H.
  - by rewrite !lookup_alter_ne, lookup_fmap.
Qed.

Lemma looks_retire (i : Uuid) (s : State) : looks (change_object i retire_object s) = looks s.
Proof. by apply looks_change. Qed.
Lemma looks_publish (i : Uuid) (s : State) : looks (change_object i publish_object s) = looks s.
Proof. by apply looks_change. Qed.
Lemma looks_read (i : Uuid) (n : nat) (s : State) : looks (change_object i (read_object n) s) = looks s.
Proof. by apply looks_change. Qed.
Lemma looks_start_clean (i : Uuid) (a : After) (s : State) : looks (start_clean i a s) = looks s.
Proof. by apply looks_change. Qed.
Definition run_look (b : bool) (k : Look) : Look := mk_look (k_output k) b (k_clean k).
Definition clean_look (k : Look) : Look := mk_look (k_output k) false true.
Lemma looks_run (b : bool) (i : Uuid) (s : State) :
  looks (change_object i (run_object b) s) = alter (run_look b) i (looks s).
Proof. by apply looks_alter. Qed.
Lemma looks_clean (i : Uuid) (s : State) :
  looks (change_object i clean_object s) = alter clean_look i (looks s).
Proof. by apply looks_alter. Qed.
Lemma looks_stop_all (s : State) : looks (stop_all s) = looks s.
Proof.
  unfold looks, stop_all. cbn. apply map_eq. intros j. rewrite !lookup_fmap, map_lookup_imap.
  destruct (objects s !! j); [|done]. cbn. by destruct (decide _).
Qed.
Lemma looks_some (s : State) (i : Uuid) (o : Object) : objects s !! i = Some o -> looks s !! i = Some (look o).
Proof. intros L. unfold looks. by rewrite lookup_fmap, L. Qed.

(** *** Steps that keep the slot and the requests *)

Lemma viewer_inv_alter (g : Look -> Look) (i : Uuid) (s s' : State) :
  inv s -> looks s' = alter g i (looks s) ->
  (current s', slot s', busy s', queued s', changes s') = (current s, slot s, busy s, queued s, changes s) ->
  executes (task s') = executes (task s) ->
  (forall w, undertaken (task s') = Some w -> undertaken (task s) = Some w) ->
  (ending (task s') = false -> ending (task s) = false) ->
  (forall k, looks s !! i = Some k -> k_output (g k) = k_output k /\ (k_clean (g k) = true -> k_runs (g k) = false) /\
    (i ∉ slot s -> k_runs (g k) = false) /\
    (k_clean (g k) = k_clean k \/ ending (task s') = true \/ forall w, fresh (queued s) (changes s) (task s') w -> w_target w <> i)) ->
  I_task (current s) (looks s') (task s') -> I_runs (current s) (looks s') (cancelled s') (task s') ->
  I_end (slot s) (looks s') (changes s) (reports s') (active s') (task s') -> inv s'.
Proof.
  intros [A1 A2 A3 A4 A5 A6 A7] L E X U N K T R Z. injection E as E1 E2 E3 E4 E5.
  assert (F : forall w, fresh (queued s) (changes s) (task s') w -> fresh (queued s) (changes s) (task s) w).
  { intros w []; [by apply fresh_change|by apply fresh_queued|by apply fresh_task, U]. }
  split; rewrite ?E1, ?E2, ?E3, ?E4, ?E5; try done.
  - unfold I_holders in *. by rewrite X.
  - split; [apply A2|]. rewrite L, dom_alter_L. apply A2.
  - intros j k. rewrite L, lookup_alter_Some. intros [(-> & k0 & L0 & ->)|[_ L0]]; [|by apply A3].
    destruct (K k0 L0) as (K1 & K2 & K3 & _). destruct (A3 _ k0 L0) as (O & _). rewrite K1. done.
  - destruct A4 as (F1 & F2 & F3). split; [|split; [|done]].
    + intros w W. destruct (F1 w (F w W)) as (P & Q & k & L0 & O & C). split; [done|]. split; [done|].
      rewrite L. destruct (decide (i = w_target w)) as [->|D].
      * exists (g k). rewrite lookup_alter_eq, L0. split; [done|]. destruct (K k L0) as (K1 & _ & _ & K4).
        split; [congruence|]. intros Y. destruct K4 as [K4|[K4|K4]]; [rewrite K4; auto|congruence|by destruct (K4 w W)].
      * exists k. rewrite lookup_alter_ne by done. auto.
    + intros w [Q|Q]; apply F2; auto.
Qed.

Lemma inv_frame (s s' : State) :
  inv s -> looks s' = looks s ->
  (current s', slot s', busy s', queued s', changes s') = (current s, slot s, busy s, queued s, changes s) ->
  executes (task s') = executes (task s) ->
  (forall w, undertaken (task s') = Some w -> undertaken (task s) = Some w) ->
  (ending (task s') = false -> ending (task s) = false) ->
  I_task (current s) (looks s) (task s') -> I_runs (current s) (looks s) (cancelled s') (task s') ->
  I_end (slot s) (looks s) (changes s) (reports s') (active s') (task s') -> inv s'.
Proof.
  intros I L E X U N T R Z. eapply (viewer_inv_alter id (current s) s s' I); rewrite ?L; auto.
  - by rewrite alter_id.
  - intros k H. destruct (i_looks _ I _ _ H) as (_ & ? & ?). auto.
Qed.

Lemma only_runs_none (m : gmap Uuid Look) (i : Uuid) : none_runs m -> only_runs m i.
Proof. intros N j k L R. by rewrite (N j k L) in R. Qed.

(** The one that could run is clean, or stops. *)
Lemma none_of_clean (s : State) (i : Uuid) : inv s -> only_runs (looks s) i -> clean_at (looks s) i -> none_runs (looks s).
Proof.
  intros I O (k & L & C) j k' L'. destruct (k_runs k') eqn:R; [|done]. rewrite (O j k' L' R) in L'.
  rewrite L in L'. injection L' as <-. destruct (i_looks _ I i k L) as (_ & D & _). by rewrite D in R.
Qed.

Lemma start_clean_inv (i : Uuid) (a : After) (s : State) :
  inv s -> is_Some (looks s !! i) ->
  executes (task s) = executes (Cleaning i a (Joining None None)) ->
  (forall w, undertaken (Cleaning i a (Joining None None)) = Some w -> undertaken (task s) = Some w) ->
  (ending (Cleaning i a (Joining None None)) = false -> ending (task s) = false) ->
  I_task (current s) (looks s) (Cleaning i a (Joining None None)) ->
  I_runs (current s) (looks s) (cancelled s) (Cleaning i a (Joining None None)) ->
  I_end (slot s) (looks s) (changes s) (reports s) (active s) (Cleaning i a (Joining None None)) ->
  inv (start_clean i a s).
Proof.
  intros I M X U N T R Z. apply (inv_frame s); auto. by apply looks_start_clean.
Qed.

Lemma unprepared_inv (k : For) (g : Stage) (e : AdmissionError) (s : State) :
  inv s -> task s = Preparing k g -> inv (unprepared k e s).
Proof.
  intros I T. destruct k as [i|w]; cbn [unprepared].
  - apply (inv_frame s); try done; rewrite ?T; try done; cbn.
    pose proof (i_runs _ I) as R. by rewrite T in R.
  - pose proof (i_fresh _ I) as (F & _ & _). destruct (F w) as (P & Q & l & L & O & _); [by apply fresh_task; rewrite T|].
    pose proof (i_runs _ I) as [R1 R2]. pose proof (i_end _ I) as Z. rewrite T in Z, R2.
    assert (W : only_runs (looks s) (w_target w)) by (destruct g; try done; by apply only_runs_none).
    case_bool_decide.
    + apply (inv_frame s); try done; rewrite ?T; done.
    + by apply start_clean_inv; rewrite ?T; try done.
Qed.

(** The facts of the invariant, at the task *)
Ltac open_inv I T :=
  pose proof (i_holders _ I) as Ih; pose proof (i_slot _ I) as Is; pose proof (i_looks _ I) as Il;
  pose proof (i_fresh _ I) as If; pose proof (i_task _ I) as It; pose proof (i_runs _ I) as [Ie Ir];
  pose proof (i_end _ I) as (Z1 & Z2 & Z3); rewrite ?T in Ih, It, Ir, Z1, Z2, Z3.

(** A step of the task that changes no object *)
Ltac stay I T := apply (inv_frame _ _ I); rewrite ?T; try done.

(** *** The end of a change *)

Lemma finish_slot (s : State) : inv s -> I_slot (current s) (filter (keeps s) (slot s)) (looks s).
Proof.
  intros I. destruct (i_slot _ I) as [C D]. split; [|set_solver]. apply elem_of_filter. split; [by left|done].
Qed.

Lemma finish_looks (s : State) : inv s -> I_looks (filter (keeps s) (slot s)) (looks s).
Proof.
  intros I i k L. destruct (i_looks _ I i k L) as (O & C & A). split; [done|]. split; [done|]. intros N.
  destruct (decide (i ∈ slot s)) as [M|]; [|auto]. apply C. destruct (k_clean k) eqn:E; [done|]. exfalso.
  apply N, elem_of_filter. split; [|done]. right. unfold looks in L. rewrite lookup_fmap in L.
  destruct (objects s !! i) as [o|]; [|done]. by injection L as <-.
Qed.

Lemma fresh_nothing (t : Task) (w : Work) : undertaken t = None -> ~ fresh None [] t w.
Proof. intros U []; [by eapply elem_of_nil|done|congruence]. Qed.

Lemma undertaken_executes (t : Task) : executes t = false -> undertaken t = None.
Proof. by destruct t as [|[]| | | | |? []| | | | | | | | | | |]. Qed.

(** One change holds the guard; when it is dropped, none is left. *)
Lemma I_fresh_none (c : Uuid) (sl : gset Uuid) (m : gmap Uuid Look) (t : Task) :
  undertaken t = None -> I_fresh c sl m None [] t.
Proof.
  intros U. split; [|split].
  - intros w W. by apply fresh_nothing in W.
  - intros w [|]; congruence.
  - by intros p ?%elem_of_nil.
Qed.

Lemma executed_inv (r : result unit AdmissionError) (s : State) :
  inv s -> task s = Finishing r -> inv (executed r s).
Proof.
  intros I T. open_inv I T. unfold I_holders in Ih. cbn in Ih.
  destruct (busy s); [|cbn in Ih; lia]. destruct (queued s) eqn:Q; cbn in Ih; [lia|].
  destruct (changes s) eqn:C; cbn in Ih; [|lia].
  assert (E : looks (executed r s) = looks s) by (by unfold executed; destruct r).
  split; rewrite ?E; unfold executed; destruct r; cbn; rewrite ?Q, ?C; try done.
  all: try exact (finish_slot s I). all: try exact (finish_looks s I). all: try by apply I_fresh_none.
  - split; [done|]. by right.
  - split; [done|]. by left.
Qed.

Lemma drop_change_inv (n : nat) (ch : Change) (s : State) :
  inv s -> changes s !! n = Some ch -> inv (drop_change n s).
Proof.
  intros I L. open_inv I (eq_refl (task s)). unfold I_holders in Ih.
  assert (length (changes s) <> 0%nat) as N by (apply lookup_lt_Some in L; lia).
  destruct (busy s); cbn in Ih; [|lia]. destruct (queued s) eqn:Q; cbn in Ih; [lia|].
  destruct (executes (task s)) eqn:X; cbn in Ih; [lia|].
  destruct (changes s) as [|c0 [|]] eqn:C; cbn in Ih, N; [lia| |lia].
  destruct n; [|done]. injection L as ->.
  assert (U : undertaken (task s) = None) by (by apply undertaken_executes).
  assert (E : looks (drop_change 0 s) = looks s) by done.
  split; rewrite ?E; unfold drop_change; cbn; rewrite ?Q, ?C; cbn; try done.
  - unfold I_holders. cbn. by rewrite X.
  - exact (finish_slot s I).
  - exact (finish_looks s I).
  - by apply I_fresh_none.
  - split; [done|]. split; [|by destruct (task s) as [| | | | | |? []| | | | | | | | | | |]]. intros D.
    destruct (Z2 D) as [Z4 _]. split; [done|]. by intros ? ?%elem_of_nil.
Qed.

(** *** Steps of the task *)

Lemma promote_inv (k : For) (s s' : State) :
  inv s -> task s = Preparing k G_promote -> promote (target k) s = Ok s' -> inv (prepared k s').
Proof.
  intros I T. unfold promote. destruct (active s) eqn:A; [|done]. intros [= <-]. open_inv I T.
  set (s1 := change_object (target k) publish_object (with_slot (target k) (slot s) (busy s) (queued s) s)).
  assert (E : looks s1 = looks s) by apply (looks_publish (target k) (with_slot (target k) (slot s) (busy s) (queued s) s)).
  destruct k as [i|w]; cbn [target prepared] in *.
  - destruct It as [-> U]. apply (inv_frame s); rewrite ?T; try done. cbn. split; [done|]. by right.
  - unfold I_holders in Ih. cbn in Ih. destruct (busy s) eqn:B; [|cbn in Ih; lia].
    destruct (queued s) eqn:Q; cbn in Ih; [lia|]. destruct (changes s) eqn:C; cbn in Ih; [|lia].
    destruct If as (F1 & F2 & _). destruct Is as [S1 S2].
    split; try change (looks (with_task (Finishing (Ok tt)) s1)) with (looks s1); rewrite ?E; cbn; rewrite ?B, ?Q, ?C; try done.
    + split; [|done]. apply F2. right. by rewrite T.
    + by apply I_fresh_none.
Qed.

Lemma unclean_alter (m : gmap Uuid Look) (i j : Uuid) (b : bool) :
  unclean_at m j -> unclean_at (alter (run_look b) i m) j.
Proof.
  intros (k & L & C). destruct (decide (j = i)) as [->|N].
  - exists (run_look b k). by rewrite lookup_alter_eq, L.
  - exists k. by rewrite lookup_alter_ne.
Qed.

Lemma only_runs_alter (m : gmap Uuid Look) (i : Uuid) (b : bool) :
  only_runs m i -> only_runs (alter (run_look b) i m) i.
Proof. intros O j k [(-> & _)|[N L]]%lookup_alter_Some R; [done|by eapply O]. Qed.

(** A process is started, or not quite. *)
Lemma viewer_started_inv (k : For) (b : bool) (s : State) :
  inv s -> task s = Preparing k G_start ->
  inv (with_task (Preparing k G_identity) (change_object (target k) (run_object b) s)).
Proof.
  intros I T. open_inv I T. set (s' := with_task _ _).
  assert (E : looks s' = alter (run_look b) (target k) (looks s)) by apply looks_run.
  assert (M : unclean_at (looks s) (target k) /\ target k ∈ slot s).
  { destruct k as [i|w]; cbn in *.
    - destruct It as [-> U]. split; [done|apply Is].
    - destruct If as (F1 & F2 & _). destruct (F1 w) as (_ & _ & l & L & _ & C); [by apply fresh_task; rewrite T|].
      rewrite T in C. split; [exists l; auto|]. apply F2. right. by rewrite T. }
  destruct M as [(l & L & C) M].
  assert (R : only_runs (looks s) (target k)).
  { destruct k as [i|w]; cbn in *; [destruct It as [-> _]; done|by apply only_runs_none]. }
  apply (viewer_inv_alter (run_look b) (target k) s s' I E); rewrite ?E; try done; cbn; rewrite ?T; try done.
  - intros l' L'. rewrite L in L'. injection L' as <-. cbn. rewrite C. split; [done|]. split; [done|].
    split; [by intros ?|by left].
  - destruct k as [i|w]; [|done]. destruct It as [-> U]. split; [done|]. by apply unclean_alter.
  - split; [exists (target k); by apply only_runs_alter|]. destruct k as [i|w]; cbn in *.
    + destruct It as [-> _]. by apply only_runs_alter.
    + by apply only_runs_alter.
Qed.

Lemma clean_step_inv (i : Uuid) (a : After) (c c' : Clean) (g : Look -> Look) (s s' : State) :
  inv s -> task s = Cleaning i a c -> looks s' = alter g i (looks s) -> task s' = Cleaning i a c' ->
  (current s', slot s', busy s', queued s', changes s', cancelled s', reports s', active s')
    = (current s, slot s, busy s, queued s, changes s, cancelled s, reports s, active s) ->
  (forall k, looks s !! i = Some k -> k_output (g k) = k_output k /\ (k_clean k = true -> k_clean (g k) = true) /\
    (k_clean (g k) = true -> k_runs (g k) = false) /\ (k_runs (g k) = true -> k_runs k = true) /\
    (k_clean (g k) = k_clean k \/ g = clean_look)) ->
  (match c' with Joining (Some true) _ | Completing => clean_at (looks s') i | _ => True end) -> inv s'.
Proof.
  intros I T E T' Q G C. open_inv I T. injection Q as Q1 Q2 Q3 Q4 Q5 Q6 Q7 Q8.
  assert (O : forall j, only_runs (looks s) j -> only_runs (looks s') j).
  { intros j O j' k'. rewrite E. intros [(-> & k & L & ->)|[_ L]]%lookup_alter_Some R; [|by eapply O].
    apply (O _ k L). destruct (G k L) as (_ & _ & _ & D & _). auto. }
  apply (viewer_inv_alter g i s s' I E); rewrite ?T', ?T, ?Q1, ?Q2, ?Q3, ?Q4, ?Q5, ?Q6, ?Q7, ?Q8; try done.
  - intros k L. destruct (G k L) as (G1 & G2 & G3 & G4 & G5). split; [done|]. split; [done|]. split.
    + intros N. destruct (k_runs (g k)) eqn:R; [|done]. destruct (Il i k L) as (_ & _ & W).
      rewrite (G4 eq_refl) in W. by specialize (W N).
    + destruct G5 as [G5|G5]; [by left|right]. destruct (ending (Cleaning i a c')) eqn:Y; [by left|right].
      intros w W N. destruct It as (_ & J & _). rewrite T in If. destruct If as (F1 & _ & _).
      assert (W' : undertaken (Cleaning i a c) = undertaken (Cleaning i a c')) by (by destruct a).
      destruct (F1 w) as (P & X & _).
      { destruct W as [W|W|W]; [by apply fresh_change|by apply fresh_queued|apply fresh_task; congruence]. }
      destruct a as [w0|w0| |]; try done; [| |congruence].
      * destruct (F1 w0) as (P0 & _); [by apply fresh_task|]. congruence.
      * unfold I_holders in Ih. cbn in Ih. destruct (busy s); [|cbn in Ih; lia].
        destruct (queued s); cbn in Ih; [lia|]. destruct (changes s); cbn in Ih; [|lia].
        by apply fresh_nothing in W.
  - destruct It as ([k L] & J & D). split; [|split; [exact J|exact C]].
    rewrite E. exists (g k). by rewrite lookup_alter_eq, L.
  - split; [destruct Ie as [j Ie]; exists j; auto|]. destruct a; auto.
  - split; [by destruct a|]. split; [by destruct a|]. destruct a as [| | |rest]; try done.
    intros j k'. rewrite E. intros [(-> & k & L & ->)|[_ L]]%lookup_alter_Some R; [by left|by eapply Z3].
Qed.

Lemma after_clean_inv (i : Uuid) (a : After) (c : Clean) (r : result unit AdmissionError) (s : State) :
  inv s -> task s = Cleaning i a c -> (is_ok r = true -> c = Completing) -> inv (after_clean a r s).
Proof.
  intros I T C. open_inv I T. destruct It as ([k L] & J & D).
  assert (N : is_ok r = true -> only_runs (looks s) i -> none_runs (looks s)).
  { intros Y O. rewrite (C Y) in D. by eapply none_of_clean. }
  destruct a as [w|w| |rest]; cbn in *.
  - assert (i = current s) as ->.
    { destruct If as (F1 & _). destruct (F1 w) as (P & _); [by apply fresh_task; rewrite T|]. congruence. }
    destruct r as [[]|e]; stay I T. split; [done|]. cbn. auto.
  - destruct J as [-> X]. destruct r as [[]|e]; stay I T. split; [done|]. cbn. auto.
  - subst i. destruct r as [[]|e]; stay I T; split; try done; cbn; auto.
  - destruct r as [[]|e]; stay I T.
    split; [done|]. split; [done|]. intros j k' L' R. destruct (Z3 j k' L' R) as [->|M]; [|done].
    rewrite (C eq_refl) in D. destruct D as (k2 & L2 & D). destruct (Il i k2 L2) as (_ & W & _).
    assert (k2 = k') as -> by congruence. by rewrite W in R.
Qed.

Lemma stop_all_inv (s : State) : inv s -> task s = Looping -> inv (stop_all s).
Proof.
  intros I T. open_inv I T. apply (inv_frame s); rewrite ?T; try done. by apply looks_stop_all.
Qed.

Lemma take_inv (w : Work) (s : State) :
  inv s -> task s = Looping -> cancelled s || negb (active s) = false -> queued s = Some w ->
  inv (with_task (Retiring w) (change_object (w_previous w) retire_object (with_slot (current s) (slot s) (busy s) None s))).
Proof.
  intros I T N Q. open_inv I T. apply orb_false_iff in N as [N1 N2]. set (s' := with_task _ _).
  assert (E : looks s' = looks s) by (by apply (looks_retire (w_previous w) (with_slot (current s) (slot s) (busy s) None s))).
  assert (U : undertaken (task s) = None) by (by rewrite T).
  rewrite Q in Ih, If. unfold I_holders in Ih. cbn in Ih.
  split; try rewrite E; cbn; try done.
  - unfold I_holders. cbn. lia.
  - destruct If as (F1 & F2 & F3). split; [|split; [|done]].
    + intros w' W. rewrite T in F1. apply F1. destruct W as [W|W|W]; [by apply fresh_change|done|].
      cbn in W. injection W as <-. by apply fresh_queued.
    + intros w' [W|W]; [done|]. cbn in W. injection W as <-. apply F2. by left.
  - split; [done|]. destruct Ir as [Ir|Ir]; [congruence|done].
Qed.

Lemma idle_ok (s : State) : idle s = true ->
  reports s = 0%nat /\ forall ch, ch ∈ changes s -> ch = Begun.
Proof.
  unfold idle. rewrite !andb_true_iff. intros [[_ C] R]. apply Nat.eqb_eq in R. split; [done|]. intros ch H.
  rewrite forallb_forall in C. apply list_elem_of_In in H. specialize (C ch H). by destruct ch.
Qed.

Lemma slot_elements (s : State) (l : list Uuid) : inv s -> l ≡ₚ elements (slot s) ->
  forall i k, looks s !! i = Some k -> k_runs k = true -> i ∈ l.
Proof.
  intros I E i k L R. rewrite E, elem_of_elements. destruct (decide (i ∈ slot s)) as [|N]; [done|].
  destruct (i_looks _ I i k L) as (_ & _ & W). by rewrite (W N) in R.
Qed.

Section Reachable.
Context (digest : ConfigurationResponse -> result string unit).

Lemma with_db_inv (t : Tables) (s : State) : inv s -> inv (with_db t s).
Proof. intros I. by apply (inv_frame s); try apply I. Qed.

(** A step that only goes on *)
Ltac go_on I T := open_inv I T; stay I T; try (split; [done|]; cbn; auto; fail).

Lemma looks_of (s : State) (i : Uuid) (o : Object) : objects s !! i = Some o -> is_Some (looks s !! i).
Proof. intros L. exists (look o). by apply looks_some. Qed.

Lemma cleaning_current_inv (a : After) (t : Tables) (s : State) (o : Object) :
  inv s -> objects s !! current s = Some o ->
  (task s = Losing /\ a = A_lost) -> inv (start_clean (current s) a (with_db t s)).
Proof.
  intros I L [T ->]. open_inv I T. apply start_clean_inv; try by apply with_db_inv.
  all: cbn; rewrite ?T; try done.
  - by eapply looks_of.
  - split; [by eapply looks_of|done].
Qed.

Lemma run_inv (s s' : State) : inv s -> run s s' -> inv s'.
Proof.
  intros I H. destruct H.
  - open_inv I H. stay I H; destruct (is_ok r); try done; cbn; rewrite H; done.
  - go_on I H.
  - by eapply unprepared_inv.
  - go_on I H; destruct k; done.
  - go_on I H; destruct k; try done. split; [done|]. by apply only_runs_none.
  - by apply viewer_started_inv.
  - pose proof (viewer_started_inv k b s I H) as J.
    exact (unprepared_inv k G_identity e _ J eq_refl).
  - go_on I H; destruct k; done.
  - by eapply unprepared_inv.
  - go_on I H; destruct k; done.
  - eapply unprepared_inv; [by apply with_db_inv|exact H].
  - by eapply promote_inv.
  - by eapply unprepared_inv.
  - by apply stop_all_inv.
  - by apply take_inv.
  - go_on I H. apply orb_false_iff in H0 as [N _]. split; [done|]. cbn. destruct Ir; [congruence|done].
  - go_on I H.
  - go_on I H.
  - destruct (i_slot _ I) as [C D]. specialize (D _ C). apply elem_of_dom in D as [k D].
    unfold looks in D. rewrite lookup_fmap in D. destruct (objects s !! current s) as [o|] eqn:L; [|done].
    eapply cleaning_current_inv; eauto.
  - go_on I H.
  - go_on I H.
  - open_inv I H. destruct If as (F1 & F2 & F3). destruct (F1 w) as (P & Q & _); [by apply fresh_task; rewrite H|].
    destruct Is as [S1 S2]. specialize (S2 _ S1). apply elem_of_dom in S2. rewrite P.
    apply start_clean_inv; try by apply with_db_inv. all: cbn; rewrite ?H; try done.
  - go_on I H.
  - eapply (clean_step_inv i a _ _ clean_look _ _ I H); try done; [apply looks_clean| |].
    + intros k L. cbn. do 4 (split; [done|]). by right.
    + apply looks_some in H0. exists (clean_look (look o)). split; [|done].
      change (looks (change_object i clean_object s) !! i = Some (clean_look (look o))).
      by rewrite looks_clean, lookup_alter_eq, H0.
  - eapply (clean_step_inv i a _ _ (run_look (b && o_running o)) _ _ I H); try done; [apply looks_run|].
    intros k L. apply looks_some in H0. rewrite L in H0. injection H0 as ->. cbn. rewrite H1.
    do 3 (split; [done|]).
    split; [by intros [_ ?]%andb_true_iff|by left].
  - eapply (clean_step_inv i a _ _ id _ _ I H); try done; [by rewrite alter_id| |].
    + intros k L. destruct (i_looks _ I i k L) as (_ & W & _). do 2 (split; [done|]). split; [exact W|]. split; [done|by left].
    + pose proof (i_task _ I) as It. rewrite H in It. apply It.
  - eapply (clean_step_inv i a _ _ id _ _ I H); try done; [by rewrite alter_id| |].
    + intros k L. destruct (i_looks _ I i k L) as (_ & W & _). do 2 (split; [done|]). split; [exact W|]. split; [done|by left].
    + pose proof (i_task _ I) as It. rewrite H in It. destruct It as (_ & _ & C). by destruct p, d.
  - eapply after_clean_inv; [by apply with_db_inv|exact H|done].
  - eapply after_clean_inv; [by apply with_db_inv|exact H|done].
  - go_on I H.
  - go_on I H.
  - go_on I H.
  - go_on I H. destruct r; split; try done. cbn. by apply only_runs_none.
  - by apply executed_inv.
  - open_inv I H. destruct (idle_ok s H0) as [R B]. destruct (group_failed s); stay I H.
    split; [done|]. split; [done|]. cbn. by apply slot_elements.
  - open_inv I H. destruct H0 as [o L]. apply start_clean_inv; rewrite ?H; try done; [by eapply looks_of|..].
    + split; [by eapply looks_of|done].
    + split; [done|]. split; [done|]. intros j k L' R. apply elem_of_cons. by eapply Z3.
  - go_on I H. split; [done|]. split; [done|]. intros i k L. destruct (k_runs k) eqn:R; [|done].
    by apply (Z3 i k L), elem_of_nil in R.
  - go_on I H.
  - go_on I H.
  - go_on I H.
  - go_on I H. split; [done|]. split; [done|]. cbn. by apply slot_elements.
Qed.

(** *** Steps of the requests *)

(** A change holds the guard: it is the only one, and nothing is executed. *)
Lemma holder_alone (n : nat) (ch : Change) (s : State) :
  inv s -> changes s !! n = Some ch ->
  busy s = true /\ n = 0%nat /\ changes s = [ch] /\ queued s = None /\ executes (task s) = false.
Proof.
  intros I L. pose proof (i_holders _ I) as H. unfold I_holders in H.
  assert (length (changes s) <> 0%nat) as N by (apply lookup_lt_Some in L; lia).
  destruct (busy s); cbn in H; [|lia]. destruct (queued s) eqn:Q; cbn in H; [lia|].
  destruct (executes (task s)) eqn:X; cbn in H; [lia|].
  destruct (changes s) as [|c0 [|]] eqn:C; cbn in H, N; [lia| |lia].
  destruct n; [|done]. by injection L as ->.
Qed.

Lemma ending_drained (t : Task) : ending t = false -> drained t = false.
Proof. by destruct t as [| | | | | |? [] ?| | | | | | | | | | |]. Qed.

(** Only the requests change. *)
Lemma requests_inv (s s' : State) :
  inv s -> looks s' = looks s ->
  (current s', slot s', queued s', task s', cancelled s', reports s', active s')
    = (current s, slot s, queued s, task s, cancelled s, reports s, active s) ->
  I_holders (busy s') (queued s) (changes s') (task s) ->
  (forall w, Accepted w ∈ changes s' -> Accepted w ∈ changes s) ->
  (forall p, Inspected p ∈ changes s' -> Inspected p ∈ changes s \/ p = current s) ->
  (drained (task s) = true -> forall ch, ch ∈ changes s' -> ch = Begun) -> inv s'.
Proof.
  intros I E Q HH A B D. injection Q as Q1 Q2 Q3 Q4 Q5 Q6 Q7.
  split; rewrite ?E, ?Q1, ?Q2, ?Q3, ?Q4, ?Q5, ?Q6, ?Q7; try apply I; try done.
  - destruct (i_fresh _ I) as (F1 & F2 & F3). split; [|split; [done|]].
    + intros w W. apply F1. destruct W as [W|W|W]; [by apply fresh_change, A|by apply fresh_queued|by apply fresh_task].
    + intros p P. destruct (B p P) as [W|W]; [by apply F3|done].
  - destruct (i_end _ I) as (Z1 & Z2 & Z3). split; [done|]. split; [|done]. intros X. destruct (Z2 X). auto.
Qed.

Lemma begin_inv (s s' : State) : inv s -> begin_ s = Ok s' -> inv (with_changes (changes s ++ [Begun]) s').
Proof.
  intros I. unfold begin_. destruct (negb (active s) || uncertain s) eqn:A; [done|].
  destruct (busy s) eqn:B; [done|]. intros [= <-].
  pose proof (i_holders _ I) as H. unfold I_holders in H. rewrite B in H. cbn in H.
  destruct (changes s) eqn:C; cbn in H; [|lia].
  apply (requests_inv s); cbn; try done.
  - unfold I_holders in *. cbn in *. lia.
  - intros w W. by apply list_elem_of_singleton in W.
  - intros w W. by apply list_elem_of_singleton in W.
  - intros _ ch W. by apply list_elem_of_singleton in W.
Qed.

Lemma viewer_inspect_inv (n : nat) (s : State) :
  inv s -> changes s !! n = Some Begun -> active s = true ->
  inv (with_changes (<[n := Inspected (current s)]> (changes s)) s).
Proof.
  intros I L A. destruct (holder_alone n _ s I L) as (B & -> & C & Q & X).
  apply (requests_inv s); cbn; rewrite ?C; cbn; try done.
  - pose proof (i_holders _ I) as H. by rewrite C in H.
  - intros w W. by apply list_elem_of_singleton in W.
  - intros p W. apply list_elem_of_singleton in W. right. congruence.
  - intros D. destruct (i_end _ I) as (Z1 & _ & _). destruct (ending (task s)) eqn:Y; [by rewrite Z1 in A|].
    by rewrite (ending_drained _ Y) in D.
Qed.

Lemma accepted_inv (n : nat) (previous : Uuid) (a : Acceptance) (s : State) :
  inv s -> changes s !! n = Some (Inspected previous) -> out_operation (a_target a) = Some (a_operation a) ->
  objects s !! out_id (a_target a) = None ->
  inv (with_changes (<[n := Accepted (mk_work (a_operation a) previous (out_id (a_target a)))]> (changes s))
         (with_objects (<[out_id (a_target a) := new_object (a_target a)]> (objects s)) s)).
Proof.
  intros I L O N. destruct (holder_alone n _ s I L) as (B & -> & C & Q & X).
  set (i := out_id (a_target a)) in *. set (s' := with_changes _ _).
  assert (N' : looks s !! i = None) by (unfold looks; by rewrite lookup_fmap, N).
  assert (E : looks s' = <[i := mk_look (a_target a) false false]> (looks s)) by (unfold looks; cbn; by rewrite fmap_insert).
  destruct (i_slot _ I) as [S1 S2].
  assert (D : current s <> i) by (intros D; apply S2, elem_of_dom in S1 as [? S1]; congruence).
  assert (M : i ∉ slot s) by (intros M; apply S2, elem_of_dom in M as [? M]; congruence).
  assert (K : forall j k, looks s' !! j = Some k -> k_runs k = true -> looks s !! j = Some k).
  { intros j k. rewrite E. by intros [[<- <-]|[_ W]]%lookup_insert_Some R. }
  assert (W : forall w, fresh None [Accepted (mk_work (a_operation a) previous i)] (task s) w ->
                w = mk_work (a_operation a) previous i).
  { intros w [F|F|F]; [apply list_elem_of_singleton in F; congruence|done|].
    apply undertaken_executes in X. congruence. }
  assert (P : previous = current s) by (apply (i_fresh _ I); rewrite C; by apply list_elem_of_singleton).
  split; rewrite ?E; cbn; rewrite ?C, ?Q; cbn; try done.
  - pose proof (i_holders _ I) as H. by rewrite C, Q in H.
  - split; [done|]. rewrite dom_insert. set_solver.
  - intros j k [[<- <-]|[_ F]]%lookup_insert_Some; [done|by apply I].
  - split; [|split].
    + intros w F%W. subst w. cbn. split; [done|]. split; [done|]. exists (mk_look (a_target a) false false).
      by rewrite lookup_insert_eq.
    + intros w [F|F]; [done|]. apply undertaken_executes in X. congruence.
    + intros p F. by apply list_elem_of_singleton in F.
  - pose proof (i_task _ I) as T. unfold I_task, unclean_at, clean_at in *.
    destruct (task s) as [|[]| | | | |? ? c| | | | | | | | | | |]; try done.
    + destruct T as (k & T & T'). exists k. rewrite lookup_insert_ne; [done|congruence].
    + destruct T as (-> & k & T & T'). split; [done|]. exists k. rewrite lookup_insert_ne; [done|congruence].
    + destruct T as ([k T1] & T2 & T3). assert (i <> i0) by congruence. rewrite lookup_insert_ne by done.
      split; [by exists k|done].
  - rewrite <- E. destruct (i_runs _ I) as [R1 R2].
    assert (G : forall j, only_runs (looks s) j -> only_runs (looks s') j).
    { intros j G j' k F R. by eapply G, R; apply K. }
    assert (G' : none_runs (looks s) -> none_runs (looks s')).
    { intros G' j k F. destruct (k_runs k) eqn:R; [|done]. rewrite (G' j k) in R by (by apply K). done. }
    split; [destruct R1 as [j R1]; exists j; auto|].
    destruct (task s) as [|[] []| | | | |? [] ?| | |[]| | | | | | | |]; auto. destruct R2 as [R2|R2]; auto.
  - rewrite <- E. destruct (i_end _ I) as (Z1 & Z2 & Z3). split; [done|]. split.
    + intros F. destruct (Z2 F) as [_ Z4]. specialize (Z4 (Inspected previous)). rewrite C in Z4.
      by discriminate (Z4 ltac:(by apply list_elem_of_singleton)).
    + destruct (task s) as [| | | | | |? [] ?| | | | | | | | | | |]; eauto.
      all: intros j k F; destruct (k_runs k) eqn:R; [|done]; rewrite (Z3 j k) in R by (by apply K); done.
Qed.

Lemma queue_inv (n : nat) (w : Work) (s s' : State) :
  inv s -> changes s !! n = Some (Accepted w) -> queue w s = Ok s' -> inv (with_changes (delete n (changes s)) s').
Proof.
  intros I L. destruct (holder_alone n _ s I L) as (B & -> & C & Q & X). unfold queue.
  rewrite B, Q. cbn. destruct (2 <=? _); [done|]. intros [= <-].
  destruct (i_fresh _ I) as (F1 & _ & _).
  assert (F : fresh (queued s) (changes s) (task s) w) by (apply fresh_change; rewrite C; by apply list_elem_of_singleton).
  destruct (F1 w F) as (P & T & k & M & O & Y). pose proof (i_holders _ I) as H. destruct (i_slot _ I) as [S1 S2].
  split; cbn; rewrite ?B, ?C; cbn; try apply I.
  - unfold I_holders in *. rewrite C, Q, B in H. cbn in *. lia.
  - split; [set_solver|]. apply union_subseteq. split; [|done]. apply singleton_subseteq_l, elem_of_dom. by exists k.
  - intros j k' L'. destruct (i_looks _ I j k' L') as (A1 & A2 & A3). split; [done|]. split; [done|]. set_solver.
  - assert (W : forall w', fresh (Some w) [] (task s) w' -> w' = w).
    { intros w' [G|G|G]; [by apply elem_of_nil in G|congruence|]. apply undertaken_executes in X. congruence. }
    split; [|split].
    + intros w' G%W. subst w'. split; [done|]. split; [done|]. by exists k.
    + intros w' [[= <-]|G]; [set_solver|]. apply undertaken_executes in X. congruence.
    + by intros p G%elem_of_nil.
  - destruct (i_end _ I) as (Z1 & Z2 & Z3). split; [done|]. split; [|done]. intros D. destruct (Z2 D). split; [done|].
    by intros ch G%elem_of_nil.
Qed.

Lemma fail_group_inv (s : State) : inv s -> inv (fail_group s).
Proof.
  intros I. apply (inv_frame s); try done; try apply I. by destruct (i_end _ I) as (Z1 & Z2 & Z3).
Qed.
Lemma viewer_cancel_inv (s : State) : inv s -> inv (cancel s).
Proof.
  intros I. apply (inv_frame s); try done; try apply I. destruct (i_runs _ I) as [R1 R2]. split; [done|]. cbn.
  destruct (task s) as [|[] []| | | | |? [] ?| | |[]| | | | | | | |]; auto.
Qed.
Lemma reports_inv (n : nat) (s : State) : inv s -> drained (task s) = false -> inv (with_reports n s).
Proof.
  intros I D. apply (inv_frame s); try done; try apply I. destruct (i_end _ I) as (Z1 & Z2 & Z3).
  split; [done|]. split; [|done]. cbn. by rewrite D.
Qed.

(** Processes that end *)
Lemma process_ends_inv (i : Uuid) (s : State) : inv s -> inv (change_object i (run_object false) s).
Proof.
  intros I. set (s' := change_object _ _ _). assert (E : looks s' = alter (run_look false) i (looks s)) by apply looks_run.
  assert (K : forall j k', looks s' !! j = Some k' -> exists k, looks s !! j = Some k /\ k_clean k' = k_clean k /\
                (k_runs k' = true -> k_runs k = true)).
  { intros j k'. rewrite E. intros [(-> & k & L & ->)|[_ L]]%lookup_alter_Some; [exists k|exists k']; done. }
  assert (G : forall j, only_runs (looks s) j -> only_runs (looks s') j).
  { intros j G j' k' L R. destruct (K j' k' L) as (k & L' & _ & R'). eapply G; eauto. }
  assert (G' : none_runs (looks s) -> none_runs (looks s')).
  { intros N j k' L. destruct (K j k' L) as (k & L' & _ & R). specialize (N j k L'). destruct (k_runs k'); [|done].
    by rewrite R in N. }
  assert (U : forall j, unclean_at (looks s) j -> unclean_at (looks s') j) by (intros j; rewrite E; apply unclean_alter).
  assert (C : forall j, clean_at (looks s) j -> clean_at (looks s') j).
  { intros j (k & L & C). rewrite E. destruct (decide (j = i)) as [->|N].
    - exists (run_look false k). by rewrite lookup_alter_eq, L.
    - exists k. by rewrite lookup_alter_ne. }
  apply (viewer_inv_alter (run_look false) i s s' I E); try done.
  - intros k L. do 3 (split; [done|]). by left.
  - pose proof (i_task _ I) as T. unfold I_task in *. cbn [task s' change_object with_objects].
    destruct (task s) as [|[]| | | | |? ? [[[]|]| |]| | | | | | | | | | |]; try done; auto.
    all: try (destruct T as [T1 T2]; auto; fail).
    all: destruct T as ([k T1] & T2 & T3); split; [rewrite E; destruct (decide (i0 = i)) as [->|];
      [rewrite lookup_alter_eq, T1|rewrite lookup_alter_ne by done]; eauto|auto].
  - destruct (i_runs _ I) as [R1 R2]. split; [destruct R1 as [j R1]; exists j; auto|].
    cbn. destruct (task s) as [|[] []| | | | |? [] ?| | |[]| | | | | | | |]; auto. destruct R2; auto.
  - destruct (i_end _ I) as (Z1 & Z2 & Z3). split; [done|]. split; [done|]. cbn.
    destruct (task s) as [| | | | | |? [] ?| | | | | | | | | | |]; auto.
    all: intros j k' L R; destruct (K j k' L) as (k & L' & _ & R'); eauto.
Qed.

Lemma other_inv (a : option Acceptance) (s s' : State) : inv s -> other digest s a s' -> inv s'.
Proof.
  intros I H. destruct H.
  - by apply begin_inv.
  - by apply viewer_inspect_inv.
  - by eapply drop_change_inv.
  - by eapply fail_group_inv, drop_change_inv.
  - apply (accepted_inv n previous a (with_db t s)); [by apply with_db_inv|done..].
  - eapply (drop_change_inv n _ (with_db t s)); [by apply with_db_inv|done].
  - eapply (drop_change_inv n _ (with_db t s)); [by apply with_db_inv|done].
  - by eapply queue_inv.
  - by eapply viewer_cancel_inv, drop_change_inv.
  - apply reports_inv; [done|]. destruct (drained (task s)) eqn:D; [|done]. destruct (i_end _ I) as (Z1 & _ & _).
    destruct (ending (task s)) eqn:Y; [by rewrite Z1 in H|]. by rewrite (ending_drained _ Y) in D.
  - apply (reports_inv n (with_db t s)); [by apply with_db_inv|]. cbn. destruct (drained (task s)) eqn:D; [|done].
    destruct (i_end _ I) as (_ & Z2 & _). destruct (Z2 D). congruence.
  - apply reports_inv; [done|]. destruct (drained (task s)) eqn:D; [|done].
    destruct (i_end _ I) as (_ & Z2 & _). destruct (Z2 D). congruence.
  - apply (inv_frame s); try done; try apply I. by apply looks_read.
  - apply (inv_frame s); try done; try apply I. by apply looks_read.
  - by apply process_ends_inv.
  - by apply viewer_cancel_inv.
  - by apply with_db_inv.
  - by apply with_db_inv.
Qed.

Lemma viewer_start_inv (r : Root) (o : Output) : inv (start r o).
Proof.
  assert (E : looks (start r o) = {[out_id o := mk_look o false false]}) by (unfold looks; cbn; by rewrite map_fmap_singleton).
  split; rewrite ?E; cbn; try done.
  - split; [set_solver|]. rewrite dom_singleton. set_solver.
  - by intros i k [<- <-]%lookup_singleton_Some.
  - by apply I_fresh_none.
  - exists (mk_look o false false). by rewrite lookup_singleton_eq.
  - assert (only_runs {[out_id o := mk_look o false false]} (out_id o)) by (by intros i k [<- <-]%lookup_singleton_Some).
    split; [by exists (out_id o)|done].
Qed.

Lemma step_inv_ (a : option Acceptance) (s s' : State) : inv s -> step digest s a s' -> inv s'.
Proof. intros I []; [by eapply run_inv|by eapply other_inv]. Qed.

Lemma viewer_reachable_inv (s : State) : reachable digest s -> inv s.
Proof.
  intros (r & o & _ & H). assert (I := viewer_start_inv r o). induction H as [|x y z [a H] _ IH]; [done|].
  by eapply IH, step_inv_.
Qed.
End Reachable.

End ViewersProofs.
