(* ===== verification/ViewersRows.v ===== *)
(** * Viewers that are reconfigured: their rows, and what follows

    The second layer of the invariant of Viewers: the rows of the tables, and the
    theorems. *)

From stdpp Require Import gmap relations.
From S2P Require Import Prelude Ladder Transcode Recovery Admission Revisions RevisionsProofs Viewers ViewersProofs.

Module ViewersRows.
Import Revisions RevisionsProofs Viewers ViewersProofs.

(** The state of the operation of a change, as the task has left it *)
Definition task_state (t : Task) : option (Work * OperationState) :=
  match t with
  | Retiring w => Some (w, P_accepted)
  | Cleaning _ (A_prepare w) _ | Prepared w => Some (w, P_retiring)
  | Preparing (Change_ w) _ | Cleaning _ (A_failed w) _ | Failing w => Some (w, P_preparing)
  | _ => None
  end.
Inductive live (q : option Work) (l : list Change) (t : Task) (w : Work) : OperationState -> Prop :=
| live_change : Accepted w ∈ l -> live q l t w P_accepted
| live_queued : q = Some w -> live q l t w P_accepted
| live_task st : task_state t = Some (w, st) -> live q l t w st.

(** An open row that counts what the object encodes *)
Definition row_open (t : Tables) (k : Look) : Prop :=
  exists r, outputs t !! out_id (k_output k) = Some r /\ resources_completed r = false /\
    o_encodes r = Admission.encodes (out_binding (k_output k)).

(** The objects that run, or may still be started *)
Inductive needed (s : State) (k : Look) : Prop :=
| needed_runs : k_runs k = true -> needed s k
| needed_fresh w : ending (task s) = false -> fresh (queued s) (changes s) (task s) w -> w_target w = out_id (k_output k) -> needed s k
| needed_first i g : task s = Preparing (First i) g -> i = out_id (k_output k) -> needed s k.

Record rows (s : State) : Prop := {
  b_sound : sound (db s);
  b_state : forall w st, live (queued s) (changes s) (task s) w st -> at_state st (w_operation w) (db s);
  b_open : forall i k, looks s !! i = Some k -> needed s k -> row_open (db s) k }.

(** *** Transactions *)

Lemma ran_cases {A} (f : Tables -> result (A * Tables) AdmissionError) (t t' : Tables) (r : result A AdmissionError) :
  ran f t r t' -> (exists e, r = Err e /\ t' = t) \/ exists a, f t = Ok (a, t') /\ forall a', r = Ok a' -> a' = a.
Proof.
  intros []; [right|left|right]; eauto; exists a; split; auto; congruence.
Qed.

Lemma unit_of_ok (f : Tables -> result Tables AdmissionError) (t t' : Tables) (a : unit) :
  unit_of f t = Ok (a, t') -> f t = Ok t'.
Proof. unfold unit_of. destruct (f t); [|done]. by intros [= _ ->]. Qed.

(** What the rows keep through a transaction *)
Definition through (X : Uuid -> Prop) (t t' : Tables) : Prop :=
  kept X t t' /\ forall i, steady i t t'.

Lemma through_refl (X : Uuid -> Prop) (t : Tables) : sound t -> through X t t.
Proof. intros B. split; [by split|]. intros i. by apply steady_same. Qed.

Lemma ran_through {A} (f : Tables -> result (A * Tables) AdmissionError) (X : Uuid -> Prop) (t t' : Tables) (r : result A AdmissionError) :
  sound t -> (forall a t', f t = Ok (a, t') -> through X t t') -> ran f t r t' -> through X t t'.
Proof.
  intros B H [(e & _ & ->)|(a & E & _)]%ran_cases; [by apply through_refl|by eapply H].
Qed.

Lemma row_open_kept (X : Uuid -> Prop) (t t' : Tables) (k : Look) :
  grows X t t' -> ~ X (out_id (k_output k)) -> row_open t k -> row_open t' k.
Proof.
  intros G N (r & L & C & E). destruct (gr_open _ _ _ G _ r L C) as (r' & L' & E' & [Y|Y]); [done|].
  exists r'. split; [done|]. split; [done|]. congruence.
Qed.

(** A step that changes nothing but the task, the rows and flags *)
Lemma rows_step (X : Uuid -> Prop) (s s' : State) :
  rows s -> through X (db s) (db s') ->
  (forall w st, live (queued s') (changes s') (task s') w st -> live (queued s) (changes s) (task s) w st) ->
  (forall i k, looks s' !! i = Some k -> needed s' k ->
    ~ X (out_id (k_output k)) /\ exists k0, looks s !! i = Some k0 /\ k_output k0 = k_output k /\ needed s k0) ->
  rows s'.
Proof.
  intros [B1 B2 B3] [[K1 K2] K3] H1 H2. split; [done| |].
  - intros w st L. by apply K3, B2, H1.
  - intros i k L N. destruct (H2 i k L N) as (NX & k0 & L0 & E & N0).
    assert (R : row_open (db s) k) by (destruct (B3 i k0 L0 N0) as (r & R); rewrite E in R; by exists r).
    by eapply row_open_kept.
Qed.

Lemma rows_same (X : Uuid -> Prop) (s s' : State) :
  rows s -> through X (db s) (db s') -> looks s' = looks s ->
  (forall w st, live (queued s') (changes s') (task s') w st -> live (queued s) (changes s) (task s) w st) ->
  (forall k, needed s' k -> ~ X (out_id (k_output k)) /\ needed s k) -> rows s'.
Proof.
  intros B K E H1 H2. apply (rows_step X s s' B K H1). intros i k L N. destruct (H2 k N). split; [done|].
  exists k. by rewrite <- E.
Qed.

(** A step that changes only the task *)
Lemma rows_task (s s' : State) :
  rows s -> db s' = db s -> looks s' = looks s ->
  (forall w st, live (queued s') (changes s') (task s') w st -> live (queued s) (changes s) (task s) w st) ->
  (forall k, needed s' k -> needed s k) -> rows s'.
Proof.
  intros B D E H1 H2. apply (rows_same none s s' B); auto. rewrite D. apply through_refl, B.
Qed.

Lemma rows_db (t : Tables) (s : State) : rows s -> through none (db s) t -> rows (with_db t s).
Proof.
  intros B T. apply (rows_same none s (with_db t s) B T); auto. intros k N. split; [by intros []|].
  destruct N; [by eapply needed_runs|by eapply needed_fresh|by eapply needed_first].
Qed.

Ltac at_task H := cbn in *; rewrite ?H in *; cbn in *; done.
Ltac keeps_live H :=
  let N := fresh in intros ? ? N; destruct N as [N|N|? N];
  [by apply live_change|by apply live_queued|apply live_task; at_task H].
Ltac keeps_needed H :=
  let N := fresh in let N2 := fresh in let N3 := fresh in
  intros ? N; destruct N as [N|? N N2 N3|? ? N N2];
  [by apply needed_runs
  |eapply needed_fresh; [at_task H| |exact N3]; destruct N2 as [N2|N2|N2];
     [by apply fresh_change|by apply fresh_queued|apply fresh_task; at_task H]
  |first [at_task H|(eapply needed_first; [cbn; rewrite ?H; reflexivity|cbn in N; congruence])]].
Ltac goes_on B H := apply (rows_task _ _ B); [done|try done|keeps_live H|keeps_needed H].

Section Rows.
Context (digest : ConfigurationResponse -> result string unit).

Lemma unprepared_rows (k : For) (g : Stage) (e : AdmissionError) (s : State) :
  rows s -> task s = Preparing k g -> rows (unprepared k e s).
Proof.
  intros B H. destruct k as [i|w]; cbn [unprepared]; [|case_bool_decide].
  - goes_on B H.
  - goes_on B H.
  - apply (rows_task s _ B); [done|by apply looks_start_clean|keeps_live H|keeps_needed H].
Qed.

Lemma after_clean_rows (i : Uuid) (a : After) (c : Clean) (r : result unit AdmissionError) (s : State) :
  rows s -> task s = Cleaning i a c -> rows (after_clean a r s).
Proof. intros B H. destruct a as [w|w| |rest], r as [[]|e]; cbn [after_clean]; goes_on B H. Qed.

Lemma drop_change_rows (n : nat) (s : State) : rows s -> rows (drop_change n s).
Proof.
  intros B. apply (rows_task s _ B); [done|done| |].
  - intros w st [N|N|st' N]; [apply live_change|by apply live_queued|by apply live_task].
    cbn in N. by eapply list_elem_of_delete_inv.
  - intros k [N|w N N2 N3|i g N N2]; [by apply needed_runs| |by eapply needed_first].
    eapply needed_fresh; [exact N| |exact N3]. destruct N2 as [N2|N2|N2]; [apply fresh_change|by apply fresh_queued|by apply fresh_task].
    cbn in N2. by eapply list_elem_of_delete_inv.
Qed.

(** *** Transactions that change no output's completion *)

Lemma publish_through (x : Around) (f : Found) (o : Output) (t t' : Tables) :
  in_life x -> sound t -> publish x f o t = Ok t' -> through none t t'.
Proof.
  intros R B H. split; [by eapply publish_kept|]. intros i. apply steady_none. by eapply publish_done.
Qed.
Lemma pure_through (f : Tables -> Tables) (t : Tables) :
  sound t -> (control (f t), outputs (f t), operations (f t)) = (control t, outputs t, operations t) ->
  r_source (root (f t)) = r_source (root t) -> r_4k (root (f t)) = r_4k (root t) -> through none t (f t).
Proof.
  intros B E R1 R2. injection E as E1 E2 E3. split; [|intros i; by apply steady_same].
  assert (S : stage none t (mk_tx (f t) [])).
  { destruct (stage_begin none t (so_rows _ B)) as [[A1 A2 A3 A4] A5 A6 A7 A8 A9 A10 A11]. split; cbn; rewrite ?E1, ?E2, ?E3; auto.
    split; rewrite ?E1, ?E2, ?E3; auto. intros j p L Q. specialize (A4 j p L Q).
    rewrite output_open_false in *. by rewrite E2. }
  split; [|exact (stage_grows none t _ S)].
  apply (committed_sound (mk_around 0 false false None 0 0 0 0) none t (mk_tx (f t) []) eq_refl B S).
  - by apply settled_same.
  - by intros u ?%elem_of_nil.
Qed.

Lemma stop_root_through (t : Tables) : sound t -> through none t (stop_root t).
Proof. intros B. apply pure_through; try done; unfold stop_root; by destruct (root_open (root t)). Qed.
Lemma failed_through (t : Tables) : sound t -> through none t (failed t).
Proof. intros B. apply pure_through; try done; unfold failed; by destruct (root_open (root t)). Qed.
Lemma uncertain_root_through (t : Tables) : sound t -> through none t (uncertain_root t).
Proof. intros B. apply pure_through; try done; unfold uncertain_root; by destruct (r_completed (root t)). Qed.

Lemma through_all (X : Uuid -> Prop) (t t' : Tables) : through none t t' -> through X t t'.
Proof.
  intros [[S [G1 G2]] T]. split; [|done]. split; [done|]. split; [done|]. intros i o L C.
  destruct (G2 i o L C) as (o' & ? & ? & [[]|]). eauto 6.
Qed.

(** The task has the guard: no other change is live. *)
Lemma executes_alone (s : State) : inv s -> executes (task s) = true -> changes s = [] /\ queued s = None.
Proof.
  intros I X. pose proof (i_holders _ I) as H. unfold I_holders in H. rewrite X in H. cbn in H.
  destruct (busy s); [|cbn in H; lia]. destruct (queued s); cbn in H; [lia|]. by destruct (changes s); cbn in H; [|lia].
Qed.

Lemma setup_rows (x : Around) (o : Object) (r : result unit AdmissionError) (t : Tables) (s : State) :
  inv s -> rows s -> task s = Setting_up -> in_life x -> objects s !! current s = Some o ->
  ran (unit_of (setup x (output_ o))) (db s) r t ->
  rows (with_task (if is_ok r then Preparing (First (current s)) G_check else Failing_first) (with_db t s)).
Proof.
  intros I B H R L T.
  assert (K : through none (db s) t).
  { eapply ran_through; [apply B| |exact T]. intros a t' E%unit_of_ok. split; [by eapply setup_kept; eauto; apply B|].
    intros i. apply steady_none. by eapply setup_control. }
  assert (B' : rows (with_db t s)) by (by apply rows_db).
  destruct r as [[]|e]; cbn [is_ok].
  - apply ran_cases in T as [(e & ? & _)|([] & E%unit_of_ok & _)]; [done|].
    split; [apply B'| |].
    + intros w st [N|N|st' N]; [apply B'; by apply live_change|apply B'; by apply live_queued|done].
    + intros i k M [N|w N1 N2 N3|j g N1 N2].
      * apply (b_open _ B' i k M). by apply needed_runs.
      * apply (b_open _ B' i k M). eapply needed_fresh; [cbn; by rewrite H| |exact N3].
        destruct N2 as [N2|N2|N2]; [by apply fresh_change|by apply fresh_queued|done].
      * cbn in N1. injection N1 as <- <-. change (looks s !! i = Some k) in M.
        destruct (i_looks _ I i k M) as (O & _). apply looks_some in L. assert (i = current s) as -> by congruence.
        rewrite L in M. injection M as <-. destruct (setup_control _ _ _ _ E) as [_ (q & Q)]. exists q. exact Q.
  - goes_on B' H.
Qed.

Lemma moved_rows (w : Work) (st : OperationState) (t' : Task) (s s' : State) :
  inv s -> rows s -> executes (task s) = true -> kept none (db s) (db s') ->
  (looks s', queued s', changes s', task s') = (looks s, queued s, changes s, t') -> undertaken (task s) = Some w ->
  ending (task s) = false -> (forall i g, t' <> Preparing (First i) g) ->
  undertaken t' = Some w -> task_state t' = Some (w, st) -> at_state st (w_operation w) (db s') -> rows s'.
Proof.
  intros I B X T E U Y F U' S A. destruct (executes_alone s I X) as [C Q]. injection E as E1 E2 E3 E4.
  destruct T as [T1 T2]. split; [done| |]; rewrite ?E1, ?E2, ?E3, ?E4.
  - intros w' st'. rewrite C, Q. intros [N%elem_of_nil|N|st2 N]; [done|done|].
    rewrite S in N. by injection N as <- <-.
  - intros i k L N. eapply row_open_kept; [exact T2|by intros []|]. apply (b_open _ B i k L).
    destruct N as [N|w' N N2 N3|j g N N2]; [by apply needed_runs| |].
    + eapply needed_fresh; [exact Y| |exact N3]. rewrite E2, E3, E4 in N2.
      destruct N2 as [N2|N2|N2]; [by apply fresh_change|by apply fresh_queued|]. apply fresh_task. congruence.
    + rewrite E4 in N. by destruct (F j g).
Qed.

Lemma started_rows (k : For) (b : bool) (s : State) :
  inv s -> rows s -> task s = Preparing k G_start ->
  rows (with_task (Preparing k G_identity) (change_object (target k) (run_object b) s)).
Proof.
  intros I B H. set (s' := with_task _ _).
  assert (E : looks s' = alter (run_look b) (target k) (looks s)) by apply looks_run.
  apply (rows_step none s s' B); [apply through_refl, B|destruct k; keeps_live H|].
  intros i l L N. split; [by intros []|]. rewrite E in L. apply lookup_alter_Some in L as [(<- & l0 & L & ->)|[M L]].
  - exists l0. split; [done|]. split; [done|]. destruct (i_looks _ I _ _ L) as (O & _). destruct k as [i|w].
    + eapply needed_first; [exact H|done].
    + eapply needed_fresh; [by rewrite H|apply fresh_task; by rewrite H|done].
  - exists l. split; [done|]. split; [done|].
    destruct N as [N|w N1 N2 N3|j g N1 N2]; [by apply needed_runs| |].
    + eapply needed_fresh; [by rewrite H| |exact N3].
      destruct N2 as [N2|N2|N2]; [by apply fresh_change|by apply fresh_queued|apply fresh_task; rewrite H; by destruct k].
    + destruct k; [|done]. eapply needed_first; [exact H|]. cbn in N1. congruence.
Qed.

Lemma unavailable_through (x : Around) (i : Uuid) (r : result bool AdmissionError) (t t' : Tables) :
  in_life x -> sound t -> ran (unavailable x i) t r t' -> through none t t'.
Proof.
  intros R B H. eapply ran_through; [done| |exact H]. intros b t2 E. split; [by eapply unavailable_kept|].
  intros j. by eapply unavailable_steady.
Qed.

Lemma ran_kept {A} (f : Tables -> result (A * Tables) AdmissionError) (X : Uuid -> Prop) (t t' : Tables) (r : result A AdmissionError) :
  sound t -> (forall a t', f t = Ok (a, t') -> kept X t t') -> ran f t r t' -> kept X t t'.
Proof. intros B H [(e & _ & ->)|(a & E & _)]%ran_cases; [by split|by eapply H]. Qed.

(** A change that comes to its end *)
Lemma finishing_rows (r : result unit AdmissionError) (t : Tables) (s : State) :
  inv s -> rows s -> executes (task s) = true -> kept none (db s) t -> rows (with_task (Finishing r) (with_db t s)).
Proof.
  intros I B X [T1 T2]. destruct (executes_alone s I X) as [C Q]. split; [done| |].
  - intros w st [N|N|st' N]; cbn in *; [rewrite C in N; by apply elem_of_nil in N|congruence|done].
  - intros i k L N. eapply row_open_kept; [exact T2|by intros []|]. apply (b_open _ B i k L).
    destruct N as [N|w N1 N2 N3|j g N1 N2]; [by apply needed_runs| |done]. destruct N2 as [N2|N2|N2]; cbn in N2.
    + rewrite C in N2. by apply elem_of_nil in N2.
    + congruence.
    + done.
Qed.

(** The processes that run, or may be started, are not those of a clean object. *)
Lemma alter_rows (i : Uuid) (g : Look -> Look) (s s' : State) :
  rows s -> db s' = db s -> looks s' = alter g i (looks s) ->
  (forall k, looks s !! i = Some k -> k_output (g k) = k_output k /\ (k_runs (g k) = true -> k_runs k = true)) ->
  (forall w st, live (queued s') (changes s') (task s') w st -> live (queued s) (changes s) (task s) w st) ->
  (forall k k0, k_output k0 = k_output k -> (k_runs k = true -> k_runs k0 = true) -> needed s' k -> needed s k0) -> rows s'.
Proof.
  intros B D E G H1 H2. apply (rows_step none s s' B); [rewrite D; apply through_refl, B|done|].
  intros j k L N. split; [by intros []|]. rewrite E in L. apply lookup_alter_Some in L as [(<- & k0 & L & ->)|[M L]].
  - exists k0. destruct (G k0 L) as [O R]. split; [done|]. split; [done|]. by apply (H2 (g k0)).
  - exists k. split; [done|]. split; [done|]. by apply (H2 k).
Qed.

Ltac keeps_needed_of H :=
  let N := fresh in let N2 := fresh in let N3 := fresh in let O := fresh in let R := fresh in
  intros ? ? O R N; destruct N as [N|? N N2 N3|? ? N N2];
  [by apply needed_runs, R
  |eapply needed_fresh; [at_task H| |rewrite O; exact N3]; destruct N2 as [N2|N2|N2];
     [by apply fresh_change|by apply fresh_queued|apply fresh_task; at_task H]
  |first [at_task H|(eapply needed_first; [cbn; rewrite ?H; reflexivity|cbn in N; congruence])]].

(** The row of an object that is clean is completed. *)
Lemma completing_rows (i : Uuid) (a : After) (o : Object) (x : Around) (failure : option string)
    (r : result unit AdmissionError) (t : Tables) (s : State) :
  inv s -> rows s -> task s = Cleaning i a Completing -> in_life x -> objects s !! i = Some o ->
  ran (unit_of (complete_output x (output_ o) failure)) (db s) r t -> rows (with_db t s).
Proof.
  intros I B H R L T. assert (K : through (only (out_id (output_ o))) (db s) t).
  { eapply ran_through; [apply B| |exact T]. intros u t' E%unit_of_ok. split; [eapply complete_output_kept; eauto; apply B|].
    intros j. by eapply complete_output_steady. }
  apply (rows_step _ s (with_db t s) B K); [intros w st N; exact N|]. intros j k M N. split; [|exists k; repeat split; [exact M|]].
  2:{ destruct N; [by eapply needed_runs|by eapply needed_fresh|by eapply needed_first]. }
  unfold only. intros E. apply looks_some in L. change (looks s !! j = Some k) in M.
  destruct (i_looks _ I _ _ M) as (O1 & W & _). destruct (i_looks _ I _ _ L) as (O2 & _). cbn in O2.
  assert (j = i) as -> by congruence. pose proof (i_task _ I) as Z. rewrite H in Z. destruct Z as (_ & _ & k2 & L2 & C).
  assert (k2 = k) as -> by congruence. destruct N as [N|w N1 N2 N3|j g N1 N2].
  - by rewrite W in N.
  - destruct (i_fresh _ I) as (F1 & _ & _). destruct (F1 w N2) as (_ & _ & k3 & L3 & _ & C3).
    rewrite O1 in N3. rewrite N3, M in L3. injection L3 as <-. by rewrite C3 in C.
  - cbn in N1. congruence.
Qed.

Lemma cleanup_rows (x : Around) (r : result unit AdmissionError) (t : Tables) (s : State) :
  inv s -> rows s -> task s = Completing_all -> in_life x -> ran (unit_of (cleanup x)) (db s) r t -> rows (with_db t s).
Proof.
  intros I B H R T. assert (K : through all (db s) t).
  { eapply ran_through; [apply B| |exact T]. intros u t' E%unit_of_ok. split; [eapply cleanup_ended; eauto; apply B|].
    intros j. eapply cleanup_steady; eauto. apply B. }
  apply (rows_step _ s (with_db t s) B K); [intros w st N; exact N|]. intros j k M N. exfalso.
  destruct (i_end _ I) as (_ & _ & Z). rewrite H in Z. destruct N as [N|w N1 N2 N3|j' g N1 N2].
  - by rewrite (Z j k M) in N.
  - cbn in N1. by rewrite H in N1.
  - cbn in N1. congruence.
Qed.

Lemma run_rows (s s' : State) : inv s -> rows s -> run s s' -> rows s'.
Proof.
  intros I B H. pose proof (b_sound _ B) as S. destruct H.
  - by eapply setup_rows.
  - assert (B' : rows (with_db t s)).
    { apply rows_db; [done|]. eapply ran_through; [done| |exact H0]. intros a t' [= <- <-]. by apply failed_through. }
    goes_on B' H.
  - by eapply unprepared_rows.
  - destruct k; goes_on B H.
  - destruct k; goes_on B H.
  - by apply started_rows.
  - pose proof (started_rows k b s I B H) as J. exact (unprepared_rows k G_identity e _ J eq_refl).
  - destruct k; goes_on B H.
  - by eapply unprepared_rows.
  - assert (B' : rows (with_db t s)).
    { apply rows_db; [done|]. eapply ran_through; [done| |exact H2]. intros a t' E%unit_of_ok. by eapply publish_through. }
    destruct k; goes_on B' H.
  - assert (B' : rows (with_db t s)).
    { apply rows_db; [done|]. eapply ran_through; [done| |exact H2]. intros a t' E%unit_of_ok. by eapply publish_through. }
    by eapply unprepared_rows.
  - unfold promote in H0. destruct (active s); [|done]. injection H0 as <-.
    set (s1 := change_object _ _ _).
    assert (E : looks s1 = looks s) by apply (looks_publish (target k) (with_slot (target k) (slot s) (busy s) (queued s) s)).
    destruct k; (apply (rows_task s _ B); [done|exact E|keeps_live H|keeps_needed H]).
  - by eapply unprepared_rows.
  - apply (rows_task s _ B); [done|apply looks_stop_all|keeps_live H|keeps_needed H].
  - apply (rows_task s _ B); [done|apply (looks_retire (w_previous w) (with_slot (current s) (slot s) (busy s) None s))| |].
    + intros w' st [N|N|st' N]; [by apply live_change|done|]. cbn in N. injection N as <- <-. by apply live_queued.
    + intros k [N|w' N1 N2 N3|j g N1 N2]; [by apply needed_runs| |done]. eapply needed_fresh; [by rewrite H| |exact N3].
      destruct N2 as [N2|N2|N2]; [by apply fresh_change|done|]. cbn in N2. injection N2 as <-. by apply fresh_queued.
  - goes_on B H.
  - goes_on B H.
  - goes_on B H.
  - assert (B' : rows (with_db t s)) by (apply rows_db; [done|by eapply unavailable_through]).
    apply (rows_task _ _ B'); [done|by apply looks_start_clean|keeps_live H|keeps_needed H].
  - assert (B' : rows (with_db t s)) by (apply rows_db; [done|by eapply unavailable_through]). goes_on B' H.
  - assert (B' : rows (with_db t s)) by (apply rows_db; [done|by eapply unavailable_through]). goes_on B' H.
  - apply ran_cases in H1 as [(e & ? & _)|([] & E%unit_of_ok & _)]; [done|].
    apply (moved_rows w P_retiring (Cleaning (w_previous w) (A_prepare w) (Joining None None)) s _ I B); rewrite ?H; try done.
    + by eapply retire_kept.
    + change (looks (start_clean (w_previous w) (A_prepare w) (with_db t s))) with
        (looks (change_object (w_previous w) retire_object s)). by rewrite looks_retire.
    + eapply retire_state; [|exact E]. apply (b_state _ B w). apply live_task. by rewrite H.
  - apply finishing_rows; [done|done|by rewrite H|]. eapply ran_kept; [done| |exact H1].
    intros a t' E%unit_of_ok. by eapply retire_kept.
  - apply (alter_rows i clean_look s _ B); [done|apply looks_clean|done|keeps_live H|keeps_needed_of H].
  - apply (alter_rows i (run_look (b && o_running o)) s _ B); [done|apply looks_run| |keeps_live H|keeps_needed_of H].
    intros k L. apply looks_some in H0. rewrite L in H0. injection H0 as ->. split; [done|]. cbn.
    by intros [_ ?]%andb_true_iff.
  - goes_on B H.
  - goes_on B H.
  - assert (B' : rows (with_db t s)).
    { apply rows_db; [done|]. eapply ran_through; [done| |exact H2]. intros u t' E%unit_of_ok.
      split; [by eapply uncertain_output_kept|]. intros j. by eapply uncertain_output_steady. }
    by eapply after_clean_rows.
  - eapply after_clean_rows; [by eapply completing_rows|exact H].
  - goes_on B H.
  - apply ran_cases in H2 as [(e & ? & _)|([] & E%unit_of_ok & _)]; [done|].
    apply (moved_rows w P_preparing (Preparing (Change_ w) G_check) s _ I B); rewrite ?H; try done.
    + by eapply prepare_kept.
    + eapply prepare_state; [|exact E]. apply (b_state _ B w). apply live_task. by rewrite H.
  - apply finishing_rows; [done|done|by rewrite H|]. eapply ran_kept; [done| |exact H2].
    intros a t' E%unit_of_ok. by eapply prepare_kept.
  - apply finishing_rows; [done|done|by rewrite H|]. eapply ran_kept; [done| |exact H1].
    intros a t' E%unit_of_ok. eapply fail_kept; eauto. apply (b_state _ B w). apply live_task. by rewrite H.
  - apply (rows_task s _ B).
    + unfold executed. by destruct r.
    + unfold executed. by destruct r.
    + unfold executed. destruct r; keeps_live H.
    + unfold executed. destruct r; keeps_needed H.
  - destruct (group_failed s); goes_on B H.
  - apply (rows_task s _ B); [done|by apply looks_start_clean|keeps_live H|keeps_needed H].
  - goes_on B H.
  - assert (B' : rows (with_db t s)) by (by eapply cleanup_rows). goes_on B' H.
  - assert (B' : rows (with_db t s)) by (by eapply cleanup_rows). goes_on B' H.
  - assert (B' : rows (with_db t s)).
    { apply rows_db; [done|]. eapply ran_through; [done| |exact H0]. intros a t' [= <- <-]. by apply uncertain_root_through. }
    goes_on B' H.
  - goes_on B H.
Qed.

(** *** Steps of the requests *)

(** Only the requests change: none is accepted. *)
Lemma requests_rows (s s' : State) :
  rows s -> db s' = db s -> looks s' = looks s -> queued s' = queued s -> task s' = task s ->
  (forall w, Accepted w ∈ changes s' -> Accepted w ∈ changes s) -> rows s'.
Proof.
  intros B D E Q T A. apply (rows_task s s' B D E); rewrite ?Q, ?T.
  - intros w st [N|N|st' N]; [by apply live_change, A|by apply live_queued|by apply live_task].
  - intros k [N|w N1 N2 N3|i g N1 N2]; [by apply needed_runs| |eapply needed_first; [by rewrite <- T|done]].
    eapply needed_fresh; [by rewrite <- T| |exact N3]. rewrite Q, T in N2.
    destruct N2 as [N2|N2|N2]; [by apply fresh_change, A|by apply fresh_queued|by apply fresh_task].
Qed.

Lemma accepted_rows (n : nat) (previous : Uuid) (x : Around) (k : Context_) (a : Acceptance)
    (t : Tables) (s : State) :
  inv s -> rows s -> changes s !! n = Some (Inspected previous) -> in_life x ->
  out_operation (a_target a) = Some (a_operation a) -> objects s !! out_id (a_target a) = None ->
  accept digest x k a (db s) = Ok (true, t) ->
  rows (with_changes (<[n := Accepted (mk_work (a_operation a) previous (out_id (a_target a)))]> (changes s))
         (with_objects (<[out_id (a_target a) := new_object (a_target a)]> (objects s)) (with_db t s))).
Proof.
  intros I B L R O N A. destruct (holder_alone n _ s I L) as (_ & -> & C & Q & X).
  destruct (accept_true _ _ _ _ _ _ A) as (c & C0 & A'). pose proof (b_sound _ B) as S.
  destruct (accept_new_kept _ _ _ _ _ _ _ R O S C0 A') as [[K1 K2] _].
  destruct (accept_new_control _ _ _ _ _ _ _ C0 A') as (E1 & E2 & E3 & _).
  set (i := out_id (a_target a)) in *. set (w := mk_work (a_operation a) previous i). set (s' := with_changes _ _).
  assert (E : looks s' = <[i := mk_look (a_target a) false false]> (looks s)) by (unfold looks; cbn; by rewrite fmap_insert).
  apply undertaken_executes in X as U.
  split; [done| |].
  - cbn. rewrite C, Q. cbn. intros w' st [M|M|st' M]; [|done|].
    + apply list_elem_of_singleton in M. injection M as ->. intros c' _ _. cbn. rewrite E2, lookup_insert_eq. by eexists.
    + exfalso. destruct (task s) as [|[]| | | | |? []| | | | | | | | | | |]; done.
  - intros j l. rewrite E. intros [[<- <-]|[D M]]%lookup_insert_Some Z.
    + exists (new_row (out_operation (a_target a)) (out_generation (a_target a)) (out_binding (a_target a)) (out_configuration (a_target a))).
      cbn. fold i. by rewrite E3, lookup_insert_eq.
    + eapply row_open_kept; [exact K2|by intros []|]. apply (b_open _ B j l M).
      destruct (i_looks _ I _ _ M) as (O1 & _).
      destruct Z as [Z|w' Z1 Z2 Z3|j' g Z1 Z2]; [by apply needed_runs| |by eapply needed_first].
      exfalso. cbn in Z2. rewrite C, Q in Z2. cbn in Z2. destruct Z2 as [Z2|Z2|Z2]; [|done|cbn in Z2; congruence].
      apply list_elem_of_singleton in Z2. injection Z2 as ->. cbn in Z3. congruence.
Qed.

(** A transaction of a request that ends, or that changed nothing *)
Lemma dropped_rows (n : nat) (ch : Change) (t : Tables) (s : State) :
  inv s -> rows s -> changes s !! n = Some ch -> kept none (db s) t -> rows (drop_change n (with_db t s)).
Proof.
  intros I B L [T1 T2]. destruct (holder_alone n _ s I L) as (_ & -> & C & Q & X).
  apply undertaken_executes in X as U. split; [done| |].
  - cbn. rewrite C, Q. cbn. intros w' st [M|M|st' M]; [by apply elem_of_nil in M|done|].
    exfalso. destruct (task s) as [|[]| | | | |? []| | | | | | | | | | |]; done.
  - intros i k M N. eapply row_open_kept; [exact T2|by intros []|]. apply (b_open _ B i k M).
    destruct N as [N|w N1 N2 N3|j g N1 N2]; [by apply needed_runs| |by eapply needed_first].
    exfalso. cbn in N2. rewrite C, Q in N2. cbn in N2. destruct N2 as [N2|N2|N2]; [by apply elem_of_nil in N2|done|cbn in N2; congruence].
Qed.

Lemma other_rows (a : option Acceptance) (s s' : State) : inv s -> rows s -> other digest s a s' -> rows s'.
Proof.
  intros I B H. pose proof (b_sound _ B) as S. destruct H.
  - unfold begin_ in H. destruct (_ || _); [done|]. destruct (busy s); [done|]. injection H as <-.
    apply (requests_rows s); try done. cbn. intros w [M|M]%elem_of_app; [done|]. by apply list_elem_of_singleton in M.
  - apply (requests_rows s); try done. cbn. intros w M. destruct (holder_alone n _ s I H) as (_ & -> & C & _).
    rewrite C in M. cbn in M. by apply list_elem_of_singleton in M.
  - by apply drop_change_rows.
  - apply (requests_rows (drop_change n s)); try done. by apply drop_change_rows.
  - apply ran_cases in H5 as [(e & ? & _)|(b & E & Z)]; [done|]. specialize (Z true eq_refl) as <-.
    by eapply accepted_rows.
  - eapply dropped_rows; [done|done|exact H|]. eapply ran_kept; [done| |exact H2]. intros b t' E. by eapply accept_kept.
  - eapply dropped_rows; [done|done|exact H|]. by eapply accept_kept.
  - pose proof H as L. destruct (holder_alone n _ s I L) as (Hb & -> & C & Q & X). unfold queue in H0.
    rewrite Hb, Q in H0. cbn in H0. destruct (2 <=? _); [done|]. injection H0 as <-.
    apply (rows_task s _ B); [done|done| |]; cbn; rewrite C; cbn.
    + intros w' st [M|M|st' M]; [by apply elem_of_nil in M| |by apply live_task].
      injection M as <-. apply live_change. by apply list_elem_of_singleton.
    + intros k [N|w' N1 N2 N3|j g N1 N2]; [by apply needed_runs| |by eapply needed_first].
      eapply needed_fresh; [exact N1| |exact N3]. cbn in N2. rewrite C in *.
      destruct N2 as [N2|N2|N2]; [by apply elem_of_nil in N2| |by apply fresh_task].
      injection N2 as <-. apply fresh_change. by apply list_elem_of_singleton.
  - apply (requests_rows (drop_change n s)); try done. by apply drop_change_rows.
  - by apply (requests_rows s).
  - apply (requests_rows (with_db t s)); try done. apply rows_db; [done|]. eapply ran_through; [done| |exact H2].
    intros u t' E%unit_of_ok. split; [by eapply report_kept|]. intros j. by eapply report_steady.
  - by apply (requests_rows s).
  - apply (requests_rows s); try done. by apply looks_read.
  - apply (requests_rows s); try done. by apply looks_read.
  - apply (alter_rows i (run_look false) s _ B); [done|apply looks_run|done|done|].
    intros k k0 O R [N|w N1 N2 N3|j g N1 N2]; [by apply needed_runs, R|eapply needed_fresh; [done..|by rewrite O]|].
    eapply needed_first; [done|by rewrite O].
  - by apply (requests_rows s).
  - apply rows_db; [done|]. by apply stop_root_through.
  - apply rows_db; [done|]. split; [by eapply prune_kept|]. intros j. by eapply prune_keeps_steady.
Qed.

Lemma start_rows (r : Root) (o : Output) : rows (start r o).
Proof.
  split; cbn.
  - split; cbn; try done.
  - intros w st [N|N|st' N]; [by apply elem_of_nil in N|done..].
  - intros i k L. unfold looks in L. cbn in L. rewrite map_fmap_singleton in L.
    apply lookup_singleton_Some in L as [<- <-]. intros [N|w _ N _|j g N _]; [done| |done].
    exfalso. by destruct N as [N%elem_of_nil| |].
Qed.

Lemma reachable_rows (s : State) : reachable digest s -> inv s /\ rows s.
Proof.
  intros (r & o & _ & H). assert (I := viewer_start_inv r o). assert (B := start_rows r o).
  induction H as [|x y z [a H] _ IH]; [done|]. apply IH; [by eapply step_inv_|].
  destruct H; [by eapply run_rows|by eapply other_rows].
Qed.
End Rows.

End ViewersRows.
