(* ===== verification/ViewersTheorems.v ===== *)
(** * Viewers that are reconfigured: theorems

    What holds of every viewer, whatever its requests, its processes and the
    database do; and a viewer that is changed, as an example. *)

From stdpp Require Import gmap relations.
From S2P Require Import Prelude Ladder Transcode Recovery Admission Revisions RevisionsProofs Viewers ViewersProofs ViewersRows.

Module ViewersTheorems.
Import Revisions RevisionsProofs Viewers ViewersProofs ViewersRows.

(** *** Tags *)




Section Theorems.
Context (digest : ConfigurationResponse -> result string unit).


(** A step never goes back to an older revision. *)
Definition later (t t' : Tables) : Prop :=
  forall c, control t = Some c -> exists c', control t' = Some c' /\ revision c <= revision c'.

Lemma later_rows_refl (t : Tables) : later t t.
Proof. intros c C. exists c. split; [done|lia]. Qed.
Lemma later_kept (X : Uuid -> Prop) (t t' : Tables) : kept X t t' -> later t t'.
Proof. intros [_ G]. exact (gr_later _ _ _ G). Qed.

Lemma ran_later {A} (f : Tables -> result (A * Tables) AdmissionError) (X : Uuid -> Prop) (t t' : Tables) (r : result A AdmissionError) :
  sound t -> ran f t r t' -> (forall a t', f t = Ok (a, t') -> kept X t t') -> later t t'.
Proof. intros B H K. by eapply later_kept, ran_kept. Qed.

Lemma unprepared_db (k : For) (e : AdmissionError) (s : State) : db (unprepared k e s) = db s.
Proof. destruct k; cbn; [done|]. by case_bool_decide. Qed.
Lemma after_clean_db (a : After) (r : result unit AdmissionError) (s : State) : db (after_clean a r s) = db s.
Proof. by destruct a, r. Qed.

Lemma run_later (s s' : State) : rows s -> run s s' -> later (db s) (db s').
Proof.
  intros B H. pose proof (b_sound _ B) as S. destruct H; rewrite ?unprepared_db, ?after_clean_db; cbn; try apply later_rows_refl.
  - eapply ran_later; [done|eassumption|]. intros u t' E%unit_of_ok. by eapply setup_kept.
  - eapply ran_later; [done|eassumption|]. intros u t' [= <- <-]. by apply failed_through.
  - eapply ran_later; [done|eassumption|]. intros u t' E%unit_of_ok. by eapply publish_kept.
  - eapply ran_later; [done|eassumption|]. intros u t' E%unit_of_ok. by eapply publish_kept.
  - unfold promote in H0. destruct (active s); [|done]. injection H0 as <-. destruct k; apply later_rows_refl.
  - eapply ran_later; [done|eassumption|]. intros u t' E. by eapply unavailable_kept.
  - eapply ran_later; [done|eassumption|]. intros u t' E. by eapply unavailable_kept.
  - eapply ran_later; [done|eassumption|]. intros u t' E. by eapply unavailable_kept.
  - eapply ran_later; [done|eassumption|]. intros u t' E%unit_of_ok. by eapply retire_kept.
  - eapply ran_later; [done|eassumption|]. intros u t' E%unit_of_ok. by eapply retire_kept.
  - eapply ran_later; [done|eassumption|]. intros u t' E%unit_of_ok. by eapply uncertain_output_kept.
  - eapply ran_later; [done|eassumption|]. intros u t' E%unit_of_ok. by eapply complete_output_kept.
  - eapply ran_later; [done|eassumption|]. intros u t' E%unit_of_ok. by eapply prepare_kept.
  - eapply ran_later; [done|eassumption|]. intros u t' E%unit_of_ok. by eapply prepare_kept.
  - eapply ran_later; [done|eassumption|]. intros u t' E%unit_of_ok. eapply fail_kept; eauto.
    apply (b_state _ B w). apply live_task. by rewrite H.
  - unfold executed. destruct r; apply later_rows_refl.
  - eapply ran_later; [done|eassumption|]. intros u t' E%unit_of_ok. by eapply cleanup_ended.
  - eapply ran_later; [done|eassumption|]. intros u t' E%unit_of_ok. by eapply cleanup_ended.
  - eapply ran_later; [done|eassumption|]. intros u t' [= <- <-]. by apply uncertain_root_through.
Qed.

Lemma other_later (a : option Acceptance) (s s' : State) : rows s -> other digest s a s' -> later (db s) (db s').
Proof.
  intros B H. pose proof (b_sound _ B) as S. destruct H; cbn; try apply later_rows_refl.
  - unfold begin_ in H. destruct (_ || _); [done|]. destruct (busy s); [done|]. injection H as <-. apply later_rows_refl.
  - eapply ran_later; [done|eassumption|]. intros u t' E. by eapply accept_kept.
  - eapply ran_later; [done|eassumption|]. intros u t' E. by eapply accept_kept.
  - eapply later_kept. by eapply accept_kept.
  - unfold queue in H0. destruct (_ || _); [done|]. injection H0 as <-. apply later_rows_refl.
  - eapply ran_later; [done|eassumption|]. intros u t' E%unit_of_ok. by eapply report_kept.
  - eapply later_kept. by apply stop_root_through.
  - eapply later_kept. by eapply prune_kept.
Qed.

Lemma step_kept (a : option Acceptance) (s s' : State) :
  inv s -> rows s -> step digest s a s' -> inv s' /\ rows s' /\ later (db s) (db s').
Proof.
  intros I B H. split; [by eapply step_inv_|]. destruct H.
  - split; [by eapply run_rows|by apply run_later].
  - split; [by eapply other_rows|by eapply other_later].
Qed.



(** *** The end *)

Definition returned (s : State) : Prop := task s = Returned -> ended (db s) /\ r_completed (root (db s)) = true.

Lemma ended_same (t t' : Tables) :
  (control t', outputs t', operations t') = (control t, outputs t, operations t) -> ended t -> ended t'.
Proof. intros E [A B C]. injection E as E1 E2 E3. split; rewrite ?E1, ?E2, ?E3; auto. Qed.

Lemma run_returned (s s' : State) : inv s -> rows s -> run s s' -> returned s'.
Proof.
  intros I B H. unfold returned. destruct H; cbn; try done.
  - by destruct (is_ok r).
  - by destruct k; cbn; [|case_bool_decide].
  - by destruct k; cbn; [|case_bool_decide].
  - by destruct k; cbn; [|case_bool_decide].
  - by destruct k; cbn; [|case_bool_decide].
  - by destruct k.
  - by destruct k; cbn; [|case_bool_decide].
  - by destruct a.
  - by destruct a, r.
  - by destruct (group_failed s).
  - intros _. apply ran_cases in H1 as [(e & ? & _)|([] & E%unit_of_ok & _)]; [done|].
    destruct (cleanup_ended _ _ _ H0 (b_sound _ B) E) as (_ & E1 & E2). done.
Qed.

Lemma other_returned (a : option Acceptance) (s s' : State) :
  inv s -> rows s -> returned s -> other digest s a s' -> returned s'.
Proof.
  intros I B P H T'. assert (T : task s = Returned).
  { destruct H; try done.
    - unfold begin_ in H. destruct (_ || _); [done|]. destruct (busy s); [done|]. by injection H as <-.
    - unfold queue in H0. destruct (_ || _); [done|]. by injection H0 as <-. }
  destruct (P T) as [E R]. pose proof (i_end _ I) as (_ & Z & _). rewrite T in Z. destruct (Z eq_refl) as [Z1 Z2].
  assert (N : forall n previous, changes s !! n <> Some (Inspected previous)).
  { intros n previous L. by discriminate (Z2 _ (list_elem_of_lookup_2 _ _ _ L)). }
  destruct H; try done; try by destruct (N n previous).
  - unfold begin_ in H. destruct (_ || _); [done|]. destruct (busy s); [done|]. by injection H as <-.
  - unfold queue in H0. destruct (_ || _); [done|]. by injection H0 as <-.
  - congruence.
  - split.
    + apply (ended_same (db s)); [|done]. cbn. unfold stop_root. by destruct (root_open _).
    + cbn. unfold stop_root. by destruct (root_open _).
  - cbn in *. destruct (prune_ok _ _ _ _ H H0) as [->|(c & C & Q & -> & _)]; [done|]. destruct E as [E1 E2 E3].
    split; [|done]. split; cbn.
    + intros j o [L _]%map_lookup_filter_Some. by eapply E1.
    + intros j p [_ L]%lookup_delete_Some. by eapply E2.
    + intros c' [= <-]. exact (E3 c C).
Qed.

Lemma reachable_returned (s : State) : reachable digest s -> returned s.
Proof.
  intros (r & o & _ & H). assert (I := viewer_start_inv r o). assert (B := start_rows r o).
  assert (P : returned (start r o)) by done.
  induction H as [|x y z [a H] _ IH]; [done|]. destruct (step_kept _ _ _ I B H) as (I' & B' & _). apply IH; [done..|].
  destruct H as [s' H|a' s' H]; [exact (run_returned _ _ I B H)|exact (other_returned _ _ _ I B P H)].
Qed.

(** ** Theorems *)

(** C11. A viewer encodes only while it is counted: when the process of one of its
    outputs encodes, its row claims an encoder of the household, whatever the
    outcomes of its transactions were. *)
Theorem encoders_are_counted (s : State) (i : Uuid) (o : Object) :
  reachable digest s -> objects s !! i = Some o -> o_running o = true ->
  Admission.encodes (out_binding (output_ o)) = true ->
  exists c, control (db s) = Some c /\ claim_encodes c = true.
Proof.
  intros H L R E. destruct (reachable_rows digest s H) as [_ B].
  destruct (b_open _ B i (look o)) as (r & M & C & F); [by apply looks_some|by apply needed_runs|].
  pose proof (b_sound _ B) as S. destruct (control (db s)) as [c|] eqn:Q.
  - exists c. split; [done|]. destruct (so_output _ S c _ r Q M) as (_ & _ & A & _). apply A; [by rewrite F|done].
  - destruct (so_none _ S Q) as [N _]. by rewrite N in M.
Qed.

(** C12. A viewer has at most one process: the next is started only when the one
    before has ended, also when starts, stops and transactions fail. *)
Theorem one_process_at_a_time (s : State) (i j : Uuid) (o p : Object) :
  reachable digest s -> objects s !! i = Some o -> objects s !! j = Some p ->
  o_running o = true -> o_running p = true -> i = j.
Proof.
  intros H L M R Q. destruct (reachable_rows digest s H) as [I _]. destruct (i_runs _ I) as [[k K] _].
  transitivity k; [by eapply (K i (look o)); [apply looks_some|]|].
  symmetry. by eapply (K j (look p)); [apply looks_some|].
Qed.

(** C13. When the task of a viewer returns, none of its processes runs, every output
    is completed and every operation at its end, no encoder is claimed, and the
    reservation can be released: also with changes that were accepted and never
    begun, or whose outcome was lost. *)
Theorem ended_viewers_hold_nothing (s : State) :
  reachable digest s -> task s = Returned ->
  (forall i o, objects s !! i = Some o -> o_running o = false) /\
  obligations_remain (db s) = false /\ r_completed (root (db s)) = true /\
  (forall c, control (db s) = Some c -> claim_encodes c = false).
Proof.
  intros H T. destruct (reachable_rows digest s H) as [I B]. destruct (reachable_returned s H T) as [[E1 E2 E3] E4].
  pose proof (i_end _ I) as (_ & _ & Z). rewrite T in Z. split; [|split; [|split; [done|]]].
  - intros i o L. by apply (Z i (look o)), looks_some.
  - unfold obligations_remain. apply orb_false_iff. split; apply map_existsb_false; cbn.
    + intros i o L. unfold unfinished. by rewrite (E1 i o L).
    + intros i p L. destruct (E2 i p L) as [N _]. unfold is_pending.
      pose proof (rv_operation _ (so_rows _ (b_sound _ B)) i p L) as V. unfold operation_valid in V. dk_bool.
      destruct (is_terminal (p_state p)); [done|]. by destruct (terminal_at p).
  - intros c C. by apply E3.
Qed.

(** C15. The rows stay consistent: in every state of a viewer that has its row, each
    row of the three tables satisfies the deferred trigger and the references,
    although they are checked only when the row is written. *)
Theorem rows_stay_consistent (s : State) (x : Around) (u : Touch) :
  reachable digest s -> released x = false -> control (db s) <> None -> graph_broken x (db s) u = false.
Proof.
  intros H R N. destruct (reachable_rows digest s H) as [_ B]. pose proof (b_sound _ B) as S.
  destruct (control (db s)) as [c|] eqn:C; [|done]. destruct u as [|i|i].
  - by apply (graph_control _ _ _ R C), so_control.
  - destruct (outputs (db s) !! i) as [o|] eqn:L; [by apply (graph_output _ _ _ _ _ C L), so_output|].
    unfold graph_broken. by rewrite C, L.
  - destruct (operations (db s) !! i) as [p|] eqn:L; [by apply (graph_operation _ _ _ _ _ C L), so_operation|].
    unfold graph_broken. by rewrite C, L.
Qed.

(** C16. The end of a viewer is never refused: in every state its last transaction
    passes all triggers and constraints, and leaves no output and no operation open. *)
Theorem cleanup_is_accepted (s : State) (x : Around) :
  reachable digest s -> released x = false ->
  exists t, cleanup x (db s) = Ok t /\ r_completed (root t) = true /\
    (forall i o, outputs t !! i = Some o -> resources_completed o = true) /\
    (forall i p, operations t !! i = Some p -> is_terminal (p_state p) = true /\ is_some_b (cleanup_at p) = true).
Proof.
  intros H R. destruct (reachable_rows digest s H) as [_ B].
  destruct (cleanup_accepted x (db s) R (b_sound _ B)) as (t & E & [S _] & [E1 E2 _] & D).
  exists t. split; [done|]. split; [done|]. split; [done|]. intros i p L. destruct (E2 i p L) as [N M].
  pose proof (rv_operation _ (so_rows _ S) i p L) as V. unfold operation_valid in V. dk_bool.
  split; [|by destruct (cleanup_at p)]. destruct (terminal_at p); [|done]. by destruct (is_terminal (p_state p)).
Qed.


End Theorems.

(** ** A viewer that is changed

    Its first output encodes; a change seeks; a second one is accepted after it. *)

Definition sample_time : Z := Admission.seconds 1700000000.
Definition sample_id (n : Z) : Uuid := Z.shiftl (sample_time / 1000) 80 + Z.shiftl 7 76 + n.
Definition sample_binding : Binding := Admission.mk_binding [] [] [] Admission.Transcode true false None.
Definition sample_output (n : Z) (operation : option Uuid) : Output :=
  mk_local (sample_id n) operation (Some (sample_id (n + 100))) sample_binding "{}".
Definition sample_around : Around :=
  mk_around (sample_time + 5) true false
    (Some (Admission.mk_policy None (Some 1) None true true true None true false true true)) 0 0 0 0.
Definition sample_found : Found := mk_found true true (Ok tt) (sample_id 50, sample_time) true "{}".
Definition sample_digest (v : ConfigurationResponse) : result string unit := Ok (g_revision v).

Definition after_ {A} (r : result (A * Tables) AdmissionError) (t : Tables) : Tables :=
  match r with Ok (_, t') => t' | Err _ => t end.
Definition sql (f : Tables -> result Tables AdmissionError) (s : State) : State :=
  with_db (after_ (unit_of f (db s)) (db s)) s.

(** The steps of [prepare_output], of a cleaning and of a change, in their order *)
Definition s_checked (k : For) (s : State) : State := with_task (Preparing k G_start) s.
Definition s_started (k : For) (s : State) : State :=
  with_task (Preparing k G_identity) (change_object (target k) (run_object true) s).
Definition s_identified (k : For) (s : State) : State := with_task (Preparing k G_publish) s.
Definition s_published (k : For) (o : Output) (s : State) : State :=
  with_task (Preparing k G_promote) (sql (publish sample_around sample_found o) s).
Definition s_promoted (k : For) (s : State) : State :=
  match promote (target k) s with Ok s' => prepared k s' | Err _ => s end.
Definition s_prepared (k : For) (o : Output) (s : State) : State :=
  s_promoted k (s_published k o (s_identified k (s_started k (s_checked k s)))).

Definition s_stopped (i : Uuid) (a : After) (s : State) : State :=
  with_task (Cleaning i a (Joining (Some true) None)) (change_object i clean_object s).
Definition s_drained (i : Uuid) (a : After) (s : State) : State :=
  with_task (Cleaning i a (Joining (Some true) (Some true))) s.
Definition s_joined (i : Uuid) (a : After) (s : State) : State := with_task (Cleaning i a Completing) s.
Definition s_cleaned (i : Uuid) (a : After) (o : Output) (s : State) : State :=
  after_clean a (Ok tt) (sql (complete_output sample_around o None) (s_joined i a (s_drained i a (s_stopped i a s)))).

Definition s_begun (s : State) : State :=
  match begin_ s with Ok s' => with_changes (changes s ++ [Begun]) s' | Err _ => s end.
Definition s_inspected (s : State) : State := with_changes (<[0%nat := Inspected (current s)]> (changes s)) s.

Definition first_output : Output := sample_output 1 None.

Definition sample_start : State := start (mk_root R_preparing [] false None None false false) first_output.
Definition sample_setup : State :=
  with_task (Preparing (First (sample_id 1)) G_check) (sql (setup sample_around first_output) sample_start).
Definition sample_running : State := s_started (First (sample_id 1)) (s_checked (First (sample_id 1)) sample_setup).
Definition sample_ready : State := s_prepared (First (sample_id 1)) first_output sample_setup.
Definition sample_asked : State := s_inspected (s_begun sample_ready).

(** It is cancelled when it is ready. *)
Definition sample_ended : State :=
  let i := sample_id 1 in
  with_task Returned (sql (cleanup sample_around) (with_task Completing_all
    (s_cleaned i (A_end []) first_output (start_clean i (A_end []) (with_task (Ending [i]) (stop_all (cancel sample_ready))))))).

Lemma run_moves (s s' : State) : run s s' -> moves sample_digest s s'.
Proof. intros H. exists None. by apply step_run. Qed.
Lemma other_moves (a : option Acceptance) (s s' : State) : other sample_digest s a s' -> moves sample_digest s s'.
Proof. intros H. exists a. by apply step_other. Qed.

Lemma sql_ran (f : Tables -> result Tables AdmissionError) (s : State) :
  is_ok (f (db s)) = true -> ran (unit_of f) (db s) (Ok tt) (db (sql f s)).
Proof.
  unfold sql, unit_of. intros H. destruct (f (db s)) as [t|] eqn:E; [|done]. apply ran_done. cbn. by rewrite E.
Qed.

Lemma prepared_steps (k : For) (ob : Object) (s : State) :
  task s = Preparing k G_check -> cancelled s || negb (active s) = false -> objects s !! target k = Some ob ->
  is_Some (out_generation (output_ ob)) -> is_ok (publish sample_around sample_found (output_ ob) (db s)) = true ->
  rtc (moves sample_digest) s (s_prepared k (output_ ob) s).
Proof.
  intros T C L G P. unfold s_prepared.
  eapply rtc_l; [apply run_moves; by apply (r_checked s k)|].
  eapply rtc_l; [apply run_moves; by apply (r_started (s_checked k s) k ob)|].
  eapply rtc_l; [apply run_moves; by apply (r_identified (s_started k (s_checked k s)) k)|].
  eapply rtc_l; [apply run_moves; apply (r_published (s_identified k (s_started k (s_checked k s))) k (run_object true ob)
    sample_around sample_found (db (sql (publish sample_around sample_found (output_ ob)) s))); try done|].
  { cbn. by rewrite lookup_alter_eq, L. } { exact (sql_ran (publish sample_around sample_found (output_ ob)) s P). }
  apply orb_false_iff in C as [_ C]. apply negb_false_iff in C. apply rtc_once, run_moves.
  change (run (s_published k (output_ ob) (s_identified k (s_started k (s_checked k s))))
    (s_promoted k (s_published k (output_ ob) (s_identified k (s_started k (s_checked k s)))))).
  unfold s_promoted. destruct (promote _ _) as [s'|] eqn:Q; [by apply r_promoted|].
  unfold promote in Q. cbn in Q. by rewrite C in Q.
Qed.

Lemma cleaned_steps (i : Uuid) (a : After) (ob : Object) (s : State) :
  task s = Cleaning i a (Joining None None) -> objects s !! i = Some ob -> o_readers ob = 0%nat ->
  is_ok (complete_output sample_around (output_ ob) None (db s)) = true ->
  rtc (moves sample_digest) s (s_cleaned i a (output_ ob) s).
Proof.
  intros T L R P. unfold s_cleaned.
  assert (L' : objects (s_stopped i a s) !! i = Some (clean_object ob)) by (cbn; by rewrite lookup_alter_eq, L).
  eapply rtc_l; [apply run_moves; by apply (r_cleaned s i a None ob)|].
  eapply rtc_l; [apply run_moves; by apply (r_drained (s_stopped i a s) i a (Some true) (clean_object ob) true)|].
  eapply rtc_l; [apply run_moves; by apply (r_joined (s_drained i a (s_stopped i a s)) i a true true)|].
  apply rtc_once, run_moves.
  apply (r_closed (s_joined i a (s_drained i a (s_stopped i a s))) i a (clean_object ob) sample_around None (Ok tt)); try done.
  exact (sql_ran (complete_output sample_around (output_ ob) None) s P).
Qed.

Lemma sample_setup_reached : rtc (moves sample_digest) sample_start sample_setup.
Proof.
  apply rtc_once, run_moves.
  apply (r_setup sample_start sample_around (new_object first_output) (Ok tt)); [done|done|vm_compute; reflexivity|].
  apply sql_ran. vm_compute. reflexivity.
Qed.

Definition first_object : Object := new_object first_output.

Lemma sample_running_reached : reachable sample_digest sample_running.
Proof.
  exists (mk_root R_preparing [] false None None false false), first_output. split; [done|].
  etransitivity; [exact sample_setup_reached|].
  eapply rtc_l; [apply run_moves; apply (r_checked sample_setup (First (sample_id 1))); vm_compute; reflexivity|].
  apply rtc_once, run_moves, (r_started (s_checked (First (sample_id 1)) sample_setup) (First (sample_id 1)) first_object).
  - done.
  - vm_compute. reflexivity.
  - by eexists.
Qed.

Lemma sample_ready_reached : rtc (moves sample_digest) sample_start sample_ready.
Proof.
  etransitivity; [exact sample_setup_reached|].
  apply (prepared_steps (First (sample_id 1)) first_object sample_setup); [done|vm_compute; reflexivity..|by eexists|].
  vm_compute. reflexivity.
Qed.

(** A request up to its acceptance *)
Lemma asked_steps (s : State) :
  is_ok (begin_ s) = true -> changes s = [] -> rtc (moves sample_digest) s (s_inspected (s_begun s)).
Proof.
  intros B C. unfold s_begun. destruct (begin_ s) as [s'|] eqn:E; [|done].
  eapply rtc_l; [apply (other_moves None); by apply o_begin|]. apply rtc_once, (other_moves None).
  apply o_inspect; [cbn; by rewrite C|]. unfold begin_ in E. destruct (negb (active s) || uncertain s) eqn:A; [done|].
  destruct (busy s); [done|]. injection E as <-. cbn. apply orb_false_iff in A as [A _]. by apply negb_false_iff in A.
Qed.


Lemma sample_asked_reached : reachable sample_digest sample_asked.
Proof.
  exists (mk_root R_preparing [] false None None false false), first_output. split; [done|].
  etransitivity; [exact sample_ready_reached|]. apply asked_steps; vm_compute; reflexivity.
Qed.










Lemma returned_step (s : State) :
  task s = Completing_all -> is_ok (cleanup sample_around (db s)) = true ->
  run s (with_task Returned (sql (cleanup sample_around) s)).
Proof.
  intros T P. refine (r_returned s sample_around (db (sql (cleanup sample_around) s)) T eq_refl _).
  exact (sql_ran (cleanup sample_around) s P).
Qed.

Lemma sample_ended_reached : reachable sample_digest sample_ended.
Proof.
  exists (mk_root R_preparing [] false None None false false), first_output. split; [done|].
  etransitivity; [exact sample_ready_reached|].
  set (s1 := stop_all (cancel sample_ready)). set (s2 := with_task (Ending [sample_id 1]) s1).
  set (s3 := start_clean (sample_id 1) (A_end []) s2).
  eapply (rtc_l _ _ (cancel sample_ready)); [apply (other_moves None), o_cancel|].
  eapply (rtc_l _ _ s1); [apply run_moves, r_break; vm_compute; reflexivity|].
  eapply (rtc_l _ _ s2).
  { apply run_moves. apply (r_idle s1 [sample_id 1]); [done|vm_compute; reflexivity|].
    change (elements (slot s1)) with (elements ({[sample_id 1]} : gset Uuid)). by rewrite elements_singleton. }
  eapply (rtc_l _ _ s3); [apply run_moves, r_next; [done|eexists; vm_compute; reflexivity]|].
  etransitivity.
  { apply (cleaned_steps (sample_id 1) (A_end []) (mk_object first_output false true false false true 0) s3);
      [done|vm_compute; reflexivity..]. }
  set (s4 := s_cleaned (sample_id 1) (A_end []) first_output s3).
  eapply (rtc_l _ _ (with_task Completing_all s4)); [apply run_moves; by apply r_all_clean|].
  refine (rtc_once _ _ (run_moves _ _ (returned_step (with_task Completing_all s4) _ _))); vm_compute; reflexivity.
Qed.

(** Witnesses *)

Lemma encoders_are_counted_witness :
  exists c, control (db sample_running) = Some c /\ claim_encodes c = true.
Proof.
  apply (encoders_are_counted sample_digest sample_running (sample_id 1) (run_object true first_object)).
  - exact sample_running_reached.
  - vm_compute. reflexivity.
  - reflexivity.
  - reflexivity.
Defined.

Lemma one_process_at_a_time_witness : sample_id 1 = sample_id 1.
Proof.
  apply (one_process_at_a_time sample_digest sample_running (sample_id 1) (sample_id 1)
           (run_object true first_object) (run_object true first_object)).
  - exact sample_running_reached.
  - vm_compute. reflexivity.
  - vm_compute. reflexivity.
  - reflexivity.
  - reflexivity.
Defined.

Lemma ended_viewers_hold_nothing_witness : obligations_remain (db sample_ended) = false.
Proof.
  assert (T : task sample_ended = Returned) by (vm_compute; reflexivity).
  exact (proj1 (proj2 (ended_viewers_hold_nothing sample_digest sample_ended sample_ended_reached T))).
Defined.

Lemma rows_stay_consistent_witness : graph_broken sample_around (db sample_running) T_control = false.
Proof.
  apply (rows_stay_consistent sample_digest sample_running sample_around T_control).
  - exact sample_running_reached.
  - reflexivity.
  - vm_compute. discriminate.
Defined.

Lemma cleanup_is_accepted_witness :
  exists t, cleanup sample_around (db sample_asked) = Ok t /\ r_completed (root t) = true.
Proof.
  destruct (cleanup_is_accepted sample_digest sample_asked sample_around) as (t & E & R & _).
  - exact sample_asked_reached.
  - reflexivity.
  - exists t. split; [exact E|exact R].
Defined.


End ViewersTheorems.
